(* ===== verification/_CoqProject ===== *)
-Q . S2P
Prelude.v
GoText.v
GoOrder.v
GoUnicode.v
GoRegexp.v
GoFloat.v
Session.v
Contracts.v
Lexical.v
Vocabulary.v
TurnDetector.v
BargeIn.v
Playback.v
Memory.v
Orchestrator.v
PlaybackFollowUp.v
GoJSON.v
HouseholdSkill.v
AgentRuntime.v
ToolRuntime.v
BootstrapExecutor.v
PromptSections.v
LLMExecutor.v
Semantic.v
SlotValues.v
EntityCatalog.v
EntityGrounding.v
SlotParser.v
Rollout.v
SpeechPlanner.v
Audio.v
PlaybackAck.v
SpeechStream.v
BargeInRuntime.v
PreviewPipeline.v
TurnTrace.v
GatewayProfile.v
OutputEffects.v
InputAudio.v
TurnResponse.v
Transcription.v
Responder.v
TurnFlow.v
OutputFlow.v
InputFlow.v
TurnRun.v
RealtimeHandler.v
ConnectionInvariant.v
RealtimeContract.v
XiaozhiProtocol.v
XiaozhiHandler.v
XiaozhiContract.v
ChatModelClient.v
ChannelBridge.v
SpeechWire.v
FrameReader.v
SpeechClient.v
PreviewOverHTTP.v
SpeechSynthesizers.v
IflytekRecognizer.v
