(* ===== verification/Prelude.v ===== *)
(** * A verification library for agent-server

    The server holds spoken conversations with devices: it decides when a user
    has finished speaking, lets a model or built-in commands answer with the help
    of tools and memory, speaks the answer in clauses that are synthesized while
    the model still writes, lets the user interrupt, and remembers what was really
    heard.  This development models the logic of those decisions as it is written
    in Go and proves what makes it correct.  This file is the shared base (machine
    integers, durations, instants, the error sum, functional record update, the
    tactics and hint databases); the others model one part each.

    ** Parts

    - GoText.v, GoOrder.v, GoUnicode.v, GoRegexp.v, GoFloat.v, GoJSON.v: what the
      sources use of Go's strings, sort, unicode, strconv, regexp, float64 and
      encoding/json. A string is the list of its code points; a float64 is a
      binary64 of the Standard Library's [SpecFloat].
    - Session.v: internal/session. The realtime session with two lanes (input,
      output) and the compatibility state; [step] is one call under the mutex,
      [astep] the specification it refines.
    - Contracts.v: the records of internal/voice/contracts.go.
    - Lexical.v, Vocabulary.v: word tables, completeness, corrections,
      backchannels, task families; the closed vocabularies of the judge and the
      slot parser.
    - TurnDetector.v: internal/voice/turn_detector.go. [Arbitrate] and
      [recomputeTurnArbitration] fold the signals into a stage; the detector's
      methods are its operations.
    - BargeIn.v: internal/voice/barge_in.go. Scores, verdict, playback directives.
    - Playback.v, Orchestrator.v: internal/voice/session_orchestrator.go. What
      counts as heard; the turn being spoken, from its preparation to its outcome.
    - Memory.v: internal/agent/runtime_backends.go and memory_context.go. The
      in-memory store behind the class [MemoryStore] and its laws, which the
      orchestrator's theorems are proved against.
    - PlaybackFollowUp.v: internal/agent/playback_followup.go. What a user who asks
      to go on is told, from the metadata the orchestrator left.
    - HouseholdSkill.v, ToolRuntime.v: the tools (runtime_skill_household.go,
      runtime_skill.go, runtime_backends.go).
    - AgentRuntime.v: the data and interfaces of internal/agent/contracts.go as the
      class [AgentServices], and the monad [agent] the executors run in.
    - BootstrapExecutor.v, PromptSections.v, LLMExecutor.v: the two turn executors
      and the system prompt (bootstrap_executor.go, llm.go, llm_executor.go).
    - Semantic.v, Rollout.v: the judge and slot parser as a revocable weighting of
      the arbitration, their candidate keys and in-flight state, and the sticky
      rollout.
    - SlotValues.v, EntityCatalog.v, EntityGrounding.v, SlotParser.v: the values a
      request names, the catalogue of rooms, devices and apps with each session's
      recents, and the stack of parsers over a model (slot_value_normalizer.go,
      entity_catalog.go, semantic_slot_parser.go, semantic_slot_profiles.go).
    - SpeechPlanner.v: internal/voice/speech_planner.go, the cutting of a growing
      answer into clauses.
    - Audio.v: PCM frames, the WAV reader, audio streams, the Opus packet header.
    - PlaybackAck.v: internal/gateway/voice_collaboration.go and the ack handlers of
      realtime_ws.go, over the orchestrator.
    - SpeechStream.v: the planner's worker, its queue, and the gateway's player
      over it.
    - BargeInRuntime.v: internal/gateway/barge_in_runtime.go, the audio staged
      while the server speaks, over the session.
    - PreviewPipeline.v: internal/voice/asr_responder.go, the preview of a turn
      while the user speaks: recognition, detector, the two asynchronous answers
      and the warm-up of the executor.
    - TurnResponse.v, Transcription.v, Responder.v: the answers of internal/voice
      (orchestrated_response.go, streaming_transcriber.go, speech_metadata.go,
      asr_responder.go, bootstrap_responder.go). The response future and its two
      readers, the transcription of a turn, the two responders with the planned
      synthesis of what they say.
    - TurnTrace.v, GatewayProfile.v, OutputEffects.v, InputAudio.v: turn_trace.go and
      preview_trace.go; realtime.go, the negotiation and the read deadlines;
      output_effects.go and output_outcome.go; the input normalizers and the
      resampler of internal/voice.
    - TurnFlow.v: internal/gateway/turn_flow.go. A turn sent to a transport: the
      [select] over deltas, early audio and response is the list of the cases it
      takes, [schedule_of] the lists three channels can produce.
    - OutputFlow.v: output_flow.go and realtime_runtime.go with the playback parts
      of realtime_ws.go. The runtime of a connection is the record [gateway], its
      computations the monad [gw]; what the socket answers is the class
      [Connection]. Interruption, completion, the end of a session, the start and
      the end of a playback.
    - InputFlow.v, TurnRun.v, RealtimeHandler.v: turn_input_preview.go and
      realtime_ws.go. The preview of a connection, a turn from its request to its
      delivery, and the handlers of messages, ticks and read errors.
    - ConnectionInvariant.v, RealtimeContract.v: what every reachable connection
      keeps, and what the handlers promise.
    - XiaozhiProtocol.v, XiaozhiHandler.v, XiaozhiContract.v: xiaozhi_protocol.go,
      xiaozhi_ota.go, the packet stream of xiaozhi_audio.go and xiaozhi_ws.go. A
      second transport over the same [gateway]: its frames, its handlers (over the
      runtime and the device's state) and playback goroutine, and their promises.
    - ChatModelClient.v: internal/agent/deepseek_chat.go, the client that is a
      [ChatModel] of the executor.
    - ChannelBridge.v: internal/channel, from a text channel's message to a turn of
      any executor, its delivery and its report.
    - SpeechWire.v, SpeechClient.v, PreviewOverHTTP.v, IflytekRecognizer.v: two
      recognizers (http_transcriber.go, iflytek_rtasr.go). The codings of speech
      services; a stream whose deltas are what a preview hears, as an instance of
      [PreviewEnvironment]; a recording sent over a WebSocket and its transcript.
    - FrameReader.v, SpeechSynthesizers.v: three synthesizers (volcengine_tts.go,
      iflytek_tts.go, mimo_tts.go). The class [AudioSource] is one turn of the loop
      of a stream's [Next]; each service's stream is an instance, and a service
      that speaks is a [Synthesizer] the player's theorems hold for.

    ** How the parts meet

    The orchestrator takes any memory store and any preview session (classes
    [MemoryStore] and [PreviewSession]; [InMemory_laws] discharges the first, the
    preview pipeline is an instance of the second).  The executors take any
    services; the tools of ToolRuntime.v are what the server gives them.  What the
    orchestrator writes of an interrupted playback is what the follow-up reads.
    The player takes the planner's clauses through any [Synthesizer] and announces
    them with the ack state's cursor; the ack handlers turn the client's answers
    into the orchestrator's facts. The staging area drives the session.
    [gateway] holds the session with its staging area, the orchestrator, the two
    traces, the acks and the output; the handlers of RealtimeHandler.v compose the
    operations of those parts, and TurnFlow.v runs in it through the class
    [TurnWorld]. A responder is a function from the request to what the select sees
    of it ([responder_run]); Responder.v says what the two responders produce.  What
    other goroutines do between two steps of a handler is a case of the select
    ([Meanwhile]) and a constructor of [connected]; how a cancelled playback
    goroutine ends is an argument of the handlers ([ended]).

    ** What the theorems show

    - the way of an answer: [answer_reaches_the_client] from the model's deltas to
      the client's frames, with [planner_speaks_the_answer],
      [planner_holds_back_less_than_a_clause], [player_plays_every_segment],
      [announced_segments], [chunk_pcm16_partition];
    - the way back: [mark_sets_heard_text], [first_terminal_ack_wins],
      [interruption_settles], [completion_settles], [orchestrated_turn_wellformed],
      [heard_text_estimate], [heard_missed_partition];
    - the next turn: [continue_replays_the_unheard], [previous_playback_round_trip],
      [follow_up_is_answered], [detect_is_loose];
    - a turn's execution: [llm_turn_says_its_answer], [tool_calls_are_answered],
      [model_calls_bounded], [bootstrap_always_answers], [tools_answer_their_calls],
      [household_asks_first], [model_names_reach_their_tools],
      [model_tool_name_shape], and the turns prepared ahead,
      [prepared_turn_is_transparent] and [prepared_turn_is_used_once];
    - the user's audio: [commit_hands_over_ingested_audio],
      [staged_audio_reaches_the_turn], [preview_hears_the_frame], the session's
      invariant, refinement and error theorems, [wav_round_trip], [opus_header_spec];
    - when a turn ends: [silence_ends_turn] (exactly the configured wait) and
      [commit_needs_speech_and_silence] (safety), [answers_never_commit],
      [arbitration_ladder], [effective_wait_bounded], [commit_latched],
      [detector_wellformed], [prewarm_discipline];
    - when speech interrupts: [barge_in_needs_evidence],
      [acknowledgement_interrupts_only_when_accepted],
      [backchannel_never_interrupts], [sustained_speech_interrupts];
    - the semantic layer: [parser_answers_are_typed], [grounding_is_sound],
      [ambiguity_asks_back], [grounded_target_is_remembered],
      [recent_store_invariant], [grounding_is_per_session], [mentions_are_found],
      [hints_are_bounded], [detected_value_ranges], [spoken_number_round_trip],
      [risky_targets_wait], [semantic_gates], [answers_match_previews],
      [candidate_key_injective], [rollout_sticky_monotone];
    - the gateway: [connection_stays_sound] through any messages and steps;
      [session_start_opens_or_explains], [heard_frames_are_the_turn],
      [staged_frames_are_the_turn], [idle_connection_explains] for what comes in;
      [turn_is_sent], [turn_reaches_the_client], [failed_turn_is_cancelled],
      [failed_turn_ends_the_session] for what goes out; [spoken_answer_starts],
      [interruption_stops_the_turn], [playback_ends_the_turn],
      [session_end_leaves_nothing], [close_reason_meets_deadline],
      [ducked_audio_is_scaled], [ducking_envelope], [preview_milestones_once];
    - the speech services: [volcengine_speaks_the_answer] from the model's deltas
      through a service's pieces to the client's frames (with [iflytek_frames] and
      [mimo_audio_of_body] for the others), [preview_says_what_is_heard],
      [http_stream_is_a_story], [recording_is_transcribed];
    - the devices: [device_frames_are_the_turn] and [device_hears_the_answer] from a
      device's frames to its turn and from an answer's packets to its frames,
      [xiaozhi_frame_round_trip];
    - model and channels: [streamed_completion_is_the_whole],
      [channel_message_is_settled], [channel_retry_is_the_same_turn],
      [channel_user_is_remembered];
    - the responders: [audio_goes_out_once], [early_start_is_the_answers_audio],
      [understood_turn_is_heard], [turn_context_follows_the_audio],
      [streaming_equals_batch], [opus_packets_become_whole_samples];
    - memory: [memory_window], [memory_bounded], [memory_scope_isolation],
      [memory_recalls_latest].

    Some theorems record where the code falls short of its intent:
    [blank_delta_repeats_text], [update_playback_reestimates_mark],
    [english_correction_slice], [single_rune_backchannel],
    [merge_leaves_commit_decision], [gateway_estimate_agrees],
    [late_answer_relaunches], [relative_step_read_as_one_percent],
    [third_alias_shadows_second], [signatures_collide],
    [bare_verb_is_not_questioned], [partial_count_counts_blanks],
    [answer_may_be_sent_twice], [streamed_answer_has_no_planned_duration],
    [barge_in_during_the_ack_wait_is_a_completion], [late_end_takes_the_new_acks],
    [staged_audio_outlives_the_session], [dropped_preview_is_still_told],
    [barge_in_speech_start_is_not_told], [failed_answer_leaves_the_device_unheard],
    [tiny_rate_never_ends], [heard_turn_starts_cold],
    [repeated_takeover_does_not_interrupt], [documented_windows_are_cut].

    ** Bounds and fuel

    [int], [int64] and [time.Duration] are 64-bit; [i64] is the wrap-around, and a
    theorem that needs its absence says so. Fuel appears where the Go code loops:
    [drain_loop] (the length of the text plus one: every round that goes on
    shortens it, [drain_loop_fuel]), [chunk_loop] and [wav_loop] (the length of the
    payload plus one), [parse_loose] (the length of the number word,
    [parse_loose_fuel]), [collect_loop] and [player] (one more than the chunks and
    segments there are, [player_results]); they are proved to stop by themselves.
    What is on the wire of a stream of audio bounds the turns of [refill]
    ([refill_fills]) and its audio the frames ([read_frames_law]); the messages to
    come bound [listen] ([conversation_ends]).
    The turn's loop of tool calls has the code's own bound of six steps.
    Lengths of payloads and texts are below 2^62, as memory is.

    ** What is not modelled

    Sockets, the loop that reads them, JSON framing, logging (but for the lines the
    traces write), metrics, clients and scripts; the encoder of the Xiaozhi
    transport, a subprocess; the services behind the chat model, the recognizers and
    the synthesizers, which are parameters ([Do] of ChatModelClient.v,
    [SpeechService], [SocketService], [VendorService], [SemanticServices]), with
    their contexts, timeouts and the pace of what is sent; the CosyVoice client,
    whose resampler walks a binary64 position that is never rounded to a sample, so
    that nothing about where it stops holds without an analysis of the rounding;
    configuration and wiring; keyed hashes; the decoding of JSON, which is a
    parameter wherever a reply or a tool's input is decoded; the wording of the
    judge's and the slot parser's prompts; goroutine schedules beyond the order of
    messages in a channel and of calls under a mutex: a handler's own step is not
    interleaved with another goroutine's but where the code waits; the Opus decoder,
    a third-party package, which is the class [OpusDecoder]. *)

From stdpp Require Export base tactics decidable option list list_numbers numbers countable.
From stdpp Require Export gmap strings.
From Stdlib Require Export ZArith Lia Bool.
From Stdlib Require Export Strings.Byte.
#[global] Open Scope Z_scope.
#[global] Open Scope list_scope.

(** ** Integers of the platform

    [int], [int64] and [time.Duration] are 64-bit two's complement on the
    platforms the server is built for.  Values are kept in [Z]; [i64] is the
    wrap-around every operation that may leave the range goes through. *)

Definition two63 : Z := 9223372036854775808.
Definition two64 : Z := 18446744073709551616.
Definition max_int64 : Z := two63 - 1.
Definition min_int64 : Z := - two63.

Definition in_i64 (z : Z) : Prop := min_int64 <= z <= max_int64.

Definition i64 (z : Z) : Z := (z + two63) `mod` two64 - two63.

(** Go's [/] and [%] truncate towards zero. *)
Definition idiv (a b : Z) : Z := i64 (Z.quot a b).
Definition irem (a b : Z) : Z := Z.rem a b.

#[global] Arguments i64 _ : simpl never.
#[global] Arguments idiv _ _ : simpl never.
#[global] Arguments irem _ _ : simpl never.

Lemma i64_range z : in_i64 (i64 z).
Proof.
  unfold in_i64, i64, min_int64, max_int64, two63, two64.
  pose proof (Z.mod_pos_bound (z + 9223372036854775808) 18446744073709551616 ltac:(lia)).
  lia.
Qed.

Lemma i64_id z : in_i64 z -> i64 z = z.
Proof.
  unfold in_i64, i64, min_int64, max_int64, two63, two64. intros H.
  rewrite Z.mod_small; lia.
Qed.

Lemma i64_idemp z : i64 (i64 z) = i64 z.
Proof. apply i64_id, i64_range. Qed.

Lemma i64_add_l a b : i64 (i64 a + b) = i64 (a + b).
Proof.
  unfold i64, two63, two64. f_equal.
  set (M := 18446744073709551616).
  replace ((a + 9223372036854775808) mod M - 9223372036854775808 + b + 9223372036854775808)
    with ((a + 9223372036854775808) mod M + b) by lia.
  rewrite Z.add_mod_idemp_l by (unfold M; lia). f_equal. lia.
Qed.

Lemma i64_add_r a b : i64 (a + i64 b) = i64 (a + b).
Proof. rewrite Z.add_comm, i64_add_l. f_equal. lia. Qed.

(** [mod] and [/] become linear for [lia] in goals about these integers. *)
Ltac i64_lia :=
  unfold in_i64, min_int64, max_int64, two63, two64 in *; lia.

Ltac i64_simpl :=
  repeat match goal with
  | |- context [i64 ?z] => rewrite (i64_id z) by i64_lia
  end.

(** Division of a non-negative [int64] by a positive one is the floor. *)
Lemma idiv_floor a b : 0 <= a -> 0 < b -> a <= max_int64 -> idiv a b = a / b.
Proof.
  intros Ha Hb Hm. unfold idiv. rewrite Z.quot_div_nonneg by lia. apply i64_id.
  assert (0 <= a / b <= a) by (split; [apply Z.div_pos; lia | apply Z.div_le_upper_bound; nia]).
  revert H Hm. generalize (a / b). intros; i64_lia.
Qed.

(** ** Durations and instants

    A duration is a count of nanoseconds held in an [int64].  An instant is
    the number of nanoseconds since Go's zero [time.Time] (1 January of
    year 1), so [IsZero] is [= 0]; [time.Now] is always past it. *)

Definition Microsecond : Z := 1000.
Definition Millisecond : Z := 1000000.
Definition Second : Z := 1000000000.

Abbreviation duration := Z (only parsing).
Abbreviation instant := Z (only parsing).

Definition time_zero : instant := 0.
Definition IsZero (t : instant) : bool := t =? 0.

(** [t.Sub(u)] saturates at the ends of [time.Duration]. *)
Definition time_Sub (t u : instant) : duration :=
  Z.max min_int64 (Z.min max_int64 (t - u)).
Definition time_Add (t : instant) (d : duration) : instant := t + d.
Definition time_Before (t u : instant) : bool := t <? u.
Definition time_After (t u : instant) : bool := u <? t.

(** Nanoseconds from the zero instant to the Unix epoch. *)
Definition unix_epoch : instant := 62135596800 * Second.
Definition UnixNano (t : instant) : Z := i64 (t - unix_epoch).

(** [d.Milliseconds()] and [int(d / time.Millisecond)]. *)
Definition Milliseconds (d : duration) : Z := Z.quot d Millisecond.

#[global] Arguments time_Sub _ _ : simpl never.
#[global] Arguments UnixNano _ : simpl never.
#[global] Arguments Milliseconds _ : simpl never.

Lemma time_Sub_range t u : in_i64 (time_Sub t u).
Proof. unfold time_Sub. i64_lia. Qed.

Lemma time_Sub_exact t u : in_i64 (t - u) -> time_Sub t u = t - u.
Proof. unfold time_Sub. i64_lia. Qed.

Lemma time_Sub_mono t t' u : t <= t' -> time_Sub t u <= time_Sub t' u.
Proof. unfold time_Sub. i64_lia. Qed.

Lemma Milliseconds_mono d d' : d <= d' -> Milliseconds d <= Milliseconds d'.
Proof. intros H. unfold Milliseconds. apply Z.quot_le_mono; [unfold Millisecond; lia | exact H]. Qed.

(** ** Results of fallible code *)

Inductive result (E A : Type) : Type :=
| Ok (a : A)
| Err (e : E).
Arguments Ok {E A} _.
Arguments Err {E A} _.

Definition result_bind {E A B} (m : result E A) (f : A -> result E B) : result E B :=
  match m with Ok a => f a | Err e => Err e end.

Definition is_Ok {E A} (m : result E A) : bool :=
  match m with Ok _ => true | Err _ => false end.

Declare Scope go_scope.
Delimit Scope go_scope with go.
Notation "'let!' x ':=' m 'in' k" := (result_bind m (fun x => k))
  (at level 10, x pattern, m at level 100, k at level 200) : go_scope.

(** ** Functional update of one field of a struct

    [Rebuild R] is the eta-expansion of a record type over its fields;
    [r <| f := v |>] replaces the field [f] by abstracting its projection in
    that expansion. *)

Class Rebuild (R : Type) := rebuild : R -> R.

Class FieldMap {R T : Type} (proj : R -> T) := field_map : (T -> T) -> R -> R.
Arguments field_map {R T} proj {FieldMap} _ _.

Ltac derive_field_map :=
  lazymatch goal with
  | |- @FieldMap ?R ?T ?proj =>
      let inst := constr:(_ : Rebuild R) in
      let eta := eval hnf in inst in
      lazymatch (eval pattern proj in eta) with
      | ?ctx _ =>
          let body := eval cbv beta in (fun (h : T -> T) (r : R) => ctx (fun r' => h (proj r')) r) in
          exact body
      end
  end.

#[global] Hint Extern 1 (FieldMap _) => derive_field_map : typeclass_instances.

Notation "r <| f := v |>" := (field_map f (fun _ => v) r)
  (at level 1, f constr at level 0, v at level 99, left associativity,
   format "r <| f  :=  v |>") : go_scope.
#[global] Open Scope go_scope.

(** Reads through field updates, one projection at a time: reading the
    updated field gives the new value, reading another one skips the update.
    The equation is checked once on a variable record and then rewritten
    with, so no chain of updates is ever expanded field by field. *)
Ltac with_read_law f g i h r tac :=
  let R := type of r in
  let law := fresh "law" in
  tryif constr_eq f g
  then (assert (law : forall h' (r' : R), f (field_map g (FieldMap:=i) h' r') = h' (f r'))
          by (intros; reflexivity))
  else (assert (law : forall h' (r' : R), f (field_map g (FieldMap:=i) h' r') = f r')
          by (intros; reflexivity));
  tac law; clear law.

(** A projection, perhaps of a record with type parameters. *)
Ltac is_field f :=
  first [is_const f | lazymatch f with ?g ?A => lazymatch type of A with Type => is_field g end end].

Ltac read_fields :=
  repeat match goal with
  | |- context [?f (@field_map ?R ?T ?g ?i ?h ?r)] =>
      is_field f;
      with_read_law f g i h r ltac:(fun law => rewrite !law)
  end; cbv beta.

Ltac read_fields_in H :=
  repeat match type of H with
  | context [?f (@field_map ?R ?T ?g ?i ?h ?r)] =>
      is_field f;
      with_read_law f g i h r ltac:(fun law => rewrite !law in H)
  end; cbv beta in H.

(** ** Automation shared by the components *)

Create HintDb go.
Create Rewrite HintDb go.

Lemma bool_decide_false_iff (P : Prop) `{Decision P} : bool_decide P = false <-> ~ P.
Proof. rewrite bool_decide_eq_false. reflexivity. Qed.

(** Turns the boolean conditions of the code into propositions. *)
Ltac bool_prop :=
  repeat match goal with
  | H : (_ && _)%bool = true |- _ => apply andb_true_iff in H; destruct H
  | H : (_ || _)%bool = false |- _ => apply orb_false_iff in H; destruct H
  | H : (_ || _)%bool = true |- _ => apply orb_true_iff in H
  | H : (_ && _)%bool = false |- _ => apply andb_false_iff in H
  | H : negb _ = true |- _ => apply negb_true_iff in H
  | H : negb _ = false |- _ => apply negb_false_iff in H
  | H : (_ <=? _) = true |- _ => apply Z.leb_le in H
  | H : (_ <=? _) = false |- _ => apply Z.leb_gt in H
  | H : (_ <? _) = true |- _ => apply Z.ltb_lt in H
  | H : (_ <? _) = false |- _ => apply Z.ltb_ge in H
  | H : (_ >=? _) = true |- _ => rewrite Z.geb_leb in H; apply Z.leb_le in H
  | H : (_ >=? _) = false |- _ => rewrite Z.geb_leb in H; apply Z.leb_gt in H
  | H : (_ >? _) = true |- _ => rewrite Z.gtb_ltb in H; apply Z.ltb_lt in H
  | H : (_ >? _) = false |- _ => rewrite Z.gtb_ltb in H; apply Z.ltb_ge in H
  | H : (_ =? _) = true |- _ => apply Z.eqb_eq in H
  | H : (_ =? _) = false |- _ => apply Z.eqb_neq in H
  | H : bool_decide _ = true |- _ => apply bool_decide_eq_true in H
  | H : bool_decide _ = false |- _ => apply bool_decide_eq_false in H
  end.

(** One case split on the condition of an [if] of the goal. *)
Ltac split_if :=
  match goal with
  | |- context [if ?b then _ else _] => destruct b eqn:?
  end.

Ltac split_if_in H :=
  match type of H with
  | context [if ?b then _ else _] => destruct b eqn:?
  end.

(** ** Generic lemmas on lists and options *)

Lemma fold_left_inv {A B} (P : A -> Prop) (f : A -> B -> A) (l : list B) (a : A) :
  P a -> (forall a b, b ∈ l -> P a -> P (f a b)) -> P (fold_left f l a).
Proof.
  revert a. induction l as [|b l IH]; intros a Ha Hf; cbn; [exact Ha|].
  apply IH.
  - apply Hf; [apply list_elem_of_here | exact Ha].
  - intros a' b' Hb'. apply Hf. apply list_elem_of_further. exact Hb'.
Qed.

Lemma prefix_of_same_length {A} (l k : list A) :
  l `prefix_of` k -> (length k <= length l)%nat -> l = k.
Proof.
  intros [m ->] H. rewrite length_app in H.
  destruct m; [by rewrite app_nil_r | cbn in H; lia].
Qed.

Lemma take_prefix_of {A} (l : list A) n : take n l `prefix_of` l.
Proof. exists (drop n l). by rewrite take_drop. Qed.

Lemma take_prefix_take {A} (l : list A) n m : (n <= m)%nat -> take n l `prefix_of` take m l.
Proof.
  intros H. exists (drop n (take m l)).
  rewrite <- (take_drop n (take m l)) at 1. f_equal.
  rewrite take_take. f_equal. lia.
Qed.

(** [len] of a slice. *)
Definition len {A} (l : list A) : Z := Z.of_nat (length l).

#[global] Arguments len {A} l : simpl never.

Lemma len_nonneg {A} (l : list A) : 0 <= len l.
Proof. unfold len. lia. Qed.
Lemma len_app {A} (l k : list A) : len (l ++ k) = len l + len k.
Proof. unfold len. rewrite length_app. lia. Qed.
Lemma len_nil {A} : len (@nil A) = 0.
Proof. reflexivity. Qed.
Lemma len_cons {A} (x : A) l : len (x :: l) = 1 + len l.
Proof. unfold len. cbn [length]. lia. Qed.
Lemma len_pos {A} (l : list A) : 0 < len l <-> l <> [].
Proof. unfold len. destruct l; cbn [length]; split; [lia|done|done|lia]. Qed.
#[export] Hint Resolve len_nonneg : go.
#[export] Hint Rewrite @len_app @len_nil @len_cons : go.

(** Bytes of audio payloads. *)
Definition byte_val (b : byte) : Z := Z.of_N (Byte.to_N b).

Lemma byte_val_range b : 0 <= byte_val b < 256.
Proof. unfold byte_val. pose proof (Byte.to_N_bounded b). lia. Qed.

Lemma len_zero {A} (l : list A) : (len l =? 0) = match l with [] => true | _ :: _ => false end.
Proof. by destruct l. Qed.
