(* ===== verification/GoText.v ===== *)
(** * Go strings as texts

    The server's strings come out of [encoding/json] and string literals, so
    they are valid UTF-8; a string is modelled by its runes.  [[]rune(s)] is
    then the identity, [utf8.RuneCountInString] is [length], and the [strings]
    functions the source calls act on rune lists.  [rune_len] and [utf8_len]
    give byte lengths where the source takes [len(s)].  [unicode_ToLower]
    holds the simple lower-case mapping of the Unicode tables the Go release
    of the build file ships. *)

From S2P Require Import Prelude.

Abbreviation rune := Z (only parsing).
Definition text := list Z.

Declare Scope text_scope.
Delimit Scope text_scope with text.
Bind Scope text_scope with text.

(** ** Literals

    A Rocq string literal holds the bytes of its UTF-8 encoding, exactly as a
    Go literal does; [txt] decodes them. *)

Definition ascii_byte (c : Ascii.ascii) : Z := Z.of_N (Ascii.N_of_ascii c).

Fixpoint string_bytes (s : string) : list Z :=
  match s with
  | EmptyString => []
  | String c s' => ascii_byte c :: string_bytes s'
  end.

Fixpoint decode_literal (bs : list Z) : text :=
  match bs with
  | [] => []
  | b0 :: r0 =>
      if b0 <? 128 then b0 :: decode_literal r0 else
      match r0 with
      | [] => [65533]
      | b1 :: r1 =>
          if b0 <? 224 then (b0 mod 32) * 64 + b1 mod 64 :: decode_literal r1 else
          match r1 with
          | [] => [65533]
          | b2 :: r2 =>
              if b0 <? 240
              then (b0 mod 16) * 4096 + (b1 mod 64) * 64 + b2 mod 64 :: decode_literal r2 else
              match r2 with
              | [] => [65533]
              | b3 :: r3 =>
                  (b0 mod 8) * 262144 + (b1 mod 64) * 4096 + (b2 mod 64) * 64 + b3 mod 64
                    :: decode_literal r3
              end
          end
      end
  end.

Definition txt (s : string) : text := decode_literal (string_bytes s).
Coercion txt : string >-> text.
Arguments txt : simpl never.
#[global] Open Scope string_scope.
#[global] Open Scope list_scope.
#[global] Open Scope Z_scope.

(** String slices of literals. *)
Definition texts (l : list string) : list text := map txt l.

(** ** Runes *)

Definition MaxASCII : rune := 127.

(** [unicode.IsSpace]. *)
Definition IsSpace (r : rune) : bool :=
  ((9 <=? r) && (r <=? 13)) || (r =? 32) || (r =? 133) || (r =? 160) || (r =? 5760)
  || ((8192 <=? r) && (r <=? 8202)) || (r =? 8232) || (r =? 8233) || (r =? 8239)
  || (r =? 8287) || (r =? 12288).

(** [unicode.IsLetter] on a rune that is at most [MaxASCII]. *)
Definition IsLetter_ascii (r : rune) : bool :=
  ((65 <=? r) && (r <=? 90)) || ((97 <=? r) && (r <=? 122)).

(** Ranges [(lo, hi, stride, delta)] of the simple lower-case mapping. *)
Definition lower_ranges : list (Z * Z * Z * Z) := [
  (65,90,1,32); (192,214,1,32); (216,222,1,32); (256,302,2,1); (304,304,1,(-199));
  (306,310,2,1); (313,327,2,1); (330,374,2,1); (376,376,1,(-121)); (377,381,2,1);
  (385,385,1,210); (386,388,2,1); (390,390,1,206); (391,391,1,1); (393,394,1,205);
  (395,395,1,1); (398,398,1,79); (399,399,1,202); (400,400,1,203); (401,401,1,1);
  (403,403,1,205); (404,404,1,207); (406,406,1,211); (407,407,1,209); (408,408,1,1);
  (412,412,1,211); (413,413,1,213); (415,415,1,214); (416,420,2,1); (422,422,1,218);
  (423,423,1,1); (425,425,1,218); (428,428,1,1); (430,430,1,218); (431,431,1,1);
  (433,434,1,217); (435,437,2,1); (439,439,1,219); (440,440,1,1); (444,444,1,1); (452,452,1,2);
  (453,453,1,1); (455,455,1,2); (456,456,1,1); (458,458,1,2); (459,475,2,1); (478,494,2,1);
  (497,497,1,2); (498,500,2,1); (502,502,1,(-97)); (503,503,1,(-56)); (504,542,2,1);
  (544,544,1,(-130)); (546,562,2,1); (570,570,1,10795); (571,571,1,1); (573,573,1,(-163));
  (574,574,1,10792); (577,577,1,1); (579,579,1,(-195)); (580,580,1,69); (581,581,1,71);
  (582,590,2,1); (880,882,2,1); (886,886,1,1); (895,895,1,116); (902,902,1,38); (904,906,1,37);
  (908,908,1,64); (910,911,1,63); (913,929,1,32); (931,939,1,32); (975,975,1,8);
  (984,1006,2,1); (1012,1012,1,(-60)); (1015,1015,1,1); (1017,1017,1,(-7)); (1018,1018,1,1);
  (1021,1023,1,(-130)); (1024,1039,1,80); (1040,1071,1,32); (1120,1152,2,1); (1162,1214,2,1);
  (1216,1216,1,15); (1217,1229,2,1); (1232,1326,2,1); (1329,1366,1,48); (4256,4293,1,7264);
  (4295,4295,1,7264); (4301,4301,1,7264); (5024,5103,1,38864); (5104,5109,1,8);
  (7312,7354,1,(-3008)); (7357,7359,1,(-3008)); (7680,7828,2,1); (7838,7838,1,(-7615));
  (7840,7934,2,1); (7944,7951,1,(-8)); (7960,7965,1,(-8)); (7976,7983,1,(-8));
  (7992,7999,1,(-8)); (8008,8013,1,(-8)); (8025,8031,2,(-8)); (8040,8047,1,(-8));
  (8072,8079,1,(-8)); (8088,8095,1,(-8)); (8104,8111,1,(-8)); (8120,8121,1,(-8));
  (8122,8123,1,(-74)); (8124,8124,1,(-9)); (8136,8139,1,(-86)); (8140,8140,1,(-9));
  (8152,8153,1,(-8)); (8154,8155,1,(-100)); (8168,8169,1,(-8)); (8170,8171,1,(-112));
  (8172,8172,1,(-7)); (8184,8185,1,(-128)); (8186,8187,1,(-126)); (8188,8188,1,(-9));
  (8486,8486,1,(-7517)); (8490,8490,1,(-8383)); (8491,8491,1,(-8262)); (8498,8498,1,28);
  (8544,8559,1,16); (8579,8579,1,1); (9398,9423,1,26); (11264,11311,1,48); (11360,11360,1,1);
  (11362,11362,1,(-10743)); (11363,11363,1,(-3814)); (11364,11364,1,(-10727));
  (11367,11371,2,1); (11373,11373,1,(-10780)); (11374,11374,1,(-10749));
  (11375,11375,1,(-10783)); (11376,11376,1,(-10782)); (11378,11378,1,1); (11381,11381,1,1);
  (11390,11391,1,(-10815)); (11392,11490,2,1); (11499,11501,2,1); (11506,11506,1,1);
  (42560,42604,2,1); (42624,42650,2,1); (42786,42798,2,1); (42802,42862,2,1);
  (42873,42875,2,1); (42877,42877,1,(-35332)); (42878,42886,2,1); (42891,42891,1,1);
  (42893,42893,1,(-42280)); (42896,42898,2,1); (42902,42920,2,1); (42922,42922,1,(-42308));
  (42923,42923,1,(-42319)); (42924,42924,1,(-42315)); (42925,42925,1,(-42305));
  (42926,42926,1,(-42308)); (42928,42928,1,(-42258)); (42929,42929,1,(-42282));
  (42930,42930,1,(-42261)); (42931,42931,1,928); (42932,42946,2,1); (42948,42948,1,(-48));
  (42949,42949,1,(-42307)); (42950,42950,1,(-35384)); (42951,42953,2,1); (42960,42960,1,1);
  (42966,42968,2,1); (42997,42997,1,1); (65313,65338,1,32); (66560,66599,1,40);
  (66736,66771,1,40); (66928,66938,1,39); (66940,66954,1,39); (66956,66962,1,39);
  (66964,66965,1,39); (68736,68786,1,64); (71840,71871,1,32); (93760,93791,1,32);
  (125184,125217,1,34)
  ].

Definition unicode_ToLower (r : rune) : rune :=
  match find (fun '(lo, hi, st, _) => (lo <=? r) && (r <=? hi) && ((r - lo) mod st =? 0))
             lower_ranges with
  | Some (_, _, _, d) => r + d
  | None => r
  end.

(** Bytes of the UTF-8 encoding of a rune and of a text. *)
Definition rune_len (r : rune) : Z :=
  if r <? 128 then 1 else if r <? 2048 then 2 else if r <? 65536 then 3 else 4.
Definition utf8_len (s : text) : Z := fold_right (fun r n => rune_len r + n) 0 s.

(** ** The [strings] functions *)

Definition text_eqb (s t : text) : bool := bool_decide (s = t).
Notation "s == t" := (text_eqb s t) (at level 70) : go_scope.
Notation "s != t" := (negb (text_eqb s t)) (at level 70) : go_scope.

Fixpoint TrimLeftFunc (f : rune -> bool) (s : text) : text :=
  match s with
  | [] => []
  | r :: s' => if f r then TrimLeftFunc f s' else s
  end.
Definition TrimRightFunc (f : rune -> bool) (s : text) : text :=
  reverse (TrimLeftFunc f (reverse s)).
Definition TrimFunc (f : rune -> bool) (s : text) : text :=
  TrimRightFunc f (TrimLeftFunc f s).

Definition ContainsRune (s : text) (r : rune) : bool := existsb (Z.eqb r) s.
Definition TrimSpace (s : text) : text := TrimFunc IsSpace s.
Definition Trim (s cutset : text) : text := TrimFunc (ContainsRune cutset) s.
Definition TrimRight (s cutset : text) : text := TrimRightFunc (ContainsRune cutset) s.

Fixpoint HasPrefix (s prefix : text) : bool :=
  match prefix, s with
  | [], _ => true
  | p :: prefix', r :: s' => (p =? r) && HasPrefix s' prefix'
  | _ :: _, [] => false
  end.
Definition HasSuffix (s suffix : text) : bool := HasPrefix (reverse s) (reverse suffix).
Definition TrimPrefix (s prefix : text) : text :=
  if HasPrefix s prefix then drop (length prefix) s else s.
Definition TrimSuffix (s suffix : text) : text :=
  if HasSuffix s suffix then take (length s - length suffix) s else s.
Fixpoint Contains (s sub : text) : bool :=
  HasPrefix s sub || match s with [] => false | _ :: s' => Contains s' sub end.
Definition ToLower (s : text) : text := map unicode_ToLower s.

Fixpoint Join (parts : list text) (sep : text) : text :=
  match parts with
  | [] => []
  | [part] => part
  | part :: parts => part ++ sep ++ Join parts sep
  end.

(** [strings.Cut]: before and after the first separator, and whether there is one. *)
Fixpoint Cut (s sep : text) : text * text * bool :=
  if HasPrefix s sep then ([], drop (length sep) s, true)
  else match s with
       | [] => ([], [], false)
       | r :: s => let '(before, after, found) := Cut s sep in (r :: before, after, found)
       end.

(** [strings.ReplaceAll] of a text that is not empty; [skip] runes belong to an
    occurrence already replaced. *)
Fixpoint replace_go (skip : nat) (s old new : text) : text :=
  match s with
  | [] => []
  | r :: rest =>
      match skip with
      | S skip => replace_go skip rest old new
      | O => if HasPrefix s old then new ++ replace_go (pred (length old)) rest old new
             else r :: replace_go 0 rest old new
      end
  end.

Definition ReplaceAll (s old new : text) : text := replace_go 0 s old new.

(** [firstNonEmpty] of internal/voice/http_transcriber.go: the first value
    that is not blank, trimmed. *)
Fixpoint firstNonEmpty (values : list text) : text :=
  match values with
  | [] => ""
  | value :: values' =>
      let trimmed := TrimSpace value in
      if trimmed != "" then trimmed else firstNonEmpty values'
  end.

(** [strconv.Itoa] / [strconv.FormatInt(_, 10)] and [strconv.FormatBool]. *)
Fixpoint digits_go (fuel : nat) (n : Z) (acc : text) : text :=
  match fuel with
  | O => acc
  | S fuel' =>
      let acc' := (48 + n mod 10) :: acc in
      if n <? 10 then acc' else digits_go fuel' (n / 10) acc'
  end.
Definition Itoa (n : Z) : text :=
  if n <? 0 then 45 :: digits_go (S (Z.to_nat (Z.log2 (- n)))) (- n) []
  else digits_go (S (Z.to_nat (Z.log2 n))) n [].
Definition FormatBool (b : bool) : text := if b then "true" else "false".

Example txt_literal : txt "嗯a，" = [21999; 97; 65292]. Proof. reflexivity. Qed.
Example ToLower_ascii : ToLower "TV Ok" = txt "tv ok". Proof. vm_compute. reflexivity. Qed.
Example Itoa_neg : Itoa (-1205) = txt "-1205". Proof. reflexivity. Qed.

(** ** Laws *)

#[export] Instance text_eq_dec : EqDecision text := _.

Lemma text_eqb_true s t : (s == t) = true <-> s = t.
Proof. apply bool_decide_eq_true. Qed.
Lemma text_eqb_false s t : (s == t) = false <-> s <> t.
Proof. apply bool_decide_eq_false. Qed.
Lemma text_eqb_refl s : (s == s) = true.
Proof. by apply text_eqb_true. Qed.
#[export] Hint Rewrite text_eqb_refl : go.

(** Turns the string comparisons of the code into (dis)equalities. *)
Ltac text_prop :=
  bool_prop;
  repeat match goal with
  | H : text_eqb _ _ = true |- _ => apply text_eqb_true in H
  | H : text_eqb _ _ = false |- _ => apply text_eqb_false in H
  end.

Lemma HasPrefix_spec s p : HasPrefix s p = true <-> p `prefix_of` s.
Proof.
  revert s. induction p as [|a p IH]; intros s.
  - split; [intros _; apply prefix_nil | by destruct s].
  - destruct s as [|b s]; cbn.
    + split; [done | intros H; by apply prefix_nil_not in H].
    + rewrite andb_true_iff, Z.eqb_eq, IH. split.
      * intros [-> H]. by apply prefix_cons.
      * intros H. split; [by apply prefix_cons_inv_1 in H | by apply prefix_cons_inv_2 in H].
Qed.

Lemma HasSuffix_spec s p : HasSuffix s p = true <-> p `suffix_of` s.
Proof.
  unfold HasSuffix. rewrite HasPrefix_spec. by rewrite <- suffix_prefix_reverse.
Qed.

Lemma HasPrefix_refl s : HasPrefix s s = true.
Proof. by apply HasPrefix_spec. Qed.

Section Trimming.
Variable f : rune -> bool.

Lemma TrimLeftFunc_suffix s : exists l, s = l ++ TrimLeftFunc f s /\ Forall (fun r => f r = true) l.
Proof.
  induction s as [|r s [l [Hs Hl]]]; cbn.
  - by exists [].
  - destruct (f r) eqn:E.
    + exists (r :: l). cbn. by rewrite <- Hs; auto.
    + by exists [].
Qed.

Lemma TrimLeftFunc_head s : match TrimLeftFunc f s with [] => True | r :: _ => f r = false end.
Proof. induction s as [|r s IH]; cbn; [done|]. by destruct (f r) eqn:E; [|rewrite E]. Qed.

Lemma TrimLeftFunc_id r s : f r = false -> TrimLeftFunc f (r :: s) = r :: s.
Proof. cbn. by intros ->. Qed.

Lemma TrimLeftFunc_length s : (length (TrimLeftFunc f s) <= length s)%nat.
Proof. induction s as [|r s IH]; cbn; [lia|]. destruct (f r); cbn; lia. Qed.

Lemma TrimLeftFunc_idemp s : TrimLeftFunc f (TrimLeftFunc f s) = TrimLeftFunc f s.
Proof.
  pose proof (TrimLeftFunc_head s) as H. destruct (TrimLeftFunc f s) as [|r s']; [done|].
  by apply TrimLeftFunc_id.
Qed.

Lemma TrimLeftFunc_nil s : TrimLeftFunc f s = [] <-> Forall (fun r => f r = true) s.
Proof.
  induction s as [|r s IH]; cbn; [done|]. rewrite Forall_cons. destruct (f r).
  - rewrite IH. tauto.
  - split; [done | by intros [? _]].
Qed.

Lemma TrimRightFunc_prefix s : exists l, s = TrimRightFunc f s ++ l /\ Forall (fun r => f r = true) l.
Proof.
  destruct (TrimLeftFunc_suffix (reverse s)) as [l [Hs Hl]].
  exists (reverse l). split; [|by apply Forall_reverse].
  unfold TrimRightFunc. rewrite <- reverse_app, <- Hs. by rewrite reverse_involutive.
Qed.

Lemma TrimRightFunc_prefix_of s : TrimRightFunc f s `prefix_of` s.
Proof. destruct (TrimRightFunc_prefix s) as [l [H _]]. by exists l. Qed.

Lemma TrimRightFunc_idemp s : TrimRightFunc f (TrimRightFunc f s) = TrimRightFunc f s.
Proof. unfold TrimRightFunc. by rewrite reverse_involutive, TrimLeftFunc_idemp. Qed.

Lemma TrimRightFunc_head r s : f r = false -> exists t, TrimRightFunc f (r :: s) = r :: t.
Proof.
  intros Hr. destruct (TrimRightFunc_prefix (r :: s)) as [l [Hs Hl]].
  destruct (TrimRightFunc f (r :: s)) as [|r' t].
  - cbn in Hs. subst l. apply Forall_cons_1 in Hl as [Hl _]. congruence.
  - exists t. by injection Hs as -> _.
Qed.

Lemma TrimFunc_idemp s : TrimFunc f (TrimFunc f s) = TrimFunc f s.
Proof.
  unfold TrimFunc. pose proof (TrimLeftFunc_head s) as H.
  destruct (TrimLeftFunc f s) as [|r s']; [done|].
  destruct (TrimRightFunc_head r s' H) as [t Ht].
  replace (TrimLeftFunc f (TrimRightFunc f (r :: s'))) with (TrimRightFunc f (r :: s')).
  - apply TrimRightFunc_idemp.
  - rewrite Ht. symmetry. by apply TrimLeftFunc_id.
Qed.

Lemma TrimFunc_nil s : TrimFunc f s = [] <-> Forall (fun r => f r = true) s.
Proof.
  unfold TrimFunc. rewrite <- TrimLeftFunc_nil.
  pose proof (TrimLeftFunc_head s) as H. destruct (TrimLeftFunc f s) as [|r s']; [done|].
  destruct (TrimRightFunc_head r s' H) as [t Ht]. by rewrite Ht.
Qed.

Lemma TrimFunc_decompose s : exists l r, s = l ++ TrimFunc f s ++ r.
Proof.
  destruct (TrimLeftFunc_suffix s) as [l [Hl _]].
  destruct (TrimRightFunc_prefix (TrimLeftFunc f s)) as [r [Hr _]].
  exists l, r. unfold TrimFunc. by rewrite <- Hr.
Qed.

Lemma TrimFunc_length s : (length (TrimFunc f s) <= length s)%nat.
Proof.
  destruct (TrimFunc_decompose s) as [l [r H]].
  apply (f_equal length) in H. rewrite !length_app in H. lia.
Qed.
End Trimming.

Lemma TrimSpace_idemp s : TrimSpace (TrimSpace s) = TrimSpace s.
Proof. apply TrimFunc_idemp. Qed.
Lemma TrimSpace_nil : TrimSpace [] = [].
Proof. reflexivity. Qed.
Lemma TrimSpace_length s : (length (TrimSpace s) <= length s)%nat.
Proof. apply TrimFunc_length. Qed.
#[export] Hint Rewrite TrimSpace_idemp TrimSpace_nil : go.

(** A text is blank when it holds only white space, and trimmed when
    [TrimSpace] leaves it alone. *)
Definition blank (s : text) : Prop := TrimSpace s = [].
Definition trimmed (s : text) : Prop := TrimSpace s = s.
#[export] Instance blank_dec s : Decision (blank s) := decide (TrimSpace s = []).

Lemma trimmed_TrimSpace s : trimmed (TrimSpace s).
Proof. apply TrimSpace_idemp. Qed.
Lemma trimmed_nil : trimmed [].
Proof. reflexivity. Qed.
Lemma blank_spaces s : blank s <-> Forall (fun r => IsSpace r = true) s.
Proof. apply TrimFunc_nil. Qed.
Lemma blank_trimmed s : trimmed s -> blank s -> s = [].
Proof. unfold trimmed, blank. congruence. Qed.

Lemma firstNonEmpty_trimmed values : trimmed (firstNonEmpty values).
Proof.
  induction values as [|v values IH]; cbn; [apply trimmed_nil|].
  destruct (_ != _); [apply trimmed_TrimSpace | exact IH].
Qed.

Lemma firstNonEmpty_blank values : firstNonEmpty values = [] <-> Forall blank values.
Proof.
  induction values as [|v values IH]; cbn; [done|]. rewrite Forall_cons, <- IH. unfold blank.
  destruct (TrimSpace v == "") eqn:E; cbn; text_prop; [tauto|].
  split; [done | by intros [? _]].
Qed.
#[export] Hint Resolve trimmed_TrimSpace trimmed_nil firstNonEmpty_trimmed : go.
#[export] Hint Rewrite firstNonEmpty_trimmed : go.

#[global] Arguments text_eqb _ _ : simpl never.
#[global] Arguments TrimSpace _ : simpl never.
#[global] Arguments Trim _ _ : simpl never.
#[global] Arguments TrimRight _ _ : simpl never.
#[global] Arguments HasPrefix _ _ : simpl never.
#[global] Arguments HasSuffix _ _ : simpl never.
#[global] Arguments TrimSuffix _ _ : simpl never.
#[global] Arguments Contains _ _ : simpl never.
#[global] Arguments ToLower _ : simpl never.
#[global] Arguments Itoa _ : simpl never.
#[global] Arguments firstNonEmpty _ : simpl never.
#[global] Arguments IsSpace _ : simpl never.


(** ** Trimmed texts *)

Lemma trimmed_head r s : trimmed (r :: s) -> IsSpace r = false.
Proof.
  unfold trimmed, TrimSpace, TrimFunc. intros H.
  pose proof (TrimLeftFunc_head IsSpace (r :: s)) as Hh.
  pose proof (TrimLeftFunc_length IsSpace s) as Hlen. cbn [TrimLeftFunc] in H, Hh.
  destruct (IsSpace r) eqn:E; [|done]. exfalso.
  apply (f_equal length) in H. cbn [length] in H.
  destruct (TrimRightFunc_prefix IsSpace (TrimLeftFunc IsSpace s)) as [l [Hl _]].
  apply (f_equal length) in Hl. rewrite length_app in Hl. lia.
Qed.

Lemma TrimLeftFunc_length_id f s : (length s <= length (TrimLeftFunc f s))%nat -> TrimLeftFunc f s = s.
Proof.
  destruct (TrimLeftFunc_suffix f s) as [l [Hs _]]. intros H.
  rewrite Hs in H at 1. rewrite length_app in H.
  destruct l; [by rewrite Hs at 2 | cbn in H; lia].
Qed.

Lemma trimmed_last s r : trimmed (s ++ [r]) -> IsSpace r = false.
Proof.
  unfold trimmed, TrimSpace, TrimFunc. intros H.
  set (X := s ++ [r]) in *.
  pose proof (prefix_length _ _ (TrimRightFunc_prefix_of IsSpace (TrimLeftFunc IsSpace X))) as Hl.
  rewrite H in Hl. rewrite (TrimLeftFunc_length_id _ _ Hl) in H.
  unfold TrimRightFunc in H. apply (f_equal reverse) in H. rewrite reverse_involutive in H.
  unfold X in H. rewrite reverse_snoc in H.
  pose proof (TrimLeftFunc_head IsSpace (r :: reverse s)) as Hh. by rewrite H in Hh.
Qed.

(** What follows a prefix of a trimmed text is not blank, and is white space
    followed by its own trimmed form. *)
Lemma trimmed_suffix p q : trimmed (p ++ q) -> q <> [] ->
  TrimSpace q <> [] /\ exists gap, q = gap ++ TrimSpace q /\ Forall (fun r => IsSpace r = true) gap.
Proof.
  intros Ht Hq. destruct (exists_last Hq) as (q' & r & Hqr).
  rewrite Hqr, app_assoc in Ht. apply trimmed_last in Ht.
  assert (Hn : TrimSpace q <> []).
  { intros E. apply TrimFunc_nil in E. rewrite Hqr, Forall_app in E. destruct E as [_ E].
    inversion E. congruence. }
  split; [done|]. unfold TrimSpace, TrimFunc in *.
  destruct (TrimLeftFunc_suffix IsSpace q) as [gap [Hg Hgs]]. exists gap. split; [|done].
  set (X := TrimLeftFunc IsSpace q) in *.
  assert (HX : TrimRightFunc IsSpace X = X); [|by rewrite HX].
  destruct (exists_last (l:=X)) as (x' & r' & Hx).
  { intros E. by rewrite E in Hn. }
  assert (r' = r) as ->.
  { rewrite Hx in Hg. rewrite Hqr, app_assoc in Hg. by apply app_inj_tail in Hg as [_ ->]. }
  rewrite Hx. unfold TrimRightFunc. rewrite reverse_snoc, TrimLeftFunc_id by done.
  by rewrite reverse_cons, reverse_involutive.
Qed.

(** A prefix of a trimmed text loses only trailing white space. *)
Lemma TrimSpace_prefix p s : trimmed s -> p `prefix_of` s -> TrimSpace p `prefix_of` p.
Proof.
  intros Hs Hp. destruct p as [|r p]; [apply prefix_nil|].
  destruct Hp as [q ->]. cbn in Hs. apply trimmed_head in Hs.
  unfold TrimSpace, TrimFunc. rewrite TrimLeftFunc_id by done. apply TrimRightFunc_prefix_of.
Qed.

Lemma TrimSpace_prefix_of p s : trimmed s -> p `prefix_of` s -> TrimSpace p `prefix_of` s.
Proof. intros Hs Hp. transitivity p; [by eapply TrimSpace_prefix | done]. Qed.

Lemma firstNonEmpty_cases a b :
  firstNonEmpty [a; b] = if TrimSpace a == "" then TrimSpace b else TrimSpace a.
Proof.
  unfold firstNonEmpty. destruct (TrimSpace a == "") eqn:Ea; cbn; [|done].
  destruct (TrimSpace b == "") eqn:Eb; cbn; by text_prop.
Qed.

(** ** Membership in a table of literals *)

Lemma existsb_eqb_elem s l : existsb (text_eqb s) l = true <-> s ∈ l.
Proof.
  rewrite existsb_exists. split.
  - intros [x [Hx E]]. text_prop. subst. by apply list_elem_of_In.
  - intros H. exists s. split; [by apply list_elem_of_In | apply text_eqb_refl].
Qed.

(** A text that begins with a rune that is no white space is not blank. *)
Lemma nonblank_app (l s : text) :
  match l with [] => false | r :: _ => negb (IsSpace r) end = true -> (TrimSpace (l ++ s) == "") = false.
Proof.
  destruct l as [|r l]; [done|]. intros Hr%negb_true_iff. apply text_eqb_false. cbn.
  intros H. apply blank_spaces, Forall_cons_1 in H as [H _]. congruence.
Qed.

(** ** The digits of an integer *)

Fixpoint digits_number (s : text) : Z :=
  match s with [] => 0 | d :: s => (d - 48) * 10 ^ len s + digits_number s end.

Lemma digits_number_zeros k s : digits_number (repeat 48 k ++ s) = digits_number s.
Proof. induction k as [|k IH]; cbn [repeat app digits_number]; [done|]. rewrite IH. lia. Qed.

Lemma digits_go_value fuel n acc :
  0 <= n < 10 ^ Z.of_nat fuel ->
  digits_number (digits_go fuel n acc) = n * 10 ^ len acc + digits_number acc.
Proof.
  revert n acc. induction fuel as [|fuel IH]; intros n acc Hn.
  { change (10 ^ Z.of_nat 0) with 1 in Hn. cbn [digits_go]. replace n with 0 by lia. lia. }
  rewrite Nat2Z.inj_succ, Z.pow_succ_r in Hn by lia. cbn [digits_go]. cbv zeta.
  pose proof (Z.div_mod n 10 ltac:(lia)) as Hd. pose proof (Z.mod_pos_bound n 10 ltac:(lia)) as Hm.
  destruct (n <? 10) eqn:E; bool_prop.
  - cbn [digits_number]. rewrite Z.mod_small by lia. lia.
  - rewrite IH by (split; [apply Z.div_pos; lia | apply Z.div_lt_upper_bound; lia]).
    cbn [digits_number]. rewrite len_cons, Z.pow_add_r by (pose proof (len_nonneg acc); lia).
    rewrite Z.pow_1_r. nia.
Qed.

Lemma Itoa_value n : 0 <= n -> digits_number (Itoa n) = n.
Proof.
  intros Hn. unfold Itoa. assert ((n <? 0) = false) as -> by lia.
  rewrite digits_go_value; [rewrite len_nil; cbn [digits_number]; lia|].
  split; [done|]. rewrite Nat2Z.inj_succ, Z2Nat.id by apply Z.log2_nonneg.
  destruct (Z.eq_dec n 0) as [->|Hz]; [by vm_compute|].
  pose proof (Z.log2_spec n ltac:(lia)) as [_ H]. eapply Z.lt_le_trans; [exact H|].
  apply Z.pow_le_mono_l. lia.
Qed.

Lemma Itoa_inj n m : 0 <= n -> 0 <= m -> Itoa n = Itoa m -> n = m.
Proof. intros Hn Hm E%(f_equal digits_number). by rewrite !Itoa_value in E. Qed.

Lemma digits_go_runes fuel n acc r :
  0 <= n -> r ∈ digits_go fuel n acc -> 48 <= r <= 57 \/ r ∈ acc.
Proof.
  revert n acc. induction fuel as [|fuel IH]; intros n acc Hn; cbn [digits_go]; [by right|]. cbv zeta.
  pose proof (Z.mod_pos_bound n 10 ltac:(lia)).
  destruct (n <? 10); [|intros Hr%IH; [|by apply Z.div_pos]; destruct Hr as [|Hr]; [by left|revert Hr]];
    (intros [->|?]%elem_of_cons; [left; lia | by right]).
Qed.

(** A decimal number is made of digits and a minus sign. *)
Lemma Itoa_runes n r : r ∈ Itoa n -> 48 <= r <= 57 \/ r = 45.
Proof.
  unfold Itoa. destruct (n <? 0) eqn:E; bool_prop.
  - intros [->|Hr]%elem_of_cons; [by right|]. apply digits_go_runes in Hr as [?|?]; [by left|by apply not_elem_of_nil in H|lia].
  - intros Hr. apply digits_go_runes in Hr as [?|?]; [by left|by apply not_elem_of_nil in H|lia].
Qed.

(** What stands before and after a separator that neither head contains. *)
Lemma split_at_separator {A} (x : A) (l1 l2 k1 k2 : list A) :
  x ∉ l1 -> x ∉ k1 -> l1 ++ x :: l2 = k1 ++ x :: k2 -> l1 = k1 /\ l2 = k2.
Proof.
  revert k1. induction l1 as [|a l1 IH]; intros [|b k1]; cbn [app]; intros Hl Hk E; simplify_eq.
  - done.
  - exfalso. apply Hk. apply list_elem_of_here.
  - exfalso. apply Hl. apply list_elem_of_here.
  - destruct (IH k1) as [-> ->]; [| |done|done]; intros ?.
    + apply Hl. by apply list_elem_of_further.
    + apply Hk. by apply list_elem_of_further.
Qed.
