(* ===== verification/GoOrder.v ===== *)
(** * Ordering and sorting of Go strings

    Go compares strings byte by byte; on valid UTF-8 that is the order of the
    runes, since the encoding keeps it. [sort.Strings] and [sort.Slice] with a
    strict total order have one possible result, whatever order the elements come
    in - which is what makes a slice read out of a map deterministic - so they are
    modelled by stdpp's [merge_sort]. *)

From stdpp Require Import sorting.
From S2P Require Import Prelude GoText.

Fixpoint text_leb (s t : text) : bool :=
  match s, t with
  | [], _ => true
  | _ :: _, [] => false
  | a :: s, b :: t => (a <? b) || ((a =? b) && text_leb s t)
  end.

Definition text_le (s t : text) : Prop := text_leb s t = true.
#[export] Instance text_le_dec : RelDecision text_le := fun s t => decide (text_leb s t = true).

#[export] Instance text_le_refl : Reflexive text_le.
Proof. intros s. unfold text_le. induction s as [|a s IH]; cbn; [done|]. by rewrite Z.ltb_irrefl, Z.eqb_refl. Qed.

#[export] Instance text_le_trans : Transitive text_le.
Proof.
  intros s. induction s as [|a s IH]; intros [|b t] [|c u] Hst Htu; try done.
  unfold text_le in *. cbn in *. apply orb_true_iff.
  apply orb_true_iff in Hst as [Hst|Hst], Htu as [Htu|Htu]; bool_prop; subst.
  - left. apply Z.ltb_lt. lia.
  - left. by apply Z.ltb_lt.
  - left. by apply Z.ltb_lt.
  - right. by rewrite Z.eqb_refl, (IH t u).
Qed.

#[export] Instance text_le_antisymm : AntiSymm (=) text_le.
Proof.
  intros s. induction s as [|a s IH]; intros [|b t] H1 H2; try done.
  unfold text_le in *. cbn in *. apply orb_true_iff in H1 as [H1|H1], H2 as [H2|H2]; bool_prop; try lia.
  subst. by rewrite (IH t).
Qed.

#[export] Instance text_le_total : Total text_le.
Proof.
  intros s. unfold text_le. induction s as [|a s IH]; intros [|b t]; cbn; auto.
  destruct (Z.lt_trichotomy a b) as [H|[->|H]].
  - left. apply Z.ltb_lt in H as ->. done.
  - rewrite Z.ltb_irrefl, Z.eqb_refl. apply IH.
  - right. apply Z.ltb_lt in H as ->. done.
Qed.

(** [sort.Strings]. *)
Definition sort_strings (values : list text) : list text := merge_sort text_le values.

Lemma sort_strings_permutation values : sort_strings values ≡ₚ values.
Proof. apply merge_sort_Permutation. Qed.

Lemma sort_strings_sorted values : StronglySorted text_le (sort_strings values).
Proof. apply (StronglySorted_merge_sort text_le). Qed.

(** The order the elements come in does not matter. *)
Lemma sort_strings_unique values values' : values ≡ₚ values' -> sort_strings values = sort_strings values'.
Proof.
  intros H. apply (StronglySorted_unique text_le); [apply sort_strings_sorted.. |].
  by rewrite !sort_strings_permutation.
Qed.

Lemma elem_of_sort_strings s values : s ∈ sort_strings values <-> s ∈ values.
Proof. by rewrite sort_strings_permutation. Qed.

#[export] Hint Rewrite elem_of_sort_strings : go.
#[global] Arguments sort_strings _ : simpl never.

(** ** Sets of strings

    A [map[string]struct{}]; iterating over one gives its elements in any order. *)

Abbreviation string_set := (gset text).

Lemma sort_set_nil (X : string_set) : sort_strings (elements X) = [] <-> X = ∅.
Proof.
  split; [|intros ->; by rewrite elements_empty].
  intros H. apply leibniz_equiv, elements_empty_inv, Permutation_nil_r.
  by rewrite <- sort_strings_permutation, H.
Qed.
