(* ===== verification/GoUnicode.v ===== *)
(** * Unicode categories of Go's [unicode] package

    [unicode.IsPunct] (category P), [IsSymbol] (S), [IsLetter] (L), [IsDigit]
    (Nd) and [IsPrint] over the tables of Unicode 15.0.0, the version of the Go
    release the build file names; a table lists closed ranges in increasing
    order.  Then what builds on them: [strings.EqualFold], [strconv.Quote]. *)

From S2P Require Import Prelude GoText.

Definition punct_ranges : list (Z * Z) := [
  (33,35); (37,42); (44,47); (58,59); (63,64); (91,93); (95,95); (123,123); (125,125); (161,161);
  (167,167); (171,171); (182,183); (187,187); (191,191); (894,894); (903,903); (1370,1375);
  (1417,1418); (1470,1470); (1472,1472); (1475,1475); (1478,1478); (1523,1524); (1545,1546);
  (1548,1549); (1563,1563); (1565,1567); (1642,1645); (1748,1748); (1792,1805); (2039,2041);
  (2096,2110); (2142,2142); (2404,2405); (2416,2416); (2557,2557); (2678,2678); (2800,2800);
  (3191,3191); (3204,3204); (3572,3572); (3663,3663); (3674,3675); (3844,3858); (3860,3860);
  (3898,3901); (3973,3973); (4048,4052); (4057,4058); (4170,4175); (4347,4347); (4960,4968);
  (5120,5120); (5742,5742); (5787,5788); (5867,5869); (5941,5942); (6100,6102); (6104,6106);
  (6144,6154); (6468,6469); (6686,6687); (6816,6822); (6824,6829); (7002,7008); (7037,7038);
  (7164,7167); (7227,7231); (7294,7295); (7360,7367); (7379,7379); (8208,8231); (8240,8259);
  (8261,8273); (8275,8286); (8317,8318); (8333,8334); (8968,8971); (9001,9002); (10088,10101);
  (10181,10182); (10214,10223); (10627,10648); (10712,10715); (10748,10749); (11513,11516);
  (11518,11519); (11632,11632); (11776,11822); (11824,11855); (11858,11869); (12289,12291);
  (12296,12305); (12308,12319); (12336,12336); (12349,12349); (12448,12448); (12539,12539);
  (42238,42239); (42509,42511); (42611,42611); (42622,42622); (42738,42743); (43124,43127);
  (43214,43215); (43256,43258); (43260,43260); (43310,43311); (43359,43359); (43457,43469);
  (43486,43487); (43612,43615); (43742,43743); (43760,43761); (44011,44011); (64830,64831);
  (65040,65049); (65072,65106); (65108,65121); (65123,65123); (65128,65128); (65130,65131);
  (65281,65283); (65285,65290); (65292,65295); (65306,65307); (65311,65312); (65339,65341);
  (65343,65343); (65371,65371); (65373,65373); (65375,65381); (65792,65794); (66463,66463);
  (66512,66512); (66927,66927); (67671,67671); (67871,67871); (67903,67903); (68176,68184);
  (68223,68223); (68336,68342); (68409,68415); (68505,68508); (69293,69293); (69461,69465);
  (69510,69513); (69703,69709); (69819,69820); (69822,69825); (69952,69955); (70004,70005);
  (70085,70088); (70093,70093); (70107,70107); (70109,70111); (70200,70205); (70313,70313);
  (70731,70735); (70746,70747); (70749,70749); (70854,70854); (71105,71127); (71233,71235);
  (71264,71276); (71353,71353); (71484,71486); (71739,71739); (72004,72006); (72162,72162);
  (72255,72262); (72346,72348); (72350,72354); (72448,72457); (72769,72773); (72816,72817);
  (73463,73464); (73539,73551); (73727,73727); (74864,74868); (77809,77810); (92782,92783);
  (92917,92917); (92983,92987); (92996,92996); (93847,93850); (94178,94178); (113823,113823);
  (121479,121483); (125278,125279)].

Definition symbol_ranges : list (Z * Z) := [
  (36,36); (43,43); (60,62); (94,94); (96,96); (124,124); (126,126); (162,166); (168,169);
  (172,172); (174,177); (180,180); (184,184); (215,215); (247,247); (706,709); (722,735);
  (741,747); (749,749); (751,767); (885,885); (900,901); (1014,1014); (1154,1154); (1421,1423);
  (1542,1544); (1547,1547); (1550,1551); (1758,1758); (1769,1769); (1789,1790); (2038,2038);
  (2046,2047); (2184,2184); (2546,2547); (2554,2555); (2801,2801); (2928,2928); (3059,3066);
  (3199,3199); (3407,3407); (3449,3449); (3647,3647); (3841,3843); (3859,3859); (3861,3863);
  (3866,3871); (3892,3892); (3894,3894); (3896,3896); (4030,4037); (4039,4044); (4046,4047);
  (4053,4056); (4254,4255); (5008,5017); (5741,5741); (6107,6107); (6464,6464); (6622,6655);
  (7009,7018); (7028,7036); (8125,8125); (8127,8129); (8141,8143); (8157,8159); (8173,8175);
  (8189,8190); (8260,8260); (8274,8274); (8314,8316); (8330,8332); (8352,8384); (8448,8449);
  (8451,8454); (8456,8457); (8468,8468); (8470,8472); (8478,8483); (8485,8485); (8487,8487);
  (8489,8489); (8494,8494); (8506,8507); (8512,8516); (8522,8525); (8527,8527); (8586,8587);
  (8592,8967); (8972,9000); (9003,9254); (9280,9290); (9372,9449); (9472,10087); (10132,10180);
  (10183,10213); (10224,10626); (10649,10711); (10716,10747); (10750,11123); (11126,11157);
  (11159,11263); (11493,11498); (11856,11857); (11904,11929); (11931,12019); (12032,12245);
  (12272,12283); (12292,12292); (12306,12307); (12320,12320); (12342,12343); (12350,12351);
  (12443,12444); (12688,12689); (12694,12703); (12736,12771); (12800,12830); (12842,12871);
  (12880,12880); (12896,12927); (12938,12976); (12992,13311); (19904,19967); (42128,42182);
  (42752,42774); (42784,42785); (42889,42890); (43048,43051); (43062,43065); (43639,43641);
  (43867,43867); (43882,43883); (64297,64297); (64434,64450); (64832,64847); (64975,64975);
  (65020,65023); (65122,65122); (65124,65126); (65129,65129); (65284,65284); (65291,65291);
  (65308,65310); (65342,65342); (65344,65344); (65372,65372); (65374,65374); (65504,65510);
  (65512,65518); (65532,65533); (65847,65855); (65913,65929); (65932,65934); (65936,65948);
  (65952,65952); (66000,66044); (67703,67704); (68296,68296); (71487,71487); (73685,73713);
  (92988,92991); (92997,92997); (113820,113820); (118608,118723); (118784,119029);
  (119040,119078); (119081,119140); (119146,119148); (119171,119172); (119180,119209);
  (119214,119274); (119296,119361); (119365,119365); (119552,119638); (120513,120513);
  (120539,120539); (120571,120571); (120597,120597); (120629,120629); (120655,120655);
  (120687,120687); (120713,120713); (120745,120745); (120771,120771); (120832,121343);
  (121399,121402); (121453,121460); (121462,121475); (121477,121478); (123215,123215);
  (123647,123647); (126124,126124); (126128,126128); (126254,126254); (126704,126705);
  (126976,127019); (127024,127123); (127136,127150); (127153,127167); (127169,127183);
  (127185,127221); (127245,127405); (127462,127490); (127504,127547); (127552,127560);
  (127568,127569); (127584,127589); (127744,128727); (128732,128748); (128752,128764);
  (128768,128886); (128891,128985); (128992,129003); (129008,129008); (129024,129035);
  (129040,129095); (129104,129113); (129120,129159); (129168,129197); (129200,129201);
  (129280,129619); (129632,129645); (129648,129660); (129664,129672); (129680,129725);
  (129727,129733); (129742,129755); (129760,129768); (129776,129784); (129792,129938);
  (129940,129994)].

(** Category L. *)
Definition letter_ranges : list (Z * Z) := [
  (65,90); (97,122); (170,170); (181,181); (186,186); (192,214); (216,246); (248,705); (710,721); (736,740);
  (748,748); (750,750); (880,884); (886,887); (890,893); (895,895); (902,902); (904,906); (908,908);
  (910,929); (931,1013); (1015,1153); (1162,1327); (1329,1366); (1369,1369); (1376,1416); (1488,1514);
  (1519,1522); (1568,1610); (1646,1647); (1649,1747); (1749,1749); (1765,1766); (1774,1775); (1786,1788);
  (1791,1791); (1808,1808); (1810,1839); (1869,1957); (1969,1969); (1994,2026); (2036,2037); (2042,2042);
  (2048,2069); (2074,2074); (2084,2084); (2088,2088); (2112,2136); (2144,2154); (2160,2183); (2185,2190);
  (2208,2249); (2308,2361); (2365,2365); (2384,2384); (2392,2401); (2417,2432); (2437,2444); (2447,2448);
  (2451,2472); (2474,2480); (2482,2482); (2486,2489); (2493,2493); (2510,2510); (2524,2525); (2527,2529);
  (2544,2545); (2556,2556); (2565,2570); (2575,2576); (2579,2600); (2602,2608); (2610,2611); (2613,2614);
  (2616,2617); (2649,2652); (2654,2654); (2674,2676); (2693,2701); (2703,2705); (2707,2728); (2730,2736);
  (2738,2739); (2741,2745); (2749,2749); (2768,2768); (2784,2785); (2809,2809); (2821,2828); (2831,2832);
  (2835,2856); (2858,2864); (2866,2867); (2869,2873); (2877,2877); (2908,2909); (2911,2913); (2929,2929);
  (2947,2947); (2949,2954); (2958,2960); (2962,2965); (2969,2970); (2972,2972); (2974,2975); (2979,2980);
  (2984,2986); (2990,3001); (3024,3024); (3077,3084); (3086,3088); (3090,3112); (3114,3129); (3133,3133);
  (3160,3162); (3165,3165); (3168,3169); (3200,3200); (3205,3212); (3214,3216); (3218,3240); (3242,3251);
  (3253,3257); (3261,3261); (3293,3294); (3296,3297); (3313,3314); (3332,3340); (3342,3344); (3346,3386);
  (3389,3389); (3406,3406); (3412,3414); (3423,3425); (3450,3455); (3461,3478); (3482,3505); (3507,3515);
  (3517,3517); (3520,3526); (3585,3632); (3634,3635); (3648,3654); (3713,3714); (3716,3716); (3718,3722);
  (3724,3747); (3749,3749); (3751,3760); (3762,3763); (3773,3773); (3776,3780); (3782,3782); (3804,3807);
  (3840,3840); (3904,3911); (3913,3948); (3976,3980); (4096,4138); (4159,4159); (4176,4181); (4186,4189);
  (4193,4193); (4197,4198); (4206,4208); (4213,4225); (4238,4238); (4256,4293); (4295,4295); (4301,4301);
  (4304,4346); (4348,4680); (4682,4685); (4688,4694); (4696,4696); (4698,4701); (4704,4744); (4746,4749);
  (4752,4784); (4786,4789); (4792,4798); (4800,4800); (4802,4805); (4808,4822); (4824,4880); (4882,4885);
  (4888,4954); (4992,5007); (5024,5109); (5112,5117); (5121,5740); (5743,5759); (5761,5786); (5792,5866);
  (5873,5880); (5888,5905); (5919,5937); (5952,5969); (5984,5996); (5998,6000); (6016,6067); (6103,6103);
  (6108,6108); (6176,6264); (6272,6276); (6279,6312); (6314,6314); (6320,6389); (6400,6430); (6480,6509);
  (6512,6516); (6528,6571); (6576,6601); (6656,6678); (6688,6740); (6823,6823); (6917,6963); (6981,6988);
  (7043,7072); (7086,7087); (7098,7141); (7168,7203); (7245,7247); (7258,7293); (7296,7304); (7312,7354);
  (7357,7359); (7401,7404); (7406,7411); (7413,7414); (7418,7418); (7424,7615); (7680,7957); (7960,7965);
  (7968,8005); (8008,8013); (8016,8023); (8025,8025); (8027,8027); (8029,8029); (8031,8061); (8064,8116);
  (8118,8124); (8126,8126); (8130,8132); (8134,8140); (8144,8147); (8150,8155); (8160,8172); (8178,8180);
  (8182,8188); (8305,8305); (8319,8319); (8336,8348); (8450,8450); (8455,8455); (8458,8467); (8469,8469);
  (8473,8477); (8484,8484); (8486,8486); (8488,8488); (8490,8493); (8495,8505); (8508,8511); (8517,8521);
  (8526,8526); (8579,8580); (11264,11492); (11499,11502); (11506,11507); (11520,11557); (11559,11559);
  (11565,11565); (11568,11623); (11631,11631); (11648,11670); (11680,11686); (11688,11694); (11696,11702);
  (11704,11710); (11712,11718); (11720,11726); (11728,11734); (11736,11742); (11823,11823); (12293,12294);
  (12337,12341); (12347,12348); (12353,12438); (12445,12447); (12449,12538); (12540,12543); (12549,12591);
  (12593,12686); (12704,12735); (12784,12799); (13312,19903); (19968,42124); (42192,42237); (42240,42508);
  (42512,42527); (42538,42539); (42560,42606); (42623,42653); (42656,42725); (42775,42783); (42786,42888);
  (42891,42954); (42960,42961); (42963,42963); (42965,42969); (42994,43009); (43011,43013); (43015,43018);
  (43020,43042); (43072,43123); (43138,43187); (43250,43255); (43259,43259); (43261,43262); (43274,43301);
  (43312,43334); (43360,43388); (43396,43442); (43471,43471); (43488,43492); (43494,43503); (43514,43518);
  (43520,43560); (43584,43586); (43588,43595); (43616,43638); (43642,43642); (43646,43695); (43697,43697);
  (43701,43702); (43705,43709); (43712,43712); (43714,43714); (43739,43741); (43744,43754); (43762,43764);
  (43777,43782); (43785,43790); (43793,43798); (43808,43814); (43816,43822); (43824,43866); (43868,43881);
  (43888,44002); (44032,55203); (55216,55238); (55243,55291); (63744,64109); (64112,64217); (64256,64262);
  (64275,64279); (64285,64285); (64287,64296); (64298,64310); (64312,64316); (64318,64318); (64320,64321);
  (64323,64324); (64326,64433); (64467,64829); (64848,64911); (64914,64967); (65008,65019); (65136,65140);
  (65142,65276); (65313,65338); (65345,65370); (65382,65470); (65474,65479); (65482,65487); (65490,65495);
  (65498,65500); (65536,65547); (65549,65574); (65576,65594); (65596,65597); (65599,65613); (65616,65629);
  (65664,65786); (66176,66204); (66208,66256); (66304,66335); (66349,66368); (66370,66377); (66384,66421);
  (66432,66461); (66464,66499); (66504,66511); (66560,66717); (66736,66771); (66776,66811); (66816,66855);
  (66864,66915); (66928,66938); (66940,66954); (66956,66962); (66964,66965); (66967,66977); (66979,66993);
  (66995,67001); (67003,67004); (67072,67382); (67392,67413); (67424,67431); (67456,67461); (67463,67504);
  (67506,67514); (67584,67589); (67592,67592); (67594,67637); (67639,67640); (67644,67644); (67647,67669);
  (67680,67702); (67712,67742); (67808,67826); (67828,67829); (67840,67861); (67872,67897); (67968,68023);
  (68030,68031); (68096,68096); (68112,68115); (68117,68119); (68121,68149); (68192,68220); (68224,68252);
  (68288,68295); (68297,68324); (68352,68405); (68416,68437); (68448,68466); (68480,68497); (68608,68680);
  (68736,68786); (68800,68850); (68864,68899); (69248,69289); (69296,69297); (69376,69404); (69415,69415);
  (69424,69445); (69488,69505); (69552,69572); (69600,69622); (69635,69687); (69745,69746); (69749,69749);
  (69763,69807); (69840,69864); (69891,69926); (69956,69956); (69959,69959); (69968,70002); (70006,70006);
  (70019,70066); (70081,70084); (70106,70106); (70108,70108); (70144,70161); (70163,70187); (70207,70208);
  (70272,70278); (70280,70280); (70282,70285); (70287,70301); (70303,70312); (70320,70366); (70405,70412);
  (70415,70416); (70419,70440); (70442,70448); (70450,70451); (70453,70457); (70461,70461); (70480,70480);
  (70493,70497); (70656,70708); (70727,70730); (70751,70753); (70784,70831); (70852,70853); (70855,70855);
  (71040,71086); (71128,71131); (71168,71215); (71236,71236); (71296,71338); (71352,71352); (71424,71450);
  (71488,71494); (71680,71723); (71840,71903); (71935,71942); (71945,71945); (71948,71955); (71957,71958);
  (71960,71983); (71999,71999); (72001,72001); (72096,72103); (72106,72144); (72161,72161); (72163,72163);
  (72192,72192); (72203,72242); (72250,72250); (72272,72272); (72284,72329); (72349,72349); (72368,72440);
  (72704,72712); (72714,72750); (72768,72768); (72818,72847); (72960,72966); (72968,72969); (72971,73008);
  (73030,73030); (73056,73061); (73063,73064); (73066,73097); (73112,73112); (73440,73458); (73474,73474);
  (73476,73488); (73490,73523); (73648,73648); (73728,74649); (74880,75075); (77712,77808); (77824,78894);
  (78913,78918); (82944,83526); (92160,92728); (92736,92766); (92784,92862); (92880,92909); (92928,92975);
  (92992,92995); (93027,93047); (93053,93071); (93760,93823); (93952,94026); (94032,94032); (94099,94111);
  (94176,94177); (94179,94179); (94208,100343); (100352,101589); (101632,101640); (110576,110579);
  (110581,110587); (110589,110590); (110592,110882); (110898,110898); (110928,110930); (110933,110933);
  (110948,110951); (110960,111355); (113664,113770); (113776,113788); (113792,113800); (113808,113817);
  (119808,119892); (119894,119964); (119966,119967); (119970,119970); (119973,119974); (119977,119980);
  (119982,119993); (119995,119995); (119997,120003); (120005,120069); (120071,120074); (120077,120084);
  (120086,120092); (120094,120121); (120123,120126); (120128,120132); (120134,120134); (120138,120144);
  (120146,120485); (120488,120512); (120514,120538); (120540,120570); (120572,120596); (120598,120628);
  (120630,120654); (120656,120686); (120688,120712); (120714,120744); (120746,120770); (120772,120779);
  (122624,122654); (122661,122666); (122928,122989); (123136,123180); (123191,123197); (123214,123214);
  (123536,123565); (123584,123627); (124112,124139); (124896,124902); (124904,124907); (124909,124910);
  (124912,124926); (124928,125124); (125184,125251); (125259,125259); (126464,126467); (126469,126495);
  (126497,126498); (126500,126500); (126503,126503); (126505,126514); (126516,126519); (126521,126521);
  (126523,126523); (126530,126530); (126535,126535); (126537,126537); (126539,126539); (126541,126543);
  (126545,126546); (126548,126548); (126551,126551); (126553,126553); (126555,126555); (126557,126557);
  (126559,126559); (126561,126562); (126564,126564); (126567,126570); (126572,126578); (126580,126583);
  (126585,126588); (126590,126590); (126592,126601); (126603,126619); (126625,126627); (126629,126633);
  (126635,126651); (131072,173791); (173824,177976); (177984,178205); (178208,183969); (183984,191456);
  (194560,195101); (196608,201546); (201552,205743)
  ].

(** Category Nd. *)
Definition digit_ranges : list (Z * Z) := [
  (48,57); (1632,1641); (1776,1785); (1984,1993); (2406,2415); (2534,2543); (2662,2671); (2790,2799);
  (2918,2927); (3046,3055); (3174,3183); (3302,3311); (3430,3439); (3558,3567); (3664,3673); (3792,3801);
  (3872,3881); (4160,4169); (4240,4249); (6112,6121); (6160,6169); (6470,6479); (6608,6617); (6784,6793);
  (6800,6809); (6992,7001); (7088,7097); (7232,7241); (7248,7257); (42528,42537); (43216,43225);
  (43264,43273); (43472,43481); (43504,43513); (43600,43609); (44016,44025); (65296,65305); (66720,66729);
  (68912,68921); (69734,69743); (69872,69881); (69942,69951); (70096,70105); (70384,70393); (70736,70745);
  (70864,70873); (71248,71257); (71360,71369); (71472,71481); (71904,71913); (72016,72025); (72784,72793);
  (73040,73049); (73120,73129); (73552,73561); (92768,92777); (92864,92873); (93008,93017); (120782,120831);
  (123200,123209); (123632,123641); (124144,124153); (125264,125273); (130032,130041)
  ].

(** Categories M and N. *)
Definition mark_number_ranges : list (Z * Z) := [
  (48,57); (178,179); (185,185); (188,190); (768,879); (1155,1161); (1425,1469); (1471,1471); (1473,1474);
  (1476,1477); (1479,1479); (1552,1562); (1611,1641); (1648,1648); (1750,1756); (1759,1764); (1767,1768);
  (1770,1773); (1776,1785); (1809,1809); (1840,1866); (1958,1968); (1984,1993); (2027,2035); (2045,2045);
  (2070,2073); (2075,2083); (2085,2087); (2089,2093); (2137,2139); (2200,2207); (2250,2273); (2275,2307);
  (2362,2364); (2366,2383); (2385,2391); (2402,2403); (2406,2415); (2433,2435); (2492,2492); (2494,2500);
  (2503,2504); (2507,2509); (2519,2519); (2530,2531); (2534,2543); (2548,2553); (2558,2558); (2561,2563);
  (2620,2620); (2622,2626); (2631,2632); (2635,2637); (2641,2641); (2662,2673); (2677,2677); (2689,2691);
  (2748,2748); (2750,2757); (2759,2761); (2763,2765); (2786,2787); (2790,2799); (2810,2815); (2817,2819);
  (2876,2876); (2878,2884); (2887,2888); (2891,2893); (2901,2903); (2914,2915); (2918,2927); (2930,2935);
  (2946,2946); (3006,3010); (3014,3016); (3018,3021); (3031,3031); (3046,3058); (3072,3076); (3132,3132);
  (3134,3140); (3142,3144); (3146,3149); (3157,3158); (3170,3171); (3174,3183); (3192,3198); (3201,3203);
  (3260,3260); (3262,3268); (3270,3272); (3274,3277); (3285,3286); (3298,3299); (3302,3311); (3315,3315);
  (3328,3331); (3387,3388); (3390,3396); (3398,3400); (3402,3405); (3415,3422); (3426,3427); (3430,3448);
  (3457,3459); (3530,3530); (3535,3540); (3542,3542); (3544,3551); (3558,3567); (3570,3571); (3633,3633);
  (3636,3642); (3655,3662); (3664,3673); (3761,3761); (3764,3772); (3784,3789); (3792,3801); (3864,3865);
  (3872,3891); (3893,3893); (3895,3895); (3897,3897); (3902,3903); (3953,3972); (3974,3975); (3981,3991);
  (3993,4028); (4038,4038); (4139,4158); (4160,4169); (4182,4185); (4190,4192); (4194,4196); (4199,4205);
  (4209,4212); (4226,4237); (4239,4253); (4957,4959); (4969,4988); (5870,5872); (5906,5909); (5938,5940);
  (5970,5971); (6002,6003); (6068,6099); (6109,6109); (6112,6121); (6128,6137); (6155,6157); (6159,6169);
  (6277,6278); (6313,6313); (6432,6443); (6448,6459); (6470,6479); (6608,6618); (6679,6683); (6741,6750);
  (6752,6780); (6783,6793); (6800,6809); (6832,6862); (6912,6916); (6964,6980); (6992,7001); (7019,7027);
  (7040,7042); (7073,7085); (7088,7097); (7142,7155); (7204,7223); (7232,7241); (7248,7257); (7376,7378);
  (7380,7400); (7405,7405); (7412,7412); (7415,7417); (7616,7679); (8304,8304); (8308,8313); (8320,8329);
  (8400,8432); (8528,8578); (8581,8585); (9312,9371); (9450,9471); (10102,10131); (11503,11505);
  (11517,11517); (11647,11647); (11744,11775); (12295,12295); (12321,12335); (12344,12346); (12441,12442);
  (12690,12693); (12832,12841); (12872,12879); (12881,12895); (12928,12937); (12977,12991); (42528,42537);
  (42607,42610); (42612,42621); (42654,42655); (42726,42737); (43010,43010); (43014,43014); (43019,43019);
  (43043,43047); (43052,43052); (43056,43061); (43136,43137); (43188,43205); (43216,43225); (43232,43249);
  (43263,43273); (43302,43309); (43335,43347); (43392,43395); (43443,43456); (43472,43481); (43493,43493);
  (43504,43513); (43561,43574); (43587,43587); (43596,43597); (43600,43609); (43643,43645); (43696,43696);
  (43698,43700); (43703,43704); (43710,43711); (43713,43713); (43755,43759); (43765,43766); (44003,44010);
  (44012,44013); (44016,44025); (64286,64286); (65024,65039); (65056,65071); (65296,65305); (65799,65843);
  (65856,65912); (65930,65931); (66045,66045); (66272,66299); (66336,66339); (66369,66369); (66378,66378);
  (66422,66426); (66513,66517); (66720,66729); (67672,67679); (67705,67711); (67751,67759); (67835,67839);
  (67862,67867); (68028,68029); (68032,68047); (68050,68095); (68097,68099); (68101,68102); (68108,68111);
  (68152,68154); (68159,68168); (68221,68222); (68253,68255); (68325,68326); (68331,68335); (68440,68447);
  (68472,68479); (68521,68527); (68858,68863); (68900,68903); (68912,68921); (69216,69246); (69291,69292);
  (69373,69375); (69405,69414); (69446,69460); (69506,69509); (69573,69579); (69632,69634); (69688,69702);
  (69714,69744); (69747,69748); (69759,69762); (69808,69818); (69826,69826); (69872,69881); (69888,69890);
  (69927,69940); (69942,69951); (69957,69958); (70003,70003); (70016,70018); (70067,70080); (70089,70092);
  (70094,70105); (70113,70132); (70188,70199); (70206,70206); (70209,70209); (70367,70378); (70384,70393);
  (70400,70403); (70459,70460); (70462,70468); (70471,70472); (70475,70477); (70487,70487); (70498,70499);
  (70502,70508); (70512,70516); (70709,70726); (70736,70745); (70750,70750); (70832,70851); (70864,70873);
  (71087,71093); (71096,71104); (71132,71133); (71216,71232); (71248,71257); (71339,71351); (71360,71369);
  (71453,71467); (71472,71483); (71724,71738); (71904,71922); (71984,71989); (71991,71992); (71995,71998);
  (72000,72000); (72002,72003); (72016,72025); (72145,72151); (72154,72160); (72164,72164); (72193,72202);
  (72243,72249); (72251,72254); (72263,72263); (72273,72283); (72330,72345); (72751,72758); (72760,72767);
  (72784,72812); (72850,72871); (72873,72886); (73009,73014); (73018,73018); (73020,73021); (73023,73029);
  (73031,73031); (73040,73049); (73098,73102); (73104,73105); (73107,73111); (73120,73129); (73459,73462);
  (73472,73473); (73475,73475); (73524,73530); (73534,73538); (73552,73561); (73664,73684); (74752,74862);
  (78912,78912); (78919,78933); (92768,92777); (92864,92873); (92912,92916); (92976,92982); (93008,93017);
  (93019,93025); (93824,93846); (94031,94031); (94033,94087); (94095,94098); (94180,94180); (94192,94193);
  (113821,113822); (118528,118573); (118576,118598); (119141,119145); (119149,119154); (119163,119170);
  (119173,119179); (119210,119213); (119362,119364); (119488,119507); (119520,119539); (119648,119672);
  (120782,120831); (121344,121398); (121403,121452); (121461,121461); (121476,121476); (121499,121503);
  (121505,121519); (122880,122886); (122888,122904); (122907,122913); (122915,122916); (122918,122922);
  (123023,123023); (123184,123190); (123200,123209); (123566,123566); (123628,123641); (124140,124153);
  (125127,125142); (125252,125258); (125264,125273); (126065,126123); (126125,126127); (126129,126132);
  (126209,126253); (126255,126269); (127232,127244); (130032,130041); (917760,917999)
  ].

Definition in_ranges (ranges : list (Z * Z)) (r : rune) : bool :=
  existsb (fun '(lo, hi) => (lo <=? r) && (r <=? hi)) ranges.

Definition IsPunct (r : rune) : bool := in_ranges punct_ranges r.
Definition IsSymbol (r : rune) : bool := in_ranges symbol_ranges r.
Definition IsLetter (r : rune) : bool := in_ranges letter_ranges r.
Definition IsDigit (r : rune) : bool := in_ranges digit_ranges r.
Definition IsPrint (r : rune) : bool :=
  (r =? 32) || IsLetter r || in_ranges mark_number_ranges r || IsPunct r || IsSymbol r.

(** ** Case folding

    Two runes are the same under simple folding when they have the same
    representative: the lower case, except for the runes whose folding class
    holds two lower cases, and for the dotted capital I, which folds to itself. *)
Definition fold_exceptions : list (Z * Z) := [
  (181,956); (304,304); (383,115); (837,953); (962,963); (976,946); (977,952); (981,966); (982,960);
  (1008,954); (1009,961); (1013,949); (7296,1074); (7297,1076); (7298,1086); (7299,1089); (7300,1090);
  (7301,1090); (7302,1098); (7303,1123); (7304,42571); (7835,7777); (8126,953)
  ].

Definition fold_rune (r : rune) : rune :=
  match find (fun '(c, _) => c =? r) fold_exceptions with
  | Some (_, rep) => rep
  | None => unicode_ToLower r
  end.

Definition EqualFold (s t : text) : bool := (map fold_rune s == map fold_rune t).

(** ** Quoting *)

Definition hex_digit (n : Z) : rune := if n <? 10 then 48 + n else 87 + n.

Fixpoint hex (width : nat) (n : Z) : text :=
  match width with
  | O => []
  | S width => hex width (n / 16) ++ [hex_digit (n mod 16)]
  end.

Definition backslash : rune := 92.

Definition quote_rune (r : rune) : text :=
  if (r =? 34) || (r =? backslash) then [backslash; r]
  else if IsPrint r then [r]
  else if r =? 7 then [backslash; 97]
  else if r =? 8 then [backslash; 98]
  else if r =? 12 then [backslash; 102]
  else if r =? 10 then [backslash; 110]
  else if r =? 13 then [backslash; 114]
  else if r =? 9 then [backslash; 116]
  else if r =? 11 then [backslash; 118]
  else if (r <? 32) || (r =? 127) then [backslash; 120] ++ hex 2 r
  else if r <? 65536 then [backslash; 117] ++ hex 4 r
  else [backslash; 85] ++ hex 8 r.

Definition Quote (s : text) : text := [34] ++ concat (map quote_rune s) ++ [34].

#[global] Arguments IsPunct _ : simpl never.
#[global] Arguments IsSymbol _ : simpl never.
#[global] Arguments IsLetter _ : simpl never.
#[global] Arguments IsDigit _ : simpl never.
#[global] Arguments IsPrint _ : simpl never.
#[global] Arguments EqualFold _ _ : simpl never.
#[global] Arguments Quote _ : simpl never.

(** The ranges are increasing and disjoint, so a rune is in at most one. *)
Fixpoint increasing_ranges (low : Z) (ranges : list (Z * Z)) : bool :=
  match ranges with
  | [] => true
  | (lo, hi) :: ranges => (low <? lo) && (lo <=? hi) && increasing_ranges hi ranges
  end.

Example punct_table : increasing_ranges (-1) punct_ranges = true. Proof. by vm_compute. Qed.
Example symbol_table : increasing_ranges (-1) symbol_ranges = true. Proof. by vm_compute. Qed.
Example punct_examples : map IsPunct (txt "，。?a灯") = [true; true; true; false; false]. Proof. by vm_compute. Qed.
Example symbol_examples : map IsSymbol (txt "+℃$%a") = [true; true; true; false; false]. Proof. by vm_compute. Qed.
Example letter_table : increasing_ranges (-1) letter_ranges = true. Proof. by vm_compute. Qed.
Example digit_table : increasing_ranges (-1) digit_ranges = true. Proof. by vm_compute. Qed.
Example mark_number_table : increasing_ranges (-1) mark_number_ranges = true. Proof. by vm_compute. Qed.
Example fold_examples : (EqualFold "Memory.RECALL" "memory.recall", EqualFold "ſ" "S", EqualFold "İ" "i") = (true, true, false).
Proof. by vm_compute. Qed.
Example quote_example : Quote (txt "灯" ++ [10; 34; 127; 8203]) = [34] ++ txt "灯\n\" ++ [34] ++ txt "\x7f\u200b" ++ [34].
Proof. by vm_compute. Qed.

Lemma EqualFold_refl s : EqualFold s s = true.
Proof. unfold EqualFold. apply text_eqb_refl. Qed.

Lemma EqualFold_sym s t : EqualFold s t = EqualFold t s.
Proof. unfold EqualFold, text_eqb. apply bool_decide_ext. naive_solver. Qed.
