(* ===== verification/GoRegexp.v ===== *)
(** * The part of Go's [regexp] the server's patterns use

    Leftmost-first matching, as Go (and Perl) define it: of the matches that start
    at the earliest position, the one a backtracking search would find first. A
    pattern maps a text to its matches in order of preference, each with what the
    capturing group has caught and the text that is left. *)

From S2P Require Import Prelude GoText.

Inductive regex :=
| RClass (p : rune -> bool) (least most : nat) (* [..]{least,most}, greedy *)
| RSpaces (* \s*, greedy *)
| ROptional (r : regex) (* (?:r)?, greedy *)
| RLiteral (s : text)
| RAlt (r1 r2 : regex)
| RSeq (r1 r2 : regex)
| RGroup (r : regex).

(** [\s] of RE2. *)
Definition perl_space (r : rune) : bool := ((9 <=? r) && (r <=? 10)) || ((12 <=? r) && (r <=? 13)) || (r =? 32).

Fixpoint class_matches (p : rune -> bool) (least most : nat) (s : text) : list text :=
  match most with
  | O => match least with O => [s] | S _ => [] end
  | S most =>
      match s with
      | r :: s' => if p r then class_matches p (pred least) most s' else []
      | [] => []
      end ++ match least with O => [s] | S _ => [] end
  end.

Fixpoint spaces_matches (s : text) : list text :=
  match s with
  | r :: s' => if perl_space r then spaces_matches s' else []
  | [] => []
  end ++ [s].

(** The last group that took part counts. *)
Definition captured (earlier later : option text) : option text :=
  match later with Some _ => later | None => earlier end.

Fixpoint matches (r : regex) (s : text) : list (option text * text) :=
  match r with
  | RClass p least most => map (pair None) (class_matches p least most s)
  | RSpaces => map (pair None) (spaces_matches s)
  | ROptional r => matches r s ++ [(None, s)]
  | RLiteral l => if HasPrefix s l then [(None, drop (length l) s)] else []
  | RAlt r1 r2 => matches r1 s ++ matches r2 s
  | RSeq r1 r2 =>
      flat_map (fun '(c1, s1) => map (fun '(c2, s2) => (captured c1 c2, s2)) (matches r2 s1)) (matches r1 s)
  | RGroup r => map (fun '(_, s') => (Some (take (length s - length s') s), s')) (matches r s)
  end.

(** [FindStringSubmatch] of a pattern with one group: what it caught, and nothing
    when the pattern does not match. *)
Fixpoint find_group (r : regex) (s : text) : option text :=
  match matches r s with
  | (Some c, _) :: _ => Some c
  | (None, _) :: _ => Some []
  | [] => match s with [] => None | _ :: s' => find_group r s' end
  end.

(** ** What a group can catch *)

Lemma class_matches_spec p least most s s' :
  s' ∈ class_matches p least most s ->
  exists c, s = c ++ s' /\ Forall (fun r => p r = true) c /\ (least <= length c <= most)%nat.
Proof.
  assert (Hz : forall l s, s' ∈ match l with O => [s] | S _ => [] end ->
    exists c, s = c ++ s' /\ Forall (fun r => p r = true) c /\ (l <= length c <= 0)%nat).
  { intros [|l] t H; [|by apply not_elem_of_nil in H]. apply list_elem_of_singleton in H as ->. by exists []. }
  revert least s. induction most as [|most IH]; intros least s H; cbn [class_matches] in H; [by apply Hz|].
  apply elem_of_app in H as [H|H].
  - destruct s as [|r s]; [by apply not_elem_of_nil in H|]. destruct (p r) eqn:E; [|by apply not_elem_of_nil in H].
    apply IH in H as (c & -> & Hc & Hl). exists (r :: c). split; [done|]. split; [by constructor|]. cbn. lia.
  - apply Hz in H as (c & -> & Hc & Hl). exists c. split; [done|]. split; [done|]. lia.
Qed.

Lemma find_group_caught (Q : text -> Prop) r s c :
  (forall t c t', (c, t') ∈ matches r t -> exists x, c = Some x /\ Q x) ->
  find_group r s = Some c -> Q c.
Proof.
  intros HQ. induction s as [|a s IH]; cbn [find_group]; intros H.
  - destruct (matches r []) as [|[[x|] t] l] eqn:E; [done|injection H as ->|].
    + destruct (HQ [] (Some c) t) as (y & [= ->] & Hy); [rewrite E; by left|done].
    + destruct (HQ [] None t) as (y & Hy & _); [rewrite E; by left|done].
  - destruct (matches r (a :: s)) as [|[[x|] t] l] eqn:E; [by apply IH|injection H as ->|].
    + destruct (HQ (a :: s) (Some c) t) as (y & [= ->] & Hy); [rewrite E; by left|done].
    + destruct (HQ (a :: s) None t) as (y & Hy & _); [rewrite E; by left|done].
Qed.

Lemma seq_matches r1 r2 s c s' :
  (c, s') ∈ matches (RSeq r1 r2) s ->
  exists c1 s1 c2, (c1, s1) ∈ matches r1 s /\ (c2, s') ∈ matches r2 s1 /\ c = captured c1 c2.
Proof.
  cbn [matches]. rewrite !list_elem_of_In, in_flat_map. intros ([c1 s1] & H1 & H2).
  apply in_map_iff in H2 as ([c2 s2] & [= <- <-] & H2). exists c1, s1, c2. by rewrite !list_elem_of_In.
Qed.

Lemma group_class_matches p least most s c s' :
  (c, s') ∈ matches (RGroup (RClass p least most)) s ->
  exists x, c = Some x /\ Forall (fun r => p r = true) x /\ (least <= length x <= most)%nat.
Proof.
  cbn [matches]. rewrite list_elem_of_In, map_map, in_map_iff. intros (t & [= <- <-] & H).
  apply list_elem_of_In, class_matches_spec in H as (x & -> & Hx & Hl).
  exists x. rewrite length_app, Nat.add_sub, take_app_length. by split.
Qed.

Lemma alt_group_class_matches p1 a1 b1 p2 a2 b2 s c s' :
  (c, s') ∈ matches (RGroup (RAlt (RClass p1 a1 b1) (RClass p2 a2 b2))) s ->
  exists x, c = Some x /\ ((Forall (fun r => p1 r = true) x /\ (a1 <= length x <= b1)%nat) \/
                           (Forall (fun r => p2 r = true) x /\ (a2 <= length x <= b2)%nat)).
Proof.
  intros H.
  assert (Hor : (c, s') ∈ matches (RGroup (RClass p1 a1 b1)) s \/ (c, s') ∈ matches (RGroup (RClass p2 a2 b2)) s).
  { cbn [matches] in *. rewrite map_app in H. by apply elem_of_app. }
  destruct Hor as [(x & -> & Hx)%group_class_matches|(x & -> & Hx)%group_class_matches]; exists x; tauto.
Qed.

(** A pattern without a group catches nothing. *)
Fixpoint groupless (r : regex) : bool :=
  match r with
  | RClass _ _ _ | RSpaces | RLiteral _ => true
  | ROptional r => groupless r
  | RAlt r1 r2 | RSeq r1 r2 => groupless r1 && groupless r2
  | RGroup _ => false
  end.

Lemma groupless_matches r s c s' : groupless r = true -> (c, s') ∈ matches r s -> c = None.
Proof.
  revert s c s'. induction r as [p l m| |r IH|l|r1 IH1 r2 IH2|r1 IH1 r2 IH2|r IH]; intros s c s' Hg H; cbn in Hg.
  - cbn [matches] in H. apply list_elem_of_In, in_map_iff in H as (? & [= <- _] & _). done.
  - cbn [matches] in H. apply list_elem_of_In, in_map_iff in H as (? & [= <- _] & _). done.
  - cbn [matches] in H. apply elem_of_app in H as [H|[= -> _]%list_elem_of_singleton]; [by eapply IH|done].
  - cbn [matches] in H. destruct (HasPrefix s l); [by apply list_elem_of_singleton in H as [= -> _] | by apply not_elem_of_nil in H].
  - apply andb_true_iff in Hg as [Hg1 Hg2]. cbn [matches] in H. apply elem_of_app in H as [H|H]; eauto.
  - apply andb_true_iff in Hg as [Hg1 Hg2]. apply seq_matches in H as (c1 & s1 & c2 & H1 & H2 & ->).
    apply IH1 in H1 as ->; [|done]. by apply IH2 in H2 as ->.
  - done.
Qed.
