(* ===== verification/GoFloat.v ===== *)
(** * Go float64

    [float64] is IEEE 754 binary64 with rounding to nearest, ties to even, as
    specified by the Standard Library's [SpecFloat] (precision 53, exponents
    below 1024), which computes in the kernel and rests on no primitive.  A
    product feeding a sum is rounded on its own, as the compiler does on amd64.
    Conversions to [int] of values out of range or not numbers give the most
    negative integer, as on amd64. *)

From Stdlib Require Import Floats.SpecFloat.
From S2P Require Import Prelude.

Definition float64 := spec_float.

Definition f64_prec : Z := 53.
Definition f64_emax : Z := 1024.

Definition f_add : float64 -> float64 -> float64 := SFadd f64_prec f64_emax.
Definition f_sub : float64 -> float64 -> float64 := SFsub f64_prec f64_emax.
Definition f_mul : float64 -> float64 -> float64 := SFmul f64_prec f64_emax.
Definition f_div : float64 -> float64 -> float64 := SFdiv f64_prec f64_emax.
Definition f_ltb : float64 -> float64 -> bool := SFltb.
Definition f_leb : float64 -> float64 -> bool := SFleb.

(** [float64(n)] for an integer. *)
Definition f_of_Z (n : Z) : float64 := binary_normalize f64_prec f64_emax n 0 false.

(** A decimal literal [n / d]: the nearest float64 to the exact constant. *)
Definition f_lit (n d : Z) : float64 := f_div (f_of_Z n) (f_of_Z d).

(** The integers around a finite value [(-1)^s * m * 2^e]. *)
Definition floor_mag (m : positive) (e : Z) : Z :=
  if 0 <=? e then Zpos m * 2 ^ e else Zpos m / 2 ^ (- e).
Definition ceil_mag (m : positive) (e : Z) : Z :=
  if 0 <=? e then Zpos m * 2 ^ e else - ((- Zpos m) / 2 ^ (- e)).
(** Nearest integer of the magnitude, halves away from zero. *)
Definition round_mag (m : positive) (e : Z) : Z :=
  if 0 <=? e then Zpos m * 2 ^ e else (2 * Zpos m + 2 ^ (- e)) / (2 * 2 ^ (- e)).

Definition int_of_Z (z : Z) : Z := if (min_int64 <=? z) && (z <=? max_int64) then z else min_int64.

Definition f_to_int_with (floor_pos floor_neg : positive -> Z -> Z) (x : float64) : Z :=
  match x with
  | S754_zero _ => 0
  | S754_finite false m e => int_of_Z (floor_pos m e)
  | S754_finite true m e => int_of_Z (- floor_neg m e)
  | _ => min_int64
  end.

(** [int(x)], [int(math.Floor(x))], [int(math.Ceil(x))], [int(math.Round(x))]. *)
Definition f_trunc_int : float64 -> Z := f_to_int_with floor_mag floor_mag.
Definition f_floor_int : float64 -> Z := f_to_int_with floor_mag ceil_mag.
Definition f_ceil_int : float64 -> Z := f_to_int_with ceil_mag floor_mag.
Definition f_round_int : float64 -> Z := f_to_int_with round_mag round_mag.

Definition f_zero : float64 := S754_zero false.
Definition f_one : float64 := f_of_Z 1.

#[global] Arguments f_add _ _ : simpl never.
#[global] Arguments f_sub _ _ : simpl never.
#[global] Arguments f_mul _ _ : simpl never.
#[global] Arguments f_div _ _ : simpl never.
#[global] Arguments f_ltb _ _ : simpl never.
#[global] Arguments f_leb _ _ : simpl never.
#[global] Arguments f_of_Z _ : simpl never.
#[global] Arguments f_lit _ _ : simpl never.
#[global] Arguments f_trunc_int _ : simpl never.
#[global] Arguments f_floor_int _ : simpl never.
#[global] Arguments f_ceil_int _ : simpl never.
#[global] Arguments f_round_int _ : simpl never.

Example f_ceil_third : f_ceil_int (f_mul (f_of_Z 10) (f_div (f_of_Z 1) (f_of_Z 3))) = 4.
Proof. vm_compute. reflexivity. Qed.
Example f_round_half : f_round_int (f_div (f_of_Z (-5)) (f_of_Z 2)) = -3.
Proof. vm_compute. reflexivity. Qed.
Example f_lit_sum : f_ltb (f_lit 3 10) (f_add (f_lit 1 10) (f_lit 2 10)) = true.
Proof. vm_compute. reflexivity. Qed.

(** A value that is not below and not above the ends of the unit interval.
    Comparisons with a NaN are false, so NaN passes both tests of the code. *)
Definition in_unit (x : float64) : Prop := f_ltb x f_zero = false /\ f_ltb f_one x = false.

#[export] Instance float64_eq_dec : EqDecision float64.
Proof. solve_decision. Defined.

Lemma in_unit_zero : in_unit f_zero.
Proof. by vm_compute. Qed.
Lemma in_unit_one : in_unit f_one.
Proof. by vm_compute. Qed.
#[export] Hint Resolve in_unit_zero in_unit_one : go.
