(* ===== verification/Session.v ===== *)
(** * The realtime session core (internal/session)

    One [RealtimeSession] per connection: an input lane, an output lane, the
    compatibility state derived from them, and the audio of the open turn.
    Every method holds the mutex from its first to its last statement, so a
    concurrent use is an interleaving of the whole methods; [op] and [step]
    below are that alphabet.  [time.Now().UTC()] is the argument [now].

    - data and methods follow realtime_session.go and types.go, with their names;
    - [abs], [aop] and [astep] specify what the session promises its callers:
      lanes, the bytes the next commit hands over, the turn count;
    - the theorems state the invariant of reachable sessions, the refinement
      of the specification, and the audio contract of [CommitTurn]. *)

From S2P Require Import Prelude GoText.

(** ** Data *)

Inductive State :=
| StateIdle | StateActive | StateThinking | StateSpeaking | StateClosing
| StateOther (s : text). (* any string that is none of the constants *)

Inductive InputState :=
| InputStateIdle | InputStateActive | InputStatePreviewing | InputStateCommitted
| InputStateClosing | InputStateOther (s : text).

Inductive OutputState :=
| OutputStateIdle | OutputStateThinking | OutputStateSpeaking | OutputStateClosing
| OutputStateOther (s : text).

Inductive CloseReason :=
| CloseReasonNone (* the zero value [""] *)
| CloseReasonClientStop | CloseReasonServerStop | CloseReasonCompleted
| CloseReasonWakeCancelled | CloseReasonDeviceSleep | CloseReasonNetworkStop
| CloseReasonIdle | CloseReasonMaxDuration | CloseReasonError
| CloseReasonOther (s : text).

#[export] Instance State_eq_dec : EqDecision State.
Proof. solve_decision. Defined.
#[export] Instance InputState_eq_dec : EqDecision InputState.
Proof. solve_decision. Defined.
#[export] Instance OutputState_eq_dec : EqDecision OutputState.
Proof. solve_decision. Defined.
#[export] Instance CloseReason_eq_dec : EqDecision CloseReason.
Proof. solve_decision. Defined.

Inductive Error := ErrSessionAlreadyActive | ErrNoActiveSession.

#[export] Instance Error_eq_dec : EqDecision Error.
Proof. solve_decision. Defined.

Record StartRequest := {
  req_RequestedSessionID : text;
  req_DeviceID : text;
  req_ClientType : text;
  req_FirmwareVersion : text;
  req_Mode : text;
  req_InputCodec : text;
  req_InputSampleRate : Z;
  req_InputChannels : Z;
  req_ClientCanEnd : bool;
  req_ServerCanEnd : bool
}.

Record Snapshot := mkSnapshot {
  SessionID : text;
  Snap_State : State;
  Snap_InputState : InputState;
  Snap_OutputState : OutputState;
  Snap_CloseReason : CloseReason;
  DeviceID : text;
  ClientType : text;
  FirmwareVersion : text;
  Mode : text;
  InputCodec : text;
  InputSampleRate : Z;
  InputChannels : Z;
  InputFrames : Z;
  AudioBytes : Z;
  Turns : Z;
  StartedAt : instant;
  LastActivityAt : instant;
  ClientCanEnd : bool;
  ServerCanEnd : bool
}.

#[export] Instance Snapshot_rebuild : Rebuild Snapshot := fun s =>
  mkSnapshot (SessionID s) (Snap_State s) (Snap_InputState s) (Snap_OutputState s)
    (Snap_CloseReason s) (DeviceID s) (ClientType s) (FirmwareVersion s) (Mode s)
    (InputCodec s) (InputSampleRate s) (InputChannels s) (InputFrames s) (AudioBytes s)
    (Turns s) (StartedAt s) (LastActivityAt s) (ClientCanEnd s) (ServerCanEnd s).

(** [Snapshot{}], the zero value returned beside an error. *)
Definition zero_Snapshot : Snapshot :=
  mkSnapshot "" (StateOther "") (InputStateOther "") (OutputStateOther "") CloseReasonNone
    "" "" "" "" "" 0 0 0 0 0 time_zero time_zero false false.

Record CommittedTurn := {
  ct_Snapshot : Snapshot;
  ct_AudioPCM : list byte
}.

Record RealtimeSession := mkRealtimeSession {
  active : bool;
  current : Snapshot;
  turnAudioChunks : list (list byte)
}.

#[export] Instance RealtimeSession_rebuild : Rebuild RealtimeSession := fun s =>
  mkRealtimeSession (active s) (current s) (turnAudioChunks s).

(** ** Helpers *)

(** [active] is the third parameter of the Go function; it shadows the field. *)
Definition deriveCompatState (input : InputState) (output : OutputState) (isActive : bool) : State :=
  if negb isActive then StateIdle else
  match output with
  | OutputStateClosing => StateClosing
  | OutputStateSpeaking => StateSpeaking
  | OutputStateThinking => StateThinking
  | _ => StateActive
  end.

Definition applyCompatState (snapshot : Snapshot) (state : State) : Snapshot :=
  let commit_idle_input (s : Snapshot) :=
    match Snap_InputState s with
    | InputStateIdle | InputStateClosing => s <|Snap_InputState := InputStateCommitted|>
    | _ => s
    end in
  match state with
  | StateIdle => snapshot <|Snap_InputState := InputStateIdle|> <|Snap_OutputState := OutputStateIdle|>
  | StateThinking => (commit_idle_input snapshot) <|Snap_OutputState := OutputStateThinking|>
  | StateSpeaking => (commit_idle_input snapshot) <|Snap_OutputState := OutputStateSpeaking|>
  | StateClosing =>
      snapshot <|Snap_InputState := InputStateClosing|> <|Snap_OutputState := OutputStateClosing|>
  | _ => snapshot <|Snap_InputState := InputStateActive|> <|Snap_OutputState := OutputStateIdle|>
  end.

Definition normalizeInputState (state : InputState) : InputState :=
  match state with
  | InputStateIdle | InputStateActive | InputStatePreviewing | InputStateCommitted
  | InputStateClosing => state
  | _ => InputStateActive
  end.

Definition normalizeOutputState (state : OutputState) : OutputState :=
  match state with
  | OutputStateIdle | OutputStateThinking | OutputStateSpeaking | OutputStateClosing => state
  | _ => OutputStateIdle
  end.

(** [totalBytes] only sizes the allocation: the bytes of the result do not
    depend on it. *)
Definition flattenTurnAudioChunks (chunks : list (list byte)) (totalBytes : Z) : list byte :=
  match chunks with
  | [] => []
  | [chunk] => chunk
  | _ => fold_left (fun audio chunk => audio ++ chunk) chunks []
  end.

Definition cloneSnapshot (snapshot : Snapshot) : Snapshot :=
  snapshot <|Snap_State := deriveCompatState (Snap_InputState snapshot) (Snap_OutputState snapshot)
                             (SessionID snapshot != "")|>.

Definition idleSnapshot : Snapshot :=
  zero_Snapshot <|Snap_State := StateIdle|> <|Snap_InputState := InputStateIdle|>
                <|Snap_OutputState := OutputStateIdle|>.

Definition NewRealtimeSession : RealtimeSession := mkRealtimeSession false idleSnapshot [].

(** [s.current.State = deriveCompatState(s.current.InputState, s.current.OutputState, s.active)] *)
Definition rederive (s : RealtimeSession) : RealtimeSession :=
  s <|current := (current s)
        <|Snap_State := deriveCompatState (Snap_InputState (current s))
                          (Snap_OutputState (current s)) (active s)|> |>.

(** ** Methods: a new session state and a result *)

Definition Start (now : instant) (req : StartRequest) (s : RealtimeSession)
    : RealtimeSession * result Error Snapshot :=
  if active s then (s, Err ErrSessionAlreadyActive) else
  let sessionID :=
    if req_RequestedSessionID req == "" then txt "sess_" ++ Itoa (UnixNano now)
    else req_RequestedSessionID req in
  let cur := mkSnapshot sessionID (StateOther "") InputStateActive OutputStateIdle CloseReasonNone
    (req_DeviceID req) (req_ClientType req) (req_FirmwareVersion req) (req_Mode req)
    (req_InputCodec req) (req_InputSampleRate req) (req_InputChannels req) 0 0 0 now now
    (req_ClientCanEnd req) (req_ServerCanEnd req) in
  let cur := cur <|Snap_State := deriveCompatState (Snap_InputState cur) (Snap_OutputState cur) true|> in
  let s := mkRealtimeSession true cur [] in
  (s, Ok (cloneSnapshot (current s))).

Definition IngestOwnedAudioFrame (now : instant) (payload : list byte) (s : RealtimeSession)
    : RealtimeSession * result Error Snapshot :=
  if negb (active s) then (s, Err ErrNoActiveSession) else
  let cur := (current s) <|Snap_InputState := InputStateActive|>
               <|InputFrames := i64 (InputFrames (current s) + 1)|>
               <|AudioBytes := i64 (AudioBytes (current s) + len payload)|>
               <|LastActivityAt := now|> in
  let chunks := if 0 <? len payload then turnAudioChunks s ++ [payload] else turnAudioChunks s in
  let s := rederive (mkRealtimeSession (active s) cur chunks) in
  (s, Ok (cloneSnapshot (current s))).

(** [IngestAudioFrame] copies the payload before handing it over: bytes are
    immutable values here, so the copy is the payload. *)
Definition IngestAudioFrame (now : instant) (payload : list byte) (s : RealtimeSession)
    : RealtimeSession * result Error Snapshot :=
  let owned := payload in
  IngestOwnedAudioFrame now owned s.

Definition AcceptText (now : instant) (s : RealtimeSession)
    : RealtimeSession * result Error Snapshot :=
  if negb (active s) then (s, Err ErrNoActiveSession) else
  let cur := (current s) <|Snap_InputState := InputStateActive|> <|LastActivityAt := now|> in
  let s := rederive (s <|current := cur|>) in
  (s, Ok (cloneSnapshot (current s))).

Definition CommitTurn (now : instant) (s : RealtimeSession)
    : RealtimeSession * result Error CommittedTurn :=
  if negb (active s) then (s, Err ErrNoActiveSession) else
  let cur := (current s) <|Snap_InputState := InputStateCommitted|> in
  let cur := match Snap_OutputState cur with
             | OutputStateSpeaking | OutputStateClosing => cur
             | _ => cur <|Snap_OutputState := OutputStateThinking|>
             end in
  let cur := cur <|Turns := i64 (Turns cur + 1)|> <|LastActivityAt := now|> in
  let s := rederive (s <|current := cur|>) in
  let audioPCM := flattenTurnAudioChunks (turnAudioChunks s) (AudioBytes (current s)) in
  let s := s <|turnAudioChunks := []|> in
  (s, Ok {| ct_Snapshot := cloneSnapshot (current s); ct_AudioPCM := audioPCM |}).

Definition SetState (now : instant) (state : State) (s : RealtimeSession)
    : RealtimeSession * result Error Snapshot :=
  if negb (active s) then (s, Err ErrNoActiveSession) else
  let cur := (applyCompatState (current s) state) <|LastActivityAt := now|> in
  let s := rederive (s <|current := cur|>) in
  (s, Ok (cloneSnapshot (current s))).

Definition SetInputState (now : instant) (state : InputState) (s : RealtimeSession)
    : RealtimeSession * result Error Snapshot :=
  if negb (active s) then (s, Err ErrNoActiveSession) else
  let cur := (current s) <|Snap_InputState := normalizeInputState state|> <|LastActivityAt := now|> in
  let s := rederive (s <|current := cur|>) in
  (s, Ok (cloneSnapshot (current s))).

Definition SetOutputState (now : instant) (state : OutputState) (s : RealtimeSession)
    : RealtimeSession * result Error Snapshot :=
  if negb (active s) then (s, Err ErrNoActiveSession) else
  let cur := (current s) <|Snap_OutputState := normalizeOutputState state|> <|LastActivityAt := now|> in
  let s := rederive (s <|current := cur|>) in
  (s, Ok (cloneSnapshot (current s))).

Definition End_ (now : instant) (reason : CloseReason) (s : RealtimeSession)
    : RealtimeSession * result Error Snapshot :=
  if negb (active s) then (s, Err ErrNoActiveSession) else
  let cur := (current s) <|Snap_InputState := InputStateClosing|>
               <|Snap_OutputState := OutputStateClosing|>
               <|Snap_CloseReason := reason|> <|LastActivityAt := now|> in
  let s := rederive (s <|current := cur|>) in
  (s, Ok (cloneSnapshot (current s))).

Definition ClearTurn (now : instant) (s : RealtimeSession) : RealtimeSession :=
  let cur := (current s) <|InputFrames := 0|> <|AudioBytes := 0|> in
  mkRealtimeSession (active s) (cur <|LastActivityAt := now|>) [].

Definition Reset_ (s : RealtimeSession) : RealtimeSession :=
  mkRealtimeSession false idleSnapshot [].

Definition Snapshot_ (s : RealtimeSession) : Snapshot := cloneSnapshot (current s).

(** ** The session as a transition system *)

Inductive op :=
| OpStart (req : StartRequest)
| OpIngest (payload : list byte)
| OpIngestOwned (payload : list byte)
| OpAcceptText
| OpCommit
| OpSetState (state : State)
| OpSetInput (state : InputState)
| OpSetOutput (state : OutputState)
| OpEnd (reason : CloseReason)
| OpClearTurn
| OpReset
| OpSnapshot.

(** What a call gives back: nothing, a snapshot, a committed turn, an error. *)
Inductive output :=
| OutNothing
| OutSnapshot (r : Snapshot)
| OutTurn (r : CommittedTurn)
| OutError (e : Error).

Definition out_snapshot (p : RealtimeSession * result Error Snapshot) : RealtimeSession * output :=
  (p.1, match p.2 with Ok r => OutSnapshot r | Err e => OutError e end).
Definition out_turn (p : RealtimeSession * result Error CommittedTurn) : RealtimeSession * output :=
  (p.1, match p.2 with Ok r => OutTurn r | Err e => OutError e end).

(** One call under the mutex, at instant [now]. *)
Definition step (now : instant) (o : op) (s : RealtimeSession) : RealtimeSession * output :=
  match o with
  | OpStart req => out_snapshot (Start now req s)
  | OpIngest p => out_snapshot (IngestAudioFrame now p s)
  | OpIngestOwned p => out_snapshot (IngestOwnedAudioFrame now p s)
  | OpAcceptText => out_snapshot (AcceptText now s)
  | OpCommit => out_turn (CommitTurn now s)
  | OpSetState st => out_snapshot (SetState now st s)
  | OpSetInput st => out_snapshot (SetInputState now st s)
  | OpSetOutput st => out_snapshot (SetOutputState now st s)
  | OpEnd reason => out_snapshot (End_ now reason s)
  | OpClearTurn => (ClearTurn now s, OutNothing)
  | OpReset => (Reset_ s, OutNothing)
  | OpSnapshot => (s, OutSnapshot (Snapshot_ s))
  end.

Inductive reachable : RealtimeSession -> Prop :=
| reachable_new : reachable NewRealtimeSession
| reachable_step s now o : reachable s -> reachable (step now o s).1.

(** A run from a state: the outputs of a sequence of timed calls. *)
Fixpoint run (s : RealtimeSession) (ops : list (instant * op)) : RealtimeSession * list output :=
  match ops with
  | [] => (s, [])
  | (now, o) :: ops' =>
      let (s', out) := step now o s in
      let (s'', outs) := run s' ops' in (s'', out :: outs)
  end.

(** ** What the session promises: lanes, pending audio, turns

    The abstract session forgets the instants, the descriptive fields, the
    chunking of the audio and the derived state. *)

Record alive := mkAlive {
  a_input : InputState;
  a_output : OutputState;
  a_pending : list byte; (* audio the next commit hands over *)
  a_turns : Z
}.

Definition aspec := option alive.

#[export] Instance alive_rebuild : Rebuild alive := fun a =>
  mkAlive (a_input a) (a_output a) (a_pending a) (a_turns a).

Definition abs (s : RealtimeSession) : aspec :=
  if active s
  then Some (mkAlive (Snap_InputState (current s)) (Snap_OutputState (current s))
               (concat (turnAudioChunks s)) (Turns (current s)))
  else None.

Definition commit_output (o : OutputState) : OutputState :=
  match o with
  | OutputStateSpeaking | OutputStateClosing => o
  | _ => OutputStateThinking
  end.

Definition request_state (st : State) (a : alive) : alive :=
  let busy_input := match a_input a with
                    | InputStateIdle | InputStateClosing => InputStateCommitted
                    | i => i
                    end in
  match st with
  | StateIdle => a <|a_input := InputStateIdle|> <|a_output := OutputStateIdle|>
  | StateThinking => a <|a_input := busy_input|> <|a_output := OutputStateThinking|>
  | StateSpeaking => a <|a_input := busy_input|> <|a_output := OutputStateSpeaking|>
  | StateClosing => a <|a_input := InputStateClosing|> <|a_output := OutputStateClosing|>
  | _ => a <|a_input := InputStateActive|> <|a_output := OutputStateIdle|>
  end.

(** Specification of each call on an open session. *)
Definition astep_alive (o : op) (a : alive) : aspec :=
  match o with
  | OpStart _ | OpSnapshot => Some a
  | OpIngest p | OpIngestOwned p =>
      Some (a <|a_input := InputStateActive|> <|a_pending := a_pending a ++ p|>)
  | OpAcceptText => Some (a <|a_input := InputStateActive|>)
  | OpCommit => Some (mkAlive InputStateCommitted (commit_output (a_output a)) []
                        (i64 (a_turns a + 1)))
  | OpSetState st => Some (request_state st a)
  | OpSetInput st => Some (a <|a_input := normalizeInputState st|>)
  | OpSetOutput st => Some (a <|a_output := normalizeOutputState st|>)
  | OpEnd _ => Some (a <|a_input := InputStateClosing|> <|a_output := OutputStateClosing|>)
  | OpClearTurn => Some (a <|a_pending := []|>)
  | OpReset => None
  end.

Definition astep (o : op) (m : aspec) : aspec :=
  match m, o with
  | None, OpStart _ => Some (mkAlive InputStateActive OutputStateIdle [] 0)
  | None, _ => None
  | Some a, _ => astep_alive o a
  end.

(** The calls an idle session refuses. *)
Definition needs_session (o : op) : bool :=
  match o with
  | OpStart _ | OpClearTurn | OpReset | OpSnapshot => false
  | _ => true
  end.

(** ** Invariant of reachable sessions *)

Definition known_input (i : InputState) : bool :=
  match i with InputStateOther _ => false | _ => true end.
Definition known_output (o : OutputState) : bool :=
  match o with OutputStateOther _ => false | _ => true end.

Record session_inv (s : RealtimeSession) : Prop := {
  inv_state : Snap_State (current s)
              = deriveCompatState (Snap_InputState (current s)) (Snap_OutputState (current s)) (active s);
  inv_input : known_input (Snap_InputState (current s)) = true;
  inv_output : known_output (Snap_OutputState (current s)) = true;
  inv_id : active s = true <-> SessionID (current s) <> [];
  inv_idle : active s = false ->
             Snap_InputState (current s) = InputStateIdle /\
             Snap_OutputState (current s) = OutputStateIdle /\ turnAudioChunks s = [];
  inv_chunks : Forall (fun c => c <> []) (turnAudioChunks s)
}.

Lemma flatten_concat chunks total : flattenTurnAudioChunks chunks total = concat chunks.
Proof.
  assert (Hfold : forall l acc, fold_left (fun audio chunk : list byte => audio ++ chunk) l acc
                                = acc ++ concat l).
  { induction l as [|c l IH]; intros acc; cbn; [by rewrite app_nil_r|]. by rewrite IH, <- app_assoc. }
  destruct chunks as [|c [|c' l]]; cbn; [done | by rewrite app_nil_r |].
  by rewrite Hfold, <- app_assoc.
Qed.

Lemma normalize_input_known st : known_input (normalizeInputState st) = true.
Proof. by destruct st. Qed.
Lemma normalize_output_known st : known_output (normalizeOutputState st) = true.
Proof. by destruct st. Qed.
#[export] Hint Resolve normalize_input_known normalize_output_known : go.

Lemma new_inv : session_inv NewRealtimeSession.
Proof. by split. Qed.

Lemma chunks_snoc (s : RealtimeSession) p :
  Forall (fun c => c <> []) (turnAudioChunks s) ->
  Forall (fun c => c <> []) (if 0 <? len p then turnAudioChunks s ++ [p] else turnAudioChunks s).
Proof.
  intros H. destruct (0 <? len p) eqn:E; [|done]. bool_prop.
  apply Forall_app. split; [done|]. constructor; [by apply len_pos | done].
Qed.
#[export] Hint Resolve chunks_snoc : go.

(** The conditions the code writes on the lanes are settled by cases on the
    lanes alone; the other fields stay opaque. *)
Ltac session_cases s :=
  destruct s as [[] ? ?]; cbn in *.

Lemma update_inv s cur :
  session_inv s -> active s = true -> SessionID cur = SessionID (current s) ->
  known_input (Snap_InputState cur) = true -> known_output (Snap_OutputState cur) = true ->
  session_inv (rederive (s <|current := cur|>)).
Proof.
  intros [_ _ _ Hid _ Hch] Ha Hsid Hi Ho. split; cbn; try done.
  - by rewrite Hsid.
  - by rewrite Ha.
Qed.

Lemma apply_compat_id c st : SessionID (applyCompatState c st) = SessionID c.
Proof. destruct st; cbn; try done; by destruct (Snap_InputState c). Qed.
Lemma apply_compat_known c st :
  known_input (Snap_InputState c) = true ->
  known_input (Snap_InputState (applyCompatState c st)) = true /\
  known_output (Snap_OutputState (applyCompatState c st)) = true.
Proof. intros H. destruct st; cbn; try done; by destruct (Snap_InputState c) eqn:E; cbn; rewrite ?E. Qed.

Lemma commit_known o : known_output o = true -> known_output (commit_output o) = true.
Proof. by destruct o. Qed.

Lemma ingest_inv now p s : session_inv s -> session_inv (IngestOwnedAudioFrame now p s).1.
Proof.
  intros Hs. unfold IngestOwnedAudioFrame. destruct (active s) eqn:Ha; cbn; [|done].
  destruct Hs as [_ _ Ho Hid _ Hch]. split; cbn; try done; [|by apply chunks_snoc].
  split; [by rewrite <- Hid | done].
Qed.

Lemma start_inv now req s : session_inv s -> session_inv (Start now req s).1.
Proof.
  intros Hs. unfold Start. destruct (active s); [done|]. split; cbn; try done.
  split; [intros _ | done].
  destruct (req_RequestedSessionID req == "") eqn:E; text_prop; done.
Qed.

Lemma commit_inv now s : session_inv s -> session_inv (CommitTurn now s).1.
Proof.
  intros Hs. unfold CommitTurn. destruct (active s) eqn:Ha; cbn; [|done].
  destruct Hs as [_ _ Ho Hid _ _].
  destruct (Snap_OutputState (current s)) eqn:E; split; cbn; rewrite ?E, ?Ha in *; try done; by rewrite <- Hid.
Qed.

Lemma clear_inv now s : session_inv s -> session_inv (ClearTurn now s).
Proof. intros [Hst Hi Ho Hid Hidle _]. split; cbn; try done. intros H. by destruct (Hidle H) as (?&?&_). Qed.

Lemma step_inv now o s : session_inv s -> session_inv (step now o s).1.
Proof.
  intros Hs. destruct o; cbn; auto using start_inv, ingest_inv, commit_inv, clear_inv, new_inv.
  - unfold AcceptText. destruct (active s) eqn:Ha; cbn; [|done].
    by apply update_inv; cbn; first [done | apply Hs].
  - unfold SetState. destruct (active s) eqn:Ha; cbn; [|done].
    destruct (apply_compat_known (current s) state (inv_input _ Hs)).
    by apply update_inv; cbn; auto using apply_compat_id.
  - unfold SetInputState. destruct (active s) eqn:Ha; cbn; [|done].
    by apply update_inv; cbn; first [done | apply Hs | auto with go].
  - unfold SetOutputState. destruct (active s) eqn:Ha; cbn; [|done].
    by apply update_inv; cbn; first [done | apply Hs | auto with go].
  - unfold End_. destruct (active s) eqn:Ha; cbn; [|done]. by apply update_inv; cbn.
Qed.

Lemma reachable_inv s : reachable s -> session_inv s.
Proof. induction 1; auto using new_inv, step_inv. Qed.

(** ** Theorems *)

Lemma run_step s now o ops :
  (run s ((now, o) :: ops)).1 = (run (step now o s).1 ops).1.
Proof. cbn [run]. destruct (step now o s) as [s' out]. cbn [fst]. by destruct (run s' ops). Qed.

Lemma run_reachable s ops : reachable s -> reachable (run s ops).1.
Proof.
  revert s. induction ops as [|[now o] ops IH]; intros s Hs; [exact Hs|].
  rewrite run_step. apply IH. exact (reachable_step s now o Hs).
Qed.

(** The guard of every method: it fails with the session untouched, or its
    new state and its output are those of the body. *)
Ltac session_guard s Ha :=
  cbn [step]; unfold IngestAudioFrame, IngestOwnedAudioFrame, AcceptText, CommitTurn,
    SetState, SetInputState, SetOutputState, End_, Start, out_snapshot, out_turn;
  destruct (active s) eqn:Ha; cbn [negb fst snd].

Lemma step_output_error now o s e :
  (step now o s).2 = OutError e ->
  (step now o s).1 = s /\
  ((active s = false /\ needs_session o = true /\ e = ErrNoActiveSession) \/
   (active s = true /\ (exists req, o = OpStart req) /\ e = ErrSessionAlreadyActive)).
Proof.
  destruct o; session_guard s Ha; intros H; try discriminate H; injection H as <-;
    (split; [reflexivity|]); [right | left..]; eauto.
Qed.

(** An idle session refuses every call but [Start], [ClearTurn], [Reset]
    and [Snapshot] with [ErrNoActiveSession]; an active one refuses exactly
    [Start], with [ErrSessionAlreadyActive]; a refused call changes nothing,
    and no other call fails. *)
Theorem session_errors now o s :
  (forall e, (step now o s).2 = OutError e -> (step now o s).1 = s) /\
  ((step now o s).2 = OutError ErrNoActiveSession <->
     active s = false /\ needs_session o = true) /\
  ((step now o s).2 = OutError ErrSessionAlreadyActive <->
     active s = true /\ exists req, o = OpStart req).
Proof.
  split; [intros e H; by apply step_output_error in H as [? _]|]. split; split.
  - intros H. apply step_output_error in H as [_ [(?&?&?)|(?&?&?)]]; done.
  - intros [Ha Ho]. destruct o; try discriminate Ho; session_guard s Ha'; congruence.
  - intros H. apply step_output_error in H as [_ [(?&?&?)|(?&?&?)]]; done.
  - intros [Ha [req ->]]. session_guard s Ha'; congruence.
Qed.

(** Every reachable session is well formed: the compatibility state is
    the one derived from the lanes, the lanes hold declared constants, the
    session id is present exactly while the session is active, an idle session
    holds no audio and idle lanes, and no stored chunk is empty. *)
Theorem session_reachable_invariant s : reachable s -> session_inv s.
Proof. apply reachable_inv. Qed.

Example start_request : StartRequest :=
  {| req_RequestedSessionID := "sess_demo"; req_DeviceID := "rtos-01"; req_ClientType := "rtos";
     req_FirmwareVersion := "1.0"; req_Mode := "voice"; req_InputCodec := "pcm16le";
     req_InputSampleRate := 16000; req_InputChannels := 1;
     req_ClientCanEnd := true; req_ServerCanEnd := true |}.

Definition demo_now : instant := unix_epoch + 5.
Definition demo_speaking : RealtimeSession :=
  (run NewRealtimeSession
     [(demo_now, OpStart start_request); (demo_now, OpIngest ["001"; "002"]%byte);
      (demo_now, OpCommit); (demo_now, OpClearTurn);
      (demo_now, OpSetOutput OutputStateSpeaking)]).1.

Lemma demo_speaking_reachable : reachable demo_speaking.
Proof. apply run_reachable, reachable_new. Qed.

Lemma session_reachable_invariant_witness :
  reachable demo_speaking /\ session_inv demo_speaking.
Proof.
  split; [apply demo_speaking_reachable|].
  apply (session_reachable_invariant demo_speaking), demo_speaking_reachable.
Defined.

Lemma concat_pending (s : RealtimeSession) (p : list byte) :
  concat (if 0 <? len p then turnAudioChunks s ++ [p] else turnAudioChunks s)
  = concat (turnAudioChunks s) ++ p.
Proof.
  destruct (0 <? len p) eqn:E.
  - rewrite concat_app. cbn. by rewrite app_nil_r.
  - destruct p; [by rewrite app_nil_r|]. bool_prop. rewrite len_cons in E. pose proof (len_nonneg p). lia.
Qed.

(** One step refines, for this theorem and the ones below. *)
Lemma step_abs now o s :
  session_inv s -> abs (step now o s).1 = astep o (abs s).
Proof.
  intros Hs. unfold abs at 2. destruct (active s) eqn:Ha.
  - destruct o; session_guard s Ha'; try congruence; unfold abs; cbn; rewrite ?Ha', ?concat_pending; try done.
    + by destruct (Snap_OutputState (current s)) eqn:E; cbn; rewrite ?E.
    + destruct state; cbn; rewrite ?Ha; try done; by destruct (Snap_InputState (current s)) eqn:E; cbn; rewrite ?E.
  - destruct o; session_guard s Ha'; try congruence; unfold abs; cbn; by rewrite ?Ha'.
Qed.

(** C2. The session implements its specification: one call of the detailed
    session, seen through [abs], is the step of the abstract session. *)
Theorem session_refines now o s :
  session_inv s -> abs (step now o s).1 = astep o (abs s).
Proof. exact (step_abs now o s). Qed.

Lemma session_refines_witness :
  session_inv demo_speaking /\
  abs (step demo_now OpCommit demo_speaking).1 = astep OpCommit (abs demo_speaking).
Proof.
  pose proof (reachable_inv _ demo_speaking_reachable) as H.
  split; [exact H | exact (session_refines demo_now OpCommit demo_speaking H)].
Defined.

(** Calls that neither hand the open turn's audio over nor drop it. *)
Definition keeps_audio (o : op) : bool :=
  match o with OpCommit | OpClearTurn | OpReset | OpStart _ => false | _ => true end.

(** The audio a sequence of calls brings in. *)
Definition ingested (ops : list (instant * op)) : list byte :=
  concat (map (fun '(_, o) => match o with OpIngest p | OpIngestOwned p => p | _ => [] end) ops).

Lemma run_inv s ops : session_inv s -> session_inv (run s ops).1.
Proof.
  revert s. induction ops as [|[now o] ops IH]; intros s Hs; [done|].
  rewrite run_step. by apply IH, step_inv.
Qed.

Lemma keeps_audio_pending s ops a :
  session_inv s -> abs s = Some a -> forallb (fun p => keeps_audio p.2) ops = true ->
  exists b, abs (run s ops).1 = Some b /\ a_pending b = a_pending a ++ ingested ops.
Proof.
  revert s a. induction ops as [|[now o] ops IH]; intros s a Hs Ha Hops.
  { exists a. unfold ingested. cbn. by rewrite app_nil_r. }
  cbn in Hops. apply andb_true_iff in Hops as [Ho Hops]. rewrite run_step.
  pose proof (step_abs now o s Hs) as Hr. rewrite Ha in Hr. cbn in Hr.
  assert (exists a', astep_alive o a = Some a' /\
            a_pending a' = a_pending a ++ ingested [(now, o)]) as [a' [Ha' Hp]].
  { unfold ingested. cbn. destruct o; try done; cbn; eexists; split; try done; cbn;
      rewrite ?app_nil_r; try done; by destruct state. }
  rewrite Ha' in Hr. destruct (IH _ _ (step_inv now o s Hs) Hr Hops) as [b [Hb Hpb]].
  exists b. split; [exact Hb|]. rewrite Hpb, Hp, <- app_assoc. f_equal.
  unfold ingested. cbn. by rewrite app_nil_r.
Qed.

Lemma commit_audio now s a :
  abs s = Some a ->
  exists t, (step now OpCommit s).2 = OutTurn t /\ ct_AudioPCM t = a_pending a /\
            Turns (ct_Snapshot t) = i64 (a_turns a + 1).
Proof.
  unfold abs. destruct (active s) eqn:Ha; [|done]. intros [= <-].
  cbn. unfold CommitTurn. rewrite Ha. cbn. rewrite flatten_concat.
  eexists. split; [done|]. cbn. by destruct (Snap_OutputState (current s)).
Qed.

(** C11. A commit hands over, in order and once, exactly the audio ingested
    since the turn was opened: whatever lane changes, text inputs, snapshots or
    refused calls happen in between, the committed PCM is the audio pending
    before them followed by the frames they ingested, and a second commit right
    after hands over nothing. *)
Theorem commit_hands_over_ingested_audio s a ops now now' :
  session_inv s -> abs s = Some a -> forallb (fun p => keeps_audio p.2) ops = true ->
  let s1 := (run s ops).1 in
  let s2 := (step now OpCommit s1).1 in
  (exists t, (step now OpCommit s1).2 = OutTurn t /\
             ct_AudioPCM t = a_pending a ++ ingested ops) /\
  (exists t', (step now' OpCommit s2).2 = OutTurn t' /\ ct_AudioPCM t' = []).
Proof.
  intros Hs Ha Hops s1 s2. destruct (keeps_audio_pending s ops a Hs Ha Hops) as [b [Hb Hp]].
  split.
  - destruct (commit_audio now _ b Hb) as [t [Ht [Hpcm _]]]. exists t. split; [exact Ht|]. by rewrite Hpcm.
  - assert (Hs2 : abs s2 = Some (mkAlive InputStateCommitted (commit_output (a_output b)) []
                                  (i64 (a_turns b + 1)))).
    { unfold s2. rewrite step_abs by by apply run_inv. unfold s1. by rewrite Hb. }
    destruct (commit_audio now' _ _ Hs2) as [t [Ht [Hpcm _]]]. by exists t.
Qed.

Lemma commit_hands_over_ingested_audio_witness :
  let ops := [(demo_now, OpIngest ["010"]%byte); (demo_now, OpSetInput InputStatePreviewing);
              (demo_now, OpIngestOwned []); (demo_now, OpIngest ["011"; "012"]%byte)] in
  exists a, abs demo_speaking = Some a /\
  (exists t, (step demo_now OpCommit (run demo_speaking ops).1).2 = OutTurn t /\
             ct_AudioPCM t = a_pending a ++ ["010"; "011"; "012"]%byte).
Proof.
  intros ops. eexists. split; [reflexivity|].
  exact (proj1 (commit_hands_over_ingested_audio demo_speaking _ ops demo_now demo_now
                  (reachable_inv _ demo_speaking_reachable) eq_refl eq_refl)).
Defined.

(** The calls that drive one lane only. *)
Definition input_lane_op (o : op) : bool :=
  match o with
  | OpIngest _ | OpIngestOwned _ | OpAcceptText | OpSetInput _ | OpClearTurn | OpSnapshot => true
  | _ => false
  end.

(** The two lanes are independent, and the compatibility state follows the
    output lane: on an active session a call that brings input in (audio, text,
    preview) leaves the output lane and the compatibility state as they were,
    [SetOutputState] leaves the input lane, and a commit while the server
    speaks keeps it speaking and only otherwise moves it to thinking. *)
Theorem session_lanes_independent s now :
  session_inv s -> active s = true ->
  (forall o, input_lane_op o = true ->
     Snap_OutputState (current (step now o s).1) = Snap_OutputState (current s) /\
     Snap_State (current (step now o s).1) = Snap_State (current s)) /\
  (forall st, Snap_InputState (current (step now (OpSetOutput st) s).1) = Snap_InputState (current s)) /\
  Snap_InputState (current (step now OpCommit s).1) = InputStateCommitted /\
  Snap_OutputState (current (step now OpCommit s).1) = commit_output (Snap_OutputState (current s)) /\
  Snap_State (current (step now OpCommit s).1)
    = match Snap_OutputState (current s) with
      | OutputStateSpeaking => StateSpeaking | OutputStateClosing => StateClosing
      | _ => StateThinking
      end.
Proof.
  intros Hs Ha. pose proof (inv_state _ Hs) as Hst. rewrite Ha in Hst. split; [|split; [|split]].
  - intros o Ho. destruct o; try discriminate Ho; session_guard s Ha'; try congruence; cbn;
      rewrite ?Ha', ?Hst; done.
  - intros st. session_guard s Ha'; [reflexivity | congruence].
  - session_guard s Ha'; [|congruence]. cbn. by destruct (Snap_OutputState (current s)).
  - session_guard s Ha'; [|congruence]. cbn. rewrite Ha'.
    split; by destruct (Snap_OutputState (current s)) eqn:E; cbn; rewrite ?E.
Qed.

Lemma session_lanes_independent_witness :
  session_inv demo_speaking /\ active demo_speaking = true /\
  Snap_State (current (step demo_now OpCommit demo_speaking).1) = StateSpeaking.
Proof.
  pose proof (reachable_inv _ demo_speaking_reachable) as H. split; [exact H|].
  split; [reflexivity|].
  exact (proj2 (proj2 (proj2 (proj2 (session_lanes_independent demo_speaking demo_now H eq_refl))))).
Defined.

(** Calls that leave the counters of the open turn alone or add to them. *)
Definition counts_turn (o : op) : bool :=
  match o with OpClearTurn | OpReset | OpStart _ => false | _ => true end.

Definition frames (ops : list (instant * op)) : Z :=
  len (List.filter (fun '(_, o) => match o with OpIngest _ | OpIngestOwned _ => true | _ => false end) ops).

(** The counters an adapter reads off a snapshot: across any calls other
    than [Start], [ClearTurn] and [Reset], [AudioBytes] grows by the bytes
    ingested and [InputFrames] by the frames, modulo 2^64, commits included
    (a commit empties the audio but not the counters, which is why the gateway
    calls [ClearTurn] after a turn). *)
Theorem session_counters s ops :
  active s = true -> forallb (fun p => counts_turn p.2) ops = true ->
  let s' := (run s ops).1 in
  i64 (AudioBytes (current s')) = i64 (AudioBytes (current s) + len (ingested ops)) /\
  i64 (InputFrames (current s')) = i64 (InputFrames (current s) + frames ops).
Proof.
  intros Ha Hops s'. unfold s'. clear s'. revert s Ha.
  induction ops as [|[now o] ops IH]; intros s Ha; [by rewrite ?Z.add_0_r|].
  cbn in Hops. apply andb_true_iff in Hops as [Ho Hops]. rewrite run_step.
  assert (Hone : active (step now o s).1 = true /\
    i64 (AudioBytes (current (step now o s).1)) = i64 (AudioBytes (current s) + len (ingested [(now, o)])) /\
    i64 (InputFrames (current (step now o s).1)) = i64 (InputFrames (current s) + frames [(now, o)])).
  { unfold ingested, frames. destruct o; try discriminate Ho; session_guard s Ha'; try congruence;
      cbn; rewrite ?app_nil_r, ?len_nil, ?Z.add_0_r, ?i64_idemp; try done;
      first [by destruct state; cbn; try done; destruct (Snap_InputState (current s))
            | by destruct (Snap_OutputState (current s))]. }
  destruct Hone as [Ha1 [Hb1 Hf1]]. destruct (IH Hops _ Ha1) as [Hb Hf].
  rewrite Hb, Hf, <- i64_add_l, Hb1, i64_add_l. rewrite <- (i64_add_l (InputFrames _)), Hf1, i64_add_l.
  unfold ingested, frames. cbn. rewrite app_nil_r, len_app.
  split; f_equal; [lia|]. destruct o; cbn; rewrite ?len_cons, ?len_nil; lia.
Qed.

Lemma session_counters_witness :
  active demo_speaking = true /\
  i64 (AudioBytes (current (run demo_speaking [(demo_now, OpIngest ["010"; "011"]%byte);
                                               (demo_now, OpCommit)]).1)) = 2.
Proof.
  split; [reflexivity|].
  exact (proj1 (session_counters demo_speaking
                  [(demo_now, OpIngest ["010"; "011"]%byte); (demo_now, OpCommit)] eq_refl eq_refl)).
Defined.

(** What [SetState] leaves: the snapshot it returns shows the requested
    compatibility state, except that [idle] and any undeclared string show
    [active]; the input lane is idle only after [SetState(idle)] and closing
    only after [SetState(closing)]. *)
Theorem set_state_shows_request s now st :
  session_inv s -> active s = true ->
  exists r, (step now (OpSetState st) s).2 = OutSnapshot r /\
    Snap_State r = match st with
                   | StateThinking | StateSpeaking | StateClosing => st
                   | _ => StateActive
                   end /\
    (Snap_InputState r = InputStateIdle -> st = StateIdle) /\
    (Snap_InputState r = InputStateClosing -> st = StateClosing).
Proof.
  intros Hs Ha. pose proof (proj1 (inv_id _ Hs) Ha) as Hid.
  session_guard s Ha'; [|congruence]. eexists. split; [reflexivity|]. cbn. rewrite apply_compat_id.
  destruct (SessionID (current s) == "") eqn:E; text_prop; [done|].
  destruct st; cbn; destruct (Snap_InputState (current s)) eqn:Ei; cbn; rewrite ?Ei; done.
Qed.

Lemma set_state_shows_request_witness :
  session_inv demo_speaking /\ active demo_speaking = true /\
  exists r, (step demo_now (OpSetState StateIdle) demo_speaking).2 = OutSnapshot r /\
            Snap_State r = StateActive.
Proof.
  pose proof (reachable_inv _ demo_speaking_reachable) as H. split; [exact H|]. split; [reflexivity|].
  destruct (set_state_shows_request demo_speaking demo_now StateIdle H eq_refl) as [r [Hr [Hst _]]].
  exists r. exact (conj Hr Hst).
Defined.
