(* ===== verification/Contracts.v ===== *)
(** * Data the voice runtime exchanges (internal/voice/contracts.go)

    The records keep the source's field names, prefixed where two structs
    share one; strings are texts, [int]s and durations are [Z], [float64] is
    binary64.  [zero_] values are the zero values Go's composite literals
    start from. *)

From S2P Require Import Prelude GoText GoFloat.

Inductive TranscriptionDeltaKind :=
| TranscriptionDeltaKindSpeechStart | TranscriptionDeltaKindPartial
| TranscriptionDeltaKindSpeechEnd | TranscriptionDeltaKindFinal
| TranscriptionDeltaKindOther (s : text).

Record TranscriptionDelta := mkTranscriptionDelta {
  Delta_Kind : TranscriptionDeltaKind;
  Delta_Text : text;
  Delta_EndpointReason : text;
  Delta_AudioBytes : Z
}.

Inductive TurnArbitrationStage :=
| StageNone (* the zero value [""] *)
| TurnArbitrationStagePreviewOnly | TurnArbitrationStagePrewarmAllowed
| TurnArbitrationStageDraftAllowed | TurnArbitrationStageAcceptCandidate
| TurnArbitrationStageAcceptNow | TurnArbitrationStageWaitForMore
| StageOther (s : text).

#[export] Instance TurnArbitrationStage_eq_dec : EqDecision TurnArbitrationStage.
Proof. solve_decision. Defined.

Record TurnArbitration := mkTurnArbitration {
  Stage : TurnArbitrationStage;
  Reason : text;
  Stability : float64;
  StableForMs : Z;
  AudioMs : Z;
  SilenceMs : Z;
  MinAudioMs : Z;
  BaseWaitMs : Z;
  RuleAdjustMs : Z;
  PunctuationAdjustMs : Z;
  SemanticWaitPolicy : text;
  SemanticWaitDeltaMs : Z;
  SlotGuardAdjustMs : Z;
  EffectiveWaitMs : Z;
  RequiredSilenceMs : Z;
  CandidateReady : bool;
  DraftReady : bool;
  AcceptReady : bool;
  PrewarmAllowed : bool;
  DraftAllowed : bool;
  AcceptCandidate : bool;
  AcceptNow : bool;
  EndpointHinted : bool;
  SemanticJudgeVariant : text;
  SemanticJudgeEnabled : bool;
  SemanticReady : bool;
  SemanticComplete : bool;
  SemanticIntent : text;
  SemanticSlotReadiness : text;
  TaskFamily : text;
  SlotConstraintRequired : bool;
  SemanticReason : text;
  SemanticSource : text;
  SemanticConfidence : float64;
  SlotReady : bool;
  SlotComplete : bool;
  SlotGrounded : bool;
  SlotDomain : text;
  SlotIntent : text;
  SlotStatus : text;
  SlotActionability : text;
  SlotReason : text;
  SlotSource : text;
  SlotConfidence : float64;
  SlotClarifyNeeded : bool;
  SlotCanonicalTarget : text;
  SlotCanonicalLocation : text;
  SlotNormalizedValue : text;
  SlotNormalizedValueUnit : text;
  SlotRiskLevel : text;
  SlotRiskReason : text;
  SlotRiskConfirmRequired : bool;
  SlotMissing : list text;
  SlotAmbiguous : list text
}.

#[export] Instance TurnArbitration_rebuild : Rebuild TurnArbitration := fun a =>
  mkTurnArbitration
    (Stage a) (Reason a) (Stability a) (StableForMs a) (AudioMs a) (SilenceMs a) (MinAudioMs a)
    (BaseWaitMs a) (RuleAdjustMs a) (PunctuationAdjustMs a) (SemanticWaitPolicy a)
    (SemanticWaitDeltaMs a) (SlotGuardAdjustMs a) (EffectiveWaitMs a) (RequiredSilenceMs a)
    (CandidateReady a) (DraftReady a) (AcceptReady a) (PrewarmAllowed a) (DraftAllowed a)
    (AcceptCandidate a) (AcceptNow a) (EndpointHinted a) (SemanticJudgeVariant a)
    (SemanticJudgeEnabled a) (SemanticReady a) (SemanticComplete a) (SemanticIntent a)
    (SemanticSlotReadiness a) (TaskFamily a) (SlotConstraintRequired a) (SemanticReason a)
    (SemanticSource a) (SemanticConfidence a) (SlotReady a) (SlotComplete a) (SlotGrounded a)
    (SlotDomain a) (SlotIntent a) (SlotStatus a) (SlotActionability a) (SlotReason a)
    (SlotSource a) (SlotConfidence a) (SlotClarifyNeeded a) (SlotCanonicalTarget a)
    (SlotCanonicalLocation a) (SlotNormalizedValue a) (SlotNormalizedValueUnit a)
    (SlotRiskLevel a) (SlotRiskReason a) (SlotRiskConfirmRequired a) (SlotMissing a)
    (SlotAmbiguous a).

Definition zero_TurnArbitration : TurnArbitration :=
  mkTurnArbitration
    StageNone "" f_zero 0 0 0 0 0 0 0 "" 0 0 0 0 false false false false false false false false
    "" false false false "" "" "" false "" "" f_zero false false false "" "" "" "" "" "" f_zero
    false "" "" "" "" "" "" false [] [].

Record InputPreview := mkInputPreview {
  PartialText : text;
  StablePrefix : text;
  EndpointReason : text;
  Preview_AudioBytes : Z;
  CommitSuggested : bool;
  SpeechStarted : bool;
  UtteranceComplete : bool;
  Arbitration : TurnArbitration
}.

#[export] Instance InputPreview_rebuild : Rebuild InputPreview := fun p =>
  mkInputPreview (PartialText p) (StablePrefix p) (EndpointReason p) (Preview_AudioBytes p)
    (CommitSuggested p) (SpeechStarted p) (UtteranceComplete p) (Arbitration p).

Definition zero_InputPreview : InputPreview :=
  mkInputPreview "" "" "" 0 false false false zero_TurnArbitration.

(** [string -> string] maps of turn metadata; Go's nil map reads as empty. *)
Abbreviation metadata := (gmap (list Z) text).

Record PlaybackSegment := mkPlaybackSegment {
  Segment_Index : Z;
  Segment_Text : text;
  ExpectedDuration : duration;
  IsLastSegment : bool
}.

Record TranscriptionResult := mkTranscription {
  rec_Text : text;
  rec_Segments : list text;
  rec_DurationMs : Z;
  rec_ElapsedMs : Z;
  rec_Model : text;
  rec_Device : text;
  rec_Language : text;
  rec_Emotion : text;
  rec_SpeakerID : text;
  rec_AudioEvents : list text;
  rec_EndpointReason : text;
  rec_Partials : list text;
  rec_Mode : text
}.

#[export] Instance TranscriptionResult_rebuild : Rebuild TranscriptionResult := fun r =>
  mkTranscription (rec_Text r) (rec_Segments r) (rec_DurationMs r) (rec_ElapsedMs r) (rec_Model r) (rec_Device r)
    (rec_Language r) (rec_Emotion r) (rec_SpeakerID r) (rec_AudioEvents r) (rec_EndpointReason r) (rec_Partials r)
    (rec_Mode r).

Definition zero_TranscriptionResult : TranscriptionResult := mkTranscription "" [] 0 0 "" "" "" "" "" [] "" [] "".
