(* ===== verification/Lexical.v ===== *)
(** * Lexical judgements on a partial transcript

    The text predicates of the voice runtime: hesitations, unfinished clauses,
    self-corrections, question closures, backchannels, takeover words and the
    task family they suggest (internal/voice/turn_detector.go, barge_in.go,
    semantic_task_family.go), and the stable prefix of successive partials. *)

From S2P Require Import Prelude GoText GoFloat Contracts.

(** ** Word lists, in the source's order *)

Definition chineseIncompleteSuffixes : list text :=
  texts ["然后"; "然后呢"; "还有"; "还有呢"; "而且"; "或者"; "但是"; "不过"; "因为"; "所以"; "如果";
   "帮我"; "请帮我"; "麻烦帮我"; "把"; "给"; "到"; "调到"; "切到"; "设到"; "就是"; "那个"; "这个";
   "再"; "先"].
Definition chineseStandaloneHesitations : list text :=
  texts ["嗯"; "嗯嗯"; "呃"; "额"; "啊"; "啊啊"; "哦"; "噢"; "诶"; "欸"; "唉"; "那个"; "这个"; "就是";
   "然后"; "还有"].
Definition englishIncompleteTokens : list text :=
  texts ["and"; "or"; "but"; "if"; "when"; "because"; "to"; "for"; "with"; "then"; "please"].
Definition englishStandaloneHesitations : list text := texts ["uh"; "um"; "hmm"; "mm"; "erm"].
Definition chineseCorrectionSuffixes : list text :=
  texts ["不对"; "不是"; "我是说"; "我改一下"; "改成"; "换成"; "等一下"; "等等"; "等会"; "先别"].
Definition englishCorrectionTokens : list text := texts ["wait"; "sorry"; "actually"; "instead"].
Definition backchannelTokens : list text :=
  texts ["嗯"; "嗯嗯"; "啊"; "哦"; "喔"; "唉"; "欸"; "哎"; "好"; "好的"; "行"; "行吧"; "可以"; "收到";
   "知道了"; "明白了"; "对"; "是的"; "没事"; "谢谢"; "哈哈"].
Definition bargeInTakeoverLexicon : list text :=
  texts ["等一下"; "等会"; "等等"; "停一下"; "停停"; "不是"; "不对"; "打断一下"; "先别"; "先停"; "重新";
   "改成"; "换成"].
Definition chineseQuestionSuffixes : list text :=
  texts ["吗"; "呢"; "么"; "几"; "多少"; "几点"; "几号"; "几个"; "几岁"; "哪里"; "哪儿"; "哪边"; "为什么";
   "怎么回事"].
Definition chineseStructuredCommandPrefixes : list text :=
  texts ["打开"; "关闭"; "关掉"; "启动"; "停止"; "暂停"; "继续"; "设置"; "设成"; "设到"; "调成"; "调到";
   "调亮"; "调暗"; "切到"; "切换到"; "换成"; "改成"; "帮我"; "请帮我"; "麻烦帮我"; "把"; "给"].
Definition englishStructuredCommandPrefixes : list text :=
  texts ["turn "; "switch "; "set "; "change "; "open "; "close "; "pause "; "resume "; "start "; "stop ";
   "please "].
Definition chineseStructuredQueryPrefixes : list text :=
  texts ["查询"; "查一下"; "查查"; "帮我查"; "帮我看"; "看看"; "告诉我"].
Definition englishStructuredQueryPrefixes : list text :=
  texts ["check "; "query "; "show "; "tell me "; "what's "; "whats "].

(** ** Shared scans *)

(** A lookup in a [map[string]bool] or a [map[string]struct{}] literal. *)
Definition in_table (table : list text) (s : text) : bool := existsb (text_eqb s) table.

Definition matchesAnySuffix (s : text) (suffixes : list text) : bool := existsb (HasSuffix s) suffixes.
Definition matchesAnyValue (s : text) (values : list text) : bool := existsb (text_eqb s) values.
Definition hasAnyPrefix (s : text) (prefixes : list text) : bool := existsb (HasPrefix s) prefixes.

Definition runeAtEnd (s : text) : rune := List.last s 0.

(** Members of a [switch] on a rune: the runes of a literal. *)
Definition rune_in (r : rune) (cases : text) : bool := ContainsRune cases r.

Fixpoint longestCommonPrefix (a b : text) : text :=
  match a, b with
  | x :: a', y :: b' => if x =? y then x :: longestCommonPrefix a' b' else []
  | _, _ => []
  end.

(** [trailingEnglishToken] walks the bytes from the end; [rev_text] is the
    text reversed and [acc] the builder, which receives the token backwards
    and is reversed on return: consing does both.  A byte above 127 belongs to
    a rune above 127, where the walk stops. *)
Definition token_skip_set : text := txt ".,!?;:()[]{}<>'`" ++ [34].

Fixpoint trailing_token_go (rev_text acc : text) : text :=
  match rev_text with
  | [] => acc
  | ch :: rest =>
      if MaxASCII <? ch then acc
      else if IsLetter_ascii ch then trailing_token_go rest (unicode_ToLower ch :: acc)
      else if 0 <? len acc then acc
      else if IsSpace ch || ContainsRune token_skip_set ch then trailing_token_go rest acc
      else acc
  end.
Definition trailingEnglishToken (s : text) : text := trailing_token_go (reverse s) [].

(** [asciiWordTokens]: [builder] holds the current word, [tokens] the words. *)
Fixpoint ascii_words_go (s : text) (builder : text) (tokens : list text) : list text :=
  let flush := if len builder =? 0 then tokens else tokens ++ [builder] in
  match s with
  | [] => flush
  | r :: s' =>
      if (r <=? MaxASCII) && IsLetter_ascii r
      then ascii_words_go s' (builder ++ [unicode_ToLower r]) tokens
      else ascii_words_go s' [] flush
  end.
Definition asciiWordTokens (s : text) : list text := ascii_words_go s [] [].

(** ** Completeness *)

Definition terminal_marks : text := ".!?。！？".
Definition open_marks : text := txt ",，、;；:：(（[{<'“‘-—…" ++ [34].

Definition looksLexicallyComplete (s : text) : bool :=
  let t := TrimSpace s in
  if t == "" then false
  else if matchesAnyValue t chineseStandaloneHesitations then false
  else if match asciiWordTokens t with
          | [token] => in_table englishStandaloneHesitations token
          | _ => false
          end then false
  else if HasSuffix t "..." || HasSuffix t "……" then false
  else
    let lastRune := runeAtEnd t in
    if rune_in lastRune terminal_marks then true
    else if rune_in lastRune open_marks then false
    else if matchesAnySuffix t chineseIncompleteSuffixes then false
    else
      let token := trailingEnglishToken t in
      negb ((token != "") && in_table englishIncompleteTokens token).

Definition correction_cutset : text := txt " " ++ [9; 13; 10] ++ txt ",，。.!?！？;；:：、".

Definition looksCorrectionPending (s : text) : bool :=
  let t := TrimSpace s in
  if t == "" then false
  else if existsb (fun suffix =>
            if negb (HasSuffix t suffix) then false
            else TrimRight (TrimSpace (TrimSuffix t suffix)) correction_cutset != "")
          chineseCorrectionSuffixes
  then true
  else
    let token := trailingEnglishToken t in
    if in_table englishCorrectionTokens token
    then (* trimmed[:len(trimmed)-len(token)]: the last len(token) bytes are ASCII *)
      let prefix := TrimSpace (take (length t - length token) t) in
      TrimRight prefix correction_cutset != ""
    else false.

Record utteranceCompletenessResult := mkCompleteness { Complete : bool; HoldReason : text }.

Definition correctionHoldServerEndpointReason : text := "server_correction_hold_timeout".
Definition lexicalHoldServerEndpointReason : text := "server_lexical_hold_timeout".

Definition analyzeUtteranceCompleteness (s : text) : utteranceCompletenessResult :=
  let t := TrimSpace s in
  if t == "" then mkCompleteness false ""
  else if looksCorrectionPending t then mkCompleteness false correctionHoldServerEndpointReason
  else if negb (looksLexicallyComplete t) then mkCompleteness false lexicalHoldServerEndpointReason
  else mkCompleteness true "".

Definition previewUtteranceCompleteness (stablePrefix partialText : text) : utteranceCompletenessResult :=
  let stableCandidate := TrimSpace (firstNonEmpty [stablePrefix; partialText]) in
  if stableCandidate == "" then mkCompleteness false "" else
  let stableCompleteness := analyzeUtteranceCompleteness stableCandidate in
  let trimmedPartial := TrimSpace partialText in
  if trimmedPartial != "" then
    let liveCompleteness := analyzeUtteranceCompleteness trimmedPartial in
    if negb (Complete liveCompleteness) then liveCompleteness else stableCompleteness
  else stableCompleteness.

(** ** Stable prefix *)

Definition updateStablePrefix (previousPartial previousStable nextPartial : text) (final : bool) : text :=
  let next := TrimSpace nextPartial in
  if next == "" then TrimSpace previousStable
  else if final then next
  else
    let prev := TrimSpace previousPartial in
    let stable := TrimSpace previousStable in
    if prev == "" then stable
    else if prev == next then
      if (stable != "") && HasPrefix next stable && Complete (analyzeUtteranceCompleteness stable)
         && negb (Complete (analyzeUtteranceCompleteness next))
      then stable else next
    else
      let common := TrimSpace (longestCommonPrefix prev next) in
      if common == "" then stable
      else if (stable == "") || HasPrefix common stable then common
      else stable.

Definition previewTextStabilityRatio (s stablePrefix : text) : float64 :=
  let textRunes := TrimSpace s in
  if len textRunes =? 0 then f_zero else
  let stableRunes := TrimSpace stablePrefix in
  let value := f_div (f_of_Z (len stableRunes)) (f_of_Z (len textRunes)) in
  if f_ltb value f_zero then f_zero
  else if f_ltb f_one value then f_one
  else value.

(** ** Questions and punctuation *)

Definition looksQuestionClosure (s : text) : bool :=
  let t := TrimSpace s in
  if t == "" then false
  else if HasSuffix t "吗" || HasSuffix t "呢" || HasSuffix t "么" then true
  else
    let lower := ToLower t in
    HasPrefix lower "what " || HasPrefix lower "when " || HasPrefix lower "where "
    || HasPrefix lower "why " || HasPrefix lower "how ".

Definition defaultQuestionClosureBonusMs : Z := -80.
Definition defaultTerminalPunctuationBonusMs : Z := -100.
Definition defaultClauseContinuationHoldMs : Z := 120.

Definition previewPunctuationAdjustMs (partialText stablePrefix : text) (utteranceComplete : bool) : Z :=
  let t := TrimSpace (firstNonEmpty [partialText; stablePrefix]) in
  if t == "" then 0
  else
    let lastRune := runeAtEnd t in
    if utteranceComplete then
      if rune_in lastRune terminal_marks then defaultTerminalPunctuationBonusMs
      else if looksQuestionClosure t then defaultQuestionClosureBonusMs
      else 0
    else if rune_in lastRune ",，、;；:：" then defaultClauseContinuationHoldMs
    else if matchesAnySuffix t chineseIncompleteSuffixes || HasSuffix t "..." || HasSuffix t "……"
    then defaultClauseContinuationHoldMs
    else 0.

(** ** Backchannel and takeover (barge_in.go) *)

Definition backchannel_cutset : text := txt " " ++ [9; 13; 10] ++ txt ",.!?;:，。！？；：~～".
Definition single_backchannels : text := "嗯啊哦喔唉欸哎好".

Definition looksLikeBackchannel (s : text) : bool :=
  let normalized := TrimSpace s in
  if normalized == "" then false else
  let normalized := Trim normalized backchannel_cutset in
  if normalized == "" then false
  else if in_table backchannelTokens normalized then true
  else if 4 <? len normalized then false
  else if (len normalized =? 1) && rune_in (List.hd 0 normalized) single_backchannels then true
  else if len normalized <=? 3 then
    match normalized with
    | [] => false
    | r0 :: rest => forallb (Z.eqb r0) rest
    end
  else false.

Definition looksLikeTakeoverLexicon (s : text) : bool :=
  let normalized := TrimSpace s in
  if normalized == "" then false else existsb (Contains normalized) bargeInTakeoverLexicon.

(** ** Task families (semantic_task_family.go) *)

Definition SemanticTaskFamilyUnknown : text := "unknown".
Definition SemanticTaskFamilyDialogue : text := "dialogue".
Definition SemanticTaskFamilyKnowledgeQuery : text := "knowledge_query".
Definition SemanticTaskFamilyStructuredCommand : text := "structured_command".
Definition SemanticTaskFamilyStructuredQuery : text := "structured_query".
Definition SemanticTaskFamilyCorrection : text := "correction".
Definition SemanticTaskFamilyBackchannel : text := "backchannel".

(** The normalizers of the runtime share one shape: a [switch] on the lowered,
    trimmed value that returns the case itself, or a default. *)
Definition normalize_to (cases : list text) (default value : text) : text :=
  let v := ToLower (TrimSpace value) in
  if existsb (text_eqb v) cases then v else default.

Definition task_families : list text :=
  [SemanticTaskFamilyDialogue; SemanticTaskFamilyKnowledgeQuery; SemanticTaskFamilyStructuredCommand;
   SemanticTaskFamilyStructuredQuery; SemanticTaskFamilyCorrection; SemanticTaskFamilyBackchannel].

Definition normalizeSemanticTaskFamily (value : text) : text :=
  normalize_to task_families SemanticTaskFamilyUnknown value.

Definition taskFamilyRequiresSlotReadiness (family : text) : bool :=
  normalizeSemanticTaskFamily family == SemanticTaskFamilyStructuredCommand.

Definition inferLexicalTaskFamily (s : text) : text :=
  let t := TrimSpace s in
  if t == "" then SemanticTaskFamilyUnknown
  else if looksLikeBackchannel t then SemanticTaskFamilyBackchannel
  else if looksCorrectionPending t || looksLikeTakeoverLexicon t then SemanticTaskFamilyCorrection
  else if looksQuestionClosure t || matchesAnySuffix t chineseQuestionSuffixes
  then SemanticTaskFamilyKnowledgeQuery
  else if hasAnyPrefix t chineseStructuredQueryPrefixes
          || hasAnyPrefix (ToLower t) englishStructuredQueryPrefixes
  then SemanticTaskFamilyStructuredQuery
  else if hasAnyPrefix t chineseStructuredCommandPrefixes
          || hasAnyPrefix (ToLower t) englishStructuredCommandPrefixes
  then SemanticTaskFamilyStructuredCommand
  else SemanticTaskFamilyDialogue.

Example backchannel_ok : looksLikeBackchannel " 嗯嗯。" = true. Proof. vm_compute. reflexivity. Qed.
Example command_ok : inferLexicalTaskFamily "打开客厅的灯" = SemanticTaskFamilyStructuredCommand.
Proof. vm_compute. reflexivity. Qed.
Example incomplete_ok : looksLexicallyComplete "帮我把灯调到" = false. Proof. vm_compute. reflexivity. Qed.
Example correction_ok : looksCorrectionPending "打开客厅灯，不对" = true. Proof. vm_compute. reflexivity. Qed.
Example correction_alone : looksCorrectionPending "不对" = false. Proof. vm_compute. reflexivity. Qed.

#[global] Arguments looksLikeBackchannel _ : simpl never.
#[global] Arguments looksLikeTakeoverLexicon _ : simpl never.
#[global] Arguments looksLexicallyComplete _ : simpl never.
#[global] Arguments looksCorrectionPending _ : simpl never.
#[global] Arguments analyzeUtteranceCompleteness _ : simpl never.
#[global] Arguments previewUtteranceCompleteness _ _ : simpl never.
#[global] Arguments inferLexicalTaskFamily _ : simpl never.
#[global] Arguments normalizeSemanticTaskFamily _ : simpl never.
#[global] Arguments taskFamilyRequiresSlotReadiness _ : simpl never.
#[global] Arguments previewPunctuationAdjustMs _ _ _ : simpl never.
#[global] Arguments previewTextStabilityRatio _ _ : simpl never.
#[global] Arguments updateStablePrefix _ _ _ _ : simpl never.

(** ** Theorems *)

Lemma LCP_prefix_l a b : longestCommonPrefix a b `prefix_of` a.
Proof.
  revert b. induction a as [|x a IH]; intros [|y b]; cbn; try apply prefix_nil.
  destruct (x =? y); [by apply prefix_cons | apply prefix_nil].
Qed.

Lemma LCP_comm a b : longestCommonPrefix a b = longestCommonPrefix b a.
Proof.
  revert b. induction a as [|x a IH]; intros [|y b]; cbn; try done.
  rewrite (Z.eqb_sym y x). destruct (x =? y) eqn:E; [|done]. bool_prop. subst. by rewrite IH.
Qed.

Lemma LCP_prefix_r a b : longestCommonPrefix a b `prefix_of` b.
Proof. rewrite LCP_comm. apply LCP_prefix_l. Qed.

Lemma LCP_greatest p a b : p `prefix_of` a -> p `prefix_of` b -> p `prefix_of` longestCommonPrefix a b.
Proof.
  revert a b. induction p as [|x p IH]; intros a b Ha Hb; [apply prefix_nil|].
  destruct Ha as [a' ->], Hb as [b' ->]. cbn. rewrite Z.eqb_refl.
  apply prefix_cons, IH; by eexists.
Qed.

(** [longestCommonPrefix] is the greatest common prefix of its arguments. *)
Theorem longest_common_prefix_correct a b :
  longestCommonPrefix a b `prefix_of` a /\ longestCommonPrefix a b `prefix_of` b /\
  (forall p, p `prefix_of` a -> p `prefix_of` b -> p `prefix_of` longestCommonPrefix a b).
Proof. auto using LCP_prefix_l, LCP_prefix_r, LCP_greatest. Qed.

(** The stable prefix. It is always trimmed; a final transcript replaces
    it; a partial that repeats the previous one is adopted whole, or, when it
    is unfinished, the shorter complete prefix is kept; and a partial that
    differs only ever extends it, to text both partials start with. *)
Theorem stable_prefix_update prev stable next :
  trimmed (updateStablePrefix prev stable next true) /\
  trimmed (updateStablePrefix prev stable next false) /\
  (TrimSpace next <> "" -> updateStablePrefix prev stable next true = TrimSpace next) /\
  (TrimSpace next <> "" -> TrimSpace prev <> "" ->
   let r := updateStablePrefix prev stable next false in
   (TrimSpace prev = TrimSpace next ->
      r = TrimSpace next \/ (r = TrimSpace stable /\ r `prefix_of` TrimSpace next)) /\
   (TrimSpace prev <> TrimSpace next ->
      TrimSpace stable `prefix_of` r /\
      (r = TrimSpace stable \/ (r `prefix_of` TrimSpace prev /\ r `prefix_of` TrimSpace next)))).
Proof.
  unfold updateStablePrefix.
  split; [by destruct (TrimSpace next == ""); auto with go|].
  split; [repeat (split_if; auto with go)|].
  split; [by intros H; apply text_eqb_false in H; rewrite H|].
  intros Hn Hp. cbv zeta. apply text_eqb_false in Hn, Hp. rewrite Hn, Hp. split; intros Hpn.
  - rewrite Hpn, text_eqb_refl. split_if; [|by left]. bool_prop.
    right. split; [done | by apply HasPrefix_spec].
  - apply text_eqb_false in Hpn as Hpn'. rewrite Hpn'. split_if; [by split; [|left]|].
    split_if; [|by split; [|left]]. split.
    + bool_prop. destruct Heqb0 as [Hs|Hs]; text_prop; [|by apply HasPrefix_spec].
      rewrite Hs. apply prefix_nil.
    + right. split; (eapply TrimSpace_prefix_of; [apply trimmed_TrimSpace|]);
        [apply LCP_prefix_l | apply LCP_prefix_r].
Qed.

Lemma stability_ratio_unit s t : in_unit (previewTextStabilityRatio s t).
Proof.
  unfold previewTextStabilityRatio. split_if; [apply in_unit_zero|].
  set (v := f_div _ _). cbv zeta. destruct (f_ltb v f_zero) eqn:E1; [apply in_unit_zero|].
  destruct (f_ltb f_one v) eqn:E2; [apply in_unit_one|]. by split.
Qed.
#[export] Hint Resolve stability_ratio_unit : go.

Lemma looksLexicallyComplete_trim s : looksLexicallyComplete (TrimSpace s) = looksLexicallyComplete s.
Proof. unfold looksLexicallyComplete. by rewrite TrimSpace_idemp. Qed.
Lemma looksCorrectionPending_trim s : looksCorrectionPending (TrimSpace s) = looksCorrectionPending s.
Proof. unfold looksCorrectionPending. by rewrite TrimSpace_idemp. Qed.
Lemma analyze_trim s : analyzeUtteranceCompleteness (TrimSpace s) = analyzeUtteranceCompleteness s.
Proof. unfold analyzeUtteranceCompleteness. by rewrite TrimSpace_idemp. Qed.
#[export] Hint Rewrite looksLexicallyComplete_trim looksCorrectionPending_trim analyze_trim : go.

Lemma analyze_complete s :
  Complete (analyzeUtteranceCompleteness s) = true <->
  TrimSpace s <> "" /\ looksCorrectionPending s = false /\ looksLexicallyComplete s = true.
Proof.
  unfold analyzeUtteranceCompleteness. rewrite looksCorrectionPending_trim, looksLexicallyComplete_trim.
  repeat split_if; cbn; text_prop; intuition congruence.
Qed.

(** Completeness of an utterance: complete exactly when it is not blank,
    not a pending self-correction and lexically closed; a hold reason is
    given exactly when a non-blank utterance is not complete, and
    self-correction takes precedence over the lexical hold. *)
Theorem utterance_completeness_spec s :
  let r := analyzeUtteranceCompleteness s in
  (Complete r = true <->
     TrimSpace s <> "" /\ looksCorrectionPending s = false /\ looksLexicallyComplete s = true) /\
  (HoldReason r <> "" <-> TrimSpace s <> "" /\ Complete r = false) /\
  (looksCorrectionPending s = true -> r = mkCompleteness false correctionHoldServerEndpointReason).
Proof.
  intros r. split; [apply analyze_complete|]. subst r. unfold analyzeUtteranceCompleteness.
  rewrite looksCorrectionPending_trim, looksLexicallyComplete_trim. split.
  - repeat split_if; cbn; text_prop; split; try done; by intros [].
  - intros H. rewrite H. split_if; [|done]. text_prop.
    unfold looksCorrectionPending in H. by rewrite Heqb, text_eqb_refl in H.
Qed.

(** The live partial has the last word on completeness: a preview is
    complete only if its partial, when there is one, is complete itself, and
    then only if the text the stable prefix offers is. *)
Theorem preview_completeness_needs_live_partial stablePrefix partialText :
  Complete (previewUtteranceCompleteness stablePrefix partialText) = true <->
  Complete (analyzeUtteranceCompleteness (firstNonEmpty [stablePrefix; partialText])) = true /\
  (TrimSpace partialText <> "" -> Complete (analyzeUtteranceCompleteness partialText) = true).
Proof.
  unfold previewUtteranceCompleteness. rewrite !analyze_trim.
  destruct (TrimSpace (firstNonEmpty [stablePrefix; partialText]) == "") eqn:E; text_prop.
  - split; [done|]. intros [H _]. by apply analyze_complete in H as [H _].
  - destruct (TrimSpace partialText == "") eqn:Ep; cbn; text_prop; [tauto|].
    destruct (Complete (analyzeUtteranceCompleteness partialText)) eqn:Ec; cbn; [tauto|].
    rewrite Ec. split; [done | by intros [_ H]; apply H].
Qed.

(** Punctuation moves the wait in one direction only: down (never below
    -100 ms) for a complete utterance, up (never above 120 ms) for an
    incomplete one. *)
Theorem punctuation_adjust_sign partialText stablePrefix complete :
  let adj := previewPunctuationAdjustMs partialText stablePrefix complete in
  (complete = true -> -100 <= adj <= 0) /\ (complete = false -> 0 <= adj <= 120).
Proof.
  intros adj. subst adj. unfold previewPunctuationAdjustMs, defaultTerminalPunctuationBonusMs,
    defaultQuestionClosureBonusMs, defaultClauseContinuationHoldMs.
  split; intros ->; repeat split_if; lia.
Qed.

Lemma single_rune_is_backchannel r :
  IsSpace r = false -> ContainsRune backchannel_cutset r = false -> looksLikeBackchannel [r] = true.
Proof.
  intros Hs Hc. unfold looksLikeBackchannel.
  assert (TrimSpace [r] = [r]) as -> by (unfold TrimSpace, TrimFunc, TrimRightFunc; cbn; by rewrite Hs; cbn; rewrite Hs).
  assert (Trim [r] backchannel_cutset = [r]) as ->.
  { unfold Trim, TrimFunc, TrimRightFunc. cbn -[ContainsRune]. rewrite Hc. cbn -[ContainsRune]. by rewrite Hc. }
  assert (([r] == "") = false) as -> by by apply text_eqb_false.
  by repeat split_if.
Qed.

(** Every one-rune utterance that is neither white space nor punctuation
    counts as a backchannel: the list of single tokens in the switch decides
    nothing, because the all-runes-equal test after it is vacuously true.
    A one-rune stop word such as the first rune of the takeover words is
    therefore an acknowledgement. *)
Theorem single_rune_backchannel :
  (forall r, IsSpace r = false -> ContainsRune backchannel_cutset r = false ->
             looksLikeBackchannel [r] = true) /\
  looksLikeBackchannel "停" = true /\ rune_in (runeAtEnd "停") single_backchannels = false.
Proof. split; [exact single_rune_is_backchannel | by vm_compute]. Qed.

(** ** Normalizers *)

(** A table of cases a normalizer may return: each is its own normal form. *)
Definition canonical (cases : list text) : bool :=
  forallb (fun c => ToLower (TrimSpace c) == c) cases.

Lemma normalize_to_range cases default v :
  normalize_to cases default v ∈ cases \/ normalize_to cases default v = default.
Proof.
  unfold normalize_to. destruct (existsb _ cases) eqn:E; [|by right].
  left. by apply existsb_eqb_elem.
Qed.

Lemma normalize_to_case cases default c :
  canonical cases = true -> c ∈ cases -> normalize_to cases default c = c.
Proof.
  intros Hc Hin. unfold normalize_to.
  assert (ToLower (TrimSpace c) = c) as ->.
  { unfold canonical in Hc. rewrite forallb_forall in Hc.
    apply text_eqb_true, Hc. by apply list_elem_of_In. }
  by rewrite (proj2 (existsb_eqb_elem c cases) Hin).
Qed.

Lemma normalize_to_idemp cases default v :
  canonical cases = true -> ToLower (TrimSpace default) = default ->
  normalize_to cases default (normalize_to cases default v) = normalize_to cases default v.
Proof.
  intros Hc Hd. destruct (normalize_to_range cases default v) as [H| ->]; [by apply normalize_to_case|].
  unfold normalize_to. rewrite Hd. by destruct (existsb _ cases).
Qed.

Lemma task_family_idemp v : normalizeSemanticTaskFamily (normalizeSemanticTaskFamily v) = normalizeSemanticTaskFamily v.
Proof. by apply normalize_to_idemp. Qed.

Lemma task_family_case c : c ∈ task_families -> normalizeSemanticTaskFamily c = c.
Proof. by apply normalize_to_case. Qed.

Ltac in_table_tac := apply existsb_eqb_elem; vm_compute; reflexivity.

(** Task families are a closed vocabulary: the lexical inference yields a
    declared family (unknown exactly on blank text), normalizing one is the
    identity, and the slot guard is required exactly for structured commands. *)
Theorem lexical_task_family_closed s :
  let family := inferLexicalTaskFamily s in
  (family = SemanticTaskFamilyUnknown <-> TrimSpace s = "") /\
  (family ∈ task_families \/ family = SemanticTaskFamilyUnknown) /\
  normalizeSemanticTaskFamily family = family /\
  (taskFamilyRequiresSlotReadiness family = true <-> family = SemanticTaskFamilyStructuredCommand).
Proof.
  intros family.
  assert (Hcase : (TrimSpace s = "" /\ family = SemanticTaskFamilyUnknown) \/
                  (TrimSpace s <> "" /\ family ∈ task_families)).
  { subst family. unfold inferLexicalTaskFamily.
    split_if; text_prop; [by left|]. right. split; [done|].
    repeat split_if; in_table_tac. }
  assert (Hnorm : normalizeSemanticTaskFamily family = family).
  { destruct Hcase as [[_ ->]|[_ Hin]]; [reflexivity | by apply task_family_case]. }
  split; [|split; [|split]]; [| by destruct Hcase as [[_ ?]|[_ ?]]; auto | exact Hnorm |].
  - destruct Hcase as [[? ?]|[? Hin]]; [done|]. split; [|done]. intros E. rewrite E in Hin.
    by apply existsb_eqb_elem in Hin.
  - unfold taskFamilyRequiresSlotReadiness. rewrite Hnorm. apply text_eqb_true.
Qed.

(** ** Tokens *)

Definition ascii_letter (r : rune) : bool := (r <=? MaxASCII) && IsLetter_ascii r.

Lemma ascii_words_concat s b t :
  concat (ascii_words_go s b t) = concat t ++ b ++ map unicode_ToLower (List.filter ascii_letter s).
Proof.
  revert b t. induction s as [|r s IH]; intros b t; cbn; rewrite ?len_zero.
  - rewrite app_nil_r. destruct b as [|x b]; cbn; [by rewrite app_nil_r|].
    by rewrite concat_app; cbn; rewrite app_nil_r.
  - fold (ascii_letter r). destruct (ascii_letter r); cbn.
    + by rewrite IH, <- app_assoc.
    + rewrite IH. cbn. destruct b as [|x b]; cbn; [done|].
      by rewrite concat_app; cbn; rewrite app_nil_r, <- app_assoc.
Qed.

Lemma ascii_words_nonempty s b t :
  Forall (fun w => w <> []) t -> Forall (fun w => w <> []) (ascii_words_go s b t).
Proof.
  revert b t. induction s as [|r s IH]; intros b t Ht; cbn; rewrite ?len_zero.
  - destruct b; cbn; [done|]. apply Forall_app. by split; [|constructor].
  - destruct ((r <=? MaxASCII) && IsLetter_ascii r); [by apply IH|]. apply IH.
    destruct b; cbn; [done|]. apply Forall_app. by split; [|constructor].
Qed.

(** [asciiWordTokens] splits off every ASCII letter once, lowered and in
    order, into words none of which is empty. *)
Theorem ascii_word_tokens_spec s :
  concat (asciiWordTokens s) = map unicode_ToLower (List.filter ascii_letter s) /\
  Forall (fun w => w <> []) (asciiWordTokens s).
Proof. split; [apply ascii_words_concat | by apply ascii_words_nonempty]. Qed.

(** The English self-correction test cuts the token off the end of the
    text even when punctuation follows the token, so a lone correction word
    with a full stop leaves a letter behind and counts as a correction of
    something, while the bare word does not; the Chinese branch strips the
    suffix itself and treats the lone word as no correction. *)
Theorem english_correction_slice :
  looksCorrectionPending "wait" = false /\ looksCorrectionPending "wait." = true /\
  trailingEnglishToken "wait." = txt "wait" /\
  looksCorrectionPending "不对" = false /\
  looksCorrectionPending "turn on the light, wait" = true.
Proof. by vm_compute. Qed.
