(* ===== verification/Vocabulary.v ===== *)
(** * Closed vocabularies of the semantic layer

    The string constants of internal/voice/semantic_judge.go and
    semantic_slot_parser.go, slot_value_normalizer.go's risk levels, and the
    normalizers that map any model output into them. *)

From S2P Require Import Prelude GoText GoFloat Contracts Lexical.

Definition semanticJudgeHighConfidence : float64 := f_lit 78 100.
Definition semanticJudgeMediumConfidence : float64 := f_lit 68 100.

Definition SemanticWaitPolicyKeep : text := "keep".
Definition SemanticWaitPolicyShorten : text := "shorten".
Definition SemanticWaitPolicyExtend : text := "extend".

Definition SemanticIntentUnknown : text := "unknown".
Definition SemanticIntentBackchannel : text := "backchannel".
Definition SemanticIntentTakeover : text := "takeover".
Definition SemanticIntentCorrection : text := "correction".
Definition SemanticIntentRequest : text := "request".
Definition SemanticIntentQuestion : text := "question".
Definition SemanticIntentContinue : text := "continue".
Definition SemanticIntentOther : text := "other".

Definition SemanticUtteranceIncomplete : text := "incomplete".
Definition SemanticUtteranceComplete : text := "complete".
Definition SemanticUtteranceCorrection : text := "correction".

Definition SemanticSlotReadinessUnknown : text := "unknown".
Definition SemanticSlotReadinessNotApplicable : text := "not_applicable".
Definition SemanticSlotReadinessWaitSlot : text := "wait_slot".
Definition SemanticSlotReadinessClarify : text := "clarify".
Definition SemanticSlotReadinessReady : text := "ready".

Definition SemanticSlotDomainUnknown : text := "unknown".
Definition SemanticSlotDomainSmartHome : text := "smart_home".
Definition SemanticSlotDomainDesktopAssistant : text := "desktop_assistant".
Definition SemanticSlotDomainGeneralChat : text := "general_chat".

Definition SemanticSlotStatusUnknown : text := "unknown".
Definition SemanticSlotStatusPartial : text := "partial".
Definition SemanticSlotStatusComplete : text := "complete".
Definition SemanticSlotStatusAmbiguous : text := "ambiguous".
Definition SemanticSlotStatusNotApplicable : text := "not_applicable".

Definition SemanticSlotActionabilityObserveOnly : text := "observe_only".
Definition SemanticSlotActionabilityWaitMore : text := "wait_more".
Definition SemanticSlotActionabilityDraftOK : text := "draft_ok".
Definition SemanticSlotActionabilityClarifyNeeded : text := "clarify_needed".
Definition SemanticSlotActionabilityActCandidate : text := "act_candidate".

Definition SemanticRiskLevelUnknown : text := "unknown".
Definition SemanticRiskLevelLow : text := "low".
Definition SemanticRiskLevelMedium : text := "medium".
Definition SemanticRiskLevelHigh : text := "high".

Definition intents : list text :=
  [SemanticIntentBackchannel; SemanticIntentTakeover; SemanticIntentCorrection; SemanticIntentRequest;
   SemanticIntentQuestion; SemanticIntentContinue; SemanticIntentOther].
Definition normalizeSemanticIntent (value : text) : text :=
  normalize_to intents SemanticIntentUnknown value.

Definition slot_readiness_hints : list text :=
  [SemanticSlotReadinessNotApplicable; SemanticSlotReadinessWaitSlot; SemanticSlotReadinessClarify;
   SemanticSlotReadinessReady].
Definition normalizeSemanticSlotReadinessHint (value : text) : text :=
  normalize_to slot_readiness_hints SemanticSlotReadinessUnknown value.

Definition utterance_statuses : list text := [SemanticUtteranceComplete; SemanticUtteranceCorrection].
Definition normalizeSemanticUtteranceStatus (value : text) : text :=
  normalize_to utterance_statuses SemanticUtteranceIncomplete value.

Definition wait_policies : list text := [SemanticWaitPolicyShorten; SemanticWaitPolicyExtend].
Definition normalizeSemanticWaitPolicy (value : text) : text :=
  normalize_to wait_policies SemanticWaitPolicyKeep value.

Definition slot_domains : list text :=
  [SemanticSlotDomainSmartHome; SemanticSlotDomainDesktopAssistant; SemanticSlotDomainGeneralChat].
Definition normalizeSemanticSlotDomain (value : text) : text :=
  normalize_to slot_domains SemanticSlotDomainUnknown value.

Definition slot_statuses : list text :=
  [SemanticSlotStatusPartial; SemanticSlotStatusComplete; SemanticSlotStatusAmbiguous;
   SemanticSlotStatusNotApplicable].
Definition normalizeSemanticSlotStatus (value : text) : text :=
  normalize_to slot_statuses SemanticSlotStatusUnknown value.

Definition slot_actionabilities : list text :=
  [SemanticSlotActionabilityWaitMore; SemanticSlotActionabilityDraftOK;
   SemanticSlotActionabilityClarifyNeeded; SemanticSlotActionabilityActCandidate].
Definition normalizeSemanticSlotActionability (value : text) : text :=
  normalize_to slot_actionabilities SemanticSlotActionabilityObserveOnly value.

Definition risk_levels : list text :=
  [SemanticRiskLevelLow; SemanticRiskLevelMedium; SemanticRiskLevelHigh].
Definition normalizeSemanticRiskLevel (value : text) : text :=
  normalize_to risk_levels SemanticRiskLevelUnknown value.

(** The replacer of [normalizeSemanticReason] maps [" "] and ["-"] to ["_"]. *)
Definition reason_rune (r : rune) : rune := if (r =? 32) || (r =? 45) then 95 else r.
Definition normalizeSemanticReason (value : text) : text :=
  let value := TrimSpace (ToLower value) in
  if value == "" then "semantic_unknown" else map reason_rune value.

Definition normalizeSemanticSlotLabel (value fallback : text) : text :=
  let value := normalizeSemanticReason value in
  if value == "semantic_unknown" then fallback else value.

(** The [seen] map of the loop holds the labels already appended. *)
Definition normalizeSemanticSlotList (values : list text) : list text :=
  fold_left (fun normalized value =>
      let label := normalizeSemanticSlotLabel value "" in
      if (label == "") || (label == "semantic_unknown") then normalized
      else if existsb (text_eqb label) normalized then normalized
      else normalized ++ [label])
    values [].

Definition clampSemanticWaitDeltaMs (value : Z) : Z :=
  if 600 <? value then 600 else if value <? -600 then -600 else value.

Definition clampUnit (value : float64) : float64 :=
  if f_ltb value f_zero then f_zero else if f_ltb f_one value then f_one else value.

#[global] Arguments normalizeSemanticIntent _ : simpl never.
#[global] Arguments normalizeSemanticSlotReadinessHint _ : simpl never.
#[global] Arguments normalizeSemanticUtteranceStatus _ : simpl never.
#[global] Arguments normalizeSemanticWaitPolicy _ : simpl never.
#[global] Arguments normalizeSemanticSlotDomain _ : simpl never.
#[global] Arguments normalizeSemanticSlotStatus _ : simpl never.
#[global] Arguments normalizeSemanticSlotActionability _ : simpl never.
#[global] Arguments normalizeSemanticRiskLevel _ : simpl never.
#[global] Arguments normalizeSemanticReason _ : simpl never.
#[global] Arguments normalizeSemanticSlotLabel _ _ : simpl never.
#[global] Arguments clampUnit _ : simpl never.
#[global] Arguments semanticJudgeHighConfidence : simpl never.
#[global] Arguments semanticJudgeMediumConfidence : simpl never.

Lemma clamp_unit_in_unit x : in_unit (clampUnit x).
Proof.
  unfold clampUnit. destruct (f_ltb x f_zero) eqn:E1; [apply in_unit_zero|].
  destruct (f_ltb f_one x) eqn:E2; [apply in_unit_one | by split].
Qed.
Lemma clamp_unit_id x : in_unit x -> clampUnit x = x.
Proof. unfold clampUnit. by intros [-> ->]. Qed.
#[export] Hint Resolve clamp_unit_in_unit : go.

(** Normalizing model output is total and idempotent: every vocabulary
    normalizer lands on a declared constant whatever string the model
    returned, and normalizing again changes nothing. *)
Theorem vocabulary_normalizers_closed value :
  (normalizeSemanticIntent value ∈ SemanticIntentUnknown :: intents /\
   normalizeSemanticIntent (normalizeSemanticIntent value) = normalizeSemanticIntent value) /\
  (normalizeSemanticSlotReadinessHint value ∈ SemanticSlotReadinessUnknown :: slot_readiness_hints /\
   normalizeSemanticSlotReadinessHint (normalizeSemanticSlotReadinessHint value)
     = normalizeSemanticSlotReadinessHint value) /\
  (normalizeSemanticSlotActionability value ∈ SemanticSlotActionabilityObserveOnly :: slot_actionabilities /\
   normalizeSemanticSlotActionability (normalizeSemanticSlotActionability value)
     = normalizeSemanticSlotActionability value) /\
  (normalizeSemanticSlotStatus value ∈ SemanticSlotStatusUnknown :: slot_statuses /\
   normalizeSemanticSlotStatus (normalizeSemanticSlotStatus value) = normalizeSemanticSlotStatus value) /\
  (normalizeSemanticRiskLevel value ∈ SemanticRiskLevelUnknown :: risk_levels /\
   normalizeSemanticRiskLevel (normalizeSemanticRiskLevel value) = normalizeSemanticRiskLevel value).
Proof.
  assert (H : forall cases default v, canonical cases = true -> ToLower (TrimSpace default) = default ->
    normalize_to cases default v ∈ default :: cases /\
    normalize_to cases default (normalize_to cases default v) = normalize_to cases default v).
  { intros cases default v Hc Hd. split; [|by apply normalize_to_idemp].
    destruct (normalize_to_range cases default v) as [?| ->]; [by right | by left]. }
  repeat split; by apply H.
Qed.

Lemma slot_list_step_nodup acc v :
  NoDup acc -> txt "" ∉ acc ->
  let label := normalizeSemanticSlotLabel v "" in
  let acc' := if (label == "") || (label == "semantic_unknown") then acc
              else if existsb (text_eqb label) acc then acc else acc ++ [label] in
  NoDup acc' /\ (txt "" ∉ acc') /\ (forall x, x ∈ acc -> x ∈ acc').
Proof.
  intros Hn He label acc'. subst acc'.
  destruct (label == "") eqn:E1; [done|]. destruct (label == "semantic_unknown") eqn:E2; [done|].
  cbn. destruct (existsb (text_eqb label) acc) eqn:E3; [done|]. text_prop. split; [|split].
  - apply NoDup_app. split; [done|]. split; [|apply NoDup_singleton].
    intros x Hx ->%list_elem_of_singleton. apply existsb_eqb_elem in Hx. congruence.
  - intros [?|Hx%list_elem_of_singleton]%elem_of_app; [done | congruence].
  - intros x Hx. apply elem_of_app. by left.
Qed.

(** The slot lists the runtime keeps hold no duplicates and no empty
    label, and every label comes from a value of the model's list. *)
Theorem slot_list_wellformed values :
  NoDup (normalizeSemanticSlotList values) /\ (txt "" ∉ normalizeSemanticSlotList values) /\
  (forall l, l ∈ normalizeSemanticSlotList values ->
     exists v, v ∈ values /\ l = normalizeSemanticSlotLabel v "").
Proof.
  unfold normalizeSemanticSlotList.
  apply (fold_left_inv (fun acc => NoDup acc /\ (txt "" ∉ acc) /\
           forall l, l ∈ acc -> exists v, v ∈ values /\ l = normalizeSemanticSlotLabel v "")).
  - split; [apply NoDup_nil_2|]. split; by intros; set_solver.
  - intros acc v Hv (Hn & He & Hall). destruct (slot_list_step_nodup acc v Hn He) as (Hn' & He' & _).
    split; [exact Hn'|]. split; [exact He'|]. intros l Hl. cbv zeta in Hl.
    repeat split_if_in Hl; auto.
    apply elem_of_app in Hl as [Hl|Hl%list_elem_of_singleton]; eauto.
Qed.
