(* ===== verification/TurnDetector.v ===== *)
(** * The silence turn detector (internal/voice/turn_detector.go)

    [SilenceTurnDetector] accumulates audio and transcription deltas;
    [Snapshot] folds them, through [MultiSignalTurnArbitrator], into an
    [InputPreview] whose arbitration says how far the runtime may run ahead
    (prewarm, draft) and whether the turn should be accepted.  [now] is the
    instant the caller passes. *)

From S2P Require Import Prelude GoText GoFloat Contracts Lexical Vocabulary.

(** ** Constants *)

Definition defaultTurnDetectorSilenceMs : Z := 480.
Definition defaultTurnDetectorMinAudioMs : Z := 320.
Definition defaultTurnDetectorIncompleteHoldMs : Z := 720.
Definition defaultTurnDetectorHintSilenceMs : Z := 160.
Definition defaultTurnDetectorAcceptLeadMs : Z := 120.
Definition defaultTurnDetectorMinWaitMs : Z := 120.
Definition defaultTurnDetectorMaxWaitMs : Z := 900.
Definition defaultPrewarmStableForMs : Z := 120.
Definition defaultDraftStableForMs : Z := 200.
Definition turnDetectorLexicalModeOff : text := "off".
Definition turnDetectorLexicalModeConservative : text := "conservative".
Definition defaultServerEndpointReason : text := "server_silence_timeout".
Definition defaultPrewarmStableRatio : float64 := f_lit 6 10.
Definition defaultDraftStableRatio : float64 := f_lit 82 100.
Definition defaultSlotWaitMoreHoldMs : Z := 220.
Definition defaultSlotClarifyHoldMs : Z := 80.
Definition defaultSlotRiskConfirmHoldMs : Z := 120.
Definition defaultSlotActCandidateBonusMs : Z := -40.
#[global] Arguments defaultPrewarmStableRatio : simpl never.
#[global] Arguments defaultDraftStableRatio : simpl never.

(** ** Configuration *)

Record SilenceTurnDetectorConfig := mkDetectorConfig {
  cfg_MinAudioMs : Z;
  cfg_SilenceMs : Z;
  cfg_LexicalEndpointMode : text;
  cfg_IncompleteHoldMs : Z;
  cfg_EndpointHintSilenceMs : Z
}.

#[export] Instance DetectorConfig_rebuild : Rebuild SilenceTurnDetectorConfig := fun c =>
  mkDetectorConfig (cfg_MinAudioMs c) (cfg_SilenceMs c) (cfg_LexicalEndpointMode c)
    (cfg_IncompleteHoldMs c) (cfg_EndpointHintSilenceMs c).

Definition normalizeTurnDetectorLexicalMode (mode : text) : text :=
  let m := ToLower (TrimSpace mode) in
  if (m == "") || (m == turnDetectorLexicalModeConservative) then turnDetectorLexicalModeConservative
  else if m == turnDetectorLexicalModeOff then turnDetectorLexicalModeOff
  else turnDetectorLexicalModeConservative.

Definition NormalizeSilenceTurnDetectorConfig (cfg : SilenceTurnDetectorConfig) : SilenceTurnDetectorConfig :=
  let cfg := if cfg_MinAudioMs cfg <=? 0
             then cfg <|cfg_MinAudioMs := defaultTurnDetectorMinAudioMs|> else cfg in
  let cfg := if cfg_SilenceMs cfg <=? 0
             then cfg <|cfg_SilenceMs := defaultTurnDetectorSilenceMs|> else cfg in
  let cfg := if cfg_IncompleteHoldMs cfg <=? 0
             then cfg <|cfg_IncompleteHoldMs := defaultTurnDetectorIncompleteHoldMs|> else cfg in
  let cfg := if cfg_EndpointHintSilenceMs cfg <=? 0
             then cfg <|cfg_EndpointHintSilenceMs := defaultTurnDetectorHintSilenceMs|> else cfg in
  cfg <|cfg_LexicalEndpointMode := normalizeTurnDetectorLexicalMode (cfg_LexicalEndpointMode cfg)|>.

(** ** Durations *)

Definition durationMs (value : duration) : Z := if value <=? 0 then 0 else idiv value Millisecond.

(** [pcm16AudioDurationMs] of barge_in.go, products wrapped to 64 bits. *)
Definition pcm16AudioDurationMs (audioBytes sampleRateHz channels : Z) : Z :=
  if (audioBytes <=? 0) || (sampleRateHz <=? 0) || (channels <=? 0) then 0 else
  idiv (idiv (i64 (idiv (idiv audioBytes channels) 2 * Second)) sampleRateHz) Millisecond.

Definition clampInt (value minValue maxValue : Z) : Z :=
  let '(minValue, maxValue) := if maxValue <? minValue then (maxValue, minValue) else (minValue, maxValue) in
  if value <? minValue then minValue else if maxValue <? value then maxValue else value.

#[global] Arguments durationMs _ : simpl never.
#[global] Arguments pcm16AudioDurationMs _ _ _ : simpl never.
#[global] Arguments clampInt _ _ _ : simpl never.

(** ** Folding the signals into a stage *)

Definition slotGuardAdjustMs (a : TurnArbitration) : Z :=
  let adjust :=
    if SlotActionability a == SemanticSlotActionabilityWaitMore then defaultSlotWaitMoreHoldMs
    else if SlotActionability a == SemanticSlotActionabilityClarifyNeeded then defaultSlotClarifyHoldMs
    else if SlotActionability a == SemanticSlotActionabilityActCandidate then defaultSlotActCandidateBonusMs
    else 0 in
  if SlotRiskConfirmRequired a then adjust + defaultSlotRiskConfirmHoldMs else adjust.

Definition set_derived (baseWaitMs : Z) (candidateReady draftReady : bool) (effectiveWaitMs : Z)
    (acceptReady acceptCandidate acceptNow : bool) (stage : TurnArbitrationStage)
    (a : TurnArbitration) : TurnArbitration :=
  a <|BaseWaitMs := baseWaitMs|> <|CandidateReady := candidateReady|> <|DraftReady := draftReady|>
    <|EffectiveWaitMs := effectiveWaitMs|> <|RequiredSilenceMs := effectiveWaitMs|>
    <|AcceptReady := acceptReady|> <|AcceptCandidate := acceptCandidate|>
    <|AcceptNow := acceptNow|> <|Stage := stage|>.

(** The assignments of the Go function in order; a field read back after its
    assignment is the local it was assigned from. *)
Definition recomputeTurnArbitration (snapshot : InputPreview) (a : TurnArbitration) : TurnArbitration :=
  let bestText := TrimSpace (firstNonEmpty [StablePrefix snapshot; PartialText snapshot]) in
  let minAudioMs := if MinAudioMs a <=? 0 then defaultTurnDetectorMinAudioMs else MinAudioMs a in
  let baseWaitMs := if BaseWaitMs a <=? 0 then defaultTurnDetectorSilenceMs else BaseWaitMs a in
  let candidateReady := (bestText != "") && (minAudioMs <=? AudioMs a) in
  let draftReady := candidateReady && DraftAllowed a in
  let totalWait := i64 (baseWaitMs + RuleAdjustMs a + PunctuationAdjustMs a
                        + SemanticWaitDeltaMs a + SlotGuardAdjustMs a) in
  let effectiveWaitMs := clampInt totalWait defaultTurnDetectorMinWaitMs defaultTurnDetectorMaxWaitMs in
  let acceptReady := candidateReady in
  let candidateLeadMs := defaultTurnDetectorAcceptLeadMs in
  let acceptCandidate := acceptReady && (effectiveWaitMs <=? i64 (SilenceMs a + candidateLeadMs)) in
  let acceptNow := acceptReady && (effectiveWaitMs <=? SilenceMs a) in
  let stage :=
    if acceptNow then TurnArbitrationStageAcceptNow
    else if acceptCandidate then TurnArbitrationStageAcceptCandidate
    else if DraftAllowed a then TurnArbitrationStageDraftAllowed
    else if PrewarmAllowed a then TurnArbitrationStagePrewarmAllowed
    else if candidateReady then TurnArbitrationStageWaitForMore
    else TurnArbitrationStagePreviewOnly in
  set_derived baseWaitMs candidateReady draftReady effectiveWaitMs acceptReady acceptCandidate
    acceptNow stage a.

(** ** The arbitrator *)

Record turnArbitrationInput := mkArbitrationInput {
  in_partialText : text;
  in_stablePrefix : text;
  in_audioMs : Z;
  in_silence : duration;
  in_baseWait : duration;
  in_stableFor : duration;
  in_endpointReason : text;
  in_utteranceComplete : bool
}.

Record MultiSignalTurnArbitrator := mkArbitrator { arb_cfg : SilenceTurnDetectorConfig }.

Definition NewMultiSignalTurnArbitrator (cfg : SilenceTurnDetectorConfig) : MultiSignalTurnArbitrator :=
  mkArbitrator (NormalizeSilenceTurnDetectorConfig cfg).

Definition ruleAdjustMs (a : MultiSignalTurnArbitrator) (partialText : text) : Z :=
  if cfg_LexicalEndpointMode (arb_cfg a) == turnDetectorLexicalModeOff then 0
  else if Complete (analyzeUtteranceCompleteness partialText) then 0
  else cfg_IncompleteHoldMs (arb_cfg a).

(** The arbitration before any lexical signal: all a blank partial gets. *)
Definition initialArbitration (input : turnArbitrationInput) : TurnArbitration :=
  let bestText := TrimSpace (firstNonEmpty [in_partialText input; in_stablePrefix input]) in
  zero_TurnArbitration
    <|Stage := TurnArbitrationStagePreviewOnly|>
    <|Reason := TrimSpace (in_endpointReason input)|>
    <|Stability := previewTextStabilityRatio (in_partialText input) (in_stablePrefix input)|>
    <|StableForMs := durationMs (in_stableFor input)|>
    <|AudioMs := in_audioMs input|>
    <|SilenceMs := durationMs (in_silence input)|>
    <|RequiredSilenceMs := durationMs (in_baseWait input)|>
    <|EndpointHinted := TrimSpace (in_endpointReason input) != ""|>
    <|TaskFamily := inferLexicalTaskFamily bestText|>.

(** The waits and the hold reason of a non-blank partial. *)
Definition waitSignals (arb : MultiSignalTurnArbitrator) (input : turnArbitrationInput)
    (a : TurnArbitration) : TurnArbitration :=
  let a := a <|SlotConstraintRequired := taskFamilyRequiresSlotReadiness (TaskFamily a)|>
             <|MinAudioMs := cfg_MinAudioMs (arb_cfg arb)|>
             <|BaseWaitMs := durationMs (in_baseWait input)|>
             <|RuleAdjustMs := ruleAdjustMs arb (in_partialText input)|> in
  let a := if cfg_LexicalEndpointMode (arb_cfg arb) != turnDetectorLexicalModeOff
           then a <|PunctuationAdjustMs := previewPunctuationAdjustMs (in_partialText input)
                      (in_stablePrefix input) (in_utteranceComplete input)|>
           else a in
  if 0 <? RuleAdjustMs a then
    let holdReason := TrimSpace (HoldReason (analyzeUtteranceCompleteness (in_partialText input))) in
    if holdReason != "" then a <|Reason := holdReason|> else a
  else a.

(** The three early-processing gates: a mature stable prefix, a stable
    complete utterance, a complete utterance. *)
Definition earlyGates (input : turnArbitrationInput) (a : TurnArbitration) : TurnArbitration :=
  let stability := previewTextStabilityRatio (in_partialText input) (in_stablePrefix input) in
  let stablePrefix := TrimSpace (in_stablePrefix input) in
  let stablePrefixComplete := Complete (analyzeUtteranceCompleteness stablePrefix) in
  let a := if (stablePrefix != "") && stablePrefixComplete
              && f_leb defaultPrewarmStableRatio stability
              && (defaultPrewarmStableForMs * Millisecond <=? in_stableFor input)
           then a <|PrewarmAllowed := true|> else a in
  let a := if in_utteranceComplete input && f_leb defaultDraftStableRatio stability
              && (defaultDraftStableForMs * Millisecond <=? in_stableFor input)
           then let a := a <|PrewarmAllowed := true|> in
                if negb (SlotConstraintRequired a) then a <|DraftAllowed := true|> else a
           else a in
  if in_utteranceComplete input then
    let a := a <|PrewarmAllowed := true|> in
    let a := if negb (SlotConstraintRequired a) then a <|DraftAllowed := true|> else a in
    if SlotConstraintRequired a && (TrimSpace (Reason a) == "")
    then a <|Reason := "lexical_structured_wait_slot_guard"|> else a
  else a.

Definition Arbitrate (arb : MultiSignalTurnArbitrator) (input : turnArbitrationInput) : TurnArbitration :=
  let a := initialArbitration input in
  if TrimSpace (in_partialText input) == "" then a else
  let a := earlyGates input (waitSignals arb input a) in
  let snapshot := zero_InputPreview
                    <|PartialText := in_partialText input|>
                    <|StablePrefix := in_stablePrefix input|>
                    <|UtteranceComplete := in_utteranceComplete input|>
                    <|Arbitration := a|> in
  recomputeTurnArbitration snapshot a.

(** ** The detector *)

Record SilenceTurnDetector := mkDetector {
  config : SilenceTurnDetectorConfig;
  sampleRateHz : Z;
  channels : Z;
  audioBytes : Z;
  lastAudioAt : instant;
  speechStarted : bool;
  latestPartial : text;
  stablePrefix : text;
  stablePrefixAt : instant;
  latestEndpointHint : text;
  commitSuggested : bool;
  commitReason : text
}.

#[export] Instance Detector_rebuild : Rebuild SilenceTurnDetector := fun d =>
  mkDetector (config d) (sampleRateHz d) (channels d) (audioBytes d) (lastAudioAt d)
    (speechStarted d) (latestPartial d) (stablePrefix d) (stablePrefixAt d)
    (latestEndpointHint d) (commitSuggested d) (commitReason d).

Definition NewSilenceTurnDetector (cfg : SilenceTurnDetectorConfig) (sampleRate chans : Z) : SilenceTurnDetector :=
  let cfg := NormalizeSilenceTurnDetectorConfig cfg in
  let sampleRate := if sampleRate <=? 0 then 16000 else sampleRate in
  let chans := if chans <=? 0 then 1 else chans in
  mkDetector cfg sampleRate chans 0 time_zero false "" "" time_zero "" false "".

Definition ObserveAudio (now : instant) (bytes : Z) (d : SilenceTurnDetector) : SilenceTurnDetector :=
  if bytes <=? 0 then d else
  d <|audioBytes := i64 (audioBytes d + bytes)|> <|lastAudioAt := now|> <|speechStarted := true|>.

Definition ObserveTranscriptionDelta (now : instant) (delta : TranscriptionDelta)
    (d : SilenceTurnDetector) : SilenceTurnDetector :=
  let observe_text (final : bool) :=
    let d :=
      if Delta_Text delta != "" then
        let previousStable := TrimSpace (stablePrefix d) in
        let nextStable := updateStablePrefix (latestPartial d) (stablePrefix d) (Delta_Text delta) final in
        let trimmedStable := TrimSpace nextStable in
        let d := if trimmedStable == "" then d <|stablePrefixAt := time_zero|>
                 else if (trimmedStable != previousStable) || IsZero (stablePrefixAt d)
                 then d <|stablePrefixAt := now|> else d in
        d <|stablePrefix := nextStable|> <|latestPartial := Delta_Text delta|>
      else d in
    d <|latestEndpointHint := TrimSpace (Delta_EndpointReason delta)|> in
  match Delta_Kind delta with
  | TranscriptionDeltaKindSpeechStart => d <|speechStarted := true|>
  | TranscriptionDeltaKindPartial => observe_text false
  | TranscriptionDeltaKindFinal => observe_text true
  | TranscriptionDeltaKindSpeechEnd =>
      d <|latestEndpointHint := TrimSpace (Delta_EndpointReason delta)|>
  | TranscriptionDeltaKindOther _ => d
  end.

Definition audioDurationMs (d : SilenceTurnDetector) : Z :=
  pcm16AudioDurationMs (audioBytes d) (sampleRateHz d) (channels d).

Definition stablePrefixDuration (now : instant) (d : SilenceTurnDetector) : duration :=
  if (TrimSpace (stablePrefix d) == "") || IsZero (stablePrefixAt d) then 0
  else if time_Before now (stablePrefixAt d) then 0
  else time_Sub now (stablePrefixAt d).

Definition baseWaitForPartial (d : SilenceTurnDetector) : duration * text :=
  let required := i64 (cfg_SilenceMs (config d) * Millisecond) in
  let completeness := analyzeUtteranceCompleteness (latestPartial d) in
  let hint := TrimSpace (latestEndpointHint d) in
  let hintSilence := i64 (cfg_EndpointHintSilenceMs (config d) * Millisecond) in
  if cfg_LexicalEndpointMode (config d) == turnDetectorLexicalModeOff then
    if (hint != "") && Complete completeness && (0 <? hintSilence) && (hintSilence <? required)
    then (hintSilence, hint)
    else (required, defaultServerEndpointReason)
  else if (hint != "") && Complete completeness then
    if (0 <? hintSilence) && (hintSilence <? required) then (hintSilence, hint) else (required, hint)
  else if negb (Complete completeness) then
    (required, firstNonEmpty [TrimSpace (HoldReason completeness); lexicalHoldServerEndpointReason])
  else (required, defaultServerEndpointReason).

(** [Snapshot] latches a suggested commit in the detector. *)
Definition Snapshot (now : instant) (d : SilenceTurnDetector) : SilenceTurnDetector * InputPreview :=
  let partialText := TrimSpace (latestPartial d) in
  let stable := TrimSpace (stablePrefix d) in
  let audioMs := audioDurationMs d in
  let completeness := previewUtteranceCompleteness stable partialText in
  let utteranceComplete := Complete completeness in
  let stableFor := stablePrefixDuration now d in
  let preview := mkInputPreview (latestPartial d) (stablePrefix d) "" (audioBytes d) false
                   (speechStarted d) utteranceComplete zero_TurnArbitration in
  if (partialText == "") || IsZero (lastAudioAt d) then
    (d, preview <|Arbitration :=
           zero_TurnArbitration
             <|Stage := TurnArbitrationStagePreviewOnly|>
             <|AudioMs := audioMs|>
             <|MinAudioMs := cfg_MinAudioMs (config d)|>
             <|BaseWaitMs := cfg_SilenceMs (config d)|>
             <|EffectiveWaitMs := cfg_SilenceMs (config d)|>
             <|Stability := previewTextStabilityRatio partialText stable|>
             <|RequiredSilenceMs := cfg_SilenceMs (config d)|> |>)
  else
  let '(baseWait, endpointReason) := baseWaitForPartial d in
  let arbitration :=
    Arbitrate (NewMultiSignalTurnArbitrator (config d))
      (mkArbitrationInput partialText stable audioMs (time_Sub now (lastAudioAt d)) baseWait stableFor
         (TrimSpace endpointReason) utteranceComplete) in
  let arbitration :=
    if commitSuggested d
    then arbitration <|Stage := TurnArbitrationStageAcceptNow|> <|AcceptCandidate := true|>
           <|AcceptNow := true|> <|Reason := commitReason d|>
    else arbitration in
  let '(d, preview) :=
    if AcceptNow arbitration
    then (d <|commitSuggested := true|>
            <|commitReason := firstNonEmpty [TrimSpace (Reason arbitration); endpointReason]|>,
          preview <|CommitSuggested := true|>)
    else (d, preview) in
  let preview :=
    if AcceptCandidate arbitration
    then preview <|EndpointReason := firstNonEmpty [TrimSpace (Reason arbitration); endpointReason]|>
    else preview in
  (d, preview <|Arbitration := arbitration|>).

(** ** Laws of the fold *)

#[global] Arguments recomputeTurnArbitration _ _ : simpl never.

(** The text a preview is judged on. *)
Definition bestText (s : InputPreview) : text := TrimSpace (firstNonEmpty [StablePrefix s; PartialText s]).

Definition min_audio (a : TurnArbitration) : Z :=
  if MinAudioMs a <=? 0 then defaultTurnDetectorMinAudioMs else MinAudioMs a.
Definition base_wait (a : TurnArbitration) : Z :=
  if BaseWaitMs a <=? 0 then defaultTurnDetectorSilenceMs else BaseWaitMs a.
Definition effective_wait (a : TurnArbitration) : Z :=
  clampInt (i64 (base_wait a + RuleAdjustMs a + PunctuationAdjustMs a + SemanticWaitDeltaMs a
                 + SlotGuardAdjustMs a)) defaultTurnDetectorMinWaitMs defaultTurnDetectorMaxWaitMs.
Definition candidate_ready (s : InputPreview) (a : TurnArbitration) : bool :=
  (bestText s != "") && (min_audio a <=? AudioMs a).

(** Every field the fold derives, as a function of its inputs. *)
Record recomputed (s : InputPreview) (a r : TurnArbitration) : Prop := {
  rc_base : BaseWaitMs r = base_wait a;
  rc_wait : EffectiveWaitMs r = effective_wait a;
  rc_required : RequiredSilenceMs r = effective_wait a;
  rc_candidate : CandidateReady r = candidate_ready s a;
  rc_draft : DraftReady r = candidate_ready s a && DraftAllowed a;
  rc_accept : AcceptReady r = candidate_ready s a;
  rc_accept_candidate : AcceptCandidate r
    = candidate_ready s a && (effective_wait a <=? i64 (SilenceMs a + defaultTurnDetectorAcceptLeadMs));
  rc_accept_now : AcceptNow r = candidate_ready s a && (effective_wait a <=? SilenceMs a);
  rc_stage : Stage r
    = if AcceptNow r then TurnArbitrationStageAcceptNow
      else if AcceptCandidate r then TurnArbitrationStageAcceptCandidate
      else if DraftAllowed a then TurnArbitrationStageDraftAllowed
      else if PrewarmAllowed a then TurnArbitrationStagePrewarmAllowed
      else if CandidateReady r then TurnArbitrationStageWaitForMore
      else TurnArbitrationStagePreviewOnly
}.

Lemma recompute_correct s a : recomputed s a (recomputeTurnArbitration s a).
Proof. unfold recomputeTurnArbitration, set_derived. split; read_fields; reflexivity. Qed.

(** The fields the fold only reads. *)
Record same_signals (a r : TurnArbitration) : Prop := {
  ss_reason : Reason r = Reason a;
  ss_stability : Stability r = Stability a;
  ss_audio : AudioMs r = AudioMs a;
  ss_silence : SilenceMs r = SilenceMs a;
  ss_min : MinAudioMs r = MinAudioMs a;
  ss_rule : RuleAdjustMs r = RuleAdjustMs a;
  ss_punct : PunctuationAdjustMs r = PunctuationAdjustMs a;
  ss_delta : SemanticWaitDeltaMs r = SemanticWaitDeltaMs a;
  ss_guard : SlotGuardAdjustMs r = SlotGuardAdjustMs a;
  ss_prewarm : PrewarmAllowed r = PrewarmAllowed a;
  ss_draft : DraftAllowed r = DraftAllowed a;
  ss_slot : SlotConstraintRequired r = SlotConstraintRequired a
}.

Lemma recompute_signals s a : same_signals a (recomputeTurnArbitration s a).
Proof. unfold recomputeTurnArbitration, set_derived. split; read_fields; reflexivity. Qed.

Lemma clampInt_range v lo hi : lo <= hi -> lo <= clampInt v lo hi <= hi.
Proof.
  intros H. unfold clampInt. destruct (hi <? lo) eqn:E; bool_prop; [lia|].
  repeat split_if; bool_prop; lia.
Qed.
Lemma clampInt_id v lo hi : lo <= v <= hi -> clampInt v lo hi = v.
Proof.
  intros H. unfold clampInt. destruct (hi <? lo) eqn:E; bool_prop; [lia|].
  repeat split_if; bool_prop; lia.
Qed.

Lemma effective_wait_range a : 120 <= effective_wait a <= 900.
Proof. apply (clampInt_range _ 120 900). lia. Qed.

Lemma base_wait_pos a : 0 < base_wait a.
Proof. unfold base_wait, defaultTurnDetectorSilenceMs. split_if; bool_prop; lia. Qed.

(** The required silence is bounded: whatever the signals add or take
    away (integer overflow of the sum included), a folded arbitration waits
    between 120 and 900 ms, and never on a non-positive base wait. *)
Theorem effective_wait_bounded s a :
  let r := recomputeTurnArbitration s a in
  120 <= EffectiveWaitMs r <= 900 /\ RequiredSilenceMs r = EffectiveWaitMs r /\ 0 < BaseWaitMs r.
Proof.
  intros r. destruct (recompute_correct s a) as [Hb Hw Hr _ _ _ _ _ _]. subst r.
  rewrite Hb, Hr, Hw. pose proof (effective_wait_range a). pose proof (base_wait_pos a). auto.
Qed.

(** The ladder of stages. Acceptance implies candidacy, candidacy implies
    readiness, and readiness means text and enough audio; a turn is accepted
    exactly when it is ready and the silence has lasted the effective wait,
    and the stage is the highest rung the flags reach. *)
Theorem arbitration_ladder s a :
  0 <= SilenceMs a <= max_int64 - 120 ->
  let r := recomputeTurnArbitration s a in
  (AcceptNow r = true -> AcceptCandidate r = true) /\
  (AcceptCandidate r = true -> AcceptReady r = true) /\
  (AcceptReady r = true <-> bestText s <> "" /\ min_audio a <= AudioMs a) /\
  (AcceptNow r = true <-> AcceptReady r = true /\ EffectiveWaitMs r <= SilenceMs a) /\
  (AcceptCandidate r = true <-> AcceptReady r = true /\ EffectiveWaitMs r <= SilenceMs a + 120) /\
  (Stage r = TurnArbitrationStageAcceptNow <-> AcceptNow r = true) /\
  (Stage r = TurnArbitrationStageAcceptCandidate <-> AcceptCandidate r = true /\ AcceptNow r = false) /\
  (Stage r = TurnArbitrationStageWaitForMore <->
     CandidateReady r = true /\ AcceptCandidate r = false /\ DraftAllowed a = false /\
     PrewarmAllowed a = false).
Proof.
  intros Hsil r. destruct (recompute_correct s a) as [_ Hw _ Hc _ Ha Hac Han Hst]. subst r.
  rewrite Hst, Hw, Ha, Hac, Han, Hc. clear Hst Hw Ha Hac Han Hc.
  unfold defaultTurnDetectorAcceptLeadMs. rewrite (i64_id (SilenceMs a + 120)) by i64_lia.
  assert (Hcr : candidate_ready s a = true <-> bestText s <> "" /\ min_audio a <= AudioMs a).
  { unfold candidate_ready. rewrite andb_true_iff, negb_true_iff, Z.leb_le, text_eqb_false. tauto. }
  destruct (candidate_ready s a) eqn:Ec; cbn [andb].
  - destruct (effective_wait a <=? SilenceMs a) eqn:E1; bool_prop.
    + assert (E2 : (effective_wait a <=? SilenceMs a + 120) = true) by lia. rewrite E2. intuition (congruence || lia).
    + destruct (effective_wait a <=? SilenceMs a + 120) eqn:E2; bool_prop;
        destruct (DraftAllowed a), (PrewarmAllowed a); intuition (congruence || lia).
  - destruct (DraftAllowed a), (PrewarmAllowed a); intuition congruence.
Qed.

Lemma set_derived_twice b c d e f g h st b' c' d' e' f' g' h' st' a :
  set_derived b c d e f g h st (set_derived b' c' d' e' f' g' h' st' a) = set_derived b c d e f g h st a.
Proof. destruct a. reflexivity. Qed.

(** Folding is idempotent: an arbitration that is folded again under the
    same preview does not move. *)
Theorem recompute_idempotent s a :
  recomputeTurnArbitration s (recomputeTurnArbitration s a) = recomputeTurnArbitration s a.
Proof.
  assert (Hb : (if base_wait a <=? 0 then defaultTurnDetectorSilenceMs else base_wait a) = base_wait a).
  { pose proof (base_wait_pos a). by destruct (base_wait a <=? 0) eqn:E; bool_prop; [lia|]. }
  pose proof (recompute_correct s a) as [Hbase _ _ _ _ _ _ _ _].
  pose proof (recompute_signals s a) as [_ _ Hau Hsi Hmi Hru Hpu Hde Hgu Hpr Hdr _].
  unfold recomputeTurnArbitration at 1.
  rewrite Hbase, Hau, Hsi, Hmi, Hru, Hpu, Hde, Hgu, Hpr, Hdr, Hb.
  unfold recomputeTurnArbitration. apply set_derived_twice.
Qed.

(** ** Laws of the arbitrator *)

Lemma waitSignals_fields arb input a :
  let r := waitSignals arb input a in
  SlotConstraintRequired r = taskFamilyRequiresSlotReadiness (TaskFamily a) /\
  MinAudioMs r = cfg_MinAudioMs (arb_cfg arb) /\ BaseWaitMs r = durationMs (in_baseWait input) /\
  AudioMs r = AudioMs a /\ SilenceMs r = SilenceMs a /\
  PrewarmAllowed r = PrewarmAllowed a /\ DraftAllowed r = DraftAllowed a.
Proof.
  unfold waitSignals. destruct (_ != turnDetectorLexicalModeOff);
    repeat split_if; repeat split; read_fields; reflexivity.
Qed.

(** The low-risk gate: a mature, complete stable prefix. *)
Definition prefix_gate (input : turnArbitrationInput) : bool :=
  (TrimSpace (in_stablePrefix input) != "")
  && Complete (analyzeUtteranceCompleteness (TrimSpace (in_stablePrefix input)))
  && f_leb defaultPrewarmStableRatio
       (previewTextStabilityRatio (in_partialText input) (in_stablePrefix input))
  && (defaultPrewarmStableForMs * Millisecond <=? in_stableFor input).

Lemma earlyGates_fields input a :
  let r := earlyGates input a in
  PrewarmAllowed r = PrewarmAllowed a || in_utteranceComplete input || prefix_gate input /\
  DraftAllowed r = DraftAllowed a || (in_utteranceComplete input && negb (SlotConstraintRequired a)) /\
  SlotConstraintRequired r = SlotConstraintRequired a /\
  MinAudioMs r = MinAudioMs a /\ BaseWaitMs r = BaseWaitMs a /\
  AudioMs r = AudioMs a /\ SilenceMs r = SilenceMs a.
Proof.
  unfold earlyGates. fold (prefix_gate input).
  destruct (prefix_gate input), (in_utteranceComplete input); cbn [andb];
    try (destruct (f_leb _ _ && _)); destruct (SlotConstraintRequired a) eqn:Es;
    repeat (progress (read_fields; rewrite ?Es; cbn [negb andb]));
    try (destruct (TrimSpace (Reason a) == "")); read_fields;
    rewrite ?Es, ?orb_true_r, ?orb_false_r; repeat split; reflexivity.
Qed.

(** The waits a partial is given, which no gate changes. *)
Lemma waitSignals_waits arb input a :
  let r := waitSignals arb input a in
  RuleAdjustMs r = ruleAdjustMs arb (in_partialText input) /\
  PunctuationAdjustMs r
    = (if cfg_LexicalEndpointMode (arb_cfg arb) != turnDetectorLexicalModeOff
       then previewPunctuationAdjustMs (in_partialText input) (in_stablePrefix input) (in_utteranceComplete input)
       else PunctuationAdjustMs a) /\
  SemanticWaitDeltaMs r = SemanticWaitDeltaMs a /\ SlotGuardAdjustMs r = SlotGuardAdjustMs a.
Proof.
  unfold waitSignals. destruct (_ != turnDetectorLexicalModeOff);
    repeat split_if; repeat split; read_fields; reflexivity.
Qed.

Lemma earlyGates_waits input a :
  let r := earlyGates input a in
  BaseWaitMs r = BaseWaitMs a /\ RuleAdjustMs r = RuleAdjustMs a /\ PunctuationAdjustMs r = PunctuationAdjustMs a /\
  SemanticWaitDeltaMs r = SemanticWaitDeltaMs a /\ SlotGuardAdjustMs r = SlotGuardAdjustMs a.
Proof.
  unfold earlyGates. cbv zeta. split_if; split_if; split_if; repeat split_if; repeat split; read_fields; reflexivity.
Qed.

(** The wait they come to. *)
Definition arbitrated_wait (arb : MultiSignalTurnArbitrator) (input : turnArbitrationInput) : Z :=
  let base := if durationMs (in_baseWait input) <=? 0 then defaultTurnDetectorSilenceMs else durationMs (in_baseWait input) in
  let punctuation :=
    if cfg_LexicalEndpointMode (arb_cfg arb) != turnDetectorLexicalModeOff
    then previewPunctuationAdjustMs (in_partialText input) (in_stablePrefix input) (in_utteranceComplete input) else 0 in
  clampInt (i64 (base + ruleAdjustMs arb (in_partialText input) + punctuation)) defaultTurnDetectorMinWaitMs defaultTurnDetectorMaxWaitMs.

#[global] Arguments waitSignals _ _ _ : simpl never.
#[global] Arguments earlyGates _ _ : simpl never.
#[global] Arguments Arbitrate _ _ : simpl never.

Definition arb_snapshot (input : turnArbitrationInput) (a : TurnArbitration) : InputPreview :=
  zero_InputPreview <|PartialText := in_partialText input|> <|StablePrefix := in_stablePrefix input|>
    <|UtteranceComplete := in_utteranceComplete input|> <|Arbitration := a|>.

(** What the arbitration of a non-blank partial is folded from. *)
Lemma Arbitrate_folds arb input :
  TrimSpace (in_partialText input) <> "" ->
  exists s a, Arbitrate arb input = recomputeTurnArbitration s a /\
    bestText s = TrimSpace (firstNonEmpty [in_stablePrefix input; in_partialText input]) /\
    MinAudioMs a = cfg_MinAudioMs (arb_cfg arb) /\ AudioMs a = in_audioMs input /\
    SilenceMs a = durationMs (in_silence input) /\
    PrewarmAllowed a = in_utteranceComplete input || prefix_gate input /\
    DraftAllowed a = in_utteranceComplete input
      && negb (taskFamilyRequiresSlotReadiness (TaskFamily (initialArbitration input))) /\
    effective_wait a = arbitrated_wait arb input.
Proof.
  intros Hp. apply text_eqb_false in Hp.
  set (w := waitSignals arb input (initialArbitration input)).
  exists (arb_snapshot input (earlyGates input w)), (earlyGates input w).
  split; [unfold Arbitrate; by rewrite Hp|].
  split; [unfold bestText, arb_snapshot; by read_fields|].
  destruct (earlyGates_fields input w) as (Hpre & Hdr & _ & Hmin & _ & Hau & Hsi).
  destruct (waitSignals_fields arb input (initialArbitration input)) as (Wsl & Wmin & _ & Wau & Wsi & Wpre & Wdr).
  fold w in Wsl, Wmin, Wau, Wsi, Wpre, Wdr.
  destruct (earlyGates_waits input w) as (G1 & G2 & G3 & G4 & G5).
  destruct (waitSignals_waits arb input (initialArbitration input)) as (W2 & W3 & W4 & W5). fold w in W2, W3, W4, W5.
  assert (W1 : BaseWaitMs w = durationMs (in_baseWait input))
    by (destruct (waitSignals_fields arb input (initialArbitration input)) as (_ & _ & E & _); exact E).
  assert (Hw : effective_wait (earlyGates input w) = arbitrated_wait arb input).
  { unfold effective_wait, base_wait, arbitrated_wait. rewrite G1, G2, G3, G4, G5, W1, W2, W3, W4, W5.
    unfold initialArbitration. read_fields. by rewrite !Z.add_0_r. }
  rewrite Hmin, Hau, Hsi, Hpre, Hdr, Wsl, Wmin, Wau, Wsi, Wpre, Wdr.
  unfold initialArbitration. read_fields. repeat split; [reflexivity..|exact Hw].
Qed.

Lemma bestText_nonblank stable partial :
  TrimSpace partial <> "" -> TrimSpace (firstNonEmpty [stable; partial]) <> "".
Proof.
  intros Hp. rewrite firstNonEmpty_cases. split_if; text_prop; rewrite TrimSpace_idemp; done.
Qed.

(** What the runtime may do before a turn is accepted. A draft is allowed
    exactly for a complete utterance that is not a structured command (the
    stability and dwell thresholds of the middle gate change nothing); a
    prewarm also for a mature complete stable prefix; so a draft is never
    allowed without a prewarm, and a blank partial allows nothing. *)
Theorem early_processing_gates arb input :
  let r := Arbitrate arb input in
  let family := inferLexicalTaskFamily (TrimSpace (firstNonEmpty [in_partialText input; in_stablePrefix input])) in
  (TrimSpace (in_partialText input) <> "" ->
     DraftAllowed r = in_utteranceComplete input && negb (taskFamilyRequiresSlotReadiness family) /\
     PrewarmAllowed r = in_utteranceComplete input || prefix_gate input) /\
  (DraftAllowed r = true -> PrewarmAllowed r = true) /\
  (TrimSpace (in_partialText input) = "" ->
     DraftAllowed r = false /\ PrewarmAllowed r = false /\ AcceptCandidate r = false /\
     AcceptNow r = false /\ Stage r = TurnArbitrationStagePreviewOnly).
Proof.
  intros r family.
  assert (Hfam : TaskFamily (initialArbitration input) = family)
    by (unfold initialArbitration; read_fields; reflexivity).
  assert (Hne : TrimSpace (in_partialText input) <> "" ->
     DraftAllowed r = in_utteranceComplete input && negb (taskFamilyRequiresSlotReadiness family) /\
     PrewarmAllowed r = in_utteranceComplete input || prefix_gate input).
  { intros Hp. destruct (Arbitrate_folds arb input Hp) as (s & a & Hr & _ & _ & _ & _ & Hpre & Hdr & _).
    pose proof (recompute_signals s a) as [_ _ _ _ _ _ _ _ _ Rpre Rdr _].
    subst r. rewrite Hr, Rdr, Rpre, Hpre, Hdr, Hfam. by split. }
  assert (Hbl : TrimSpace (in_partialText input) = "" -> r = initialArbitration input).
  { intros Hp. subst r. unfold Arbitrate. rewrite Hp. reflexivity. }
  split; [exact Hne|]. split.
  - destruct (decide (TrimSpace (in_partialText input) = "")) as [Hp|Hp].
    + rewrite (Hbl Hp). unfold initialArbitration. by read_fields.
    + destruct (Hne Hp) as [-> ->]. by destruct (in_utteranceComplete input).
  - intros Hp. rewrite (Hbl Hp). unfold initialArbitration. read_fields. repeat split; reflexivity.
Qed.

(** ** Laws of the detector *)

Lemma normalize_config_pos cfg :
  let c := NormalizeSilenceTurnDetectorConfig cfg in
  0 < cfg_MinAudioMs c /\ 0 < cfg_SilenceMs c /\ 0 < cfg_IncompleteHoldMs c /\ 0 < cfg_EndpointHintSilenceMs c /\
  (cfg_LexicalEndpointMode c = turnDetectorLexicalModeOff \/
   cfg_LexicalEndpointMode c = turnDetectorLexicalModeConservative).
Proof.
  destruct cfg as [a b m d e]. unfold NormalizeSilenceTurnDetectorConfig, normalizeTurnDetectorLexicalMode. cbn.
  unfold defaultTurnDetectorMinAudioMs, defaultTurnDetectorSilenceMs, defaultTurnDetectorIncompleteHoldMs,
    defaultTurnDetectorHintSilenceMs.
  destruct (a <=? 0) eqn:Ea; cbn; destruct (b <=? 0) eqn:Eb; cbn; destruct (d <=? 0) eqn:Ed; cbn;
    destruct (e <=? 0) eqn:Ee; cbn; bool_prop; repeat split; try lia;
    repeat split_if; auto.
Qed.

Lemma normalize_config_fix c :
  0 < cfg_MinAudioMs c -> 0 < cfg_SilenceMs c -> 0 < cfg_IncompleteHoldMs c ->
  0 < cfg_EndpointHintSilenceMs c ->
  (cfg_LexicalEndpointMode c = turnDetectorLexicalModeOff \/
   cfg_LexicalEndpointMode c = turnDetectorLexicalModeConservative) ->
  NormalizeSilenceTurnDetectorConfig c = c.
Proof.
  destruct c as [a b m d e]. unfold NormalizeSilenceTurnDetectorConfig. cbn. intros Ha Hb Hd He Hm.
  destruct (a <=? 0) eqn:Ea; cbn; bool_prop; [lia|]. destruct (b <=? 0) eqn:Eb; cbn; bool_prop; [lia|].
  destruct (d <=? 0) eqn:Ed; cbn; bool_prop; [lia|]. destruct (e <=? 0) eqn:Ee; cbn; bool_prop; [lia|].
  f_equal. by destruct Hm as [-> | ->].
Qed.

(** Configuration: every threshold comes out positive and the lexical
    mode is one of the two the code tests for, whatever was configured, and
    normalizing twice (as the detector and its arbitrator do) is normalizing
    once. *)
Theorem detector_config_normalized cfg :
  let c := NormalizeSilenceTurnDetectorConfig cfg in
  0 < cfg_MinAudioMs c /\ 0 < cfg_SilenceMs c /\ 0 < cfg_IncompleteHoldMs c /\ 0 < cfg_EndpointHintSilenceMs c /\
  (cfg_LexicalEndpointMode c = turnDetectorLexicalModeOff \/
   cfg_LexicalEndpointMode c = turnDetectorLexicalModeConservative) /\
  NormalizeSilenceTurnDetectorConfig c = c.
Proof.
  intros c. destruct (normalize_config_pos cfg) as (Ha & Hb & Hd & He & Hm).
  repeat split; auto. by apply normalize_config_fix.
Qed.

Lemma endpoint_reason_nonblank d : TrimSpace (baseWaitForPartial d).2 <> "".
Proof.
  unfold baseWaitForPartial.
  assert (Hd : TrimSpace defaultServerEndpointReason <> "") by (by vm_compute).
  assert (Hh : TrimSpace (TrimSpace (latestEndpointHint d)) = TrimSpace (latestEndpointHint d)) by apply TrimSpace_idemp.
  split_if; [|].
  - split_if; cbn [snd]; [|done]. bool_prop. text_prop. by rewrite Hh.
  - split_if; [split_if; cbn [snd]; bool_prop; text_prop; by rewrite Hh|].
    split_if; cbn [snd]; [|done]. rewrite firstNonEmpty_cases. rewrite TrimSpace_idemp.
    split_if; text_prop; [by vm_compute|]. rewrite TrimSpace_idemp. done.
Qed.

(** The latch, the suggestion and the folded arbitration of a poll that has a
    partial and audio. *)
Definition pollable (d : SilenceTurnDetector) : Prop :=
  TrimSpace (latestPartial d) <> "" /\ lastAudioAt d <> time_zero.

Lemma Snapshot_not_pollable now d :
  ~ pollable d -> (Snapshot now d).1 = d /\ CommitSuggested (Snapshot now d).2 = false.
Proof.
  intros Hp. unfold Snapshot. destruct ((TrimSpace (latestPartial d) == "") || IsZero (lastAudioAt d)) eqn:E.
  - cbn [fst snd]. read_fields. by split.
  - exfalso. apply Hp. bool_prop. text_prop. unfold IsZero in *. bool_prop. by split.
Qed.

(** What a poll asks the arbitrator. *)
Definition poll_input (now : instant) (d : SilenceTurnDetector) : turnArbitrationInput :=
  mkArbitrationInput (TrimSpace (latestPartial d)) (TrimSpace (stablePrefix d))
    (audioDurationMs d) (time_Sub now (lastAudioAt d)) (baseWaitForPartial d).1
    (stablePrefixDuration now d) (TrimSpace (baseWaitForPartial d).2)
    (Complete (previewUtteranceCompleteness (TrimSpace (stablePrefix d)) (TrimSpace (latestPartial d)))).

Lemma Snapshot_pollable now d :
  pollable d ->
  exists s a,
    bestText s <> "" /\
    MinAudioMs a = cfg_MinAudioMs (NormalizeSilenceTurnDetectorConfig (config d)) /\
    AudioMs a = audioDurationMs d /\
    SilenceMs a = durationMs (time_Sub now (lastAudioAt d)) /\
    effective_wait a = arbitrated_wait (NewMultiSignalTurnArbitrator (config d)) (poll_input now d) /\
    let suggested := commitSuggested d || AcceptNow (recomputeTurnArbitration s a) in
    CommitSuggested (Snapshot now d).2 = suggested /\
    commitSuggested (Snapshot now d).1 = suggested /\
    (suggested = true -> AcceptNow (Arbitration (Snapshot now d).2) = true /\
                         commitReason (Snapshot now d).1 <> "") /\
    (commitSuggested d = true -> commitReason d <> "" -> trimmed (commitReason d) ->
       commitReason (Snapshot now d).1 = commitReason d).
Proof.
  intros [Hp Hl].
  set (input := poll_input now d).
  assert (Hpi : TrimSpace (in_partialText input) <> "") by (cbn; by rewrite TrimSpace_idemp).
  destruct (Arbitrate_folds (NewMultiSignalTurnArbitrator (config d)) input Hpi)
    as (s & a & Hr & Hbest & Hmin & Hau & Hsi & _ & _ & Hwt).
  exists s, a. split; [rewrite Hbest; by apply bestText_nonblank|].
  split; [exact Hmin|]. split; [exact Hau|]. split; [exact Hsi|]. split; [exact Hwt|].
  assert (Hre : forall x, firstNonEmpty [x; (baseWaitForPartial d).2] <> "").
  { intros x. pose proof (endpoint_reason_nonblank d). rewrite firstNonEmpty_cases. split_if; by text_prop. }
  unfold Snapshot.
  assert (((TrimSpace (latestPartial d) == "") || IsZero (lastAudioAt d)) = false) as ->.
  { apply orb_false_iff. split; [by apply text_eqb_false | by apply Z.eqb_neq]. }
  subst input. unfold poll_input in *. destruct (baseWaitForPartial d) as [bw er] eqn:Ebw. cbn [fst snd] in *.
  set (input := mkArbitrationInput _ _ _ _ bw _ _ _) in *.
  change (Arbitrate (NewMultiSignalTurnArbitrator (config d)) _)
    with (Arbitrate (NewMultiSignalTurnArbitrator (config d)) input). rewrite Hr.
  set (r := recomputeTurnArbitration s a). clearbody r.
  destruct (commitSuggested d) eqn:Ec; cbn [orb]; read_fields.
  - cbn [fst snd]. read_fields. repeat split; auto. intros _ Hne Htr.
    rewrite firstNonEmpty_cases, !Htr. apply text_eqb_false in Hne. by rewrite Hne.
  - destruct (AcceptNow r) eqn:Ean; cbn [fst snd]; destruct (AcceptCandidate r); read_fields;
      repeat split; auto; try congruence.
Qed.

(** What a poll may change of the detector: the latch and its reason. *)
Lemma Snapshot_frame now d :
  exists b r, (Snapshot now d).1 = d <|commitSuggested := b|> <|commitReason := r|> /\
    (b = commitSuggested d /\ r = commitReason d \/ trimmed r).
Proof.
  assert (Hsame : d = d <|commitSuggested := commitSuggested d|> <|commitReason := commitReason d|>)
    by (by destruct d).
  unfold Snapshot. split_if; [by exists (commitSuggested d), (commitReason d); cbn [fst]; auto|].
  destruct (baseWaitForPartial d) as [bw er].
  match goal with |- context [AcceptNow ?a] => generalize a; intros r end. cbv zeta.
  destruct (AcceptNow r); cbn [fst].
  - exists true, (firstNonEmpty [TrimSpace (Reason r); er]). split; [done | right; auto with go].
  - exists (commitSuggested d), (commitReason d). auto.
Qed.

(** ** What a poll suggests *)

Lemma durationMs_lower k d : 0 <= k -> k * Millisecond <= d -> in_i64 d -> k <= durationMs d.
Proof.
  intros Hk Hd Hr. unfold durationMs, idiv, Millisecond, Microsecond in *.
  destruct (d <=? 0) eqn:E; bool_prop; [lia|].
  rewrite Z.quot_div_nonneg by lia.
  assert (0 <= d / 1000000 <= d)
    by (split; [apply Z.div_pos; lia | apply Z.div_le_upper_bound; lia]).
  rewrite i64_id by (revert H Hr; generalize (d / 1000000); intros; i64_lia).
  apply Z.div_le_lower_bound; lia.
Qed.

Lemma min_audio_normalized cfg a :
  MinAudioMs a = cfg_MinAudioMs (NormalizeSilenceTurnDetectorConfig cfg) ->
  min_audio a = cfg_MinAudioMs (NormalizeSilenceTurnDetectorConfig cfg).
Proof.
  intros H. unfold min_audio. rewrite H. destruct (normalize_config_pos cfg) as [Hp _].
  destruct (_ <=? 0) eqn:E; bool_prop; lia.
Qed.

Lemma accept_now_iff s a :
  AcceptNow (recomputeTurnArbitration s a) = true <->
  bestText s <> "" /\ min_audio a <= AudioMs a /\ effective_wait a <= SilenceMs a.
Proof.
  rewrite (rc_accept_now _ _ _ (recompute_correct s a)). unfold candidate_ready.
  rewrite !andb_true_iff, negb_true_iff, !Z.leb_le, text_eqb_false. tauto.
Qed.

(** The silence, in ms, that a configuration asks for before the turn of a partial
    is over: its silence window, the shorter one when the recognizer hinted the end
    of words that are complete; the hold when the words look unfinished; what their
    punctuation adds or takes.  The code bounds it by 120 and 900 ms. *)
Definition configured_wait (cfg : SilenceTurnDetectorConfig) (hint partial stable : text) : Z :=
  let complete := Complete (analyzeUtteranceCompleteness partial) in
  let lexical := cfg_LexicalEndpointMode cfg != turnDetectorLexicalModeOff in
  let hinted := (TrimSpace hint != "") && complete && (cfg_EndpointHintSilenceMs cfg <? cfg_SilenceMs cfg) in
  let window := if hinted then cfg_EndpointHintSilenceMs cfg else cfg_SilenceMs cfg in
  let hold := if lexical && negb complete then cfg_IncompleteHoldMs cfg else 0 in
  let punctuation :=
    if lexical then previewPunctuationAdjustMs partial stable (Complete (previewUtteranceCompleteness stable partial)) else 0 in
  Z.max 120 (Z.min 900 (window + hold + punctuation)).

Definition detector_wait (d : SilenceTurnDetector) : Z :=
  configured_wait (config d) (latestEndpointHint d) (TrimSpace (latestPartial d)) (TrimSpace (stablePrefix d)).

(** Windows short enough for their nanoseconds to be a 64-bit integer. *)
Definition measurable (cfg : SilenceTurnDetectorConfig) : Prop :=
  cfg_SilenceMs cfg <= 10 ^ 12 /\ cfg_IncompleteHoldMs cfg <= 10 ^ 12 /\ cfg_EndpointHintSilenceMs cfg <= 10 ^ 12.

Lemma milliseconds_back k : 0 < k -> k <= 10 ^ 12 ->
  i64 (k * Millisecond) = k * Millisecond /\ durationMs (k * Millisecond) = k.
Proof.
  intros H0 H1. assert (Hn : i64 (k * Millisecond) = k * Millisecond) by (apply i64_id; revert H0 H1; unfold Millisecond, Microsecond; i64_lia).
  split; [exact Hn|]. unfold durationMs. destruct (k * Millisecond <=? 0) eqn:E; bool_prop; [unfold Millisecond, Microsecond in E; lia|].
  unfold idiv. rewrite Z.quot_mul by by vm_compute. apply i64_id. revert H0 H1. i64_lia.
Qed.

Lemma baseWait_window d :
  NormalizeSilenceTurnDetectorConfig (config d) = config d -> measurable (config d) ->
  let c := config d in
  let complete := Complete (analyzeUtteranceCompleteness (latestPartial d)) in
  durationMs (baseWaitForPartial d).1 =
    (if (TrimSpace (latestEndpointHint d) != "") && complete && (cfg_EndpointHintSilenceMs c <? cfg_SilenceMs c)
     then cfg_EndpointHintSilenceMs c else cfg_SilenceMs c).
Proof.
  intros Hn (M1 & _ & M3). cbv zeta. destruct (normalize_config_pos (config d)) as (_ & P1 & _ & P3 & _). rewrite Hn in P1, P3.
  destruct (milliseconds_back _ P1 M1) as [E1 D1], (milliseconds_back _ P3 M3) as [E3 D3].
  unfold baseWaitForPartial. rewrite E1, E3.
  assert ((0 <? cfg_EndpointHintSilenceMs (config d) * Millisecond) = true) as -> by (unfold Millisecond, Microsecond; lia).
  replace (cfg_EndpointHintSilenceMs (config d) * Millisecond <? cfg_SilenceMs (config d) * Millisecond)
    with (cfg_EndpointHintSilenceMs (config d) <? cfg_SilenceMs (config d)) by (unfold Millisecond, Microsecond; lia).
  rewrite andb_true_r. destruct (TrimSpace (latestEndpointHint d) != ""), (Complete _), (_ <? _), (_ == turnDetectorLexicalModeOff);
    cbn [andb negb fst]; done.
Qed.

Lemma punctuation_small partial stable complete : -1000 <= previewPunctuationAdjustMs partial stable complete <= 1000.
Proof.
  destruct (punctuation_adjust_sign partial stable complete) as [H1 H2].
  destruct complete; [specialize (H1 eq_refl) | specialize (H2 eq_refl)]; lia.
Qed.

Lemma poll_wait now d :
  NormalizeSilenceTurnDetectorConfig (config d) = config d -> measurable (config d) ->
  arbitrated_wait (NewMultiSignalTurnArbitrator (config d)) (poll_input now d) = detector_wait d.
Proof.
  intros Hn Hm. pose proof (baseWait_window d Hn Hm) as Hb. cbv zeta in Hb.
  destruct (normalize_config_pos (config d)) as (_ & P1 & P2 & P3 & _). rewrite Hn in P1, P2, P3. destruct Hm as (M1 & M2 & M3).
  unfold arbitrated_wait, detector_wait, configured_wait, poll_input, ruleAdjustMs, NewMultiSignalTurnArbitrator.
  cbn [in_baseWait in_partialText in_stablePrefix in_utteranceComplete arb_cfg]. rewrite Hn, Hb, analyze_trim. cbv zeta.
  set (window := if (_ && _) then _ else cfg_SilenceMs (config d)).
  assert (Hw : 0 < window <= 10 ^ 12) by (subst window; destruct (_ && _); lia). clearbody window.
  assert ((window <=? 0) = false) as -> by lia.
  set (adj := previewPunctuationAdjustMs _ _ _). assert (Ha : -1000 <= adj <= 1000) by apply punctuation_small. clearbody adj.
  destruct (cfg_LexicalEndpointMode (config d) == turnDetectorLexicalModeOff), (Complete (analyzeUtteranceCompleteness (latestPartial d)));
    cbn [negb andb]; rewrite i64_id by (revert Hw Ha P2 M2; i64_lia);
    unfold clampInt, defaultTurnDetectorMinWaitMs, defaultTurnDetectorMaxWaitMs; cbn [Z.ltb Z.compare]; repeat split_if; bool_prop; lia.
Qed.

(** C22. The endpoint. Once a partial is heard over at least the configured audio,
    a poll suggests the end of the turn exactly when the silence since the last
    audio has reached the wait its configuration asks for: the silence window, or
    the shorter one of a hinted end; the hold while the words look unfinished; what
    the punctuation adds or takes; all of it between 120 and 900 ms.  So a turn
    whose words are heard ends: the suggestion comes with a reason and stays. *)
Theorem silence_ends_turn now d :
  NormalizeSilenceTurnDetectorConfig (config d) = config d -> measurable (config d) ->
  TrimSpace (latestPartial d) <> "" -> lastAudioAt d <> time_zero ->
  cfg_MinAudioMs (config d) <= audioDurationMs d -> commitSuggested d = false ->
  let r := Snapshot now d in
  (CommitSuggested r.2 = true <-> detector_wait d <= durationMs (time_Sub now (lastAudioAt d))) /\
  (detector_wait d <= durationMs (time_Sub now (lastAudioAt d)) ->
   AcceptNow (Arbitration r.2) = true /\ commitReason r.1 <> "" /\
   forall now', CommitSuggested (Snapshot now' r.1).2 = true).
Proof.
  intros Hn Hmeas Hp Hl Ha Hc. cbv zeta.
  destruct (Snapshot_pollable now d (conj Hp Hl)) as (s & a & Hb & Hm & Hau & Hsi & Hw & H1 & H2 & H3 & _).
  rewrite Hc in H1, H2, H3. cbn [orb] in H1, H2, H3. rewrite (poll_wait now d Hn Hmeas) in Hw.
  assert (Han : AcceptNow (recomputeTurnArbitration s a) = true <-> detector_wait d <= durationMs (time_Sub now (lastAudioAt d))).
  { rewrite accept_now_iff, (min_audio_normalized _ _ Hm), Hn, Hau, Hsi, Hw. tauto. }
  split; [by rewrite H1|]. intros Hs. apply Han in Hs. destruct (H3 Hs) as [H4 H5]. split; [exact H4|]. split; [exact H5|].
  intros now'. rewrite Hs in H2. destruct (Snapshot_frame now d) as (b & r & Hf & _). rewrite Hf in H2 |- *. revert H2. read_fields. intros ->.
  assert (Hp' : pollable (d <|commitSuggested := true|> <|commitReason := r|>)) by (split; by read_fields).
  destruct (Snapshot_pollable now' _ Hp') as (s' & a' & _ & _ & _ & _ & _ & H6 & _). rewrite H6. by read_fields.
Qed.

(** No configuration waits longer than 900 ms.  The documented hold of 720 ms on
    top of the documented window of 480 ms is cut to 420 ms, and a window of two
    seconds is one of 900 ms. *)
Lemma configured_wait_is_cut cfg hint partial stable : 120 <= configured_wait cfg hint partial stable <= 900.
Proof. unfold configured_wait. cbv zeta. lia. Qed.

Definition documented_config : SilenceTurnDetectorConfig := mkDetectorConfig 320 480 "conservative" 720 160.

Lemma documented_windows_are_cut :
  configured_wait documented_config "" "turn on the light and" "" = 900 /\
  configured_wait (documented_config <|cfg_SilenceMs := 2000|>) "" "turn on the light" "" = 900 /\
  configured_wait documented_config "" "turn on the light" "" = 480.
Proof. by vm_compute. Qed.

(** What a first suggestion rests on. *)
Lemma commit_evidence now d :
  commitSuggested d = false -> CommitSuggested (Snapshot now d).2 = true ->
  TrimSpace (latestPartial d) <> "" /\ lastAudioAt d <> time_zero /\
  cfg_MinAudioMs (NormalizeSilenceTurnDetectorConfig (config d)) <= audioDurationMs d /\
  120 <= durationMs (time_Sub now (lastAudioAt d)).
Proof.
  intros Hc Hs. destruct (decide (TrimSpace (latestPartial d) = "")) as [Hb|Hb].
  { destruct (Snapshot_not_pollable now d) as [_ H]; [by intros [? _]|congruence]. }
  destruct (decide (lastAudioAt d = time_zero)) as [Hl|Hl].
  { destruct (Snapshot_not_pollable now d) as [_ H]; [by intros [_ ?]|congruence]. }
  destruct (Snapshot_pollable now d (conj Hb Hl)) as (s & a & _ & Hm & Hau & Hsi & _ & H1 & _).
  rewrite H1, Hc in Hs. cbn [orb] in Hs. apply accept_now_iff in Hs as (_ & Hmin & Hw).
  rewrite (min_audio_normalized _ _ Hm), Hau in Hmin. rewrite Hsi in Hw.
  pose proof (effective_wait_range a). repeat split; auto; lia.
Qed.

(** C23. Safety of the endpoint. A detector that has not suggested a commit
    suggests one only for a non-blank partial, with at least the configured
    audio heard and at least 120 ms of silence after it. *)
Theorem commit_needs_speech_and_silence now d :
  commitSuggested d = false -> CommitSuggested (Snapshot now d).2 = true ->
  TrimSpace (latestPartial d) <> "" /\ lastAudioAt d <> time_zero /\
  cfg_MinAudioMs (NormalizeSilenceTurnDetectorConfig (config d)) <= audioDurationMs d /\
  120 <= durationMs (time_Sub now (lastAudioAt d)).
Proof. exact (commit_evidence now d). Qed.

(** ** Traces of a detector *)

Inductive detector_op :=
| DAudio (bytes : Z)
| DDelta (delta : TranscriptionDelta)
| DPoll.

Definition detector_step (d : SilenceTurnDetector) (e : instant * detector_op) : SilenceTurnDetector :=
  match e.2 with
  | DAudio n => ObserveAudio e.1 n d
  | DDelta delta => ObserveTranscriptionDelta e.1 delta d
  | DPoll => (Snapshot e.1 d).1
  end.

Definition detector_run (events : list (instant * detector_op)) (d : SilenceTurnDetector) : SilenceTurnDetector :=
  fold_left detector_step events d.

(** Every call carries a clock reading, so no instant is Go's zero time. *)
Definition clocked (events : list (instant * detector_op)) : Prop := Forall (fun e => e.1 <> time_zero) events.

Record detector_inv (d : SilenceTurnDetector) : Prop := {
  di_config : NormalizeSilenceTurnDetectorConfig (config d) = config d;
  di_rate : 0 < sampleRateHz d /\ 0 < channels d;
  di_prefix : trimmed (stablePrefix d);
  di_prefix_at : stablePrefixAt d = time_zero <-> stablePrefix d = "";
  di_hint : trimmed (latestEndpointHint d);
  di_speech : lastAudioAt d <> time_zero -> speechStarted d = true;
  di_reason : commitSuggested d = true -> trimmed (commitReason d) /\ commitReason d <> ""
}.

Lemma updateStablePrefix_trimmed prev stable next final : trimmed (updateStablePrefix prev stable next final).
Proof. unfold updateStablePrefix. repeat (split_if; auto with go). Qed.

Lemma Snapshot_latch_reason now d :
  commitSuggested (Snapshot now d).1 = true -> detector_inv d ->
  commitReason (Snapshot now d).1 <> "" /\ (commitSuggested d = true -> commitReason (Snapshot now d).1 = commitReason d).
Proof.
  intros Hs Hi. destruct (decide (TrimSpace (latestPartial d) <> "" /\ lastAudioAt d <> time_zero)) as [Hp|Hp].
  - destruct (Snapshot_pollable now d Hp) as (s & a & _ & _ & _ & _ & _ & _ & H2 & H3 & H4).
    rewrite H2 in Hs. destruct (H3 Hs) as [_ Hr]. split; [exact Hr|].
    intros Hc. destruct (di_reason d Hi Hc). auto.
  - destruct (Snapshot_not_pollable now d Hp) as [-> _] in Hs |- *. by destruct (di_reason d Hi Hs).
Qed.

Lemma detector_step_inv d e : e.1 <> time_zero -> detector_inv d -> detector_inv (detector_step d e).
Proof.
  destruct e as [now e]. cbn [fst]. intros Hn Hi. destruct e as [n|delta|]; cbn [detector_step fst snd].
  - unfold ObserveAudio. split_if; [done|]. destruct Hi. by split; read_fields.
  - unfold ObserveTranscriptionDelta. destruct Hi as [H1 H2 H3 H4 H5 H6 H7].
    assert (Hobs : forall final, detector_inv
      ((if Delta_Text delta != "" then
          let previousStable := TrimSpace (stablePrefix d) in
          let nextStable := updateStablePrefix (latestPartial d) (stablePrefix d) (Delta_Text delta) final in
          let trimmedStable := TrimSpace nextStable in
          let d := if trimmedStable == "" then d <|stablePrefixAt := time_zero|>
                   else if (trimmedStable != previousStable) || IsZero (stablePrefixAt d)
                   then d <|stablePrefixAt := now|> else d in
          d <|stablePrefix := nextStable|> <|latestPartial := Delta_Text delta|>
        else d) <|latestEndpointHint := TrimSpace (Delta_EndpointReason delta)|>)).
    { intros final. split_if; [|split; read_fields; auto with go].
      pose proof (updateStablePrefix_trimmed (latestPartial d) (stablePrefix d) (Delta_Text delta) final) as Ht.
      cbv zeta. revert Ht. generalize (updateStablePrefix (latestPartial d) (stablePrefix d) (Delta_Text delta) final).
      intros p Ht. rewrite Ht, H3.
      destruct (p == "") eqn:Ep; text_prop; [split; read_fields; auto with go; done|].
      destruct (p != stablePrefix d) eqn:Eq; cbn [orb].
      - split; read_fields; auto with go; by split.
      - unfold IsZero. destruct (stablePrefixAt d =? 0) eqn:E0; bool_prop;
          split; read_fields; auto with go; by split. }
    destruct (Delta_Kind delta); [| exact (Hobs false) | | exact (Hobs true) |]; split; read_fields; auto with go.
  - destruct (Snapshot_frame now d) as (b & r & Hs & Hr).
    pose proof (Snapshot_latch_reason now d) as Hl. rewrite Hs in *.
    pose proof Hi as [H1 H2 H3 H4 H5 H6 H7].
    split; read_fields; auto. read_fields_in Hl. intros ->. destruct (Hl eq_refl Hi) as [Hne _].
    destruct Hr as [[Hb ->]|Hr]; [apply H7; by rewrite <- Hb | by split].
Qed.

Lemma detector_run_inv events d : clocked events -> detector_inv d -> detector_inv (detector_run events d).
Proof.
  unfold detector_run. intros Hc. revert d. induction Hc as [|e es He _ IH]; intros d Hd; [done|].
  cbn. apply IH. by apply detector_step_inv.
Qed.

Lemma NewSilenceTurnDetector_inv cfg rate chans : detector_inv (NewSilenceTurnDetector cfg rate chans).
Proof.
  destruct (normalize_config_pos cfg) as (Ha & Hb & Hd & He & Hm). unfold NewSilenceTurnDetector.
  split; cbn; try done; [by apply normalize_config_fix|].
  destruct (rate <=? 0) eqn:Er, (chans <=? 0) eqn:Ec; bool_prop; lia.
Qed.

(** Every detector the code can build is well formed after any calls: its
    thresholds are normalized, its sample rate and channel count positive,
    the stable prefix trimmed and stamped exactly when it is not empty, audio
    implies that speech has started, and a latched suggestion has a reason. *)
Theorem detector_wellformed cfg rate chans events :
  clocked events -> detector_inv (detector_run events (NewSilenceTurnDetector cfg rate chans)).
Proof. intros Hc. apply detector_run_inv; [exact Hc | apply NewSilenceTurnDetector_inv]. Qed.

Lemma detector_step_latch d e :
  detector_inv d -> commitSuggested d = true ->
  commitSuggested (detector_step d e) = true /\ commitReason (detector_step d e) = commitReason d.
Proof.
  destruct e as [now [n|delta|]]; unfold detector_step; cbn [fst snd]; intros Hi Hc.
  - unfold ObserveAudio. split_if; [done|]. by read_fields.
  - unfold ObserveTranscriptionDelta.
    destruct (Delta_Kind delta); cbv zeta; repeat split_if; read_fields; done.
  - destruct (decide (TrimSpace (latestPartial d) <> "" /\ lastAudioAt d <> time_zero)) as [Hp|Hp].
    + destruct (Snapshot_pollable now d Hp) as (s & a & _ & _ & _ & _ & _ & _ & H2 & _ & H4).
      destruct (di_reason d Hi Hc). rewrite H2, Hc. auto.
    + by destruct (Snapshot_not_pollable now d Hp) as [-> _].
Qed.

(** A suggested commit is latched: neither later audio, later deltas nor
    later polls withdraw it or replace its reason, and every later poll that
    sees a partial suggests it again. *)
Theorem commit_latched events d :
  clocked events -> detector_inv d -> commitSuggested d = true ->
  let d' := detector_run events d in
  commitSuggested d' = true /\ commitReason d' = commitReason d /\
  (forall now, pollable d' -> CommitSuggested (Snapshot now d').2 = true /\
                              AcceptNow (Arbitration (Snapshot now d').2) = true).
Proof.
  intros Hc Hi Hs.
  assert (H : commitSuggested (detector_run events d) = true /\
              commitReason (detector_run events d) = commitReason d).
  { revert d Hi Hs. induction Hc as [|e es He _ IH]; intros d Hi Hs; [done|].
    change (detector_run (e :: es) d) with (detector_run es (detector_step d e)).
    destruct (detector_step_latch d e Hi Hs) as [Hs' Hr'].
    destruct (IH _ (detector_step_inv d e He Hi) Hs') as [-> ->]. by split. }
  cbv zeta. destruct H as [H1 H2]. split; [exact H1|]. split; [exact H2|]. intros now Hp.
  destruct (Snapshot_pollable now _ Hp) as (s & a & _ & _ & _ & _ & _ & H3 & _ & H4 & _).
  rewrite H1 in *. cbn [orb] in *. destruct (H4 eq_refl). auto.
Qed.

(** ** Audio durations *)

Lemma pcm16_duration_floor bytes rate chans :
  0 <= bytes <= max_int64 -> 0 < rate -> 0 < chans -> bytes / chans / 2 * Second <= max_int64 ->
  pcm16AudioDurationMs bytes rate chans = bytes / chans / 2 * 1000 / rate.
Proof.
  intros [Hb Hm] Hr Hc Hmul. unfold pcm16AudioDurationMs.
  assert (Hrc : (rate <=? 0) = false /\ (chans <=? 0) = false) by lia. destruct Hrc as [-> ->].
  destruct (bytes <=? 0) eqn:E0; cbn [orb]; bool_prop.
  { assert (bytes = 0) as -> by lia. repeat (first [rewrite Z.div_0_l by lia | rewrite Z.mul_0_l]). done. }
  assert (Hq : 0 <= bytes / chans <= bytes)
    by (split; [apply Z.div_pos; lia | apply Z.div_le_upper_bound; nia]).
  rewrite (idiv_floor bytes chans) by lia. rewrite (idiv_floor _ 2) by lia.
  set (f := bytes / chans / 2) in *. assert (Hf : 0 <= f) by (apply Z.div_pos; lia).
  assert (HS : Second = 1000 * Millisecond) by reflexivity.
  assert (HM : 0 < Millisecond) by reflexivity.
  rewrite (i64_id (f * Second)) by (revert Hf Hmul; unfold Second, Millisecond, Microsecond; i64_lia).
  assert (Hs : 0 <= f * Second) by nia.
  assert (Hd : 0 <= f * Second / rate <= f * Second)
    by (split; [apply Z.div_pos; lia | apply Z.div_le_upper_bound; nia]).
  rewrite (idiv_floor (f * Second) rate) by lia. rewrite idiv_floor by lia.
  rewrite Z.div_div by lia. rewrite HS.
  replace (f * (1000 * Millisecond)) with (f * 1000 * Millisecond) by ring.
  apply Z.div_mul_cancel_r; lia.
Qed.

(** Audio time. Up to 9.2e9 frames (no product leaves 64 bits) the
    nested integer divisions lose nothing: the duration is the exact number
    of whole milliseconds of complete frames, so it never decreases as bytes
    arrive and doubles of the same audio last twice as long up to one
    millisecond. *)
Theorem pcm16_duration_exact rate chans a b :
  0 < rate -> 0 < chans -> 0 <= a <= b -> b <= max_int64 -> b / chans / 2 * Second <= max_int64 ->
  pcm16AudioDurationMs b rate chans = b / chans / 2 * 1000 / rate /\
  pcm16AudioDurationMs a rate chans <= pcm16AudioDurationMs b rate chans /\
  (b mod (2 * chans) = 0 -> pcm16AudioDurationMs b rate chans * rate * 2 * chans <= b * 1000
     < (pcm16AudioDurationMs b rate chans + 1) * rate * 2 * chans).
Proof.
  intros Hr Hc Hab Hb Hmul.
  assert (Hf : a / chans / 2 <= b / chans / 2) by (do 2 (apply Z.div_le_mono; [lia|]); lia).
  assert (HSe : 0 < Second) by reflexivity.
  rewrite (pcm16_duration_floor b), (pcm16_duration_floor a) by (lia || nia).
  split; [done|]. split; [apply Z.div_le_mono; nia|]. intros Hmod.
  rewrite Z.div_div, (Z.mul_comm chans 2) by lia.
  pose proof (Z.div_mod b (2 * chans) ltac:(lia)) as Hd. rewrite Hmod in Hd.
  set (f := b / (2 * chans)) in *.
  pose proof (Z.div_mod (f * 1000) rate ltac:(lia)). pose proof (Z.mod_pos_bound (f * 1000) rate Hr).
  set (q := f * 1000 / rate) in *. nia.
Qed.

(** ** Concrete runs *)

Definition demo_config : SilenceTurnDetectorConfig := mkDetectorConfig 0 0 "" 0 0.
Definition demo_detector : SilenceTurnDetector := NewSilenceTurnDetector demo_config 0 0.
Definition demo_delta (s : text) : TranscriptionDelta :=
  mkTranscriptionDelta TranscriptionDeltaKindPartial s "" 0.

(** Half a second of audio, then a complete partial. *)
Definition demo_heard : list (instant * detector_op) :=
  [(Second, DAudio 16000); (Second + 1, DDelta (demo_delta "turn on the light"))].

Lemma arbitration_ladder_witness :
  let a := zero_TurnArbitration <|AudioMs := 500|> <|SilenceMs := 400|> <|RuleAdjustMs := 20|> in
  let s := zero_InputPreview <|PartialText := "hello"|> in
  let r := recomputeTurnArbitration s a in
  EffectiveWaitMs r = 500 /\ (AcceptNow r = true -> AcceptCandidate r = true) /\
  (Stage r = TurnArbitrationStageAcceptCandidate <-> AcceptCandidate r = true /\ AcceptNow r = false).
Proof.
  intros a s r. destruct (arbitration_ladder s a ltac:(vm_compute; split; discriminate))
    as (H1 & _ & _ & _ & _ & _ & H7 & _).
  split; [by vm_compute|]. split; [exact H1 | exact H7].
Defined.

(** 480 ms after the audio, not before. *)
Lemma silence_ends_turn_witness :
  let d := detector_run demo_heard demo_detector in
  CommitSuggested (Snapshot (Second + 480 * Millisecond) d).2 = true /\
  CommitSuggested (Snapshot (Second + 479 * Millisecond) d).2 <> true.
Proof.
  intros d. assert (Hn : NormalizeSilenceTurnDetectorConfig (config d) = config d) by (by vm_compute).
  assert (Hm : measurable (config d)) by (by vm_compute).
  assert (Hat : detector_wait d <= durationMs (time_Sub (Second + 480 * Millisecond) (lastAudioAt d))) by (vm_compute; discriminate).
  assert (Hbefore : ~ detector_wait d <= durationMs (time_Sub (Second + 479 * Millisecond) (lastAudioAt d))) by (vm_compute; congruence).
  assert (H1 : TrimSpace (latestPartial d) <> "") by (vm_compute; discriminate).
  assert (H2 : lastAudioAt d <> time_zero) by (vm_compute; discriminate).
  assert (H3 : cfg_MinAudioMs (config d) <= audioDurationMs d) by (vm_compute; discriminate).
  assert (H4 : commitSuggested d = false) by (vm_compute; reflexivity). clearbody d.
  split.
  - exact (proj2 (proj1 (silence_ends_turn (Second + 480 * Millisecond) d Hn Hm H1 H2 H3 H4)) Hat).
  - intros H. exact (Hbefore (proj1 (proj1 (silence_ends_turn (Second + 479 * Millisecond) d Hn Hm H1 H2 H3 H4)) H)).
Defined.

Lemma commit_needs_speech_and_silence_witness :
  let d := detector_run demo_heard demo_detector in
  commitSuggested d = false /\ CommitSuggested (Snapshot (2 * Second) d).2 = true /\
  120 <= durationMs (time_Sub (2 * Second) (lastAudioAt d)).
Proof.
  intros d. assert (H1 : commitSuggested d = false) by (by vm_compute).
  assert (H2 : CommitSuggested (Snapshot (2 * Second) d).2 = true) by (by vm_compute).
  split; [exact H1|]. split; [exact H2|].
  apply (commit_needs_speech_and_silence (2 * Second) d H1 H2).
Defined.

Lemma demo_heard_clocked : clocked demo_heard.
Proof. repeat constructor; discriminate. Qed.

Lemma detector_wellformed_witness :
  commitSuggested (detector_run (demo_heard ++ [(2 * Second, DPoll)]) demo_detector) = true /\
  detector_inv (detector_run (demo_heard ++ [(2 * Second, DPoll)]) demo_detector).
Proof.
  split; [by vm_compute|].
  apply (detector_wellformed demo_config 0 0 (demo_heard ++ [(2 * Second, DPoll)])).
  apply Forall_app. split; [apply demo_heard_clocked|]. repeat constructor. discriminate.
Defined.

Lemma commit_latched_witness :
  let d := detector_run (demo_heard ++ [(2 * Second, DPoll)]) demo_detector in
  let d' := detector_run [(2 * Second, DAudio 3200); (2 * Second, DDelta (demo_delta "turn on the light and"))] d in
  commitSuggested d' = true /\ commitReason d' = commitReason d.
Proof.
  intros d d'. edestruct (commit_latched
    [(2 * Second, DAudio 3200); (2 * Second, DDelta (demo_delta "turn on the light and"))] d) as (H1 & H2 & _).
  - repeat constructor; discriminate.
  - apply detector_run_inv; [|apply NewSilenceTurnDetector_inv].
    apply Forall_app. split; [apply demo_heard_clocked|]. repeat constructor. discriminate.
  - by vm_compute.
  - by split.
Defined.

Lemma pcm16_duration_exact_witness :
  pcm16AudioDurationMs 16001 16000 1 = 500 /\
  pcm16AudioDurationMs 640 16000 1 <= pcm16AudioDurationMs 16001 16000 1.
Proof.
  split; [by vm_compute|].
  destruct (pcm16_duration_exact 16000 1 640 16001) as (_ & H & _); [lia..| | |exact H];
    vm_compute; discriminate.
Defined.
