(* ===== verification/BargeIn.v ===== *)
(** * Barge-in (internal/voice/barge_in.go)

    While the server speaks, [EvaluateBargeIn] grades the user's preview into
    one of four policies - ignore, backchannel, duck, hard interrupt - and
    [playbackDirectiveForDecision] turns the policy into what the output
    does.  The evaluation is split, in the code's order, into the facts it
    collects and the verdict it draws from them. *)

From S2P Require Import Prelude GoText GoFloat Contracts Lexical Vocabulary TurnDetector.

(** ** Data *)

Definition defaultBargeInMinAudioMs : Z := 120.
Definition defaultBargeInIncompleteHoldMs : Z := 240.

Inductive InterruptionPolicy :=
| InterruptionPolicyIgnore | InterruptionPolicyBackchannel
| InterruptionPolicyDuckOnly | InterruptionPolicyHardInterrupt
| PolicyOther (s : text).

Inductive PlaybackAction :=
| PlaybackActionNormal | PlaybackActionDuckLight | PlaybackActionDuckHold | PlaybackActionInterrupt.

#[export] Instance InterruptionPolicy_eq_dec : EqDecision InterruptionPolicy.
Proof. solve_decision. Defined.
#[export] Instance PlaybackAction_eq_dec : EqDecision PlaybackAction.
Proof. solve_decision. Defined.

Definition action_text (a : PlaybackAction) : text :=
  match a with
  | PlaybackActionNormal => "normal"
  | PlaybackActionDuckLight => "duck_light"
  | PlaybackActionDuckHold => "duck_hold"
  | PlaybackActionInterrupt => "interrupt"
  end.

Record PlaybackDirective := mkPlaybackDirective {
  pd_Action : PlaybackAction;
  pd_Policy : InterruptionPolicy;
  pd_Reason : text;
  pd_Gain : float64;
  pd_Attack : duration;
  pd_Hold : duration;
  pd_Release : duration;
  pd_KeepPreview : bool;
  pd_KeepPendingAudio : bool
}.

#[export] Instance PlaybackDirective_rebuild : Rebuild PlaybackDirective := fun d =>
  mkPlaybackDirective (pd_Action d) (pd_Policy d) (pd_Reason d) (pd_Gain d) (pd_Attack d)
    (pd_Hold d) (pd_Release d) (pd_KeepPreview d) (pd_KeepPendingAudio d).

Record BargeInConfig := mkBargeInConfig {
  bc_MinAudioMs : Z;
  bc_IncompleteHoldMs : Z
}.

Record BargeInDecision := mkBargeInDecision {
  bd_Accepted : bool;
  bd_Policy : InterruptionPolicy;
  bd_Reason : text;
  bd_AudioMs : Z;
  bd_LexicallyComplete : bool;
  bd_MinAudioMs : Z;
  bd_HoldAudioMs : Z;
  bd_AcousticReady : bool;
  bd_SemanticReady : bool;
  bd_SemanticComplete : bool;
  bd_SemanticIntent : text;
  bd_SemanticConfidence : float64;
  bd_SemanticTakeover : bool;
  bd_AcceptCandidate : bool;
  bd_AcceptNow : bool;
  bd_EndpointHinted : bool;
  bd_BackchannelLikely : bool;
  bd_TakeoverLexicon : bool;
  bd_TurnStage : TurnArbitrationStage;
  bd_Stability : float64;
  bd_StablePrefixRunes : Z;
  bd_IntrusionScore : float64;
  bd_TakeoverScore : float64
}.

#[export] Instance BargeInDecision_rebuild : Rebuild BargeInDecision := fun d =>
  mkBargeInDecision (bd_Accepted d) (bd_Policy d) (bd_Reason d) (bd_AudioMs d)
    (bd_LexicallyComplete d) (bd_MinAudioMs d) (bd_HoldAudioMs d) (bd_AcousticReady d)
    (bd_SemanticReady d) (bd_SemanticComplete d) (bd_SemanticIntent d) (bd_SemanticConfidence d)
    (bd_SemanticTakeover d) (bd_AcceptCandidate d) (bd_AcceptNow d) (bd_EndpointHinted d)
    (bd_BackchannelLikely d) (bd_TakeoverLexicon d) (bd_TurnStage d) (bd_Stability d)
    (bd_StablePrefixRunes d) (bd_IntrusionScore d) (bd_TakeoverScore d).

Definition zero_BargeInDecision : BargeInDecision :=
  mkBargeInDecision false (PolicyOther "") "" 0 false 0 0 false false false "" f_zero false false
    false false false false StageNone f_zero 0 f_zero f_zero.

Definition NormalizeBargeInConfig (cfg : BargeInConfig) : BargeInConfig :=
  mkBargeInConfig
    (if bc_MinAudioMs cfg <=? 0 then defaultBargeInMinAudioMs else bc_MinAudioMs cfg)
    (if bc_IncompleteHoldMs cfg <=? 0 then defaultBargeInIncompleteHoldMs else bc_IncompleteHoldMs cfg).

(** ** Thresholds and scores *)

Definition maxInt (a b : Z) : Z := if b <? a then a else b.

Definition bargeInBackchannelMinAudioMs (minAudioMs : Z) : Z :=
  if minAudioMs <=? 0 then 60 else
  let threshold := idiv minAudioMs 2 in
  if threshold <? 60 then 60 else threshold.

Definition bargeInAcousticGateMinAudioMs (minAudioMs : Z) : Z :=
  if minAudioMs <=? 0 then 60 else
  let threshold := idiv minAudioMs 2 in
  let threshold := if minAudioMs <? threshold then minAudioMs else threshold in
  if threshold <? 60 then if minAudioMs <? 60 then minAudioMs else 60 else threshold.

Definition semanticIntentIsTakeover (intent : text) : bool :=
  let i := normalizeSemanticIntent intent in
  (i == SemanticIntentTakeover) || (i == SemanticIntentCorrection) || (i == SemanticIntentRequest)
  || (i == SemanticIntentQuestion) || (i == SemanticIntentContinue).

Definition normalizedBargeInTurnStage (preview : InputPreview) : TurnArbitrationStage :=
  match Stage (Arbitration preview) with
  | StageNone =>
      if CommitSuggested preview then TurnArbitrationStageAcceptNow
      else if TrimSpace (EndpointReason preview) != "" then TurnArbitrationStageAcceptCandidate
      else TurnArbitrationStagePreviewOnly
  | stage => stage
  end.

Definition bargeInSemanticReady (preview : InputPreview) (bestText stablePrefix : text)
    (decision : BargeInDecision) : bool :=
  let a := Arbitration preview in
  if TrimSpace bestText == "" then false
  else if SemanticReady a && f_leb semanticJudgeMediumConfidence (SemanticConfidence a) then true
  else if DraftAllowed a || AcceptCandidate a || AcceptNow a then true
  else if UtteranceComplete preview || bd_LexicallyComplete decision
          || bd_TakeoverLexicon decision || bd_SemanticTakeover decision then true
  else (stablePrefix != "")
       && (f_leb defaultPrewarmStableRatio (bd_Stability decision) || (4 <=? bd_StablePrefixRunes decision)).

(** [score += v] and [score -= v] under a condition. *)
Definition f_add_if (b : bool) (v score : float64) : float64 := if b then f_add score v else score.
Definition f_sub_if (b : bool) (v score : float64) : float64 := if b then f_sub score v else score.

Definition bargeInIntrusionScore (audioMs : Z) (cfg : BargeInConfig) (decision : BargeInDecision)
    (partialText stablePrefix : text) : float64 :=
  let gate := maxInt (bargeInAcousticGateMinAudioMs (bc_MinAudioMs cfg)) 1 in
  let score := f_add_if (0 <? audioMs)
                 (f_mul (f_lit 35 100) (clampUnit (f_div (f_of_Z audioMs) (f_of_Z gate)))) f_zero in
  let score := f_add_if ((partialText != "") || (stablePrefix != "")) (f_lit 15 100) score in
  let score := f_add_if (bd_AcousticReady decision) (f_lit 1 10) score in
  let score := f_add_if (bd_EndpointHinted decision) (f_lit 1 10) score in
  let score := f_add_if (bd_AcceptCandidate decision) (f_lit 1 10) score in
  let score := f_add_if (bd_AcceptNow decision) (f_lit 1 10) score in
  let score := f_add_if (4 <=? bd_StablePrefixRunes decision) (f_lit 5 100) score in
  let score := f_add_if (f_leb semanticJudgeMediumConfidence (bd_SemanticConfidence decision)) (f_lit 1 10) score in
  let score := f_sub_if (bd_BackchannelLikely decision) (f_lit 15 100) score in
  clampUnit score.

Definition bargeInTakeoverScore (decision : BargeInDecision) : float64 :=
  let score := f_add_if (bd_LexicallyComplete decision) (f_lit 3 10) f_zero in
  let score := f_add_if (bd_SemanticReady decision) (f_lit 2 10) score in
  let score := f_add_if (bd_AcceptCandidate decision) (f_lit 15 100) score in
  let score := f_add_if (bd_AcceptNow decision) (f_lit 2 10) score in
  let score := f_add_if (bd_TakeoverLexicon decision) (f_lit 2 10) score in
  let score := f_add_if (bd_SemanticTakeover decision) (f_lit 25 100) score in
  let score := f_add_if (bd_SemanticComplete decision) (f_lit 1 10) score in
  let score := f_add_if (bd_EndpointHinted decision) (f_lit 5 100) score in
  let score := f_sub_if (bd_BackchannelLikely decision) (f_lit 45 100) score in
  let score := f_add_if (f_leb defaultDraftStableRatio (bd_Stability decision)) (f_lit 1 10) score in
  clampUnit score.

#[global] Arguments bargeInIntrusionScore _ _ _ _ _ : simpl never.
#[global] Arguments bargeInTakeoverScore _ : simpl never.
#[global] Arguments bargeInSemanticReady _ _ _ _ : simpl never.
#[global] Arguments normalizedBargeInTurnStage _ : simpl never.
#[global] Arguments semanticIntentIsTakeover _ : simpl never.
#[global] Arguments bargeInAcousticGateMinAudioMs _ : simpl never.
#[global] Arguments bargeInBackchannelMinAudioMs _ : simpl never.

Definition bargeInAcceptReason (decision : BargeInDecision) : text :=
  if bd_TakeoverLexicon decision || bd_SemanticTakeover decision then "accepted_takeover_lexicon"
  else if bd_AcceptNow decision then "accepted_accept_now"
  else if bd_LexicallyComplete decision then "accepted_complete_preview"
  else "accepted_semantic_confirmation".

(** ** The evaluation *)

(** The facts, in the order the code fills them in; the readiness and the two
    scores read the decision as it stands when they are computed. *)
Definition bargeInFacts (preview : InputPreview) (audioMs : Z) (cfg : BargeInConfig)
    (decision : BargeInDecision) : BargeInDecision :=
  let a := Arbitration preview in
  let partialText := TrimSpace (PartialText preview) in
  let stablePrefix := TrimSpace (StablePrefix preview) in
  let bestText := firstNonEmpty [stablePrefix; partialText] in
  let stage := normalizedBargeInTurnStage preview in
  let endpointHinted := EndpointHinted a || (TrimSpace (EndpointReason preview) != "") in
  let intent := normalizeSemanticIntent (SemanticIntent a) in
  let confidence := clampUnit (SemanticConfidence a) in
  let decision := decision
    <|bd_TurnStage := stage|>
    <|bd_Stability := clampUnit (Stability a)|>
    <|bd_StablePrefixRunes := len stablePrefix|>
    <|bd_EndpointHinted := endpointHinted|>
    <|bd_AcceptCandidate := AcceptCandidate a || bool_decide (stage = TurnArbitrationStageAcceptCandidate)
        || bool_decide (stage = TurnArbitrationStageAcceptNow) || endpointHinted|>
    <|bd_AcceptNow := AcceptNow a || CommitSuggested preview || bool_decide (stage = TurnArbitrationStageAcceptNow)|>
    <|bd_SemanticReady := SemanticReady a|>
    <|bd_SemanticComplete := SemanticComplete a|>
    <|bd_SemanticIntent := intent|>
    <|bd_SemanticConfidence := confidence|>
    <|bd_SemanticTakeover := semanticIntentIsTakeover intent|>
    <|bd_BackchannelLikely := looksLikeBackchannel bestText
        || ((intent == SemanticIntentBackchannel) && f_leb semanticJudgeMediumConfidence confidence)|>
    <|bd_TakeoverLexicon := looksLikeTakeoverLexicon bestText|>
    <|bd_LexicallyComplete := looksLexicallyComplete bestText|>
    <|bd_AcousticReady := bargeInAcousticGateMinAudioMs (bc_MinAudioMs cfg) <=? audioMs|> in
  let decision := decision <|bd_SemanticReady := bargeInSemanticReady preview bestText stablePrefix decision|> in
  let decision := decision <|bd_IntrusionScore := bargeInIntrusionScore audioMs cfg decision partialText stablePrefix|> in
  decision <|bd_TakeoverScore := bargeInTakeoverScore decision|>.

(** A verdict: the policy, whether the interruption is accepted, the reason. *)
Definition hard_interrupt (reason : text) : InterruptionPolicy * bool * text :=
  (InterruptionPolicyHardInterrupt, true, reason).
Definition soft (policy : InterruptionPolicy) (reason : text) : InterruptionPolicy * bool * text :=
  (policy, false, reason).

Definition bargeInVerdict (d : BargeInDecision) (audioMs : Z) (cfg : BargeInConfig)
    (bestText partialText stablePrefix : text) : InterruptionPolicy * bool * text :=
  let low := negb (bd_AcceptCandidate d) && negb (bd_AcceptNow d) in
  if (bd_SemanticIntent d == SemanticIntentBackchannel)
     && f_leb semanticJudgeHighConfidence (bd_SemanticConfidence d) && low && negb (bd_TakeoverLexicon d)
  then soft InterruptionPolicyBackchannel "semantic_backchannel"
  else if bd_AcousticReady d && bd_SemanticTakeover d
          && f_leb semanticJudgeHighConfidence (bd_SemanticConfidence d)
  then hard_interrupt "accepted_semantic_takeover"
  else if bd_BackchannelLikely d && low && negb (bd_TakeoverLexicon d)
          && (bargeInBackchannelMinAudioMs (bc_MinAudioMs cfg) <=? audioMs)
  then soft InterruptionPolicyBackchannel "backchannel_short_ack"
  else if (bc_MinAudioMs cfg <=? audioMs) && negb (bd_BackchannelLikely d)
          && (bd_LexicallyComplete d || bd_TakeoverLexicon d || bd_SemanticTakeover d)
  then hard_interrupt (if bd_TakeoverLexicon d || bd_SemanticTakeover d
                       then "accepted_takeover_lexicon" else "accepted_complete_preview")
  else if bd_AcceptNow d
          && (bd_LexicallyComplete d || bd_SemanticReady d || bd_TakeoverLexicon d || bd_SemanticTakeover d)
  then hard_interrupt (bargeInAcceptReason d)
  else if bd_AcceptCandidate d && bd_SemanticReady d && negb (bd_BackchannelLikely d)
          && (bd_LexicallyComplete d || bd_TakeoverLexicon d || bd_SemanticTakeover d
              || f_leb (f_lit 68 100) (bd_TakeoverScore d))
  then hard_interrupt "accepted_accept_candidate"
  else if (i64 (bc_MinAudioMs cfg + bc_IncompleteHoldMs cfg) <=? audioMs)
          && ((bestText != "") || f_leb (f_lit 72 100) (bd_IntrusionScore d)) && negb (bd_BackchannelLikely d)
  then hard_interrupt "accepted_incomplete_after_hold"
  else if audioMs <? bc_MinAudioMs cfg then
    if (partialText != "") || (stablePrefix != "")
    then soft InterruptionPolicyDuckOnly "duck_pending_min_audio"
    else if bd_AcousticReady d then soft InterruptionPolicyDuckOnly "duck_pending_audio_only"
    else (bd_Policy d, false, txt "below_min_audio")
  else if bd_BackchannelLikely d && f_ltb (bd_TakeoverScore d) (f_lit 35 100) && low
  then soft InterruptionPolicyBackchannel "backchannel_short_ack"
  else if (partialText == "") && (stablePrefix == "")
  then soft InterruptionPolicyDuckOnly "duck_pending_audio_only"
  else if bd_SemanticReady d then soft InterruptionPolicyDuckOnly "duck_pending_semantic_confirmation"
  else soft InterruptionPolicyDuckOnly "duck_pending_incomplete_preview".

Definition EvaluateBargeIn (preview : InputPreview) (sampleRateHz channels : Z) (cfg : BargeInConfig) : BargeInDecision :=
  let cfg := NormalizeBargeInConfig cfg in
  let decision := zero_BargeInDecision
    <|bd_Policy := InterruptionPolicyIgnore|>
    <|bd_MinAudioMs := bc_MinAudioMs cfg|>
    <|bd_HoldAudioMs := bc_IncompleteHoldMs cfg|> in
  if negb (SpeechStarted preview) || (Preview_AudioBytes preview <=? 0)
  then decision <|bd_Reason := "no_speech_started"|>
  else if (sampleRateHz <=? 0) || (channels <=? 0)
  then decision <|bd_Reason := "invalid_audio_format"|>
  else
    let audioMs := pcm16AudioDurationMs (Preview_AudioBytes preview) sampleRateHz channels in
    let decision := bargeInFacts preview audioMs cfg (decision <|bd_AudioMs := audioMs|>) in
    let partialText := TrimSpace (PartialText preview) in
    let stablePrefix := TrimSpace (StablePrefix preview) in
    let '(policy, accepted, reason) :=
      bargeInVerdict decision audioMs cfg (firstNonEmpty [stablePrefix; partialText]) partialText stablePrefix in
    decision <|bd_Policy := policy|> <|bd_Accepted := accepted|> <|bd_Reason := reason|>.

(** ** The playback directive *)

(** [normalizeInterruptionPolicy] of session_orchestrator.go. *)
Definition normalizeInterruptionPolicy (policy : InterruptionPolicy) : InterruptionPolicy :=
  match policy with
  | InterruptionPolicyBackchannel | InterruptionPolicyDuckOnly | InterruptionPolicyHardInterrupt => policy
  | _ => InterruptionPolicyIgnore
  end.

Definition clampDirectiveDuration (value minValue maxValue : duration) : duration :=
  if value <? minValue then minValue
  else if (0 <? maxValue) && (maxValue <? value) then maxValue
  else value.

Definition recommendedDuckHold (decision : BargeInDecision) : duration :=
  let reason := TrimSpace (bd_Reason decision) in
  let remainingMs :=
    if reason == "duck_pending_min_audio" then maxInt (i64 (bd_MinAudioMs decision - bd_AudioMs decision)) 0
    else if reason == "duck_pending_audio_only" then maxInt (bd_HoldAudioMs decision) 0
    else maxInt (i64 (bd_MinAudioMs decision + bd_HoldAudioMs decision - bd_AudioMs decision)) 0 in
  let base := i64 (remainingMs * Millisecond + 80 * Millisecond) in
  clampDirectiveDuration base (180 * Millisecond) (720 * Millisecond).

Definition playbackDirectiveForDecision (decision : BargeInDecision) : PlaybackDirective :=
  let policy := normalizeInterruptionPolicy (bd_Policy decision) in
  let directive := mkPlaybackDirective PlaybackActionNormal policy (TrimSpace (bd_Reason decision))
                     f_one 0 0 0 false false in
  let default_reason (d : PlaybackDirective) :=
    if pd_Reason d == "" then d <|pd_Reason := action_text (pd_Action d)|> else d in
  match policy with
  | InterruptionPolicyBackchannel =>
      default_reason (directive
        <|pd_Action := PlaybackActionDuckLight|> <|pd_Gain := f_lit 72 100|>
        <|pd_Attack := 45 * Millisecond|>
        <|pd_Hold := clampDirectiveDuration
                       (i64 (maxInt (i64 (bd_AudioMs decision + 80)) 180 * Millisecond))
                       (180 * Millisecond) (420 * Millisecond)|>
        <|pd_Release := 180 * Millisecond|>
        <|pd_KeepPreview := true|> <|pd_KeepPendingAudio := true|>)
  | InterruptionPolicyDuckOnly =>
      default_reason (directive
        <|pd_Action := PlaybackActionDuckHold|> <|pd_Gain := f_lit 36 100|>
        <|pd_Attack := 30 * Millisecond|> <|pd_Hold := recommendedDuckHold decision|>
        <|pd_Release := 220 * Millisecond|>
        <|pd_KeepPreview := true|> <|pd_KeepPendingAudio := true|>)
  | InterruptionPolicyHardInterrupt =>
      default_reason (directive
        <|pd_Action := PlaybackActionInterrupt|> <|pd_Gain := f_zero|>
        <|pd_KeepPreview := true|> <|pd_KeepPendingAudio := true|>)
  | _ => if pd_Reason directive == "" then directive <|pd_Reason := "normal"|> else directive
  end.

Definition ShouldInterruptOutput (d : PlaybackDirective) : bool :=
  bool_decide (pd_Action d = PlaybackActionInterrupt).
Definition ShouldDuckOutput (d : PlaybackDirective) : bool :=
  bool_decide (pd_Action d = PlaybackActionDuckLight) || bool_decide (pd_Action d = PlaybackActionDuckHold).
Definition ShouldInterrupt (d : BargeInDecision) : bool := ShouldInterruptOutput (playbackDirectiveForDecision d).
Definition ShouldAcceptBargeIn (preview : InputPreview) (sampleRateHz channels : Z) (cfg : BargeInConfig) : bool :=
  bd_Accepted (EvaluateBargeIn preview sampleRateHz channels cfg).

(** ** Laws *)

#[global] Arguments bargeInFacts _ _ _ _ : simpl never.
#[global] Arguments pcm16AudioDurationMs _ _ _ : simpl never.

Definition preview_text (p : InputPreview) : text :=
  firstNonEmpty [TrimSpace (StablePrefix p); TrimSpace (PartialText p)].

(** Something other than the words says that the user's turn may be over. *)
Definition endpoint_open (p : InputPreview) : bool :=
  let a := Arbitration p in
  let stage := normalizedBargeInTurnStage p in
  AcceptCandidate a || AcceptNow a || CommitSuggested p || EndpointHinted a
  || (TrimSpace (EndpointReason p) != "")
  || bool_decide (stage = TurnArbitrationStageAcceptCandidate)
  || bool_decide (stage = TurnArbitrationStageAcceptNow).

(** The turn detector has already accepted the turn. *)
Definition accept_now (p : InputPreview) : bool :=
  AcceptNow (Arbitration p) || CommitSuggested p
  || bool_decide (normalizedBargeInTurnStage p = TurnArbitrationStageAcceptNow).

(** The facts the verdict turns on, read off the preview. *)
Record barge_facts (p : InputPreview) (audioMs : Z) (cfg : BargeInConfig) (d : BargeInDecision) : Prop := {
  bf_intent : bd_SemanticIntent d = normalizeSemanticIntent (SemanticIntent (Arbitration p));
  bf_confidence : bd_SemanticConfidence d = clampUnit (SemanticConfidence (Arbitration p));
  bf_takeover : bd_SemanticTakeover d = semanticIntentIsTakeover (bd_SemanticIntent d);
  bf_backchannel : bd_BackchannelLikely d = looksLikeBackchannel (preview_text p)
     || ((bd_SemanticIntent d == SemanticIntentBackchannel)
         && f_leb semanticJudgeMediumConfidence (bd_SemanticConfidence d));
  bf_lexicon : bd_TakeoverLexicon d = looksLikeTakeoverLexicon (preview_text p);
  bf_complete : bd_LexicallyComplete d = looksLexicallyComplete (preview_text p);
  bf_acoustic : bd_AcousticReady d = (bargeInAcousticGateMinAudioMs (bc_MinAudioMs cfg) <=? audioMs);
  bf_accept_now : bd_AcceptNow d = accept_now p;
  bf_endpoint : endpoint_open p = false -> bd_AcceptNow d = false /\ bd_AcceptCandidate d = false;
  bf_ready : bd_SemanticReady d = true -> TrimSpace (preview_text p) <> "";
  bf_stability : in_unit (bd_Stability d);
  bf_scores : in_unit (bd_IntrusionScore d) /\ in_unit (bd_TakeoverScore d)
}.

Lemma semantic_ready_text p b s d : bargeInSemanticReady p b s d = true -> TrimSpace b <> "".
Proof. unfold bargeInSemanticReady. destruct (TrimSpace b == "") eqn:E; [done|]. intros _. by text_prop. Qed.

Lemma intrusion_unit a c d p s : in_unit (bargeInIntrusionScore a c d p s).
Proof. unfold bargeInIntrusionScore. apply clamp_unit_in_unit. Qed.
Lemma takeover_unit d : in_unit (bargeInTakeoverScore d).
Proof. unfold bargeInTakeoverScore. apply clamp_unit_in_unit. Qed.
#[export] Hint Resolve intrusion_unit takeover_unit : go.

Lemma bargeInFacts_correct p audioMs cfg d : barge_facts p audioMs cfg (bargeInFacts p audioMs cfg d).
Proof.
  unfold bargeInFacts. cbv zeta.
  split; unfold preview_text; read_fields; auto with go; try reflexivity.
  - unfold endpoint_open. rewrite !orb_false_iff. tauto.
  - apply semantic_ready_text.
Qed.

Lemma bargeInFacts_frame p audioMs cfg d :
  let r := bargeInFacts p audioMs cfg d in
  bd_Policy r = bd_Policy d /\ bd_AudioMs r = bd_AudioMs d /\
  bd_MinAudioMs r = bd_MinAudioMs d /\ bd_HoldAudioMs r = bd_HoldAudioMs d.
Proof. unfold bargeInFacts. cbv zeta. read_fields. repeat split. Qed.

(** What every verdict satisfies: the interruption is accepted exactly under
    the hard policy, and a reason is given. *)
Definition wf_verdict (v : InterruptionPolicy * bool * text) : Prop :=
  (v.1.2 = true <-> v.1.1 = InterruptionPolicyHardInterrupt) /\
  normalizeInterruptionPolicy v.1.1 = v.1.1 /\ TrimSpace v.2 <> "".

Lemma wf_hard reason : TrimSpace reason <> "" -> wf_verdict (hard_interrupt reason).
Proof. by split. Qed.
Lemma wf_soft policy reason :
  policy = InterruptionPolicyBackchannel \/ policy = InterruptionPolicyDuckOnly ->
  TrimSpace reason <> "" -> wf_verdict (soft policy reason).
Proof. intros [-> | ->] Hr; by split. Qed.
#[export] Hint Resolve wf_hard wf_soft : go.

Lemma accept_reason_nonblank d : TrimSpace (bargeInAcceptReason d) <> "".
Proof. unfold bargeInAcceptReason. by repeat split_if. Qed.
#[export] Hint Resolve accept_reason_nonblank : go.

Lemma verdict_wf d audioMs cfg best partial stable :
  bd_Policy d = InterruptionPolicyIgnore -> wf_verdict (bargeInVerdict d audioMs cfg best partial stable).
Proof.
  intros Hp. unfold bargeInVerdict. cbv zeta. rewrite Hp.
  repeat (split_if; [solve [apply wf_hard; first [apply accept_reason_nonblank | done | by split_if]
                           | apply wf_soft; [by (left + right) | done]
                           | repeat split_if; first [apply wf_soft; [by (left + right) | done] | by split]]|]);
  apply wf_soft; [by right | done].
Qed.

Lemma normalize_barge_config_pos cfg :
  0 < bc_MinAudioMs (NormalizeBargeInConfig cfg) /\ 0 < bc_IncompleteHoldMs (NormalizeBargeInConfig cfg).
Proof.
  unfold NormalizeBargeInConfig, defaultBargeInMinAudioMs, defaultBargeInIncompleteHoldMs. cbn.
  split; split_if; bool_prop; lia.
Qed.

Lemma acoustic_gate_range m : 0 < m -> m <= max_int64 ->
  Z.min m 60 <= bargeInAcousticGateMinAudioMs m <= m.
Proof.
  intros Hm Hx. unfold bargeInAcousticGateMinAudioMs.
  rewrite idiv_floor by lia. pose proof (Z.div_mod m 2 ltac:(lia)). pose proof (Z.mod_pos_bound m 2 ltac:(lia)).
  repeat split_if; bool_prop; lia.
Qed.

(** The evaluation of a preview that carries speech in a valid format. *)
Definition gradable (p : InputPreview) (rate chans : Z) : Prop :=
  SpeechStarted p = true /\ 0 < Preview_AudioBytes p /\ 0 < rate /\ 0 < chans.

Lemma EvaluateBargeIn_gradable p rate chans cfg :
  gradable p rate chans ->
  exists d v,
    let c := NormalizeBargeInConfig cfg in
    let audioMs := pcm16AudioDurationMs (Preview_AudioBytes p) rate chans in
    barge_facts p audioMs c d /\ bd_Policy d = InterruptionPolicyIgnore /\
    v = bargeInVerdict d audioMs c (preview_text p) (TrimSpace (PartialText p)) (TrimSpace (StablePrefix p)) /\
    EvaluateBargeIn p rate chans cfg
      = d <|bd_Policy := v.1.1|> <|bd_Accepted := v.1.2|> <|bd_Reason := v.2|>.
Proof.
  intros (Hs & Hb & Hr & Hc).
  set (audioMs := pcm16AudioDurationMs (Preview_AudioBytes p) rate chans).
  set (c := NormalizeBargeInConfig cfg).
  exists (bargeInFacts p audioMs c (zero_BargeInDecision
     <|bd_Policy := InterruptionPolicyIgnore|> <|bd_MinAudioMs := bc_MinAudioMs c|>
     <|bd_HoldAudioMs := bc_IncompleteHoldMs c|> <|bd_AudioMs := audioMs|>)).
  eexists. cbv zeta. split; [apply bargeInFacts_correct|].
  split; [rewrite (proj1 (bargeInFacts_frame _ _ _ _)); by read_fields|].
  split; [reflexivity|]. unfold EvaluateBargeIn. rewrite Hs.
  assert ((Preview_AudioBytes p <=? 0) = false) as -> by lia.
  assert ((rate <=? 0) || (chans <=? 0) = false) as -> by lia. cbn [negb orb].
  cbv zeta. unfold preview_text. fold c audioMs. by destruct (bargeInVerdict _ _ _ _ _ _) as [[pol acc] rsn].
Qed.

Lemma EvaluateBargeIn_ungradable p rate chans cfg :
  ~ gradable p rate chans ->
  let d := EvaluateBargeIn p rate chans cfg in
  bd_Accepted d = false /\ bd_Policy d = InterruptionPolicyIgnore /\ TrimSpace (bd_Reason d) <> "".
Proof.
  intros Hg. unfold EvaluateBargeIn. destruct (negb (SpeechStarted p) || _) eqn:E1; [by read_fields|].
  destruct ((rate <=? 0) || _) eqn:E2; [by read_fields|]. exfalso. apply Hg. bool_prop. by repeat split.
Qed.

Lemma gradable_dec p rate chans : gradable p rate chans \/ ~ gradable p rate chans.
Proof. unfold gradable. destruct (SpeechStarted p); [|by right; intros [? _]]. destruct (decide (0 < Preview_AudioBytes p /\ 0 < rate /\ 0 < chans)); tauto. Qed.

Lemma directive_interrupts d :
  ShouldInterrupt d = bool_decide (bd_Policy d = InterruptionPolicyHardInterrupt).
Proof.
  unfold ShouldInterrupt, playbackDirectiveForDecision, ShouldInterruptOutput.
  destruct (bd_Policy d); cbn [normalizeInterruptionPolicy]; cbv zeta; split_if; read_fields; reflexivity.
Qed.

(** Decision and effect agree. Whatever the preview, format and
    configuration, the verdict is one of the four policies with a reason; the
    barge-in is accepted exactly under the hard policy, which is exactly when
    the directive interrupts the output; and a preview without speech, or in
    an invalid format, is ignored. *)
Theorem barge_in_verdict_consistent p rate chans cfg :
  let d := EvaluateBargeIn p rate chans cfg in
  (bd_Accepted d = true <-> bd_Policy d = InterruptionPolicyHardInterrupt) /\
  (bd_Accepted d = true <-> ShouldInterrupt d = true) /\
  normalizeInterruptionPolicy (bd_Policy d) = bd_Policy d /\ TrimSpace (bd_Reason d) <> "" /\
  (~ gradable p rate chans -> bd_Policy d = InterruptionPolicyIgnore).
Proof.
  intros d. assert (Hw : wf_verdict (bd_Policy d, bd_Accepted d, bd_Reason d)).
  { subst d. destruct (gradable_dec p rate chans) as [Hg|Hg].
    - destruct (EvaluateBargeIn_gradable p rate chans cfg Hg) as (f & v & _ & Hp & Hv & ->).
      read_fields. rewrite <- !surjective_pairing, Hv. by apply verdict_wf.
    - destruct (EvaluateBargeIn_ungradable p rate chans cfg Hg) as (-> & -> & Hr). by split. }
  destruct Hw as (Ha & Hp & Hr). cbn [fst snd] in *.
  rewrite directive_interrupts, bool_decide_eq_true. repeat split; try tauto.
  intros Hg. by apply EvaluateBargeIn_ungradable.
Qed.

Lemma f_blank_text : looksLexicallyComplete "" = false /\ looksLikeTakeoverLexicon "" = false /\
  looksLikeBackchannel "" = false.
Proof. by vm_compute. Qed.

(** Sound alone does not interrupt. A barge-in with no recognized text is
    accepted only on a semantic takeover intent or once the audio has lasted
    the minimum plus the hold with an intrusion score of at least 0.72. *)
Theorem barge_in_needs_evidence p rate chans cfg :
  let d := EvaluateBargeIn p rate chans cfg in
  let c := NormalizeBargeInConfig cfg in
  preview_text p = "" -> bd_Accepted d = true ->
  semanticIntentIsTakeover (normalizeSemanticIntent (SemanticIntent (Arbitration p))) = true \/
  (i64 (bc_MinAudioMs c + bc_IncompleteHoldMs c)
     <= pcm16AudioDurationMs (Preview_AudioBytes p) rate chans /\
   f_leb (f_lit 72 100) (bd_IntrusionScore d) = true).
Proof.
  intros d c Ht Ha. subst d.
  destruct (gradable_dec p rate chans) as [Hg|Hg];
    [|destruct (EvaluateBargeIn_ungradable p rate chans cfg Hg) as [H _]; congruence].
  destruct (EvaluateBargeIn_gradable p rate chans cfg Hg) as (f & v & Hf & Hp & Hv & Hd).
  fold c in Hf, Hv. rewrite Hd in Ha |- *. read_fields_in Ha. read_fields. subst v.
  destruct Hf as [Hi Hc Htk _ Hlx Hcm _ _ _ Hrd _ _]. rewrite Ht in *. rewrite Hi in Htk.
  assert (bd_SemanticReady f = false) as Hr.
  { destruct (bd_SemanticReady f) eqn:E; [|done]. by destruct (Hrd eq_refl). }
  destruct f_blank_text as (Hb1 & Hb2 & _). rewrite Hb1 in Hcm. rewrite Hb2 in Hlx.
  destruct (semanticIntentIsTakeover (normalizeSemanticIntent (SemanticIntent (Arbitration p)))); [by left|right].
  revert Ha. unfold bargeInVerdict, soft, hard_interrupt. cbv zeta. rewrite Hlx, Hcm, Htk, Hr, !andb_false_r, !text_eqb_refl.
  cbn [andb orb negb]. repeat (split_if; cbn [fst snd]; try discriminate).
  intros _. bool_prop. by split.
Qed.

(** When a verdict on acknowledging words is to interrupt. *)
Lemma acknowledgement_verdict f audioMs cfg best partial stable :
  bd_BackchannelLikely f = true -> bd_TakeoverLexicon f = false ->
  (bd_SemanticIntent f = SemanticIntentBackchannel -> bd_SemanticTakeover f = false) ->
  (bargeInVerdict f audioMs cfg best partial stable).1.2 = true <->
  (bd_AcousticReady f && bd_SemanticTakeover f && f_leb semanticJudgeHighConfidence (bd_SemanticConfidence f))
  || (bd_AcceptNow f && (bd_LexicallyComplete f || bd_SemanticReady f || bd_SemanticTakeover f)) = true.
Proof.
  intros Hbk Hlx Hx. unfold bargeInVerdict, soft, hard_interrupt. cbv zeta. rewrite Hbk, Hlx. cbn [negb].
  rewrite !andb_false_r, !orb_false_r. cbn [andb].
  assert (Hx' : bd_SemanticTakeover f = true -> (bd_SemanticIntent f == SemanticIntentBackchannel) = false).
  { intros E. apply text_eqb_false. intros E'. rewrite (Hx E') in E. discriminate E. }
  destruct (bd_SemanticTakeover f); [rewrite Hx' by done|]; destruct (f_leb _ _), (bd_AcousticReady f), (bd_AcceptNow f), (bd_LexicallyComplete f), (bd_SemanticReady f);
    rewrite ?andb_false_r; cbn [andb orb negb];
    repeat match goal with |- context [if ?b then _ else _] => destruct b end; cbn [fst snd orb]; tauto.
Qed.

(** C35. An acknowledgement does not interrupt by itself. When the words of a
    preview read as a backchannel and hold no takeover phrase, the output is
    interrupted in exactly two cases, however long the audio lasts: a takeover
    intent held with high confidence once the acoustic gate is passed, or a turn
    the turn detector has already accepted whose words are complete, ready or of a
    takeover intent. While the detector sees no end of the turn and the judge is
    not so sure, an acknowledgement that has lasted half the minimum (at least 60
    ms) is a backchannel, be it lexically complete: the output is ducked, not
    interrupted. *)
Theorem acknowledgement_interrupts_only_when_accepted p rate chans cfg :
  gradable p rate chans -> looksLikeBackchannel (preview_text p) = true ->
  looksLikeTakeoverLexicon (preview_text p) = false ->
  let d := EvaluateBargeIn p rate chans cfg in
  let c := NormalizeBargeInConfig cfg in
  let audioMs := pcm16AudioDurationMs (Preview_AudioBytes p) rate chans in
  let takeover := semanticIntentIsTakeover (normalizeSemanticIntent (SemanticIntent (Arbitration p))) in
  let sure := (bargeInAcousticGateMinAudioMs (bc_MinAudioMs c) <=? audioMs) && takeover
              && f_leb semanticJudgeHighConfidence (clampUnit (SemanticConfidence (Arbitration p))) in
  let over := accept_now p && (looksLexicallyComplete (preview_text p) || bd_SemanticReady d || takeover) in
  (ShouldInterrupt d = true <-> sure || over = true) /\
  (endpoint_open p = false -> sure = false -> bargeInBackchannelMinAudioMs (bc_MinAudioMs c) <= audioMs ->
   bd_Policy d = InterruptionPolicyBackchannel /\ ShouldDuckOutput (playbackDirectiveForDecision d) = true).
Proof.
  intros Hg Hb Hl. cbv zeta. destruct (EvaluateBargeIn_gradable p rate chans cfg Hg) as (f & v & Hf & Hp & Hv & Hd).
  rewrite directive_interrupts, bool_decide_eq_true, Hd. read_fields.
  pose proof (verdict_wf f (pcm16AudioDurationMs (Preview_AudioBytes p) rate chans) (NormalizeBargeInConfig cfg) (preview_text p)
    (TrimSpace (PartialText p)) (TrimSpace (StablePrefix p)) Hp) as (Hw & _ & _). rewrite <- Hv in Hw. rewrite <- Hw. clear Hw Hd.
  destruct Hf as [Hi Hc Htk Hbk Hlx Hcm Hac Han Hen _ _ _].
  rewrite Hi in Htk. rewrite Hb in Hbk. rewrite Hl in Hlx. cbn [orb] in Hbk.
  rewrite <- Hac, <- Htk, <- Hc, <- Han, <- Hcm. split.
  - subst v. apply acknowledgement_verdict; [done|done|]. rewrite Htk, <- Hi. intros E. rewrite E. by vm_compute.
  - intros He Hs Ha. destruct (Hen He) as [Hn Hcd].
    assert (Hpol : v.1.1 = InterruptionPolicyBackchannel).
    { subst v. unfold bargeInVerdict, soft, hard_interrupt. cbv zeta. rewrite Hs, Hbk, Hlx, Hn, Hcd. cbn [negb andb].
      apply Z.leb_le in Ha. rewrite Ha. by split_if. }
    split; [exact Hpol|]. unfold ShouldDuckOutput, playbackDirectiveForDecision. read_fields. rewrite Hpol. cbn [normalizeInterruptionPolicy]. cbv zeta. split_if; by read_fields.
Qed.

(** Words that read as a backchannel, a takeover phrase among them, never interrupt
    while the detector sees no end of the turn and no takeover intent is held with
    high confidence. *)
Lemma backchannel_never_interrupts p rate chans cfg :
  looksLikeBackchannel (preview_text p) = true -> endpoint_open p = false ->
  (semanticIntentIsTakeover (normalizeSemanticIntent (SemanticIntent (Arbitration p))) = false \/
   f_leb semanticJudgeHighConfidence (clampUnit (SemanticConfidence (Arbitration p))) = false) ->
  bd_Accepted (EvaluateBargeIn p rate chans cfg) = false.
Proof.
  intros Hb He Hs. destruct (gradable_dec p rate chans) as [Hg|Hg];
    [|by destruct (EvaluateBargeIn_ungradable p rate chans cfg Hg) as [H _]].
  destruct (EvaluateBargeIn_gradable p rate chans cfg Hg) as (f & v & Hf & Hp & Hv & ->).
  read_fields. subst v. destruct Hf as [Hi Hc Htk Hbk _ _ _ _ Hen _ _ _].
  destruct (Hen He) as [Hn Hcd]. rewrite Hi in Htk. rewrite Hb in Hbk. cbn [orb] in Hbk.
  unfold bargeInVerdict, soft, hard_interrupt. cbv zeta. rewrite Hbk, Hn, Hcd, Htk, Hc.
  assert (bd_AcousticReady f && semanticIntentIsTakeover (normalizeSemanticIntent (SemanticIntent (Arbitration p)))
     && f_leb semanticJudgeHighConfidence (clampUnit (SemanticConfidence (Arbitration p))) = false) as ->
    by (destruct Hs as [-> | ->]; by rewrite ?andb_false_r).
  cbn [andb negb]. rewrite !andb_false_r. cbn [andb].
  repeat (split_if; cbn [fst snd]; try reflexivity).
Qed.

(** Two phrases of the takeover lexicon, 等等 and 停停 (wait, stop), are two equal runes, and
    so read as a backchannel: said for however long, they do not interrupt. *)
Definition repeated_takeovers : list text := texts ["等等"; "停停"].

Theorem repeated_takeover_does_not_interrupt p rate chans cfg :
  preview_text p ∈ repeated_takeovers ->
  endpoint_open p = false -> semanticIntentIsTakeover (normalizeSemanticIntent (SemanticIntent (Arbitration p))) = false ->
  looksLikeTakeoverLexicon (preview_text p) = true /\ bd_Accepted (EvaluateBargeIn p rate chans cfg) = false.
Proof.
  intros Ht He Hs.
  assert (H : looksLikeTakeoverLexicon (preview_text p) = true /\ looksLikeBackchannel (preview_text p) = true)
    by (revert Ht; unfold repeated_takeovers, texts; cbn [map]; rewrite !elem_of_cons; intros [-> | [-> | [] % elem_of_nil]]; by vm_compute).
  split; [apply H|]. apply backchannel_never_interrupts; [apply H|done|by left].
Qed.

(** A user who keeps talking is let through: recognized words that are
    not a backchannel, over audio that lasts the minimum plus the hold (360
    ms by default), always interrupt the output. *)
Theorem sustained_speech_interrupts p rate chans cfg :
  gradable p rate chans -> TrimSpace (preview_text p) <> "" ->
  looksLikeBackchannel (preview_text p) = false ->
  normalizeSemanticIntent (SemanticIntent (Arbitration p)) <> SemanticIntentBackchannel ->
  let c := NormalizeBargeInConfig cfg in
  bc_MinAudioMs c + bc_IncompleteHoldMs c <= max_int64 ->
  bc_MinAudioMs c + bc_IncompleteHoldMs c <= pcm16AudioDurationMs (Preview_AudioBytes p) rate chans ->
  bd_Accepted (EvaluateBargeIn p rate chans cfg) = true.
Proof.
  intros Hg Ht Hb Hi c Hov Hau.
  destruct (EvaluateBargeIn_gradable p rate chans cfg Hg) as (f & v & Hf & Hp & Hv & ->).
  fold c in Hf, Hv. read_fields. subst v. destruct Hf as [Hint _ _ Hbk _ _ _ _ _ _ _ _].
  apply text_eqb_false in Hi. rewrite Hint in Hbk. rewrite Hb, Hi in Hbk. cbn [orb andb] in Hbk.
  assert (Hne : (preview_text p != "") = true).
  { apply negb_true_iff, text_eqb_false. intros E. by rewrite E in Ht. }
  destruct (normalize_barge_config_pos cfg) as [Hm Hh]. fold c in Hm, Hh.
  assert (Hin : i64 (bc_MinAudioMs c + bc_IncompleteHoldMs c) = bc_MinAudioMs c + bc_IncompleteHoldMs c)
    by (apply i64_id; revert Hov Hm Hh; i64_lia).
  unfold bargeInVerdict, soft, hard_interrupt. cbv zeta. rewrite Hbk, Hint, Hi, Hin, Hne. cbn [andb negb orb].
  apply Z.leb_le in Hau. rewrite Hau. cbn [andb].
  repeat (split_if; cbn [fst snd]; try reflexivity).
Qed.

Lemma clampDirective_range v lo hi : lo <= hi -> 0 < hi -> lo <= clampDirectiveDuration v lo hi <= hi.
Proof.
  intros H Hh. unfold clampDirectiveDuration.
  destruct (v <? lo) eqn:E1; bool_prop; [lia|].
  destruct (0 <? hi) eqn:E2; bool_prop; [|lia]. cbn [andb]. destruct (hi <? v) eqn:E3; bool_prop; lia.
Qed.

(** The directive. For any decision - one with absurd counters and an
    unknown policy included - ducking and interrupting exclude each other,
    a ducked output keeps a gain strictly between 0 and 1 and is held 180 to
    420 ms for a backchannel and 180 to 720 ms for a pending interruption
    (products that wrap around 64 bits included), the user's audio and
    preview are kept whenever the output is touched, the reason is never
    empty, and an unknown policy leaves the output alone. *)
Theorem playback_directive_spec d :
  let r := playbackDirectiveForDecision d in
  (ShouldInterruptOutput r = true -> ShouldDuckOutput r = false /\ pd_Gain r = f_zero) /\
  (ShouldDuckOutput r = true ->
     f_ltb f_zero (pd_Gain r) = true /\ f_ltb (pd_Gain r) f_one = true /\
     180 * Millisecond <= pd_Hold r <= 720 * Millisecond /\
     (pd_Action r = PlaybackActionDuckLight -> pd_Hold r <= 420 * Millisecond)) /\
  (pd_Action r <> PlaybackActionNormal -> pd_KeepPreview r = true /\ pd_KeepPendingAudio r = true) /\
  (pd_Action r = PlaybackActionNormal <-> pd_Policy r = InterruptionPolicyIgnore) /\
  pd_Policy r = normalizeInterruptionPolicy (bd_Policy d) /\
  (pd_Action r = PlaybackActionNormal -> pd_Gain r = f_one /\ pd_Hold r = 0) /\
  pd_Reason r <> "".
Proof.
  assert (HM : Millisecond = 1000000) by reflexivity.
  assert (Hl := clampDirective_range (i64 (maxInt (i64 (bd_AudioMs d + 80)) 180 * Millisecond))
                  (180 * Millisecond) (420 * Millisecond) ltac:(lia) ltac:(lia)).
  assert (Hh : 180 * Millisecond <= recommendedDuckHold d <= 720 * Millisecond)
    by (apply clampDirective_range; lia).
  unfold playbackDirectiveForDecision, ShouldInterruptOutput, ShouldDuckOutput.
  destruct (bd_Policy d); cbn [normalizeInterruptionPolicy]; cbv zeta;
    split_if; read_fields; text_prop; cbn [pd_Action pd_Policy pd_Reason pd_Gain pd_Hold action_text];
    repeat split; intros; first [done | lia | discriminate | reflexivity].
Qed.

(** ** Concrete previews *)

Definition demo_preview (s : text) (audio_bytes : Z) : InputPreview :=
  zero_InputPreview <|PartialText := s|> <|Preview_AudioBytes := audio_bytes|> <|SpeechStarted := true|>.
Definition demo_barge_config : BargeInConfig := mkBargeInConfig 0 0.

Lemma barge_in_needs_evidence_witness :
  let p := (demo_preview "" 64000) <|Arbitration := zero_TurnArbitration <|AcceptNow := true|>
             <|EndpointHinted := true|> <|SemanticConfidence := f_lit 9 10|> |> in
  let d := EvaluateBargeIn p 16000 1 demo_barge_config in
  preview_text p = "" /\ bd_Accepted d = true /\
  (semanticIntentIsTakeover (normalizeSemanticIntent (SemanticIntent (Arbitration p))) = true \/
   (360 <= pcm16AudioDurationMs (Preview_AudioBytes p) 16000 1 /\
    f_leb (f_lit 72 100) (bd_IntrusionScore d) = true)).
Proof.
  intros p d. assert (Ht : preview_text p = "") by (by vm_compute).
  assert (Ha : bd_Accepted d = true) by (by vm_compute).
  split; [exact Ht|]. split; [exact Ha|].
  exact (barge_in_needs_evidence p 16000 1 demo_barge_config Ht Ha).
Defined.

Lemma acknowledgement_interrupts_only_when_accepted_witness :
  let p := demo_preview "好的" 640000 in
  let accepted := p <|CommitSuggested := true|> in
  bd_Policy (EvaluateBargeIn p 16000 1 demo_barge_config) = InterruptionPolicyBackchannel /\
  ShouldInterrupt (EvaluateBargeIn accepted 16000 1 demo_barge_config) = true.
Proof.
  intros p accepted. split.
  - destruct (acknowledgement_interrupts_only_when_accepted p 16000 1 demo_barge_config) as [_ H];
      [by vm_compute | by vm_compute | by vm_compute |]. apply H; by vm_compute.
  - destruct (acknowledgement_interrupts_only_when_accepted accepted 16000 1 demo_barge_config) as [H _];
      [by vm_compute | by vm_compute | by vm_compute |]. apply H. by vm_compute.
Defined.

Lemma repeated_takeover_does_not_interrupt_witness :
  bd_Accepted (EvaluateBargeIn (demo_preview "等等" 640000) 16000 1 demo_barge_config) = false.
Proof.
  apply (repeated_takeover_does_not_interrupt (demo_preview "等等" 640000) 16000 1 demo_barge_config);
    [left | by vm_compute | by vm_compute].
Defined.

Lemma sustained_speech_interrupts_witness :
  bd_Accepted (EvaluateBargeIn (demo_preview "I would like and" 12000) 16000 1 demo_barge_config) = true.
Proof.
  apply (sustained_speech_interrupts (demo_preview "I would like and" 12000) 16000 1 demo_barge_config);
    vm_compute; repeat split; discriminate.
Defined.
