(* ===== verification/Playback.v ===== *)
(** * Heard text (internal/voice/session_orchestrator.go, the pure part)

    What of a spoken answer the user has heard: the estimate from the played
    duration, the boundary it leaves, what was missed, how sure the runtime
    is, and which boundary a softly interrupted answer is resumed from. *)

From S2P Require Import Prelude GoText GoFloat Contracts BargeIn.

(** ** Data *)

Definition approxHeardRuneDuration : duration := 120 * Millisecond.

Inductive HeardTextSource :=
| HeardTextSourceUnknown | HeardTextSourceHeuristicBytes | HeardTextSourcePlaybackStarted
| HeardTextSourceSegmentMark | HeardTextSourcePlaybackCompleted
| HeardSourceOther (s : text).

Inductive HeardTextConfidence :=
| HeardTextConfidenceUnknown | HeardTextConfidenceLow | HeardTextConfidenceMedium | HeardTextConfidenceHigh.

Inductive HeardTextPrecisionTier :=
| HeardTextPrecisionTierUnknown | HeardTextPrecisionTierTier0 | HeardTextPrecisionTierTier1.

(** [HeardTextBoundary]; the zero value [""] of an unset field included. *)
Inductive HeardTextBoundary :=
| HeardTextBoundaryUnset | HeardTextBoundaryNone | HeardTextBoundaryPrefix | HeardTextBoundaryFull.

#[export] Instance HeardTextSource_eq_dec : EqDecision HeardTextSource.
Proof. solve_decision. Defined.
#[export] Instance HeardTextConfidence_eq_dec : EqDecision HeardTextConfidence.
Proof. solve_decision. Defined.
#[export] Instance HeardTextPrecisionTier_eq_dec : EqDecision HeardTextPrecisionTier.
Proof. solve_decision. Defined.
#[export] Instance HeardTextBoundary_eq_dec : EqDecision HeardTextBoundary.
Proof. solve_decision. Defined.

Definition source_text (s : HeardTextSource) : text :=
  match s with
  | HeardTextSourceUnknown => []
  | HeardTextSourceHeuristicBytes => "heuristic_bytes"
  | HeardTextSourcePlaybackStarted => "playback_started"
  | HeardTextSourceSegmentMark => "segment_mark"
  | HeardTextSourcePlaybackCompleted => "playback_completed"
  | HeardSourceOther s => s
  end.
Definition confidence_text (c : HeardTextConfidence) : text :=
  match c with
  | HeardTextConfidenceUnknown => []
  | HeardTextConfidenceLow => "low"
  | HeardTextConfidenceMedium => "medium"
  | HeardTextConfidenceHigh => "high"
  end.
Definition precision_text (p : HeardTextPrecisionTier) : text :=
  match p with
  | HeardTextPrecisionTierUnknown => []
  | HeardTextPrecisionTierTier0 => "tier0_heuristic"
  | HeardTextPrecisionTierTier1 => "tier1_segment_mark"
  end.
Definition boundary_text (b : HeardTextBoundary) : text :=
  match b with
  | HeardTextBoundaryUnset => []
  | HeardTextBoundaryNone => "none"
  | HeardTextBoundaryPrefix => "prefix"
  | HeardTextBoundaryFull => "full"
  end.
Definition policy_text (p : InterruptionPolicy) : text :=
  match p with
  | InterruptionPolicyIgnore => "ignore"
  | InterruptionPolicyBackchannel => "backchannel"
  | InterruptionPolicyDuckOnly => "duck_only"
  | InterruptionPolicyHardInterrupt => "hard_interrupt"
  | PolicyOther s => s
  end.

Definition normalizeHeardTextSource (source fallback : HeardTextSource) : HeardTextSource :=
  match source with
  | HeardTextSourceUnknown | HeardSourceOther _ => fallback
  | _ => source
  end.

Definition heardTextConfidenceForSource (source : HeardTextSource) : HeardTextConfidence :=
  match source with
  | HeardTextSourcePlaybackCompleted => HeardTextConfidenceHigh
  | HeardTextSourcePlaybackStarted | HeardTextSourceSegmentMark => HeardTextConfidenceMedium
  | HeardTextSourceHeuristicBytes => HeardTextConfidenceLow
  | _ => HeardTextConfidenceUnknown
  end.

Definition heardTextPrecisionTierForSource (source : HeardTextSource) : HeardTextPrecisionTier :=
  match source with
  | HeardTextSourcePlaybackStarted | HeardTextSourceSegmentMark | HeardTextSourcePlaybackCompleted =>
      HeardTextPrecisionTierTier1
  | HeardTextSourceHeuristicBytes => HeardTextPrecisionTierTier0
  | _ => HeardTextPrecisionTierUnknown
  end.

Definition softRecoverySourceRank (source : HeardTextSource) : Z :=
  match normalizeHeardTextSource source HeardTextSourceUnknown with
  | HeardTextSourceSegmentMark => 4
  | HeardTextSourcePlaybackCompleted => 3
  | HeardTextSourcePlaybackStarted => 2
  | HeardTextSourceHeuristicBytes => 1
  | _ => 0
  end.

Definition softRecoveryPolicyRank (policy : InterruptionPolicy) : Z :=
  match policy with
  | InterruptionPolicyDuckOnly => 2
  | InterruptionPolicyBackchannel => 1
  | _ => 0
  end.

(** ** The heard prefix *)

Definition heardTextForPlayback (s : text) (playedDuration plannedDuration : duration) : text :=
  let runes := TrimSpace s in
  if runes == "" then ""
  else if playedDuration <=? 0 then ""
  else
    let clip (count : Z) :=
      let count := if count <=? 0 then 1 else count in
      let count := if len runes <? count then len runes else count in
      take (Z.to_nat count) runes in
    if 0 <? plannedDuration then
      let ratio := f_div (f_of_Z playedDuration) (f_of_Z plannedDuration) in
      if f_leb f_one ratio then runes
      else clip (f_ceil_int (f_mul (f_of_Z (len runes)) ratio))
    else clip (idiv playedDuration approxHeardRuneDuration).

Definition heardTextBoundaryForTexts (deliveredText heardText : text) : HeardTextBoundary :=
  let delivered := TrimSpace deliveredText in
  let heard := TrimSpace heardText in
  if heard == "" then HeardTextBoundaryNone
  else if (delivered == "") || (heard == delivered) then HeardTextBoundaryFull
  else HeardTextBoundaryPrefix.

Definition heardRatioPercent (deliveredText heardText : text) : Z :=
  let delivered := TrimSpace deliveredText in
  let heard := TrimSpace heardText in
  if len delivered =? 0 then -1
  else if len heard =? 0 then 0
  else if len delivered <=? len heard then 100
  else f_round_int (f_div (f_mul (f_of_Z (len heard)) (f_of_Z 100)) (f_of_Z (len delivered))).

Definition resumeAnchorForTexts (deliveredText heardText : text) : text := TrimSpace heardText.

Definition missedTextForTexts (deliveredText heardText : text) : text :=
  let delivered := TrimSpace deliveredText in
  let heard := TrimSpace heardText in
  if (len delivered =? 0) || (len delivered <=? len heard) then ""
  else if len heard =? 0 then delivered
  else if take (length heard) delivered != heard then ""
  else TrimSpace (drop (length heard) delivered).

Definition hasExactHeardTextPrefix (deliveredText heardText : text) : bool :=
  let heard := TrimSpace heardText in
  let delivered := TrimSpace deliveredText in
  (heard != "") && (delivered != "") && HasPrefix delivered heard.

Definition maxDuration (a b : duration) : duration := if b <=? a then a else b.

#[global] Arguments heardTextForPlayback _ _ _ : simpl never.
#[global] Arguments heardTextBoundaryForTexts _ _ : simpl never.
#[global] Arguments heardRatioPercent _ _ : simpl never.
#[global] Arguments missedTextForTexts _ _ : simpl never.
#[global] Arguments hasExactHeardTextPrefix _ _ : simpl never.

(** ** Soft recovery boundaries *)

Record softRecoverySnapshot := mkSoftRecovery {
  sr_policy : InterruptionPolicy;
  sr_reason : text;
  sr_heardText : text;
  sr_heardTextBoundary : HeardTextBoundary;
  sr_heardSource : HeardTextSource;
  sr_heardConfidence : HeardTextConfidence;
  sr_heardPrecision : HeardTextPrecisionTier;
  sr_playedDuration : duration
}.

Definition usableSoftRecoveryBoundary (deliveredText : text) (snapshot : option softRecoverySnapshot) : bool :=
  match snapshot with
  | None => false
  | Some s =>
      let heard := TrimSpace (sr_heardText s) in
      let delivered := TrimSpace deliveredText in
      if (heard == "") || (delivered == "") then false
      else HasPrefix delivered heard && (heard != delivered)
  end.

Definition betterSoftRecoveryBoundary (deliveredText : text)
    (current candidate : option softRecoverySnapshot) : bool :=
  match candidate, current with
  | None, _ => false
  | Some _, None => usableSoftRecoveryBoundary deliveredText candidate
  | Some cand, Some cur =>
      if negb (usableSoftRecoveryBoundary deliveredText candidate) then false
      else if negb (usableSoftRecoveryBoundary deliveredText current) then true
      else
        let currentLen := len (TrimSpace (sr_heardText cur)) in
        let candidateLen := len (TrimSpace (sr_heardText cand)) in
        if currentLen <? candidateLen then true
        else if candidateLen <? currentLen then false
        else softRecoverySourceRank (sr_heardSource cur) <? softRecoverySourceRank (sr_heardSource cand)
  end.

Definition preferredSoftRecoveryBoundary (deliveredText : text)
    (softRecovery preCompletionBoundary : option softRecoverySnapshot) : option softRecoverySnapshot :=
  if betterSoftRecoveryBoundary deliveredText softRecovery preCompletionBoundary
  then preCompletionBoundary else softRecovery.

(** [shouldLimitCompletedPlaybackToSoftRecovery], of the two fields of the
    turn it reads. *)
Definition shouldLimitCompletedPlaybackToSoftRecovery (deliveredText : text) (plannedDuration : duration)
    (snapshot : softRecoverySnapshot) : bool :=
  let delivered := TrimSpace deliveredText in
  if delivered == "" then false else
  let missedTail := missedTextForTexts delivered (sr_heardText snapshot) in
  if missedTail == "" then false else
  let remainingDuration :=
    if (0 <? plannedDuration) && (sr_playedDuration snapshot <? plannedDuration)
    then i64 (plannedDuration - sr_playedDuration snapshot) else 0 in
  let remainingRunes := len missedTail in
  let ratio := heardRatioPercent delivered (sr_heardText snapshot) in
  let remainingRatio := 100 - (if ratio <? 0 then 0 else ratio) in
  match sr_policy snapshot with
  | InterruptionPolicyDuckOnly =>
      (2 <=? remainingRunes) || (12 <=? remainingRatio) || (260 * Millisecond <=? remainingDuration)
  | InterruptionPolicyBackchannel =>
      if 8 <=? remainingRunes then true
      else (4 <=? remainingRunes) && ((30 <=? remainingRatio) || (650 * Millisecond <=? remainingDuration))
  | _ => false
  end.

(** ** Laws *)

Lemma text_nonempty_len (s : text) : s <> "" -> 0 < len s.
Proof. apply len_pos. Qed.

Lemma clip_prefix (s : text) n : take n s `prefix_of` s.
Proof. apply take_prefix_of. Qed.

Lemma heard_prefix s played planned : heardTextForPlayback s played planned `prefix_of` TrimSpace s.
Proof.
  unfold heardTextForPlayback. cbv zeta.
  repeat (split_if; [first [apply prefix_nil | reflexivity | apply clip_prefix]|]);
    repeat split_if; first [apply prefix_nil | reflexivity | apply clip_prefix].
Qed.

Lemma heard_zero s planned played : played <= 0 -> heardTextForPlayback s played planned = "".
Proof.
  intros H. unfold heardTextForPlayback. cbv zeta. split_if; [done|].
  by assert ((played <=? 0) = true) as -> by lia.
Qed.

Lemma take_pos_nonempty (s : text) n : s <> "" -> 0 < n -> take (Z.to_nat n) s <> [].
Proof.
  intros Hs Hn E. apply (f_equal length) in E. rewrite length_take in E. cbn in E.
  apply len_pos in Hs. unfold len in Hs. lia.
Qed.

Lemma heard_positive s played planned :
  TrimSpace s <> "" -> 0 < played -> heardTextForPlayback s played planned <> "".
Proof.
  intros Hs Hp. pose proof (text_nonempty_len _ Hs) as Hl. apply text_eqb_false in Hs as Hs'.
  unfold heardTextForPlayback. cbv zeta. rewrite Hs'. assert ((played <=? 0) = false) as -> by lia.
  split_if; [split_if; [exact Hs|]|]; apply take_pos_nonempty; auto; repeat split_if; bool_prop; lia.
Qed.

Lemma clip_mono n a b :
  0 <= n -> a <= b ->
  let c x := if n <? (if x <=? 0 then 1 else x) then n else if x <=? 0 then 1 else x in
  0 <= c a /\ 0 <= c b /\ c a <= c b.
Proof.
  intros Hn Hab c. subst c. cbv beta.
  destruct (a <=? 0) eqn:Ea, (b <=? 0) eqn:Eb; repeat split_if; bool_prop; lia.
Qed.

(** The estimate. What counts as heard is always a prefix of what was to
    be delivered; it is empty exactly when nothing was delivered or nothing
    has played, so any played audio counts for at least one rune; without a
    planned duration it never shrinks as playback advances; and whoever asks
    about a played-out answer (a ratio of at least one) gets all of it. *)
Theorem heard_text_estimate s played planned :
  let heard := heardTextForPlayback s played planned in
  heard `prefix_of` TrimSpace s /\
  (heard = [] <-> TrimSpace s = [] \/ played <= 0) /\
  (forall later, planned <= 0 -> played <= later <= max_int64 ->
     heard `prefix_of` heardTextForPlayback s later planned) /\
  (0 < played -> 0 < planned -> f_leb f_one (f_div (f_of_Z played) (f_of_Z planned)) = true ->
     heard = TrimSpace s).
Proof.
  intros heard. subst heard. split; [apply heard_prefix|]. split; [|split].
  - split.
    + intros E. destruct (decide (TrimSpace s = [])) as [Hs|Hs]; [by left|].
      destruct (decide (played <= 0)) as [Hp|Hp]; [by right|].
      exfalso. revert E. apply heard_positive; [done|lia].
    + intros [Hs|Hp]; [|by apply heard_zero].
      unfold heardTextForPlayback. by rewrite Hs.
  - intros later Hpl Hle. destruct (decide (played <= 0)) as [Hp|Hp].
    { rewrite heard_zero by done. apply prefix_nil. }
    unfold heardTextForPlayback. cbv zeta. split_if; [done|].
    assert ((played <=? 0) = false) as -> by lia. assert ((later <=? 0) = false) as -> by lia.
    assert ((0 <? planned) = false) as -> by lia.
    assert (HA : 0 < approxHeardRuneDuration) by reflexivity.
    rewrite !idiv_floor by lia.
    pose proof (Z.div_le_mono played later approxHeardRuneDuration HA ltac:(lia)) as Hm.
    apply take_prefix_take, Z2Nat.inj_le; apply (clip_mono _ _ _ (len_nonneg (TrimSpace s)) Hm).
  - intros Hp Hpl Hr. unfold heardTextForPlayback. cbv zeta. rewrite Hr.
    assert ((played <=? 0) = false) as -> by lia. assert ((0 <? planned) = true) as -> by lia.
    split_if; [by text_prop | done].
Qed.

Lemma missed_cases delivered heard :
  TrimSpace delivered <> [] -> TrimSpace heard `prefix_of` TrimSpace delivered ->
  missedTextForTexts delivered heard
    = if decide (TrimSpace heard = TrimSpace delivered) then []
      else TrimSpace (drop (length (TrimSpace heard)) (TrimSpace delivered)).
Proof.
  intros Hd Hp. unfold missedTextForTexts. cbv zeta.
  set (D := TrimSpace delivered) in *. set (H := TrimSpace heard) in *.
  apply len_pos in Hd. assert ((len D =? 0) = false) as -> by lia. cbn [orb].
  destruct (decide (H = D)) as [->|Hne].
  { assert ((len D <=? len D) = true) as -> by lia. done. }
  assert (Hlt : len H < len D).
  { pose proof (prefix_length _ _ Hp). unfold len.
    destruct (decide (length H = length D)); [|lia].
    exfalso. apply Hne. apply prefix_of_same_length; [done|lia]. }
  assert ((len D <=? len H) = false) as -> by lia.
  destruct Hp as [k Hk]. destruct (len H =? 0) eqn:E0; bool_prop.
  { destruct H; [|rewrite len_cons in E0; pose proof (len_nonneg H); lia]. cbn.
    subst D. rewrite drop_0. by rewrite TrimSpace_idemp. }
  rewrite Hk at 1. rewrite take_app_length, text_eqb_refl. done.
Qed.

(** Heard and missed text partition the answer. When the heard text is a
    prefix of the delivered one, the two differ by heard text, white space
    and missed text in this order; nothing is missed exactly when the
    boundary is [full], and the boundary is [none] exactly when nothing was
    heard. A heard text that is not a prefix misses nothing and is still
    reported as a [prefix] boundary (or [full] over an empty answer). *)
Theorem heard_missed_partition delivered heard :
  let D := TrimSpace delivered in
  let H := TrimSpace heard in
  let missed := missedTextForTexts delivered heard in
  let boundary := heardTextBoundaryForTexts delivered heard in
  (boundary = HeardTextBoundaryNone <-> H = []) /\
  (boundary = HeardTextBoundaryFull <-> H <> [] /\ (D = [] \/ H = D)) /\
  (D <> [] -> H `prefix_of` D ->
     (exists gap, D = H ++ gap ++ missed /\ Forall (fun r => IsSpace r = true) gap) /\
     (missed = [] <-> boundary = HeardTextBoundaryFull)) /\
  (~ H `prefix_of` D -> missed = []) /\
  resumeAnchorForTexts delivered heard = H.
Proof.
  intros D H missed boundary.
  assert (Hb : boundary = if H == "" then HeardTextBoundaryNone
     else if (D == "") || (H == D) then HeardTextBoundaryFull else HeardTextBoundaryPrefix) by reflexivity.
  assert (HF : boundary = HeardTextBoundaryFull <-> H <> [] /\ (D = [] \/ H = D)).
  { rewrite Hb. destruct (H == "") eqn:E; text_prop; [by split; [|intros [? _]]|].
    destruct (D == "") eqn:E2; cbn [orb]; text_prop; [tauto|].
    destruct (H == D) eqn:E3; text_prop; [tauto|]. split; [done|]. intros [_ [?|?]]; contradiction. }
  split; [|split; [exact HF|split; [|split; [|done]]]].
  - rewrite Hb. destruct (H == "") eqn:E; text_prop; [done|]. split; [by repeat split_if|intros ?; contradiction].
  - intros Hd Hp. subst missed. pose proof (missed_cases delivered heard Hd Hp) as Hm.
    fold D H in Hm. rewrite HF, Hm. destruct (decide (H = D)) as [E|Hne].
    + split; [exists []; by rewrite E, !app_nil_r|]. rewrite E. tauto.
    + destruct Hp as [k Hk]. rewrite Hk, drop_app_length.
      assert (Hkn : k <> []) by (intros ->; apply Hne; by rewrite Hk, app_nil_r).
      destruct (trimmed_suffix H k) as (Hn & gap & Hg & Hs); [rewrite <- Hk; apply trimmed_TrimSpace|done|].
      split; [exists gap; by rewrite <- Hg|]. split; [contradiction|].
      intros [_ [E|E]]; rewrite <- Hk in E; contradiction.
  - intros Hnp. subst missed. unfold missedTextForTexts. fold D H. cbv zeta.
    destruct (len D =? 0) eqn:E0; [done|]. cbn [orb]. split_if; [done|].
    destruct (len H =? 0) eqn:E1; bool_prop.
    + exfalso. apply Hnp. destruct H; [apply prefix_nil|]. rewrite len_cons in E1. pose proof (len_nonneg H). lia.
    + destruct (take (length H) D == H) eqn:E2; [|done]. cbn [negb]. text_prop.
      exfalso. apply Hnp. rewrite <- E2 at 1. apply take_prefix_of.
Qed.

Definition snapshot_len (s : softRecoverySnapshot) : Z := len (TrimSpace (sr_heardText s)).

(** The boundary an answer is resumed from is the best evidence: it is
    one of the two candidates, usable (a proper non-empty prefix of the
    delivered text) as soon as one of them is, and no usable candidate heard
    more, nor, having heard as much, has a better source when it came last. *)
Theorem soft_recovery_prefers_evidence delivered soft pre :
  let chosen := preferredSoftRecoveryBoundary delivered soft pre in
  (chosen = soft \/ chosen = pre) /\
  (usableSoftRecoveryBoundary delivered soft || usableSoftRecoveryBoundary delivered pre
     = usableSoftRecoveryBoundary delivered chosen) /\
  (forall c s, (Some c = soft \/ Some c = pre) -> chosen = Some s ->
     usableSoftRecoveryBoundary delivered (Some c) = true -> snapshot_len c <= snapshot_len s) /\
  (forall c s, Some c = pre -> chosen = Some s -> usableSoftRecoveryBoundary delivered (Some c) = true ->
     snapshot_len c = snapshot_len s ->
     softRecoverySourceRank (sr_heardSource c) <= softRecoverySourceRank (sr_heardSource s)).
Proof.
  intros chosen. subst chosen. unfold preferredSoftRecoveryBoundary, betterSoftRecoveryBoundary, snapshot_len.
  destruct pre as [p|], soft as [q|].
  - destruct (usableSoftRecoveryBoundary delivered (Some p)) eqn:Ep; cbn [negb];
      destruct (usableSoftRecoveryBoundary delivered (Some q)) eqn:Eq; cbn [negb orb];
      destruct (len (TrimSpace (sr_heardText q)) <? len (TrimSpace (sr_heardText p))) eqn:E1;
      destruct (len (TrimSpace (sr_heardText p)) <? len (TrimSpace (sr_heardText q))) eqn:E2;
      destruct (softRecoverySourceRank (sr_heardSource q) <? softRecoverySourceRank (sr_heardSource p)) eqn:E3;
      bool_prop; (split; [by auto|split; [congruence|]]);
      (split; intros c s; [intros [Hc|Hc]|intros Hc]; intros Hs ?; simplify_eq; try congruence; lia).
  - change (usableSoftRecoveryBoundary delivered None) with false.
    destruct (usableSoftRecoveryBoundary delivered (Some p)) eqn:Ep; cbn [orb];
      (split; [by auto|split; [first [congruence|done]|]]);
      (split; intros c s; [intros [Hc|Hc]|intros Hc]; intros Hs ?; simplify_eq; try congruence; lia).
  - cbn. split; [by auto|]. rewrite orb_false_r. split; [done|].
    split; intros c s; [intros [Hc|Hc]|intros Hc]; intros Hs ?; simplify_eq; lia.
  - cbn. split; [by auto|]. split; [done|]. split; intros; done.
Qed.
