(* ===== verification/Memory.v ===== *)
(** * Conversation memory (internal/agent/runtime_backends.go, memory_context.go)

    [InMemoryMemoryStore] keeps, per scope (session, user, device, room,
    household), the last turns; a turn that is saved again replaces its
    record.  [MemoryStore] is the interface the orchestrator is written
    against: what it may rely on is [MemoryStoreLaws], which the in-memory
    store discharges.  A context keeps the summary sentence as the arguments of
    its format string; [Summary] is the sentence. *)

From S2P Require Import Prelude GoText GoUnicode Contracts.

(** ** Data (internal/agent/contracts.go) *)

Record MemoryRecord := mkMemoryRecord {
  mr_TurnID : text;
  mr_SessionID : text;
  mr_DeviceID : text;
  mr_ClientType : text;
  mr_UserID : text;
  mr_RoomID : text;
  mr_HouseholdID : text;
  mr_UserText : text;
  mr_ResponseText : text;
  mr_DeliveredText : text;
  mr_HeardText : text;
  mr_ResponseInterrupted : bool;
  mr_ResponseTruncated : bool;
  mr_PlaybackCompleted : bool;
  mr_Metadata : metadata
}.

#[export] Instance MemoryRecord_rebuild : Rebuild MemoryRecord := fun r =>
  mkMemoryRecord (mr_TurnID r) (mr_SessionID r) (mr_DeviceID r) (mr_ClientType r) (mr_UserID r)
    (mr_RoomID r) (mr_HouseholdID r) (mr_UserText r) (mr_ResponseText r) (mr_DeliveredText r)
    (mr_HeardText r) (mr_ResponseInterrupted r) (mr_ResponseTruncated r) (mr_PlaybackCompleted r)
    (mr_Metadata r).

Record MemoryQuery := mkMemoryQuery {
  mq_SessionID : text;
  mq_DeviceID : text;
  mq_ClientType : text;
  mq_UserID : text;
  mq_RoomID : text;
  mq_HouseholdID : text;
  mq_UserText : text;
  mq_Metadata : metadata
}.

Record MemoryFact := mkMemoryFact { mf_Key : text; mf_Value : text; mf_Source : text }.

(** A message of the conversation (internal/agent/llm.go). *)
Record ChatToolCall := mkChatToolCall { tc_ID : text; tc_Name : text; tc_Arguments : text }.

Record ChatMessage := mkChatMessage {
  cm_Role : text;
  cm_Content : text;
  cm_ToolCallID : text;
  cm_ToolCalls : list ChatToolCall
}.

(** A literal [ChatMessage{Role: ..., Content: ...}]. *)
Definition role_message (role content : text) : ChatMessage := mkChatMessage role content [] [].

(** The arguments of the summary sentence, and the sentence. *)
Record summary_args := mkSummary {
  sum_turns : Z;
  sum_label : text;
  sum_user : text;
  sum_heard : text
}.

Definition summary_text (a : summary_args) : text :=
  txt "remembered " ++ Itoa (sum_turns a) ++ txt " turn(s) for " ++ sum_label a ++
  txt ". most recent user text: " ++ Quote (sum_user a) ++
  txt ". most recent heard response: " ++ Quote (sum_heard a) ++ txt ".".

Record MemoryContext := mkMemoryContext {
  mc_Scope : text;
  mc_Summary : option summary_args;
  mc_Facts : list MemoryFact;
  mc_RecentMessages : list ChatMessage
}.

Record AudioInput := mkAudioInput {
  ai_Present : bool;
  ai_Frames : Z;
  ai_Bytes : Z;
  ai_Codec : text;
  ai_SampleRateHz : Z;
  ai_Channels : Z
}.

Record ImageInput := mkImage { im_Name : text; im_URL : text; im_MIME : text }.

Record TurnInput := mkTurnInput {
  ti_SessionID : text;
  ti_TurnID : text;
  ti_TraceID : text;
  ti_DeviceID : text;
  ti_ClientType : text;
  ti_UserText : text;
  ti_Audio : AudioInput;
  ti_Images : list ImageInput;
  ti_Metadata : metadata
}.

(** ** Queries and records (memory_context.go) *)

Definition metadata_get (m : metadata) (key : text) : text := default [] (m !! key).

Fixpoint memoryMetadataValue (m : metadata) (keys : list text) : text :=
  match keys with
  | [] => []
  | key :: keys =>
      let value := TrimSpace (metadata_get m key) in
      if value != "" then value else memoryMetadataValue m keys
  end.

Definition user_keys : list text := texts ["memory.user_id"; "user_id"; "user.id"].
Definition room_keys : list text := texts ["memory.room_id"; "room_id"; "room.id"].
Definition household_keys : list text := texts ["memory.household_id"; "household_id"; "household.id"].

Definition buildMemoryQuery (input : TurnInput) (trimmedText : text) (m : metadata) : MemoryQuery :=
  mkMemoryQuery (ti_SessionID input) (ti_DeviceID input) (ti_ClientType input)
    (memoryMetadataValue m user_keys) (memoryMetadataValue m room_keys)
    (memoryMetadataValue m household_keys) trimmedText m.

Definition buildMemoryRecord (input : TurnInput) (trimmedText responseText : text) (m : metadata) : MemoryRecord :=
  mkMemoryRecord (ti_TurnID input) (ti_SessionID input) (ti_DeviceID input) (ti_ClientType input)
    (memoryMetadataValue m user_keys) (memoryMetadataValue m room_keys)
    (memoryMetadataValue m household_keys) trimmedText responseText "" "" false false false m.

(** ** Scopes *)

Record memoryScope := mkScope {
  Scope_Kind : text;
  Scope_ID : text;
  Scope_Key : text;
  Scope_Label : text
}.

Definition appendScope (kind id : text) (scopes : list memoryScope) : list memoryScope :=
  let trimmed := TrimSpace id in
  if trimmed == "" then scopes
  else scopes ++ [mkScope kind trimmed (kind ++ txt ":" ++ trimmed) (kind ++ txt " " ++ trimmed)].

Definition dedupeMemoryScopes (scopes : list memoryScope) : list memoryScope :=
  if len scopes <=? 1 then scopes
  else (fold_left (fun acc scope =>
          if existsb (text_eqb (Scope_Key scope)) acc.1 then acc
          else (Scope_Key scope :: acc.1, acc.2 ++ [scope])) scopes ([], [])).2.

Definition memoryScopes (sessionID deviceID userID roomID householdID : text) : list memoryScope :=
  let scopes := appendScope "session" sessionID [] in
  let scopes := appendScope "user" userID scopes in
  let scopes := appendScope "device" deviceID scopes in
  let scopes := appendScope "room" roomID scopes in
  let scopes := appendScope "household" householdID scopes in
  dedupeMemoryScopes scopes.

Definition memoryQueryScopes (q : MemoryQuery) : list memoryScope :=
  memoryScopes (mq_SessionID q) (mq_DeviceID q) (mq_UserID q) (mq_RoomID q) (mq_HouseholdID q).

Definition memoryRecordScopes (r : MemoryRecord) : list memoryScope :=
  memoryScopes (mr_SessionID r) (mr_DeviceID r) (mr_UserID r) (mr_RoomID r) (mr_HouseholdID r).

(** ** The store *)

Record InMemoryMemoryStore := mkStore {
  maxTurns : Z;
  recentTurnSpan : Z;
  recordsByScope : gmap text (list MemoryRecord)
}.

Definition NewInMemoryMemoryStore (max : Z) : InMemoryMemoryStore :=
  let max := if max <=? 0 then 8 else max in
  let span := if max <? 4 then max else 4 in
  mkStore max span ∅.

Definition records_of (s : InMemoryMemoryStore) (key : text) : list MemoryRecord :=
  default [] (recordsByScope s !! key).

(** [cloneMemoryRecord] copies the metadata map; maps are values here. *)
Definition cloneMemoryRecord (r : MemoryRecord) : MemoryRecord := r.

(** The loop that overwrites the first record of the same turn. *)
Fixpoint replace_turn (r : MemoryRecord) (existing : list MemoryRecord) : list MemoryRecord * bool :=
  match existing with
  | [] => ([], false)
  | e :: existing =>
      if mr_TurnID e == mr_TurnID r then (r :: existing, true)
      else let '(existing, updated) := replace_turn r existing in (e :: existing, updated)
  end.

Definition save_in_scope (max : Z) (r : MemoryRecord) (existing : list MemoryRecord) : list MemoryRecord :=
  let '(existing, updated) :=
    if mr_TurnID r != "" then replace_turn r existing else (existing, false) in
  let existing := if updated then existing else existing ++ [r] in
  if max <? len existing then drop (Z.to_nat (len existing - max)) existing else existing.

Definition SaveTurn (r : MemoryRecord) (s : InMemoryMemoryStore) : InMemoryMemoryStore :=
  let scopes := memoryRecordScopes r in
  if len scopes =? 0 then s else
  let cloned := cloneMemoryRecord r in
  fold_left (fun s scope =>
    mkStore (maxTurns s) (recentTurnSpan s)
      (<[Scope_Key scope := save_in_scope (maxTurns s) cloned (records_of s (Scope_Key scope))]>
         (recordsByScope s))) scopes s.

Definition memoryAssistantText (r : MemoryRecord) : text :=
  let heard := TrimSpace (mr_HeardText r) in
  if heard != "" then heard
  else if mr_PlaybackCompleted r then
    let delivered := TrimSpace (mr_DeliveredText r) in
    if delivered != "" then delivered
    else
      let response := TrimSpace (mr_ResponseText r) in
      if response != "" then response else []
  else [].

Definition record_messages (r : MemoryRecord) : list ChatMessage :=
  (if TrimSpace (mr_UserText r) != "" then [role_message "user" (mr_UserText r)] else [])
  ++ (if memoryAssistantText r != "" then [role_message "assistant" (memoryAssistantText r)] else []).

Definition recentMessages (s : InMemoryMemoryStore) (records : list MemoryRecord) : list ChatMessage :=
  if len records =? 0 then [] else
  let start := len records - recentTurnSpan s in
  let start := if start <? 0 then 0 else start in
  flat_map record_messages (drop (Z.to_nat start) records).

Definition in_memory_fact (key value : text) : MemoryFact := mkMemoryFact key value "in_memory".

(** The facts of the last three records, newest first. *)
Fixpoint recent_facts (ordinal : Z) (newest_first : list MemoryRecord) : list MemoryFact :=
  match newest_first with
  | [] => []
  | r :: rest =>
      (if TrimSpace (mr_UserText r) != ""
       then [in_memory_fact (txt "recent_user_" ++ Itoa ordinal) (mr_UserText r)] else [])
      ++ (if memoryAssistantText r != ""
          then [in_memory_fact (txt "recent_response_" ++ Itoa ordinal) (memoryAssistantText r)] else [])
      ++ recent_facts (ordinal + 1) rest
  end.

Definition Summary (c : MemoryContext) : text :=
  match mc_Summary c with Some a => summary_text a | None => [] end.

Definition zero_MemoryContext : MemoryContext := mkMemoryContext "" None [] [].

Definition LoadTurnContext (q : MemoryQuery) (s : InMemoryMemoryStore) : MemoryContext :=
  let scopeRecords := map (fun scope => (scope, records_of s (Scope_Key scope))) (memoryQueryScopes q) in
  let available := List.filter (fun sr => negb (len sr.2 =? 0)) scopeRecords in
  match available with
  | [] => zero_MemoryContext
  | (scope, records) :: _ =>
      match last records with
      | None => zero_MemoryContext
      | Some latest =>
          let latestAssistant := memoryAssistantText latest in
          let facts :=
            [in_memory_fact "recent_turn_count" (Itoa (len records));
             in_memory_fact "memory_scope" (Scope_Label scope);
             in_memory_fact "memory_scope_kind" (Scope_Kind scope)]
            ++ (if TrimSpace (mr_UserText latest) != ""
                then [in_memory_fact "last_user_text" (mr_UserText latest)] else [])
            ++ (if TrimSpace (mr_ResponseText latest) != ""
                then [in_memory_fact "last_response_text" (mr_ResponseText latest)] else [])
            ++ (if latestAssistant != "" then [in_memory_fact "last_heard_text" latestAssistant] else [])
            ++ map (fun sr => in_memory_fact (Scope_Kind sr.1 ++ txt "_turn_count") (Itoa (len sr.2))) available
            ++ recent_facts 1 (take 3 (reverse records)) in
          mkMemoryContext (Scope_Label scope)
            (Some (mkSummary (len records) (Scope_Label scope) (mr_UserText latest) latestAssistant))
            facts (recentMessages s records)
      end
  end.

(** ** The interface the orchestrator relies on *)

Class MemoryStore (S : Type) := {
  store_save : MemoryRecord -> S -> S;
  store_recall : S -> text -> text -> option MemoryRecord (* scope key, turn id *)
}.

Definition record_keys (r : MemoryRecord) : list text := map Scope_Key (memoryRecordScopes r).

Class MemoryStoreLaws (S : Type) `{MemoryStore S} := {
  store_ok : S -> Prop;
  save_ok : forall r s, store_ok s -> store_ok (store_save r s);
  recall_saved : forall r s key, store_ok s -> mr_TurnID r <> "" -> key ∈ record_keys r ->
    store_recall (store_save r s) key (mr_TurnID r) = Some r;
  recall_other : forall r s key id, key ∉ record_keys r ->
    store_recall (store_save r s) key id = store_recall s key id
}.

Definition recall_turn (records : list MemoryRecord) (id : text) : option MemoryRecord :=
  List.find (fun r => mr_TurnID r == id) records.

#[export] Instance InMemory_MemoryStore : MemoryStore InMemoryMemoryStore := {
  store_save := SaveTurn;
  store_recall s key id := recall_turn (records_of s key) id
}.

(** [NoopMemoryStore]: saves nothing, remembers nothing. *)
Definition NoopMemoryStore : Type := unit.
#[export] Instance Noop_MemoryStore : MemoryStore NoopMemoryStore := {
  store_save _ s := s;
  store_recall _ _ _ := None
}.

(** ** Laws of scopes *)

#[global] Arguments memoryScopes _ _ _ _ _ : simpl never.
#[global] Arguments SaveTurn _ _ : simpl never.
#[global] Arguments save_in_scope _ _ _ : simpl never.

Definition opt_scope (kind id : text) : list memoryScope :=
  let trimmed := TrimSpace id in
  if trimmed == "" then [] else [mkScope kind trimmed (kind ++ txt ":" ++ trimmed) (kind ++ txt " " ++ trimmed)].

Lemma appendScope_app kind id l : appendScope kind id l = l ++ opt_scope kind id.
Proof. unfold appendScope, opt_scope. cbv zeta. split_if; [by rewrite app_nil_r | done]. Qed.

Definition raw_scopes (s d u r h : text) : list memoryScope :=
  opt_scope "session" s ++ opt_scope "user" u ++ opt_scope "device" d
  ++ opt_scope "room" r ++ opt_scope "household" h.

Lemma opt_scope_keys kind id :
  map Scope_Key (opt_scope kind id) = if TrimSpace id == "" then [] else [kind ++ txt ":" ++ TrimSpace id].
Proof. unfold opt_scope. cbv zeta. by split_if. Qed.

(** The five kinds start with five different letters, so no two scopes of a
    record share a key, whatever the identifiers are. *)
Lemma raw_scopes_nodup s d u r h : NoDup (map Scope_Key (raw_scopes s d u r h)).
Proof.
  unfold raw_scopes. rewrite !map_app, !opt_scope_keys.
  destruct (TrimSpace s == ""), (TrimSpace u == ""), (TrimSpace d == ""), (TrimSpace r == ""),
    (TrimSpace h == ""); cbn [app];
    repeat (apply NoDup_cons; split;
      [repeat (apply not_elem_of_cons; split;
         [intros E; apply (f_equal (fun l => List.hd 0 l)) in E; discriminate E|]);
       apply not_elem_of_nil|]);
    apply NoDup_nil_2.
Qed.

Lemma dedupe_go l seen acc :
  NoDup (map Scope_Key l) -> (forall x, x ∈ l -> Scope_Key x ∉ seen) ->
  (fold_left (fun acc scope =>
     if existsb (text_eqb (Scope_Key scope)) acc.1 then acc
     else (Scope_Key scope :: acc.1, acc.2 ++ [scope])) l (seen, acc)).2 = acc ++ l.
Proof.
  revert seen acc. induction l as [|x l IH]; intros seen acc Hn Hs; cbn [fold_left]; [by rewrite app_nil_r|].
  cbn in Hn. apply NoDup_cons in Hn as [Hx Hn]. cbn [fst snd].
  assert (existsb (text_eqb (Scope_Key x)) seen = false) as ->.
  { apply not_true_is_false. rewrite existsb_eqb_elem. apply Hs, list_elem_of_here. }
  rewrite IH; [by rewrite <- app_assoc|done|].
  intros y Hy. rewrite not_elem_of_cons. split.
  - intros E. apply Hx. rewrite <- E. by apply list_elem_of_fmap_2.
  - apply Hs. by apply list_elem_of_further.
Qed.

Lemma memoryScopes_raw s d u r h : memoryScopes s d u r h = raw_scopes s d u r h.
Proof.
  unfold memoryScopes. cbv zeta. rewrite !appendScope_app. cbn [app]. rewrite <- !app_assoc.
  fold (raw_scopes s d u r h). unfold dedupeMemoryScopes. split_if; [done|].
  apply dedupe_go; [apply raw_scopes_nodup | intros ? _; apply not_elem_of_nil].
Qed.

Lemma record_keys_nodup r : NoDup (record_keys r).
Proof. unfold record_keys, memoryRecordScopes. rewrite memoryScopes_raw. apply raw_scopes_nodup. Qed.

Lemma session_key_in r :
  TrimSpace (mr_SessionID r) <> [] -> (txt "session:" ++ TrimSpace (mr_SessionID r)) ∈ record_keys r.
Proof.
  intros H. unfold record_keys, memoryRecordScopes, raw_scopes. rewrite memoryScopes_raw. unfold raw_scopes.
  rewrite !map_app, opt_scope_keys. split_if; text_prop; [contradiction|].
  apply list_elem_of_here.
Qed.

(** ** Laws of saving *)

Lemma records_of_insert m span recs key v key' :
  records_of (mkStore m span (<[key := v]> recs)) key'
    = if decide (key = key') then v else default [] (recs !! key').
Proof.
  unfold records_of. cbn [recordsByScope]. destruct (decide (key = key')) as [->|H].
  - by rewrite lookup_insert_eq.
  - by rewrite lookup_insert_ne.
Qed.

Definition save_scope (r : MemoryRecord) (s : InMemoryMemoryStore) (scope : memoryScope) : InMemoryMemoryStore :=
  mkStore (maxTurns s) (recentTurnSpan s)
    (<[Scope_Key scope := save_in_scope (maxTurns s) r (records_of s (Scope_Key scope))]> (recordsByScope s)).

Lemma save_fold r scopes s :
  NoDup (map Scope_Key scopes) ->
  let s' := fold_left (save_scope r) scopes s in
  maxTurns s' = maxTurns s /\ recentTurnSpan s' = recentTurnSpan s /\
  forall key, records_of s' key
    = if decide (key ∈ map Scope_Key scopes) then save_in_scope (maxTurns s) r (records_of s key)
      else records_of s key.
Proof.
  revert s. induction scopes as [|sc scopes IH]; intros s Hn; cbn [fold_left map].
  - by repeat split.
  - cbn in Hn. apply NoDup_cons in Hn as [Hx Hn].
    destruct (IH (save_scope r s sc) Hn) as (Hm & Hsp & Hr). split; [exact Hm|]. split; [exact Hsp|].
    intros key. rewrite Hr. unfold save_scope. rewrite records_of_insert. cbn [maxTurns].
    destruct (decide (Scope_Key sc = key)) as [<-|Hne].
    + rewrite decide_False by exact Hx. by rewrite decide_True by apply list_elem_of_here.
    + fold (records_of s key). destruct (decide (key ∈ map Scope_Key scopes)) as [Hk|Hk].
      * by rewrite decide_True by by apply list_elem_of_further.
      * rewrite decide_False; [done|]. rewrite not_elem_of_cons. by split; [intros ->|].
Qed.

(** What a save does to every scope. *)
Lemma SaveTurn_records r s :
  maxTurns (SaveTurn r s) = maxTurns s /\ recentTurnSpan (SaveTurn r s) = recentTurnSpan s /\
  forall key, records_of (SaveTurn r s) key
    = if decide (key ∈ record_keys r) then save_in_scope (maxTurns s) r (records_of s key)
      else records_of s key.
Proof.
  pose proof (save_fold r (memoryRecordScopes r) s (record_keys_nodup r)) as H.
  unfold SaveTurn, cloneMemoryRecord. cbv zeta. destruct (len (memoryRecordScopes r) =? 0) eqn:E; [|exact H].
  rewrite len_zero in E. unfold record_keys. destruct (memoryRecordScopes r); [|done].
  by repeat split.
Qed.

Definition turn_ids (l : list MemoryRecord) : list text := map mr_TurnID l.

Lemma replace_turn_spec r l l' b :
  replace_turn r l = (l', b) ->
  if b then exists a e c, l = a ++ e :: c /\ mr_TurnID e = mr_TurnID r /\ (mr_TurnID r ∉ turn_ids a) /\ l' = a ++ r :: c
  else l' = l /\ mr_TurnID r ∉ turn_ids l.
Proof.
  revert l' b. induction l as [|e l IH]; intros l' b; cbn.
  - intros [= <- <-]. split; [done|apply not_elem_of_nil].
  - destruct (mr_TurnID e == mr_TurnID r) eqn:E; text_prop.
    + intros [= <- <-]. exists [], e, l. repeat split; auto. apply not_elem_of_nil.
    + destruct (replace_turn r l) as [k u] eqn:Er. intros [= <- <-]. specialize (IH _ _ eq_refl). destruct u.
      * destruct IH as (a & e' & c & -> & H1 & H2 & ->). exists (e :: a), e', c. repeat split; auto.
        cbn. rewrite not_elem_of_cons. by split.
      * destruct IH as [-> H2]. split; [done|]. cbn. rewrite not_elem_of_cons. by split.
Qed.

(** A scope holds at most [max] records, and no two of one turn. *)
Definition named_ids (l : list MemoryRecord) : list text := List.filter (fun id => id != "") (turn_ids l).
Definition scope_ok (max : Z) (l : list MemoryRecord) : Prop := len l <= max /\ NoDup (named_ids l).

Lemma named_ids_app a b : named_ids (a ++ b) = named_ids a ++ named_ids b.
Proof. unfold named_ids, turn_ids. by rewrite map_app, List.filter_app. Qed.
Lemma named_ids_cons r a :
  named_ids (r :: a) = if mr_TurnID r != "" then mr_TurnID r :: named_ids a else named_ids a.
Proof. reflexivity. Qed.
Lemma named_ids_in (id : text) l : id ∈ named_ids l <-> id ∈ turn_ids l /\ id <> [].
Proof.
  unfold named_ids. rewrite !list_elem_of_In, List.filter_In, negb_true_iff, text_eqb_false. done.
Qed.
Lemma named_ids_drop n l : NoDup (named_ids l) -> NoDup (named_ids (drop n l)).
Proof. intros H. rewrite <- (take_drop n l), named_ids_app in H. by apply NoDup_app in H as (_ & _ & H). Qed.

Definition same_turn (r : MemoryRecord) (l : list MemoryRecord) : Prop :=
  mr_TurnID r <> "" /\ mr_TurnID r ∈ turn_ids l.

(** The two ways a record enters a scope: in place of its own turn, or at the
    end, where it pushes the oldest record out of a full scope. *)
Lemma save_cases max r l :
  0 < max -> scope_ok max l ->
  (exists a e c, l = a ++ e :: c /\ mr_TurnID e = mr_TurnID r /\ mr_TurnID r <> "" /\
     (mr_TurnID r ∉ turn_ids a) /\ save_in_scope max r l = a ++ r :: c) \/
  (~ same_turn r l /\ save_in_scope max r l = (if max =? len l then drop 1 l else l) ++ [r]).
Proof.
  intros Hm [Hl Hn]. unfold save_in_scope.
  assert (Happ : (if max <? len (l ++ [r]) then drop (Z.to_nat (len (l ++ [r]) - max)) (l ++ [r]) else l ++ [r])
                 = (if max =? len l then drop 1 l else l) ++ [r]).
  { rewrite len_app, len_cons, len_nil. destruct (max =? len l) eqn:E; bool_prop.
    - assert ((max <? len l + (1 + 0)) = true) as -> by lia.
      replace (Z.to_nat (len l + (1 + 0) - max)) with 1%nat by lia.
      destruct l; [rewrite len_nil in E; lia | done].
    - by assert ((max <? len l + (1 + 0)) = false) as -> by lia. }
  destruct (mr_TurnID r != "") eqn:Ei; text_prop.
  - destruct (replace_turn r l) as [l' b] eqn:E. apply replace_turn_spec in E. destruct b.
    + destruct E as (a & e & c & -> & He & Ha & ->). left. exists a, e, c. repeat split; auto.
      assert ((max <? len (a ++ r :: c)) = false) as ->; [|done].
      rewrite len_app, len_cons in *. lia.
    + destruct E as [-> Hni]. right. split; [by intros [_ ?] | exact Happ].
  - right. split; [by intros [? _] | exact Happ].
Qed.

Lemma save_scope_ok max r l : 0 < max -> scope_ok max l -> scope_ok max (save_in_scope max r l).
Proof.
  intros Hm Hok. destruct (save_cases max r l Hm Hok) as [(a & e & c & -> & He & Hi & Ha & ->)|[Hns ->]];
    destruct Hok as [Hl Hn]; split.
  - rewrite len_app, len_cons in *. lia.
  - rewrite named_ids_app, named_ids_cons in *. by rewrite He in Hn.
  - rewrite len_app, len_cons, len_nil. destruct (max =? len l) eqn:E; bool_prop; [|lia].
    unfold len in *. rewrite length_drop. lia.
  - rewrite named_ids_app, named_ids_cons. cbn [named_ids].
    assert (Hd : NoDup (named_ids (if max =? len l then drop 1 l else l)))
      by (split_if; [by apply named_ids_drop | done]).
    destruct (mr_TurnID r != "") eqn:Ei; [|by rewrite app_nil_r].
    apply NoDup_app. split; [exact Hd|]. split; [|apply NoDup_singleton].
    intros id Hid Hr. apply list_elem_of_singleton in Hr as ->. text_prop. apply Hns. split; [done|].
    apply named_ids_in in Hid as [Hid _]. unfold turn_ids in *.
    destruct (max =? len l); [|done]. rewrite <- (take_drop 1 l), map_app. apply elem_of_app. by right.
Qed.

Lemma recall_split r a c : mr_TurnID r ∉ turn_ids a -> recall_turn (a ++ r :: c) (mr_TurnID r) = Some r.
Proof.
  unfold recall_turn. induction a as [|x a IH]; cbn; [by rewrite text_eqb_refl|].
  rewrite not_elem_of_cons. intros [Hx Ha]. destruct (mr_TurnID x == mr_TurnID r) eqn:E; text_prop; [congruence|].
  by apply IH.
Qed.

Record memory_ok (s : InMemoryMemoryStore) : Prop := {
  mo_turns : 0 < maxTurns s;
  mo_span : 0 < recentTurnSpan s <= 4 /\ recentTurnSpan s <= maxTurns s;
  mo_scopes : forall key, scope_ok (maxTurns s) (records_of s key)
}.

Lemma new_memory_ok max : memory_ok (NewInMemoryMemoryStore max).
Proof.
  assert (Hempty : forall m key, 0 < m -> scope_ok m (default [] ((∅ : gmap text (list MemoryRecord)) !! key))).
  { intros m key Hm. rewrite lookup_empty. split; [unfold len; cbn; lia | apply NoDup_nil_2]. }
  unfold NewInMemoryMemoryStore, records_of. destruct (max <=? 0) eqn:E; bool_prop;
    split; cbn [maxTurns recentTurnSpan recordsByScope]; try (split_if; bool_prop; lia); try lia;
    intros key; apply Hempty; lia.
Qed.

Lemma SaveTurn_ok r s : memory_ok s -> memory_ok (SaveTurn r s).
Proof.
  intros [Ht Hsp Hs]. destruct (SaveTurn_records r s) as (Hm & Hn & Hr).
  split; rewrite ?Hm, ?Hn; auto. intros key. rewrite Hr.
  destruct (decide _); [by apply save_scope_ok | done].
Qed.

Lemma recall_after_save r s key :
  memory_ok s -> mr_TurnID r <> "" -> key ∈ record_keys r ->
  recall_turn (records_of (SaveTurn r s) key) (mr_TurnID r) = Some r.
Proof.
  intros [Ht _ Hs] Hid Hk. destruct (SaveTurn_records r s) as (_ & _ & ->).
  rewrite decide_True by done.
  destruct (save_cases (maxTurns s) r _ Ht (Hs key)) as [(a & e & c & _ & _ & _ & Ha & ->)|[Hns ->]];
    apply recall_split; [done|]. intros Hin. apply Hns. split; [done|]. unfold turn_ids in *.
  destruct (maxTurns s =? _); [|done].
  rewrite <- (take_drop 1 (records_of s key)), map_app. apply elem_of_app. by right.
Qed.

Lemma SaveTurn_other r s key : key ∉ record_keys r -> records_of (SaveTurn r s) key = records_of s key.
Proof. intros Hk. destruct (SaveTurn_records r s) as (_ & _ & ->). by rewrite decide_False. Qed.

Lemma recall_other_scope r s key id :
  key ∉ record_keys r ->
  recall_turn (records_of (SaveTurn r s) key) id = recall_turn (records_of s key) id.
Proof. intros Hk. by rewrite SaveTurn_other. Qed.

#[export] Instance InMemory_laws : MemoryStoreLaws InMemoryMemoryStore := {
  store_ok := memory_ok;
  save_ok := SaveTurn_ok;
  recall_saved r s key := recall_after_save r s key;
  recall_other r s key id := recall_other_scope r s key id
}.

(** ** Properties *)

Definition saves (l : list MemoryRecord) (s : InMemoryMemoryStore) : InMemoryMemoryStore :=
  fold_left (fun s r => SaveTurn r s) l s.

Lemma saves_ok l s : memory_ok s -> memory_ok (saves l s).
Proof. intros H. unfold saves. apply fold_left_inv; [done|]. intros s' r _. apply SaveTurn_ok. Qed.

(** The store is bounded and keeps one record per turn: after any saves
    into a new store, every scope holds at most [maxTurns] records (8 when
    the configured limit is not positive) and no named turn twice, and the
    limit itself does not drift. *)
Theorem memory_bounded max l key :
  let s := saves l (NewInMemoryMemoryStore max) in
  maxTurns s = (if max <=? 0 then 8 else max) /\
  len (records_of s key) <= maxTurns s /\ NoDup (named_ids (records_of s key)) /\
  0 < recentTurnSpan s <= Z.min 4 (maxTurns s).
Proof.
  intros s. pose proof (saves_ok l _ (new_memory_ok max)) as [_ Hsp Hs]. fold s in Hsp, Hs.
  split; [|destruct (Hs key); repeat split; auto; lia].
  subst s. unfold saves. apply (fold_left_inv (fun s => maxTurns s = if max <=? 0 then 8 else max)).
  - done.
  - intros s r _ Hm. by destruct (SaveTurn_records r s) as (-> & _).
Qed.

(** The scopes of a query. *)
Definition query_keys (q : MemoryQuery) : list text := map Scope_Key (memoryQueryScopes q).

(** Scopes are isolated: saving a turn leaves what any query sees
    untouched when the two share no identifier of the same kind. *)
Theorem memory_scope_isolation r q s :
  (forall key, key ∈ query_keys q -> key ∉ record_keys r) ->
  LoadTurnContext q (SaveTurn r s) = LoadTurnContext q s.
Proof.
  intros Hd. unfold LoadTurnContext.
  assert (Hm : map (fun scope => (scope, records_of (SaveTurn r s) (Scope_Key scope))) (memoryQueryScopes q)
             = map (fun scope => (scope, records_of s (Scope_Key scope))) (memoryQueryScopes q)).
  { apply map_ext_in. intros sc Hsc. f_equal. apply SaveTurn_other, Hd.
    unfold query_keys. apply list_elem_of_In, in_map, Hsc. }
  cbv zeta. rewrite Hm. unfold recentMessages. by destruct (SaveTurn_records r s) as (_ & -> & _).
Qed.

(** A session remembers its last turns in order: saving turns with
    different ids into one session's scope keeps exactly the last [maxTurns]
    of what was there followed by them. *)
Theorem memory_window key l s :
  memory_ok s -> Forall (fun r => key ∈ record_keys r /\ mr_TurnID r <> "") l ->
  NoDup (turn_ids (records_of s key) ++ turn_ids l) ->
  let all := records_of s key ++ l in
  records_of (saves l s) key = drop (Z.to_nat (len all - maxTurns s)) all.
Proof.
  intros Hok Hl. revert s Hok. induction Hl as [|r l [Hk Hid] _ IH]; intros s Hok Hn all; subst all.
  - rewrite app_nil_r. destruct (mo_scopes s Hok key) as [Hle _].
    by replace (Z.to_nat (len (records_of s key) - maxTurns s)) with 0%nat by lia.
  - change (saves (r :: l) s) with (saves l (SaveTurn r s)).
    destruct (SaveTurn_records r s) as (Hm & _ & Hr). specialize (Hr key). rewrite decide_True in Hr by done.
    destruct (mo_scopes s Hok key) as [Hle Hnd]. pose proof (mo_turns s Hok) as Hpos.
    assert (Hns : ~ same_turn r (records_of s key)).
    { intros [_ Hin]. apply NoDup_app in Hn as (_ & Hdis & _). apply (Hdis _ Hin), list_elem_of_here. }
    destruct (save_cases _ r _ Hpos (mo_scopes s Hok key)) as [(a & e & c & Ha & He & Hi & _ & _)|[_ Hs]].
    { exfalso. apply Hns. split; [done|]. rewrite Ha. unfold turn_ids. rewrite map_app. apply elem_of_app. right.
      rewrite <- He. apply list_elem_of_here. }
    rewrite Hs in Hr. rewrite (IH (SaveTurn r s) (SaveTurn_ok r s Hok)); rewrite Hr, ?Hm.
    + destruct (maxTurns s =? len (records_of s key)) eqn:E; bool_prop; [|by rewrite <- app_assoc].
      destruct (records_of s key) as [|x old]; [rewrite len_nil in E; lia|]. cbn [drop].
      rewrite drop_0, <- app_assoc. cbn [app]. rewrite !len_app, !len_cons, ?len_app, ?len_cons in *.
      pose proof (len_nonneg l).
      replace (Z.to_nat (1 + (len old + (1 + len l)) - maxTurns s))
        with (S (Z.to_nat (len old + (1 + len l) - maxTurns s))) by lia.
      done.
    + assert (Hn' : NoDup (turn_ids (records_of s key ++ [r]) ++ turn_ids l)).
      { unfold turn_ids in *. rewrite map_app, <- app_assoc. exact Hn. }
      split_if; [|done]. destruct (records_of s key) as [|x old]; cbn in Hn' |- *; [done|].
      by apply NoDup_cons in Hn' as [_ ?].
Qed.

(** What was said last is what is remembered. After a new turn of a
    session is saved, a query for that session (identifiers compare trimmed)
    reports the session's scope, counts the turn, summarises it by its user
    text and by what the user heard of the answer, and ends the recent
    messages with them. *)
Theorem memory_recalls_latest r q s :
  memory_ok s -> TrimSpace (mr_SessionID r) <> [] ->
  TrimSpace (mq_SessionID q) = TrimSpace (mr_SessionID r) ->
  (forall key, key ∈ record_keys r -> ~ same_turn r (records_of s key)) ->
  let c := LoadTurnContext q (SaveTurn r s) in
  mc_Scope c = txt "session " ++ TrimSpace (mr_SessionID r) /\
  (exists n, 0 < n <= maxTurns s /\
     mc_Summary c = Some (mkSummary n (mc_Scope c) (mr_UserText r) (memoryAssistantText r))) /\
  (exists earlier, mc_RecentMessages c = earlier ++ record_messages r).
Proof.
  intros Hok Hs Hq Hfresh c. subst c.
  set (key := txt "session:" ++ TrimSpace (mr_SessionID r)).
  pose proof (session_key_in r Hs) as Hk. fold key in Hk.
  pose proof (SaveTurn_ok r s Hok) as Hok'. destruct (mo_scopes _ Hok' key) as [Hlen _].
  destruct (SaveTurn_records r s) as (Hm & Hsp & Hr). specialize (Hr key). rewrite decide_True in Hr by done.
  destruct (save_cases _ r _ (mo_turns s Hok) (mo_scopes s Hok key)) as [(a & e & c & Ha & He & Hi & _ & _)|[_ Hsv]].
  { exfalso. apply (Hfresh key Hk). split; [done|]. rewrite Ha. unfold turn_ids. rewrite map_app.
    apply elem_of_app. right. rewrite <- He. apply list_elem_of_here. }
  rewrite Hsv in Hr. set (X := if maxTurns s =? len (records_of s key) then drop 1 (records_of s key) else records_of s key) in *.
  assert (Hsc : exists rest, memoryQueryScopes q
     = mkScope "session" (TrimSpace (mr_SessionID r)) key (txt "session " ++ TrimSpace (mr_SessionID r)) :: rest).
  { unfold memoryQueryScopes. rewrite memoryScopes_raw. unfold raw_scopes, opt_scope at 1. rewrite Hq.
    cbv zeta. split_if; text_prop; [contradiction|]. eexists. reflexivity. }
  destruct Hsc as [rest Hsc]. unfold LoadTurnContext. rewrite Hsc. cbn [map Scope_Key fst snd].
  rewrite Hr in Hlen |- *. cbn [List.filter snd].
  assert ((len (X ++ [r]) =? 0) = false) as ->.
  { rewrite len_app, len_cons, len_nil. pose proof (len_nonneg X). lia. }
  cbn [negb]. rewrite last_snoc. cbv zeta. cbn [mc_Scope mc_Summary mc_RecentMessages Scope_Label].
  split; [done|]. split.
  - exists (len (X ++ [r])). split; [|done]. rewrite Hm in Hlen. split; [|done].
    apply len_pos. by destruct X.
  - unfold recentMessages. rewrite Hsp. destruct (mo_span s Hok) as [Hspan _].
    rewrite !len_app, !len_cons, !len_nil. pose proof (len_nonneg X) as HX.
    assert ((len X + (1 + 0) =? 0) = false) as -> by lia. cbv zeta.
    set (start := if len X + (1 + 0) - recentTurnSpan s <? 0 then 0 else len X + (1 + 0) - recentTurnSpan s).
    assert (Hst : 0 <= start <= len X) by (subst start; split_if; bool_prop; lia).
    rewrite drop_app_le by (unfold len in Hst; lia). rewrite flat_map_app. eexists. cbn [flat_map].
    by rewrite app_nil_r.
Qed.

(** ** Concrete conversations *)

Definition demo_record (turn user heard : text) : MemoryRecord :=
  mkMemoryRecord turn "s1" "d1" "xiaozhi" "" "" "" user "" "" heard false false true ∅.
Definition demo_query : MemoryQuery := mkMemoryQuery " s1 " "" "" "" "" "" "" ∅.
Definition demo_store : InMemoryMemoryStore := SaveTurn (demo_record "t1" "hi" "hello") (NewInMemoryMemoryStore 2).

Lemma demo_store_ok : memory_ok demo_store.
Proof. apply SaveTurn_ok, new_memory_ok. Qed.

Lemma memory_scope_isolation_witness :
  let q := mkMemoryQuery "s2" "d2" "" "" "" "" "" ∅ in
  LoadTurnContext q (SaveTurn (demo_record "t2" "bye" "") demo_store) = LoadTurnContext q demo_store.
Proof.
  intros q. apply (memory_scope_isolation (demo_record "t2" "bye" "") q demo_store).
  apply Forall_forall. apply (bool_decide_unpack _). by vm_compute.
Defined.

Lemma demo_keys turn user heard : record_keys (demo_record turn user heard) = texts ["session:s1"; "device:d1"].
Proof. reflexivity. Qed.

Lemma memory_window_witness :
  let l := [demo_record "t2" "a" ""; demo_record "t3" "b" ""] in
  records_of (saves l demo_store) "session:s1" = l.
Proof.
  intros l. rewrite (memory_window "session:s1" l demo_store); [by vm_compute | apply demo_store_ok | |].
  - repeat constructor; rewrite ?demo_keys; first [discriminate | apply list_elem_of_here].
  - apply (bool_decide_unpack _). by vm_compute.
Defined.

Lemma memory_recalls_latest_witness :
  let c := LoadTurnContext demo_query (SaveTurn (demo_record "t2" "weather?" "sunny") demo_store) in
  mc_Scope c = "session s1" /\
  exists earlier, mc_RecentMessages c = earlier ++ record_messages (demo_record "t2" "weather?" "sunny").
Proof.
  intros c. destruct (memory_recalls_latest (demo_record "t2" "weather?" "sunny") demo_query demo_store)
    as (H1 & _ & H3); [apply demo_store_ok | by vm_compute | by vm_compute | |by split].
  intros key Hk. rewrite demo_keys in Hk. intros [_ H].
  apply elem_of_cons in Hk as [-> | Hk]; [|apply list_elem_of_singleton in Hk as ->];
    vm_compute in H; apply list_elem_of_singleton in H; discriminate.
Defined.
