(* ===== verification/Orchestrator.v ===== *)
(** * The session orchestrator (internal/voice/session_orchestrator.go)

    One orchestrator per connection follows the turn being spoken: it is
    prepared, played back under facts and policies, and ends completed,
    interrupted or as text.  Every step that settles something is written to
    the memory store, which is any implementation of [MemoryStore]; the live
    preview it follows is any implementation of [PreviewSession].  The mutex
    makes each method one step. *)

From S2P Require Import Prelude GoText GoFloat Contracts BargeIn Playback Memory.

(** ** Metadata keys *)

Definition interruptionPolicyMetadataKey : text := "voice.interruption_policy".
Definition interruptionReasonMetadataKey : text := "voice.interruption_reason".
Definition heardTextBoundaryMetadataKey : text := "voice.heard_text_boundary".
Definition playedDurationMetadataKey : text := "voice.played_duration_ms".
Definition plannedDurationMetadataKey : text := "voice.planned_duration_ms".
Definition heardSourceMetadataKey : text := "voice.heard_source".
Definition heardConfidenceMetadataKey : text := "voice.heard_confidence".
Definition heardPrecisionTierMetadataKey : text := "voice.heard_precision_tier".
Definition resumeAnchorMetadataKey : text := "voice.resume_anchor".
Definition missedTextMetadataKey : text := "voice.missed_text".
Definition heardRatioMetadataKey : text := "voice.heard_ratio_pct".
Definition previousPlaybackAvailableMetadataKey : text := "voice.previous.available".
Definition previousPlaybackTurnIDMetadataKey : text := "voice.previous.turn_id".
Definition previousPlaybackDeliveredTextMetadataKey : text := "voice.previous.delivered_text".
Definition previousPlaybackHeardTextMetadataKey : text := "voice.previous.heard_text".
Definition previousPlaybackMissedTextMetadataKey : text := "voice.previous.missed_text".
Definition previousPlaybackResumeAnchorMetadataKey : text := "voice.previous.resume_anchor".
Definition previousPlaybackBoundaryMetadataKey : text := "voice.previous.heard_boundary".
Definition previousPlaybackSourceMetadataKey : text := "voice.previous.heard_source".
Definition previousPlaybackConfidenceMetadataKey : text := "voice.previous.heard_confidence".
Definition previousPlaybackPrecisionMetadataKey : text := "voice.previous.heard_precision_tier".
Definition previousPlaybackRatioMetadataKey : text := "voice.previous.heard_ratio_pct".
Definition previousPlaybackCompletedMetadataKey : text := "voice.previous.playback_completed".
Definition previousPlaybackInterruptedMetadataKey : text := "voice.previous.response_interrupted".
Definition previousPlaybackTruncatedMetadataKey : text := "voice.previous.response_truncated".
Definition previousPlaybackPolicyMetadataKey : text := "voice.previous.interruption_policy".
Definition previousPlaybackReasonMetadataKey : text := "voice.previous.interruption_reason".

(** ** Requests (contracts.go, turn_executor.go) *)

Record TurnRequest := mkTurnRequest {
  tr_SessionID : text;
  tr_TurnID : text;
  tr_TraceID : text;
  tr_DeviceID : text;
  tr_ClientType : text;
  tr_Text : text;
  tr_Metadata : metadata;
  tr_PreviewTranscription : option TranscriptionResult;
  tr_AudioPCM : list byte;
  tr_AudioBytes : Z;
  tr_InputFrames : Z;
  tr_InputCodec : text;
  tr_InputSampleRate : Z;
  tr_InputChannels : Z
}.

#[export] Instance TurnRequest_rebuild : Rebuild TurnRequest := fun r =>
  mkTurnRequest (tr_SessionID r) (tr_TurnID r) (tr_TraceID r) (tr_DeviceID r) (tr_ClientType r)
    (tr_Text r) (tr_Metadata r) (tr_PreviewTranscription r) (tr_AudioPCM r) (tr_AudioBytes r) (tr_InputFrames r)
    (tr_InputCodec r) (tr_InputSampleRate r) (tr_InputChannels r).

(** Maps are values, so the copy is the map; the audio is dropped. *)
Definition cloneTurnRequest (r : TurnRequest) : TurnRequest := r <|tr_AudioPCM := []|>.

Definition hasTurnAudio (r : TurnRequest) : bool :=
  (0 <? len (tr_AudioPCM r)) || (0 <? tr_AudioBytes r) || (0 <? tr_InputFrames r).

Definition turnInputFromRequest (r : TurnRequest) (userText : text) : TurnInput :=
  mkTurnInput (tr_SessionID r) (tr_TurnID r) (tr_TraceID r) (tr_DeviceID r) (tr_ClientType r) userText
    (mkAudioInput (hasTurnAudio r) (tr_InputFrames r) (tr_AudioBytes r) (tr_InputCodec r)
       (tr_InputSampleRate r) (tr_InputChannels r))
    [] (tr_Metadata r).

(** ** The turn being followed *)

Record orchestratedTurn := mkTurn {
  request : TurnRequest;
  inputText : text;
  turn_metadata : metadata;
  responseText : text;
  deliveredText : text;
  heardText : text;
  playbackActive : bool;
  playbackCompleted : bool;
  responseInterrupted : bool;
  responseTruncated : bool;
  chunkDuration : duration;
  plannedDuration : duration;
  playedDuration : duration;
  interruptionPolicy : InterruptionPolicy;
  interruptionReason : text;
  heardTextBoundary : HeardTextBoundary;
  heardSource : HeardTextSource;
  heardConfidence : HeardTextConfidence;
  heardPrecisionTier : HeardTextPrecisionTier;
  preferClientFacts : bool;
  softRecovery : option softRecoverySnapshot
}.

#[export] Instance Turn_rebuild : Rebuild orchestratedTurn := fun t =>
  mkTurn (request t) (inputText t) (turn_metadata t) (responseText t) (deliveredText t) (heardText t)
    (playbackActive t) (playbackCompleted t) (responseInterrupted t) (responseTruncated t)
    (chunkDuration t) (plannedDuration t) (playedDuration t) (interruptionPolicy t)
    (interruptionReason t) (heardTextBoundary t) (heardSource t) (heardConfidence t)
    (heardPrecisionTier t) (preferClientFacts t) (softRecovery t).

Record PlaybackOutcome := mkOutcome {
  po_TurnID : text;
  po_DeliveredText : text;
  po_HeardText : text;
  po_MissedText : text;
  po_ResumeAnchor : text;
  po_HeardTextBoundary : HeardTextBoundary;
  po_HeardSource : HeardTextSource;
  po_HeardConfidence : HeardTextConfidence;
  po_HeardPrecisionTier : HeardTextPrecisionTier;
  po_HeardRatioPercent : Z;
  po_PlaybackCompleted : bool;
  po_ResponseInterrupted : bool;
  po_ResponseTruncated : bool;
  po_InterruptionPolicy : InterruptionPolicy;
  po_InterruptionReason : text;
  po_PlayedDuration : duration;
  po_PlannedDuration : duration
}.

Record PlaybackInterruption := mkInterruption {
  pi_Policy : InterruptionPolicy;
  pi_Reason : text;
  pi_HeardText : text;
  pi_HeardTextBoundary : HeardTextBoundary;
  pi_PlayedDuration : duration;
  pi_PlannedDuration : duration;
  pi_Truncated : bool
}.

Definition playbackOutcomeFromTurn (t : orchestratedTurn) : PlaybackOutcome :=
  mkOutcome (TrimSpace (tr_TurnID (request t))) (TrimSpace (deliveredText t)) (TrimSpace (heardText t))
    (missedTextForTexts (deliveredText t) (heardText t))
    (resumeAnchorForTexts (deliveredText t) (heardText t))
    (heardTextBoundaryForTexts (deliveredText t) (heardText t))
    (normalizeHeardTextSource (heardSource t) HeardTextSourceUnknown)
    (heardTextConfidenceForSource (heardSource t)) (heardTextPrecisionTierForSource (heardSource t))
    (heardRatioPercent (deliveredText t) (heardText t))
    (playbackCompleted t) (responseInterrupted t) (responseTruncated t)
    (normalizeInterruptionPolicy (interruptionPolicy t)) (TrimSpace (interruptionReason t))
    (playedDuration t) (plannedDuration t).

(** ** What is written beside a turn *)

Definition put_nonblank (key value : text) (m : metadata) : metadata :=
  if TrimSpace value == "" then m else <[key := value]> m.

Definition enrichPlaybackMetadata (m : metadata) (t : orchestratedTurn) : metadata :=
  let policy := normalizeInterruptionPolicy (interruptionPolicy t) in
  let settled := responseInterrupted t || playbackCompleted t in
  let m := if bool_decide (policy <> InterruptionPolicyIgnore)
           then put_nonblank interruptionReasonMetadataKey (interruptionReason t)
                  (put_nonblank interruptionPolicyMetadataKey (policy_text policy) m) else m in
  let m := if settled || bool_decide (policy <> InterruptionPolicyIgnore)
           then put_nonblank heardTextBoundaryMetadataKey (boundary_text (heardTextBoundary t)) m else m in
  let m := if (0 <? playedDuration t) && settled
           then put_nonblank playedDurationMetadataKey (Itoa (Milliseconds (playedDuration t))) m else m in
  let m := if (0 <? plannedDuration t) && settled
           then put_nonblank plannedDurationMetadataKey (Itoa (Milliseconds (plannedDuration t))) m else m in
  let source := normalizeHeardTextSource (heardSource t) HeardTextSourceUnknown in
  let m := if bool_decide (source <> HeardTextSourceUnknown)
           then put_nonblank heardSourceMetadataKey (source_text source) m else m in
  let confidence := heardTextConfidenceForSource (heardSource t) in
  let m := if bool_decide (confidence <> HeardTextConfidenceUnknown)
           then put_nonblank heardConfidenceMetadataKey (confidence_text confidence) m else m in
  let precision := heardTextPrecisionTierForSource (heardSource t) in
  let m := if bool_decide (precision <> HeardTextPrecisionTierUnknown)
           then put_nonblank heardPrecisionTierMetadataKey (precision_text precision) m else m in
  let ratio := heardRatioPercent (deliveredText t) (heardText t) in
  let m := if 0 <=? ratio then put_nonblank heardRatioMetadataKey (Itoa ratio) m else m in
  let anchor := resumeAnchorForTexts (deliveredText t) (heardText t) in
  let m := if anchor != "" then put_nonblank resumeAnchorMetadataKey anchor m else m in
  let missed := missedTextForTexts (deliveredText t) (heardText t) in
  if missed != "" then put_nonblank missedTextMetadataKey missed m else m.

Definition put_trimmed (key value : text) (m : metadata) : metadata :=
  if TrimSpace value == "" then m else <[key := TrimSpace value]> m.

Definition playbackOutcomeContextMetadata (o : PlaybackOutcome) : metadata :=
  let m := <[previousPlaybackAvailableMetadataKey := txt "true"]> ∅ in
  let m := put_trimmed previousPlaybackTurnIDMetadataKey (po_TurnID o) m in
  let m := put_trimmed previousPlaybackDeliveredTextMetadataKey (po_DeliveredText o) m in
  let m := put_trimmed previousPlaybackHeardTextMetadataKey (po_HeardText o) m in
  let m := put_trimmed previousPlaybackMissedTextMetadataKey (po_MissedText o) m in
  let m := put_trimmed previousPlaybackResumeAnchorMetadataKey (po_ResumeAnchor o) m in
  let m := put_trimmed previousPlaybackBoundaryMetadataKey (boundary_text (po_HeardTextBoundary o)) m in
  let m := put_trimmed previousPlaybackSourceMetadataKey (source_text (po_HeardSource o)) m in
  let m := put_trimmed previousPlaybackConfidenceMetadataKey (confidence_text (po_HeardConfidence o)) m in
  let m := put_trimmed previousPlaybackPrecisionMetadataKey (precision_text (po_HeardPrecisionTier o)) m in
  let m := if 0 <=? po_HeardRatioPercent o
           then <[previousPlaybackRatioMetadataKey := Itoa (po_HeardRatioPercent o)]> m else m in
  let m := <[previousPlaybackCompletedMetadataKey := FormatBool (po_PlaybackCompleted o)]> m in
  let m := <[previousPlaybackInterruptedMetadataKey := FormatBool (po_ResponseInterrupted o)]> m in
  let m := <[previousPlaybackTruncatedMetadataKey := FormatBool (po_ResponseTruncated o)]> m in
  let m := put_trimmed previousPlaybackPolicyMetadataKey (policy_text (po_InterruptionPolicy o)) m in
  put_trimmed previousPlaybackReasonMetadataKey (po_InterruptionReason o) m.

(** The record [persistLocked] saves. *)
Definition turnRecord (t : orchestratedTurn) : MemoryRecord :=
  (buildMemoryRecord (turnInputFromRequest (request t) (inputText t)) (inputText t) (responseText t)
      (enrichPlaybackMetadata (turn_metadata t) t))
    <|mr_DeliveredText := deliveredText t|>
    <|mr_HeardText := heardText t|>
    <|mr_ResponseInterrupted := responseInterrupted t|>
    <|mr_ResponseTruncated := responseTruncated t|>
    <|mr_PlaybackCompleted := playbackCompleted t|>.

#[global] Arguments enrichPlaybackMetadata _ _ : simpl never.
#[global] Arguments playbackOutcomeContextMetadata _ : simpl never.
#[global] Arguments turnRecord _ : simpl never.

(** ** Heard text of the turn *)

Definition set_heard (heard : text) (boundary : HeardTextBoundary) (source : HeardTextSource)
    (t : orchestratedTurn) : orchestratedTurn :=
  t <|heardText := heard|> <|heardTextBoundary := boundary|> <|heardSource := source|>
    <|heardConfidence := heardTextConfidenceForSource source|>
    <|heardPrecisionTier := heardTextPrecisionTierForSource source|>.

Definition advance_played (played : duration) (t : orchestratedTurn) : orchestratedTurn :=
  if playedDuration t <? played then t <|playedDuration := played|> else t.

Definition updateHeardTextLocked (played : duration) (source : HeardTextSource) (t : orchestratedTurn)
    : orchestratedTurn :=
  let t := advance_played played t in
  let heard := heardTextForPlayback (deliveredText t) (playedDuration t) (plannedDuration t) in
  set_heard heard (heardTextBoundaryForTexts (deliveredText t) heard)
    (normalizeHeardTextSource source (heardSource t)) t.

Definition updateHeardTextExactLocked (played : duration) (heard : text) (source : HeardTextSource)
    (t : orchestratedTurn) : orchestratedTurn :=
  let t := advance_played played t in
  let trimmedHeard := TrimSpace heard in
  let trimmedDelivered := TrimSpace (deliveredText t) in
  if (trimmedHeard == "") || (trimmedDelivered == "") || negb (HasPrefix trimmedDelivered trimmedHeard)
  then updateHeardTextLocked played source t
  else set_heard trimmedHeard (heardTextBoundaryForTexts trimmedDelivered trimmedHeard)
         (normalizeHeardTextSource source (heardSource t)) t.

(** An exact segment mark is not replaced by an estimate. *)
Definition refreshHeardText (t : orchestratedTurn) : orchestratedTurn :=
  if bool_decide (heardSource t = HeardTextSourceSegmentMark)
     && hasExactHeardTextPrefix (deliveredText t) (heardText t)
  then t else updateHeardTextLocked (playedDuration t) (heardSource t) t.

Definition recordInterruptionPolicyLocked (policy : InterruptionPolicy) (reason : text) (t : orchestratedTurn)
    : orchestratedTurn * InterruptionPolicy :=
  let normalized := normalizeInterruptionPolicy policy in
  if bool_decide (normalized = InterruptionPolicyIgnore) then (t, normalized)
  else
    let reason := TrimSpace reason in
    (t <|interruptionPolicy := normalized|>
       <|interruptionReason := if reason == "" then policy_text normalized else reason|>, normalized).

Definition captureSoftRecoverySnapshotLocked (policy : InterruptionPolicy) (reason : text)
    (t : orchestratedTurn) : orchestratedTurn :=
  if negb (playbackActive t) then t else
  let t := refreshHeardText t in
  let keep :=
    match softRecovery t with
    | None => false
    | Some existing =>
        (sr_playedDuration existing <? playedDuration t)
        || ((sr_playedDuration existing =? playedDuration t)
            && (softRecoveryPolicyRank policy <=? softRecoveryPolicyRank (sr_policy existing)))
    end in
  if keep then t
  else t <|softRecovery := Some (mkSoftRecovery policy reason (heardText t) (heardTextBoundary t)
                                   (heardSource t) (heardConfidence t) (heardPrecisionTier t)
                                   (playedDuration t))|>.

Definition currentPlaybackBoundarySnapshotLocked (t : orchestratedTurn) : softRecoverySnapshot :=
  mkSoftRecovery (PolicyOther "") "" (TrimSpace (heardText t))
    (heardTextBoundaryForTexts (deliveredText t) (heardText t))
    (normalizeHeardTextSource (heardSource t) HeardTextSourceUnknown)
    (heardTextConfidenceForSource (heardSource t)) (heardTextPrecisionTierForSource (heardSource t))
    (playedDuration t).

Definition applySoftRecoveryOutcomeLocked (pre : softRecoverySnapshot) (t : orchestratedTurn) : orchestratedTurn :=
  match softRecovery t with
  | None => t
  | Some snapshot =>
      if negb (shouldLimitCompletedPlaybackToSoftRecovery (deliveredText t) (plannedDuration t) snapshot) then t
      else
        match preferredSoftRecoveryBoundary (deliveredText t) (Some snapshot) (Some pre) with
        | None => t
        | Some selected =>
            set_heard (TrimSpace (sr_heardText selected))
              (heardTextBoundaryForTexts (deliveredText t) (sr_heardText selected))
              (normalizeHeardTextSource (sr_heardSource selected) HeardTextSourceUnknown) t
        end
  end.

(** ** The live preview *)

(** What the orchestrator asks of a preview session: whether it reports
    progress, one push (intermediate previews, then the final one or an
    error) and one poll. *)
Class PreviewSession (P : Type) := {
  ps_progressive : P -> bool;
  ps_push : instant -> list byte -> P -> P * (list InputPreview * result text InputPreview);
  ps_poll : instant -> P -> P * InputPreview
}.

Record inputTurnPreview (P : Type) := mkTurnPreview {
  tp_session : P;
  tp_last : InputPreview;
  tp_lastPartialText : text;
  tp_lastCommitLogged : bool
}.
Arguments mkTurnPreview {P} _ _ _ _.
Arguments tp_session {P} _.
Arguments tp_last {P} _.
Arguments tp_lastPartialText {P} _.
Arguments tp_lastCommitLogged {P} _.

Record InputPreviewObservation := mkObservation {
  ob_Preview : InputPreview;
  ob_Active : bool;
  ob_PartialChanged : bool;
  ob_CommitSuggested : bool
}.

Definition zero_observation : InputPreviewObservation := mkObservation zero_InputPreview false false false.

Definition shouldEmitFinalPreviewObservation (previous current : InputPreviewObservation) : bool :=
  let p := ob_Preview previous in
  let c := ob_Preview current in
  (PartialText p != PartialText c) || (StablePrefix p != StablePrefix c)
  || (EndpointReason p != EndpointReason c)
  || negb (Preview_AudioBytes p =? Preview_AudioBytes c)
  || negb (Bool.eqb (SpeechStarted p) (SpeechStarted c))
  || negb (Bool.eqb (ob_CommitSuggested previous) (ob_CommitSuggested current)).

Definition InputPreviewPollInterval : duration := 80 * Millisecond.

(** ** The orchestrator *)

Record SessionOrchestrator (S P : Type) := mkOrchestrator {
  memoryStore : S;
  preview : option (inputTurnPreview P);
  turn : option orchestratedTurn;
  lastPlaybackOutcome : option PlaybackOutcome
}.
Arguments mkOrchestrator {S P} _ _ _ _.
Arguments memoryStore {S P} _.
Arguments preview {S P} _.
Arguments turn {S P} _.
Arguments lastPlaybackOutcome {S P} _.

Section Methods.
Context {S P : Type} `{!MemoryStore S} `{!PreviewSession P}.
Abbreviation orch := (SessionOrchestrator S P).

Definition NewSessionOrchestrator (store : S) : orch := mkOrchestrator store None None None.

Definition with_preview (p : option (inputTurnPreview P)) (o : orch) : orch :=
  mkOrchestrator (memoryStore o) p (turn o) (lastPlaybackOutcome o).
Definition with_turn (t : option orchestratedTurn) (o : orch) : orch :=
  mkOrchestrator (memoryStore o) (preview o) t (lastPlaybackOutcome o).

(** [session] is what [StartInputPreview] returned. *)
Definition EnsureInputPreview (session : P) (o : orch) : orch :=
  match preview o with
  | Some _ => o
  | None => with_preview (Some (mkTurnPreview session zero_InputPreview "" false)) o
  end.

Definition recordInputPreviewSnapshot (snapshot : InputPreview) (o : orch) : orch * InputPreviewObservation :=
  match preview o with
  | None => (o, mkObservation snapshot false false false)
  | Some p =>
      let changed := (PartialText snapshot != "") && (PartialText snapshot != tp_lastPartialText p) in
      let commitNew := CommitSuggested snapshot && negb (tp_lastCommitLogged p) in
      (with_preview (Some (mkTurnPreview (tp_session p) snapshot
                             (if changed then PartialText snapshot else tp_lastPartialText p)
                             (if commitNew then true else tp_lastCommitLogged p))) o,
       mkObservation snapshot true changed commitNew)
  end.

Definition set_session (session : P) (o : orch) : orch :=
  match preview o with
  | None => o
  | Some p => with_preview (Some (mkTurnPreview session (tp_last p) (tp_lastPartialText p) (tp_lastCommitLogged p))) o
  end.

(** The observations of a list of intermediate snapshots, in order. *)
Fixpoint record_all (snapshots : list InputPreview) (o : orch) : orch * list InputPreviewObservation :=
  match snapshots with
  | [] => (o, [])
  | s :: snapshots =>
      let '(o, obs) := recordInputPreviewSnapshot s o in
      let '(o, rest) := record_all snapshots o in
      (o, obs :: rest)
  end.

(** The orchestrator, the observations handed to [emit], and the result. *)
Definition PushInputPreviewAudioProgressively (now : instant) (payload : list byte) (o : orch)
    : orch * list InputPreviewObservation * result text InputPreviewObservation :=
  match preview o with
  | None => (o, [], Ok zero_observation)
  | Some p =>
      let '(session, (intermediate, final)) := ps_push now payload (tp_session p) in
      let o := set_session session o in
      if ps_progressive (tp_session p) then
        let '(o, emitted) := record_all intermediate o in
        match final with
        | Err e => (o, emitted, Err e)
        | Ok snapshot =>
            let '(o, finalObservation) := recordInputPreviewSnapshot snapshot o in
            let emit_final :=
              match last emitted with
              | None => true
              | Some lastObservation => shouldEmitFinalPreviewObservation lastObservation finalObservation
              end in
            (o, if emit_final then emitted ++ [finalObservation] else emitted, Ok finalObservation)
        end
      else
        match final with
        | Err e => (o, [], Err e)
        | Ok snapshot =>
            let '(o, observation) := recordInputPreviewSnapshot snapshot o in
            (o, [observation], Ok observation)
        end
  end.

Definition PollInputPreview (now : instant) (o : orch) : orch * InputPreviewObservation :=
  match preview o with
  | None => (o, zero_observation)
  | Some p =>
      let '(session, snapshot) := ps_poll now (tp_session p) in
      recordInputPreviewSnapshot snapshot (set_session session o)
  end.

Definition ClearInputPreview (o : orch) : orch := with_preview None o.

Definition PreviewReadDeadline (now : instant) (o : orch) : instant :=
  match preview o with None => time_zero | Some _ => time_Add now InputPreviewPollInterval end.

Definition persistLocked (o : orch) : orch :=
  match turn o with
  | None => o
  | Some t => mkOrchestrator (store_save (turnRecord t) (memoryStore o)) (preview o) (turn o) (lastPlaybackOutcome o)
  end.

Definition captureLastPlaybackOutcomeLocked (o : orch) : orch :=
  match turn o with
  | None => o
  | Some t => mkOrchestrator (memoryStore o) (preview o) (turn o) (Some (playbackOutcomeFromTurn t))
  end.

(** A settled turn: it is written, reported and dropped. *)
Definition settle (t : orchestratedTurn) (o : orch) : orch :=
  with_turn None (captureLastPlaybackOutcomeLocked (persistLocked (with_turn (Some t) o))).

Definition PrepareTurn (req : TurnRequest) (inText respText : text) (o : orch) : orch :=
  let fresh := mkTurn (cloneTurnRequest req) (TrimSpace inText) (tr_Metadata req) (TrimSpace respText)
                 "" "" false false false false 0 0 0 (PolicyOther "") "" HeardTextBoundaryNone
                 HeardTextSourceUnknown HeardTextConfidenceUnknown HeardTextPrecisionTierUnknown false None in
  let t :=
    match turn o with
    | Some t =>
        if tr_TurnID (request t) == tr_TurnID req then
          let t := t <|request := cloneTurnRequest req|> <|turn_metadata := tr_Metadata req|> in
          let t := if TrimSpace inText != "" then t <|inputText := TrimSpace inText|> else t in
          if TrimSpace respText != "" then t <|responseText := TrimSpace respText|> else t
        else fresh
    | None => fresh
    end in
  persistLocked (with_turn (Some t) o).

Definition FinalizeTextResponse (delivered : text) (o : orch) : orch :=
  match turn o with
  | None => o
  | Some t =>
      let delivered := TrimSpace delivered in
      settle (t <|deliveredText := delivered|> <|heardText := delivered|> <|playbackCompleted := true|>
                <|playbackActive := false|>
                <|heardTextBoundary := heardTextBoundaryForTexts delivered delivered|>) o
  end.

Definition StartPlaybackWithOptions (delivered : text) (chunk planned : duration) (clientFacts : bool) (o : orch) : orch :=
  match turn o with
  | None => o
  | Some t =>
      with_turn (Some (t
        <|deliveredText := TrimSpace delivered|> <|chunkDuration := chunk|> <|plannedDuration := planned|>
        <|playedDuration := 0|> <|playbackActive := true|> <|playbackCompleted := false|>
        <|responseInterrupted := false|> <|responseTruncated := false|> <|heardText := txt ""|>
        <|heardTextBoundary := HeardTextBoundaryNone|> <|heardSource := HeardTextSourceUnknown|>
        <|heardConfidence := HeardTextConfidenceUnknown|>
        <|heardPrecisionTier := HeardTextPrecisionTierUnknown|> <|preferClientFacts := clientFacts|>
        <|interruptionPolicy := InterruptionPolicyIgnore|> <|interruptionReason := txt ""|>
        <|softRecovery := None|>)) o
  end.

Definition StartPlayback (delivered : text) (chunk planned : duration) : orch -> orch :=
  StartPlaybackWithOptions delivered chunk planned false.

Definition UpdatePlayback (delivered : text) (planned : duration) (o : orch) : orch :=
  match turn o with
  | None => o
  | Some t =>
      let t := if TrimSpace delivered != "" then t <|deliveredText := TrimSpace delivered|> else t in
      let t := if 0 <? planned then t <|plannedDuration := planned|> else t in
      let t := if playbackActive t then updateHeardTextLocked (playedDuration t) (heardSource t) t else t in
      persistLocked (with_turn (Some t) o)
  end.

Definition ObservePlaybackChunk (o : orch) : orch :=
  match turn o with
  | None => o
  | Some t =>
      if negb (playbackActive t) || preferClientFacts t then o
      else with_turn (Some (updateHeardTextLocked (i64 (playedDuration t + chunkDuration t))
                              HeardTextSourceHeuristicBytes t)) o
  end.

(** The facts that hold only while the playback is active. *)
Definition on_active_playback (f : orchestratedTurn -> orchestratedTurn) (o : orch) : orch :=
  match turn o with
  | None => o
  | Some t => if negb (playbackActive t) then o else with_turn (Some (f t)) o
  end.

Definition ObservePlaybackStartedFact : orch -> orch :=
  on_active_playback (fun t =>
    t <|heardSource := HeardTextSourcePlaybackStarted|> <|heardConfidence := HeardTextConfidenceMedium|>
      <|heardPrecisionTier := HeardTextPrecisionTierTier1|>).

Definition ObservePlaybackMarkFact (played : duration) : orch -> orch :=
  on_active_playback (updateHeardTextLocked played HeardTextSourceSegmentMark).

Definition ObservePlaybackMarkTextFact (played : duration) (heard : text) : orch -> orch :=
  on_active_playback (updateHeardTextExactLocked played heard HeardTextSourceSegmentMark).

(** The whole delivered text counts as heard. *)
Definition hear_all (t : orchestratedTurn) : orchestratedTurn :=
  let t := if TrimSpace (deliveredText t) != "" then t <|heardText := deliveredText t|> else t in
  t <|heardTextBoundary := heardTextBoundaryForTexts (deliveredText t) (heardText t)|>.

Definition ObservePlaybackCompletedFact (o : orch) : orch :=
  match turn o with
  | None => o
  | Some t =>
      with_turn (Some (hear_all (updateHeardTextLocked (maxDuration (plannedDuration t) (playedDuration t))
                                   HeardTextSourcePlaybackCompleted t))) o
  end.

Definition RecordInterruptionPolicy (policy : InterruptionPolicy) (reason : text) (o : orch) : orch :=
  match turn o with
  | None => o
  | Some t =>
      let '(t, normalized) := recordInterruptionPolicyLocked policy reason t in
      let t := match normalized with
               | InterruptionPolicyBackchannel | InterruptionPolicyDuckOnly =>
                   captureSoftRecoverySnapshotLocked normalized (TrimSpace reason) t
               | _ => t
               end in
      with_turn (Some t) o
  end.

Definition RecordInterruptionDecision (decision : BargeInDecision) : orch -> orch :=
  RecordInterruptionPolicy (bd_Policy decision) (bd_Reason decision).

Definition InterruptPlaybackWithPolicy (policy : InterruptionPolicy) (reason : text) (o : orch)
    : orch * PlaybackInterruption :=
  let policy := normalizeInterruptionPolicy policy in
  let reason := TrimSpace reason in
  let policy := if bool_decide (policy = InterruptionPolicyIgnore) then InterruptionPolicyHardInterrupt else policy in
  let reason := if reason == "" then policy_text policy else reason in
  let idle := mkInterruption policy reason "" HeardTextBoundaryUnset 0 0 false in
  match turn o with
  | None => (o, idle)
  | Some t =>
      if negb (playbackActive t) then (o, idle) else
      let '(t, _) := recordInterruptionPolicyLocked policy reason t in
      let t := refreshHeardText t in
      let heard := heardText t in
      let boundary := heardTextBoundary t in
      let t := t <|playbackActive := false|> <|playbackCompleted := false|> <|responseInterrupted := true|>
                 <|responseTruncated := bool_decide (boundary = HeardTextBoundaryPrefix)|> in
      (settle t o,
       mkInterruption policy reason heard boundary (playedDuration t) (plannedDuration t) (responseTruncated t))
  end.

Definition InterruptPlayback : orch -> orch * PlaybackInterruption :=
  InterruptPlaybackWithPolicy InterruptionPolicyHardInterrupt "hard_interrupt".

Definition InterruptPlaybackWithDecision (decision : BargeInDecision) : orch -> orch * PlaybackInterruption :=
  InterruptPlaybackWithPolicy (bd_Policy decision) (bd_Reason decision).

Definition completedTurn (source : HeardTextSource) (t : orchestratedTurn) : orchestratedTurn :=
  let preCompletionBoundary := currentPlaybackBoundarySnapshotLocked t in
  let t := t <|playbackActive := false|> <|playbackCompleted := true|> in
  let played :=
    if bool_decide (normalizeHeardTextSource source HeardTextSourceUnknown = HeardTextSourcePlaybackCompleted)
    then maxDuration (plannedDuration t) (playedDuration t) else playedDuration t in
  let t := hear_all (updateHeardTextLocked played source t) in
  let t := applySoftRecoveryOutcomeLocked preCompletionBoundary t in
  t <|responseInterrupted := false|> <|responseTruncated := false|>.

Definition CompletePlaybackWithSource (source : HeardTextSource) (o : orch) : orch :=
  match turn o with
  | None => o
  | Some t => settle (completedTurn source t) o
  end.

Definition CompletePlayback : orch -> orch := CompletePlaybackWithSource HeardTextSourceHeuristicBytes.

Definition LastPlaybackContextMetadata (o : orch) : metadata :=
  match lastPlaybackOutcome o with
  | None => ∅
  | Some outcome => playbackOutcomeContextMetadata outcome
  end.

End Methods.

(** ** Laws of the turn *)

Lemma boundary_trim a b : heardTextBoundaryForTexts (TrimSpace a) (TrimSpace b) = heardTextBoundaryForTexts a b.
Proof. unfold heardTextBoundaryForTexts. by rewrite !TrimSpace_idemp. Qed.

Lemma boundary_nothing a : heardTextBoundaryForTexts a "" = HeardTextBoundaryNone.
Proof. reflexivity. Qed.

Record turn_inv (t : orchestratedTurn) : Prop := {
  ti_confidence : heardConfidence t = heardTextConfidenceForSource (heardSource t);
  ti_precision : heardPrecisionTier t = heardTextPrecisionTierForSource (heardSource t);
  ti_reason : normalizeInterruptionPolicy (interruptionPolicy t) <> InterruptionPolicyIgnore ->
              interruptionReason t <> "";
  ti_soft : forall s, softRecovery t = Some s ->
              sr_policy s = InterruptionPolicyBackchannel \/ sr_policy s = InterruptionPolicyDuckOnly;
  ti_active : playbackActive t = true ->
    trimmed (deliveredText t) /\ heardText t `prefix_of` deliveredText t /\
    heardTextBoundary t = heardTextBoundaryForTexts (deliveredText t) (heardText t) /\
    0 <= playedDuration t
}.

(** What [set_heard] needs to keep the invariant. *)
Lemma set_heard_inv heard boundary source t :
  turn_inv t ->
  (playbackActive t = true -> heard `prefix_of` deliveredText t /\
     boundary = heardTextBoundaryForTexts (deliveredText t) heard) ->
  turn_inv (set_heard heard boundary source t).
Proof.
  intros [H1 H2 H3 H4 H5] Hh. unfold set_heard. split; read_fields; auto.
  intros Ha. destruct (H5 Ha) as (? & _ & _ & ?). destruct (Hh Ha). repeat split; auto.
Qed.

Lemma advance_played_inv played t : turn_inv t -> turn_inv (advance_played played t).
Proof.
  intros [H1 H2 H3 H4 H5]. unfold advance_played. destruct (playedDuration t <? played) eqn:E; [|by split].
  split; read_fields; auto. intros Ha. destruct (H5 Ha) as (? & ? & ? & ?). bool_prop. repeat split; auto. lia.
Qed.

Lemma updateHeardText_inv played source t : turn_inv t -> turn_inv (updateHeardTextLocked played source t).
Proof.
  intros Hi. pose proof (advance_played_inv played t Hi) as Hi'. unfold updateHeardTextLocked. cbv zeta.
  apply set_heard_inv; [done|]. intros Ha. destruct (ti_active _ Hi' Ha) as (Ht & _).
  split; [|done]. pose proof (heard_prefix (deliveredText (advance_played played t))
     (playedDuration (advance_played played t)) (plannedDuration (advance_played played t))) as Hp.
  by rewrite Ht in Hp.
Qed.

Lemma updateHeardTextExact_inv played heard source t :
  turn_inv t -> turn_inv (updateHeardTextExactLocked played heard source t).
Proof.
  intros Hi. pose proof (advance_played_inv played t Hi) as Hi'. unfold updateHeardTextExactLocked. cbv zeta.
  set (t' := advance_played played t) in *. clearbody t'.
  destruct (_ || negb _) eqn:E; [by apply updateHeardText_inv|].
  apply set_heard_inv; [done|]. intros Ha. destruct (ti_active _ Hi' Ha) as (Ht & _).
  bool_prop. match goal with H : HasPrefix _ _ = true |- _ => apply HasPrefix_spec in H; rewrite Ht in H end.
  split; [done|]. unfold heardTextBoundaryForTexts. by rewrite !TrimSpace_idemp.
Qed.

Lemma refresh_inv t : turn_inv t -> turn_inv (refreshHeardText t).
Proof. intros Hi. unfold refreshHeardText. split_if; [done | by apply updateHeardText_inv]. Qed.

Lemma record_policy_inv policy reason t : turn_inv t -> turn_inv (recordInterruptionPolicyLocked policy reason t).1.
Proof.
  intros [H1 H2 H3 H4 H5]. unfold recordInterruptionPolicyLocked. cbv zeta.
  split_if; [by split|]. cbn [fst]. split; read_fields; auto. intros _.
  destruct (TrimSpace reason == "") eqn:E; [|by text_prop].
  bool_prop. destruct policy; cbn [normalizeInterruptionPolicy] in *; done.
Qed.

Lemma record_policy_result policy reason t :
  (recordInterruptionPolicyLocked policy reason t).2 = normalizeInterruptionPolicy policy.
Proof. unfold recordInterruptionPolicyLocked. cbv zeta. by split_if. Qed.

Lemma capture_soft_inv policy reason t :
  policy = InterruptionPolicyBackchannel \/ policy = InterruptionPolicyDuckOnly ->
  turn_inv t -> turn_inv (captureSoftRecoverySnapshotLocked policy reason t).
Proof.
  intros Hp Hi. unfold captureSoftRecoverySnapshotLocked. destruct (negb (playbackActive t)); [done|].
  pose proof (refresh_inv t Hi) as Hi'. cbv zeta. split_if; [done|].
  destruct Hi' as [H1 H2 H3 H4 H5]. split; read_fields; auto. by intros s [= <-].
Qed.

Lemma hear_all_inv t : turn_inv t -> turn_inv (hear_all t).
Proof.
  intros [H1 H2 H3 H4 H5]. unfold hear_all.
  destruct (TrimSpace (deliveredText t) != ""); split; read_fields; auto;
    intros Ha; destruct (H5 Ha) as (? & ? & ? & ?); repeat split; auto.
Qed.

Lemma apply_soft_inv pre t : playbackActive t = false -> turn_inv t -> turn_inv (applySoftRecoveryOutcomeLocked pre t).
Proof.
  intros Hn Hi. unfold applySoftRecoveryOutcomeLocked. destruct (softRecovery t) as [s|]; [|done].
  split_if; [done|]. destruct (preferredSoftRecoveryBoundary _ _ _); [|done].
  apply set_heard_inv; [done|]. congruence.
Qed.

(** ** Traces of an orchestrator *)

Inductive orch_op (P : Type) :=
| OEnsure (session : P) | OPush (now : instant) (payload : list byte) | OPoll (now : instant) | OClear
| OPrepare (req : TurnRequest) (inText respText : text)
| OText (delivered : text)
| OStart (delivered : text) (chunk planned : duration) (clientFacts : bool)
| OUpdate (delivered : text) (planned : duration)
| OChunk | OStarted | OMark (played : duration) | OMarkText (played : duration) (heard : text) | OCompletedFact
| ORecord (policy : InterruptionPolicy) (reason : text)
| OInterrupt (policy : InterruptionPolicy) (reason : text)
| OComplete (source : HeardTextSource).
Arguments OEnsure {P} _.
Arguments OPush {P} _ _.
Arguments OPoll {P} _.
Arguments OClear {P}.
Arguments OPrepare {P} _ _ _.
Arguments OText {P} _.
Arguments OStart {P} _ _ _ _.
Arguments OUpdate {P} _ _.
Arguments OChunk {P}.
Arguments OStarted {P}.
Arguments OMark {P} _.
Arguments OMarkText {P} _ _.
Arguments OCompletedFact {P}.
Arguments ORecord {P} _ _.
Arguments OInterrupt {P} _ _.
Arguments OComplete {P} _.

Section Traces.
Context {S P : Type} `{!MemoryStore S} `{!PreviewSession P}.
Abbreviation orch := (SessionOrchestrator S P).

Definition orch_step (o : orch) (e : orch_op P) : orch :=
  match e with
  | OEnsure session => EnsureInputPreview session o
  | OPush now payload => (PushInputPreviewAudioProgressively now payload o).1.1
  | OPoll now => (PollInputPreview now o).1
  | OClear => ClearInputPreview o
  | OPrepare req inText respText => PrepareTurn req inText respText o
  | OText delivered => FinalizeTextResponse delivered o
  | OStart delivered chunk planned clientFacts => StartPlaybackWithOptions delivered chunk planned clientFacts o
  | OUpdate delivered planned => UpdatePlayback delivered planned o
  | OChunk => ObservePlaybackChunk o
  | OStarted => ObservePlaybackStartedFact o
  | OMark played => ObservePlaybackMarkFact played o
  | OMarkText played heard => ObservePlaybackMarkTextFact played heard o
  | OCompletedFact => ObservePlaybackCompletedFact o
  | ORecord policy reason => RecordInterruptionPolicy policy reason o
  | OInterrupt policy reason => (InterruptPlaybackWithPolicy policy reason o).1
  | OComplete source => CompletePlaybackWithSource source o
  end.

Definition orch_run (events : list (orch_op P)) (o : orch) : orch := fold_left orch_step events o.

Definition orch_inv (o : orch) : Prop := forall t, turn o = Some t -> turn_inv t.

Lemma with_turn_inv t (o : orch) : turn_inv t -> orch_inv (with_turn (Some t) o).
Proof. intros Ht t'. cbn. by intros [= <-]. Qed.

Lemma persist_turn (o : orch) : turn (persistLocked o) = turn o.
Proof. unfold persistLocked. by destruct (turn o) eqn:E. Qed.

Lemma settle_turn t (o : orch) : turn (settle t o) = None.
Proof. reflexivity. Qed.

Lemma record_snapshot_turn s (o : orch) : turn (recordInputPreviewSnapshot s o).1 = turn o.
Proof. unfold recordInputPreviewSnapshot. by destruct (preview o). Qed.

Lemma set_session_turn s (o : orch) : turn (set_session s o) = turn o.
Proof. unfold set_session. by destruct (preview o). Qed.

Lemma record_all_turn l (o : orch) : turn (record_all l o).1 = turn o.
Proof.
  revert o. induction l as [|s l IH]; intros o; cbn; [done|].
  pose proof (record_snapshot_turn s o) as H. destruct (recordInputPreviewSnapshot s o) as [o1 ob].
  specialize (IH o1). destruct (record_all l o1) as [o2 obs]. cbn in *. by rewrite IH.
Qed.

(** The preview side never touches the turn. *)
Lemma push_turn now payload (o : orch) : turn (PushInputPreviewAudioProgressively now payload o).1.1 = turn o.
Proof.
  unfold PushInputPreviewAudioProgressively. destruct (preview o) as [p|]; [|done].
  destruct (ps_push now payload (tp_session p)) as [session [intermediate final]].
  pose proof (set_session_turn session o) as Hs. destruct (ps_progressive (tp_session p)).
  - pose proof (record_all_turn intermediate (set_session session o)) as Hr.
    destruct (record_all intermediate (set_session session o)) as [o1 obs]. cbn [fst] in Hr.
    destruct final as [snap|e]; [|cbn; congruence].
    pose proof (record_snapshot_turn snap o1) as Hq. destruct (recordInputPreviewSnapshot snap o1) as [o2 ob].
    cbn in *. congruence.
  - destruct final as [snap|e]; [|cbn; congruence].
    pose proof (record_snapshot_turn snap (set_session session o)) as Hq.
    destruct (recordInputPreviewSnapshot snap (set_session session o)) as [o2 ob]. cbn in *. congruence.
Qed.

Lemma poll_turn now (o : orch) : turn (PollInputPreview now o).1 = turn o.
Proof.
  unfold PollInputPreview. destruct (preview o) as [p|]; [|done].
  destruct (ps_poll now (tp_session p)) as [session snap].
  by rewrite record_snapshot_turn, set_session_turn.
Qed.

Lemma orch_inv_same_turn (o o' : orch) : turn o' = turn o -> orch_inv o -> orch_inv o'.
Proof. unfold orch_inv. by intros ->. Qed.

Lemma prepare_inv req inText respText (o : orch) : orch_inv o -> orch_inv (PrepareTurn req inText respText o).
Proof.
  intros Ho t. unfold PrepareTurn. rewrite persist_turn. cbn [with_turn turn]. intros [= <-].
  assert (Hfresh : forall r m, turn_inv (mkTurn r (TrimSpace inText) m (TrimSpace respText)
     "" "" false false false false 0 0 0 (PolicyOther "") "" HeardTextBoundaryNone
     HeardTextSourceUnknown HeardTextConfidenceUnknown HeardTextPrecisionTierUnknown false None))
    by (intros; by split).
  destruct (turn o) as [t|] eqn:Et; [|apply Hfresh]. split_if; [|apply Hfresh].
  destruct (Ho t Et) as [H1 H2 H3 H4 H5].
  destruct (TrimSpace inText != ""), (TrimSpace respText != ""); split; read_fields; auto.
Qed.

Lemma update_playback_inv delivered planned (o : orch) : orch_inv o -> orch_inv (UpdatePlayback delivered planned o).
Proof.
  intros Ho. unfold UpdatePlayback. destruct (turn o) as [t|] eqn:Et; [|done].
  pose proof (Ho t Et) as Hi. eapply orch_inv_same_turn; [apply persist_turn|]. apply with_turn_inv. cbv zeta.
  set (t1 := if TrimSpace delivered != "" then t <|deliveredText := TrimSpace delivered|> else t).
  set (t2 := if 0 <? planned then t1 <|plannedDuration := planned|> else t1).
  assert (Hpa : playbackActive t2 = playbackActive t)
    by (subst t2 t1; destruct (TrimSpace delivered != ""), (0 <? planned); by read_fields).
  destruct Hi as [H1 H2 H3 H4 H5].
  assert (Hd : playbackActive t = true -> trimmed (deliveredText t2) /\ 0 <= playedDuration t2).
  { intros Ha. destruct (H5 Ha) as (? & _ & _ & ?). subst t2 t1.
    destruct (TrimSpace delivered != ""), (0 <? planned); read_fields; auto with go. }
  assert (Hc : heardConfidence t2 = heardTextConfidenceForSource (heardSource t2) /\
     heardPrecisionTier t2 = heardTextPrecisionTierForSource (heardSource t2) /\
     (normalizeInterruptionPolicy (interruptionPolicy t2) <> InterruptionPolicyIgnore -> interruptionReason t2 <> "") /\
     softRecovery t2 = softRecovery t)
    by (subst t2 t1; destruct (TrimSpace delivered != ""), (0 <? planned); by read_fields).
  destruct Hc as (C1 & C2 & C3 & C4). rewrite Hpa. clearbody t2. clear t1.
  destruct (playbackActive t) eqn:Ea.
  - destruct (Hd eq_refl) as [Ht Hpl]. unfold updateHeardTextLocked, set_heard, advance_played. cbv zeta.
    rewrite Z.ltb_irrefl. split; read_fields; auto; [by rewrite C4|]. intros _. repeat split; auto.
    pose proof (heard_prefix (deliveredText t2) (playedDuration t2) (plannedDuration t2)) as Hp. by rewrite Ht in Hp.
  - split; auto; [by rewrite C4|]. rewrite Hpa. done.
Qed.

Lemma active_inv f (o : orch) :
  (forall t, turn_inv t -> turn_inv (f t)) -> orch_inv o -> orch_inv (on_active_playback f o).
Proof.
  intros Hf Ho. unfold on_active_playback. destruct (turn o) as [t|] eqn:Et; [|done].
  split_if; [done|]. apply with_turn_inv, Hf, Ho, Et.
Qed.

Lemma orch_step_inv (o : orch) e : orch_inv o -> orch_inv (orch_step o e).
Proof.
  intros Ho. destruct e; cbn [orch_step].
  - eapply orch_inv_same_turn; [|exact Ho]. unfold EnsureInputPreview. by destruct (preview o).
  - eapply orch_inv_same_turn; [apply push_turn | exact Ho].
  - eapply orch_inv_same_turn; [apply poll_turn | exact Ho].
  - exact Ho.
  - by apply prepare_inv.
  - unfold FinalizeTextResponse. destruct (turn o); [intros t'; by rewrite settle_turn | done].
  - unfold StartPlaybackWithOptions. destruct (turn o); [|done]. apply with_turn_inv. split; read_fields; auto; try done.
    intros _.
    split; [apply trimmed_TrimSpace|]. split; [apply prefix_nil | by split].
  - by apply update_playback_inv.
  - unfold ObservePlaybackChunk. destruct (turn o) as [t|] eqn:Et; [|done]. split_if; [done|].
    apply with_turn_inv, updateHeardText_inv, Ho, Et.
  - apply active_inv; [|done]. intros t [H1 H2 H3 H4 H5]. split; read_fields; auto.
  - apply active_inv; [|done]. intros t. apply updateHeardText_inv.
  - apply active_inv; [|done]. intros t. apply updateHeardTextExact_inv.
  - unfold ObservePlaybackCompletedFact. destruct (turn o) as [t|] eqn:Et; [|done].
    apply with_turn_inv, hear_all_inv, updateHeardText_inv, Ho, Et.
  - unfold RecordInterruptionPolicy. destruct (turn o) as [t|] eqn:Et; [|done].
    pose proof (record_policy_inv policy reason t (Ho t Et)) as Hr.
    pose proof (record_policy_result policy reason t) as Hn.
    destruct (recordInterruptionPolicyLocked policy reason t) as [t' n]. cbn [fst snd] in *.
    apply with_turn_inv. destruct n; auto; apply capture_soft_inv; auto.
  - unfold InterruptPlaybackWithPolicy. destruct (turn o) as [t|] eqn:Et; [|done]. cbv zeta.
    split_if; [done|]. destruct (recordInterruptionPolicyLocked _ _ t). intros t'. cbn [fst]. by rewrite settle_turn.
  - unfold CompletePlaybackWithSource. destruct (turn o); [|done]. intros t'. by rewrite settle_turn.
Qed.

Lemma orchestrated_inv_run (events : list (orch_op P)) (store : S) t :
  turn (orch_run events (NewSessionOrchestrator store)) = Some t -> turn_inv t.
Proof.
  revert t. change (orch_inv (orch_run events (NewSessionOrchestrator store))). unfold orch_run.
  apply (fold_left_inv orch_inv); [by intros t|]. intros o e _. apply orch_step_inv.
Qed.

(** C29. Every turn an orchestrator follows is well formed, whatever sequence
    of requests, facts, policies and preview events reaches it, over any
    memory store and preview session: confidence and precision are those of
    the heard source, a recorded policy has a reason, a soft recovery point
    belongs to a soft policy, and while the answer plays the heard text is a
    prefix of the delivered one with the boundary of exactly that prefix. *)
Theorem orchestrated_turn_wellformed (events : list (orch_op P)) (store : S) t :
  turn (orch_run events (NewSessionOrchestrator store)) = Some t -> turn_inv t.
Proof. apply orchestrated_inv_run. Qed.
End Traces.

(** ** How a turn ends *)

(** The fields of a turn that hearing more of it does not change. *)
Record same_answer (t t' : orchestratedTurn) : Prop := {
  sa_request : request t' = request t;
  sa_delivered : deliveredText t' = deliveredText t;
  sa_planned : plannedDuration t' = plannedDuration t;
  sa_active : playbackActive t' = playbackActive t;
  sa_completed : playbackCompleted t' = playbackCompleted t;
  sa_soft : softRecovery t' = softRecovery t
}.

Lemma same_answer_trans a b c : same_answer a b -> same_answer b c -> same_answer a c.
Proof. intros [] []. split; congruence. Qed.

Lemma set_heard_same heard boundary source t : same_answer t (set_heard heard boundary source t).
Proof. unfold set_heard. by split; read_fields. Qed.

Lemma advance_same played t : same_answer t (advance_played played t).
Proof. unfold advance_played. split_if; by split; read_fields. Qed.

Lemma update_same played source t : same_answer t (updateHeardTextLocked played source t).
Proof. unfold updateHeardTextLocked. eapply same_answer_trans; [apply advance_same | apply set_heard_same]. Qed.

Lemma refresh_same t : same_answer t (refreshHeardText t).
Proof. unfold refreshHeardText. split_if; [by split | apply update_same]. Qed.

Lemma record_policy_same policy reason t : same_answer t (recordInterruptionPolicyLocked policy reason t).1.
Proof. unfold recordInterruptionPolicyLocked. cbv zeta. split_if; by split; cbn [fst]; read_fields. Qed.

Lemma hear_all_same t : same_answer t (hear_all t).
Proof. unfold hear_all. destruct (_ != ""); by split; read_fields. Qed.

Lemma hear_all_heard t : TrimSpace (deliveredText t) <> "" -> heardText (hear_all t) = deliveredText t.
Proof.
  intros H. unfold hear_all. apply text_eqb_false in H. rewrite H. cbn [negb]. by read_fields.
Qed.

Lemma turnRecord_fields t :
  mr_TurnID (turnRecord t) = tr_TurnID (request t) /\ mr_SessionID (turnRecord t) = tr_SessionID (request t) /\
  mr_DeliveredText (turnRecord t) = deliveredText t /\ mr_HeardText (turnRecord t) = heardText t /\
  mr_ResponseInterrupted (turnRecord t) = responseInterrupted t /\
  mr_ResponseTruncated (turnRecord t) = responseTruncated t /\
  mr_PlaybackCompleted (turnRecord t) = playbackCompleted t.
Proof. unfold turnRecord. read_fields. by repeat split. Qed.

Definition session_key (t : orchestratedTurn) : text := txt "session:" ++ TrimSpace (tr_SessionID (request t)).

(** A turn that memory can find again. *)
Definition addressable (t : orchestratedTurn) : Prop :=
  tr_TurnID (request t) <> "" /\ TrimSpace (tr_SessionID (request t)) <> [].

Section Outcomes.
Context {S P : Type} `{!MemoryStore S} `{!MemoryStoreLaws S} `{!PreviewSession P}.
Abbreviation orch := (SessionOrchestrator S P).

(** Settling a turn writes its record where any reader of the session finds it. *)
Lemma settle_recall t (o : orch) :
  store_ok (memoryStore o) -> addressable t ->
  store_recall (memoryStore (settle t o)) (session_key t) (tr_TurnID (request t)) = Some (turnRecord t).
Proof.
  intros Hok [Hid Hs]. destruct (turnRecord_fields t) as (Ht & Hse & _). cbn.
  rewrite <- Ht. apply recall_saved; [done | by rewrite Ht|].
  unfold session_key. rewrite <- Hse. apply session_key_in. by rewrite Hse.
Qed.

(** What an interruption leaves: the turn that is settled. *)
Lemma interrupt_steps policy reason t (o : orch) :
  turn o = Some t -> playbackActive t = true -> turn_inv t ->
  let '(o', r) := InterruptPlaybackWithPolicy policy reason o in
  normalizeInterruptionPolicy (pi_Policy r) = pi_Policy r /\ pi_Policy r <> InterruptionPolicyIgnore /\
  pi_Reason r <> "" /\
  trimmed (deliveredText t) /\ pi_HeardText r `prefix_of` deliveredText t /\
  pi_HeardTextBoundary r = heardTextBoundaryForTexts (deliveredText t) (pi_HeardText r) /\
  (pi_Truncated r = true <-> pi_HeardTextBoundary r = HeardTextBoundaryPrefix) /\
  exists t', o' = settle t' o /\ request t' = request t /\ heardText t' = pi_HeardText r /\
    deliveredText t' = deliveredText t /\ responseInterrupted t' = true /\ playbackCompleted t' = false.
Proof.
  intros Ht Ha Hi. unfold InterruptPlaybackWithPolicy. cbv zeta. rewrite Ht, Ha. cbn [negb].
  set (p := if bool_decide (normalizeInterruptionPolicy policy = InterruptionPolicyIgnore)
            then InterruptionPolicyHardInterrupt else normalizeInterruptionPolicy policy).
  set (why := if TrimSpace reason == "" then policy_text p else TrimSpace reason).
  assert (Hp : normalizeInterruptionPolicy p = p /\ p <> InterruptionPolicyIgnore).
  { subst p. by destruct policy. }
  assert (Hw : why <> "").
  { subst why. destruct (TrimSpace reason == "") eqn:E; [|by text_prop].
    destruct Hp as [Hp1 Hp2]. destruct p; done. }
  pose proof (record_policy_inv p why t Hi) as Hi1. pose proof (record_policy_same p why t) as Hs1.
  destruct (recordInterruptionPolicyLocked p why t) as [t1 n]. cbn [fst] in Hi1, Hs1.
  pose proof (refresh_inv t1 Hi1) as Hi2.
  pose proof (same_answer_trans _ _ _ Hs1 (refresh_same t1)) as [Sr Sd Sp Sa Sc _].
  set (t2 := refreshHeardText t1) in *. clearbody t2.
  destruct (ti_active t2 Hi2) as (Htr & Hpre & Hb & _); [by rewrite Sa|].
  cbn [pi_Policy pi_Reason pi_HeardText pi_HeardTextBoundary pi_Truncated fst snd]. rewrite Sd in *.
  destruct Hp as [Hp1 Hp2]. repeat (split; [done|]).
  split; [read_fields; by rewrite bool_decide_eq_true|].
  eexists. split; [reflexivity|]. by read_fields.
Qed.

(** A barge-in settles the turn. Interrupting an active playback reports
    a real policy and a reason; what it reports as heard is a prefix of the
    delivered answer with its boundary, truncated exactly when the boundary
    is a proper prefix; the turn is gone, the outcome is kept for the next
    turn, and the memory of the session holds the interrupted turn with
    exactly the heard text that was reported. *)
Theorem interruption_settles policy reason t (o : orch) :
  turn o = Some t -> playbackActive t = true -> turn_inv t -> store_ok (memoryStore o) -> addressable t ->
  let '(o', r) := InterruptPlaybackWithPolicy policy reason o in
  normalizeInterruptionPolicy (pi_Policy r) = pi_Policy r /\ pi_Policy r <> InterruptionPolicyIgnore /\
  pi_Reason r <> "" /\
  pi_HeardText r `prefix_of` deliveredText t /\
  pi_HeardTextBoundary r = heardTextBoundaryForTexts (deliveredText t) (pi_HeardText r) /\
  (pi_Truncated r = true <-> pi_HeardTextBoundary r = HeardTextBoundaryPrefix) /\
  turn o' = None /\
  (exists out, lastPlaybackOutcome o' = Some out /\ po_HeardText out = TrimSpace (pi_HeardText r) /\
     po_ResponseInterrupted out = true /\ po_PlaybackCompleted out = false /\
     po_MissedText out = missedTextForTexts (deliveredText t) (pi_HeardText r)) /\
  (exists rec, store_recall (memoryStore o') (session_key t) (tr_TurnID (request t)) = Some rec /\
     mr_HeardText rec = pi_HeardText r /\ mr_DeliveredText rec = deliveredText t /\
     mr_ResponseInterrupted rec = true /\ mr_PlaybackCompleted rec = false).
Proof.
  intros Ht Ha Hi Hok Had. pose proof (interrupt_steps policy reason t o Ht Ha Hi) as H.
  destruct (InterruptPlaybackWithPolicy policy reason o) as [o' r].
  destruct H as (Hn & Hig & Hr & _ & Hpre & Hb & Htr & t3 & -> & R3 & Hh3 & D3 & In3 & C3).
  repeat (split; [done|]). split.
  - eexists. split; [reflexivity|]. unfold playbackOutcomeFromTurn.
    cbn [po_HeardText po_ResponseInterrupted po_PlaybackCompleted po_MissedText].
    by rewrite Hh3, In3, C3, D3.
  - assert (Had3 : addressable t3) by (unfold addressable; by rewrite R3).
    exists (turnRecord t3). unfold session_key. rewrite <- R3. split; [by apply settle_recall|].
    destruct (turnRecord_fields t3) as (_ & _ & -> & -> & -> & _ & ->). by rewrite Hh3, D3, In3, C3.
Qed.

Lemma completed_hard source t :
  softRecovery t = None -> TrimSpace (deliveredText t) <> "" ->
  heardText (completedTurn source t) = deliveredText t.
Proof.
  intros Hs Hd. unfold completedTurn. cbv zeta.
  set (t1 := t <|playbackActive := false|> <|playbackCompleted := true|>).
  set (pl := if bool_decide _ then _ else _).
  pose proof (same_answer_trans _ _ _ (update_same pl source t1) (hear_all_same _)) as [_ Hd2 _ _ _ Hs2].
  assert (Ht1 : deliveredText t1 = deliveredText t /\ softRecovery t1 = softRecovery t)
    by (subst t1; read_fields; by split).
  destruct Ht1 as [E1 E2]. read_fields. unfold applySoftRecoveryOutcomeLocked. rewrite Hs2, E2, Hs.
  rewrite hear_all_heard; destruct (update_same pl source t1) as [_ -> _ _ _ _]; rewrite E1; done.
Qed.

Lemma completed_fields source t :
  request (completedTurn source t) = request t /\ deliveredText (completedTurn source t) = deliveredText t /\
  responseInterrupted (completedTurn source t) = false /\ playbackCompleted (completedTurn source t) = true.
Proof.
  unfold completedTurn. cbv zeta.
  set (t1 := t <|playbackActive := false|> <|playbackCompleted := true|>).
  set (pl := if bool_decide _ then _ else _).
  pose proof (same_answer_trans _ _ _ (update_same pl source t1) (hear_all_same _)) as Hsa.
  set (t2 := hear_all (updateHeardTextLocked pl source t1)) in *. clearbody t2.
  assert (Hsoft : forall pre, same_answer t2 (applySoftRecoveryOutcomeLocked pre t2)).
  { intros pre. unfold applySoftRecoveryOutcomeLocked. destruct (softRecovery t2); [|by split].
    split_if; [by split|]. destruct (preferredSoftRecoveryBoundary _ _ _); [apply set_heard_same | by split]. }
  destruct (same_answer_trans _ _ _ Hsa (Hsoft (currentPlaybackBoundarySnapshotLocked t))) as [R D _ _ C _].
  read_fields. rewrite R, D, C. subst t1. read_fields. by repeat split.
Qed.

(** A completed answer is fully heard. When playback completes and no
    soft interruption marked a recovery point, the whole delivered text
    counts as heard, nothing is missed, and the session's memory holds the
    turn as completed with all of it. *)
Theorem completion_settles source t (o : orch) :
  turn o = Some t -> softRecovery t = None -> TrimSpace (deliveredText t) <> "" ->
  store_ok (memoryStore o) -> addressable t ->
  let o' := CompletePlaybackWithSource source o in
  turn o' = None /\
  (exists out, lastPlaybackOutcome o' = Some out /\ po_HeardText out = TrimSpace (deliveredText t) /\
     po_MissedText out = "" /\ po_HeardTextBoundary out = HeardTextBoundaryFull /\
     po_PlaybackCompleted out = true /\ po_ResponseInterrupted out = false) /\
  (exists rec, store_recall (memoryStore o') (session_key t) (tr_TurnID (request t)) = Some rec /\
     mr_HeardText rec = deliveredText t /\ mr_PlaybackCompleted rec = true /\
     memoryAssistantText rec = TrimSpace (deliveredText t)).
Proof.
  intros Ht Hs Hd Hok Had. unfold CompletePlaybackWithSource. rewrite Ht. cbv zeta.
  pose proof (completed_hard source t Hs Hd) as Hh. destruct (completed_fields source t) as (R & D & I & C).
  set (t' := completedTurn source t) in *. clearbody t'.
  split; [done|]. split.
  - eexists. split; [reflexivity|]. unfold playbackOutcomeFromTurn.
    cbn [po_HeardText po_MissedText po_HeardTextBoundary po_PlaybackCompleted po_ResponseInterrupted].
    rewrite Hh, D, I, C. apply text_eqb_false in Hd. repeat split.
    + unfold missedTextForTexts. cbv zeta. rewrite Z.leb_refl, orb_true_r. done.
    + unfold heardTextBoundaryForTexts. by rewrite Hd, text_eqb_refl, orb_true_r.
  - assert (Had' : addressable t') by (unfold addressable; by rewrite R).
    exists (turnRecord t'). unfold session_key. rewrite <- R. split; [by apply settle_recall|].
    destruct (turnRecord_fields t') as (_ & _ & Hdl & Hhe & _ & _ & Hpc).
    unfold memoryAssistantText. rewrite Hhe, Hpc, Hh, C. apply text_eqb_false in Hd. rewrite Hd. done.
Qed.
End Outcomes.

(** ** What observers of the preview see *)

Definition last_partial (prev : text) (snapshots : list InputPreview) : text :=
  fold_left (fun acc s => if PartialText s != "" then PartialText s else acc) snapshots prev.

Section Observations.
Context {S P : Type} `{!MemoryStore S} `{!PreviewSession P}.
Abbreviation orch := (SessionOrchestrator S P).

Lemma record_snapshot_some s p (o : orch) :
  preview o = Some p ->
  recordInputPreviewSnapshot s o =
    (with_preview (Some (mkTurnPreview (tp_session p) s (last_partial (tp_lastPartialText p) [s])
                           (tp_lastCommitLogged p || CommitSuggested s))) o,
     mkObservation s true ((PartialText s != "") && (PartialText s != tp_lastPartialText p))
       (CommitSuggested s && negb (tp_lastCommitLogged p))).
Proof.
  intros Hp. unfold recordInputPreviewSnapshot. rewrite Hp. cbv zeta. unfold last_partial. cbn [fold_left].
  assert ((if (PartialText s != "") && (PartialText s != tp_lastPartialText p) then PartialText s else tp_lastPartialText p)
          = (if PartialText s != "" then PartialText s else tp_lastPartialText p)) as ->.
  { destruct (PartialText s != ""); [|done]. cbn [andb].
    destruct (PartialText s == tp_lastPartialText p) eqn:E; [by text_prop | done]. }
  by destruct (CommitSuggested s), (tp_lastCommitLogged p).
Qed.

Lemma record_all_previews l (o : orch) : map ob_Preview (record_all l o).2 = l.
Proof.
  revert o. induction l as [|x l IH]; intros o; cbn [record_all]; [done|].
  assert (Hx : ob_Preview (recordInputPreviewSnapshot x o).2 = x)
    by (unfold recordInputPreviewSnapshot; by destruct (preview o)).
  destruct (recordInputPreviewSnapshot x o) as [o1 ob]. specialize (IH o1).
  destruct (record_all l o1) as [o2 obs]. cbn in *. congruence.
Qed.

(** Observations are deduplicated. Of a run of previews the observer sees
    every one, in order; a partial is reported as changed exactly when it is
    not empty and differs from the last non-empty partial before it; and the
    commit is reported for the first preview that suggests it and never
    again during the same preview session. *)
Theorem preview_observations before s after (o : orch) p :
  preview o = Some p ->
  map ob_Preview (record_all (before ++ s :: after) o).2 = before ++ s :: after /\
  exists ob, (record_all (before ++ s :: after) o).2 !! length before = Some ob /\ ob_Active ob = true /\
    ob_PartialChanged ob = (PartialText s != "") && (PartialText s != last_partial (tp_lastPartialText p) before) /\
    ob_CommitSuggested ob
      = CommitSuggested s && negb (tp_lastCommitLogged p || existsb CommitSuggested before).
Proof.
  intros Hp. split; [apply record_all_previews|]. revert o p Hp. induction before as [|x before IH]; intros o p Hp; cbn [app record_all].
  - rewrite (record_snapshot_some s p o Hp). destruct (record_all after _) as [o2 obs]. cbn [snd length].
    eexists. split; [reflexivity|]. cbn [existsb]. rewrite orb_false_r. by repeat split.
  - rewrite (record_snapshot_some x p o Hp).
    set (p' := mkTurnPreview (tp_session p) x (last_partial (tp_lastPartialText p) [x])
                 (tp_lastCommitLogged p || CommitSuggested x)).
    destruct (IH (with_preview (Some p') o) p' eq_refl) as (ob & Hob & Hac & Hpc & Hcs).
    destruct (record_all (before ++ s :: after) (with_preview (Some p') o)) as [o2 obs]. cbn [snd] in *.
    exists ob. split; [exact Hob|]. split; [done|]. rewrite Hpc, Hcs. split; [reflexivity|].
    cbn [existsb tp_lastCommitLogged p']. by rewrite orb_assoc.
Qed.

Lemma should_emit_refl ob : shouldEmitFinalPreviewObservation ob ob = false.
Proof.
  unfold shouldEmitFinalPreviewObservation. cbv zeta.
  by rewrite !text_eqb_refl, Z.eqb_refl, !Bool.eqb_reflx.
Qed.

(** The last word reaches the observer. Whenever a push of audio into a
    live preview succeeds, the last observation handed to the observer agrees
    with the returned one in text, stable prefix, endpoint reason, audio and
    speech flags; a push that fails hands over only what preceded it. *)
Theorem push_emits_final now payload (o o' : orch) emitted r :
  preview o <> None -> PushInputPreviewAudioProgressively now payload o = (o', emitted, r) ->
  match r with
  | Ok final => exists earlier ob, emitted = earlier ++ [ob] /\ shouldEmitFinalPreviewObservation ob final = false
  | Err _ => exists p, preview o = Some p /\
       map ob_Preview emitted = (if ps_progressive (tp_session p) then (ps_push now payload (tp_session p)).2.1 else [])
  end.
Proof.
  unfold PushInputPreviewAudioProgressively. destruct (preview o) as [p|] eqn:Ep; [|done]. intros _.
  destruct (ps_push now payload (tp_session p)) as [session [intermediate final]] eqn:Eps. cbn [fst snd].
  destruct (ps_progressive (tp_session p)) eqn:Epr.
  - pose proof (record_all_previews intermediate (set_session session o)) as Hm.
    destruct (record_all intermediate (set_session session o)) as [o1 obs]. cbn [snd] in Hm.
    destruct final as [snap|e].
    + destruct (recordInputPreviewSnapshot snap o1) as [o2 fin]. intros [= <- <- <-].
      destruct (last obs) as [lst|] eqn:El.
      * destruct (shouldEmitFinalPreviewObservation lst fin) eqn:Ee.
        -- exists obs, fin. split; [done | apply should_emit_refl].
        -- apply last_Some in El as [earlier ->]. by exists earlier, lst.
      * exists obs, fin. split; [done | apply should_emit_refl].
    + intros [= <- <- <-]. exists p. rewrite Epr, Eps. by split.
  - destruct final as [snap|e].
    + destruct (recordInputPreviewSnapshot snap (set_session session o)) as [o2 fin]. intros [= <- <- <-].
      exists [], fin. split; [done | apply should_emit_refl].
    + intros [= <- <- <-]. exists p. rewrite Epr. by split.
Qed.
End Observations.

(** An exact mark does not survive an update of the answer. Interruption
    and soft recovery leave heard text that a segment mark fixed alone, but
    [UpdatePlayback], called whenever more of the answer is known, replaces
    it by the estimate from the played duration while the source still says
    [segment_mark], so later steps take the estimate for the exact text. *)
Theorem update_playback_reestimates_mark {S P : Type} `{!MemoryStore S} `{!PreviewSession P}
    delivered planned (o : SessionOrchestrator S P) t :
  turn o = Some t -> playbackActive t = true -> heardSource t = HeardTextSourceSegmentMark ->
  exists t', turn (UpdatePlayback delivered planned o) = Some t' /\
    heardSource t' = HeardTextSourceSegmentMark /\
    heardText t' = heardTextForPlayback (deliveredText t') (playedDuration t) (plannedDuration t') /\
    refreshHeardText t = (if hasExactHeardTextPrefix (deliveredText t) (heardText t) then t
                          else updateHeardTextLocked (playedDuration t) (heardSource t) t).
Proof.
  intros Ht Ha Hs. unfold UpdatePlayback. rewrite Ht. cbv zeta. rewrite persist_turn. cbn [with_turn turn].
  set (t1 := if TrimSpace delivered != "" then t <|deliveredText := TrimSpace delivered|> else t).
  set (t2 := if 0 <? planned then t1 <|plannedDuration := planned|> else t1).
  assert (H2 : playbackActive t2 = true /\ heardSource t2 = heardSource t /\ playedDuration t2 = playedDuration t)
    by (subst t2 t1; destruct (TrimSpace delivered != ""), (0 <? planned); by read_fields).
  destruct H2 as (A2 & S2 & P2). rewrite A2. clearbody t2. clear t1. eexists. split; [reflexivity|].
  unfold updateHeardTextLocked at 1 2 3 4, set_heard, advance_played. cbv zeta. rewrite Z.ltb_irrefl.
  read_fields. rewrite S2, Hs, P2. split; [done|]. split; [done|]. unfold refreshHeardText. by rewrite Hs.
Qed.

(** ** A concrete conversation *)

(** A preview session that reports progress and suggests a commit at once. *)
#[local] Instance demo_session : PreviewSession unit := {
  ps_progressive _ := true;
  ps_push _ payload s :=
    let p := zero_InputPreview <|PartialText := "hi"|> <|CommitSuggested := true|> in (s, ([p], Ok p));
  ps_poll _ s := (s, zero_InputPreview)
}.

Definition demo_request : TurnRequest :=
  mkTurnRequest "s1" "t9" "" "d1" "xiaozhi" "" ∅ None [] 0 0 "pcm16le" 16000 1.

Definition demo_answer : text := "Hello there. How are you today?".

Definition demo_events : list (orch_op unit) :=
  [OEnsure tt; OPrepare demo_request "hi" demo_answer; OStart demo_answer (20 * Millisecond) (3 * Second) true;
   OMarkText (100 * Millisecond) "Hello there."].
Definition demo_start : SessionOrchestrator InMemoryMemoryStore unit :=
  NewSessionOrchestrator (NewInMemoryMemoryStore 8).
Abbreviation demo_orch := (orch_run demo_events demo_start).

Definition demo_turn : orchestratedTurn := Eval vm_compute in
  default (mkTurn demo_request [] ∅ [] [] [] false false false false 0 0 0
    (PolicyOther []) [] HeardTextBoundaryNone HeardTextSourceUnknown HeardTextConfidenceUnknown
    HeardTextPrecisionTierUnknown false None) (turn demo_orch).

Lemma demo_turn_followed : turn demo_orch = Some demo_turn.
Proof. vm_compute. reflexivity. Qed.

Lemma demo_turn_inv : turn_inv demo_turn.
Proof. exact (orchestrated_inv_run demo_events (NewInMemoryMemoryStore 8) demo_turn demo_turn_followed). Qed.

Lemma demo_memory_ok : store_ok (memoryStore demo_orch).
Proof. apply (save_ok (turnRecord _)). apply new_memory_ok. Qed.

Lemma orchestrated_turn_wellformed_witness : turn demo_orch = Some demo_turn /\ turn_inv demo_turn.
Proof.
  split; [exact demo_turn_followed|].
  exact (orchestrated_turn_wellformed demo_events (NewInMemoryMemoryStore 8) demo_turn demo_turn_followed).
Defined.

Lemma interruption_settles_witness :
  let '(o', r) := InterruptPlaybackWithPolicy InterruptionPolicyIgnore "" demo_orch in
  pi_HeardText r = "Hello there." /\ pi_Truncated r = true /\ turn o' = None /\ pi_Policy r <> InterruptionPolicyIgnore.
Proof.
  pose proof (interruption_settles InterruptionPolicyIgnore "" demo_turn demo_orch demo_turn_followed eq_refl
    demo_turn_inv demo_memory_ok ltac:(split; by vm_compute)) as H.
  destruct (InterruptPlaybackWithPolicy InterruptionPolicyIgnore "" demo_orch) as [o' r] eqn:E.
  assert (Hr : r = (InterruptPlaybackWithPolicy InterruptionPolicyIgnore "" demo_orch).2) by (by rewrite E).
  destruct H as (_ & H2 & _ & _ & _ & _ & H7 & _). rewrite Hr in *.
  split; [by vm_compute|]. split; [by vm_compute|]. split; [exact H7 | exact H2].
Defined.

Lemma completion_settles_witness :
  let o' := CompletePlaybackWithSource HeardTextSourcePlaybackCompleted demo_orch in
  turn o' = None /\ exists rec, store_recall (memoryStore o') (session_key demo_turn) "t9" = Some rec /\
    memoryAssistantText rec = demo_answer.
Proof.
  destruct (completion_settles HeardTextSourcePlaybackCompleted demo_turn demo_orch demo_turn_followed eq_refl
    ltac:(by vm_compute) demo_memory_ok ltac:(split; by vm_compute)) as (H1 & _ & rec & H2 & _ & _ & H3).
  split; [exact H1|]. exists rec. split; [exact H2 | exact H3].
Defined.

Lemma preview_observations_witness :
  let s1 := zero_InputPreview <|PartialText := "hi"|> <|CommitSuggested := true|> in
  exists ob, (record_all [s1; s1] demo_orch).2 !! 1%nat = Some ob /\
    ob_PartialChanged ob = false /\ ob_CommitSuggested ob = false.
Proof.
  intros s1. edestruct (preview_observations [s1] s1 [] demo_orch) as [_ (ob & H1 & _ & H2 & H3)]; [reflexivity|].
  exists ob. split; [exact H1|]. rewrite H2, H3. by vm_compute.
Defined.

Lemma push_emits_final_witness :
  exists o' emitted final, PushInputPreviewAudioProgressively 1 [] demo_orch = (o', emitted, Ok final) /\
    exists earlier ob, emitted = earlier ++ [ob] /\ shouldEmitFinalPreviewObservation ob final = false.
Proof.
  assert (Hok : is_Ok (PushInputPreviewAudioProgressively 1 [] demo_orch).2 = true) by (vm_compute; reflexivity).
  assert (Hp : bool_decide (is_Some (preview demo_orch)) = true) by (vm_compute; reflexivity).
  destruct (PushInputPreviewAudioProgressively 1 [] demo_orch) as [[o' emitted] r] eqn:E.
  cbn [snd] in Hok. destruct r as [final|e]; [|discriminate Hok].
  exists o', emitted, final. split; [reflexivity|].
  apply (push_emits_final 1 [] demo_orch o' emitted (Ok final)); [|exact E].
  apply bool_decide_eq_true in Hp. by destruct Hp as [p ->].
Defined.

(** The mark fixed twelve runes; the update leaves two. *)
Lemma update_playback_reestimates_mark_witness :
  heardText demo_turn = "Hello there." /\
  exists t', turn (UpdatePlayback [] 0 demo_orch) = Some t' /\
    heardSource t' = HeardTextSourceSegmentMark /\ heardText t' = "He".
Proof.
  split; [by vm_compute|].
  destruct (@update_playback_reestimates_mark InMemoryMemoryStore unit InMemory_MemoryStore demo_session
    [] 0 demo_orch demo_turn demo_turn_followed (@eq_refl bool true)
    (@eq_refl HeardTextSource HeardTextSourceSegmentMark)) as (t' & H1 & H2 & H3 & _).
  assert (H4 : option_map heardText (turn (UpdatePlayback [] 0 demo_orch)) = Some (txt "He"))
    by (vm_compute; reflexivity).
  exists t'. split; [exact H1|]. split; [exact H2|]. rewrite H1 in H4. by injection H4.
Defined.
