(* ===== verification/PlaybackFollowUp.v ===== *)
(** * Follow-up of an interrupted playback (internal/agent/playback_followup.go)

    After an answer the gateway gives the next request what was heard of it, as
    metadata the orchestrator writes ([playbackOutcomeContextMetadata]).  This
    file reads it back and recognizes a user who asks to go on, where the answer
    stopped, or for its tail; a plain request is answered without the model. *)

From S2P Require Import Prelude GoText GoUnicode Contracts BargeIn Playback Memory Orchestrator.

(** ** The previous playback *)

Record previousPlaybackContext := mkPrevious {
  Available : bool;
  HeardText : text;
  MissedText : text;
  ResumeAnchor : text;
  InterruptionPolicy_ : text;
  PlaybackCompleted : bool;
  ResponseInterrupted : bool;
  ResponseTruncated : bool
}.

Definition metadataFlag (m : metadata) (key : text) : bool := EqualFold (TrimSpace (metadata_get m key)) "true".

Definition parsePreviousPlaybackContext (m : metadata) : previousPlaybackContext :=
  let heard := TrimSpace (metadata_get m previousPlaybackHeardTextMetadataKey) in
  let missed := TrimSpace (metadata_get m previousPlaybackMissedTextMetadataKey) in
  let anchor := TrimSpace (metadata_get m previousPlaybackResumeAnchorMetadataKey) in
  mkPrevious
    (metadataFlag m previousPlaybackAvailableMetadataKey || ((heard != "") || (missed != "") || (anchor != "")))
    heard missed anchor
    (TrimSpace (metadata_get m previousPlaybackPolicyMetadataKey))
    (metadataFlag m previousPlaybackCompletedMetadataKey)
    (metadataFlag m previousPlaybackInterruptedMetadataKey)
    (metadataFlag m previousPlaybackTruncatedMetadataKey).

Definition actionable (c : previousPlaybackContext) : bool :=
  Available c && ((HeardText c != "") || (MissedText c != "") || (ResumeAnchor c != "")).

Definition softRecoveryContext (c : previousPlaybackContext) : bool :=
  if negb (PlaybackCompleted c) || ResponseInterrupted c || (MissedText c == "") then false
  else existsb (text_eqb (InterruptionPolicy_ c)) (texts ["duck_only"; "backchannel"]).

(** ** What the user asks *)

Inductive playbackFollowUpIntent :=
  playbackFollowUpIntentNone
| playbackFollowUpIntentContinue
| playbackFollowUpIntentRecallBoundary
| playbackFollowUpIntentRecapTail.

#[export] Instance playbackFollowUpIntent_eq_dec : EqDecision playbackFollowUpIntent.
Proof. solve_decision. Defined.

(** The runes the replacer drops: marks, quotation marks and blanks (34 is the
    straight double quotation mark). *)
Definition follow_up_marks : text := txt "？。！，,.!?“”‘’' " ++ [34].

Definition normalizePlaybackFollowUpText (s : text) : text :=
  let trimmed := TrimSpace (ToLower s) in
  if trimmed == "" then "" else List.filter (fun r => negb (ContainsRune follow_up_marks r)) trimmed.

Definition continue_phrases : list text :=
  texts ["继续"; "继续说"; "继续讲"; "接着说"; "接着讲"; "接着"; "后面呢"; "然后呢"; "继续吧"; "goon"; "continue"; "keepgoing"].

Definition boundary_phrases : list text :=
  texts ["你刚刚说到哪了"; "你刚刚说到哪"; "刚刚说到哪了"; "刚刚说到哪"; "你刚才说到哪了"; "你刚才说到哪"; "刚才说到哪了"; "刚才说到哪"].

Definition recap_phrases : list text :=
  texts ["没听清"; "没听清楚"; "你刚刚最后一句"; "你刚刚最后一句是什么"; "刚刚最后一句"; "最后一句"; "你刚才最后一句"; "你刚才最后一句是什么";
         "再说一遍"; "再说一次"; "repeatthat"; "sayitagain"].

Definition isPlaybackContinueIntent (n : text) : bool := existsb (text_eqb n) continue_phrases.
Definition isPlaybackBoundaryRecallIntent (n : text) : bool := existsb (text_eqb n) boundary_phrases.
Definition isPlaybackRecapTailIntent (n : text) : bool := existsb (text_eqb n) recap_phrases.

Definition isPlaybackContinueLikeIntent (n : text) : bool :=
  isPlaybackContinueIntent n
  || existsb (HasPrefix n) (texts ["继续"; "接着"; "后面"; "然后"])
  || HasPrefix n "continue" || HasPrefix n "goon".

Definition isPlaybackBoundaryRecallLikeIntent (n : text) : bool :=
  isPlaybackBoundaryRecallIntent n || Contains n "说到哪" || Contains n "讲到哪".

Definition isPlaybackRecapTailLikeIntent (n : text) : bool :=
  isPlaybackRecapTailIntent n || Contains n "没听清" || Contains n "最后一句" || Contains n "再说一遍"
  || Contains n "再说一次" || Contains n "再重复".

Definition detectDeterministicPlaybackFollowUpIntent (userText : text) (c : previousPlaybackContext) : playbackFollowUpIntent :=
  if negb (actionable c) then playbackFollowUpIntentNone else
  let normalized := normalizePlaybackFollowUpText userText in
  if normalized == "" then playbackFollowUpIntentNone
  else if isPlaybackContinueIntent normalized && (MissedText c != "") then playbackFollowUpIntentContinue
  else if isPlaybackBoundaryRecallIntent normalized && ((HeardText c != "") || (ResumeAnchor c != ""))
       then playbackFollowUpIntentRecallBoundary
  else if isPlaybackRecapTailIntent normalized && ((MissedText c != "") || (HeardText c != ""))
       then playbackFollowUpIntentRecapTail
  else if isPlaybackContinueIntent normalized && (HeardText c != "") then playbackFollowUpIntentRecallBoundary
  else playbackFollowUpIntentNone.

Definition detectLoosePlaybackFollowUpIntent (userText : text) (c : previousPlaybackContext) : playbackFollowUpIntent :=
  if negb (actionable c) then playbackFollowUpIntentNone else
  let normalized := normalizePlaybackFollowUpText userText in
  if normalized == "" then playbackFollowUpIntentNone
  else if isPlaybackContinueLikeIntent normalized && (MissedText c != "") then playbackFollowUpIntentContinue
  else if isPlaybackBoundaryRecallLikeIntent normalized && ((HeardText c != "") || (ResumeAnchor c != ""))
       then playbackFollowUpIntentRecallBoundary
  else if isPlaybackRecapTailLikeIntent normalized && ((MissedText c != "") || (HeardText c != ""))
       then playbackFollowUpIntentRecapTail
  else if isPlaybackContinueLikeIntent normalized && (HeardText c != "") then playbackFollowUpIntentRecallBoundary
  else playbackFollowUpIntentNone.

Definition detectPlaybackFollowUpIntent (userText : text) (c : previousPlaybackContext) : playbackFollowUpIntent :=
  let intent := detectDeterministicPlaybackFollowUpIntent userText c in
  if bool_decide (intent <> playbackFollowUpIntentNone) then intent
  else detectLoosePlaybackFollowUpIntent userText c.

(** ** The answer without the model *)

Definition deterministicPlaybackFollowUpText (userText : text) (m : metadata) : option text :=
  let c := parsePreviousPlaybackContext m in
  match detectDeterministicPlaybackFollowUpIntent userText c with
  | playbackFollowUpIntentContinue => if MissedText c != "" then Some (MissedText c) else None
  | playbackFollowUpIntentRecallBoundary =>
      if softRecoveryContext c && (HeardText c != "") && (MissedText c != "") then
        Some (txt "我刚刚大概说到：" ++ HeardText c ++ txt "。你说话那会儿后面可能没完整听到的是：" ++ MissedText c)
      else if (HeardText c != "") && (MissedText c != "") then
        Some (txt "我刚刚说到：" ++ HeardText c ++ txt "。后面还没播完的是：" ++ MissedText c)
      else if HeardText c != "" then Some (txt "我刚刚说到：" ++ HeardText c)
      else if ResumeAnchor c != "" then Some (txt "我刚刚说到：" ++ ResumeAnchor c)
      else None
  | playbackFollowUpIntentRecapTail =>
      if softRecoveryContext c && (MissedText c != "") then Some (txt "你刚刚可能没完整听到的是：" ++ MissedText c)
      else if MissedText c != "" then Some (txt "后面那句是：" ++ MissedText c)
      else if HeardText c != "" then Some (txt "我刚刚说的是：" ++ HeardText c)
      else None
  | playbackFollowUpIntentNone => None
  end.

Definition bootstrapPlaybackFollowUpText (userText : text) (m : metadata) : option text :=
  deterministicPlaybackFollowUpText userText m.

(** ** The hint for the model *)

Definition intent_lines (intent : playbackFollowUpIntent) : list text :=
  match intent with
  | playbackFollowUpIntentNone => []
  | playbackFollowUpIntentContinue => texts [
      "- The user is asking to continue the previous spoken reply instead of starting over.";
      "- Treat the unheard tail as the canonical continuation whenever it is available.";
      "- Continue naturally from the unheard tail or resume anchor instead of restarting or fully re-summarizing the previous answer."]
  | playbackFollowUpIntentRecallBoundary => texts [
      "- The user is asking what part of the previous spoken reply was actually reached.";
      "- Answer from the heard boundary first, then mention any unheard tail only if it helps the user resume."]
  | playbackFollowUpIntentRecapTail => texts [
      "- The user is asking to repeat or clarify the previous unfinished spoken reply.";
      "- Prefer a concise recap of the unheard tail; avoid restarting the whole previous reply unless needed."]
  end.

Definition context_lines (intent : playbackFollowUpIntent) (c : previousPlaybackContext) : list text :=
  (if HeardText c != "" then
     [txt "- Heard boundary: " ++ HeardText c;
      txt "- Avoid repeating the heard boundary unless a tiny bridge is needed for coherence."] else []) ++
  (if MissedText c != "" then [txt "- Unheard tail: " ++ MissedText c] else []) ++
  (if ResumeAnchor c != "" then [txt "- Resume anchor: " ++ ResumeAnchor c] else []) ++
  (if bool_decide (intent = playbackFollowUpIntentContinue) && (MissedText c != "")
   then [txt "- Canonical continuation text: " ++ MissedText c] else []) ++
  (if ResponseInterrupted c || ResponseTruncated c
   then [txt "- The previous spoken reply was interrupted before full playback completion."] else []) ++
  (if softRecoveryContext c then texts [
      "- The previous spoken reply reached playback completion, but the user likely talked over the remaining tail.";
      "- Treat the unheard tail as recoverable spoken context even though the transport completed naturally."] else []).

Definition playbackFollowUpMessages (userText : text) (m : metadata) : list ChatMessage :=
  let c := parsePreviousPlaybackContext m in
  let intent := detectPlaybackFollowUpIntent userText c in
  if bool_decide (intent = playbackFollowUpIntentNone) then []
  else [role_message "system"
          (Join ([txt "Runtime voice follow-up hint:"] ++ intent_lines intent ++ context_lines intent c) [10])].

#[global] Arguments normalizePlaybackFollowUpText _ : simpl never.
#[global] Arguments detectDeterministicPlaybackFollowUpIntent _ _ : simpl never.
#[global] Arguments detectLoosePlaybackFollowUpIntent _ _ : simpl never.
#[global] Arguments parsePreviousPlaybackContext _ : simpl never.

Example follow_up_phrases :
  map normalizePlaybackFollowUpText (texts [" Go on! "; "“继续”，说。"; "?!"]) = texts ["goon"; "继续说"; ""].
Proof. by vm_compute. Qed.

(** ** Laws: what the orchestrator wrote is read back *)

Lemma get_insert (key value key' : text) (m : metadata) :
  metadata_get (<[key := value]> m) key' = if key == key' then value else metadata_get m key'.
Proof.
  unfold metadata_get. destruct (key == key') eqn:E; text_prop.
  - subst. by rewrite lookup_insert_eq.
  - by rewrite lookup_insert_ne.
Qed.

Lemma get_put_trimmed (key value key' : text) (m : metadata) :
  metadata_get (put_trimmed key value m) key' =
  if (key == key') && (TrimSpace value != "") then TrimSpace value else metadata_get m key'.
Proof.
  unfold put_trimmed. destruct (TrimSpace value == ""); cbn [negb]; [by rewrite andb_false_r|].
  rewrite get_insert. by rewrite andb_true_r.
Qed.

Lemma get_empty key : metadata_get ∅ key = [].
Proof. unfold metadata_get. by rewrite lookup_empty. Qed.

Lemma get_blank (value : text) : (if TrimSpace value != "" then TrimSpace value else []) = TrimSpace value.
Proof. destruct (TrimSpace value == "") eqn:E; [text_prop; by rewrite E|done]. Qed.

(** Compares two key constants. *)
Ltac decide_keys :=
  repeat match goal with
  | |- context [?k == ?k'] =>
      is_const k; is_const k'; let b := eval vm_compute in (k == k') in
      replace (k == k') with b by (vm_compute; reflexivity)
  end.

Ltac read_metadata :=
  repeat (rewrite ?get_put_trimmed, ?get_insert; decide_keys; cbn [andb]);
  rewrite ?get_empty, ?get_blank, ?TrimSpace_idemp.

Lemma FormatBool_flag b : EqualFold (TrimSpace (FormatBool b)) "true" = b.
Proof. by destruct b; vm_compute. Qed.

Lemma ratio_neutral (key : text) (o : PlaybackOutcome) (m : metadata) :
  key <> previousPlaybackRatioMetadataKey ->
  metadata_get (if 0 <=? po_HeardRatioPercent o
                then <[previousPlaybackRatioMetadataKey := Itoa (po_HeardRatioPercent o)]> m else m) key = metadata_get m key.
Proof. intros H. split_if; [|done]. rewrite get_insert. split_if; by text_prop. Qed.

Ltac read_outcome :=
  unfold playbackOutcomeContextMetadata; cbv zeta; read_metadata;
  rewrite ?ratio_neutral by (by vm_compute); read_metadata.

(** What the orchestrator writes of a playback for the next request is read
    back: the texts and the policy trimmed, the three flags as they were, and the
    context is available. *)
Theorem previous_playback_round_trip o :
  parsePreviousPlaybackContext (playbackOutcomeContextMetadata o) =
  mkPrevious true (TrimSpace (po_HeardText o)) (TrimSpace (po_MissedText o)) (TrimSpace (po_ResumeAnchor o))
    (TrimSpace (policy_text (po_InterruptionPolicy o)))
    (po_PlaybackCompleted o) (po_ResponseInterrupted o) (po_ResponseTruncated o).
Proof.
  unfold parsePreviousPlaybackContext, metadataFlag. cbv zeta.
  f_equal; read_outcome; rewrite ?FormatBool_flag; try done.
Qed.

(** ** Laws: the phrases *)

Lemma table_all (P : text -> bool) table n :
  forallb P table = true -> existsb (text_eqb n) table = true -> P n = true.
Proof. intros HP Hn%existsb_eqb_elem. rewrite forallb_forall in HP. apply HP. by apply list_elem_of_In. Qed.

Lemma continue_phrase_is n : isPlaybackContinueIntent n = true ->
  isPlaybackContinueLikeIntent n = true /\
  isPlaybackBoundaryRecallLikeIntent n = false /\ isPlaybackRecapTailLikeIntent n = false /\
  isPlaybackBoundaryRecallIntent n = false /\ isPlaybackRecapTailIntent n = false.
Proof.
  intros H. pose proof (table_all (fun n => isPlaybackContinueLikeIntent n &&
    negb (isPlaybackBoundaryRecallLikeIntent n) && negb (isPlaybackRecapTailLikeIntent n)
    && negb (isPlaybackBoundaryRecallIntent n) && negb (isPlaybackRecapTailIntent n))
    continue_phrases n ltac:(by vm_compute) H) as E.
  cbv beta in E. by bool_prop.
Qed.

Lemma boundary_phrase_is n : isPlaybackBoundaryRecallIntent n = true ->
  isPlaybackContinueLikeIntent n = false /\ isPlaybackBoundaryRecallLikeIntent n = true /\
  isPlaybackRecapTailLikeIntent n = false /\ isPlaybackRecapTailIntent n = false.
Proof.
  intros H. pose proof (table_all (fun n => negb (isPlaybackContinueLikeIntent n) &&
    isPlaybackBoundaryRecallLikeIntent n && negb (isPlaybackRecapTailLikeIntent n)
    && negb (isPlaybackRecapTailIntent n))
    boundary_phrases n ltac:(by vm_compute) H) as E.
  cbv beta in E. by bool_prop.
Qed.

Lemma recap_phrase_is n : isPlaybackRecapTailIntent n = true ->
  isPlaybackContinueLikeIntent n = false /\ isPlaybackBoundaryRecallLikeIntent n = false /\
  isPlaybackRecapTailLikeIntent n = true.
Proof.
  intros H. pose proof (table_all (fun n => negb (isPlaybackContinueLikeIntent n) &&
    negb (isPlaybackBoundaryRecallLikeIntent n) && isPlaybackRecapTailLikeIntent n)
    recap_phrases n ltac:(by vm_compute) H) as E.
  cbv beta in E. by bool_prop.
Qed.

(** What a plain request was taken for. *)
Lemma deterministic_cases s c intent :
  detectDeterministicPlaybackFollowUpIntent s c = intent -> intent <> playbackFollowUpIntentNone ->
  let n := normalizePlaybackFollowUpText s in
  actionable c = true /\ (n == "") = false /\
  match intent with
  | playbackFollowUpIntentContinue => isPlaybackContinueIntent n = true /\ (MissedText c == "") = false
  | playbackFollowUpIntentRecallBoundary =>
      (isPlaybackBoundaryRecallIntent n = true /\ (HeardText c != "") || (ResumeAnchor c != "") = true) \/
      (isPlaybackContinueIntent n = true /\ (MissedText c == "") = true /\ (HeardText c == "") = false)
  | playbackFollowUpIntentRecapTail =>
      isPlaybackRecapTailIntent n = true /\ (MissedText c != "") || (HeardText c != "") = true
  | playbackFollowUpIntentNone => False
  end.
Proof.
  cbv zeta. unfold detectDeterministicPlaybackFollowUpIntent. cbv zeta.
  set (n := normalizePlaybackFollowUpText s). intros E Hne. subst intent.
  destruct (actionable c); cbn [negb] in *; [|done]. split; [done|].
  destruct (n == "") eqn:En; [done|]. split; [done|].
  destruct (isPlaybackContinueIntent n) eqn:EC.
  - destruct (continue_phrase_is n EC) as (_ & _ & _ & EB & ET). rewrite EB, ET in *. cbn [andb] in *.
    destruct (MissedText c == "") eqn:EM; cbn [negb] in *; [|done].
    destruct (HeardText c == "") eqn:EH; cbn [negb] in *; [done|]. by right.
  - cbn [andb] in *. destruct (isPlaybackBoundaryRecallIntent n) eqn:EB; cbn [andb] in *.
    + destruct (boundary_phrase_is n EB) as (_ & _ & _ & ET).
      destruct ((HeardText c != "") || (ResumeAnchor c != "")); [by left|].
      by rewrite ET in *.
    + destruct (isPlaybackRecapTailIntent n); cbn [andb] in *; [|done].
      by destruct ((MissedText c != "") || (HeardText c != "")).
Qed.

Lemma loose_extends s c :
  detectDeterministicPlaybackFollowUpIntent s c <> playbackFollowUpIntentNone ->
  detectLoosePlaybackFollowUpIntent s c = detectDeterministicPlaybackFollowUpIntent s c.
Proof.
  intros Hne. pose proof (deterministic_cases s c _ eq_refl Hne) as (Ha & Hn & H). cbv zeta in *.
  unfold detectLoosePlaybackFollowUpIntent. cbv zeta. rewrite Ha, Hn. cbn [negb].
  destruct (detectDeterministicPlaybackFollowUpIntent s c); [done| | |].
  - destruct H as [HC ->]. by destruct (continue_phrase_is _ HC) as (-> & _).
  - destruct H as [[HB ->]|(HC & -> & ->)].
    + by destruct (boundary_phrase_is _ HB) as (-> & -> & _).
    + by destruct (continue_phrase_is _ HC) as (-> & -> & -> & _).
  - destruct H as [HT ->]. by destruct (recap_phrase_is _ HT) as (-> & -> & ->).
Qed.

(** The two detectors agree where the plain one speaks, so trying it first
    changes nothing: the model's hint depends on the loose detector alone, and a
    request answered without the model would have been hinted the same way. *)
Theorem detect_is_loose userText c :
  detectPlaybackFollowUpIntent userText c = detectLoosePlaybackFollowUpIntent userText c.
Proof.
  unfold detectPlaybackFollowUpIntent. cbv zeta. case_bool_decide as H; [|done].
  symmetry. by apply loose_extends.
Qed.

(** ** Laws: what is answered *)

Definition shown_text (c : previousPlaybackContext) (s : text) : Prop :=
  (s = HeardText c \/ s = MissedText c \/ s = ResumeAnchor c) /\ s <> [].

(** A plain follow-up request is always answered, and a request that is none
    never: the answer is a fixed phrase followed by what the context holds of the
    previous answer, so nothing is made up; to go on is the unheard tail itself. *)
Theorem follow_up_is_answered userText m :
  let c := parsePreviousPlaybackContext m in
  match detectDeterministicPlaybackFollowUpIntent userText c, deterministicPlaybackFollowUpText userText m with
  | playbackFollowUpIntentNone, answer => answer = None
  | _, None => False
  | playbackFollowUpIntentContinue, Some answer => answer = MissedText c /\ shown_text c answer
  | _, Some answer => exists phrase shown, answer = phrase ++ shown /\ shown_text c shown
  end.
Proof.
  cbv zeta. unfold deterministicPlaybackFollowUpText. cbv zeta. set (c := parsePreviousPlaybackContext m).
  clearbody c. pose proof (deterministic_cases userText c _ eq_refl) as H. cbv zeta in H.
  assert (Hh : forall s, (s == "") = false -> s <> []) by (intros s E ->; discriminate E).
  unfold shown_text.
  destruct (detectDeterministicPlaybackFollowUpIntent userText c); [done| | |];
    destruct (H ltac:(done)) as (_ & _ & Hc); clear H.
  - destruct Hc as [_ Hm]. rewrite Hm. cbn [negb]. auto.
  - destruct (HeardText c == "") eqn:EH; cbn [negb orb andb] in *.
    + rewrite andb_false_r, andb_false_l. destruct Hc as [[_ Hr]|(_ & _ & ?)]; [|done]. rewrite Hr.
      apply negb_true_iff in Hr. eexists _, (ResumeAnchor c). split; [reflexivity|]. auto.
    + rewrite andb_true_r. destruct (MissedText c == "") eqn:EM; cbn [negb].
      * rewrite andb_false_r. eexists _, (HeardText c). split; [reflexivity|]. auto.
      * rewrite andb_true_r. destruct (softRecoveryContext c).
        all: rewrite !app_assoc; eexists _, (MissedText c); split; [reflexivity|]; auto.
  - destruct Hc as [_ Hm]. destruct (MissedText c == "") eqn:EM; cbn [negb orb andb] in *.
    + rewrite andb_false_r, Hm. apply negb_true_iff in Hm.
      eexists _, (HeardText c). split; [reflexivity|]. auto.
    + rewrite andb_true_r. destruct (softRecoveryContext c); eexists _, (MissedText c); (split; [reflexivity|]); auto.
Qed.

(** ** An interruption and the user's "go on" *)

Lemma missed_read_back o :
  MissedText (parsePreviousPlaybackContext (playbackOutcomeContextMetadata o)) = TrimSpace (po_MissedText o).
Proof. unfold parsePreviousPlaybackContext. cbv zeta. cbn [MissedText]. by read_outcome. Qed.

Lemma available_when_missed m :
  MissedText (parsePreviousPlaybackContext m) <> [] -> actionable (parsePreviousPlaybackContext m) = true.
Proof.
  unfold parsePreviousPlaybackContext, actionable. cbv zeta. cbn [MissedText HeardText ResumeAnchor Available].
  intros H. pose proof (proj2 (text_eqb_false _ (txt "")) H) as E. rewrite E. cbn [negb]. by rewrite !orb_true_r.
Qed.

Lemma continue_answer userText m :
  isPlaybackContinueIntent (normalizePlaybackFollowUpText userText) = true ->
  MissedText (parsePreviousPlaybackContext m) <> [] ->
  deterministicPlaybackFollowUpText userText m = Some (MissedText (parsePreviousPlaybackContext m)).
Proof.
  intros Hc Hm. pose proof (available_when_missed m Hm) as Ha.
  pose proof (proj2 (text_eqb_false _ (txt "")) Hm) as E.
  unfold deterministicPlaybackFollowUpText, detectDeterministicPlaybackFollowUpIntent. cbv zeta.
  rewrite Ha, Hc, E. cbn [negb andb].
  destruct (normalizePlaybackFollowUpText userText == "") eqn:En; [|done].
  apply text_eqb_true in En. rewrite En in Hc. by vm_compute in Hc.
Qed.

Lemma missed_trimmed delivered heard : trimmed (missedTextForTexts delivered heard).
Proof. unfold missedTextForTexts. cbv zeta. repeat split_if; first [done | apply trimmed_TrimSpace]. Qed.

Section Continuation.

Context {S P : Type} `{!MemoryStore S} `{!PreviewSession P}.

(** C21. A user who interrupts the answer and then asks to go on hears exactly what
    was not heard: with the metadata of the interrupted playback the reply is the
    unheard tail, and the heard text, the white space at the cut and that tail
    laid end to end are the delivered answer. *)
Theorem continue_replays_the_unheard policy reason t (o : SessionOrchestrator S P) userText :
  turn o = Some t -> playbackActive t = true -> turn_inv t -> deliveredText t <> [] ->
  isPlaybackContinueIntent (normalizePlaybackFollowUpText userText) = true ->
  let '(o', r) := InterruptPlaybackWithPolicy policy reason o in
  pi_HeardTextBoundary r <> HeardTextBoundaryFull ->
  exists gap tail,
    deterministicPlaybackFollowUpText userText (LastPlaybackContextMetadata o') = Some tail /\ tail <> [] /\
    deliveredText t = TrimSpace (pi_HeardText r) ++ gap ++ tail /\ Forall (fun r => IsSpace r = true) gap.
Proof.
  intros Ht Ha Hi Hne Hc. pose proof (interrupt_steps policy reason t o Ht Ha Hi) as H.
  destruct (InterruptPlaybackWithPolicy policy reason o) as [o' r].
  destruct H as (_ & _ & _ & Htr & Hpre & Hb & _ & t' & -> & _ & Hh & Hd & _ & _). rewrite Hb. intros Hnf.
  destruct (heard_missed_partition (deliveredText t) (pi_HeardText r)) as (_ & _ & Hp & _). rewrite Htr in Hp.
  destruct (Hp Hne (TrimSpace_prefix_of _ _ Htr Hpre)) as [(gap & Hg & Hs) Hm].
  exists gap, (missedTextForTexts (deliveredText t) (pi_HeardText r)).
  assert (Hr : MissedText (parsePreviousPlaybackContext (LastPlaybackContextMetadata (settle t' o))) =
               missedTextForTexts (deliveredText t) (pi_HeardText r)).
  { change (LastPlaybackContextMetadata (settle t' o)) with (playbackOutcomeContextMetadata (playbackOutcomeFromTurn t')).
    rewrite missed_read_back. unfold playbackOutcomeFromTurn. cbn [po_MissedText]. rewrite Hh, Hd. apply missed_trimmed. }
  rewrite <- Hr at 1. split; [|by rewrite Hm].
  apply continue_answer; [done|]. by rewrite Hr, Hm.
Qed.

End Continuation.

#[local] Existing Instance demo_session.

Lemma continue_replays_the_unheard_witness :
  deterministicPlaybackFollowUpText "继续说。"
    (LastPlaybackContextMetadata (InterruptPlaybackWithPolicy InterruptionPolicyHardInterrupt "" demo_orch).1)
    = Some (txt "How are you today?").
Proof.
  pose proof (continue_replays_the_unheard InterruptionPolicyHardInterrupt "" demo_turn demo_orch "继续说。"
    demo_turn_followed ltac:(by vm_compute) demo_turn_inv ltac:(by vm_compute) ltac:(by vm_compute)) as H.
  destruct (InterruptPlaybackWithPolicy InterruptionPolicyHardInterrupt "" demo_orch) as [o' r] eqn:E.
  assert (Ho : o' = (InterruptPlaybackWithPolicy InterruptionPolicyHardInterrupt "" demo_orch).1) by (by rewrite E).
  assert (Hr : r = (InterruptPlaybackWithPolicy InterruptionPolicyHardInterrupt "" demo_orch).2) by (by rewrite E).
  destruct H as (gap & tail & H & _); [rewrite Hr; by vm_compute|]. cbn [fst].
  rewrite H. rewrite Ho in H. vm_compute in H. exact (eq_sym H).
Defined.

Lemma follow_up_nonblank userText m s :
  deterministicPlaybackFollowUpText userText m = Some s -> TrimSpace s <> [].
Proof.
  assert (Hl : forall l t, match l with [] => false | r :: _ => negb (IsSpace r) end = true -> TrimSpace (l ++ t) <> [])
    by (intros l t H%(nonblank_app l t) E; by rewrite E in H).
  unfold deterministicPlaybackFollowUpText. cbv zeta.
  set (c := parsePreviousPlaybackContext m).
  assert (Hm : TrimSpace (MissedText c) = MissedText c) by apply TrimSpace_idemp. clearbody c.
  destruct (detectDeterministicPlaybackFollowUpIntent userText c); [done| | |].
  - destruct (MissedText c == "") eqn:E; [done|]. intros [= <-]. rewrite Hm. intros H. by rewrite H in E.
  - repeat split_if; try discriminate; intros E%(inj Some); rewrite <- E; by apply Hl.
  - repeat split_if; try discriminate; intros E%(inj Some); rewrite <- E; by apply Hl.
Qed.
