(* ===== verification/GoJSON.v ===== *)
(** * Encoding of JSON

    [json.Marshal] over what the sources hand it: strings, booleans, integers,
    null, slices, structs (fields in declaration order) and maps (keys sorted).
    Strings are written with HTML escaping, as [Marshal] does. *)

From stdpp Require Import sorting.
From S2P Require Import Prelude GoText GoUnicode GoOrder.

Inductive json :=
| JNull
| JBool (b : bool)
| JInt (n : Z)
| JString (s : text)
| JArray (items : list json)
| JStruct (fields : list (text * json))
| JMap (entries : list (text * json)).

(** ** Strings *)

Definition json_rune (r : rune) : text :=
  if (r =? 34) || (r =? backslash) then [backslash; r]
  else if r =? 8 then [backslash; 98]
  else if r =? 12 then [backslash; 102]
  else if r =? 10 then [backslash; 110]
  else if r =? 13 then [backslash; 114]
  else if r =? 9 then [backslash; 116]
  else if (r <? 32) || ContainsRune "<>&" r || (r =? 8232) || (r =? 8233) then [backslash; 117] ++ hex 4 r
  else [r].

Definition json_string (s : text) : text := [34] ++ concat (map json_rune s) ++ [34].

(** ** Values *)

Definition key_le (a b : text * text) : Prop := text_le a.1 b.1.
#[export] Instance key_le_dec : RelDecision key_le := fun a b => text_le_dec a.1 b.1.

Definition encode_fields (fields : list (text * text)) : text :=
  [123] ++ Join (map (fun '(key, value) => json_string key ++ txt ":" ++ value) fields) (txt ",") ++ [125].

Fixpoint Marshal (v : json) : text :=
  match v with
  | JNull => txt "null"
  | JBool b => FormatBool b
  | JInt n => Itoa n
  | JString s => json_string s
  | JArray items => txt "[" ++ Join (map Marshal items) (txt ",") ++ txt "]"
  | JStruct fields => encode_fields (map (fun '(key, value) => (key, Marshal value)) fields)
  | JMap entries => encode_fields (merge_sort key_le (map (fun '(key, value) => (key, Marshal value)) entries))
  end.

(** [m[key] = value] on the entries of a map. *)
Definition json_set (key : text) (value : json) (entries : list (text * json)) : list (text * json) :=
  (key, value) :: List.filter (fun e => e.1 != key) entries.

Definition json_get (key : text) (entries : list (text * json)) : option json :=
  snd <$> find (fun e => e.1 == key) entries.

#[global] Arguments Marshal _ : simpl never.
#[global] Arguments json_string _ : simpl never.

Example marshal_map :
  Marshal (JMap [(txt "b", JArray [JNull; JBool true]); (txt "a", JString (txt "灯<" ++ [10]))])
  = txt "{" ++ [34] ++ txt "a" ++ [34] ++ txt ":" ++ [34] ++ txt "灯\u003c\n" ++ [34] ++ txt "," ++
    [34] ++ txt "b" ++ [34] ++ txt ":[null,true]}".
Proof. by vm_compute. Qed.

Lemma json_get_set key key' value entries :
  json_get key' (json_set key value entries) = if key == key' then Some value else json_get key' entries.
Proof.
  unfold json_get, json_set. cbn [find fst]. destruct (key == key') eqn:E; [done|].
  induction entries as [|[k v] entries IH]; [done|]. cbn [List.filter find fst].
  destruct (k == key) eqn:Ek; cbn [negb find fst].
  - apply text_eqb_true in Ek as ->. by rewrite E.
  - by destruct (k == key').
Qed.
