(* ===== verification/HouseholdSkill.v ===== *)
(** * The household-control skill (internal/agent/runtime_skill_household.go)

    The model's tool input for one smart-home request is normalized, turned into a
    goal in words, and answered with a structured result that says whether the
    user has to be asked first.  Decoding the input is [json.Unmarshal] into a
    struct of strings, a parameter. *)

From S2P Require Import Prelude GoText GoOrder GoJSON.

Definition builtinSkillHouseholdControl : text := "household_control".
Definition householdControlSimulationToolName : text := "home.control.simulate".

Record householdControlToolInput := mkHousehold {
  RoomName : text;
  DeviceType : text;
  Action : text;
  Mode : text;
  Target : text;
  Parameter_ : text;
  Value : text;
  SceneName : text;
  Query : text;
  UtteranceSummary : text
}.

Definition canonicalBuiltinSkillName (name : text) : text :=
  if existsb (text_eqb (ToLower (TrimSpace name))) (texts ["household_control"; "household"; "home"; "home_control"])
  then builtinSkillHouseholdControl else "".

Definition normalizedBuiltinSkills (skills : list text) : gset text :=
  list_to_set (List.filter (fun name => name != "") (map canonicalBuiltinSkillName skills)).

(** ** Labels *)

Definition device_types : list (list text * text) := [
  (texts ["light"; "lights"; "lamp"], txt "light");
  (texts ["curtain"; "curtains"], txt "curtain");
  (texts ["aircon"; "air_conditioner"; "ac"], txt "aircon");
  (texts ["tv"; "television"], txt "tv");
  (texts ["speaker"; "audio"; "soundbar"], txt "speaker");
  (texts ["fan"], txt "fan");
  (texts ["humidifier"], txt "humidifier");
  (texts ["dehumidifier"], txt "dehumidifier");
  (texts ["air_purifier"; "purifier"], txt "air_purifier");
  (texts ["fresh_air"; "freshair"], txt "fresh_air");
  (texts ["floor_heating"; "heating_floor"], txt "floor_heating");
  (texts ["water_heater"], txt "water_heater");
  (texts ["robot"; "robot_vacuum"; "vacuum"], txt "robot");
  (texts ["scene"], txt "scene");
  (texts ["lock"; "door_lock"], txt "lock");
  (texts ["security"; "alarm"], txt "security");
  (texts ["gas"], txt "gas")].

(** A [switch] over lists of cases: the result of the first that holds. *)
Fixpoint switch_cases (cases : list (list text * text)) (s : text) : option text :=
  match cases with
  | [] => None
  | (names, value) :: cases => if existsb (text_eqb s) names then Some value else switch_cases cases s
  end.

Definition normalizedDeviceType (deviceType : text) : text :=
  match switch_cases device_types (ToLower (TrimSpace deviceType)) with
  | Some value => value
  | None => TrimSpace deviceType
  end.

Definition household_actions : list (list text * text) := [
  (texts ["turn_on"; "enable"; "start"], txt "on");
  (texts ["turn_off"; "disable"; "stop"], txt "off");
  (texts ["activate"; "run"], txt "activate");
  (texts ["increase"; "up"], txt "increase");
  (texts ["decrease"; "down"], txt "decrease")].

Definition normalizedHouseholdAction (action : text) : text :=
  match switch_cases household_actions (ToLower (TrimSpace action)) with
  | Some value => value
  | None => ToLower (TrimSpace action)
  end.

Definition isSensitiveHouseholdDomain (deviceType : text) : bool :=
  existsb (text_eqb (normalizedDeviceType deviceType)) (texts ["lock"; "security"; "gas"]).

Definition coalesceNonEmpty (values : list text) : text := firstNonEmpty values.

Definition device_labels : list (list text * text) := [
  ([txt "light"], txt "灯光"); ([txt "curtain"], txt "窗帘"); ([txt "aircon"], txt "空调"); ([txt "tv"], txt "电视");
  ([txt "speaker"], txt "音响"); ([txt "fan"], txt "风扇"); ([txt "humidifier"], txt "加湿器");
  ([txt "dehumidifier"], txt "除湿机"); ([txt "air_purifier"], txt "空气净化器"); ([txt "fresh_air"], txt "新风");
  ([txt "floor_heating"], txt "地暖"); ([txt "water_heater"], txt "热水器"); ([txt "robot"], txt "扫地机器人");
  ([txt "lock"], txt "门锁"); ([txt "security"], txt "安防设备"); ([txt "gas"], txt "燃气设备")].

Definition householdDeviceLabel (deviceType : text) : text :=
  match switch_cases device_labels (normalizedDeviceType deviceType) with
  | Some label => label
  | None => TrimSpace deviceType
  end.

Definition householdScope (roomName deviceType : text) : text :=
  let room := TrimSpace roomName in
  let device := normalizedDeviceType deviceType in
  if (room != "") && (device != "") then room ++ householdDeviceLabel device
  else if room != "" then room ++ txt "设备"
  else if device != "" then householdDeviceLabel device
  else "".

(** ** The input *)

Definition zero_input : householdControlToolInput := mkHousehold [] [] [] [] [] [] [] [] [] [].

Definition normalize_input (input : householdControlToolInput) : householdControlToolInput :=
  mkHousehold (TrimSpace (RoomName input)) (normalizedDeviceType (DeviceType input))
    (normalizedHouseholdAction (Action input)) (TrimSpace (Mode input)) (TrimSpace (Target input))
    (TrimSpace (Parameter_ input)) (TrimSpace (Value input)) (TrimSpace (SceneName input))
    (TrimSpace (Query input)) (TrimSpace (UtteranceSummary input)).

(** [json.Unmarshal] into the struct, with its error's text. *)
Class HouseholdDecoder := unmarshal_household : text -> result text householdControlToolInput.

Definition parseHouseholdControlToolInput `{HouseholdDecoder} (raw : text) : result text householdControlToolInput :=
  let trimmed := TrimSpace raw in
  if (trimmed == "") || (trimmed == "{}") then Ok zero_input
  else match unmarshal_household trimmed with
       | Err e => Err (txt "invalid tool input json: " ++ e)
       | Ok input => Ok (normalize_input input)
       end.

(** ** The goal *)

Definition with_scene (input : householdControlToolInput) : text :=
  if (DeviceType input == "") && (SceneName input != "") then "scene" else DeviceType input.

Definition default_goal (input : householdControlToolInput) (scope : text) : text :=
  let target := coalesceNonEmpty [Target input; Value input] in
  if (Parameter_ input != "") && (target != "") then
    txt "将" ++ scope ++ txt "的" ++ Parameter_ input ++ txt "设置为" ++ target
  else if (Mode input != "") && (target != "") then
    txt "将" ++ scope ++ txt "设置为" ++ Mode input ++ txt " " ++ target
  else if Mode input != "" then txt "将" ++ scope ++ txt "切换到" ++ Mode input ++ txt "模式"
  else if target != "" then txt "调整" ++ scope ++ txt "到" ++ target
  else if scope != "" then txt "调整" ++ scope
  else "".

Definition action_goal (input : householdControlToolInput) (scope : text) : text :=
  let action := if Action input == "" then txt "set" else Action input in
  if (action == "on") || (action == "open") then txt "打开" ++ scope
  else if (action == "off") || (action == "close") then txt "关闭" ++ scope
  else if action == "increase" then
    if Parameter_ input != "" then txt "调高" ++ scope ++ txt "的" ++ Parameter_ input else txt "提升" ++ scope
  else if action == "decrease" then
    if Parameter_ input != "" then txt "调低" ++ scope ++ txt "的" ++ Parameter_ input else txt "降低" ++ scope
  else default_goal input scope.

Definition householdControlGoal (input : householdControlToolInput) : text :=
  if Query input != "" then
    let scope := householdScope (RoomName input) (DeviceType input) in
    if scope == "" then "查询当前家庭设备状态" else txt "查询" ++ scope ++ Query input
  else
    let deviceType := with_scene input in
    if deviceType == "scene" then
      let scene := if SceneName input == "" then Action input else SceneName input in
      if scene == "" then "切换家庭场景" else txt "切换到" ++ scene ++ txt "场景"
    else
      action_goal input (householdScope (RoomName input) deviceType).

(** ** The result *)

Definition householdControlToolResult (input : householdControlToolInput) : list (text * json) :=
  let deviceType := with_scene input in
  let goal := householdControlGoal input in
  let result : list (text * json) := [
    (txt "skill", JString builtinSkillHouseholdControl);
    (txt "room_name", JString (RoomName input));
    (txt "device_type", JString deviceType);
    (txt "action", JString (Action input));
    (txt "mode", JString (Mode input));
    (txt "target", JString (coalesceNonEmpty [Target input; Value input]));
    (txt "parameter", JString (Parameter_ input));
    (txt "scene_name", JString (SceneName input));
    (txt "query", JString (Query input));
    (txt "utterance_summary", JString (UtteranceSummary input));
    (txt "sensitive_domain", JBool (isSensitiveHouseholdDomain deviceType));
    (txt "requires_clarification", JBool false);
    (txt "goal", JString goal)] in
  if isSensitiveHouseholdDomain deviceType then
    json_set (txt "clarification_hint") (JString "这是敏感设备，请先确认具体设备、位置和动作。")
      (json_set (txt "requires_clarification") (JBool true) result)
  else if TrimSpace goal == "" then
    json_set (txt "clarification_hint") (JString "当前家居请求还不够明确，请先确认设备、动作或查询目标。")
      (json_set (txt "requires_clarification") (JBool true) result)
  else result.

#[global] Arguments normalizedDeviceType _ : simpl never.
#[global] Arguments normalizedHouseholdAction _ : simpl never.
#[global] Arguments isSensitiveHouseholdDomain _ : simpl never.
#[global] Arguments householdControlGoal _ : simpl never.

(** ** Laws *)

Lemma switch_cases_value cases s v : switch_cases cases s = Some v -> v ∈ map snd cases.
Proof.
  induction cases as [|[names value] cases IH]; [done|]. cbn. split_if; [intros [= ->]; by left|].
  intros H. right. by apply IH.
Qed.

(** A property of every value of a table, by computation. *)
Lemma switch_values_all (P : text -> bool) cases s v :
  forallb P (map snd cases) = true -> switch_cases cases s = Some v -> P v = true.
Proof. intros HP Hs%switch_cases_value. rewrite forallb_forall in HP. apply HP. by apply list_elem_of_In. Qed.

Lemma device_type_idemp d : normalizedDeviceType (normalizedDeviceType d) = normalizedDeviceType d.
Proof.
  unfold normalizedDeviceType at 2 3. destruct (switch_cases device_types (ToLower (TrimSpace d))) as [v|] eqn:E.
  - pose proof (switch_values_all (fun v => normalizedDeviceType v == v) device_types _ v ltac:(by vm_compute) E) as H.
    by apply text_eqb_true in H.
  - unfold normalizedDeviceType. by rewrite TrimSpace_idemp, E.
Qed.

Lemma sensitive_normalized d : isSensitiveHouseholdDomain (normalizedDeviceType d) = isSensitiveHouseholdDomain d.
Proof. unfold isSensitiveHouseholdDomain. by rewrite device_type_idemp. Qed.

Definition sensitive_names : list text := texts ["lock"; "door_lock"; "security"; "alarm"; "gas"].

Lemma sensitive_spelling d :
  isSensitiveHouseholdDomain d = true <-> ToLower (TrimSpace d) ∈ sensitive_names.
Proof.
  unfold isSensitiveHouseholdDomain. rewrite existsb_eqb_elem. split.
  - unfold normalizedDeviceType. destruct (switch_cases device_types (ToLower (TrimSpace d))) as [v|] eqn:E.
    + intros Hv. assert (Hs : forallb (fun '(names, value) =>
        implb (existsb (text_eqb value) (texts ["lock"; "security"; "gas"]))
          (forallb (fun n => existsb (text_eqb n) sensitive_names) names)) device_types = true) by (by vm_compute).
      apply existsb_eqb_elem. apply existsb_eqb_elem in Hv. revert E Hs.
      induction device_types as [|[names value] cases IH]; [done|]. cbn [switch_cases forallb].
      intros E [H1 H2]%andb_true_iff. destruct (existsb _ names) eqn:En; [|by apply IH].
      injection E as ->. rewrite Hv in H1. cbn [implb] in H1. rewrite forallb_forall in H1. apply H1.
      by apply list_elem_of_In, existsb_eqb_elem.
    + intros Ht. exfalso. apply existsb_eqb_elem in Ht.
      assert (Hn : forallb (fun t => negb (bool_decide (switch_cases device_types (ToLower t) = None)))
        (texts ["lock"; "security"; "gas"]) = true) by (by vm_compute).
      rewrite forallb_forall in Hn. specialize (Hn (TrimSpace d)).
      rewrite E in Hn. discriminate Hn. by apply list_elem_of_In, existsb_eqb_elem.
  - intros Hd. unfold normalizedDeviceType.
    assert (Hs : forallb (fun n => match switch_cases device_types n with
        | Some v => existsb (text_eqb v) (texts ["lock"; "security"; "gas"]) | None => false end) sensitive_names = true)
      by (by vm_compute).
    rewrite forallb_forall in Hs. specialize (Hs (ToLower (TrimSpace d)) ltac:(by apply list_elem_of_In)).
    destruct (switch_cases _ _); [|done]. by apply existsb_eqb_elem.
Qed.

(** ** Laws: when the user is asked *)

Definition asks_first (input : householdControlToolInput) : bool :=
  isSensitiveHouseholdDomain (with_scene input) || (TrimSpace (householdControlGoal input) == "").

Lemma result_fields input :
  json_get (txt "requires_clarification") (householdControlToolResult input) = Some (JBool (asks_first input)) /\
  (is_Some (json_get (txt "clarification_hint") (householdControlToolResult input)) <-> asks_first input = true) /\
  json_get (txt "sensitive_domain") (householdControlToolResult input)
    = Some (JBool (isSensitiveHouseholdDomain (with_scene input))) /\
  json_get (txt "goal") (householdControlToolResult input) = Some (JString (householdControlGoal input)).
Proof.
  unfold householdControlToolResult, asks_first. cbv zeta.
  set (fields := cons (txt "skill", JString builtinSkillHouseholdControl) _).
  assert (Hf : json_get (txt "requires_clarification") fields = Some (JBool false) /\
    json_get (txt "clarification_hint") fields = None /\
    json_get (txt "sensitive_domain") fields = Some (JBool (isSensitiveHouseholdDomain (with_scene input))) /\
    json_get (txt "goal") fields = Some (JString (householdControlGoal input))).
  { unfold fields. generalize (householdControlGoal input), (isSensitiveHouseholdDomain (with_scene input)),
      (with_scene input), (coalesceNonEmpty [Target input; Value input]). intros. repeat split; vm_compute; reflexivity. }
  clearbody fields. destruct Hf as (H1 & H2 & H3 & H4).
  assert (Hk : forall hint, let asked := json_set (txt "clarification_hint") hint
        (json_set (txt "requires_clarification") (JBool true) fields) in
    json_get (txt "requires_clarification") asked = Some (JBool true) /\
    (is_Some (json_get (txt "clarification_hint") asked) <-> true = true) /\
    json_get (txt "sensitive_domain") asked = Some (JBool (isSensitiveHouseholdDomain (with_scene input))) /\
    json_get (txt "goal") asked = Some (JString (householdControlGoal input))).
  { intros hint. cbv zeta. rewrite !json_get_set. split_and!; [reflexivity| |exact H3|exact H4].
    split; [reflexivity|]. intros _. by exists hint. }
  destruct (isSensitiveHouseholdDomain (with_scene input)); cbn [orb]; [apply Hk|].
  destruct (TrimSpace (householdControlGoal input) == ""); [apply Hk|].
  split_and!; [exact H1| |exact H3|exact H4]. rewrite H2. split; [by intros [? ?]|done].
Qed.

Lemma device_type_blank d : (normalizedDeviceType d == "") = (TrimSpace d == "").
Proof.
  unfold normalizedDeviceType. destruct (switch_cases device_types (ToLower (TrimSpace d))) as [v|] eqn:E; [|done].
  pose proof (switch_values_all (fun v => v != "") device_types _ v ltac:(by vm_compute) E) as ->%negb_true_iff.
  destruct (TrimSpace d == "") eqn:Ed; [|done]. apply text_eqb_true in Ed. rewrite Ed in E. by vm_compute in E.
Qed.

Lemma label_nonblank d : (TrimSpace d == "") = false -> householdDeviceLabel d <> [].
Proof.
  intros Hd. unfold householdDeviceLabel. destruct (switch_cases device_labels _) as [v|] eqn:E.
  - pose proof (switch_values_all (fun v => v != "") device_labels _ v ltac:(by vm_compute) E) as Hv.
    apply negb_true_iff in Hv. intros ->. done.
  - intros H. rewrite H in Hd. done.
Qed.

Lemma scope_blank room d : (householdScope room d == "") = (TrimSpace room == "") && (TrimSpace d == "").
Proof.
  unfold householdScope. cbv zeta. rewrite device_type_blank.
  destruct (TrimSpace room == "") eqn:Er, (TrimSpace d == "") eqn:Ed; cbn [negb andb]; [done| | |].
  - apply text_eqb_false. apply label_nonblank. by rewrite <- device_type_blank, device_type_idemp, device_type_blank.
  - apply text_eqb_false. intros H. destruct (TrimSpace room); done.
  - apply text_eqb_false. intros H. destruct (TrimSpace room); done.
Qed.

Definition verbs : list text := texts ["on"; "open"; "off"; "close"; "increase"; "decrease"].

(** A request nothing can be made of: no query, scene, device, room, mode or
    value, and a verb that is none of the six. *)
Definition unclear (input : householdControlToolInput) : bool :=
  (Query input == "") && (SceneName input == "") && (DeviceType input == "") && (RoomName input == "")
  && (Mode input == "") && (Target input == "") && (Value input == "")
  && negb (existsb (text_eqb (Action input)) verbs).

Definition parsed (input : householdControlToolInput) : Prop :=
  Forall trimmed [RoomName input; Target input; Value input; Mode input; SceneName input] /\
  normalizedDeviceType (DeviceType input) = DeviceType input.

Lemma normalize_parsed raw : parsed (normalize_input raw).
Proof. split; [|apply device_type_idemp]. cbn. repeat constructor; apply TrimSpace_idemp. Qed.

Lemma target_blank input : parsed input ->
  (coalesceNonEmpty [Target input; Value input] == "") = (Target input == "") && (Value input == "").
Proof.
  intros [H _]. rewrite !Forall_cons in H. destruct H as (_ & Ht & Hv & _). unfold coalesceNonEmpty, firstNonEmpty.
  cbv zeta. rewrite Ht, Hv. by destruct (Target input == "") eqn:E, (Value input == "") eqn:E'; cbn [negb andb].
Qed.

Lemma default_goal_blank input scope : parsed input ->
  (TrimSpace (default_goal input scope) == "") =
  (Mode input == "") && (Target input == "") && (Value input == "") && (scope == "").
Proof.
  intros Hp. unfold default_goal. cbv zeta. pose proof (target_blank input Hp) as Ht.
  rewrite <- andb_assoc with (b1 := Mode input == ""), <- Ht.
  destruct (coalesceNonEmpty [Target input; Value input] == ""); cbn [negb andb]; rewrite ?andb_false_r, ?andb_true_r.
  - destruct (Mode input == ""); cbn [negb andb]; [|apply nonblank_app; reflexivity].
    destruct (scope == "") eqn:E; cbn [negb]; [done|apply nonblank_app; reflexivity].
  - destruct (Parameter_ input == ""), (Mode input == ""); cbn [negb andb]; apply nonblank_app; reflexivity.
Qed.

Lemma action_goal_blank input scope : parsed input ->
  (TrimSpace (action_goal input scope) == "") =
  (Mode input == "") && (Target input == "") && (Value input == "") && (scope == "")
  && negb (existsb (text_eqb (Action input)) verbs).
Proof.
  intros Hp. unfold action_goal, verbs. cbv zeta. cbn [existsb texts map].
  destruct (Action input == "") eqn:EA.
  { apply text_eqb_true in EA. rewrite EA. exact (eq_trans (default_goal_blank input scope Hp) (eq_sym (andb_true_r _))). }
  destruct (Action input == "on"), (Action input == "open"); cbn [orb negb];
    try (rewrite andb_false_r; apply nonblank_app; reflexivity).
  destruct (Action input == "off"), (Action input == "close"); cbn [orb negb];
    try (rewrite andb_false_r; apply nonblank_app; reflexivity).
  destruct (Action input == "increase"); cbn [orb negb].
  { rewrite andb_false_r. split_if; apply nonblank_app; reflexivity. }
  destruct (Action input == "decrease"); cbn [orb negb].
  { rewrite andb_false_r. split_if; apply nonblank_app; reflexivity. }
  rewrite andb_true_r. by apply default_goal_blank.
Qed.

Lemma goal_blank input : parsed input -> (TrimSpace (householdControlGoal input) == "") = unclear input.
Proof.
  intros Hp. unfold householdControlGoal, unclear, with_scene. cbv zeta.
  assert (HD : (TrimSpace (DeviceType input) == "") = (DeviceType input == "")).
  { destruct Hp as [_ Hp]. by rewrite <- Hp at 2; rewrite device_type_blank. }
  assert (HR : TrimSpace (RoomName input) = RoomName input) by (destruct Hp as [Hp _]; by inversion Hp).
  destruct (Query input == "") eqn:EQ; cbn [negb andb].
  2:{ split_if; [done|apply nonblank_app; reflexivity]. }
  destruct (DeviceType input == "") eqn:ED; cbn [andb].
  - destruct (SceneName input == "") eqn:ES; cbn [andb negb].
    + apply text_eqb_true in ED as ED'. rewrite ED' at 1. change (txt "" == "scene") with false. cbn [negb].
      rewrite action_goal_blank, scope_blank, HR, HD by done.
      by destruct (RoomName input == ""), (Mode input == ""), (Target input == ""), (Value input == "").
    + change (txt "scene" == "scene") with true. cbn [negb]. rewrite ES. apply nonblank_app; reflexivity.
  - rewrite !andb_false_r. destruct (DeviceType input == "scene") eqn:EC; cbn [negb andb].
    + repeat split_if; first [done | apply nonblank_app; reflexivity].
    + rewrite action_goal_blank, scope_blank, HR, HD by done. by rewrite !andb_false_r.
Qed.

Lemma with_scene_sensitive input : isSensitiveHouseholdDomain (with_scene input) = isSensitiveHouseholdDomain (DeviceType input).
Proof.
  unfold with_scene. destruct (DeviceType input == "") eqn:ED; cbn [andb]; [|done].
  destruct (SceneName input == "") eqn:ES; cbn [negb]; [done|]. apply text_eqb_true in ED as ->. by vm_compute.
Qed.

Section Parsing.

Context `{HouseholdDecoder}.

(** The user is asked before a household request is carried out exactly when
    its device is a lock, the security system or the gas, however it is spelled,
    or when nothing can be made of the request; a hint comes with the question,
    and a request that asks for nothing has an empty goal. *)
Theorem household_asks_first raw decoded :
  TrimSpace raw ∉ texts [""; "{}"] -> unmarshal_household (TrimSpace raw) = Ok decoded ->
  exists input, parseHouseholdControlToolInput raw = Ok input /\
    let asked := bool_decide (ToLower (TrimSpace (DeviceType decoded)) ∈ sensitive_names) || unclear input in
    json_get (txt "requires_clarification") (householdControlToolResult input) = Some (JBool asked) /\
    (is_Some (json_get (txt "clarification_hint") (householdControlToolResult input)) <-> asked = true) /\
    (unclear input = true <-> TrimSpace (householdControlGoal input) = "").
Proof.
  intros Hraw Hd. exists (normalize_input decoded). split.
  - unfold parseHouseholdControlToolInput. cbv zeta.
    assert ((TrimSpace raw == "") || (TrimSpace raw == "{}") = false) as ->; [|by rewrite Hd].
    apply not_true_iff_false. intros Ht. apply Hraw, existsb_eqb_elem. cbn [texts map existsb]. by rewrite orb_false_r.
  - pose proof (goal_blank _ (normalize_parsed decoded)) as Hg.
    assert (Ha : asks_first (normalize_input decoded) =
      bool_decide (ToLower (TrimSpace (DeviceType decoded)) ∈ sensitive_names) || unclear (normalize_input decoded)).
    { unfold asks_first. rewrite Hg, with_scene_sensitive. f_equal. cbn [normalize_input DeviceType].
      rewrite sensitive_normalized. case_bool_decide as Hs; [by apply sensitive_spelling|].
      apply not_true_iff_false. by rewrite sensitive_spelling. }
    cbv zeta. rewrite <- Ha. destruct (result_fields (normalize_input decoded)) as (H1 & H2 & _).
    split; [done|]. split; [done|]. by rewrite <- Hg, text_eqb_true.
Qed.

End Parsing.

(** A verb without a device, a room or a value is not questioned, although
    nothing can be made of it: the goal of the six verbs is never empty. *)
Theorem bare_verb_is_not_questioned :
  let input := normalize_input (mkHousehold [] [] (txt "turn_on") [] [] [] [] [] [] []) in
  householdControlGoal input = txt "打开" /\
  json_get (txt "requires_clarification") (householdControlToolResult input) = Some (JBool false).
Proof. by vm_compute. Qed.

#[local] Instance demo_decoder : HouseholdDecoder := fun raw =>
  Ok (mkHousehold (txt " 书房 ") (txt "Door_Lock") (txt "OPEN") [] [] [] [] [] [] []).

Lemma household_asks_first_witness :
  exists input, parseHouseholdControlToolInput (txt "{lock}") = Ok input /\
    json_get (txt "requires_clarification") (householdControlToolResult input) = Some (JBool true).
Proof.
  destruct (household_asks_first (txt "{lock}") (mkHousehold (txt " 书房 ") (txt "Door_Lock") (txt "OPEN") [] [] [] [] [] [] [])
    ltac:(intros H%existsb_eqb_elem; vm_compute in H; discriminate H) eq_refl) as (input & H1 & H2 & _).
  exists input. split; [exact H1|]. rewrite H2. by vm_compute.
Defined.
