(* ===== verification/AgentRuntime.v ===== *)
(** * What the turn executors work with (internal/agent/contracts.go, hooks.go)

    The data an executor exchanges with the voice runtime, the memory, the tools
    and the model, and the interfaces it is written against as the class
    [AgentServices] over the state [W] of whatever implements them.  An executor
    runs in the monad [agent]: it threads that state and the deltas it has emitted,
    and stops at the first error. *)

From S2P Require Import Prelude GoText Contracts GoJSON Memory.

(** ** Data *)

Inductive TurnDeltaKind := TurnDeltaKindText | TurnDeltaKindToolCall | TurnDeltaKindToolResult.

#[export] Instance TurnDeltaKind_eq_dec : EqDecision TurnDeltaKind.
Proof. solve_decision. Defined.

Record TurnDelta := mkTurnDelta {
  td_Kind : TurnDeltaKind;
  td_Text : text;
  td_ToolCallID : text;
  td_ToolName : text;
  td_ToolStatus : text;
  td_ToolInput : text;
  td_ToolOutput : text
}.

Definition text_delta (s : text) : TurnDelta := mkTurnDelta TurnDeltaKindText s [] [] [] [] [].

Record TurnOutput := mkTurnOutput {
  to_Text : text;
  to_Deltas : list TurnDelta;
  to_EndSession : bool;
  to_EndReason : text;
  to_EndMessage : text
}.

#[export] Instance TurnOutput_rebuild : Rebuild TurnOutput := fun o =>
  mkTurnOutput (to_Text o) (to_Deltas o) (to_EndSession o) (to_EndReason o) (to_EndMessage o).

Definition text_output (s : text) : TurnOutput := mkTurnOutput s [] false [] [].

Record ToolCatalogRequest := mkCatalogRequest { cr_SessionID : text; cr_DeviceID : text; cr_ClientType : text }.

Record SkillPromptRequest := mkSkillPromptRequest {
  kr_SessionID : text;
  kr_DeviceID : text;
  kr_ClientType : text;
  kr_UserText : text;
  kr_Metadata : metadata
}.

(** A tool; the parameters are the entries of a JSON object. *)
Record ToolDefinition := mkTool {
  tool_Name : text;
  tool_Description : text;
  tool_Parameters : list (text * json);
  tool_Strict : bool
}.

Record ToolCall := mkToolCall {
  call_CallID : text;
  call_SessionID : text;
  call_DeviceID : text;
  call_ClientType : text;
  call_ToolName : text;
  call_ToolInput : text
}.

Record ToolResult := mkToolResult {
  res_CallID : text;
  res_ToolName : text;
  res_ToolStatus : text;
  res_ToolOutput : text
}.

Definition zero_ToolResult : ToolResult := mkToolResult [] [] [] [].

(** ** The interfaces *)

(** MemoryStore, ToolRegistry, ToolInvoker, and the sink of the deltas: the error
    it answers a delta with, when it does, given those it took before. *)
Class AgentServices (W : Type) := {
  load_context : MemoryQuery -> W -> W * result text MemoryContext;
  save_turn : MemoryRecord -> W -> W;
  list_tools : ToolCatalogRequest -> W -> W * result text (list ToolDefinition);
  invoke_tool : ToolCall -> W -> W * result text ToolResult;
  sink_error : W -> list TurnDelta -> TurnDelta -> option text
}.

(** ** The monad *)

Record agent_state (W : Type) := mkAgentState { services : W; emitted : list TurnDelta }.
Arguments mkAgentState {W}.
Arguments services {W}.
Arguments emitted {W}.

Definition agent (W A : Type) : Type := agent_state W -> agent_state W * result text A.

Definition agent_ret {W A} (a : A) : agent W A := fun s => (s, Ok a).
Definition agent_fail {W A} (e : text) : agent W A := fun s => (s, Err e).
Definition agent_bind {W A B} (m : agent W A) (f : A -> agent W B) : agent W B := fun s =>
  let '(s, r) := m s in
  match r with Ok a => f a s | Err e => (s, Err e) end.

Notation "'do!' x ':=' m 'in' k" := (agent_bind m (fun x => k))
  (at level 10, x name, m at level 100, k at level 200) : go_scope.
Notation "'do!' ' p ':=' m 'in' k" := (agent_bind m (fun x => match x with p => k end))
  (at level 10, p strict pattern, m at level 100, k at level 200) : go_scope.

Section Operations.

Context {W : Type} `{!AgentServices W}.

(** A call of a service; its failure is a value the caller looks at. *)
Definition attempt {A} (call : W -> W * result text A) : agent W (result text A) := fun s =>
  let '(w, r) := call (services s) in (mkAgentState w (emitted s), Ok r).

Definition update_services (f : W -> W) : agent W unit := fun s =>
  (mkAgentState (f (services s)) (emitted s), Ok tt).

Definition emitTurnDelta (d : TurnDelta) : agent W unit := fun s =>
  match sink_error (services s) (emitted s) d with
  | Some e => (s, Err e)
  | None => (mkAgentState (services s) (emitted s ++ [d]), Ok tt)
  end.

End Operations.

(** ** The services that do nothing (hooks.go) *)

Definition noop_load (q : MemoryQuery) : result text MemoryContext := Ok zero_MemoryContext.
Definition noop_tools (r : ToolCatalogRequest) : result text (list ToolDefinition) := Ok [].
Definition noop_invoke (call : ToolCall) : result text ToolResult :=
  Ok (mkToolResult (call_CallID call) (call_ToolName call) "unavailable" "tool runtime not configured").

(** ** Laws *)

(** What a computation emits: it only appends to what was emitted before. *)
Definition emits {W A} (m : agent W A) (P : list TurnDelta -> result text A -> Prop) : Prop :=
  forall s, exists ds, emitted (m s).1 = emitted s ++ ds /\ P ds (m s).2.

Lemma emits_ret {W A} (a : A) (P : list TurnDelta -> result text A -> Prop) :
  P [] (Ok a) -> emits (W := W) (agent_ret a) P.
Proof. intros H s. exists []. by rewrite app_nil_r. Qed.

Lemma emits_fail {W A} e (P : list TurnDelta -> result text A -> Prop) :
  P [] (Err e) -> emits (W := W) (agent_fail e) P.
Proof. intros H s. exists []. by rewrite app_nil_r. Qed.

Lemma emits_bind {W A B} (m : agent W A) (f : A -> agent W B) (P : list TurnDelta -> result text A -> Prop)
    (Q : list TurnDelta -> result text B -> Prop) :
  emits m P ->
  (forall ds e, P ds (Err e) -> Q ds (Err e)) ->
  (forall ds a, P ds (Ok a) -> emits (f a) (fun ds' r => Q (ds ++ ds') r)) ->
  emits (agent_bind m f) Q.
Proof.
  intros Hm He Hf s. unfold agent_bind. destruct (Hm s) as (ds & E & HP).
  destruct (m s) as [s' [a|e]]; cbn [fst snd] in *.
  - destruct (Hf ds a HP s') as (ds' & E' & HQ). exists (ds ++ ds'). by rewrite E', E, app_assoc.
  - exists ds. split; [done|]. by apply He.
Qed.

Lemma emits_weaken {W A} (m : agent W A) (P Q : list TurnDelta -> result text A -> Prop) :
  emits m P -> (forall ds r, P ds r -> Q ds r) -> emits m Q.
Proof. intros H HPQ s. destruct (H s) as (ds & E & HP). exists ds. auto. Qed.

Lemma emits_attempt {W A} (call : W -> W * result text A) :
  emits (attempt call) (fun ds r => ds = [] /\ is_Ok r = true).
Proof. intros s. unfold attempt. destruct (call (services s)) as [w r]. exists []. by rewrite app_nil_r. Qed.

Lemma emits_update {W} (f : W -> W) : emits (update_services f) (fun ds r => ds = [] /\ r = Ok tt).
Proof. intros s. exists []. by rewrite app_nil_r. Qed.

Lemma emits_delta {W} `{!AgentServices W} d :
  emits (emitTurnDelta d) (fun ds r => match r with Ok _ => ds = [d] | Err _ => ds = [] end).
Proof.
  intros s. unfold emitTurnDelta. destruct (sink_error (services s) (emitted s) d).
  - exists []. by rewrite app_nil_r.
  - by exists [d].
Qed.
