(* ===== verification/ToolRuntime.v ===== *)
(** * The tools of the server (internal/agent/runtime_backends.go, runtime_skill.go)

    [BuiltinToolBackend] tells the time, the identifiers of the session and what
    memory holds; [RuntimeToolBackend] adds the tools of the configured skills.
    The clock, the memory the backend reads and the JSON decoders are parameters. *)

From S2P Require Import Prelude GoText GoOrder GoJSON Contracts Memory HouseholdSkill AgentRuntime.

(** ** Instants in RFC 3339 *)

(** Zero-padded decimal. *)
Definition pad (width : nat) (n : Z) : text :=
  let digits := Itoa n in repeat 48 (width - length digits) ++ digits.

(** The civil date of a day counted from 1 March of year 0. *)
Definition civil (day : Z) : Z * Z * Z :=
  let era := day / 146097 in
  let doe := day mod 146097 in
  let yoe := (doe - doe / 1460 + doe / 36524 - doe / 146096) / 365 in
  let doy := doe - (365 * yoe + yoe / 4 - yoe / 100) in
  let mp := (5 * doy + 2) / 153 in
  let d := doy - (153 * mp + 2) / 5 + 1 in
  let m := if mp <? 10 then mp + 3 else mp - 9 in
  (yoe + era * 400 + (if m <=? 2 then 1 else 0), m, d).

(** An instant counts nanoseconds from 1 January of year 1; that day is 306 days
    after 1 March of year 0. *)
Definition format_rfc3339 (t : instant) (zone_seconds : Z) : text :=
  let local := t / Second + zone_seconds in
  let '(y, m, d) := civil (local / 86400 + 306) in
  let s := local mod 86400 in
  let zone := Z.quot zone_seconds 60 in
  pad 4 y ++ txt "-" ++ pad 2 m ++ txt "-" ++ pad 2 d ++ txt "T" ++
  pad 2 (s / 3600) ++ txt ":" ++ pad 2 (s / 60 mod 60) ++ txt ":" ++ pad 2 (s mod 60) ++
  (if zone_seconds =? 0 then txt "Z"
   else (if zone <? 0 then txt "-" else txt "+") ++ pad 2 (Z.abs zone / 60) ++ txt ":" ++ pad 2 (Z.abs zone mod 60)).

(** What [time.Now] returns: the instant and its location. *)
Record clock_reading := mkReading { rd_now : instant; rd_zone_seconds : Z; rd_location : text }.

Definition Unix (t : instant) : Z := (t - unix_epoch) / Second.

(** ** The built-in tools *)

Definition encodeToolOutput (value : json) : text := Marshal value.

Definition no_parameters : list (text * json) := [
  (txt "type", JString "object"); (txt "properties", JMap []); (txt "additionalProperties", JBool false)].

Definition builtin_tools : list ToolDefinition := [
  mkTool "time.now" "Return the server's current local and UTC time." no_parameters false;
  mkTool "session.describe" "Return the current session, device, and client identifiers." no_parameters false;
  mkTool "memory.recall" "Return the in-memory turn summary remembered for the current device or session."
    [(txt "type", JString "object");
     (txt "properties", JMap [(txt "query", JMap [(txt "type", JString "string");
        (txt "description", JString "Optional recall hint or topic to bias the memory lookup.")])]);
     (txt "additionalProperties", JBool false)] false].

Definition answer (call : ToolCall) (status : text) (output : json) : ToolResult :=
  mkToolResult (call_CallID call) (call_ToolName call) status (encodeToolOutput output).

Definition error_output (message : text) : json := JMap [(txt "error", JString message)].

Definition hasTool (name : text) : bool :=
  existsb (text_eqb (ToLower (TrimSpace name))) (texts ["time.now"; "session.describe"; "memory.recall"]).

Definition invokeTimeNow (now : clock_reading) (call : ToolCall) : ToolResult :=
  answer call "completed" (JMap [
    (txt "utc_rfc3339", JString (format_rfc3339 (rd_now now) 0));
    (txt "local_rfc3339", JString (format_rfc3339 (rd_now now) (rd_zone_seconds now)));
    (txt "timezone", JString (rd_location now));
    (txt "unix", JInt (Unix (rd_now now)))]).

Definition invokeSessionDescribe (call : ToolCall) : ToolResult :=
  answer call "completed" (JMap [
    (txt "session_id", JString (call_SessionID call));
    (txt "device_id", JString (call_DeviceID call));
    (txt "client_type", JString (call_ClientType call))]).

(** Structs are encoded with their field names; a nil slice is null. *)
Definition json_list {A} (encode : A -> json) (l : list A) : json :=
  match l with [] => JNull | _ => JArray (map encode l) end.

Definition json_tool_call (c : ChatToolCall) : json :=
  JStruct [(txt "ID", JString (tc_ID c)); (txt "Name", JString (tc_Name c)); (txt "Arguments", JString (tc_Arguments c))].

Definition json_message (m : ChatMessage) : json :=
  JStruct [(txt "Role", JString (cm_Role m)); (txt "Content", JString (cm_Content m));
           (txt "ToolCallID", JString (cm_ToolCallID m)); (txt "ToolCalls", json_list json_tool_call (cm_ToolCalls m))].

(** The facts as a map: a later fact of the same key wins. *)
Definition facts_map (facts : list MemoryFact) : list (text * json) :=
  fold_left (fun entries fact => json_set (mf_Key fact) (JString (mf_Value fact)) entries) facts [].

(** [json.Unmarshal] into a map: its "query" entry when that is a string. *)
Class QueryDecoder := unmarshal_query : text -> result text (option text).

Definition extractMemoryQuery `{QueryDecoder} (raw : text) : result text text :=
  let trimmed := TrimSpace raw in
  if (trimmed == "") || (trimmed == "{}") then Ok []
  else match unmarshal_query trimmed with
       | Err e => Err (txt "invalid tool input json: " ++ e)
       | Ok (Some query) => Ok (TrimSpace query)
       | Ok None => Ok []
       end.

Section Builtin.

Context `{QueryDecoder}.

Definition invokeMemoryRecall (load : MemoryQuery -> result text MemoryContext) (call : ToolCall) : result text ToolResult :=
  match extractMemoryQuery (call_ToolInput call) with
  | Err e => Ok (answer call "failed" (error_output e))
  | Ok queryText =>
      let! context := load (mkMemoryQuery (call_SessionID call) (call_DeviceID call) (call_ClientType call)
                              [] [] [] queryText ∅) in
      Ok (answer call "completed" (JMap [
        (txt "scope", JString (mc_Scope context));
        (txt "summary", JString (Summary context));
        (txt "facts", JMap (facts_map (mc_Facts context)));
        (txt "recent_messages", json_list json_message (mc_RecentMessages context))]))
  end.

Definition BuiltinToolBackend (now : clock_reading) (load : MemoryQuery -> result text MemoryContext) (call : ToolCall)
    : result text ToolResult :=
  let name := ToLower (TrimSpace (call_ToolName call)) in
  if name == "time.now" then Ok (invokeTimeNow now call)
  else if name == "session.describe" then Ok (invokeSessionDescribe call)
  else if name == "memory.recall" then invokeMemoryRecall load call
  else Ok (answer call "unavailable" (error_output (txt "tool " ++ call_ToolName call ++ txt " is not available"))).

End Builtin.

(** ** Skills *)

Definition household_properties : list (text * text) := [
  (txt "room_name",
     txt "Optional room or zone, such as 客厅 or 主卧.");
  (txt "device_type",
     txt "Normalized device category, such as light, curtain, aircon, tv, speaker, fan, humidifier, dehumidifier, air_purifier, robot, water_heater, lock, security, gas, or scene.");
  (txt "action",
     txt "Normalized user intent such as on, off, open, close, set, query, increase, decrease, activate.");
  (txt "mode",
     txt "Optional device mode such as cooling, heating, sleep, movie, eco, auto.");
  (txt "target",
     txt "Optional target value such as 26度, 60%, 暖白, 中档.");
  (txt "parameter",
     txt "Optional controlled parameter such as temperature, brightness, color_temperature, speed, humidity, volume.");
  (txt "value",
     txt "Optional parameter value when target needs a separate field.");
  (txt "scene_name",
     txt "Optional normalized scene name such as sleep, movie, away, wakeup.");
  (txt "query",
     txt "Optional query target when the user is asking for state instead of control.");
  (txt "utterance_summary",
     txt "Optional concise summary of what the user meant.")].

Definition householdControlToolDefinition : ToolDefinition :=
  mkTool householdControlSimulationToolName
    "Normalize one smart-home control, scene, or state-query request into a structured runtime result for the shared household-control skill."
    [(txt "type", JString "object");
     (txt "properties", JMap (map (fun '(name, description) =>
        (name, JMap [(txt "type", JString "string"); (txt "description", JString description)])) household_properties));
     (txt "additionalProperties", JBool false)] false.

Definition householdControlSkillPrompt : text :=
  txt "已启用 runtime skill: household_control

- 当用户意图属于家庭设备控制、场景切换或设备状态查询，并且目标已经足够明确时，先调用工具 " ++ householdControlSimulationToolName ++ txt "，再根据工具结果组织最终回复。
- 这个 skill 负责家庭控制语义，不应由 transport、voice responder 或 websocket gateway 直接写死规则。
- 可以根据自然口语、模糊表达、参数省略和上下文，把请求归一化为 room_name、device_type、action、mode、target、query 等字段。
- 对门锁、燃气、安防等敏感域，如果目标设备、房间、动作或风险边界仍不清楚，先做一句简短澄清，不要直接假设已经完成。
- 工具返回的是结构化结果，不要把工具名、JSON 或内部字段直接念给用户；最终回复必须仍是自然语言。".

Inductive RuntimeSkill := HouseholdControlSkill.

Definition skill_Name (s : RuntimeSkill) : text :=
  match s with HouseholdControlSkill => builtinSkillHouseholdControl end.

Definition newBuiltinRuntimeSkill (name : text) : option RuntimeSkill :=
  if canonicalBuiltinSkillName name == builtinSkillHouseholdControl then Some HouseholdControlSkill else None.

Definition RuntimeSkillRegistry : Type := gmap text RuntimeSkill.

Definition NewRuntimeSkillRegistry (names : list text) : RuntimeSkillRegistry :=
  fold_left (fun (r : RuntimeSkillRegistry) name =>
    match newBuiltinRuntimeSkill name with None => r | Some s => <[skill_Name s := s]> r end) names ∅.

Definition skill_tools (s : RuntimeSkill) : list ToolDefinition :=
  match s with HouseholdControlSkill => [householdControlToolDefinition] end.

Definition skill_prompts (s : RuntimeSkill) : list text :=
  match s with HouseholdControlSkill => [householdControlSkillPrompt] end.

Definition skills_of (r : RuntimeSkillRegistry) : list RuntimeSkill := (map_to_list r).*2.

Definition ListPromptFragments (r : RuntimeSkillRegistry) : list text := flat_map skill_prompts (skills_of r).

Definition RuntimeToolBackend_ListTools (r : RuntimeSkillRegistry) : list ToolDefinition :=
  builtin_tools ++ flat_map skill_tools (skills_of r).

Section Skills.

Context `{HouseholdDecoder}.

(** The result, unless the tool is not the skill's. *)
Definition HouseholdControlSkill_InvokeTool (call : ToolCall) : option ToolResult :=
  if TrimSpace (call_ToolName call) != householdControlSimulationToolName then None
  else Some (match parseHouseholdControlToolInput (call_ToolInput call) with
             | Err e => answer call "failed" (error_output e)
             | Ok input => answer call "completed" (JMap (householdControlToolResult input))
             end).

Definition skill_InvokeTool (s : RuntimeSkill) (call : ToolCall) : option ToolResult :=
  match s with HouseholdControlSkill => HouseholdControlSkill_InvokeTool call end.

(** Go visits the map in any order; the skills are given in one. *)
Fixpoint invoke_skills (skills : list RuntimeSkill) (call : ToolCall) : option ToolResult :=
  match skills with
  | [] => None
  | s :: skills =>
      match skill_InvokeTool s call with
      | Some result => Some result
      | None => invoke_skills skills call
      end
  end.

Context `{QueryDecoder}.

Definition RuntimeToolBackend_InvokeTool (now : clock_reading) (load : MemoryQuery -> result text MemoryContext)
    (skills : RuntimeSkillRegistry) (call : ToolCall) : result text ToolResult :=
  if hasTool (call_ToolName call) then BuiltinToolBackend now load call
  else match invoke_skills (skills_of skills) call with
       | Some result => Ok result
       | None =>
           Ok (mkToolResult (call_CallID call) (TrimSpace (call_ToolName call)) "unavailable"
                 (encodeToolOutput (error_output (txt "tool " ++ TrimSpace (call_ToolName call) ++ txt " is not available"))))
       end.

End Skills.

#[global] Arguments householdControlSkillPrompt : simpl never.
#[global] Arguments builtin_tools : simpl never.
#[global] Arguments BuiltinToolBackend _ _ _ _ : simpl never.

(** The dates around a leap day, and the epoch. *)
Example rfc3339_examples :
  map (fun t => format_rfc3339 t 0) [unix_epoch; unix_epoch + 951782400 * Second; unix_epoch + 951868800 * Second]
  = texts ["1970-01-01T00:00:00Z"; "2000-02-29T00:00:00Z"; "2000-03-01T00:00:00Z"] /\
  format_rfc3339 (unix_epoch + 1775000000 * Second) 28800 = txt "2026-04-01T07:33:20+08:00".
Proof. by vm_compute. Qed.

(** ** Laws *)

Lemma registry_known names : NewRuntimeSkillRegistry names = ∅ \/
  NewRuntimeSkillRegistry names = {[ builtinSkillHouseholdControl := HouseholdControlSkill ]}.
Proof.
  apply (fold_left_inv (fun r : RuntimeSkillRegistry =>
    r = ∅ \/ r = {[ builtinSkillHouseholdControl := HouseholdControlSkill ]})); [by left|]. intros r name _ Hr.
  unfold newBuiltinRuntimeSkill. split_if; [|done]. right. cbn [skill_Name].
  destruct Hr as [Hr|Hr]; subst r; [done|]. apply insert_singleton_eq.
Qed.

Lemma skills_known names : skills_of (NewRuntimeSkillRegistry names) = [] \/
  skills_of (NewRuntimeSkillRegistry names) = [HouseholdControlSkill].
Proof.
  destruct (registry_known names) as [->| ->]; [left|right]; by vm_compute.
Qed.

Definition listed (skills : RuntimeSkillRegistry) (name : text) : bool :=
  hasTool name || ((TrimSpace name == householdControlSimulationToolName) && negb (len (skills_of skills) =? 0)).

Section Answers.

Context `{HouseholdDecoder} `{QueryDecoder}.

Lemma builtin_answer now load call : hasTool (call_ToolName call) = true ->
  match BuiltinToolBackend now load call with
  | Ok r => res_CallID r = call_CallID call /\ res_ToolName r = call_ToolName call /\
            (res_ToolStatus r = "completed" \/ res_ToolStatus r = "failed")
  | Err _ => ToLower (TrimSpace (call_ToolName call)) = "memory.recall" /\ exists q e, load q = Err e
  end.
Proof.
  unfold hasTool, BuiltinToolBackend. cbv zeta. cbn [texts map existsb].
  set (name := ToLower (TrimSpace (call_ToolName call))).
  destruct (name == "time.now"); [intros _; cbn; auto|].
  destruct (name == "session.describe"); [intros _; cbn; auto|].
  destruct (name == "memory.recall") eqn:E; [intros _|done]. unfold invokeMemoryRecall.
  destruct (extractMemoryQuery _) as [q|e]; [|cbn; auto].
  destruct (load _) as [context|e] eqn:El; cbn [result_bind]; [cbn; auto|].
  split; [by apply text_eqb_true|]. eauto.
Qed.

(** Every answer of the tools is an answer to its call: it carries the call's
    id and name, its status is one of the three the executors know, and it is
    "unavailable" exactly when no listed tool has that name.  The only failure is
    the memory's, when its recall is asked. *)
Theorem tools_answer_their_calls now load names call :
  let skills := NewRuntimeSkillRegistry names in
  match RuntimeToolBackend_InvokeTool now load skills call with
  | Ok r =>
      res_CallID r = call_CallID call /\ TrimSpace (res_ToolName r) = TrimSpace (call_ToolName call) /\
      res_ToolStatus r ∈ texts ["completed"; "failed"; "unavailable"] /\
      (res_ToolStatus r = "unavailable" <-> listed skills (call_ToolName call) = false)
  | Err _ => ToLower (TrimSpace (call_ToolName call)) = "memory.recall" /\ exists q e, load q = Err e
  end.
Proof.
  cbv zeta. unfold RuntimeToolBackend_InvokeTool, listed.
  pose proof (builtin_answer now load call) as Hb.
  destruct (hasTool (call_ToolName call)); cbn [orb].
  - specialize (Hb eq_refl). destruct (BuiltinToolBackend now load call); [|done].
    destruct Hb as (H1 & H2 & H3). rewrite H2. split_and!; [done|done| |].
    + destruct H3 as [->| ->]; apply existsb_eqb_elem; by vm_compute.
    + split; [|done]. by destruct H3 as [->| ->].
  - destruct (skills_known names) as [->| ->]; cbn [invoke_skills skill_InvokeTool].
    + cbn. split_and!; [done|apply TrimSpace_idemp|apply existsb_eqb_elem; by vm_compute|by rewrite andb_false_r].
    + unfold HouseholdControlSkill_InvokeTool.
      destruct (TrimSpace (call_ToolName call) == householdControlSimulationToolName); cbn [negb].
      * destruct (parseHouseholdControlToolInput _); cbn [answer res_CallID res_ToolName res_ToolStatus];
          (split_and!; [done|done|apply existsb_eqb_elem; by vm_compute|done]).
      * cbn. split_and!; [done|apply TrimSpace_idemp|apply existsb_eqb_elem; by vm_compute|done].
Qed.

End Answers.

Lemma listed_tools_are_available names :
  let skills := NewRuntimeSkillRegistry names in
  Forall (fun tool => listed skills (tool_Name tool) = true) (RuntimeToolBackend_ListTools skills).
Proof.
  cbv zeta. unfold RuntimeToolBackend_ListTools, listed. destruct (skills_known names) as [->| ->];
    repeat constructor; by vm_compute.
Qed.
