(* ===== verification/BootstrapExecutor.v ===== *)
(** * The executor without a model (internal/agent/bootstrap_executor.go)

    It answers memory and tool commands, a plain follow-up of an interrupted
    playback, and otherwise tells what it received.  The LLM executor delegates
    the first two to it. *)

From S2P Require Import Prelude GoText GoUnicode Contracts Memory PlaybackFollowUp AgentRuntime.

(** ** Commands *)

(** The argument of "/memory", when the text is that command. *)
Definition parseBootstrapMemoryCommand (s : text) : option text :=
  let trimmed := TrimSpace s in
  let lower := ToLower trimmed in
  if lower == "/memory" then Some (txt "")
  else if HasPrefix lower "/memory " then Some (TrimSpace (drop 7 trimmed))
  else None.

Record bootstrapToolCommand := mkToolCommand { cmd_ToolName : text; cmd_ToolInput : text }.

Definition parseBootstrapToolCommand (s : text) : option bootstrapToolCommand :=
  let trimmed := TrimSpace s in
  let lower := ToLower trimmed in
  if (lower != "/tool") && negb (HasPrefix lower "/tool ") then None else
  let rest := TrimSpace (drop 5 trimmed) in
  if rest == "" then None else
  let '(toolName, toolInput, found) := Cut rest " " in
  let toolName := TrimSpace toolName in
  if toolName == "" then None else
  let toolInput := if negb found || (TrimSpace toolInput == "") then txt "{}" else toolInput in
  Some (mkToolCommand toolName (TrimSpace toolInput)).

Definition shouldPersistTurn (s : text) : bool :=
  match parseBootstrapMemoryCommand s, parseBootstrapToolCommand s with
  | None, None => true
  | _, _ => false
  end.

Definition shouldEndSession (s : text) : bool :=
  existsb (text_eqb (ToLower (TrimSpace s))) (texts ["/end"; "bye"; "goodbye"; "结束"; "结束对话"]).

Definition end_session (inputText : text) (output : TurnOutput) : TurnOutput :=
  if shouldEndSession inputText then
    output <|to_EndSession := true|> <|to_EndReason := txt "completed"|> <|to_EndMessage := txt "dialog finished"|>
  else output.

(** ** Words for a tool's result *)

Definition with_output (prefix output : text) : text :=
  if output != "" then prefix ++ txt ": " ++ output else prefix ++ txt ".".

Definition toolSummaryText (result : ToolResult) : text :=
  let toolName := TrimSpace (res_ToolName result) in
  let toolName := if toolName == "" then txt "tool" else toolName in
  let status := TrimSpace (res_ToolStatus result) in
  let output := TrimSpace (res_ToolOutput result) in
  if existsb (text_eqb status) (texts [""; "completed"; "success"; "succeeded"; "ok"]) then
    with_output (txt "tool " ++ toolName ++ txt " completed") output
  else if status == "unavailable" then with_output (txt "tool " ++ toolName ++ txt " is unavailable") output
  else with_output (txt "tool " ++ toolName ++ txt " " ++ status) output.

Definition toolExists (tools : list ToolDefinition) (name : text) : bool :=
  existsb (fun tool => EqualFold (TrimSpace (tool_Name tool)) (TrimSpace name)) tools.

Definition bootstrapToolCallID (name : text) : text :=
  let trimmed := TrimSpace (ToLower name) in
  if trimmed == "" then "tool_call" else
  let value := Trim (map (fun r => if IsLetter r || IsDigit r then r else 95) trimmed) "_" in
  txt "tool_" ++ (if value == "" then txt "call" else value).

(** ** The executor *)

(** What a tool's answer is completed with. *)
Definition complete_result (call : ToolCall) (result : ToolResult) : ToolResult :=
  mkToolResult
    (if TrimSpace (res_CallID result) == "" then call_CallID call else res_CallID result)
    (if TrimSpace (res_ToolName result) == "" then call_ToolName call else res_ToolName result)
    (if TrimSpace (res_ToolStatus result) == "" then txt "completed" else res_ToolStatus result)
    (res_ToolOutput result).

Definition call_delta (call : ToolCall) : TurnDelta :=
  mkTurnDelta TurnDeltaKindToolCall [] (call_CallID call) (call_ToolName call) "started" (call_ToolInput call) [].

Definition result_delta (result : ToolResult) : TurnDelta :=
  mkTurnDelta TurnDeltaKindToolResult [] (res_CallID result) (res_ToolName result) (res_ToolStatus result) []
    (res_ToolOutput result).

Section Executor.

Context {W : Type} `{!AgentServices W}.

Definition emitBootstrapTextOutput (inputText s : text) : agent W TurnOutput :=
  do! _ := emitTurnDelta (text_delta s) in
  agent_ret (end_session inputText (text_output s)).

(** The memory context or the error its load gave. *)
Definition executeMemoryCommand (context : result text MemoryContext) : agent W TurnOutput :=
  let s := match context with
           | Err e => txt "memory unavailable: " ++ e
           | Ok c => if TrimSpace (Summary c) != "" then txt "memory: " ++ TrimSpace (Summary c)
                     else txt "memory: nothing remembered yet."
           end in
  do! _ := emitTurnDelta (text_delta s) in
  agent_ret (text_output s).

Definition report_result (result : ToolResult) : agent W TurnOutput :=
  let s := toolSummaryText result in
  do! _ := emitTurnDelta (result_delta result) in
  do! _ := emitTurnDelta (text_delta s) in
  agent_ret (text_output s).

Definition toolFailureOutput (call : ToolCall) (status output : text) : agent W TurnOutput :=
  report_result (mkToolResult (call_CallID call) (call_ToolName call) status (TrimSpace output)).

Definition executeToolCommand (input : TurnInput) (command : bootstrapToolCommand) : agent W TurnOutput :=
  let call := mkToolCall (bootstrapToolCallID (cmd_ToolName command)) (ti_SessionID input) (ti_DeviceID input)
                (ti_ClientType input) (cmd_ToolName command) (cmd_ToolInput command) in
  do! tools := attempt (list_tools (mkCatalogRequest (ti_SessionID input) (ti_DeviceID input) (ti_ClientType input))) in
  match tools with
  | Err e => toolFailureOutput call "failed" (txt "tool registry failed: " ++ e)
  | Ok tools =>
      if (0 <? len tools) && negb (toolExists tools (call_ToolName call)) then
        toolFailureOutput call "unavailable" (txt "tool " ++ call_ToolName call ++ txt " is not registered")
      else
        do! _ := emitTurnDelta (call_delta call) in
        do! result := attempt (invoke_tool call) in
        match result with
        | Err e => toolFailureOutput call "failed" e
        | Ok result => report_result (complete_result call result)
        end
  end.

Definition received_text (input : TurnInput) (trimmedText : text) : text :=
  if trimmedText != "" then txt "agent-server received text input: " ++ trimmedText
  else if ai_Present (ti_Audio input) then
    txt "agent-server received " ++ Itoa (ai_Frames (ti_Audio input)) ++ txt " audio frames (" ++
    Itoa (ai_Bytes (ti_Audio input)) ++ txt " bytes)"
  else "agent-server realtime bootstrap reply".

Definition streamBootstrapOutput (input : TurnInput) (trimmedText : text) (context : result text MemoryContext)
    : agent W TurnOutput :=
  match parseBootstrapMemoryCommand trimmedText, parseBootstrapToolCommand trimmedText,
        bootstrapPlaybackFollowUpText trimmedText (ti_Metadata input) with
  | Some _, _, _ => executeMemoryCommand context
  | None, Some command, _ => executeToolCommand input command
  | None, None, Some followUpText => emitBootstrapTextOutput trimmedText followUpText
  | None, None, None => emitBootstrapTextOutput trimmedText (received_text input trimmedText)
  end.

(** A turn is saved unless it was a command. *)
Definition persist_output (input : TurnInput) (trimmedText : text) (output : TurnOutput) : agent W TurnOutput :=
  if shouldPersistTurn trimmedText then
    do! _ := update_services (save_turn (buildMemoryRecord input trimmedText (to_Text output) (ti_Metadata input))) in
    agent_ret output
  else agent_ret output.

Definition BootstrapStreamTurn (input : TurnInput) : agent W TurnOutput :=
  let trimmedText := TrimSpace (ti_UserText input) in
  do! context := attempt (load_context (buildMemoryQuery input trimmedText (ti_Metadata input))) in
  do! output := streamBootstrapOutput input trimmedText context in
  persist_output input trimmedText output.

End Executor.

(** [ExecuteTurn]: the deltas are collected, and the collector refuses none. *)
Class Collecting (W : Type) `{!AgentServices W} : Prop := sink_takes : forall w ds d, sink_error w ds d = None.

Definition ExecuteTurn {W} (stream : agent W TurnOutput) (w : W) : W * result text TurnOutput :=
  let '(s, r) := stream (mkAgentState w []) in
  (services s, match r with Ok output => Ok (output <|to_Deltas := emitted s|>) | Err e => Err e end).

#[global] Arguments toolSummaryText _ : simpl never.
#[global] Arguments bootstrapToolCallID _ : simpl never.
#[global] Arguments parseBootstrapToolCommand _ : simpl never.
#[global] Arguments parseBootstrapMemoryCommand _ : simpl never.

Example tool_command_examples :
  map parseBootstrapToolCommand (texts [" /TOOL time.now"; "/tool memory.recall  {a b} "; "/tool"; "/toolbox x"])
  = [Some (mkToolCommand (txt "time.now") (txt "{}")); Some (mkToolCommand (txt "memory.recall") (txt "{a b}")); None; None] /\
  bootstrapToolCallID "Memory.Recall!" = txt "tool_memory_recall".
Proof. by vm_compute. Qed.

(** ** Laws: what a turn speaks *)

(** The text of the deltas, laid end to end; a tool's delta has none. *)
Definition spoken_text (ds : list TurnDelta) : text := concat (map td_Text ds).

Lemma spoken_text_app ds ds' : spoken_text (ds ++ ds') = spoken_text ds ++ spoken_text ds'.
Proof. unfold spoken_text. by rewrite map_app, concat_app. Qed.

(** A delta that says something, or one of a tool. *)
Definition delta_speaks (d : TurnDelta) : Prop :=
  match td_Kind d with TurnDeltaKindText => TrimSpace (td_Text d) <> [] | _ => td_Text d = [] end.

(** An answer whose deltas are its text. *)
Definition speaks (ds : list TurnDelta) (r : result text TurnOutput) : Prop :=
  exists output, r = Ok output /\ to_Text output = spoken_text ds /\ TrimSpace (to_Text output) <> [] /\
    Forall delta_speaks ds.

Lemma summary_nonblank result : TrimSpace (toolSummaryText result) <> [].
Proof.
  assert (H : forall t, TrimSpace (txt "tool " ++ t) <> [])
    by (intros t E; pose proof (nonblank_app (txt "tool ") t eq_refl) as Hn; by rewrite E in Hn).
  unfold toolSummaryText, with_output. cbv zeta. repeat split_if; rewrite <- ?app_assoc; apply H.
Qed.

Lemma end_session_text inputText output :
  to_Text (end_session inputText output) = to_Text output /\ to_Deltas (end_session inputText output) = to_Deltas output.
Proof. unfold end_session. split_if; by read_fields. Qed.

Section Speaking.

Context {W : Type} `{!AgentServices W} `{!Collecting W}.

Lemma emits_collected d : emits (W := W) (emitTurnDelta d) (fun ds r => ds = [d] /\ r = Ok tt).
Proof. intros s. unfold emitTurnDelta. rewrite sink_takes. by exists [d]. Qed.

(** Emitting [d] and going on. *)
Lemma emits_then {A} d (m : agent W A) (P : list TurnDelta -> result text A -> Prop) :
  emits m (fun ds r => P (d :: ds) r) -> emits (do! _ := emitTurnDelta d in m) P.
Proof.
  intros Hm. eapply emits_bind; [apply emits_collected|by intros ? ? [_ [=]]|]. intros ds [] [-> _]. exact Hm.
Qed.

Lemma attempt_then {A B} (call : W -> W * result text A) (f : result text A -> agent W B) P :
  (forall r, emits (f r) P) -> emits (do! r := attempt call in f r) P.
Proof.
  intros Hf. eapply emits_bind; [apply emits_attempt|by intros ? ? [_ [=]]|]. intros ds r [-> _]. apply Hf.
Qed.

Lemma report_speaks result : emits (report_result (W := W) result) speaks.
Proof.
  apply emits_then, emits_then, emits_ret. eexists. split; [reflexivity|]. cbn. rewrite !app_nil_r.
  split; [done|]. split; [apply summary_nonblank|]. repeat constructor. apply summary_nonblank.
Qed.

Lemma text_speaks inputText s : TrimSpace s <> [] -> emits (emitBootstrapTextOutput (W := W) inputText s) speaks.
Proof.
  intros Hs. apply emits_then, emits_ret. eexists. split; [reflexivity|]. destruct (end_session_text inputText (text_output s)) as [-> _].
  cbn. rewrite app_nil_r. by repeat constructor.
Qed.

Lemma memory_speaks context : emits (executeMemoryCommand (W := W) context) speaks.
Proof.
  apply emits_then, emits_ret. eexists. split; [reflexivity|]. cbn [text_output to_Text spoken_text map concat td_Text text_delta].
  rewrite app_nil_r. split; [done|].
  assert (H : forall l t : text, match l with [] => false | r :: _ => negb (IsSpace r) end = true -> TrimSpace (l ++ t) <> [])
    by (intros l t Hn%(nonblank_app l t) E; by rewrite E in Hn).
  match goal with |- TrimSpace ?t <> [] /\ _ => enough (Hs : TrimSpace t <> []) by (by repeat constructor) end.
  destruct context as [c|e]; [|by apply H]. split_if; [by apply H|]. by vm_compute.
Qed.

Lemma tool_speaks input command : emits (executeToolCommand (W := W) input command) speaks.
Proof.
  unfold executeToolCommand, toolFailureOutput. cbv zeta. apply attempt_then. intros [tools|e]; [|apply report_speaks].
  split_if; [apply report_speaks|]. apply emits_then, attempt_then. intros [r|e].
  all: eapply emits_weaken; [apply report_speaks|]; intros ds r' (output & -> & H1 & H2 & H3); exists output; by repeat constructor.
Qed.

Lemma received_nonblank input s : TrimSpace (received_text input s) <> [].
Proof.
  assert (H : forall t, TrimSpace (txt "agent-server received " ++ t) <> [])
    by (intros t E; pose proof (nonblank_app (txt "agent-server received ") t eq_refl) as Hn; by rewrite E in Hn).
  unfold received_text. repeat split_if; [exact (H (txt "text input: " ++ s))|apply H|by vm_compute].
Qed.

Lemma bootstrap_output_speaks input s context : emits (streamBootstrapOutput (W := W) input s context) speaks.
Proof.
  unfold streamBootstrapOutput, bootstrapPlaybackFollowUpText.
  destruct (parseBootstrapMemoryCommand s); [apply memory_speaks|].
  destruct (parseBootstrapToolCommand s); [apply tool_speaks|].
  destruct (deterministicPlaybackFollowUpText s (ti_Metadata input)) as [t|] eqn:E.
  - by eapply text_speaks, follow_up_nonblank.
  - apply text_speaks, received_nonblank.
Qed.

Lemma persist_speaks input s output : emits (persist_output (W := W) input s output) (fun ds r => ds = [] /\ r = Ok output).
Proof.
  unfold persist_output. split_if; [|by apply emits_ret].
  eapply emits_bind; [apply emits_update|by intros ? ? [_ [=]]|]. intros ds [] [-> _]. by apply emits_ret.
Qed.

Lemma collected_output (m : agent W TurnOutput) w :
  emits m speaks -> exists output, (ExecuteTurn m w).2 = Ok output /\
    to_Text output = spoken_text (to_Deltas output) /\ TrimSpace (to_Text output) <> [].
Proof.
  intros Hm. unfold ExecuteTurn. destruct (Hm (mkAgentState w [])) as (ds & E & output & Er & H1 & H2 & _).
  destruct (m (mkAgentState w [])) as [s r]. cbn [fst snd emitted app] in *. subst r.
  eexists. split; [reflexivity|]. read_fields. by rewrite E.
Qed.

Lemma bootstrap_turn_speaks input : emits (BootstrapStreamTurn (W := W) input) speaks.
Proof.
  unfold BootstrapStreamTurn. cbv zeta. apply attempt_then. intros context.
  eapply emits_bind; [apply bootstrap_output_speaks|by intros ds e (output & [=] & _)|].
  intros ds output (output' & [= <-] & H). eapply emits_weaken; [apply persist_speaks|].
  intros ds' r [-> ->]. rewrite app_nil_r. by exists output.
Qed.

(** Without a model the user is always answered: whatever the memory, the
    registry or the tool answers, errors included, the turn succeeds with a text
    that is not blank, and that text is what its deltas say, in order. *)
Theorem bootstrap_always_answers input w :
  exists output, (ExecuteTurn (BootstrapStreamTurn input) w).2 = Ok output /\
    to_Text output = spoken_text (to_Deltas output) /\ TrimSpace (to_Text output) <> [].
Proof. apply collected_output, bootstrap_turn_speaks. Qed.

End Speaking.

(** A runtime whose memory, registry and tools all fail. *)
#[local] Instance broken_services : AgentServices unit := {
  load_context _ w := (w, Err (txt "memory down"));
  save_turn _ w := w;
  list_tools _ w := (w, Err (txt "registry down"));
  invoke_tool _ w := (w, Err (txt "tool down"));
  sink_error _ _ _ := None
}.
#[local] Instance broken_collects : Collecting unit.
Proof. done. Qed.

Definition demo_turn_input (said : text) : TurnInput :=
  mkTurnInput "s1" "t1" "" "d1" "web" said (mkAudioInput false 0 0 "" 0 0) [] ∅.

Lemma bootstrap_always_answers_witness :
  exists output, (ExecuteTurn (BootstrapStreamTurn (demo_turn_input "/tool time.now")) tt).2 = Ok output /\
    spoken_text (to_Deltas output) = txt "tool time.now failed: tool registry failed: registry down".
Proof.
  destruct (bootstrap_always_answers (demo_turn_input "/tool time.now") tt) as (output & H & E & _).
  exists output. split; [exact H|]. rewrite <- E. vm_compute in H. injection H as <-. by vm_compute.
Defined.
