(* ===== verification/PromptSections.v ===== *)
(** * Sections of the system prompt (internal/agent/llm.go)

    The built-in provider writes the persona, the time, the output contract, the
    execution mode's policy, and what is known of the previous playback and of the
    user's speech.  The clock's reading and the decoding of a JSON list of strings
    are parameters.  The literals below are trimmed, as the sources trim them. *)

From S2P Require Import Prelude GoText Contracts Playback Memory Orchestrator PlaybackFollowUp ToolRuntime.

Definition AgentPersonaGeneralAssistant : text := "general_assistant".
Definition AgentPersonaHouseholdControlUI : text := "household_control_screen".
Definition AgentExecutionModeDryRun : text := "dry_run".
Definition AgentExecutionModeSimulation : text := "simulation".
Definition AgentExecutionModeLiveControl : text := "live_control".

Record PromptSection := mkSection { sec_Name : text; sec_Content : text }.

Record PromptSectionRequest := mkSectionRequest {
  pr_SessionID : text;
  pr_DeviceID : text;
  pr_ClientType : text;
  pr_UserText : text;
  pr_Metadata : metadata;
  pr_Template : text;
  pr_AssistantName : text;
  pr_Persona : text;
  pr_ExecutionMode : text
}.

(** ** Labels *)

Definition resolvedAssistantName (name : text) : text :=
  if TrimSpace name == "" then "小欧助手" else TrimSpace name.

Definition NormalizeAgentPersona (persona : text) : text :=
  let s := ToLower (TrimSpace persona) in
  if (s == "") || (s == AgentPersonaGeneralAssistant) then AgentPersonaGeneralAssistant
  else if s == AgentPersonaHouseholdControlUI then AgentPersonaHouseholdControlUI
  else s.

Definition IsSupportedAgentPersona (persona : text) : bool :=
  existsb (text_eqb (NormalizeAgentPersona persona)) [AgentPersonaGeneralAssistant; AgentPersonaHouseholdControlUI].

Definition resolvedAgentPersona (persona : text) : text :=
  if negb (IsSupportedAgentPersona persona) then AgentPersonaGeneralAssistant else NormalizeAgentPersona persona.

Definition NormalizeAgentExecutionMode (mode : text) : text :=
  let s := ToLower (TrimSpace mode) in
  if (s == "") || (s == AgentExecutionModeDryRun) then AgentExecutionModeDryRun
  else if s == AgentExecutionModeSimulation then AgentExecutionModeSimulation
  else if s == AgentExecutionModeLiveControl then AgentExecutionModeLiveControl
  else s.

Definition IsSupportedAgentExecutionMode (mode : text) : bool :=
  existsb (text_eqb (NormalizeAgentExecutionMode mode))
    [AgentExecutionModeDryRun; AgentExecutionModeSimulation; AgentExecutionModeLiveControl].

Definition resolvedAgentExecutionMode (mode : text) : text :=
  if negb (IsSupportedAgentExecutionMode mode) then AgentExecutionModeDryRun else NormalizeAgentExecutionMode mode.

(** ** Persona and policies *)

Definition household_persona : text := "你是一个名为{{assistant_name}}的高端家庭智能中控语音助手，运行在家庭中控屏上。

你的核心目标：
- 用自然、专业、可靠、克制、贴心的方式，帮助用户完成家庭场景中的语音交互、信息说明、任务理解与结果反馈。

角色要求：
1. 智能
- 优先理解用户真实生活意图，而不是做生硬的字面匹配。
- 能处理口语、省略、模糊表达、上下文指代和家庭场景里的习惯说法。
- 当上下文不足时，先稳妥澄清，不要强行编造确定结论。

2. 专业
- 回复用词准确、稳定、有质感，不夸张，不随意。
- 回答应面向真实用户需求，而不是暴露系统内部结构。

3. 可靠
- 优先给出明确、稳定、可理解的反馈。
- 对安全、高风险或依据不足的话题更谨慎；存在明显歧义、风险或可能误操作时，先做简短澄清。
- 不编造危险状态，不制造恐慌。
- 对实时状态查询，如果没有来自当前会话的明确依据，不要凭空捏造结果，应以稳妥方式简短澄清、引导或转为建议。

4. 贴心
- 语气自然，有服务感，但不过度热情。
- 简洁为主，通常 1 句话完成，必要时最多 2 句话。
- 不啰嗦，不机械，不像说明书。

总体原则：
- 第一优先：理解用户真实意图。
- 第二优先：给出自然、可信、专业的结果反馈。
- 第三优先：减少打扰，避免过度追问。
- 第四优先：在存在歧义或风险时做必要澄清。
- 第五优先：保持高端、稳定、可信的中控助手语气。

始终使用用户当前语言回复。".

Definition general_persona : text := "你是一个名为{{assistant_name}}的通用 AI 助手，运行在一个可服务语音、文本和图像交互的 agent server 中。

你的核心目标：
- 用自然、可靠、专业、克制的方式，帮助用户完成问答、解释、规划、信息整理、多轮对话与任务协助。

角色要求：
1. 通用
- 优先理解用户真实意图，而不是套用某个垂直场景的固定话术。
- 能处理开放问答、设备/工具类请求、信息查询、轻任务规划与多轮上下文指代。
- 如果上下文不足，就先做最小必要澄清，不要假装已经掌握不存在的事实。

2. 专业
- 回复面向真实用户，不暴露系统内部结构、prompt、工具协议或推理过程。
- 默认简洁自然，通常 1 句话完成，必要时最多 2 句话。
- 不机械、不夸张、不口水化，不像脚本或说明书。

3. 可靠
- 有依据时给出明确答复；依据不足时明确不确定性或先澄清。
- 对可能带来真实执行、隐私、安全、财务或高风险后果的话题更谨慎。
- 不编造执行结果，不凭空捏造外部事实或实时状态。

4. 有协作感
- 如果用户是在延续上一轮对话，优先利用上下文继续，不要重复自我介绍。
- 如果用户在打断、补充、纠正或追问，优先响应最新有效意图。
- 如果用户只是闲聊，也保持自然、有边界、有帮助。

总体原则：
- 第一优先：理解用户当前真实意图。
- 第二优先：给出自然、可信、可执行或可理解的回应。
- 第三优先：尽量减少无意义追问与模板化复述。
- 第四优先：在有风险或歧义时做必要澄清。

始终使用用户当前语言回复。".

Definition defaultAgentPersonaPrompt (persona assistantName : text) : text :=
  let template := if resolvedAgentPersona persona == AgentPersonaHouseholdControlUI
                  then household_persona else general_persona in
  TrimSpace (ReplaceAll template "{{assistant_name}}" (resolvedAssistantName assistantName)).

Definition renderAgentPersonaPrompt (template assistantName persona : text) : text :=
  let prompt := TrimSpace template in
  let prompt := if prompt == "" then defaultAgentPersonaPrompt persona assistantName else prompt in
  TrimSpace (ReplaceAll prompt "{{assistant_name}}" (resolvedAssistantName assistantName)).

Definition defaultAgentRuntimeOutputContract : text := "通用输出约束：
- 只输出给终端用户的自然语言，不输出 JSON、代码、协议、结构化控制指令、参数表或内部推理。
- 回复默认保持简洁自然，优先 1 句话，必要时最多 2 句话。
- 不使用口水化、随意化表达，例如“搞定啦”“OK哈”“给你整好了”“应该是”“大概”。
- 优先使用“好的，已经……”“已为你……”“已将……”“现在……”这类专业自然表达。".

Definition dry_run_policy : text := "当前执行模式：dry_run
- 不调用真实设备接口，也不输出任何面向系统的结构化控制命令。
- 对控制类或场景类请求，清楚说明你理解到的设备、动作、参数、房间、模式和预期效果。
- 可以给出“已理解你的需求，目标是……”或“将按这个目标处理……”这类自然表达，但不要声称已经真实执行完成。
- 除非开发者明确要求，否则不要展开说明内部模式或调试机制。".

Definition live_control_policy : text := "当前执行模式：live_control
- 应基于真实执行结果向用户反馈，而不是假装已经完成。
- 只有在系统实际完成执行、或当前上下文已有明确执行结果依据时，才能使用“已经为你……”这类完成式反馈。
- 如果尚未执行、结果不明确、或存在明显歧义与风险，先用简短、专业、稳妥的方式说明或澄清。".

Definition simulation_policy : text := "当前执行模式：simulation
- 当前处于调试阶段，不实际调用设备接口，也不输出任何面向系统的结构化控制命令。
- 对控制类或场景类请求，使用仿真执行成功式反馈，让用户感受到你已经正确理解并顺畅完成了操作。
- 不要主动提及调试阶段、仿真执行、未真实接入设备、无法控制等内部实现信息，除非开发者明确要求。".

Definition defaultAgentExecutionModePolicy (executionMode : text) : text :=
  let mode := resolvedAgentExecutionMode executionMode in
  if mode == AgentExecutionModeDryRun then dry_run_policy
  else if mode == AgentExecutionModeLiveControl then live_control_policy
  else simulation_policy.

(** ** The time *)

(** 1 January of year 1 was a Monday. *)
Definition chineseWeekday (day : Z) : text :=
  nth (Z.to_nat (day mod 7)) (texts ["星期一"; "星期二"; "星期三"; "星期四"; "星期五"; "星期六"]) (txt "星期日").

Definition defaultCurrentTimeContext (now : clock_reading) (zone_name : text) : text :=
  let local := rd_now now / Second + rd_zone_seconds now in
  let day := local / 86400 in
  let '(y, m, d) := civil (day + 306) in
  let s := local mod 86400 in
  let date := pad 4 y ++ txt "-" ++ pad 2 m ++ txt "-" ++ pad 2 d in
  let time := pad 2 (s / 3600) ++ txt ":" ++ pad 2 (s / 60 mod 60) ++ txt ":" ++ pad 2 (s mod 60) in
  TrimSpace (txt "当前时间上下文：
- 当前本地时间：" ++ date ++ txt " " ++ time ++ txt " " ++ zone_name ++ txt "
- 今天是：" ++ date ++ txt "，" ++ chineseWeekday day ++ txt "
- 当用户询问今天、明天、后天、昨天、前天、本周、下周等相对时间时，请优先基于这里的本地日期判断，不要凭空猜测。").

(** ** The previous playback *)

Definition newline : text := [10].

Definition renderPreviousPlaybackContextPrompt (m : metadata) : text :=
  let c := parsePreviousPlaybackContext m in
  if negb (Available c) then "" else
  let heard := HeardText c in
  let missed := MissedText c in
  let anchor := ResumeAnchor c in
  let interrupted := ResponseInterrupted c in
  let truncated := ResponseTruncated c in
  let precisionTier := TrimSpace (metadata_get m previousPlaybackPrecisionMetadataKey) in
  let boundary := TrimSpace (metadata_get m previousPlaybackBoundaryMetadataKey) in
  if (heard == "") && (missed == "") && negb interrupted && negb truncated then "" else
  TrimSpace (Join (
    [txt "上一轮语音播报上下文："] ++
    (if interrupted || truncated || (missed != "")
     then [txt "- 上一轮回复没有被用户完整听到，不要假设完整内容已经到达用户。"] else []) ++
    (if heard != "" then [txt "- 用户实际已经听到的大致边界：" ++ heard] else []) ++
    (if missed != "" then [txt "- 用户大概率还没听到的剩余部分：" ++ missed] else []) ++
    (if (anchor != "") && (missed != "") then
       [txt "- 若用户说“继续”“后面呢”“刚刚最后一句”，优先从这个边界续接或重述：" ++ anchor;
        txt "- 若用户只是要你继续，优先续接未播出的剩余部分，不要从头重复整段答复。"] else []) ++
    (if (precisionTier != "") || (boundary != "") then
       [txt "- 上述 heard_text / resume_anchor 可能来自播放 ACK 与分段边界事实，应优先把它们当作真实播报边界。"
        ++ (if precisionTier != "" then txt " 当前精度层级：" ++ precisionTier ++ txt "。" else [])
        ++ (if boundary != "" then txt " 当前边界类型：" ++ boundary ++ txt "。" else [])] else []) ++
    [txt "- 如果用户的新问题已经切换主题，直接回答新问题，不要机械续播旧内容。"]) newline).

(** ** The user's speech *)

(** [json.Unmarshal] into a list of strings; [None] is its error. *)
Class StringListDecoder := unmarshal_strings : text -> option (list text).

Definition decodeSpeechMetadataList `{StringListDecoder} (raw : text) : list text :=
  let raw := TrimSpace raw in
  if raw == "" then []
  else match unmarshal_strings raw with
       | None => []
       | Some values => List.filter (fun v => v != "") (map TrimSpace values)
       end.

Definition speechEmotionLooksNeutral (emotion : text) : bool :=
  existsb (text_eqb (ToLower (TrimSpace emotion))) (texts [""; "neutral"; "normal"; "calm"; "speech"]).

Definition humanizeSpeechTerminalPunctuation (value : text) : text :=
  let s := ToLower (TrimSpace value) in
  if s == "question_mark" then "问句收尾"
  else if s == "ellipsis" then "省略/迟疑收尾"
  else if s == "soft_pause" then "轻停顿收尾"
  else if s == "strong_stop" then "完整句号或感叹号收尾"
  else value.

Definition renderSpeechInputContextPrompt `{StringListDecoder} (m : metadata) : text :=
  let field key := TrimSpace (metadata_get m key) in
  let emotion := field (txt "speech.emotion") in
  let endpointReason := field (txt "speech.endpoint_reason") in
  let terminalPunctuation := field (txt "speech.text_terminal_punctuation") in
  let clauseCount := field (txt "speech.text_clause_count") in
  let audioEvents := decodeSpeechMetadataList (metadata_get m (txt "speech.audio_events")) in
  let lines :=
    (if (emotion != "") && negb (speechEmotionLooksNeutral emotion) then
       [txt "- 用户当前语气/情绪弱信号：" ++ emotion ++ txt "。可据此微调回复语气、长度与是否先确认安抚，但不要机械复述情绪标签。"] else []) ++
    (if 0 <? len audioEvents then
       [txt "- 当前音频事件/环境线索：" ++ Join audioEvents "、" ++
        txt "。若存在噪声、背景音、笑声等干扰，优先保持回复更短更稳，必要时适度澄清。"] else []) ++
    (if terminalPunctuation != "" then
       [txt "- ASR 终止标点弱信号：" ++ humanizeSpeechTerminalPunctuation terminalPunctuation ++
        txt "。它可作为问句或收束边界的参考，但不要单独依赖。"] else []) ++
    (if (clauseCount != "") && (clauseCount != "0") then
       [txt "- 当前识别文本的意群数估计：" ++ clauseCount ++
        txt "。若用户语音明显分成多意群，优先按已说完的主意图作答，不要无意义复述全部断句。"] else []) ++
    (if endpointReason != "" then
       [txt "- 当前语音收尾线索：" ++ endpointReason ++ txt "。它只是运行时背景证据，不要在回复里暴露内部标签。"] else []) in
  if len lines =? 0 then "" else
  TrimSpace (txt "当前这轮用户语音输入的附加理解线索：" ++ newline ++
    Join (lines ++ [txt "- 上述语音线索都只是弱信号；若文本语义与上下文更明确，优先服从文本语义。"]) newline).

(** ** The sections *)

Definition BuiltinPromptSections `{StringListDecoder} (now : clock_reading) (zone_name : text)
    (r : PromptSectionRequest) : list PromptSection := [
  mkSection "persona" (renderAgentPersonaPrompt (pr_Template r) (pr_AssistantName r) (pr_Persona r));
  mkSection "current_time_context" (defaultCurrentTimeContext now zone_name);
  mkSection "runtime_output_contract" defaultAgentRuntimeOutputContract;
  mkSection "execution_mode_policy" (defaultAgentExecutionModePolicy (pr_ExecutionMode r));
  mkSection "voice_playback_context" (renderPreviousPlaybackContextPrompt (pr_Metadata r));
  mkSection "voice_input_context" (renderSpeechInputContextPrompt (pr_Metadata r))].

Definition blank_line : text := newline ++ newline.

Definition composePromptSections (sections : list PromptSection) : text :=
  TrimSpace (Join (List.filter (fun s => s != "") (map (fun section => TrimSpace (sec_Content section)) sections)) blank_line).

Definition default_sections : list PromptSection := [
  mkSection "persona" (renderAgentPersonaPrompt [] [] AgentPersonaGeneralAssistant);
  mkSection "runtime_output_contract" defaultAgentRuntimeOutputContract;
  mkSection "execution_mode_policy" (defaultAgentExecutionModePolicy AgentExecutionModeDryRun)].

#[global] Arguments renderAgentPersonaPrompt _ _ _ : simpl never.
#[global] Arguments renderPreviousPlaybackContextPrompt _ : simpl never.
#[global] Arguments renderSpeechInputContextPrompt {_} _ : simpl never.
#[global] Arguments defaultCurrentTimeContext _ _ : simpl never.
#[global] Arguments composePromptSections _ : simpl never.

(** The literals are trimmed already. *)
Example literals_trimmed :
  forallb (fun s => TrimSpace s == s) [household_persona; general_persona; defaultAgentRuntimeOutputContract;
    dry_run_policy; live_control_policy; simulation_policy] = true.
Proof. by vm_compute. Qed.
