(* ===== verification/LLMExecutor.v ===== *)
(** * The executor over a chat model (internal/agent/llm_executor.go, llm.go)

    A turn is answered by a loop of model calls: the model's text is streamed as
    deltas, the tools it asks for are run and their results given back, until it
    answers without tools or the budget of steps is spent.  A preview may have
    prepared the turn's inputs; a prepared candidate is used once, for the turn it
    was prepared for. *)

From S2P Require Import Prelude GoText GoOrder GoJSON Contracts Memory PlaybackFollowUp AgentRuntime ToolRuntime BootstrapExecutor PromptSections.

(** ** Model data (internal/agent/llm.go) *)

Record ChatModelRequest := mkChatRequest {
  cq_SessionID : text;
  cq_DeviceID : text;
  cq_ClientType : text;
  cq_UserText : text;
  cq_SystemPrompt : text;
  cq_MemoryContext : MemoryContext;
  cq_Metadata : metadata;
  cq_Images : list ImageInput;
  cq_Messages : list ChatMessage;
  cq_Tools : list ToolDefinition
}.

Record ChatModelResponse := mkChatResponse {
  cs_Text : text;
  cs_FinishReason : text;
  cs_Message : ChatMessage
}.

(** A chat model over the services' state.  One that streams hands its deltas to
    the sink and stops with the sink's error at the first that is refused. *)
Record ChatModel (W : Type) := mkChatModel {
  Complete : ChatModelRequest -> W -> W * result text ChatModelResponse;
  Stream : option (ChatModelRequest -> W -> W * (list text * result text ChatModelResponse))
}.
Arguments Complete {W}.
Arguments Stream {W}.

(** ** Tool names *)

Definition defaultToolLoopMaxSteps : nat := 6.

Definition model_name_rune (r : rune) : rune :=
  if ((97 <=? r) && (r <=? 122)) || ((48 <=? r) && (r <=? 57)) || (r =? 95) || (r =? 45) then r else 95.

Definition makeModelToolName (name : text) : text :=
  let trimmed := TrimSpace (ToLower name) in
  if trimmed == "" then "" else
  let modelName := Trim (map model_name_rune trimmed) "_-" in
  let modelName := if modelName == "" then txt "tool" else modelName in
  if 64 <? len modelName then take 64 modelName else modelName.

Definition toolAliasSet : Type := gmap text text.

Definition alias_get (s : toolAliasSet) (name : text) : text := default [] (s !! name).

Definition actualName (s : toolAliasSet) (name : text) : text :=
  if (size s =? 0)%nat then TrimSpace name
  else let actual := TrimSpace (alias_get s (TrimSpace name)) in
       if actual != "" then actual else TrimSpace name.

Record alias_build := mkAliasBuild {
  ab_modelTools : list ToolDefinition;
  ab_aliases : toolAliasSet;
  ab_used : gmap text Z
}.

Definition used_count (used : gmap text Z) (name : text) : Z := default 0 (used !! name).

(** One turn of the loop of [buildModelToolDefinitions]. *)
Definition add_model_tool (b : alias_build) (tool : ToolDefinition) : alias_build :=
  let actualName := TrimSpace (tool_Name tool) in
  if actualName == "" then b else
  let modelName := makeModelToolName actualName in
  if modelName == "" then b else
  let count := used_count (ab_used b) modelName in
  let modelName := if 0 <? count then modelName ++ txt "_" ++ Itoa (count + 1) else modelName in
  mkAliasBuild
    (ab_modelTools b ++ [mkTool modelName (tool_Description tool) (tool_Parameters tool) (tool_Strict tool)])
    (<[modelName := actualName]> (ab_aliases b))
    (<[modelName := used_count (ab_used b) modelName + 1]> (ab_used b)).

Definition buildModelToolDefinitions (tools : list ToolDefinition) : list ToolDefinition * toolAliasSet :=
  let b := fold_left add_model_tool tools (mkAliasBuild [] ∅ ∅) in
  (ab_modelTools b, ab_aliases b).

Definition normalizedToolArguments (arguments : text) : text :=
  if TrimSpace arguments == "" then "{}" else TrimSpace arguments.

(** ** Messages *)

Definition initialChatMessages (systemPrompt : text) (context : MemoryContext) (userText : text) (m : metadata)
    : list ChatMessage :=
  let systemPrompt := TrimSpace systemPrompt in
  let systemPrompt := if systemPrompt == "" then composePromptSections default_sections else systemPrompt in
  let memory := TrimSpace (Summary context) in
  [role_message "system" systemPrompt]
  ++ (if memory != "" then [role_message "system" (txt "Conversation memory:" ++ newline ++ memory)] else [])
  ++ mc_RecentMessages context
  ++ playbackFollowUpMessages userText m
  ++ [role_message "user" (TrimSpace userText)].

Definition responseText (r : ChatModelResponse) : text :=
  if cm_Content (cs_Message r) != "" then cm_Content (cs_Message r) else cs_Text r.

Definition role_or_assistant (role : text) : text := if role == "" then "assistant" else role.

Definition normalizedAssistantMessage (r : ChatModelResponse) : ChatMessage :=
  let message := cs_Message r in
  mkChatMessage (role_or_assistant (cm_Role message))
    (if cm_Content message == "" then responseText r else cm_Content message)
    (cm_ToolCallID message) (cm_ToolCalls message).

Definition turnOutputFromText (inputText s : text) : TurnOutput := end_session inputText (text_output s).

(** What a step leaves of the response: a role, the content said, its text. *)
Definition complete_response (r : ChatModelResponse) (content text_source : text) : ChatModelResponse :=
  let message := cs_Message r in
  let content := if cm_Content message == "" then content else cm_Content message in
  mkChatResponse (if cs_Text r == "" then TrimSpace text_source else cs_Text r) (cs_FinishReason r)
    (mkChatMessage (role_or_assistant (cm_Role message)) content (cm_ToolCallID message) (cm_ToolCalls message)).

(** ** Prepared turns *)

Definition llmPrewarmTTL : duration := 15 * Second.

Record llmPrewarmCandidate := mkCandidate {
  wc_SessionID : text;
  wc_DeviceID : text;
  wc_ClientType : text;
  wc_UserText : text;
  wc_MetadataSig : text;
  wc_PreparedAt : instant;
  wc_SystemPrompt : text;
  wc_MemoryContext : MemoryContext;
  wc_Tools : list ToolDefinition;
  wc_Aliases : toolAliasSet
}.

Definition llmPrewarmState : Type := gmap text llmPrewarmCandidate.

Definition signature_entry (entry : text * text) : option text :=
  let trimmedKey := TrimSpace entry.1 in
  if (trimmedKey == "") || HasPrefix trimmedKey "voice.preview." then None
  else if TrimSpace entry.2 != "" then Some (trimmedKey ++ txt "=" ++ TrimSpace entry.2) else None.

Definition llmPrewarmMetadataSignature (m : metadata) : text :=
  Join (sort_strings (omap signature_entry (map_to_list m))) "&".

Definition prewarm_store (candidate : llmPrewarmCandidate) (p : llmPrewarmState) : llmPrewarmState :=
  if TrimSpace (wc_SessionID candidate) == "" then p else <[wc_SessionID candidate := candidate]> p.

Definition candidate_matches (now : instant) (input : TurnInput) (trimmedText : text) (m : metadata)
    (c : llmPrewarmCandidate) : bool :=
  negb (llmPrewarmTTL <? time_Sub now (wc_PreparedAt c))
  && (TrimSpace (wc_DeviceID c) == TrimSpace (ti_DeviceID input))
  && (TrimSpace (wc_ClientType c) == TrimSpace (ti_ClientType input))
  && (TrimSpace (wc_UserText c) == TrimSpace trimmedText)
  && (wc_MetadataSig c == llmPrewarmMetadataSignature m).

Definition consumeMatch (now : instant) (input : TurnInput) (trimmedText : text) (m : metadata) (p : llmPrewarmState)
    : llmPrewarmState * option llmPrewarmCandidate :=
  if TrimSpace (ti_SessionID input) == "" then (p, None)
  else match p !! ti_SessionID input with
       | None => (p, None)
       | Some c => (delete (ti_SessionID input) p, if candidate_matches now input trimmedText m c then Some c else None)
       end.

(** ** The executor *)

(** The fields of the executor; the prompt sections and the skills' fragments are
    read at the services' state, as the clock of the built-in sections is. *)
Record LLMTurnExecutor (W : Type) := mkLLM {
  ex_Model : option (ChatModel W);
  ex_SystemPrompt : text;
  ex_AssistantName : text;
  ex_Persona : text;
  ex_ExecutionMode : text;
  ex_PromptSections : PromptSectionRequest -> W -> result text (list PromptSection);
  ex_BuiltinSections : PromptSectionRequest -> W -> list PromptSection;
  ex_SkillPrompts : option (SkillPromptRequest -> W -> result text (list text))
}.
Arguments ex_Model {W}.
Arguments ex_SystemPrompt {W}.
Arguments ex_AssistantName {W}.
Arguments ex_Persona {W}.
Arguments ex_ExecutionMode {W}.
Arguments ex_PromptSections {W}.
Arguments ex_BuiltinSections {W}.
Arguments ex_SkillPrompts {W}.

Section Executor.

Context {W : Type} `{!AgentServices W}.
Abbreviation executor := (LLMTurnExecutor W).

Definition section_request (e : executor) (input : TurnInput) : PromptSectionRequest :=
  mkSectionRequest (ti_SessionID input) (ti_DeviceID input) (ti_ClientType input) (ti_UserText input) (ti_Metadata input)
    (ex_SystemPrompt e) (ex_AssistantName e) (ex_Persona e) (ex_ExecutionMode e).

Definition systemPrompt (e : executor) (input : TurnInput) (w : W) : text :=
  let request := section_request e input in
  let sections := match ex_PromptSections e request w with
                  | Ok (section :: sections) => section :: sections
                  | _ => ex_BuiltinSections e request w
                  end in
  let base := composePromptSections sections in
  match ex_SkillPrompts e with
  | None => base
  | Some fragments_of =>
      match fragments_of (mkSkillPromptRequest (ti_SessionID input) (ti_DeviceID input) (ti_ClientType input)
                            (ti_UserText input) (ti_Metadata input)) w with
      | Ok (fragment :: fragments) =>
          TrimSpace (Join (TrimSpace base ::
            List.filter (fun s => s != "") (map TrimSpace (fragment :: fragments))) blank_line)
      | _ => base
      end
  end.

Definition listModelTools (input : TurnInput) : agent W (list ToolDefinition * toolAliasSet) :=
  do! tools := attempt (list_tools (mkCatalogRequest (ti_SessionID input) (ti_DeviceID input) (ti_ClientType input))) in
  agent_ret (match tools with
             | Ok (tool :: tools) => buildModelToolDefinitions (tool :: tools)
             | _ => ([], ∅)
             end).

Definition read_services {A} (f : W -> A) : agent W A := fun s => (s, Ok (f (services s))).

(** *** One step *)

Fixpoint emit_texts (deltas : list text) : agent W unit :=
  match deltas with
  | [] => agent_ret tt
  | delta :: deltas =>
      if delta == "" then emit_texts deltas
      else do! _ := emitTurnDelta (text_delta delta) in emit_texts deltas
  end.

Definition lift_result {A} (r : result text A) : agent W A :=
  match r with Ok a => agent_ret a | Err e => agent_fail e end.

(** The response, and the output text with what the step said appended. *)
Definition runModelStep (model : ChatModel W) (request : ChatModelRequest) (outputText : text)
    : agent W (ChatModelResponse * text) :=
  match Stream model with
  | Some stream =>
      do! '(deltas, answer) := (fun s => let '(w, r) := stream request (services s) in (mkAgentState w (emitted s), Ok r)) in
      do! _ := emit_texts deltas in
      do! response := lift_result answer in
      let stepText := concat deltas in
      agent_ret (complete_response response stepText
                   (if cm_Content (cs_Message response) == "" then stepText else cm_Content (cs_Message response)),
                 outputText ++ stepText)
  | None =>
      do! answer := attempt (Complete model request) in
      do! response := lift_result answer in
      let said := responseText response in
      do! _ := emit_texts [said] in
      agent_ret (complete_response response said said, outputText ++ said)
  end.

(** *** Tools *)

Definition invokeTool (call : ToolCall) : agent W ToolResult :=
  do! result := attempt (invoke_tool call) in
  agent_ret (complete_result call
    (match result with
     | Ok result => result
     | Err e => mkToolResult (call_CallID call) (call_ToolName call) "failed" e
     end)).

Definition tool_call_of (input : TurnInput) (aliases : toolAliasSet) (idx : Z) (toolCall : ChatToolCall) : ToolCall :=
  let callID := TrimSpace (tc_ID toolCall) in
  let callID := if callID == "" then txt "tool_call_" ++ Itoa (idx + 1) else callID in
  let actual := actualName aliases (tc_Name toolCall) in
  let actual := if actual == "" then TrimSpace (tc_Name toolCall) else actual in
  mkToolCall callID (ti_SessionID input) (ti_DeviceID input) (ti_ClientType input) actual
    (normalizedToolArguments (tc_Arguments toolCall)).

Fixpoint executeToolCalls (input : TurnInput) (aliases : toolAliasSet) (idx : Z) (toolCalls : list ChatToolCall)
    : agent W (list ChatMessage) :=
  match toolCalls with
  | [] => agent_ret []
  | toolCall :: toolCalls =>
      let call := tool_call_of input aliases idx toolCall in
      do! _ := emitTurnDelta (call_delta call) in
      do! result := invokeTool call in
      do! _ := emitTurnDelta (result_delta result) in
      do! messages := executeToolCalls input aliases (idx + 1) toolCalls in
      agent_ret (mkChatMessage "tool" (res_ToolOutput result) (res_CallID result) [] :: messages)
  end.

(** *** The loop *)

Record turn_setup := mkSetup {
  su_SystemPrompt : text;
  su_MemoryContext : MemoryContext;
  su_Tools : list ToolDefinition;
  su_Aliases : toolAliasSet
}.

Definition model_request (input : TurnInput) (trimmedText : text) (setup : turn_setup) (messages : list ChatMessage)
    : ChatModelRequest :=
  mkChatRequest (ti_SessionID input) (ti_DeviceID input) (ti_ClientType input) trimmedText (su_SystemPrompt setup)
    (su_MemoryContext setup) (ti_Metadata input) (ti_Images input) messages (su_Tools setup).

Fixpoint tool_loop (steps : nat) (model : ChatModel W) (input : TurnInput) (trimmedText : text) (setup : turn_setup)
    (messages : list ChatMessage) (outputText : text) : agent W TurnOutput :=
  match steps with
  | O => agent_fail "chat model exceeded tool step budget"
  | S steps =>
      do! '(response, outputText) := runModelStep model (model_request input trimmedText setup messages) outputText in
      let assistantMessage := normalizedAssistantMessage response in
      let messages := messages ++ [assistantMessage] in
      match cm_ToolCalls assistantMessage with
      | [] =>
          let said := TrimSpace outputText in
          if said == "" then agent_fail "chat model returned empty text"
          else agent_ret (turnOutputFromText trimmedText said)
      | toolCalls =>
          do! toolMessages := executeToolCalls input (su_Aliases setup) 0 toolCalls in
          tool_loop steps model input trimmedText setup (messages ++ toolMessages) outputText
      end
  end.

(** What the turn starts from: the prepared candidate, or the services now. *)
Definition prepare_turn (e : executor) (input : TurnInput) (context : result text MemoryContext)
    (prewarmed : option llmPrewarmCandidate) : agent W turn_setup :=
  match prewarmed with
  | Some c => agent_ret (mkSetup (wc_SystemPrompt c) (wc_MemoryContext c) (wc_Tools c) (wc_Aliases c))
  | None =>
      do! prompt := read_services (systemPrompt e input) in
      do! '(tools, aliases) := listModelTools input in
      agent_ret (mkSetup prompt (match context with Ok c => c | Err _ => zero_MemoryContext end) tools aliases)
  end.

Definition is_command (s : text) : bool := negb (shouldPersistTurn s).

Definition streamLLMOutput (e : executor) (input : TurnInput) (trimmedText : text) (context : result text MemoryContext)
    (prewarmed : option llmPrewarmCandidate) : agent W TurnOutput :=
  match ex_Model e with
  | None => streamBootstrapOutput input trimmedText context
  | Some model =>
      if (trimmedText == "") || is_command trimmedText then streamBootstrapOutput input trimmedText context
      else match deterministicPlaybackFollowUpText trimmedText (ti_Metadata input) with
           | Some followUpText => emitBootstrapTextOutput trimmedText followUpText
           | None =>
               do! setup := prepare_turn e input context prewarmed in
               tool_loop defaultToolLoopMaxSteps model input trimmedText setup
                 (initialChatMessages (su_SystemPrompt setup) (su_MemoryContext setup) trimmedText (ti_Metadata input)) []
           end
  end.

(** *** A turn, and its preparation *)

Definition turn_context (input : TurnInput) (trimmedText : text) (prewarmed : option llmPrewarmCandidate)
    : agent W (result text MemoryContext) :=
  match prewarmed with
  | Some c => agent_ret (Ok (wc_MemoryContext c))
  | None => attempt (load_context (buildMemoryQuery input trimmedText (ti_Metadata input)))
  end.

Definition run_turn (e : executor) (input : TurnInput) (trimmedText : text) (prewarmed : option llmPrewarmCandidate)
    : agent W TurnOutput :=
  do! context := turn_context input trimmedText prewarmed in
  do! output := streamLLMOutput e input trimmedText context prewarmed in
  persist_output input trimmedText output.

Definition LLMStreamTurn (e : executor) (now : instant) (input : TurnInput) (p : llmPrewarmState)
    : llmPrewarmState * agent W TurnOutput :=
  let trimmedText := TrimSpace (ti_UserText input) in
  let '(p, prewarmed) := consumeMatch now input trimmedText (ti_Metadata input) p in
  (p, run_turn e input trimmedText prewarmed).

Definition PrewarmTurn (e : executor) (now : instant) (input : TurnInput) (p : llmPrewarmState)
    : agent W llmPrewarmState :=
  let trimmedText := TrimSpace (ti_UserText input) in
  match ex_Model e with
  | None => agent_ret p
  | Some _ =>
      if trimmedText == "" then agent_ret p else
      do! context := attempt (load_context (buildMemoryQuery input trimmedText (ti_Metadata input))) in
      match context with
      | Err _ => agent_ret p
      | Ok context =>
          do! prompt := read_services (systemPrompt e input) in
          do! '(tools, aliases) := listModelTools input in
          agent_ret (prewarm_store
            (mkCandidate (ti_SessionID input) (ti_DeviceID input) (ti_ClientType input) trimmedText
               (llmPrewarmMetadataSignature (ti_Metadata input)) now prompt context tools aliases) p)
      end
  end.

End Executor.

#[global] Arguments makeModelToolName _ : simpl never.
#[global] Arguments llmPrewarmMetadataSignature _ : simpl never.
#[global] Arguments initialChatMessages _ _ _ _ : simpl never.

(** ** Laws: what a turn emits

    Between texts, a tool's call is followed at once by its result; [pair_ok]
    says what is known of such a pair. *)

Inductive dialogue (pair_ok : TurnDelta -> TurnDelta -> Prop) : list TurnDelta -> Prop :=
| dialogue_nil : dialogue pair_ok []
| dialogue_text s ds : dialogue pair_ok ds -> dialogue pair_ok (text_delta s :: ds)
| dialogue_tool call result ds :
    td_Kind call = TurnDeltaKindToolCall -> td_Kind result = TurnDeltaKindToolResult -> pair_ok call result ->
    td_Text call = [] -> td_Text result = [] -> dialogue pair_ok ds -> dialogue pair_ok (call :: result :: ds).

Lemma dialogue_app pair_ok ds ds' : dialogue pair_ok ds -> dialogue pair_ok ds' -> dialogue pair_ok (ds ++ ds').
Proof. induction 1; intros H'; cbn; [done|constructor; auto|]. constructor; auto. Qed.

(** What [m] adds to the output text [out]. *)
Definition turn_step (pair_ok : TurnDelta -> TurnDelta -> Prop) {A} (out : A -> text) (before : text)
    (ds : list TurnDelta) (r : result text A) : Prop :=
  dialogue pair_ok ds /\ match r with Ok a => out a = before ++ spoken_text ds | Err _ => True end.

Definition turn_answer (pair_ok : TurnDelta -> TurnDelta -> Prop) (before : text) (ds : list TurnDelta)
    (r : result text TurnOutput) : Prop :=
  dialogue pair_ok ds /\
  match r with
  | Ok o => to_Text o = TrimSpace (before ++ spoken_text ds) /\ to_Text o <> []
  | Err _ => True
  end.

Section Emission.

Context {W : Type} `{!AgentServices W} `{!Collecting W}.
Variable pair_ok : TurnDelta -> TurnDelta -> Prop.
Hypothesis tool_pair : forall (call : ToolCall) (w : W),
  TrimSpace (call_CallID call) <> [] ->
  pair_ok (call_delta call) (result_delta (complete_result call
    (match (invoke_tool call w).2 with
     | Ok result => result
     | Err e => mkToolResult (call_CallID call) (call_ToolName call) "failed" e
     end))).

Lemma emit_texts_spec deltas :
  emits (W := W) (emit_texts deltas) (fun ds r => r = Ok tt /\ dialogue pair_ok ds /\ spoken_text ds = concat deltas).
Proof.
  induction deltas as [|d deltas IH]; cbn [emit_texts].
  { apply emits_ret. split_and!; [done|constructor|done]. }
  destruct (d == "") eqn:E.
  - eapply emits_weaken; [exact IH|]. intros ds r (-> & H1 & H2). apply text_eqb_true in E as ->. by rewrite H2.
  - apply emits_then. eapply emits_weaken; [exact IH|]. intros ds r (-> & H1 & H2).
    split_and!; [done|by constructor|]. cbn. by rewrite <- H2.
Qed.

Lemma emits_lift {A} (r : result text A) : emits (W := W) (lift_result r) (fun ds r' => ds = [] /\ r' = r).
Proof. destruct r; [by apply emits_ret|by apply emits_fail]. Qed.

(** A computation that emits nothing, and what follows it. *)
Lemma emits_quiet {A B} (m : agent W A) (f : A -> agent W B) (P : list TurnDelta -> result text B -> Prop) :
  emits m (fun ds _ => ds = []) -> (forall e, P [] (Err e)) -> (forall a, emits (f a) P) -> emits (agent_bind m f) P.
Proof.
  intros Hm He Hf. eapply emits_bind; [exact Hm|by intros ds e ->|]. intros ds a ->. apply Hf.
Qed.

Lemma model_step model request outputText :
  emits (W := W) (runModelStep model request outputText) (turn_step pair_ok snd outputText).
Proof.
  unfold runModelStep. destruct (Stream model) as [stream|].
  - eapply emits_quiet; [|by split; [constructor|]|].
    { intros s. destruct (stream request (services s)) as [w r]. exists []. by rewrite app_nil_r. }
    intros [deltas answer]. eapply emits_bind; [apply emit_texts_spec|by intros ? ? ([=] & _)|].
    intros ds [] (_ & Hd & Hs). eapply emits_bind; [apply emits_lift| |].
    { intros ds' e [-> _]. rewrite app_nil_r. by split. }
    intros ds' response [-> _]. apply emits_ret. rewrite !app_nil_r. split; [done|]. cbn [snd]. by rewrite Hs.
  - eapply emits_quiet; [|by split; [constructor|]|].
    { intros s. unfold attempt. destruct (Complete model request (services s)) as [w r]. exists []. by rewrite app_nil_r. }
    intros answer. eapply emits_quiet; [|by split; [constructor|]|].
    { eapply emits_weaken; [apply emits_lift|]. by intros ds r [-> _]. }
    intros response. eapply emits_bind; [apply emit_texts_spec|by intros ? ? ([=] & _)|].
    intros ds [] (_ & Hd & Hs). apply emits_ret. rewrite app_nil_r. split; [done|]. cbn [snd concat] in *.
    by rewrite Hs, app_nil_r.
Qed.

Lemma call_id_nonblank input aliases idx toolCall : TrimSpace (call_CallID (tool_call_of input aliases idx toolCall)) <> [].
Proof.
  unfold tool_call_of. cbv zeta. cbn [call_CallID]. destruct (TrimSpace (tc_ID toolCall) == "") eqn:E.
  - intros H. pose proof (nonblank_app (txt "tool_call_") (Itoa (idx + 1)) eq_refl) as Hn. by rewrite H in Hn.
  - rewrite TrimSpace_idemp. intros H. by rewrite H in E.
Qed.

(** A call, its result, and the rest. *)
Lemma tool_round {A} call (f : ToolResult -> agent W A) (P : list TurnDelta -> result text A -> Prop) :
  TrimSpace (call_CallID call) <> [] ->
  (forall d d' result, td_Kind d = TurnDeltaKindToolCall -> td_Kind d' = TurnDeltaKindToolResult -> pair_ok d d' ->
     td_Text d = [] -> td_Text d' = [] -> emits (f result) (fun ds r => P (d :: d' :: ds) r)) ->
  emits (do! _ := emitTurnDelta (call_delta call) in
         do! result := invokeTool call in
         do! _ := emitTurnDelta (result_delta result) in f result) P.
Proof.
  intros Hid Hf. apply emits_then. intros s. unfold invokeTool, agent_bind, attempt.
  pose proof (tool_pair call (services s) Hid) as Hp.
  destruct (invoke_tool call (services s)) as [w result]. cbn [snd] in Hp. cbn [agent_ret].
  set (res := complete_result call _) in *.
  assert (Hr := emits_then (result_delta res) (f res) (fun ds r => P (call_delta call :: ds) r)
    (Hf (call_delta call) (result_delta res) res eq_refl eq_refl Hp eq_refl eq_refl) (mkAgentState w (emitted s))).
  exact Hr.
Qed.

Lemma tool_calls_spec input aliases toolCalls : forall idx,
  emits (W := W) (executeToolCalls input aliases idx toolCalls)
    (fun ds r => dialogue pair_ok ds /\ spoken_text ds = []).
Proof.
  induction toolCalls as [|toolCall toolCalls IH]; intros idx; cbn [executeToolCalls].
  { apply emits_ret. by split; [constructor|]. }
  cbv zeta. apply tool_round; [apply call_id_nonblank|].
  intros d d' result Hk Hk' Hp Ht Ht'. eapply emits_bind; [apply IH| |].
  - intros ds e [H1 H2]. split; [by constructor|]. unfold spoken_text in *. cbn. by rewrite Ht, Ht', H2.
  - intros ds messages [H1 H2]. apply emits_ret. rewrite app_nil_r. split; [by constructor|].
    unfold spoken_text in *. cbn. by rewrite Ht, Ht', H2.
Qed.

Lemma tool_loop_spec steps model input trimmedText setup : forall messages outputText,
  emits (W := W) (tool_loop steps model input trimmedText setup messages outputText) (turn_answer pair_ok outputText).
Proof.
  induction steps as [|steps IH]; intros messages outputText; cbn [tool_loop].
  { apply emits_fail. by split; [constructor|]. }
  eapply emits_bind; [apply model_step|by intros ds e [? _]; split|].
  intros ds [response said] [Hd Hs]. cbn [snd] in Hs. cbv zeta.
  destruct (cm_ToolCalls (normalizedAssistantMessage response)) as [|toolCall toolCalls].
  - destruct (TrimSpace said == "") eqn:E; [apply emits_fail; rewrite app_nil_r; by split|].
    apply emits_ret. rewrite app_nil_r. split; [done|]. unfold turnOutputFromText.
    destruct (end_session_text trimmedText (text_output (TrimSpace said))) as [-> _]. cbn. rewrite <- Hs.
    split; [done|]. intros H. by rewrite H in E.
  - eapply emits_bind; [apply tool_calls_spec| |].
    { intros ds' e [H1 H2]. split; [by apply dialogue_app|done]. }
    intros ds' toolMessages [H1 H2]. eapply emits_weaken; [apply IH|].
    intros ds'' r [H3 H4]. split; [by apply dialogue_app, dialogue_app|].
    destruct r as [o|]; [|done]. rewrite Hs in H4. rewrite !spoken_text_app, H2. cbn [app]. by rewrite app_assoc.
Qed.

End Emission.

(** A tool that answers a call answers with its id, or with none. *)
Class Answering (W : Type) `{!AgentServices W} : Prop :=
  answers_call : forall call w result, (invoke_tool call w).2 = Ok result ->
    TrimSpace (res_CallID result) = [] \/ res_CallID result = call_CallID call.

Definition same_call (call result : TurnDelta) : Prop :=
  td_ToolCallID result = td_ToolCallID call /\ TrimSpace (td_ToolCallID call) <> [].

Section Turns.

Context {W : Type} `{!AgentServices W} `{!Collecting W}.

(** The text of an answer, and what was said, up to white space at the ends. *)
Definition says_answer (ds : list TurnDelta) (r : result text TurnOutput) : Prop :=
  match r with
  | Ok o => TrimSpace (to_Text o) = TrimSpace (spoken_text ds) /\ TrimSpace (to_Text o) <> []
  | Err _ => True
  end.

Lemma speaks_says ds r : speaks ds r -> says_answer ds r.
Proof. intros (o & -> & E & H & _). cbn. by rewrite E in *. Qed.

Lemma answer_says pair_ok ds r : turn_answer pair_ok [] ds r -> says_answer ds r.
Proof. intros [_ H]. destruct r as [o|]; [|done]. cbn in *. destruct H as [-> H]. by rewrite TrimSpace_idemp. Qed.

Lemma prepare_quiet e input context prewarmed :
  emits (W := W) (prepare_turn e input context prewarmed) (fun ds r => ds = [] /\ is_Ok r = true).
Proof.
  unfold prepare_turn, listModelTools, read_services. destruct prewarmed; [by apply emits_ret|].
  intros s. unfold agent_bind, attempt, agent_ret.
  destruct (list_tools _ (services s)) as [w r]. exists []. rewrite app_nil_r.
  by destruct r as [[|? ?]|]; [|destruct (buildModelToolDefinitions _)|].
Qed.

Lemma context_quiet input s prewarmed :
  emits (W := W) (turn_context input s prewarmed) (fun ds r => ds = [] /\ is_Ok r = true).
Proof. unfold turn_context. destruct prewarmed; [by apply emits_ret|apply emits_attempt]. Qed.

Lemma after_quiet {A B} (m : agent W A) (f : A -> agent W B) P :
  emits m (fun ds r => ds = [] /\ is_Ok r = true) -> (forall a, emits (f a) P) -> emits (agent_bind m f) P.
Proof. intros Hm Hf. eapply emits_bind; [exact Hm|by intros ? ? [_ [=]]|]. intros ds a [-> _]. apply Hf. Qed.

Lemma llm_output_says e input s context prewarmed :
  emits (W := W) (streamLLMOutput e input s context prewarmed) says_answer.
Proof.
  unfold streamLLMOutput. destruct (ex_Model e) as [model|].
  2:{ eapply emits_weaken; [apply bootstrap_output_speaks|apply speaks_says]. }
  split_if; [eapply emits_weaken; [apply bootstrap_output_speaks|apply speaks_says]|].
  destruct (deterministicPlaybackFollowUpText s (ti_Metadata input)) as [t|] eqn:E.
  - eapply emits_weaken; [eapply text_speaks, follow_up_nonblank, E|apply speaks_says].
  - apply after_quiet; [apply prepare_quiet|]. intros setup.
    eapply emits_weaken; [apply (tool_loop_spec (fun _ _ => True)); done|apply answer_says].
Qed.

Lemma then_persist input s (m : agent W TurnOutput) P :
  emits m P -> emits (do! output := m in persist_output input s output) P.
Proof.
  intros Hm st. unfold agent_bind. destruct (Hm st) as (ds & E & HP). destruct (m st) as [s1 [o|err]]; cbn [fst snd] in *.
  - destruct (persist_speaks input s o s1) as (ds' & E' & -> & ->). exists ds. by rewrite E', E, app_nil_r.
  - by exists ds.
Qed.

(** C24. Whatever the model streams and however often it asks for tools, an answer
    that is returned is what was said: its text is the deltas' texts laid end to
    end, up to white space at the two ends, and it is not blank; a turn that says
    nothing is an error. *)
Theorem llm_turn_says_its_answer e now input p w :
  let '(w', r) := ExecuteTurn (LLMStreamTurn e now input p).2 w in
  match r with
  | Ok o => TrimSpace (to_Text o) = TrimSpace (spoken_text (to_Deltas o)) /\ TrimSpace (to_Text o) <> []
  | Err _ => True
  end.
Proof.
  assert (H : emits (W := W) (LLMStreamTurn e now input p).2 says_answer).
  { unfold LLMStreamTurn. cbv zeta. destruct (consumeMatch _ _ _ _ _) as [p' prewarmed]. cbn [snd].
    apply after_quiet; [apply context_quiet|]. intros context. apply then_persist, llm_output_says. }
  unfold ExecuteTurn. destruct (H (mkAgentState w [])) as (ds & E & Hs).
  destruct ((LLMStreamTurn e now input p).2 (mkAgentState w [])) as [s' [o|err]]; [|done].
  cbn [fst snd emitted app] in *. subst ds. by read_fields.
Qed.

Lemma complete_result_id call r :
  TrimSpace (call_CallID call) <> [] ->
  (forall result, r = Ok result -> TrimSpace (res_CallID result) = [] \/ res_CallID result = call_CallID call) ->
  same_call (call_delta call) (result_delta (complete_result call
    (match r with
     | Ok result => result
     | Err e => mkToolResult (call_CallID call) (call_ToolName call) "failed" e
     end))).
Proof.
  intros Hid Hr. split; [|done]. cbn. destruct r as [result|e]; cbn; [|by split_if].
  destruct (Hr result eq_refl) as [->| ->]; [done|]. by split_if.
Qed.

(** C25. Every tool the model asks for is answered before anything else is said:
    each call is followed at once by the result that carries its id, which is
    never blank, and no result comes without its call, also when the turn fails. *)
Theorem tool_calls_are_answered `{!Answering W} e model input s context prewarmed w :
  ex_Model e = Some model -> s <> [] -> shouldPersistTurn s = true ->
  dialogue same_call (emitted (streamLLMOutput e input s context prewarmed (mkAgentState w [])).1).
Proof.
  intros Hm Hs Hp. unfold streamLLMOutput, is_command. rewrite Hm, Hp. apply text_eqb_false in Hs.
  assert ((s == "") = false) as -> by exact Hs. cbn [negb orb].
  destruct (deterministicPlaybackFollowUpText s (ti_Metadata input)) as [t|] eqn:E.
  - unfold emitBootstrapTextOutput, agent_bind, emitTurnDelta. rewrite sink_takes. cbn. by repeat constructor.
  - assert (H : emits (W := W) (do! setup := prepare_turn e input context prewarmed in
        tool_loop defaultToolLoopMaxSteps model input s setup
          (initialChatMessages (su_SystemPrompt setup) (su_MemoryContext setup) s (ti_Metadata input)) [])
        (turn_answer same_call [])).
    { apply after_quiet; [apply prepare_quiet|]. intros setup. apply tool_loop_spec.
      intros call w' Hid. apply complete_result_id; [done|]. intros result. apply answers_call. }
    destruct (H (mkAgentState w [])) as (ds & -> & Hd & _). exact Hd.
Qed.

End Turns.

(** ** Laws: the budget of steps *)

Section Budget.

Context {W : Type} `{!AgentServices W}.
(** How often the model was asked: a call counts once, and no other service asks. *)
Variable asked : W -> Z.
Variable model : ChatModel W.
Hypothesis complete_asks : forall q w, asked (Complete model q w).1 <= asked w + 1.
Hypothesis stream_asks : forall stream q w, Stream model = Some stream -> asked (stream q w).1 <= asked w + 1.
Hypothesis tools_ask_nothing : forall call w, asked (invoke_tool call w).1 = asked w.
Hypothesis registry_asks_nothing : forall q w, asked (list_tools q w).1 = asked w.

Definition asks_at_most {A} (n : Z) (m : agent W A) : Prop :=
  forall s, asked (services (m s).1) <= asked (services s) + n.

Lemma asks_weaken {A} n n' (m : agent W A) : asks_at_most n m -> n <= n' -> asks_at_most n' m.
Proof. intros H Hn s. specialize (H s). lia. Qed.

Lemma asks_bind {A B} n k (m : agent W A) (f : A -> agent W B) :
  asks_at_most n m -> (forall a, asks_at_most k (f a)) -> 0 <= k -> asks_at_most (n + k) (agent_bind m f).
Proof.
  intros Hm Hf Hk s. specialize (Hm s). unfold agent_bind. destruct (m s) as [s' [a|e]]; cbn [fst] in *; [|lia].
  specialize (Hf a s'). lia.
Qed.

Lemma asks_ret {A} (a : A) : asks_at_most 0 (agent_ret a).
Proof. intros s. cbn. lia. Qed.

Lemma asks_fail {A} e : asks_at_most 0 (agent_fail (A := A) e).
Proof. intros s. cbn. lia. Qed.

Lemma asks_emit d : asks_at_most 0 (emitTurnDelta d).
Proof. intros s. unfold emitTurnDelta. destruct (sink_error _ _ _); cbn; lia. Qed.

Lemma asks_texts deltas : asks_at_most 0 (emit_texts deltas).
Proof.
  induction deltas as [|d deltas IH]; cbn [emit_texts]; [apply asks_ret|]. split_if; [done|].
  apply (asks_bind 0 0); [apply asks_emit|intros _; exact IH|lia].
Qed.

Lemma asks_lift {A} (r : result text A) : asks_at_most 0 (lift_result r).
Proof. destruct r; [apply asks_ret|apply asks_fail]. Qed.

Lemma asks_step request outputText : asks_at_most 1 (runModelStep model request outputText).
Proof.
  unfold runModelStep. destruct (Stream model) as [stream|] eqn:E.
  - apply (asks_bind 1 0); [|intros [deltas answer]|lia].
    + intros s. pose proof (stream_asks stream request (services s) eq_refl). by destruct (stream request (services s)).
    + apply (asks_bind 0 0); [apply asks_texts|intros _|lia].
      apply (asks_bind 0 0); [apply asks_lift|intros response; apply asks_ret|lia].
  - apply (asks_bind 1 0); [|intros answer|lia].
    + intros s. unfold attempt. pose proof (complete_asks request (services s)). by destruct (Complete model request (services s)).
    + apply (asks_bind 0 0); [apply asks_lift|intros response|lia].
      apply (asks_bind 0 0); [apply asks_texts|intros _; apply asks_ret|lia].
Qed.

Lemma asks_attempt {A} (call : W -> W * result text A) :
  (forall w, asked (call w).1 = asked w) -> asks_at_most 0 (attempt call).
Proof. intros H s. unfold attempt. specialize (H (services s)). destruct (call (services s)). cbn in *. lia. Qed.

(** Computations that only emit deltas and use tools. *)
Ltac asks_nothing :=
  repeat first
    [ apply asks_ret | apply asks_fail | apply asks_emit
    | apply asks_attempt; first [apply tools_ask_nothing | apply registry_asks_nothing]
    | apply (asks_bind 0 0); [|intros ?|lia]
    | split_if
    | match goal with |- asks_at_most _ (match ?x with _ => _ end) => destruct x end ].

Lemma asks_tools input aliases toolCalls : forall idx, asks_at_most 0 (executeToolCalls input aliases idx toolCalls).
Proof.
  induction toolCalls as [|toolCall toolCalls IH]; intros idx; cbn [executeToolCalls]; unfold invokeTool; cbv zeta;
    asks_nothing. apply IH.
Qed.

Lemma asks_bootstrap input s context : asks_at_most 0 (streamBootstrapOutput (W := W) input s context).
Proof.
  unfold streamBootstrapOutput, executeMemoryCommand, executeToolCommand, toolFailureOutput, report_result,
    emitBootstrapTextOutput. cbv zeta. asks_nothing.
Qed.

Lemma asks_loop steps input trimmedText setup : forall messages outputText,
  asks_at_most (Z.of_nat steps) (tool_loop steps model input trimmedText setup messages outputText).
Proof.
  induction steps as [|steps IH]; intros messages outputText; cbn [tool_loop]; [apply asks_fail|].
  apply (asks_weaken (1 + Z.of_nat steps)); [|lia]. apply asks_bind; [apply asks_step|intros [response said]|lia]. cbv zeta.
  destruct (cm_ToolCalls (normalizedAssistantMessage response)).
  - split_if; (eapply asks_weaken; [first [apply asks_fail|apply asks_ret]|lia]).
  - apply (asks_weaken (0 + Z.of_nat steps)); [|lia]. apply asks_bind; [apply asks_tools|intros toolMessages; apply IH|lia].
Qed.

(** C33. A turn asks the model at most six times, whatever the model and the tools
    answer, so its loop of tool calls always ends. *)
Theorem model_calls_bounded e input trimmedText context prewarmed s :
  ex_Model e = Some model ->
  asked (services (streamLLMOutput e input trimmedText context prewarmed s).1) <= asked (services s) + 6.
Proof.
  intros Hm. enough (H : asks_at_most 6 (streamLLMOutput e input trimmedText context prewarmed)) by exact (H s).
  unfold streamLLMOutput. rewrite Hm. split_if; [eapply asks_weaken; [apply asks_bootstrap|lia]|].
  destruct (deterministicPlaybackFollowUpText trimmedText (ti_Metadata input)).
  - unfold emitBootstrapTextOutput. apply (asks_weaken 0); [asks_nothing|lia].
  - apply (asks_bind 0 6); [|intros setup; exact (asks_loop defaultToolLoopMaxSteps _ _ _ _ _)|lia].
    unfold prepare_turn, listModelTools, read_services. asks_nothing. intros s'. cbn. lia.
Qed.

End Budget.

(** ** Laws: prepared turns *)

Lemma consume_spec now input s m p :
  TrimSpace (ti_SessionID input) <> [] ->
  let '(p', found) := consumeMatch now input s m p in
  p' = delete (ti_SessionID input) p /\
  found = (p !! ti_SessionID input) ≫= (fun c => if candidate_matches now input s m c then Some c else None).
Proof.
  intros Hs. unfold consumeMatch. pose proof (proj2 (text_eqb_false _ (txt "")) Hs) as ->.
  destruct (p !! ti_SessionID input) as [c|] eqn:E; cbn; [done|]. split; [|done]. symmetry. by apply delete_id.
Qed.

(** The keys the signature looks at. *)
Definition plain_key (key : text) : bool := negb ((TrimSpace key == "") || HasPrefix (TrimSpace key) "voice.preview.").

(** Metadata of nothing but a preview, as the preview session prepares a turn with. *)
Definition previewed (m : metadata) : Prop := map_Forall (fun key _ => HasPrefix (TrimSpace key) "voice.preview." = true) m.

Lemma previewed_plain m : previewed m -> forall key, plain_key key = true -> TrimSpace (metadata_get m key) = [].
Proof.
  intros Hm key Hk. unfold metadata_get. destruct (m !! key) as [v|] eqn:E; [|done].
  specialize (Hm key v E). unfold plain_key in Hk. rewrite Hm, orb_true_r in Hk. discriminate Hk.
Qed.

Lemma join_nil parts sep : Forall (fun part => part <> []) parts -> Join parts sep = [] <-> parts = [].
Proof.
  intros H. split; [|by intros ->]. destruct H as [|part parts Hn _]; [done|]. cbn [Join].
  destruct parts; [done|]. by intros [? _] % app_nil.
Qed.

(** Nothing to sign: no entry but blank ones and the preview's. *)
Lemma signature_nil m :
  llmPrewarmMetadataSignature m = [] <-> forall key, plain_key key = true -> TrimSpace (metadata_get m key) = [].
Proof.
  unfold llmPrewarmMetadataSignature. rewrite join_nil.
  2: { apply Forall_forall. intros part. rewrite elem_of_sort_strings, list_elem_of_omap. intros ([key v] & _ & E).
       unfold signature_entry in E. cbn [fst snd] in E. revert E. cbv zeta. split_if; [done|]. split_if; [|done].
       intros [= <-] E. by apply app_nil in E as [_ E]. }
  assert (E : forall l : list text, sort_strings l = [] <-> l = []).
  { intros l. split; [|intros ->; by vm_compute]. intros H. pose proof (sort_strings_permutation l) as Hl. rewrite H in Hl. by apply Permutation_nil_l in Hl. }
  rewrite E. split.
  - intros H key Hk. unfold metadata_get. destruct (m !! key) as [v|] eqn:Em; [|done]. cbn [default].
    destruct (decide (TrimSpace v = [])) as [|Hv]; [done|]. exfalso.
    assert (Hin : signature_entry (key, v) = Some (TrimSpace key ++ txt "=" ++ TrimSpace v)).
    { unfold signature_entry. cbn [fst snd]. cbv zeta. unfold plain_key in Hk. apply negb_true_iff in Hk. rewrite Hk.
      by pose proof (proj2 (text_eqb_false _ (txt "")) Hv) as ->. }
    assert (Hx : TrimSpace key ++ txt "=" ++ TrimSpace v ∈ omap signature_entry (map_to_list m)).
    { apply list_elem_of_omap. exists (key, v). split; [by apply elem_of_map_to_list|exact Hin]. }
    rewrite H in Hx. by apply elem_of_nil in Hx.
  - intros H. destruct (omap signature_entry (map_to_list m)) as [|part parts] eqn:Ho; [done|]. exfalso.
    assert (Hx : part ∈ omap signature_entry (map_to_list m)) by (rewrite Ho; by left).
    apply list_elem_of_omap in Hx as ([key v] & Hin & Es). apply elem_of_map_to_list in Hin.
    unfold signature_entry in Es. cbn [fst snd] in Es. specialize (H key). assert (Hg : metadata_get m key = v) by (unfold metadata_get; exact (f_equal (default []) Hin)).
    unfold plain_key in H. rewrite Hg in H.
    revert Es. cbv zeta. destruct (_ || _) eqn:Ek; [done|]. rewrite (H eq_refl). done.
Qed.

Section Prepared.

Context {W : Type} `{!AgentServices W}.

(** A prepared candidate is used once and only for the turn it was prepared
    for: the one taken is the session's own, at most fifteen seconds old, for the
    same device, client, words and metadata; the turn after it starts cold, and
    the other sessions keep theirs. *)
Theorem prepared_turn_is_used_once e now now' input p c p' :
  TrimSpace (ti_SessionID input) <> [] ->
  consumeMatch now input (TrimSpace (ti_UserText input)) (ti_Metadata input) p = (p', Some c) ->
  p !! ti_SessionID input = Some c /\ time_Sub now (wc_PreparedAt c) <= 15 * Second /\
  TrimSpace (wc_DeviceID c) = TrimSpace (ti_DeviceID input) /\
  TrimSpace (wc_ClientType c) = TrimSpace (ti_ClientType input) /\
  TrimSpace (wc_UserText c) = TrimSpace (ti_UserText input) /\
  wc_MetadataSig c = llmPrewarmMetadataSignature (ti_Metadata input) /\
  (forall session, session <> ti_SessionID input -> p' !! session = p !! session) /\
  LLMStreamTurn e now' input p' = (p', run_turn (W := W) e input (TrimSpace (ti_UserText input)) None).
Proof.
  intros Hs. pose proof (consume_spec now input (TrimSpace (ti_UserText input)) (ti_Metadata input) p Hs) as Hc.
  destruct (consumeMatch now input _ _ p) as [p1 found]. destruct Hc as [-> ->]. intros [= <- Hf].
  destruct (p !! ti_SessionID input) as [c'|] eqn:E; cbn in Hf; [|done].
  destruct (candidate_matches _ _ _ _ c') eqn:Em; [|done]. injection Hf as ->.
  unfold candidate_matches in Em. rewrite !andb_true_iff, negb_true_iff, Z.ltb_ge in Em.
  destruct Em as ((((Ht & H1%text_eqb_true) & H2%text_eqb_true) & H3%text_eqb_true) & H4%text_eqb_true).
  rewrite TrimSpace_idemp in H3. split_and!; try done.
  - intros session Hne. unfold llmPrewarmState. by apply lookup_delete_ne.
  - unfold LLMStreamTurn. cbv zeta.
    pose proof (consume_spec now' input (TrimSpace (ti_UserText input)) (ti_Metadata input)
      (delete (ti_SessionID input) p) Hs) as Hc.
    destruct (consumeMatch now' _ _ _ _) as [p2 found]. destruct Hc as [-> ->].
    unfold llmPrewarmState in *. rewrite lookup_delete_eq. cbn. f_equal. apply delete_id, lookup_delete_eq.
Qed.

(** Reading the memory and the registry changes nothing. *)
Class ReadOnly : Prop := {
  load_reads : forall q (w : W), (load_context q w).1 = w;
  list_reads : forall q (w : W), (list_tools q w).1 = w
}.

Lemma attempt_reads {A} (call : W -> W * result text A) s :
  (call (services s)).1 = services s -> attempt call s = (s, Ok (call (services s)).2).
Proof. unfold attempt. destruct (call (services s)) as [w r]. cbn. intros ->. by destruct s. Qed.

Lemma list_model_tools `{!ReadOnly} input s :
  listModelTools (W := W) input s =
  (s, Ok (match (list_tools (mkCatalogRequest (ti_SessionID input) (ti_DeviceID input) (ti_ClientType input)) (services s)).2 with
          | Ok (tool :: tools) => buildModelToolDefinitions (tool :: tools)
          | _ => ([], ∅)
          end)).
Proof. unfold listModelTools, agent_bind. by rewrite attempt_reads by apply list_reads. Qed.

Lemma bind_run {A B} (m : agent W A) (f : A -> agent W B) s s' a : m s = (s', Ok a) -> agent_bind m f s = f a s'.
Proof. unfold agent_bind. by intros ->. Qed.

(** One turn and another are the same to the services: of one session, and equal
    but for white space in their device, client, words and metadata, the preview's
    own metadata left out. *)
Record same_turn (p q : TurnInput) : Prop := {
  st_session : ti_SessionID p = ti_SessionID q;
  st_device : TrimSpace (ti_DeviceID p) = TrimSpace (ti_DeviceID q);
  st_client : TrimSpace (ti_ClientType p) = TrimSpace (ti_ClientType q);
  st_words : TrimSpace (ti_UserText p) = TrimSpace (ti_UserText q);
  st_metadata : forall key, plain_key key = true ->
    TrimSpace (metadata_get (ti_Metadata p) key) = TrimSpace (metadata_get (ti_Metadata q) key)
}.

(** What the services of two moments answer to two turns that are the same to
    them: the same memory, tools and prompt. Nothing they read has changed in
    between, the clock of the prompt included. *)
Definition answers_stand (e : LLMTurnExecutor W) (w1 w2 : W) : Prop :=
  forall p q, same_turn p q ->
    (load_context (buildMemoryQuery p (TrimSpace (ti_UserText p)) (ti_Metadata p)) w1).2
      = (load_context (buildMemoryQuery q (TrimSpace (ti_UserText q)) (ti_Metadata q)) w2).2 /\
    (list_tools (mkCatalogRequest (ti_SessionID p) (ti_DeviceID p) (ti_ClientType p)) w1).2
      = (list_tools (mkCatalogRequest (ti_SessionID q) (ti_DeviceID q) (ti_ClientType q)) w2).2 /\
    systemPrompt e p w1 = systemPrompt e q w2.

(** The candidate of a preview. *)
Definition candidate_of (e : LLMTurnExecutor W) (now : instant) (p : TurnInput) (context : MemoryContext)
    (tools : list ToolDefinition * toolAliasSet) (w : W) : llmPrewarmCandidate :=
  mkCandidate (ti_SessionID p) (ti_DeviceID p) (ti_ClientType p) (TrimSpace (ti_UserText p))
    (llmPrewarmMetadataSignature (ti_Metadata p)) now (systemPrompt e p w) context tools.1 tools.2.

Lemma prewarm_stores `{!ReadOnly} e model now p context warm s :
  ex_Model e = Some model -> TrimSpace (ti_UserText p) <> [] -> TrimSpace (ti_SessionID p) <> [] ->
  (load_context (buildMemoryQuery p (TrimSpace (ti_UserText p)) (ti_Metadata p)) (services s)).2 = Ok context ->
  exists tools, listModelTools (W := W) p s = (s, Ok tools) /\
    PrewarmTurn e now p warm s = (s, Ok (<[ti_SessionID p := candidate_of e now p context tools (services s)]> warm)).
Proof.
  intros Hm Ht Hs Hload. unfold PrewarmTurn. cbv zeta. rewrite Hm. pose proof (proj2 (text_eqb_false _ (txt "")) Ht) as ->.
  pose proof (attempt_reads (load_context (buildMemoryQuery p (TrimSpace (ti_UserText p)) (ti_Metadata p))) s
    ltac:(apply load_reads)) as Hl. rewrite Hload in Hl.
  pose proof (list_model_tools p s) as Htools. set (tools := match _ with Ok (_ :: _) => _ | _ => _ end) in Htools. clearbody tools.
  exists tools. split; [exact Htools|]. unfold agent_bind at 1 2 3. rewrite Hl. unfold read_services at 1. rewrite Htools.
  destruct tools as [tools aliases]. unfold agent_ret, prewarm_store. cbn [wc_SessionID].
  by pose proof (proj2 (text_eqb_false _ (txt "")) Hs) as ->.
Qed.

(** When the candidate of a preview is the one a turn takes. *)
Lemma preview_candidate_matches e now now' p q context tools w :
  previewed (ti_Metadata p) -> ti_SessionID p = ti_SessionID q ->
  candidate_matches now' q (TrimSpace (ti_UserText q)) (ti_Metadata q) (candidate_of e now p context tools w) = true <->
  same_turn p q /\ time_Sub now' now <= 15 * Second.
Proof.
  intros Hp Hs. unfold candidate_matches. cbn [candidate_of wc_PreparedAt wc_DeviceID wc_ClientType wc_UserText wc_MetadataSig].
  rewrite (proj2 (signature_nil (ti_Metadata p)) (previewed_plain _ Hp)), !TrimSpace_idemp, !andb_true_iff, negb_true_iff, Z.ltb_ge, !text_eqb_true.
  assert (Hc : forall l : text, [] = l <-> l = []) by (intros l; split; by intros ->). rewrite Hc, signature_nil.
  unfold llmPrewarmTTL. split.
  - intros ((((H1 & H2) & H3) & H4) & H5). split; [|done]. split; [done..|]. intros key Hk.
    by rewrite (H5 key Hk), (previewed_plain _ Hp key Hk).
  - intros [[_ H2 H3 H4 H5] H1]. split_and!; [done..|]. intros key Hk. rewrite <- H5 by done. by apply previewed_plain.
Qed.

(** The setup taken is the setup asked for again. *)
Lemma prepared_setup_agrees `{!ReadOnly} e model now p q context tools s1 s2 :
  ex_Model e = Some model -> same_turn p q -> answers_stand e (services s1) (services s2) ->
  (load_context (buildMemoryQuery p (TrimSpace (ti_UserText p)) (ti_Metadata p)) (services s1)).2 = Ok context ->
  listModelTools (W := W) p s1 = (s1, Ok tools) ->
  run_turn e q (TrimSpace (ti_UserText q)) (Some (candidate_of e now p context tools (services s1))) s2
  = run_turn e q (TrimSpace (ti_UserText q)) None s2.
Proof.
  intros Hm Hpq Hstand Hload Htools. destruct (Hstand p q Hpq) as (A1 & A2 & A3). rewrite Hload in A1.
  pose proof (attempt_reads (load_context (buildMemoryQuery q (TrimSpace (ti_UserText q)) (ti_Metadata q))) s2
    ltac:(apply load_reads)) as Hl. rewrite <- A1 in Hl.
  assert (Htools' : listModelTools (W := W) q s2 = (s2, Ok tools)).
  { rewrite list_model_tools in Htools |- *. rewrite <- A2. by injection Htools as ->. }
  set (c := candidate_of _ _ _ _ _ _).
  assert (Hout : streamLLMOutput e q (TrimSpace (ti_UserText q)) (Ok context) (Some c) s2
               = streamLLMOutput e q (TrimSpace (ti_UserText q)) (Ok context) None s2).
  { unfold streamLLMOutput. rewrite Hm. split_if; [done|]. destruct (deterministicPlaybackFollowUpText _ _); [done|].
    rewrite (bind_run (prepare_turn e q (Ok context) (Some c)) _ s2 s2 _ eq_refl).
    rewrite (bind_run (prepare_turn e q (Ok context) None) _ s2 s2 (mkSetup (systemPrompt e q (services s2)) context tools.1 tools.2)).
    - subst c. cbn [candidate_of wc_SystemPrompt wc_MemoryContext wc_Tools wc_Aliases]. by rewrite A3.
    - unfold prepare_turn. rewrite (bind_run (read_services _) _ s2 s2 _ eq_refl). rewrite (bind_run _ _ s2 s2 _ Htools'). by destruct tools. }
  unfold run_turn. rewrite (bind_run (turn_context _ _ (Some c)) _ s2 s2 _ eq_refl). cbn [wc_MemoryContext c candidate_of].
  rewrite (bind_run (turn_context _ _ None) _ s2 s2 _ Hl). unfold agent_bind. by rewrite Hout.
Qed.

(** C27. Preparing a turn while the user still speaks is safe. A preview is
    prepared, and later a turn comes: its words, device, client and metadata may be
    others, and it has an id, a trace and images of its own. It takes the candidate
    exactly when it is the turn that was previewed: of the same session, with the
    same device, client and words, no metadata but the preview's own, within
    fifteen seconds. And whether it takes it or not it is answered exactly as a turn
    that starts cold, the same deltas, outcome and state of the services, as long
    as what the services read has not changed in between. *)
Theorem prepared_turn_is_transparent `{!ReadOnly} e model now now' p q context warm s1 s2 :
  ex_Model e = Some model -> TrimSpace (ti_UserText p) <> [] -> TrimSpace (ti_SessionID p) <> [] ->
  previewed (ti_Metadata p) -> warm !! ti_SessionID q = None ->
  (load_context (buildMemoryQuery p (TrimSpace (ti_UserText p)) (ti_Metadata p)) (services s1)).2 = Ok context ->
  answers_stand e (services s1) (services s2) ->
  exists warm', PrewarmTurn e now p warm s1 = (s1, Ok warm') /\
    (is_Some (consumeMatch now' q (TrimSpace (ti_UserText q)) (ti_Metadata q) warm').2
       <-> same_turn p q /\ time_Sub now' now <= 15 * Second) /\
    (LLMStreamTurn e now' q warm').2 s2 = (LLMStreamTurn e now' q warm).2 s2.
Proof.
  intros Hm Ht Hs Hp Hw Hload Hstand. destruct (prewarm_stores e model now p context warm s1 Hm Ht Hs Hload) as (tools & Htools & E).
  eexists. split; [exact E|]. clear E. set (c := candidate_of _ _ _ _ _ _).
  assert (Hcold : (consumeMatch now' q (TrimSpace (ti_UserText q)) (ti_Metadata q) warm).2 = None).
  { unfold consumeMatch. split_if; [done|]. by rewrite Hw. }
  destruct (decide (ti_SessionID p = ti_SessionID q)) as [Es|Es].
  - assert (Hc : (consumeMatch now' q (TrimSpace (ti_UserText q)) (ti_Metadata q) (<[ti_SessionID p := c]> warm)).2
                 = if candidate_matches now' q (TrimSpace (ti_UserText q)) (ti_Metadata q) c then Some c else None).
    { unfold consumeMatch, llmPrewarmState in *. rewrite Es in Hs |- *. pose proof (proj2 (text_eqb_false _ (txt "")) Hs) as ->.
      by rewrite lookup_insert_eq. }
    pose proof (preview_candidate_matches e now now' p q context tools (services s1) Hp Es) as Hmatch. fold c in Hmatch.
    split.
    + rewrite Hc, <- Hmatch. destruct (candidate_matches _ _ _ _ c); split; [done|by eexists|by intros []|done].
    + unfold LLMStreamTurn. cbv zeta. rewrite (surjective_pairing (consumeMatch _ _ _ _ (<[ti_SessionID p := c]> warm))),
        (surjective_pairing (consumeMatch _ _ _ _ warm)). cbn [snd]. rewrite Hc, Hcold.
      destruct (candidate_matches _ _ _ _ c); [|done].
      exact (prepared_setup_agrees e model now p q context tools s1 s2 Hm (proj1 (proj1 Hmatch eq_refl)) Hstand Hload Htools).
  - assert (Hc : (consumeMatch now' q (TrimSpace (ti_UserText q)) (ti_Metadata q) (<[ti_SessionID p := c]> warm)).2 = None).
    { unfold consumeMatch, llmPrewarmState in *. split_if; [done|]. by rewrite lookup_insert_ne, Hw. }
    split.
    + rewrite Hc. split; [by intros []|]. intros [[E _ _ _ _] _]. by elim Es.
    + unfold LLMStreamTurn. cbv zeta. rewrite (surjective_pairing (consumeMatch _ _ _ _ (<[ti_SessionID p := c]> warm))),
        (surjective_pairing (consumeMatch _ _ _ _ warm)). cbn [snd]. by rewrite Hc, Hcold.
Qed.

End Prepared.

(** ** Laws: tool names *)

Definition model_rune_ok (r : rune) : bool :=
  ((97 <=? r) && (r <=? 122)) || ((48 <=? r) && (r <=? 57)) || (r =? 95) || (r =? 45).

Lemma model_name_rune_ok r : model_rune_ok (model_name_rune r) = true.
Proof. unfold model_name_rune, model_rune_ok. split_if; [done|]. reflexivity. Qed.

Lemma TrimFunc_forall f (P : rune -> Prop) s : Forall P s -> Forall P (TrimFunc f s).
Proof.
  intros H. destruct (TrimFunc_decompose f s) as (l & r & E). rewrite E in H.
  apply Forall_app in H as [_ H]. by apply Forall_app in H as [H _].
Qed.

(** The name a tool goes by at the model is made of at most 64 lower-case
    letters, digits, underscores and dashes, and is empty only for a blank name. *)
Theorem model_tool_name_shape name :
  Forall (fun r => model_rune_ok r = true) (makeModelToolName name) /\ len (makeModelToolName name) <= 64 /\
  (makeModelToolName name = [] <-> TrimSpace (ToLower name) = []).
Proof.
  unfold makeModelToolName. cbv zeta. destruct (TrimSpace (ToLower name) == "") eqn:E.
  { apply text_eqb_true in E. split_and!; [constructor|done|done]. }
  apply text_eqb_false in E. set (s := Trim _ _).
  assert (Hs : Forall (fun r => model_rune_ok r = true) s).
  { apply TrimFunc_forall, Forall_map, Forall_forall. intros r _. apply model_name_rune_ok. }
  set (t := if s == "" then txt "tool" else s).
  assert (Ht : Forall (fun r => model_rune_ok r = true) t /\ t <> []).
  { unfold t. destruct (s == "") eqn:Es; [|by apply text_eqb_false in Es].
    split; [by repeat constructor|by vm_compute]. }
  destruct Ht as [Ht Hne]. destruct (64 <? len t) eqn:El.
  - apply Z.ltb_lt in El. split_and!; [by apply Forall_take| |].
    + unfold len. rewrite length_take. lia.
    + split; [|done]. by destruct t.
  - apply Z.ltb_ge in El. split_and!; [done|lia|by split].
Qed.

Lemma model_rune_not_space r : model_rune_ok r = true -> IsSpace r = false.
Proof. unfold model_rune_ok, IsSpace. intros H. bool_prop; lia. Qed.

Lemma no_space_trimmed s : Forall (fun r => IsSpace r = false) s -> TrimSpace s = s.
Proof.
  intros H. assert (Hlr : forall t, Forall (fun r => IsSpace r = false) t -> TrimLeftFunc IsSpace t = t).
  { intros [|x t] Ht; [done|]. apply Forall_cons_1 in Ht as [Hx _]. by apply TrimLeftFunc_id. }
  unfold TrimSpace, TrimFunc, TrimRightFunc. rewrite (Hlr s) by done.
  rewrite Hlr by (apply Forall_reverse; done). by rewrite reverse_involutive.
Qed.

Section Names.

(** The tools the loop keeps, with the name each gets when no two agree. *)
Definition kept (tool : ToolDefinition) : option text :=
  let name := TrimSpace (tool_Name tool) in
  if (name == "") || (makeModelToolName name == "") then None else Some name.

Record build_inv (tools : list ToolDefinition) (b : alias_build) : Prop := {
  bi_names : map tool_Name (ab_modelTools b) = map makeModelToolName (omap kept tools);
  bi_alias : forall name, name ∈ omap kept tools -> ab_aliases b !! makeModelToolName name = Some name;
  bi_used : forall n, used_count (ab_used b) n = (if bool_decide (n ∈ map makeModelToolName (omap kept tools)) then 1 else 0)
}.

Lemma kept_name tool name : kept tool = Some name ->
  TrimSpace (tool_Name tool) = name /\ (name == "") = false /\ (makeModelToolName name == "") = false /\ trimmed name.
Proof.
  unfold kept. cbv zeta. split_if; [done|]. apply orb_false_iff in Heqb as [E1 E2]. intros [= <-].
  split_and!; try done. apply TrimSpace_idemp.
Qed.

Lemma add_skipped b tool : kept tool = None -> add_model_tool b tool = b.
Proof.
  unfold kept, add_model_tool. cbv zeta. destruct (TrimSpace (tool_Name tool) == ""); [done|].
  by destruct (makeModelToolName _ == "").
Qed.

Lemma add_tool_inv tools tool b :
  NoDup (map makeModelToolName (omap kept (tools ++ [tool]))) -> build_inv tools b ->
  build_inv (tools ++ [tool]) (add_model_tool b tool).
Proof.
  intros Hnd [H1 H2 H3]. destruct (kept tool) as [name|] eqn:Ek.
  2:{ rewrite (add_skipped b tool Ek). split; rewrite omap_app; cbn [omap list_omap]; rewrite Ek, app_nil_r; done. }
  rewrite omap_app in Hnd. cbn [omap list_omap] in Hnd. rewrite Ek, map_app in Hnd.
  apply NoDup_app in Hnd as (_ & Hnew & _).
  assert (Hn : makeModelToolName name ∉ map makeModelToolName (omap kept tools)).
  { intros Hin. apply (Hnew _ Hin). by left. }
  destruct (kept_name _ _ Ek) as (En & E1 & E2 & _).
  assert (Hadd : add_model_tool b tool = mkAliasBuild
    (ab_modelTools b ++ [mkTool (makeModelToolName name) (tool_Description tool) (tool_Parameters tool) (tool_Strict tool)])
    (<[makeModelToolName name := name]> (ab_aliases b)) (<[makeModelToolName name := 1]> (ab_used b))).
  { unfold add_model_tool. cbv zeta. rewrite En, E1, E2, H3, bool_decide_eq_false_2 by done.
    change (0 <? 0) with false. cbv iota. by rewrite H3, bool_decide_eq_false_2. }
  rewrite Hadd. split; cbn [ab_modelTools ab_aliases ab_used]; rewrite omap_app; cbn [omap list_omap]; rewrite Ek, ?map_app.
  - rewrite H1. done.
  - intros other [Ho|Ho%list_elem_of_singleton]%elem_of_app.
    + unfold toolAliasSet in *. rewrite lookup_insert_ne; [by apply H2|]. intros E. apply Hn. rewrite E.
      by apply list_elem_of_fmap_2.
    + subst other. unfold toolAliasSet. by rewrite lookup_insert_eq.
  - intros n. unfold used_count in *. destruct (decide (n = makeModelToolName name)) as [->|Hne].
    + rewrite lookup_insert_eq, bool_decide_eq_true_2; [done|]. apply elem_of_app. right. by left.
    + rewrite lookup_insert_ne by done. rewrite H3.
      assert (Hiff : n ∈ map makeModelToolName (omap kept tools) <->
        n ∈ map makeModelToolName (omap kept tools) ++ [makeModelToolName name]).
      { rewrite elem_of_app, list_elem_of_singleton. tauto. }
      by rewrite (bool_decide_ext _ _ Hiff).
Qed.

Lemma build_spec tools :
  NoDup (map makeModelToolName (omap kept tools)) -> build_inv tools (fold_left add_model_tool tools (mkAliasBuild [] ∅ ∅)).
Proof.
  induction tools as [|tool tools IH] using rev_ind; intros Hnd.
  - split; [done| |]; cbn; [by intros name Hin%elem_of_nil|]. intros n. unfold used_count.
    rewrite lookup_empty, bool_decide_eq_false_2; [done|apply not_elem_of_nil].
  - rewrite fold_left_app. cbn [fold_left]. apply add_tool_inv; [done|]. apply IH.
    rewrite omap_app, map_app in Hnd. by apply NoDup_app in Hnd as (? & _).
Qed.

Lemma model_name_trimmed name : TrimSpace (makeModelToolName name) = makeModelToolName name.
Proof.
  apply no_space_trimmed. unfold makeModelToolName. cbv zeta. split_if; [constructor|].
  assert (H : forall s, Forall (fun r => model_rune_ok r = true) s -> Forall (fun r => IsSpace r = false) s)
    by (intros s Hs; eapply Forall_impl; [exact Hs|]; intros r; apply model_rune_not_space).
  apply H. assert (Ht : Forall (fun r => model_rune_ok r = true)
    (if Trim (map model_name_rune (TrimSpace (ToLower name))) "_-" == "" then txt "tool"
     else Trim (map model_name_rune (TrimSpace (ToLower name))) "_-")).
  { split_if; [by repeat constructor|]. apply TrimFunc_forall, Forall_map, Forall_forall. intros r _. apply model_name_rune_ok. }
  split_if; [by apply Forall_take|done].
Qed.

(** When no two tools get the same name at the model, the model is offered
    every tool under its own name, in order, and a call by that name reaches
    exactly that tool. *)
Theorem model_names_reach_their_tools (tools : list ToolDefinition) :
  NoDup (map makeModelToolName (omap kept tools)) ->
  let '(offered, aliases) := buildModelToolDefinitions tools in
  map tool_Name offered = map makeModelToolName (omap kept tools) /\
  forall tool name, tool ∈ tools -> kept tool = Some name ->
    makeModelToolName name ∈ map tool_Name offered /\ actualName aliases (makeModelToolName name) = name.
Proof.
  intros Hnd. unfold buildModelToolDefinitions. cbv zeta. destruct (build_spec tools Hnd) as [H1 H2 _].
  split; [exact H1|]. intros tool name Hin Hk.
  assert (Hname : name ∈ omap kept tools) by (apply list_elem_of_omap; eauto).
  split; [rewrite H1; by apply list_elem_of_fmap_2|].
  specialize (H2 name Hname). destruct (kept_name _ _ Hk) as (_ & E1 & _ & Ht).
  unfold actualName, toolAliasSet in *. set (aliases := ab_aliases _) in *. clearbody aliases.
  destruct (size aliases =? 0)%nat eqn:Es.
  { apply Nat.eqb_eq, map_size_empty_inv in Es. by rewrite Es, lookup_empty in H2. }
  cbv zeta. rewrite model_name_trimmed. rewrite (f_equal (default []) H2 : alias_get aliases (makeModelToolName name) = name).
  unfold trimmed in Ht. unfold toolAliasSet in *. rewrite Es, Ht, E1. done.
Qed.

End Names.

(** Three tools whose names agree at the model: the third is offered under the
    second's name, and a call by that name always reaches the third; a name of
    64 runes grows past the cap with its number. *)
Definition named_tool (name : text) : ToolDefinition := mkTool name [] [] false.

Theorem third_alias_shadows_second :
  (let '(offered, aliases) := buildModelToolDefinitions (map named_tool (texts ["home.light"; "home light"; "home_light"])) in
   map tool_Name offered = texts ["home_light"; "home_light_2"; "home_light_2"] /\
   actualName aliases "home_light_2" = txt "home_light") /\
  map (fun tool => len (tool_Name tool))
    (buildModelToolDefinitions (map named_tool [repeat 97 64; repeat 97 65])).1 = [64; 66].
Proof. by vm_compute. Qed.

(** Different metadata can have one signature. *)
Theorem signatures_collide :
  let one : metadata := {[ txt "a" := txt "b&c=d" ]} in
  let two : metadata := {[ txt "a" := txt "b"; txt "c" := txt "d" ]} in
  one <> two /\ llmPrewarmMetadataSignature one = llmPrewarmMetadataSignature two.
Proof.
  cbv zeta. split; [|by vm_compute]. intros H. apply (f_equal (fun m : metadata => m !! txt "c")) in H. by vm_compute in H.
Qed.

(** ** A turn with one tool *)

#[local] Instance demo_services : AgentServices Z := {
  load_context _ w := (w, Ok zero_MemoryContext);
  save_turn _ w := w;
  list_tools _ w := (w, Ok [named_tool "time.now"]);
  invoke_tool call w := (w, Ok (mkToolResult [] [] [] (txt "noon")));
  sink_error _ _ _ := None
}.
#[local] Instance demo_collects : Collecting Z.
Proof. done. Qed.
#[local] Instance demo_answers : Answering Z.
Proof. intros call w result [= <-]. by left. Qed.
#[local] Instance demo_read_only : ReadOnly (W := Z).
Proof. by split. Qed.

Definition demo_stream (q : ChatModelRequest) (asked : Z) : Z * (list text * result text ChatModelResponse) :=
  (asked + 1,
   if asked =? 0 then
     (texts ["Let me "; "see. "],
      Ok (mkChatResponse [] [] (mkChatMessage [] [] [] [mkChatToolCall [] (txt "time_now") []])))
   else (texts ["It is "; "noon."], Ok (mkChatResponse [] [] (mkChatMessage [] [] [] [])))).

Definition demo_model : ChatModel Z := mkChatModel Z (fun _ w => (w, Err [])) (Some demo_stream).

Definition demo_executor : LLMTurnExecutor Z :=
  mkLLM Z (Some demo_model) [] [] [] [] (fun _ _ => Ok [mkSection "persona" "You are helpful."]) (fun _ _ => []) None.

Definition demo_ask : TurnInput := demo_turn_input "What time is it?".

Lemma llm_turn_says_its_answer_witness :
  exists o, (ExecuteTurn (LLMStreamTurn demo_executor 0 demo_ask ∅).2 0).2 = Ok o /\
    TrimSpace (spoken_text (to_Deltas o)) = txt "Let me see. It is noon.".
Proof.
  pose proof (llm_turn_says_its_answer demo_executor 0 demo_ask ∅ 0) as H.
  destruct (ExecuteTurn (LLMStreamTurn demo_executor 0 demo_ask ∅).2 0) as [w' r] eqn:E.
  assert (Hr : r = (ExecuteTurn (LLMStreamTurn demo_executor 0 demo_ask ∅).2 0).2) by (by rewrite E).
  destruct r as [o|e]; [|vm_compute in Hr; discriminate Hr]. exists o. split; [done|].
  destruct H as [<- _]. vm_compute in Hr. injection Hr as ->. by vm_compute.
Defined.

Lemma tool_calls_are_answered_witness :
  let ds := emitted (streamLLMOutput demo_executor demo_ask (txt "What time is it?") (Ok zero_MemoryContext) None
                       (mkAgentState 0 [])).1 in
  dialogue same_call ds /\
  map td_ToolCallID ds = texts [""; ""; "tool_call_1"; "tool_call_1"; ""; ""].
Proof.
  split; [|by vm_compute].
  apply (tool_calls_are_answered demo_executor demo_model demo_ask (txt "What time is it?") (Ok zero_MemoryContext) None 0
    eq_refl ltac:(by vm_compute) ltac:(by vm_compute)).
Defined.

Lemma model_calls_bounded_witness :
  services (streamLLMOutput demo_executor demo_ask (txt "What time is it?") (Ok zero_MemoryContext) None
              (mkAgentState 0 [])).1 <= 0 + 6.
Proof.
  apply (model_calls_bounded (fun w : Z => w) demo_model ltac:(intros; cbn; lia)
    ltac:(intros stream q w [= <-]; cbn; lia) ltac:(done) ltac:(done) demo_executor demo_ask (txt "What time is it?")
    (Ok zero_MemoryContext) None (mkAgentState 0 []) eq_refl).
Defined.

Definition demo_prepared : llmPrewarmState := Eval vm_compute in
  match (PrewarmTurn demo_executor 0 demo_ask ∅ (mkAgentState 0 [])).2 with Ok p => p | Err _ => ∅ end.

Definition demo_candidate : llmPrewarmCandidate :=
  default (mkCandidate [] [] [] [] [] 0 [] zero_MemoryContext [] ∅) (demo_prepared !! txt "s1").

Lemma prepared_turn_is_used_once_witness :
  wc_UserText demo_candidate = txt "What time is it?" /\ map tool_Name (wc_Tools demo_candidate) = texts ["time_now"].
Proof.
  destruct (prepared_turn_is_used_once demo_executor Second (2 * Second) demo_ask demo_prepared demo_candidate
    (delete (txt "s1") demo_prepared) ltac:(by vm_compute) ltac:(by vm_compute)) as (_ & _ & _ & _ & H & _).
  split; [|by vm_compute]. vm_compute in H |- *. exact H.
Defined.

(** The preview the turn was prepared with: no id, and the preview's metadata. *)
Definition demo_previewed : TurnInput :=
  mkTurnInput (ti_SessionID demo_ask) "" "" (ti_DeviceID demo_ask) (ti_ClientType demo_ask) " What time is it?" (ti_Audio demo_ask) []
    {[txt "voice.preview.prewarm" := txt "true"; txt "voice.preview.partial_text" := txt "What time is it?"]}.

Lemma prepared_turn_is_transparent_witness :
  exists warm', PrewarmTurn demo_executor 0 demo_previewed ∅ (mkAgentState 7 []) = (mkAgentState 7 [], Ok warm') /\
    is_Some (consumeMatch Second demo_ask (TrimSpace (ti_UserText demo_ask)) (ti_Metadata demo_ask) warm').2 /\
    (LLMStreamTurn demo_executor Second demo_ask warm').2 (mkAgentState 0 [])
    = (LLMStreamTurn demo_executor Second demo_ask ∅).2 (mkAgentState 0 []).
Proof.
  assert (Hstand : answers_stand demo_executor 7 0) by (intros p q _; split_and!; reflexivity).
  assert (Hp : previewed (ti_Metadata demo_previewed)).
  { unfold previewed, demo_previewed. cbn [ti_Metadata]. apply map_Forall_insert_2; [by vm_compute|]. apply map_Forall_singleton. by vm_compute. }
  assert (Hsame : same_turn demo_previewed demo_ask).
  { split; [by vm_compute..|]. intros key Hk. rewrite (previewed_plain _ Hp key Hk). by vm_compute. }
  destruct (prepared_turn_is_transparent demo_executor demo_model 0 Second demo_previewed demo_ask zero_MemoryContext ∅
              (mkAgentState 7 []) (mkAgentState 0 [])) as (warm' & H1 & H2 & H3);
    [by vm_compute..|exact Hp|by vm_compute|by vm_compute|exact Hstand|].
  exists warm'. split; [exact H1|]. split; [|exact H3]. apply H2. split; [exact Hsame|by vm_compute].
Defined.

Lemma model_names_reach_their_tools_witness :
  let '(offered, aliases) := buildModelToolDefinitions (map named_tool (texts ["time.now"; ""; "memory.recall"])) in
  map tool_Name offered = texts ["time_now"; "memory_recall"] /\ actualName aliases "memory_recall" = txt "memory.recall".
Proof.
  pose proof (model_names_reach_their_tools (map named_tool (texts ["time.now"; ""; "memory.recall"]))
    ltac:(refine (bool_decide_unpack _ _); by vm_compute)) as H.
  destruct (buildModelToolDefinitions _) as [offered aliases]. destruct H as [H1 H2]. split.
  - rewrite H1. by vm_compute.
  - destruct (H2 (named_tool "memory.recall") (txt "memory.recall")) as [_ H]; [right; right; left|by vm_compute|].
    by vm_compute in H.
Defined.
