(* ===== verification/Semantic.v ===== *)
(** * The semantic layer over a preview

    What the model's judgement (internal/voice/semantic_judge.go) and its slot
    parse (semantic_slot_parser.go) may change of a preview, when they are
    asked for, how their answers are matched to the preview they were asked
    about, and which sessions get them at all (semantic_judge_rollout.go).
    The model itself and its JSON are outside: a judgement and a parse result
    are values. *)

From S2P Require Import Prelude GoText GoFloat Contracts Lexical Vocabulary TurnDetector.

(** ** Data *)

Definition defaultSemanticJudgeMinRunes : Z := 2.
Definition defaultSemanticSlotParserMinRunes : Z := 4.

Record SemanticTurnJudgement := mkJudgement {
  sj_CandidateKey : text;
  sj_PartialText : text;
  sj_StablePrefix : text;
  sj_UtteranceStatus : text;
  sj_InterruptionIntent : text;
  sj_TaskFamily : text;
  sj_SlotReadinessHint : text;
  sj_DynamicWaitPolicy : text;
  sj_WaitDeltaMs : Z;
  sj_Confidence : float64;
  sj_Reason : text;
  sj_Source : text
}.

Record SemanticSlotParseResult := mkSlotParse {
  sp_CandidateKey : text;
  sp_PartialText : text;
  sp_StablePrefix : text;
  sp_Domain : text;
  sp_TaskFamily : text;
  sp_Intent : text;
  sp_SlotStatus : text;
  sp_Actionability : text;
  sp_ClarifyNeeded : bool;
  sp_Grounded : bool;
  sp_CanonicalTarget : text;
  sp_CanonicalLocation : text;
  sp_NormalizedValue : text;
  sp_NormalizedValueUnit : text;
  sp_RiskLevel : text;
  sp_RiskReason : text;
  sp_RiskConfirmRequired : bool;
  sp_MissingSlots : list text;
  sp_AmbiguousSlots : list text;
  sp_Confidence : float64;
  sp_Reason : text;
  sp_Source : text
}.

Definition zero_judgement : SemanticTurnJudgement := mkJudgement "" "" "" "" "" "" "" "" 0 f_zero "" "".
Definition zero_parse : SemanticSlotParseResult :=
  mkSlotParse "" "" "" "" "" "" "" "" false false "" "" "" "" "" "" false [] [] f_zero "" "".

(** ** Task families *)

Definition inferSemanticTaskFamily (snapshot : InputPreview) (judgement : SemanticTurnJudgement) : text :=
  let intent := normalizeSemanticIntent (sj_InterruptionIntent judgement) in
  let bestText := TrimSpace (firstNonEmpty [PartialText snapshot; StablePrefix snapshot]) in
  if intent == SemanticIntentBackchannel then SemanticTaskFamilyBackchannel
  else if intent == SemanticIntentCorrection then SemanticTaskFamilyCorrection
  else if intent == SemanticIntentQuestion then SemanticTaskFamilyKnowledgeQuery
  else if (intent == SemanticIntentRequest) || (intent == SemanticIntentTakeover)
          || (intent == SemanticIntentContinue) then
    let family := inferLexicalTaskFamily bestText in
    if (family == SemanticTaskFamilyDialogue) || (family == SemanticTaskFamilyUnknown)
    then SemanticTaskFamilyStructuredCommand else family
  else inferLexicalTaskFamily bestText.

Definition inferSlotTaskFamily (snapshot : InputPreview) (result : SemanticSlotParseResult) : text :=
  let family := normalizeSemanticTaskFamily (sp_TaskFamily result) in
  let lexical := inferLexicalTaskFamily (firstNonEmpty [PartialText snapshot; StablePrefix snapshot]) in
  let domain := normalizeSemanticSlotDomain (sp_Domain result) in
  if family != SemanticTaskFamilyUnknown then family
  else if domain == SemanticSlotDomainGeneralChat then
    if lexical == SemanticTaskFamilyKnowledgeQuery then SemanticTaskFamilyKnowledgeQuery
    else SemanticTaskFamilyDialogue
  else if (domain == SemanticSlotDomainSmartHome) || (domain == SemanticSlotDomainDesktopAssistant) then
    if Contains (ToLower (TrimSpace (sp_Intent result))) "query" then SemanticTaskFamilyStructuredQuery
    else if (normalizeSemanticSlotActionability (sp_Actionability result) == SemanticSlotActionabilityObserveOnly)
            && (normalizeSemanticSlotStatus (sp_SlotStatus result) == SemanticSlotStatusNotApplicable)
    then SemanticTaskFamilyStructuredQuery
    else SemanticTaskFamilyStructuredCommand
  else if SemanticIntent (Arbitration snapshot) == SemanticIntentQuestion then SemanticTaskFamilyKnowledgeQuery
  else lexical.

(** ** When the model is asked *)

Definition shouldJudgeSemantic (snapshot : InputPreview) (minRunes : Z) (minStableFor : duration) : bool :=
  let a := Arbitration snapshot in
  let bestText := TrimSpace (firstNonEmpty [StablePrefix snapshot; PartialText snapshot]) in
  let minRunes := if minRunes <=? 0 then defaultSemanticJudgeMinRunes else minRunes in
  let cue := looksLikeTakeoverLexicon bestText || looksLikeBackchannel bestText in
  if bestText == "" then false
  else if (len bestText <? minRunes) && negb (looksLikeTakeoverLexicon bestText)
          && negb (looksLikeBackchannel bestText) then false
  else if minStableFor <=? i64 (StableForMs a * Millisecond) then true
  else
    let family := normalizeSemanticTaskFamily (TaskFamily a) in
    let family := if family == SemanticTaskFamilyUnknown then inferLexicalTaskFamily bestText else family in
    if CandidateReady a && ((family == SemanticTaskFamilyKnowledgeQuery)
                            || (family == SemanticTaskFamilyStructuredCommand)
                            || (family == SemanticTaskFamilyStructuredQuery)
                            || (family == SemanticTaskFamilyCorrection)) then true
    else if AcceptCandidate a || AcceptNow a || DraftAllowed a then true
    else cue.

Definition shouldParseSemanticSlots (snapshot : InputPreview) (minRunes : Z) (minStableFor : duration) : bool :=
  let a := Arbitration snapshot in
  let bestText := TrimSpace (firstNonEmpty [StablePrefix snapshot; PartialText snapshot]) in
  let minRunes := if minRunes <=? 0 then defaultSemanticSlotParserMinRunes else minRunes in
  if bestText == "" then false
  else if len bestText <? minRunes then false
  else if (SemanticIntent a == SemanticIntentBackchannel)
          && f_leb semanticJudgeMediumConfidence (SemanticConfidence a) then false
  else if SlotConstraintRequired a && CandidateReady a then true
  else if minStableFor <=? i64 (StableForMs a * Millisecond) then true
  else if (inferLexicalTaskFamily bestText == SemanticTaskFamilyStructuredCommand) && CandidateReady a then true
  else if DraftAllowed a || AcceptCandidate a || AcceptNow a then true
  else if SemanticComplete a then true
  else UtteranceComplete snapshot.

(** ** Merging a judgement *)

Definition defaultSemanticWaitDelta (judgement : SemanticTurnJudgement) : Z :=
  let intent := normalizeSemanticIntent (sj_InterruptionIntent judgement) in
  if sj_UtteranceStatus judgement == SemanticUtteranceCorrection then 320
  else if sj_UtteranceStatus judgement == SemanticUtteranceComplete then
    if intent == SemanticIntentQuestion then -140
    else if (intent == SemanticIntentRequest) || (intent == SemanticIntentTakeover) then -120
    else if intent == SemanticIntentBackchannel then 180
    else if intent == SemanticIntentContinue then 180
    else -80
  else
    if (intent == SemanticIntentContinue) || (intent == SemanticIntentCorrection) then 220
    else if intent == SemanticIntentBackchannel then 120
    else 0.

(** The family, with the confidence that lets the model override the lexical
    one. *)
Definition mergedTaskFamily (snapshot : InputPreview) (judgement : SemanticTurnJudgement)
    (confidence : float64) (a : TurnArbitration) : text :=
  let semanticFamily := normalizeSemanticTaskFamily (sj_TaskFamily judgement) in
  let unset := (TaskFamily a == "") || (TaskFamily a == SemanticTaskFamilyUnknown) in
  if (semanticFamily != SemanticTaskFamilyUnknown)
     && (f_leb semanticJudgeMediumConfidence confidence || unset)
  then semanticFamily
  else if unset then inferSemanticTaskFamily snapshot judgement
  else TaskFamily a.

(** The fields that record the judgement. *)
Definition recordJudgement (snapshot : InputPreview) (judgement : SemanticTurnJudgement)
    (a : TurnArbitration) : TurnArbitration :=
  let confidence := clampUnit (sj_Confidence judgement) in
  let family := mergedTaskFamily snapshot judgement confidence a in
  let delta := clampSemanticWaitDeltaMs (sj_WaitDeltaMs judgement) in
  a <|SemanticReady := true|>
    <|SemanticComplete := sj_UtteranceStatus judgement == SemanticUtteranceComplete|>
    <|SemanticIntent := normalizeSemanticIntent (sj_InterruptionIntent judgement)|>
    <|SemanticSlotReadiness := normalizeSemanticSlotReadinessHint (sj_SlotReadinessHint judgement)|>
    <|TaskFamily := family|>
    <|SlotConstraintRequired := taskFamilyRequiresSlotReadiness family|>
    <|SemanticReason := normalizeSemanticReason (sj_Reason judgement)|>
    <|SemanticSource := TrimSpace (sj_Source judgement)|>
    <|SemanticConfidence := confidence|>
    <|SemanticWaitPolicy := normalizeSemanticWaitPolicy (sj_DynamicWaitPolicy judgement)|>
    <|SemanticWaitDeltaMs := if delta =? 0 then defaultSemanticWaitDelta judgement else delta|>.

Definition early_stage (s : TurnArbitrationStage) : bool :=
  match s with
  | TurnArbitrationStagePreviewOnly | TurnArbitrationStageWaitForMore | TurnArbitrationStagePrewarmAllowed => true
  | _ => false
  end.

(** [if strings.TrimSpace(arbitration.Reason) == "" { arbitration.Reason = r }] *)
Definition default_reason (r : text) (a : TurnArbitration) : TurnArbitration :=
  if TrimSpace (Reason a) == "" then a <|Reason := r|> else a.

Definition applyCorrection (a : TurnArbitration) : TurnArbitration :=
  let a := match Stage a with
           | TurnArbitrationStageDraftAllowed => a <|Stage := TurnArbitrationStageWaitForMore|>
           | _ => a
           end in
  a <|DraftAllowed := false|>.

Definition applyComplete (a : TurnArbitration) : TurnArbitration :=
  let readiness := SemanticSlotReadiness a in
  let draft :=
    if (readiness == SemanticSlotReadinessClarify) || (readiness == SemanticSlotReadinessReady) then true
    else if readiness == SemanticSlotReadinessWaitSlot then false
    else if readiness == SemanticSlotReadinessNotApplicable then true
    else negb (SlotConstraintRequired a) || SlotReady a in
  let a := a <|PrewarmAllowed := true|> <|DraftAllowed := draft|> in
  let a :=
    if draft then
      let a := if early_stage (Stage a) then a <|Stage := TurnArbitrationStageDraftAllowed|> else a in
      default_reason (if readiness == SemanticSlotReadinessClarify then "semantic_complete_clarify_ready"
                      else if readiness == SemanticSlotReadinessReady then "semantic_complete_slot_ready"
                      else "semantic_complete") a
    else if SlotConstraintRequired a && negb (SlotReady a) then default_reason "semantic_complete_wait_slot_guard" a
    else default_reason "semantic_complete_hold" a in
  if readiness == SemanticSlotReadinessClarify then
    let a := a <|SlotClarifyNeeded := true|> in
    if (SlotActionability a == "") || (SlotActionability a == SemanticSlotActionabilityObserveOnly)
    then a <|SlotActionability := SemanticSlotActionabilityClarifyNeeded|> else a
  else a.

Definition mergeSemanticJudgement (snapshot : InputPreview) (judgement : SemanticTurnJudgement) : InputPreview :=
  if sj_CandidateKey judgement == "" then snapshot else
  let a := recordJudgement snapshot judgement (Arbitration snapshot) in
  let '(snapshot, a) :=
    if f_leb semanticJudgeMediumConfidence (SemanticConfidence a) then
      if sj_UtteranceStatus judgement == SemanticUtteranceCorrection
      then (snapshot <|UtteranceComplete := false|>, applyCorrection a)
      else if (sj_UtteranceStatus judgement == SemanticUtteranceComplete)
              && (SemanticIntent a != SemanticIntentBackchannel)
      then (snapshot <|UtteranceComplete := true|>, applyComplete a)
      else (snapshot, a)
    else (snapshot, a) in
  snapshot <|Arbitration := recomputeTurnArbitration snapshot a|>.

(** ** Merging a slot parse *)

Definition recordSlotParse (snapshot : InputPreview) (result : SemanticSlotParseResult)
    (a : TurnArbitration) : TurnArbitration :=
  let family := inferSlotTaskFamily snapshot result in
  a <|SlotReady := true|>
    <|SlotComplete := sp_SlotStatus result == SemanticSlotStatusComplete|>
    <|SlotGrounded := sp_Grounded result|>
    <|SlotDomain := normalizeSemanticSlotDomain (sp_Domain result)|>
    <|TaskFamily := family|>
    <|SlotConstraintRequired := taskFamilyRequiresSlotReadiness family|>
    <|SlotIntent := normalizeSemanticSlotLabel (sp_Intent result) "unknown"|>
    <|SlotStatus := normalizeSemanticSlotStatus (sp_SlotStatus result)|>
    <|SlotActionability := normalizeSemanticSlotActionability (sp_Actionability result)|>
    <|SlotReason := normalizeSemanticReason (sp_Reason result)|>
    <|SlotSource := TrimSpace (sp_Source result)|>
    <|SlotConfidence := clampUnit (sp_Confidence result)|>
    <|SlotClarifyNeeded := sp_ClarifyNeeded result|>
    <|SlotCanonicalTarget := TrimSpace (sp_CanonicalTarget result)|>
    <|SlotCanonicalLocation := TrimSpace (sp_CanonicalLocation result)|>
    <|SlotNormalizedValue := TrimSpace (sp_NormalizedValue result)|>
    <|SlotNormalizedValueUnit := TrimSpace (sp_NormalizedValueUnit result)|>
    <|SlotRiskLevel := normalizeSemanticRiskLevel (sp_RiskLevel result)|>
    <|SlotRiskReason := normalizeSemanticReason (sp_RiskReason result)|>
    <|SlotRiskConfirmRequired := sp_RiskConfirmRequired result|>
    <|SlotMissing := normalizeSemanticSlotList (sp_MissingSlots result)|>
    <|SlotAmbiguous := normalizeSemanticSlotList (sp_AmbiguousSlots result)|>.

Definition slot_may_draft (actionability : text) : bool :=
  (actionability == SemanticSlotActionabilityDraftOK)
  || (actionability == SemanticSlotActionabilityClarifyNeeded)
  || (actionability == SemanticSlotActionabilityActCandidate).

Definition applySlotDraft (a : TurnArbitration) : TurnArbitration :=
  let a := a <|PrewarmAllowed := true|> <|DraftAllowed := true|> in
  let a := if early_stage (Stage a) then a <|Stage := TurnArbitrationStageDraftAllowed|> else a in
  default_reason (txt "slot_" ++ SlotActionability a) a.

Definition applySlotWait (a : TurnArbitration) : TurnArbitration :=
  let a := a <|DraftAllowed := false|> in
  let a := match Stage a with
           | TurnArbitrationStageDraftAllowed =>
               if PrewarmAllowed a then a <|Stage := TurnArbitrationStagePrewarmAllowed|>
               else a <|Stage := TurnArbitrationStageWaitForMore|>
           | _ => a
           end in
  default_reason "slot_wait_more" a.

Definition mergeSemanticSlotParse (snapshot : InputPreview) (result : SemanticSlotParseResult) : InputPreview :=
  if sp_CandidateKey result == "" then snapshot else
  let a := recordSlotParse snapshot result (Arbitration snapshot) in
  let a :=
    if f_leb semanticJudgeMediumConfidence (SlotConfidence a) then
      if slot_may_draft (SlotActionability a) then applySlotDraft a
      else if SlotActionability a == SemanticSlotActionabilityWaitMore then applySlotWait a
      else a
    else a in
  let a := a <|SlotGuardAdjustMs := slotGuardAdjustMs a|> in
  snapshot <|Arbitration := recomputeTurnArbitration snapshot a|>.

#[global] Arguments mergedTaskFamily _ _ _ _ : simpl never.
#[global] Arguments recordJudgement _ _ _ : simpl never.
#[global] Arguments applyCorrection _ : simpl never.
#[global] Arguments applyComplete _ : simpl never.
#[global] Arguments recordSlotParse _ _ _ : simpl never.
#[global] Arguments applySlotDraft _ : simpl never.
#[global] Arguments applySlotWait _ : simpl never.
#[global] Arguments slotGuardAdjustMs _ : simpl never.

(** ** Laws of the merges *)

(** A merge is a fold of the recorded arbitration with its gates. *)
Lemma judgement_folds p j :
  sj_CandidateKey j <> "" ->
  exists q a, mergeSemanticJudgement p j = q <|Arbitration := recomputeTurnArbitration q a|> /\
    (CommitSuggested q = CommitSuggested p /\ PartialText q = PartialText p /\ StablePrefix q = StablePrefix p /\
     EndpointReason q = EndpointReason p /\ Preview_AudioBytes q = Preview_AudioBytes p /\
     SpeechStarted q = SpeechStarted p) /\
    let r := recordJudgement p j (Arbitration p) in
    (f_leb semanticJudgeMediumConfidence (SemanticConfidence r) = false -> a = r /\ q = p) /\
    (f_leb semanticJudgeMediumConfidence (SemanticConfidence r) = true ->
       sj_UtteranceStatus j = SemanticUtteranceCorrection -> a = applyCorrection r /\ UtteranceComplete q = false) /\
    (f_leb semanticJudgeMediumConfidence (SemanticConfidence r) = true ->
       sj_UtteranceStatus j = SemanticUtteranceComplete -> SemanticIntent r <> SemanticIntentBackchannel ->
       a = applyComplete r /\ UtteranceComplete q = true).
Proof.
  intros Hk. apply text_eqb_false in Hk. unfold mergeSemanticJudgement. rewrite Hk. cbv zeta.
  assert (Hne : SemanticUtteranceCorrection <> SemanticUtteranceComplete) by discriminate.
  set (r := recordJudgement p j (Arbitration p)). clearbody r.
  destruct (f_leb semanticJudgeMediumConfidence (SemanticConfidence r)).
  - destruct (sj_UtteranceStatus j == SemanticUtteranceCorrection) eqn:E1; text_prop.
    + exists (p <|UtteranceComplete := false|>), (applyCorrection r). read_fields.
      repeat split; auto; try discriminate; intros; congruence.
    + destruct (sj_UtteranceStatus j == SemanticUtteranceComplete) eqn:E2; text_prop.
      * destruct (SemanticIntent r == SemanticIntentBackchannel) eqn:E3; cbn [andb negb]; text_prop.
        -- exists p, r. repeat split; auto; try done; intros; congruence.
        -- exists (p <|UtteranceComplete := true|>), (applyComplete r). read_fields.
           repeat split; auto; try discriminate; intros; congruence.
      * cbn [andb]. exists p, r. repeat split; auto; try done; intros; congruence.
  - exists p, r. repeat split; auto; discriminate.
Qed.

Lemma slot_parse_folds p r :
  sp_CandidateKey r <> "" ->
  exists a, mergeSemanticSlotParse p r = p <|Arbitration := recomputeTurnArbitration p a|> /\
    let rec := recordSlotParse p r (Arbitration p) in
    exists b, a = b <|SlotGuardAdjustMs := slotGuardAdjustMs b|> /\
      (f_leb semanticJudgeMediumConfidence (SlotConfidence rec) = false -> b = rec) /\
      (f_leb semanticJudgeMediumConfidence (SlotConfidence rec) = true ->
         slot_may_draft (SlotActionability rec) = true -> b = applySlotDraft rec) /\
      (f_leb semanticJudgeMediumConfidence (SlotConfidence rec) = true ->
         SlotActionability rec = SemanticSlotActionabilityWaitMore -> b = applySlotWait rec).
Proof.
  intros Hk. apply text_eqb_false in Hk. unfold mergeSemanticSlotParse. rewrite Hk. cbv zeta.
  set (rec := recordSlotParse p r (Arbitration p)). clearbody rec.
  eexists. split; [reflexivity|]. eexists. split; [reflexivity|].
  destruct (f_leb semanticJudgeMediumConfidence (SlotConfidence rec)); [|by repeat split].
  destruct (slot_may_draft (SlotActionability rec)) eqn:E1.
  - split; [done|]. split; [done|]. intros _ E. rewrite E in E1. by vm_compute in E1.
  - destruct (SlotActionability rec == SemanticSlotActionabilityWaitMore) eqn:E2; text_prop; by repeat split.
Qed.

(** The gates a recorded judgement or parse has not touched. *)
Lemma recordJudgement_gates p j a :
  let r := recordJudgement p j a in
  PrewarmAllowed r = PrewarmAllowed a /\ DraftAllowed r = DraftAllowed a /\ AudioMs r = AudioMs a /\
  SilenceMs r = SilenceMs a /\ MinAudioMs r = MinAudioMs a /\
  SemanticConfidence r = clampUnit (sj_Confidence j) /\
  SemanticIntent r = normalizeSemanticIntent (sj_InterruptionIntent j) /\
  SemanticWaitDeltaMs r = (if clampSemanticWaitDeltaMs (sj_WaitDeltaMs j) =? 0 then defaultSemanticWaitDelta j
                           else clampSemanticWaitDeltaMs (sj_WaitDeltaMs j)) /\
  SlotReady r = SlotReady a /\
  SemanticSlotReadiness r = normalizeSemanticSlotReadinessHint (sj_SlotReadinessHint j) /\
  SlotConstraintRequired r = taskFamilyRequiresSlotReadiness (TaskFamily r).
Proof. unfold recordJudgement. cbv zeta. read_fields. by repeat split. Qed.

Lemma recordSlotParse_gates p r a :
  let s := recordSlotParse p r a in
  PrewarmAllowed s = PrewarmAllowed a /\ DraftAllowed s = DraftAllowed a /\
  SlotConfidence s = clampUnit (sp_Confidence r) /\
  SlotActionability s = normalizeSemanticSlotActionability (sp_Actionability r).
Proof. unfold recordSlotParse. cbv zeta. read_fields. by repeat split. Qed.

Lemma default_reason_gates x a :
  let r := default_reason x a in
  PrewarmAllowed r = PrewarmAllowed a /\ DraftAllowed r = DraftAllowed a /\
  SemanticWaitDeltaMs r = SemanticWaitDeltaMs a /\ SlotReady r = SlotReady a /\
  SlotActionability r = SlotActionability a.
Proof. unfold default_reason. split_if; read_fields; by repeat split. Qed.

Lemma applyCorrection_gates a :
  DraftAllowed (applyCorrection a) = false /\ PrewarmAllowed (applyCorrection a) = PrewarmAllowed a.
Proof. unfold applyCorrection. destruct (Stage a); read_fields; by split. Qed.

Lemma applyComplete_gates a :
  PrewarmAllowed (applyComplete a) = true /\
  DraftAllowed (applyComplete a) =
    (let readiness := SemanticSlotReadiness a in
     if (readiness == SemanticSlotReadinessClarify) || (readiness == SemanticSlotReadinessReady) then true
     else if readiness == SemanticSlotReadinessWaitSlot then false
     else if readiness == SemanticSlotReadinessNotApplicable then true
     else negb (SlotConstraintRequired a) || SlotReady a).
Proof.
  unfold applyComplete, default_reason. cbv zeta.
  match goal with |- _ /\ _ = ?d => set (draft := d) end. clearbody draft.
  destruct (SemanticSlotReadiness a == SemanticSlotReadinessClarify), draft;
    repeat (split_if; read_fields; try (by split)); read_fields; by split.
Qed.

Lemma applySlotDraft_gates a : PrewarmAllowed (applySlotDraft a) = true /\ DraftAllowed (applySlotDraft a) = true.
Proof.
  unfold applySlotDraft. cbv zeta. set (a1 := if early_stage _ then _ else _).
  destruct (default_reason_gates (txt "slot_" ++ SlotActionability a1) a1) as (-> & -> & _).
  subst a1. split_if; read_fields; by split.
Qed.

Lemma applySlotWait_gates a : DraftAllowed (applySlotWait a) = false /\ PrewarmAllowed (applySlotWait a) = PrewarmAllowed a.
Proof.
  unfold applySlotWait. cbv zeta.
  match goal with |- context [default_reason ?x ?b] => destruct (default_reason_gates x b) as (-> & -> & _) end.
  destruct (Stage _); repeat split_if; read_fields; by split.
Qed.

Lemma semantic_delta_range j :
  let d := if clampSemanticWaitDeltaMs (sj_WaitDeltaMs j) =? 0 then defaultSemanticWaitDelta j
           else clampSemanticWaitDeltaMs (sj_WaitDeltaMs j) in
  -600 <= d <= 600.
Proof.
  cbv zeta. split_if.
  - unfold defaultSemanticWaitDelta. cbv zeta. repeat split_if; lia.
  - unfold clampSemanticWaitDeltaMs. repeat split_if; bool_prop; lia.
Qed.

(** The semantic layer is a revocable weighting. A judgement or a parse
    below medium confidence changes neither the draft nor the prewarm
    permission; whatever it says, the merged wait stays between 120 and 900
    ms, no merged turn is accepted without text and enough audio, and what
    was heard (text, prefix, audio, speech) is left alone. *)
Theorem semantic_merge_is_bounded p j r :
  let m := mergeSemanticJudgement p j in
  let s := mergeSemanticSlotParse p r in
  (f_leb semanticJudgeMediumConfidence (clampUnit (sj_Confidence j)) = false ->
     DraftAllowed (Arbitration m) = DraftAllowed (Arbitration p) /\
     PrewarmAllowed (Arbitration m) = PrewarmAllowed (Arbitration p) /\
     UtteranceComplete m = UtteranceComplete p) /\
  (f_leb semanticJudgeMediumConfidence (clampUnit (sp_Confidence r)) = false ->
     DraftAllowed (Arbitration s) = DraftAllowed (Arbitration p) /\
     PrewarmAllowed (Arbitration s) = PrewarmAllowed (Arbitration p)) /\
  (sj_CandidateKey j <> "" -> 120 <= EffectiveWaitMs (Arbitration m) <= 900 /\
     (AcceptNow (Arbitration m) = true -> bestText p <> "" )) /\
  (sp_CandidateKey r <> "" -> 120 <= EffectiveWaitMs (Arbitration s) <= 900 /\
     (AcceptNow (Arbitration s) = true -> bestText p <> "")) /\
  PartialText m = PartialText p /\ StablePrefix m = StablePrefix p /\
  Preview_AudioBytes m = Preview_AudioBytes p /\ SpeechStarted m = SpeechStarted p.
Proof.
  intros m s. subst m s.
  assert (Hfields : forall q a, DraftAllowed (recomputeTurnArbitration q a) = DraftAllowed a /\
            PrewarmAllowed (recomputeTurnArbitration q a) = PrewarmAllowed a).
  { intros q a. pose proof (recompute_signals q a) as [_ _ _ _ _ _ _ _ _ -> -> _]. by split. }
  assert (Hwait : forall q a, 120 <= EffectiveWaitMs (recomputeTurnArbitration q a) <= 900).
  { intros q a. rewrite (rc_wait _ _ _ (recompute_correct q a)). apply effective_wait_range. }
  assert (Hbest : forall q, PartialText q = PartialText p -> StablePrefix q = StablePrefix p -> bestText q = bestText p).
  { intros q Hq1 Hq2. unfold bestText. by rewrite Hq1, Hq2. }
  destruct (recordJudgement_gates p j (Arbitration p)) as (J1 & J2 & _ & _ & _ & J3 & _).
  destruct (recordSlotParse_gates p r (Arbitration p)) as (S1 & S2 & S3 & _).
  destruct (sj_CandidateKey j == "") eqn:Ej, (sp_CandidateKey r == "") eqn:Er; text_prop.
  all: assert (Hj0 : sj_CandidateKey j = "" -> mergeSemanticJudgement p j = p)
    by (intros E; unfold mergeSemanticJudgement; by rewrite E).
  all: assert (Hr0 : sp_CandidateKey r = "" -> mergeSemanticSlotParse p r = p)
    by (intros E; unfold mergeSemanticSlotParse; by rewrite E).
  all: try (destruct (judgement_folds p j Ej) as (q & a & -> & (_ & Q2 & Q3 & _ & Q5 & Q6) & HL & _));
    try (destruct (slot_parse_folds p r Er) as (c & -> & b & -> & SL & _));
    try rewrite (Hj0 Ej); try rewrite (Hr0 Er); read_fields;
    rewrite ?J3 in *; rewrite ?S3 in *;
    (split; [intros H; try (destruct (HL H) as [-> ->]; destruct (Hfields p (recordJudgement p j (Arbitration p))) as [-> ->]); auto|]);
    (split; [intros H; try (rewrite (SL H) in *;
       match goal with |- context [recomputeTurnArbitration ?q ?x] => destruct (Hfields q x) as [-> ->] end; read_fields); auto|]);
    (split; [intros; first [contradiction | split; [apply Hwait|]; intros Ha; apply accept_now_iff in Ha as [Ha _]; by rewrite <- (Hbest q)]|]);
    (split; [intros; first [contradiction | split; [apply Hwait|]; intros Ha; by apply accept_now_iff in Ha as [Ha _]]|]); auto.
Qed.

(** What a confident judgement does to the gates. A correction withdraws
    the draft; a completed utterance that is not a backchannel allows the
    prewarm, and allows the draft unless the judge waits for a slot or the
    family needs a slot parse that has not come; a confident parse that may
    act allows both, one that waits withdraws the draft. *)
Theorem semantic_gates p j r :
  sj_CandidateKey j <> "" -> sp_CandidateKey r <> "" ->
  f_leb semanticJudgeMediumConfidence (clampUnit (sj_Confidence j)) = true ->
  f_leb semanticJudgeMediumConfidence (clampUnit (sp_Confidence r)) = true ->
  let m := Arbitration (mergeSemanticJudgement p j) in
  let s := Arbitration (mergeSemanticSlotParse p r) in
  let hint := normalizeSemanticSlotReadinessHint (sj_SlotReadinessHint j) in
  let actionability := normalizeSemanticSlotActionability (sp_Actionability r) in
  (sj_UtteranceStatus j = SemanticUtteranceCorrection -> DraftAllowed m = false) /\
  (sj_UtteranceStatus j = SemanticUtteranceComplete ->
   normalizeSemanticIntent (sj_InterruptionIntent j) <> SemanticIntentBackchannel ->
     PrewarmAllowed m = true /\
     (hint = SemanticSlotReadinessWaitSlot -> DraftAllowed m = false) /\
     (hint = SemanticSlotReadinessUnknown ->
        DraftAllowed m = negb (taskFamilyRequiresSlotReadiness (TaskFamily m)) || SlotReady (Arbitration p)) /\
     (hint <> SemanticSlotReadinessWaitSlot -> hint <> SemanticSlotReadinessUnknown -> DraftAllowed m = true)) /\
  (slot_may_draft actionability = true -> DraftAllowed s = true /\ PrewarmAllowed s = true) /\
  (actionability = SemanticSlotActionabilityWaitMore -> DraftAllowed s = false).
Proof.
  intros Hj Hr Cj Cr m s hint actionability. subst m s.
  destruct (judgement_folds p j Hj) as (q & a & -> & _ & _ & HC & HK).
  destruct (slot_parse_folds p r Hr) as (c & -> & b & -> & _ & HD & HW).
  destruct (recordJudgement_gates p j (Arbitration p)) as (_ & _ & _ & _ & _ & J3 & J4 & _ & J5 & J6 & J7).
  destruct (recordSlotParse_gates p r (Arbitration p)) as (_ & _ & S3 & S4).
  rewrite J3 in HC, HK. rewrite S3 in HD, HW. rewrite S4 in HD, HW. fold actionability in HD, HW. read_fields.
  pose proof (recompute_signals q a) as [_ _ _ _ _ _ _ _ _ R1 R2 _]. rewrite R1, R2.
  set (b' := b <|SlotGuardAdjustMs := slotGuardAdjustMs b|>).
  pose proof (recompute_signals p b') as [_ _ _ _ _ _ _ _ _ T1 T2 _]. rewrite T1, T2.
  assert (Hb : PrewarmAllowed b' = PrewarmAllowed b /\ DraftAllowed b' = DraftAllowed b)
    by (subst b'; read_fields; by split). destruct Hb as [-> ->].
  split; [intros E; destruct (HC Cj E) as [-> _]; apply applyCorrection_gates|]. split; [|split].
  - intros E Hi. rewrite J4 in HK. destruct (HK Cj E Hi) as [-> _].
    destruct (applyComplete_gates (recordJudgement p j (Arbitration p))) as [-> ->].
    rewrite J6, J5, J7. fold hint.
    assert (Hfam : TaskFamily (recomputeTurnArbitration q (applyComplete (recordJudgement p j (Arbitration p))))
                   = TaskFamily (recordJudgement p j (Arbitration p))).
    { unfold recomputeTurnArbitration, set_derived, applyComplete, default_reason. cbv zeta. read_fields.
      repeat (split_if; read_fields; try reflexivity); reflexivity. }
    rewrite Hfam. cbv zeta. split; [done|].
    assert (Hh : hint ∈ SemanticSlotReadinessUnknown :: slot_readiness_hints)
      by (apply elem_of_cons; destruct (normalize_to_range slot_readiness_hints SemanticSlotReadinessUnknown
            (sj_SlotReadinessHint j)); [by right | by left]).
    clearbody hint. unfold slot_readiness_hints in Hh. rewrite !elem_of_cons, elem_of_nil in Hh.
    destruct Hh as [-> | [-> | [-> | [-> | [-> | []]]]]]; cbn; repeat split; intros; done.
  - intros E. rewrite (HD Cr E). destruct (applySlotDraft_gates (recordSlotParse p r (Arbitration p))). by split.
  - intros E. rewrite (HW Cr E). apply applySlotWait_gates.
Qed.

(** ** Matching answers to previews *)

Definition newline : rune := 10.
Definition key_separator : text := [newline] ++ txt "---" ++ [newline].

Definition semanticCandidateKey (stablePrefix partialText : text) : text :=
  TrimSpace stablePrefix ++ key_separator ++ TrimSpace partialText.

(** What the two preview states share: answers carry the key of the preview
    they were asked about. *)
Class CandidateKeyed (R : Type) := { candidate_key : R -> text; zero_answer : R; zero_key : candidate_key zero_answer = [] }.

#[export] Instance Judgement_keyed : CandidateKeyed SemanticTurnJudgement :=
  { candidate_key := sj_CandidateKey; zero_answer := zero_judgement; zero_key := eq_refl }.
#[export] Instance SlotParse_keyed : CandidateKeyed SemanticSlotParseResult :=
  { candidate_key := sp_CandidateKey; zero_answer := zero_parse; zero_key := eq_refl }.

(** [previewSemanticJudgeState] and [previewSemanticSlotParserState] are the
    same machine over the two answer types. *)
Record previewAnswerState (R : Type) := mkAnswerState {
  evaluating : bool;
  lastRequestedKey : text;
  lastResult : R
}.
Arguments mkAnswerState {R} _ _ _.
Arguments evaluating {R} _.
Arguments lastRequestedKey {R} _.
Arguments lastResult {R} _.

Section AnswerState.
Context {R : Type} `{!CandidateKeyed R}.

Definition newAnswerState : previewAnswerState R := mkAnswerState false [] zero_answer.

Definition shouldLaunch (key : text) (s : previewAnswerState R) : previewAnswerState R * bool :=
  if key == [] then (s, false)
  else if evaluating s && (lastRequestedKey s == key) then (s, false)
  else if candidate_key (lastResult s) == key then (s, false)
  else (mkAnswerState true key (lastResult s), true).

Definition storeResult (result : R) (s : previewAnswerState R) : previewAnswerState R :=
  mkAnswerState false (lastRequestedKey s) result.

Definition clearRequest (s : previewAnswerState R) : previewAnswerState R :=
  mkAnswerState false (lastRequestedKey s) (lastResult s).

Definition resultFor (key : text) (s : previewAnswerState R) : option R :=
  if (key == []) || (candidate_key (lastResult s) != key) then None else Some (lastResult s).

(** One preview and the calls in flight for it.  A goroutine stores its answer
    or clears the request on an error. *)
Inductive answer_event := ELaunch (key : text) | EAnswer (result : R) | EError.

Definition answer_step (s : previewAnswerState R) (e : answer_event) : previewAnswerState R :=
  match e with
  | ELaunch key => (shouldLaunch key s).1
  | EAnswer result => storeResult result s
  | EError => clearRequest s
  end.

(** What may be returned: an answer that was stored. *)
Definition stored (es : list answer_event) (r : R) : Prop := EAnswer r ∈ es.

Lemma answer_run_stored es s :
  let s' := fold_left answer_step es s in
  lastResult s' = lastResult s \/ stored es (lastResult s').
Proof.
  revert s. induction es as [|e es IH]; intros s; cbn [fold_left]; [by left|].
  destruct (IH (answer_step s e)) as [H|H].
  - destruct e as [key|r|]; cbn [answer_step] in *.
    + left. rewrite H. unfold shouldLaunch. by repeat split_if.
    + right. unfold stored. rewrite H. apply list_elem_of_here.
    + by left.
  - right. by apply list_elem_of_further.
Qed.

(** Answers are matched to the preview they were asked about. Over any
    interleaving of launches, answers and errors, a lookup returns only an
    answer that was stored and carries exactly the key asked for; a key is
    never launched twice in a row while it is in flight nor again once its
    answer is the last one; and after an error it may be launched again. *)
Theorem answers_match_previews es key :
  let s := fold_left answer_step es newAnswerState in
  (forall r, resultFor key s = Some r -> candidate_key r = key /\ key <> [] /\ stored es r) /\
  ((shouldLaunch key s).2 = true ->
     (shouldLaunch key (shouldLaunch key s).1).2 = false /\
     (shouldLaunch key (clearRequest (shouldLaunch key s).1)).2 = true /\
     resultFor key s = None) /\
  (resultFor key s <> None -> (shouldLaunch key s).2 = false).
Proof.
  intros s. split; [|split].
  - intros r. unfold resultFor. split_if; [done|]. intros [= <-]. bool_prop. text_prop.
    split; [done|]. split; [done|]. destruct (answer_run_stored es newAnswerState) as [Hz|Hst]; [|done].
    exfalso. fold s in Hz. cbn [newAnswerState lastResult] in Hz. rewrite Hz, zero_key in *. congruence.
  - unfold shouldLaunch, resultFor, clearRequest.
    destruct (key == []) eqn:Ek; [done|].
    destruct (evaluating s && (lastRequestedKey s == key)) eqn:E1; [done|].
    destruct (candidate_key (lastResult s) == key) eqn:E2; [done|].
    cbn [fst snd evaluating lastRequestedKey lastResult]. rewrite text_eqb_refl, E2. done.
  - unfold shouldLaunch, resultFor. destruct (key == []) eqn:Ek; [done|]. cbn [orb].
    destruct (candidate_key (lastResult s) == key) eqn:E2; [|done]. cbn [negb]. intros _. by split_if.
Qed.
End AnswerState.

Lemma app_no_newline (a b a' b' : text) :
  newline ∉ a -> newline ∉ a' -> a ++ newline :: b = a' ++ newline :: b' -> a = a' /\ b = b'.
Proof.
  revert a'. induction a as [|x a IH]; intros [|y a'] Ha Ha' H; cbn in H.
  - by injection H.
  - injection H as Hy _. exfalso. apply Ha'. rewrite Hy. apply list_elem_of_here.
  - injection H as Hy _. exfalso. apply Ha. rewrite Hy. apply list_elem_of_here.
  - injection H as -> H. apply not_elem_of_cons in Ha as [_ Ha].
    apply not_elem_of_cons in Ha' as [_ Ha']. by destruct (IH a' Ha Ha' H) as [-> ->].
Qed.

(** The key of a preview determines its texts: two previews whose stable
    prefixes are single lines have the same key only when their trimmed
    prefixes and partials agree, so an answer never reaches other words. *)
Theorem candidate_key_injective p q p' q' :
  newline ∉ TrimSpace p -> newline ∉ TrimSpace p' ->
  semanticCandidateKey p q = semanticCandidateKey p' q' -> TrimSpace p = TrimSpace p' /\ TrimSpace q = TrimSpace q'.
Proof.
  unfold semanticCandidateKey, key_separator. rewrite <- !app_assoc. cbn [app]. intros Hp Hp' H.
  apply app_no_newline in H as [-> H]; [|done|done]. split; [done|].
  apply (app_inv_head (txt "---")) in H. cbn [app] in H. congruence.
Qed.

Lemma candidate_key_injective_witness :
  semanticCandidateKey " hi" "hi there " = semanticCandidateKey "hi " " hi there" /\ TrimSpace " hi" = TrimSpace "hi ".
Proof.
  assert (H : semanticCandidateKey " hi" "hi there " = semanticCandidateKey "hi " " hi there") by (by vm_compute).
  split; [exact H|]. apply (candidate_key_injective " hi" "hi there " "hi " " hi there");
    [apply (bool_decide_unpack _); by vm_compute | apply (bool_decide_unpack _); by vm_compute | exact H].
Defined.

(** ** The commit decision *)

(** Half a second of speech that ends in an unfinished correction. *)
Definition demo_preview_poll : InputPreview :=
  (TurnDetector.Snapshot (2 * Second) (detector_run demo_heard demo_detector)).2.

Definition demo_correction : SemanticTurnJudgement :=
  mkJudgement "k" "" "" SemanticUtteranceCorrection SemanticIntentCorrection "" "" SemanticWaitPolicyExtend 600
    (f_lit 95 100) "" "".

(** The merged wait does not reach the commit. The gateway commits a turn
    when [CommitSuggested] is set, and that flag is the detector's alone:
    neither merge ever changes it or the endpoint reason, so a confident
    correction or a slot that must wait lengthens [EffectiveWaitMs] and can
    clear [AcceptNow], and the turn is committed all the same. *)
Theorem merge_leaves_commit_decision p j r :
  (CommitSuggested (mergeSemanticJudgement p j) = CommitSuggested p /\
   EndpointReason (mergeSemanticJudgement p j) = EndpointReason p) /\
  (CommitSuggested (mergeSemanticSlotParse p r) = CommitSuggested p /\
   EndpointReason (mergeSemanticSlotParse p r) = EndpointReason p) /\
  (exists now d, let q := (TurnDetector.Snapshot now d).2 in
     let m := mergeSemanticJudgement q demo_correction in
     EffectiveWaitMs (Arbitration q) < EffectiveWaitMs (Arbitration m) /\
     AcceptNow (Arbitration m) = false /\ CommitSuggested m = true).
Proof.
  split; [|split].
  - destruct (sj_CandidateKey j == "") eqn:E; text_prop.
    + unfold mergeSemanticJudgement. by rewrite E.
    + destruct (judgement_folds p j E) as (q & a & -> & (Q1 & _ & _ & Q4 & _) & _). read_fields. by split.
  - destruct (sp_CandidateKey r == "") eqn:E; text_prop.
    + unfold mergeSemanticSlotParse. by rewrite E.
    + destruct (slot_parse_folds p r E) as (a & -> & _). read_fields. by split.
  - exists (Second + 600 * Millisecond), (detector_run demo_heard demo_detector). vm_compute. by repeat split.
Qed.

(** Witnesses of the merges: a completed request that still needs its slots. *)
Definition demo_request_judgement : SemanticTurnJudgement :=
  mkJudgement "k" "" "" SemanticUtteranceComplete SemanticIntentRequest SemanticTaskFamilyStructuredCommand
    "" "" 0 (f_lit 9 10) "" "".
Definition demo_parse : SemanticSlotParseResult :=
  mkSlotParse "k" "" "" "smart_home" "" "turn_on" "complete" SemanticSlotActionabilityActCandidate false true
    "light" "" "" "" "low" "" false [] [] (f_lit 9 10) "" "".

Lemma semantic_gates_witness :
  let p := demo_preview_poll in
  (SemanticUtteranceComplete = SemanticUtteranceComplete ->
     PrewarmAllowed (Arbitration (mergeSemanticJudgement p demo_request_judgement)) = true) /\
  DraftAllowed (Arbitration (mergeSemanticSlotParse p demo_parse)) = true.
Proof.
  intros p. destruct (semantic_gates p demo_request_judgement demo_parse) as (_ & H2 & H3 & _);
    [discriminate | discriminate | by vm_compute | by vm_compute |].
  split; [intros E; apply (H2 E); discriminate | apply H3; by vm_compute].
Defined.
