(* ===== verification/SlotValues.v ===== *)
(** * Slot values and risk (internal/voice/slot_value_normalizer.go)

    The values the runtime reads out of a transcript on its own - modes,
    percentages, temperatures, spoken Chinese numerals - and the gate that keeps a
    risky target from being acted on without a confirmation. *)

From S2P Require Import Prelude GoText GoOrder GoRegexp GoFloat Contracts Lexical Vocabulary.
From S2P Require Import TurnDetector BargeIn Playback Semantic.

Record SemanticSlotParseRequest := mkSlotRequest {
  sr_SessionID : text;
  sr_DeviceID : text;
  sr_ClientType : text;
  sr_PartialText : text;
  sr_StablePrefix : text;
  sr_AudioMs : Z;
  sr_Stability : float64;
  sr_StableForMs : Z;
  sr_TurnStage : TurnArbitrationStage;
  sr_EndpointHinted : bool;
  sr_SemanticIntent : text;
  sr_PromptProfile : text;
  sr_PromptHints : list text
}.

#[export] Instance SlotParse_rebuild : Rebuild SemanticSlotParseResult := fun r =>
  mkSlotParse (sp_CandidateKey r) (sp_PartialText r) (sp_StablePrefix r) (sp_Domain r) (sp_TaskFamily r) (sp_Intent r)
    (sp_SlotStatus r) (sp_Actionability r) (sp_ClarifyNeeded r) (sp_Grounded r) (sp_CanonicalTarget r)
    (sp_CanonicalLocation r) (sp_NormalizedValue r) (sp_NormalizedValueUnit r) (sp_RiskLevel r) (sp_RiskReason r)
    (sp_RiskConfirmRequired r) (sp_MissingSlots r) (sp_AmbiguousSlots r) (sp_Confidence r) (sp_Reason r) (sp_Source r).

(** ** Numbers *)

(** [strconv.Atoi]. *)
Definition is_digit (r : rune) : bool := (48 <=? r) && (r <=? 57).
Definition digits_value (digits : text) : Z := fold_left (fun n r => n * 10 + (r - 48)) digits 0.
Definition Atoi (s : text) : option Z :=
  let '(negative, digits) := match s with
    | 43 :: digits => (false, digits)
    | 45 :: digits => (true, digits)
    | _ => (false, s)
    end in
  if (len digits =? 0) || negb (forallb is_digit digits) then None
  else
    let n := if negative : bool then - digits_value digits else digits_value digits in
    if (n <? min_int64) || (max_int64 <? n) then None else Some n.

(** [strings.Split] at a separator of one rune. *)
Fixpoint Split_rune (sep : rune) (s : text) : list text :=
  match s with
  | [] => [[]]
  | r :: s =>
      if r =? sep then [] :: Split_rune sep s
      else match Split_rune sep s with
           | part :: parts => (r :: part) :: parts
           | [] => [[r]]
           end
  end.

Definition rune_bai : rune := 30334 (* 百 *).
Definition rune_shi : rune := 21313 (* 十 *).

(** The [mapping] of digits. *)
Definition chinese_digits : list (rune * Z) :=
  combine (txt "零一二两三四五六七八九") [0; 1; 2; 2; 3; 4; 5; 6; 7; 8; 9].
Definition digit_of (r : rune) : option Z :=
  match find (fun '(d, _) => d =? r) chinese_digits with Some (_, v) => Some v | None => None end.

(** The number a part stands for: [absent] when the part is blank, the digit of
    its first rune otherwise. *)
Definition part_digit (absent : Z) (part : text) : option Z :=
  if TrimSpace part == "" then Some absent
  else match part with r :: _ => digit_of r | [] => None end.

Fixpoint parse_loose (fuel : nat) (raw : text) : option Z :=
  match fuel with
  | O => None
  | S fuel =>
      let raw := TrimSpace raw in
      if raw == "" then None
      else match Atoi raw with
      | Some parsed => Some parsed
      | None =>
          if raw == "十" then Some 10
          else if ContainsRune raw rune_bai then
            match Split_rune rune_bai raw with
            | before :: after :: _ =>
                match part_digit 1 before with
                | None => None
                | Some hundred =>
                    match (if TrimSpace after == "" then Some 0 else parse_loose fuel after) with
                    | None => None
                    | Some rest => Some (i64 (hundred * 100 + rest))
                    end
                end
            | _ => None
            end
          else if ContainsRune raw rune_shi then
            match Split_rune rune_shi raw with
            | before :: after :: _ =>
                match part_digit 1 before with
                | None => None
                | Some tens =>
                    match part_digit 0 after with
                    | None => None
                    | Some ones => Some (i64 (tens * 10 + ones))
                    end
                end
            | _ => None
            end
          else match raw with
               | [r] => digit_of r
               | _ => None
               end
      end
  end.

(** What follows the first [百] holds none, so the recursion goes once. *)
Definition parseLooseChineseNumber (raw : text) : option Z := parse_loose 2 raw.

(** ** Patterns *)

Definition ascii_digit_class (least most : nat) : regex := RClass is_digit least most.
Definition slotTemperaturePattern : regex :=
  RSeq (RGroup (RAlt (RClass is_digit 1 2) (RClass (ContainsRune "零一二三四五六七八九十两") 1 4)))
    (RSeq RSpaces (RAlt (RLiteral "度") (RLiteral "℃"))).
Definition slotPercentPattern : regex :=
  RSeq (ROptional (RSeq (RLiteral "百分之") RSpaces))
    (RSeq (RGroup (RAlt (RClass is_digit 1 3) (RClass (ContainsRune "零一二三四五六七八九十百两") 1 5)))
       (RSeq RSpaces (ROptional (RAlt (RLiteral "%") (RLiteral "％"))))).

Record normalizedSemanticValue := mkNormalizedValue { Value : text; Unit : text }.

Definition containsAny (s : text) (tokens : list text) : bool := existsb (Contains s) tokens.

Definition mode_tokens : list (text * text) :=
  combine (texts ["暖白"; "冷白"; "睡眠模式"; "观影模式"; "自动模式"; "静音"])
          (texts ["warm_white"; "cool_white"; "sleep"; "movie"; "auto"; "mute"]).

Definition detectSmartHomeNormalizedValue (s : text) : normalizedSemanticValue :=
  let s := TrimSpace s in
  if s == "" then mkNormalizedValue "" ""
  else match find (fun '(token, _) => Contains s token) mode_tokens with
  | Some (_, value) => mkNormalizedValue value "mode"
  | None =>
  if Contains s "最亮" then mkNormalizedValue "100" "percentage"
  else if Contains s "最暗" || Contains s "最小" then mkNormalizedValue "0" "percentage"
  else match (matched ← find_group slotTemperaturePattern s; parseLooseChineseNumber matched) with
  | Some value => mkNormalizedValue (Itoa value) "temperature_celsius"
  | None =>
  let percent :=
    if Contains s "%" || Contains s "％" || Contains s "百分之" || containsAny s (texts ["亮度"; "音量"])
    then matched ← find_group slotPercentPattern s; parseLooseChineseNumber matched
    else None in
  match percent with
  | Some value =>
      let value := if value <? 0 then 0 else value in
      let value := if 100 <? value then 100 else value in
      mkNormalizedValue (Itoa value) "percentage"
  | None =>
  if Contains s "大一点" || Contains s "高一点" then mkNormalizedValue "+10" "delta_percentage"
  else if Contains s "小一点" || Contains s "低一点" then mkNormalizedValue "-10" "delta_percentage"
  else mkNormalizedValue "" ""
  end end end.

(** ** Slot lists as sets *)

Definition semanticSlotListSet (values : list text) : string_set := list_to_set (normalizeSemanticSlotList values).
Definition semanticSlotListFromSet (set : string_set) : list text := sort_strings (elements set).

(** ** Normalization and the gate *)

Definition replaceable_reason (reason : text) : bool :=
  (reason == "") || (reason == "semantic_unknown") || HasPrefix reason "missing_".

Definition normalizeSemanticSlotValue (req : SemanticSlotParseRequest) (result : SemanticSlotParseResult)
    : SemanticSlotParseResult :=
  let text := TrimSpace (firstNonEmpty [sr_PartialText req; sr_StablePrefix req]) in
  if text == "" then result
  else if normalizeSemanticSlotDomain (sp_Domain result) != SemanticSlotDomainSmartHome then result
  else
    let normalized := detectSmartHomeNormalizedValue text in
    if Value normalized == "" then result
    else
      let result := result <|sp_NormalizedValue := Value normalized|> in
      let result := result <|sp_NormalizedValueUnit := Unit normalized|> in
      let missing := semanticSlotListSet (sp_MissingSlots result) in
      let result := result <|sp_MissingSlots := semanticSlotListFromSet (missing ∖ {[txt "value"]})|> in
      if (len (sp_MissingSlots result) =? 0) && (len (sp_AmbiguousSlots result) =? 0) then
        if sp_Grounded result || (sp_CanonicalTarget result != "") || (sp_CanonicalLocation result != "") then
          let result := result <|sp_SlotStatus := SemanticSlotStatusComplete|> in
          let result := if (sp_Actionability result == SemanticSlotActionabilityObserveOnly)
                           || (sp_Actionability result == SemanticSlotActionabilityDraftOK)
                           || (sp_Actionability result == SemanticSlotActionabilityClarifyNeeded)
                        then result <|sp_Actionability := SemanticSlotActionabilityActCandidate|> else result in
          let result := result <|sp_ClarifyNeeded := false|> in
          if replaceable_reason (sp_Reason result) then result <|sp_Reason := txt "value_normalized"|> else result
        else result
      else result.

Definition detectSemanticRisk (result : SemanticSlotParseResult) : text * text :=
  let riskLevel := normalizeSemanticRiskLevel (sp_RiskLevel result) in
  if riskLevel != SemanticRiskLevelUnknown then
    if riskLevel == SemanticRiskLevelHigh then (riskLevel, txt "catalog_high_risk_target")
    else if riskLevel == SemanticRiskLevelMedium then (riskLevel, txt "catalog_medium_risk_target")
    else (riskLevel, txt "catalog_low_risk_target")
  else (SemanticRiskLevelUnknown, txt "").

Definition risk_rank (level : text) : Z :=
  if level == SemanticRiskLevelLow then 1 else if level == SemanticRiskLevelMedium then 2
  else if level == SemanticRiskLevelHigh then 3 else 0.

Definition strongerSemanticRiskLevel (left right : text) : text :=
  let left := normalizeSemanticRiskLevel left in
  let right := normalizeSemanticRiskLevel right in
  if risk_rank left <? risk_rank right then right else left.

Definition applySemanticSlotRiskGating (result : SemanticSlotParseResult) : SemanticSlotParseResult :=
  let '(riskLevel, riskReason) := detectSemanticRisk result in
  if riskLevel == SemanticRiskLevelUnknown then result
  else
    let result := result <|sp_RiskLevel := strongerSemanticRiskLevel (sp_RiskLevel result) riskLevel|> in
    let result := if (sp_RiskReason result == "") || (sp_RiskReason result == "semantic_unknown")
                  then result <|sp_RiskReason := riskReason|> else result in
    if riskLevel == SemanticRiskLevelHigh then
      let result := result <|sp_RiskConfirmRequired := true|> in
      if (sp_Actionability result == SemanticSlotActionabilityActCandidate)
         || (sp_Actionability result == SemanticSlotActionabilityDraftOK) then
        let result := result <|sp_Actionability := SemanticSlotActionabilityClarifyNeeded|> in
        let result := result <|sp_ClarifyNeeded := true|> in
        if (sp_Reason result == "") || (sp_Reason result == "semantic_unknown")
           || (sp_Reason result == "catalog_target_grounded") || (sp_Reason result == "value_normalized")
        then result <|sp_Reason := riskReason|> else result
      else result
    else result.

Definition postProcessSemanticSlotResult (req : SemanticSlotParseRequest) (result : SemanticSlotParseResult)
    : SemanticSlotParseResult :=
  applySemanticSlotRiskGating (normalizeSemanticSlotValue req result).

#[global] Arguments parseLooseChineseNumber _ : simpl never.
#[global] Arguments detectSmartHomeNormalizedValue _ : simpl never.
#[global] Arguments semanticSlotListFromSet _ : simpl never.
#[global] Arguments semanticSlotListSet _ : simpl never.

(** ** Laws: numbers *)

Lemma Split_rune_parts sep s part : part ∈ Split_rune sep s -> ContainsRune part sep = false.
Proof.
  revert part. induction s as [|r s IH]; intros part; cbn [Split_rune].
  { by intros ->%list_elem_of_singleton. }
  destruct (r =? sep) eqn:E.
  { intros [->|H]%elem_of_cons; [done | by apply IH]. }
  destruct (Split_rune sep s) as [|p ps].
  { intros ->%list_elem_of_singleton. cbn. by rewrite Z.eqb_sym, E. }
  intros [->|H]%elem_of_cons; [|by apply IH; right].
  unfold ContainsRune. cbn [existsb]. rewrite Z.eqb_sym, E. apply IH. by left.
Qed.

Lemma ContainsRune_TrimSpace s r : ContainsRune s r = false -> ContainsRune (TrimSpace s) r = false.
Proof.
  destruct (TrimFunc_decompose IsSpace s) as (a & b & Hs). fold (TrimSpace s) in Hs.
  unfold ContainsRune. rewrite Hs at 1. rewrite !existsb_app. by intros [_ [H _]%orb_false_iff]%orb_false_iff.
Qed.

Lemma parse_loose_flat n raw : ContainsRune raw rune_bai = false -> parse_loose (S n) raw = parse_loose 1 raw.
Proof. intros H%ContainsRune_TrimSpace. cbn [parse_loose]. by rewrite H. Qed.

(** More fuel changes nothing: what follows the first [百] holds none. *)
Lemma parse_loose_fuel n raw : parse_loose (S (S n)) raw = parseLooseChineseNumber raw.
Proof.
  unfold parseLooseChineseNumber. cbn [parse_loose].
  destruct (TrimSpace raw == ""); [done|]. destruct (Atoi (TrimSpace raw)); [done|].
  destruct (TrimSpace raw == "十"); [done|]. destruct (ContainsRune (TrimSpace raw) rune_bai); [|done].
  pose proof (Split_rune_parts rune_bai (TrimSpace raw)) as Hp.
  destruct (Split_rune rune_bai (TrimSpace raw)) as [|before [|after parts]]; [done..|].
  specialize (Hp after ltac:(right; by left)).
  pose proof (parse_loose_flat n after Hp) as E. cbn [parse_loose] in E. by rewrite E.
Qed.

(** Every text of a given length over an alphabet. *)
Fixpoint words (alphabet : text) (n : nat) : list text :=
  match n with
  | O => [[]]
  | S n => flat_map (fun w => map (fun r => r :: w) alphabet) (words alphabet n)
  end.

Lemma words_complete alphabet c :
  Forall (fun r => ContainsRune alphabet r = true) c -> c ∈ words alphabet (length c).
Proof.
  induction 1 as [|r c Hr _ IH]; cbn [length words]; [by left|].
  apply list_elem_of_In, in_flat_map. exists c. split; [by apply list_elem_of_In|].
  apply in_map_iff. exists r. split; [done|]. apply existsb_exists in Hr as (x & Hx & ->%Z.eqb_eq). done.
Qed.

Definition ascii_digits : text := "0123456789".
Definition temperature_runes : text := "零一二三四五六七八九十两".
Definition within (lo hi : Z) (v : option Z) : bool := match v with Some n => (lo <=? n) && (n <=? hi) | None => true end.

Lemma is_digit_ascii r : is_digit r = true -> ContainsRune ascii_digits r = true.
Proof.
  unfold is_digit. intros H. bool_prop. apply existsb_exists. exists r. split; [|apply Z.eqb_refl].
  assert (Hr : In r (map (fun n => 48 + Z.of_nat n) (seq 0 10))); [|exact Hr].
  apply in_map_iff. exists (Z.to_nat (r - 48)). split; [lia|]. apply in_seq. lia.
Qed.

(** All short texts a temperature can be written with. *)
Lemma temperature_words :
  forallb (fun n => forallb (fun c => within 0 99 (parseLooseChineseNumber c)) (words ascii_digits n)) [1%nat; 2%nat] &&
  forallb (fun n => forallb (fun c => within 0 99 (parseLooseChineseNumber c)) (words temperature_runes n))
    [1%nat; 2%nat; 3%nat; 4%nat] = true.
Proof. by vm_compute. Qed.

Lemma temperature_bound s value :
  (matched ← find_group slotTemperaturePattern s; parseLooseChineseNumber matched) = Some value -> 0 <= value <= 99.
Proof.
  destruct (find_group slotTemperaturePattern s) as [c|] eqn:E; cbn [mbind option_bind]; [|done]. intros Hv.
  pose proof temperature_words as Hw. apply andb_true_iff in Hw as [Hw1 Hw2]. rewrite !forallb_forall in Hw1, Hw2.
  eapply (find_group_caught (fun c => within 0 99 (parseLooseChineseNumber c) = true)) in E.
  { rewrite Hv in E. cbn [within] in E. by bool_prop. }
  clear - Hw1 Hw2. intros t c t' H. apply seq_matches in H as (c1 & s1 & c2 & H1 & H2 & ->).
  apply groupless_matches in H2 as ->; [|done].
  apply alt_group_class_matches in H1 as (x & -> & Hx). exists x. split; [done|].
  destruct Hx as [[Hx Hl]|[Hx Hl]].
  - specialize (Hw1 (length x)). rewrite forallb_forall in Hw1. apply Hw1; [cbn; lia|].
    apply list_elem_of_In, words_complete. eapply Forall_impl; [exact Hx|apply is_digit_ascii].
  - specialize (Hw2 (length x)). rewrite forallb_forall in Hw2. apply Hw2; [cbn; lia|].
    by apply list_elem_of_In, words_complete.
Qed.

(** How a number below a thousand is said. *)
Definition digit_rune (n : Z) : text := take 1 (drop (Z.to_nat n) (txt "零一二三四五六七八九")).
Definition spoken_below_hundred (n : Z) : text :=
  if n <? 10 then digit_rune n
  else (if n / 10 =? 1 then [] else digit_rune (n / 10)) ++ txt "十" ++ (if n mod 10 =? 0 then [] else digit_rune (n mod 10)).
Definition spoken_number (n : Z) : text :=
  if n <? 100 then spoken_below_hundred n
  else digit_rune (n / 100) ++ txt "百" ++
       (let r := n mod 100 in
        if r =? 0 then [] else if r <? 10 then txt "零" ++ digit_rune r
        else if r <? 20 then txt "一" ++ spoken_below_hundred r else spoken_below_hundred r).

Lemma spoken_numbers :
  forallb (fun n => let n := Z.of_nat n in
    bool_decide (parseLooseChineseNumber (spoken_number n)
                 = if (100 <=? n) && (0 <? n mod 100) && (n mod 100 <? 10) then None else Some n)) (seq 0 1000) = true.
Proof. by vm_compute. Qed.

(** A spoken number is read back. Every number below a thousand, said the usual
    way, is read back as itself; the one exception are the numbers said with a
    [零] after the hundreds (105 and the like), which the parser does not read. *)
Theorem spoken_number_round_trip n :
  0 <= n < 1000 ->
  parseLooseChineseNumber (spoken_number n)
    = if (100 <=? n) && (0 <? n mod 100) && (n mod 100 <? 10) then None else Some n.
Proof.
  intros Hn. pose proof spoken_numbers as H. rewrite forallb_forall in H.
  specialize (H (Z.to_nat n) ltac:(apply in_seq; lia)). cbv zeta in H. rewrite Z2Nat.id in H by lia.
  by apply bool_decide_eq_true in H.
Qed.

Lemma spoken_number_round_trip_witness : 0 <= 125 < 1000 /\ parseLooseChineseNumber "一百二十五" = Some 125.
Proof. split; [lia|]. exact (spoken_number_round_trip 125 ltac:(lia)). Defined.

(** ** Laws: values *)

(** What each unit promises of the value. *)
Definition value_ok (v : normalizedSemanticValue) : Prop :=
  (Value v = [] <-> Unit v = []) /\
  (Unit v = txt "percentage" -> exists n, 0 <= n <= 100 /\ Value v = Itoa n) /\
  (Unit v = txt "temperature_celsius" -> exists n, 0 <= n <= 99 /\ Value v = Itoa n) /\
  (Unit v = txt "mode" -> Value v ∈ mode_tokens.*2) /\
  (Unit v = txt "delta_percentage" -> Value v ∈ texts ["+10"; "-10"]) /\
  Unit v ∈ texts [""; "mode"; "percentage"; "temperature_celsius"; "delta_percentage"].

Lemma digits_go_nonempty fuel n acc : digits_go (S fuel) n acc <> [].
Proof.
  revert n acc. induction fuel as [|fuel IH]; intros n acc; cbn [digits_go]; cbv zeta.
  - by destruct (n <? 10).
  - destruct (n <? 10); [done|]. apply IH.
Qed.

Lemma Itoa_nonempty n : Itoa n <> [].
Proof. unfold Itoa. destruct (n <? 0); [done|]. apply digits_go_nonempty. Qed.

Ltac unit_known := apply existsb_eqb_elem; by vm_compute.

Lemma percentage_ok n : 0 <= n <= 100 -> value_ok (mkNormalizedValue (Itoa n) "percentage").
Proof.
  intros Hn. unfold value_ok. cbn [Value Unit]. split; [split; [by intros H%Itoa_nonempty|done]|].
  split; [intros _; by exists n|]. repeat (split; [done|]). unit_known.
Qed.

Lemma temperature_ok n : 0 <= n <= 99 -> value_ok (mkNormalizedValue (Itoa n) "temperature_celsius").
Proof.
  intros Hn. unfold value_ok. cbn [Value Unit]. split; [split; [by intros H%Itoa_nonempty|done]|].
  split; [done|]. split; [intros _; by exists n|]. repeat (split; [done|]). unit_known.
Qed.

Lemma mode_ok value : value ∈ mode_tokens.*2 -> value_ok (mkNormalizedValue value "mode").
Proof.
  intros H. unfold value_ok. cbn [Value Unit]. split.
  - split; [|done]. intros ->. by apply existsb_eqb_elem in H.
  - repeat (split; [done|]). unit_known.
Qed.

Lemma delta_ok value : value ∈ texts ["+10"; "-10"] -> value_ok (mkNormalizedValue value "delta_percentage").
Proof.
  intros H. unfold value_ok. cbn [Value Unit]. split.
  - split; [|done]. intros ->. by apply existsb_eqb_elem in H.
  - repeat (split; [done|]). unit_known.
Qed.

Lemma no_value_ok : value_ok (mkNormalizedValue "" "").
Proof. unfold value_ok. cbn [Value Unit]. split; [done|]. repeat (split; [done|]). by left. Qed.

(** A detected value is in the range of its unit. Whatever was said, a
    percentage lies between 0 and 100, a temperature between 0 and 99 degrees, a
    mode and a relative step come from their closed tables, and a value has a unit
    exactly when there is one. *)
Theorem detected_value_ranges s : value_ok (detectSmartHomeNormalizedValue s).
Proof.
  unfold detectSmartHomeNormalizedValue. cbv zeta. set (x := TrimSpace s). clearbody x.
  split_if; [apply no_value_ok|].
  destruct (find _ mode_tokens) as [[token value]|] eqn:E.
  { apply find_some in E as [E _]. apply mode_ok, list_elem_of_fmap. exists (token, value).
    split; [done|]. by apply list_elem_of_In. }
  split_if; [apply (percentage_ok 100); lia|]. split_if; [apply (percentage_ok 0); lia|].
  destruct (find_group slotTemperaturePattern x ≫= parseLooseChineseNumber) as [value|] eqn:Et.
  { by apply temperature_ok, (temperature_bound x). }
  set (percent := if _ || _ then _ else _). clearbody percent. destruct percent as [value|].
  { apply percentage_ok. repeat split_if; bool_prop; lia. }
  split_if; [apply delta_ok; by left|]. split_if; [apply delta_ok; right; by left|]. apply no_value_ok.
Qed.

(** A relative adjustment that names what it adjusts is read as one percent:
    [亮度] or [音量] makes the percentage pattern apply, whose unit mark is optional,
    and the numeral of [一点] matches it. Without the name the step is read. *)
Theorem relative_step_read_as_one_percent :
  forallb (fun attribute => forallb (fun step =>
      let v := detectSmartHomeNormalizedValue (attribute ++ step) in
      let w := detectSmartHomeNormalizedValue step in
      (Value v == "1") && (Unit v == "percentage") && (Unit w == "delta_percentage"))
    (texts ["大一点"; "高一点"; "小一点"; "低一点"])) (texts ["亮度"; "音量"; "把亮度调"; "音量再"]) = true /\
  detectSmartHomeNormalizedValue "一楼的灯亮度调到50%" = mkNormalizedValue "1" "percentage".
Proof. by vm_compute. Qed.

(** ** Laws: risk *)

Lemma risk_level_known v : normalizeSemanticRiskLevel v ∈ SemanticRiskLevelUnknown :: risk_levels.
Proof.
  apply elem_of_cons. destruct (normalize_to_range risk_levels SemanticRiskLevelUnknown v) as [H|H]; [by right | by left].
Qed.

Lemma risk_level_idemp v : normalizeSemanticRiskLevel (normalizeSemanticRiskLevel v) = normalizeSemanticRiskLevel v.
Proof. by apply normalize_to_idemp. Qed.

(** The stronger level has the larger rank. *)
Lemma stronger_rank left right :
  let s := strongerSemanticRiskLevel left right in
  normalizeSemanticRiskLevel s = s /\
  risk_rank s = Z.max (risk_rank (normalizeSemanticRiskLevel left)) (risk_rank (normalizeSemanticRiskLevel right)).
Proof.
  cbv zeta. unfold strongerSemanticRiskLevel. cbv zeta. split_if; bool_prop; (split; [apply risk_level_idemp | lia]).
Qed.

Lemma stronger_same level : strongerSemanticRiskLevel level (normalizeSemanticRiskLevel level) = normalizeSemanticRiskLevel level.
Proof. unfold strongerSemanticRiskLevel. cbv zeta. rewrite risk_level_idemp. by rewrite Z.ltb_irrefl. Qed.

Definition high_risk (r : SemanticSlotParseResult) : Prop :=
  normalizeSemanticRiskLevel (sp_RiskLevel r) = SemanticRiskLevelHigh.
Definition gated (r : SemanticSlotParseResult) : Prop :=
  sp_RiskConfirmRequired r = true /\ sp_Actionability r <> SemanticSlotActionabilityActCandidate /\
  sp_Actionability r <> SemanticSlotActionabilityDraftOK /\
  (sp_RiskReason r <> [] /\ sp_RiskReason r <> txt "semantic_unknown").

Lemma detect_risk_level r : (detectSemanticRisk r).1 = normalizeSemanticRiskLevel (sp_RiskLevel r).
Proof.
  unfold detectSemanticRisk. cbv zeta. repeat split_if; cbn [fst]; try done.
  bool_prop. by text_prop.
Qed.

Lemma gate_keeps_level r :
  normalizeSemanticRiskLevel (sp_RiskLevel (applySemanticSlotRiskGating r)) = normalizeSemanticRiskLevel (sp_RiskLevel r).
Proof.
  unfold applySemanticSlotRiskGating. pose proof (detect_risk_level r) as Hd.
  destruct (detectSemanticRisk r) as [level reason]. cbn [fst] in Hd. subst level. cbv zeta.
  split_if; [done|]. repeat (split_if; read_fields); rewrite stronger_same; apply risk_level_idemp.
Qed.

(** The two steps of the gate for a high level. *)
Definition with_risk_reason (reason : text) (r : SemanticSlotParseResult) : SemanticSlotParseResult :=
  if (sp_RiskReason r == "") || (sp_RiskReason r == "semantic_unknown") then r <|sp_RiskReason := reason|> else r.

Lemma with_risk_reason_named reason r :
  reason <> [] -> reason <> txt "semantic_unknown" ->
  sp_RiskReason (with_risk_reason reason r) <> [] /\ sp_RiskReason (with_risk_reason reason r) <> txt "semantic_unknown" /\
  sp_Actionability (with_risk_reason reason r) = sp_Actionability r.
Proof.
  intros H1 H2. unfold with_risk_reason. split_if; read_fields; [done|]. bool_prop. by text_prop.
Qed.

Lemma gate_gates r : high_risk r -> gated (applySemanticSlotRiskGating r).
Proof.
  unfold high_risk, gated, applySemanticSlotRiskGating, detectSemanticRisk. intros ->.
  change (SemanticRiskLevelHigh == SemanticRiskLevelUnknown) with false. cbn [negb]. rewrite text_eqb_refl. cbv zeta.
  change (SemanticRiskLevelHigh == SemanticRiskLevelUnknown) with false. rewrite text_eqb_refl. cbv iota.
  set (r1 := r <|sp_RiskLevel := _|>).
  change (if (sp_RiskReason r1 == "") || _ then _ else r1) with (with_risk_reason (txt "catalog_high_risk_target") r1).
  destruct (with_risk_reason_named (txt "catalog_high_risk_target") r1 ltac:(by vm_compute) ltac:(by vm_compute)) as (H1 & H2 & _).
  generalize dependent (with_risk_reason (txt "catalog_high_risk_target") r1). clear r1. intros r2 H1 H2.
  destruct ((sp_Actionability _ == _) || _) eqn:E; read_fields_in E.
  - assert (H3 : SemanticSlotActionabilityClarifyNeeded <> SemanticSlotActionabilityActCandidate) by (by vm_compute).
    assert (H4 : SemanticSlotActionabilityClarifyNeeded <> SemanticSlotActionabilityDraftOK) by (by vm_compute).
    split_if; read_fields; (split; [reflexivity|]); (split; [exact H3|]); (split; [exact H4|]); split; assumption.
  - apply orb_false_iff in E as [E3 E4]. apply text_eqb_false in E3, E4. read_fields.
    split; [reflexivity|]. split; [exact E3|]. split; [exact E4|]. split; assumption.
Qed.

Lemma value_keeps_risk req r : sp_RiskLevel (normalizeSemanticSlotValue req r) = sp_RiskLevel r.
Proof. unfold normalizeSemanticSlotValue. cbv zeta. repeat (split_if; read_fields; try done). Qed.

Lemma post_process_level req r :
  normalizeSemanticRiskLevel (sp_RiskLevel (postProcessSemanticSlotResult req r)) = normalizeSemanticRiskLevel (sp_RiskLevel r).
Proof. unfold postProcessSemanticSlotResult. by rewrite gate_keeps_level, value_keeps_risk. Qed.

Lemma risky_gate req r : high_risk (postProcessSemanticSlotResult req r) -> gated (postProcessSemanticSlotResult req r).
Proof.
  unfold high_risk. rewrite post_process_level. intros H. apply gate_gates. unfold high_risk. by rewrite value_keeps_risk.
Qed.

(** A risky target waits for a confirmation. Whatever the model answered and
    whatever value was said, a result whose risk level is high leaves the
    post-processing with the confirmation required, a reason for it, and neither
    as an act candidate nor as a draft; and post-processing never changes the
    level. *)
Theorem risky_targets_wait req r :
  let p := postProcessSemanticSlotResult req r in
  normalizeSemanticRiskLevel (sp_RiskLevel p) = normalizeSemanticRiskLevel (sp_RiskLevel r) /\
  (normalizeSemanticRiskLevel (sp_RiskLevel p) = SemanticRiskLevelHigh -> gated p).
Proof. split; [apply post_process_level | apply risky_gate]. Qed.
