(* ===== verification/EntityCatalog.v ===== *)
(** * The entity catalogue (internal/voice/entity_catalog.go)

    The rooms, devices and applications the runtime knows, and how it finds their
    names and aliases in what was said: every text is compared without case, white
    space and punctuation, the longest name of an entity that occurs counts, and of
    several matches of an entity the best is kept. Grounding is in
    EntityGrounding.v. *)

From stdpp Require Import sorting.
From S2P Require Import Prelude GoText GoOrder GoUnicode GoFloat Contracts Lexical Vocabulary.
From S2P Require Import TurnDetector BargeIn Playback Semantic SlotValues.

Definition entityNamespaceSmartHome : text := "smart_home".
Definition entityNamespaceDesktopAssistant : text := "desktop_assistant".
Definition entityTypeRoom : text := "room".
Definition entityTypeDevice : text := "device".
Definition entityTypeDeviceGroup : text := "device_group".
Definition entityTypeApp : text := "app".

(** ** The catalogue *)

Record EntityCatalogItem := mkItem {
  EntityID : text;
  Namespace : text;
  EntityType : text;
  CanonicalName : text;
  RoomID : text;
  DeviceGroup : text;
  RiskLevel : text;
  Aliases : list text;
  CommonMisrecognitions : list text
}.

Definition cloneStringSlice (values : list text) : list text :=
  List.filter (fun v => v != "") (map TrimSpace values).

Definition trimmed_item (item : EntityCatalogItem) : EntityCatalogItem :=
  mkItem (TrimSpace (EntityID item)) (TrimSpace (Namespace item)) (TrimSpace (EntityType item))
    (TrimSpace (CanonicalName item)) (TrimSpace (RoomID item)) (TrimSpace (DeviceGroup item))
    (normalizeSemanticRiskLevel (RiskLevel item)) (cloneStringSlice (Aliases item))
    (cloneStringSlice (CommonMisrecognitions item)).

Definition EntityCatalog : Type := list EntityCatalogItem.

Definition NewEntityCatalog (items : list EntityCatalogItem) : EntityCatalog :=
  List.filter (fun trimmed => negb ((EntityID trimmed == "") || (Namespace trimmed == "")
                               || (EntityType trimmed == "") || (CanonicalName trimmed == "")))
    (map trimmed_item items).

Definition itemByID (c : EntityCatalog) (entityID : text) : option EntityCatalogItem :=
  let entityID := TrimSpace entityID in
  if entityID == "" then None else find (fun item => EntityID item == entityID) c.

Definition DefaultSeedEntityCatalog : EntityCatalog := NewEntityCatalog [
   mkItem "room_living_room" entityNamespaceSmartHome entityTypeRoom "客厅" "" "" "" (texts ["客厅"; "大厅"]) [];
   mkItem "room_study" entityNamespaceSmartHome entityTypeRoom "书房" "" "" "" (texts ["书房"]) [];
   mkItem "room_bedroom" entityNamespaceSmartHome entityTypeRoom "卧室" "" "" "" (texts ["卧室"; "主卧"]) [];
   mkItem "device_group_living_room_light" entityNamespaceSmartHome entityTypeDeviceGroup "客厅灯" "room_living_room" "light" "" (texts ["客厅灯"; "客厅主灯"; "灯"]) [];
   mkItem "device_living_room_downlight" entityNamespaceSmartHome entityTypeDevice "客厅筒灯" "room_living_room" "light" "" (texts ["客厅筒灯"; "筒灯"]) (texts ["同灯"]);
   mkItem "device_group_study_light" entityNamespaceSmartHome entityTypeDeviceGroup "书房灯" "room_study" "light" "" (texts ["书房灯"; "台灯"; "灯"]) [];
   mkItem "device_group_living_room_air_conditioner" entityNamespaceSmartHome entityTypeDeviceGroup "客厅空调" "room_living_room" "air_conditioner" "" (texts ["客厅空调"; "空调"]) [];
   mkItem "device_group_bedroom_air_conditioner" entityNamespaceSmartHome entityTypeDeviceGroup "卧室空调" "room_bedroom" "air_conditioner" "" (texts ["卧室空调"; "主卧空调"; "空调"]) [];
   mkItem "device_group_living_room_curtain" entityNamespaceSmartHome entityTypeDeviceGroup "客厅窗帘" "room_living_room" "curtain" "" (texts ["客厅窗帘"; "窗帘"]) [];
   mkItem "device_group_study_curtain" entityNamespaceSmartHome entityTypeDeviceGroup "书房窗帘" "room_study" "curtain" "" (texts ["书房窗帘"; "窗帘"]) [];
   mkItem "device_group_entry_door_lock" entityNamespaceSmartHome entityTypeDeviceGroup "入户门锁" "" "door_lock" SemanticRiskLevelHigh (texts ["入户门锁"; "门锁"; "大门锁"]) [];
   mkItem "app_vscode" entityNamespaceDesktopAssistant entityTypeApp "Visual Studio Code" "" "" "" (texts ["vscode"; "vs code"; "visual studio code"; "代码编辑器"]) [];
   mkItem "app_browser" entityNamespaceDesktopAssistant entityTypeApp "浏览器" "" "" "" (texts ["浏览器"; "chrome"; "谷歌浏览器"]) [];
   mkItem "app_terminal" entityNamespaceDesktopAssistant entityTypeApp "终端" "" "" "" (texts ["终端"; "terminal"; "命令行"]) []].

(** ** Matching names *)

Definition normalizeEntityCatalogText (value : text) : text :=
  let value := TrimSpace (ToLower value) in
  List.filter (fun r => negb (IsSpace r || IsPunct r || IsSymbol r)) value.

Record entityCatalogMatch := mkMatch {
  Item : EntityCatalogItem;
  Alias : text;
  AliasLen : Z;
  Score : Z
}.

Definition entityCatalogCandidates (item : EntityCatalogItem) : list text :=
  [CanonicalName item] ++ Aliases item ++ CommonMisrecognitions item.

Definition bestEntityCatalogAlias (item : EntityCatalogItem) (normalizedText : text) : text * Z :=
  fold_left (fun '(bestAlias, bestLen) candidate =>
      let normalized := normalizeEntityCatalogText candidate in
      if (normalized == "") || negb (Contains normalizedText normalized) then (bestAlias, bestLen)
      else if bestLen <? len normalized then (candidate, len normalized) else (bestAlias, bestLen))
    (entityCatalogCandidates item) (txt "", 0).

(** The order of the two [sort.Slice] calls. *)
Definition match_le (a b : entityCatalogMatch) : Prop :=
  if Score a =? Score b then
    if AliasLen a =? AliasLen b then text_le (EntityID (Item a)) (EntityID (Item b))
    else AliasLen b < AliasLen a
  else Score b < Score a.
#[export] Instance match_le_dec : RelDecision match_le.
Proof. intros a b. unfold match_le. destruct (Score a =? Score b), (AliasLen a =? AliasLen b); apply _. Defined.

Definition sort_matches (matches : list entityCatalogMatch) : list entityCatalogMatch := merge_sort match_le matches.

(** [bestByID], and its values in whatever order the map gives them. *)
Definition best_by_id (matches : list entityCatalogMatch) : gmap text entityCatalogMatch :=
  fold_left (fun (best : gmap text entityCatalogMatch) m =>
      match best !! EntityID (Item m) with
      | Some current => if AliasLen current <? AliasLen m then <[EntityID (Item m) := m]> best else best
      | None => <[EntityID (Item m) := m]> best
      end) matches ∅.

Definition dedupeCatalogMatches (matches : list entityCatalogMatch) : list entityCatalogMatch :=
  if len matches <=? 1 then matches else sort_matches (map_to_list (best_by_id matches)).*2.

Definition matchEntities (c : EntityCatalog) (s namespace : text) (entityTypes : list text) : list entityCatalogMatch :=
  let normalizedText := normalizeEntityCatalogText s in
  if normalizedText == "" then []
  else
    let allowedTypes := map TrimSpace entityTypes in
    let matches := omap (fun item =>
        if Namespace item != namespace then None
        else if negb (existsb (text_eqb (EntityType item)) allowedTypes) then None
        else let '(alias, aliasLen) := bestEntityCatalogAlias item normalizedText in
             if alias == "" then None else Some (mkMatch item alias aliasLen 0)) c in
    dedupeCatalogMatches matches.

Definition mostSpecificCatalogMatches (matches : list entityCatalogMatch) : list entityCatalogMatch :=
  if len matches <=? 1 then matches
  else
    let maxAliasLen := fold_left (fun longest m => if longest <? AliasLen m then AliasLen m else longest) matches 0 in
    if maxAliasLen =? 0 then matches else List.filter (fun m => AliasLen m =? maxAliasLen) matches.

Definition filterCatalogMatchesByRoom (matches : list entityCatalogMatch) (roomID : text) : list entityCatalogMatch :=
  if (roomID == "") || (len matches =? 0) then matches
  else List.filter (fun m => TrimSpace (RoomID (Item m)) == roomID) matches.

Definition singleCatalogMatch (matches : list entityCatalogMatch) : option EntityCatalogItem * bool :=
  match matches with
  | [] => (None, false)
  | [m] => (Some (Item m), false)
  | _ => (None, true)
  end.

#[global] Arguments normalizeEntityCatalogText _ : simpl never.
#[global] Arguments dedupeCatalogMatches _ : simpl never.
#[global] Arguments sort_matches _ : simpl never.
#[global] Arguments matchEntities _ _ _ _ : simpl never.

(** ** Laws: the order of matches *)

Lemma match_le_total a b : match_le a b \/ match_le b a.
Proof.
  unfold match_le. rewrite (Z.eqb_sym (Score b)), (Z.eqb_sym (AliasLen b)).
  destruct (Score a =? Score b) eqn:E1; [destruct (AliasLen a =? AliasLen b) eqn:E2|]; bool_prop; try lia.
  apply (total text_le).
Qed.
#[export] Instance match_le_Total : Total match_le := match_le_total.

#[export] Instance match_le_Transitive : Transitive match_le.
Proof.
  intros a b c. unfold match_le.
  destruct (Score a =? Score b) eqn:E1, (Score b =? Score c) eqn:E2, (Score a =? Score c) eqn:E3; bool_prop; try lia.
  destruct (AliasLen a =? AliasLen b) eqn:F1, (AliasLen b =? AliasLen c) eqn:F2, (AliasLen a =? AliasLen c) eqn:F3;
    bool_prop; try lia.
  apply transitivity.
Qed.

Lemma match_le_antisymm a b : match_le a b -> match_le b a -> EntityID (Item a) = EntityID (Item b).
Proof.
  unfold match_le. rewrite (Z.eqb_sym (Score b)), (Z.eqb_sym (AliasLen b)).
  destruct (Score a =? Score b) eqn:E1; [destruct (AliasLen a =? AliasLen b) eqn:E2|]; bool_prop; try lia.
  apply (anti_symm text_le).
Qed.

Definition match_ids (ms : list entityCatalogMatch) : list text := map (fun m => EntityID (Item m)) ms.

Lemma match_ids_inj ms m m' : NoDup (match_ids ms) -> m ∈ ms -> m' ∈ ms -> EntityID (Item m) = EntityID (Item m') -> m = m'.
Proof.
  intros Hn [i Hi]%list_elem_of_lookup [j Hj]%list_elem_of_lookup E.
  assert (i = j) as ->; [|congruence].
  eapply NoDup_lookup; [exact Hn|..]; unfold match_ids; rewrite list_lookup_fmap.
  - by rewrite Hi.
  - rewrite Hj. cbn. by rewrite E.
Qed.

Lemma sort_matches_permutation ms : sort_matches ms ≡ₚ ms.
Proof. apply merge_sort_Permutation. Qed.

Lemma sort_matches_sorted ms : StronglySorted match_le (sort_matches ms).
Proof. apply (StronglySorted_merge_sort match_le). Qed.

Lemma sort_matches_length ms : length (sort_matches ms) = length ms.
Proof. apply Permutation_length, sort_matches_permutation. Qed.

Lemma elem_of_sort_matches m ms : m ∈ sort_matches ms <-> m ∈ ms.
Proof. by rewrite sort_matches_permutation. Qed.

(** Sorting matches of distinct entities has one result: the order a map hands
    them out in does not matter. *)
Lemma sort_matches_unique ms ms' : NoDup (match_ids ms) -> ms ≡ₚ ms' -> sort_matches ms = sort_matches ms'.
Proof.
  intros Hn Hp. apply (StronglySorted_unique_strong match_le); try apply sort_matches_sorted.
  - intros a b Ha Hb Hab Hba. rewrite sort_matches_permutation in Ha. rewrite sort_matches_permutation, <- Hp in Hb.
    apply (match_ids_inj ms); [done..|by apply match_le_antisymm].
  - by rewrite !sort_matches_permutation.
Qed.

(** ** Laws: the best match of each entity *)

Lemma best_by_id_spec ms id :
  match best_by_id ms !! id with
  | Some m => m ∈ ms /\ EntityID (Item m) = id /\ forall m', m' ∈ ms -> EntityID (Item m') = id -> AliasLen m' <= AliasLen m
  | None => forall m', m' ∈ ms -> EntityID (Item m') <> id
  end.
Proof.
  unfold best_by_id. induction ms as [|m ms IH] using rev_ind.
  { cbn [fold_left]. rewrite lookup_empty. intros m' Hm. by apply not_elem_of_nil in Hm. }
  rewrite fold_left_app. cbn [fold_left]. set (best := fold_left _ ms ∅) in *. clearbody best.
  destruct (decide (EntityID (Item m) = id)) as [<-|Hne].
  - destruct (best !! EntityID (Item m)) as [cur|] eqn:E.
    + destruct IH as (Hin & Hid & Hmax). destruct (AliasLen cur <? AliasLen m) eqn:El; bool_prop.
      * rewrite lookup_insert_eq. split; [apply elem_of_app; right; by left|]. split; [done|].
        intros m' [Hm'| ->%list_elem_of_singleton]%elem_of_app Heq; [|lia]. specialize (Hmax m' Hm' Heq). lia.
      * rewrite E. split; [apply elem_of_app; by left|]. split; [done|].
        intros m' [Hm'| ->%list_elem_of_singleton]%elem_of_app Heq; [by apply Hmax|lia].
    + rewrite lookup_insert_eq. split; [apply elem_of_app; right; by left|]. split; [done|].
      intros m' [Hm'| ->%list_elem_of_singleton]%elem_of_app Heq; [by destruct (IH m' Hm')|lia].
  - assert (Hl : (match best !! EntityID (Item m) with
        | Some current => if AliasLen current <? AliasLen m then <[EntityID (Item m) := m]> best else best
        | None => <[EntityID (Item m) := m]> best end) !! id = best !! id).
    { destruct (best !! EntityID (Item m)); [destruct (_ <? _)|]; try done; by apply lookup_insert_ne. }
    rewrite Hl. destruct (best !! id) as [cur|].
    + destruct IH as (Hin & Hid & Hmax). split; [apply elem_of_app; by left|]. split; [done|].
      intros m' [Hm'| ->%list_elem_of_singleton]%elem_of_app Heq; [by apply Hmax|done].
    + intros m' [Hm'| ->%list_elem_of_singleton]%elem_of_app; [by apply IH|done].
Qed.

Lemma best_values_ids ms : match_ids (map_to_list (best_by_id ms)).*2 = (map_to_list (best_by_id ms)).*1.
Proof.
  unfold match_ids. change (map ?f ?l) with (f <$> l). rewrite <- list_fmap_compose.
  apply list_fmap_ext. intros i [id m] Hi. cbn.
  apply list_elem_of_lookup_2, elem_of_map_to_list in Hi.
  pose proof (best_by_id_spec ms id) as H. rewrite Hi in H. by destruct H as (_ & H & _).
Qed.

Lemma best_values_nodup ms : NoDup (match_ids (map_to_list (best_by_id ms)).*2).
Proof. rewrite best_values_ids. apply NoDup_fst_map_to_list. Qed.

Lemma elem_of_best_values ms m : m ∈ (map_to_list (best_by_id ms)).*2 <-> best_by_id ms !! EntityID (Item m) = Some m.
Proof.
  rewrite list_elem_of_fmap. split.
  - intros ([id m'] & -> & H%elem_of_map_to_list). cbn. pose proof (best_by_id_spec ms id) as Hs. rewrite H in Hs.
    by destruct Hs as (_ & -> & _).
  - intros H. exists (EntityID (Item m), m). split; [done|]. by apply elem_of_map_to_list.
Qed.

(** ** Laws: mentions *)

(** A name is said when its normal form occurs in the normal form of the text. *)
Definition said (normalizedText candidate : text) : bool :=
  let normalized := normalizeEntityCatalogText candidate in
  (normalized != "") && Contains normalizedText normalized.
Definition name_length (candidate : text) : Z := len (normalizeEntityCatalogText candidate).

Lemma said_length nt candidate : said nt candidate = true -> 0 < name_length candidate.
Proof.
  unfold said, name_length. cbv zeta. intros [H _]%andb_true_iff. apply negb_true_iff, text_eqb_false in H.
  by apply len_pos.
Qed.

Lemma said_nonempty nt candidate : said nt candidate = true -> candidate <> [].
Proof. intros H ->. by apply said_length in H. Qed.

(** The longest name said, and the first of several. *)
Lemma best_alias_spec item nt :
  let '(alias, n) := bestEntityCatalogAlias item nt in
  (alias = [] /\ n = 0 /\ Forall (fun c => said nt c = false) (entityCatalogCandidates item)) \/
  (alias ∈ entityCatalogCandidates item /\ said nt alias = true /\ n = name_length alias /\
   Forall (fun c => said nt c = true -> name_length c <= n) (entityCatalogCandidates item)).
Proof.
  unfold bestEntityCatalogAlias. induction (entityCatalogCandidates item) as [|c cs IH] using rev_ind; [by left|].
  rewrite fold_left_app. cbn [fold_left]. destruct (fold_left _ cs _) as [alias n]. cbv zeta.
  assert (Hs : (normalizeEntityCatalogText c == "") || negb (Contains nt (normalizeEntityCatalogText c)) = negb (said nt c))
    by (unfold said; cbv zeta; by rewrite negb_andb, negb_involutive).
  rewrite Hs. fold (name_length c). destruct (said nt c) eqn:E; cbn [negb].
  - pose proof (said_length nt c E) as Hp. destruct (n <? name_length c) eqn:El; bool_prop.
    + right. split; [apply elem_of_app; right; by left|]. split; [done|]. split; [done|]. apply Forall_app. split; [|by repeat constructor].
      destruct IH as [(-> & -> & IH)|(_ & _ & _ & IH)]; eapply Forall_impl; try exact IH; cbn; intros x Hx.
      * by rewrite Hx.
      * intros Hy. specialize (Hx Hy). lia.
    + destruct IH as [(-> & -> & IH)|(H1 & H2 & H3 & IH)]; [lia|]. right.
      split; [apply elem_of_app; by left|]. split; [done|]. split; [done|]. apply Forall_app. split; [done|by repeat constructor].
  - destruct IH as [(-> & -> & IH)|(H1 & H2 & H3 & IH)]; [left|right].
    + split; [done|]. split; [done|]. apply Forall_app. by repeat constructor.
    + split; [apply elem_of_app; by left|]. split; [done|]. split; [done|]. apply Forall_app. split; [done|].
      repeat constructor. by rewrite E.
Qed.

Lemma best_alias_none item nt : (bestEntityCatalogAlias item nt).1 = [] <-> Forall (fun c => said nt c = false) (entityCatalogCandidates item).
Proof.
  pose proof (best_alias_spec item nt) as H. destruct (bestEntityCatalogAlias item nt) as [alias n]. cbn [fst].
  destruct H as [(-> & _ & H)|(Hin & Hs & _)]; [done|]. split.
  - intros ->. by apply said_nonempty in Hs.
  - intros Hall. rewrite Forall_forall in Hall. by rewrite (Hall alias Hin) in Hs.
Qed.

(** What makes a match: the item is in reach, and its longest name said is the
    alias. *)
Record mentioned (c : EntityCatalog) (nt namespace : text) (types : list text) (m : entityCatalogMatch) : Prop := {
  mt_item : Item m ∈ c;
  mt_namespace : Namespace (Item m) = namespace;
  mt_type : EntityType (Item m) ∈ map TrimSpace types;
  mt_score : Score m = 0;
  mt_alias : Alias m ∈ entityCatalogCandidates (Item m);
  mt_said : said nt (Alias m) = true;
  mt_length : AliasLen m = name_length (Alias m);
  mt_longest : Forall (fun x => said nt x = true -> name_length x <= AliasLen m) (entityCatalogCandidates (Item m))
}.

Definition raw_matches (c : EntityCatalog) (nt namespace : text) (types : list text) : list entityCatalogMatch :=
  omap (fun item =>
      if Namespace item != namespace then None
      else if negb (existsb (text_eqb (EntityType item)) (map TrimSpace types)) then None
      else let '(alias, aliasLen) := bestEntityCatalogAlias item nt in
           if alias == "" then None else Some (mkMatch item alias aliasLen 0)) c.

Lemma matchEntities_raw c s namespace types :
  matchEntities c s namespace types
    = if normalizeEntityCatalogText s == "" then []
      else dedupeCatalogMatches (raw_matches c (normalizeEntityCatalogText s) namespace types).
Proof. reflexivity. Qed.

Lemma raw_matches_sound c nt namespace types m : m ∈ raw_matches c nt namespace types -> mentioned c nt namespace types m.
Proof.
  intros (item & Hin & H)%list_elem_of_omap. destruct (Namespace item == namespace) eqn:E1; [cbn [negb] in H|done].
  destruct (existsb _ _) eqn:E2; [cbn [negb] in H|done].
  pose proof (best_alias_spec item nt) as Hs. destruct (bestEntityCatalogAlias item nt) as [alias n].
  destruct (alias == "") eqn:E3; [done|]. injection H as <-. text_prop.
  destruct Hs as [(-> & _)|(H1 & H2 & H3 & H4)]; [done|]. apply existsb_eqb_elem in E2. by split.
Qed.

Lemma raw_matches_complete c nt namespace types item :
  item ∈ c -> Namespace item = namespace -> EntityType item ∈ map TrimSpace types ->
  Exists (fun x => said nt x = true) (entityCatalogCandidates item) ->
  exists m, m ∈ raw_matches c nt namespace types /\ Item m = item.
Proof.
  intros Hin Hn Ht Hs. pose proof (best_alias_none item nt) as Hb.
  destruct (bestEntityCatalogAlias item nt) as [alias n] eqn:E. cbn [fst] in Hb.
  exists (mkMatch item alias n 0). split; [|done]. apply list_elem_of_omap. exists item. split; [done|].
  rewrite Hn, text_eqb_refl. apply existsb_eqb_elem in Ht as ->. rewrite E. cbn [negb].
  assert ((alias == "") = false) as ->; [|done]. apply text_eqb_false. intros ->.
  apply Exists_exists in Hs as (x & Hx & Hsx). apply proj1 in Hb. specialize (Hb eq_refl).
  rewrite Forall_forall in Hb. by rewrite (Hb x Hx) in Hsx.
Qed.

Lemma dedupe_sound ms m : m ∈ dedupeCatalogMatches ms -> m ∈ ms.
Proof.
  unfold dedupeCatalogMatches. split_if; [done|]. rewrite sort_matches_permutation, elem_of_best_values.
  intros H. pose proof (best_by_id_spec ms (EntityID (Item m))) as Hs. rewrite H in Hs. by destruct Hs.
Qed.

Lemma dedupe_complete ms m :
  m ∈ ms -> exists m', m' ∈ dedupeCatalogMatches ms /\ EntityID (Item m') = EntityID (Item m) /\ AliasLen m <= AliasLen m'.
Proof.
  intros Hm. unfold dedupeCatalogMatches. split_if; [by exists m|].
  pose proof (best_by_id_spec ms (EntityID (Item m))) as Hs.
  destruct (best_by_id ms !! EntityID (Item m)) as [m'|] eqn:E; [|by destruct (Hs m Hm)].
  destruct Hs as (H1 & H2 & H3). exists m'. rewrite sort_matches_permutation, elem_of_best_values, H2. by auto.
Qed.

Lemma dedupe_nodup ms : NoDup (match_ids (dedupeCatalogMatches ms)).
Proof.
  unfold dedupeCatalogMatches. split_if; bool_prop.
  - destruct ms as [|m [|m' ms]]; [apply NoDup_nil_2 | apply NoDup_singleton |]. unfold len in *. cbn in *. lia.
  - unfold match_ids. change (map ?f ?l) with (f <$> l). rewrite sort_matches_permutation. apply best_values_nodup.
Qed.

(** An item of the catalogue, in reach, that the text mentions. *)
Definition mentions (c : EntityCatalog) (s namespace : text) (types : list text) (item : EntityCatalogItem) : Prop :=
  item ∈ c /\ Namespace item = namespace /\ EntityType item ∈ map TrimSpace types /\
  Exists (fun x => said (normalizeEntityCatalogText s) x = true) (entityCatalogCandidates item).

Lemma matchEntities_mentioned c s namespace types m :
  m ∈ matchEntities c s namespace types -> mentioned c (normalizeEntityCatalogText s) namespace types m.
Proof.
  rewrite matchEntities_raw. split_if; [by intros H%not_elem_of_nil|]. by intros H%dedupe_sound%raw_matches_sound.
Qed.

(** Every mention is found, once. The matches of a text are the items of the
    catalogue of the asked kind one of whose names occurs in it; each entity is
    matched once, by the longest of its names that occurs. *)
Theorem mentions_are_found c s namespace types :
  let ms := matchEntities c s namespace types in
  NoDup (match_ids ms) /\
  Forall (mentioned c (normalizeEntityCatalogText s) namespace types) ms /\
  (forall item, mentions c s namespace types item ->
     exists m, m ∈ ms /\ EntityID (Item m) = EntityID item /\
       Forall (fun x => said (normalizeEntityCatalogText s) x = true -> name_length x <= AliasLen m)
         (entityCatalogCandidates item)).
Proof.
  cbv zeta. split.
  { rewrite matchEntities_raw. split_if; [apply NoDup_nil_2 | apply dedupe_nodup]. }
  split; [apply Forall_forall; intros m; apply matchEntities_mentioned|].
  intros item (Hin & Hn & Ht & Hs). rewrite matchEntities_raw.
  destruct (normalizeEntityCatalogText s == "") eqn:E.
  - exfalso. text_prop. rewrite E in Hs. apply Exists_exists in Hs as (x & _ & Hx). unfold said in Hx. cbv zeta in Hx.
    apply andb_true_iff in Hx as [Hx1 Hx2]. destruct (normalizeEntityCatalogText x) as [|r n]; [done|].
    by vm_compute in Hx2.
  - destruct (raw_matches_complete c (normalizeEntityCatalogText s) namespace types item Hin Hn Ht Hs) as (m & Hm & <-).
    destruct (dedupe_complete _ _ Hm) as (m' & Hm' & Hid & Hlen). exists m'. split; [done|]. split; [done|].
    apply raw_matches_sound in Hm as [_ _ _ _ _ _ _ Hl]. eapply Forall_impl; [exact Hl|]. cbn. intros x Hx Hsx.
    specialize (Hx Hsx). lia.
Qed.

(** Reading a map gives no order away. The deduplicated matches do not depend on
    the order in which the map hands out the best matches: they are sorted, hold
    each entity once, and any enumeration of the map sorts to the same list. *)
Theorem dedupe_deterministic ms values :
  1 < len ms -> values ≡ₚ (map_to_list (best_by_id ms)).*2 ->
  dedupeCatalogMatches ms = sort_matches values /\
  StronglySorted match_le (dedupeCatalogMatches ms) /\ NoDup (match_ids (dedupeCatalogMatches ms)).
Proof.
  intros Hl Hp. split; [|split; [|apply dedupe_nodup]]; unfold dedupeCatalogMatches;
    assert ((len ms <=? 1) = false) as -> by (apply Z.leb_gt; lia).
  - symmetry. apply sort_matches_unique; [|done]. unfold match_ids. change (map ?f ?l) with (f <$> l).
    rewrite Hp. apply best_values_nodup.
  - apply sort_matches_sorted.
Qed.

Definition demo_match (id : string) (n : Z) : entityCatalogMatch :=
  mkMatch (mkItem id "" "" "" "" "" "" [] []) "" n 0.
Definition demo_matches : list entityCatalogMatch := [demo_match "b" 2; demo_match "a" 2; demo_match "b" 3].

Lemma dedupe_deterministic_witness :
  1 < len demo_matches /\ dedupeCatalogMatches demo_matches = [demo_match "b" 3; demo_match "a" 2].
Proof.
  split; [by vm_compute|].
  destruct (dedupe_deterministic demo_matches (map_to_list (best_by_id demo_matches)).*2 ltac:(by vm_compute)
    (Permutation_refl _)) as [-> _]. by vm_compute.
Defined.
