(* ===== verification/EntityGrounding.v ===== *)
(** * Grounding a slot parse (internal/voice/entity_catalog.go)

    What a session has spoken of is kept per session. A preview that is parsed is
    grounded with it: the matches of the text are narrowed down by room, by how
    specific they are and by what the session spoke of last; one match left is
    taken, several are asked back, and the value normalization and the risk gate
    have the last word. The same memory biases the session's transcriber. *)

From stdpp Require Import sorting.
From S2P Require Import Prelude GoText GoOrder GoUnicode GoFloat Contracts Lexical Vocabulary.
From S2P Require Import TurnDetector BargeIn Playback Semantic SlotValues EntityCatalog.

(** ** What a session has spoken of *)

Record entityCatalogSessionContext := mkContext {
  LastNamespace : text;
  LastRoomID : text;
  LastEntityID : text;
  LastDeviceGroup : text;
  RecentEntityIDs : list text;
  RecentRoomIDs : list text
}.
#[export] Instance Context_rebuild : Rebuild entityCatalogSessionContext := fun c =>
  mkContext (LastNamespace c) (LastRoomID c) (LastEntityID c) (LastDeviceGroup c) (RecentEntityIDs c) (RecentRoomIDs c).
Definition zero_context : entityCatalogSessionContext := mkContext "" "" "" "" [] [].

(** [bySession]; the mutex makes [load] and [note] atomic. *)
Definition entityCatalogRecentStore : Type := gmap text entityCatalogSessionContext.

Definition load (sessionID : text) (s : entityCatalogRecentStore) : option entityCatalogSessionContext :=
  if TrimSpace sessionID == "" then None else s !! TrimSpace sessionID.

Fixpoint prepend_loop (values next : list text) (value : text) (maxLen : Z) : list text :=
  match values with
  | [] => next
  | existing :: values =>
      if TrimSpace existing == value then prepend_loop values next value maxLen
      else
        let next := next ++ [existing] in
        if (0 <? maxLen) && (maxLen <=? len next) then next else prepend_loop values next value maxLen
  end.

Definition prependUniqueString (values : list text) (value : text) (maxLen : Z) : list text :=
  let value := TrimSpace value in
  if value == "" then values else prepend_loop values [value] value maxLen.

Definition note_target (targetItem : EntityCatalogItem) (c : entityCatalogSessionContext) : entityCatalogSessionContext :=
  let c := c <|LastNamespace := Namespace targetItem|> in
  let c := c <|LastEntityID := EntityID targetItem|> in
  let c := c <|LastDeviceGroup := DeviceGroup targetItem|> in
  let c := c <|RecentEntityIDs := prependUniqueString (RecentEntityIDs c) (EntityID targetItem) 4|> in
  if RoomID targetItem != "" then
    let c := c <|LastRoomID := RoomID targetItem|> in
    c <|RecentRoomIDs := prependUniqueString (RecentRoomIDs c) (RoomID targetItem) 4|>
  else c.

Definition note_location (locationItem : EntityCatalogItem) (c : entityCatalogSessionContext) : entityCatalogSessionContext :=
  let c := c <|LastNamespace := Namespace locationItem|> in
  let c := c <|LastRoomID := EntityID locationItem|> in
  c <|RecentRoomIDs := prependUniqueString (RecentRoomIDs c) (EntityID locationItem) 4|>.

Definition note (sessionID : text) (locationItem targetItem : option EntityCatalogItem) (s : entityCatalogRecentStore)
    : entityCatalogRecentStore :=
  if TrimSpace sessionID == "" then s
  else
    let key := TrimSpace sessionID in
    let context := default zero_context (s !! key) in
    let context := match targetItem with Some item => note_target item context | None => context end in
    let context := match locationItem with Some item => note_location item context | None => context end in
    <[key := context]> s.

(** The bonus of the first position at which an identifier appears. *)
Fixpoint recency_bonus (bonus : Z -> Z) (index : Z) (values : list text) (id : text) : Z :=
  match values with
  | [] => 0
  | value :: values => if value == id then bonus index else recency_bonus bonus (index + 1) values id
  end.

Definition scoreEntityCatalogMatch (context : entityCatalogSessionContext) (m : entityCatalogMatch) : Z :=
  let item := Item m in
  (if (Namespace item != "") && (Namespace item == LastNamespace context) then 5 else 0)
  + (if EntityID item != "" then recency_bonus (fun index => maxInt (60 - index * 15) 10) 0 (RecentEntityIDs context) (EntityID item) else 0)
  + (if RoomID item != "" then recency_bonus (fun index => maxInt (30 - index * 10) 10) 0 (RecentRoomIDs context) (RoomID item) else 0)
  + (if (LastDeviceGroup context != "") && (DeviceGroup item == LastDeviceGroup context) then 15 else 0)
  + (if (LastEntityID context != "") && (EntityID item == LastEntityID context) then 80 else 0)
  + (if (LastRoomID context != "") && (RoomID item == LastRoomID context) then 20 else 0).

Definition preferSessionContextMatches (s : entityCatalogRecentStore) (sessionID : text)
    (matches : list entityCatalogMatch) : list entityCatalogMatch :=
  if (len matches <=? 1) || (TrimSpace sessionID == "") then matches
  else match load sessionID s with
  | None => matches
  | Some context =>
      let scored := sort_matches (map (fun m => mkMatch (Item m) (Alias m) (AliasLen m) (scoreEntityCatalogMatch context m)) matches) in
      match scored with
      | first :: second :: _ => if (Score second <? Score first) && (0 <? Score first) then [first] else scored
      | _ => scored
      end
  end.

(** ** Grounding *)

Definition slot_name (s : string) : string_set := {[txt s]}.

(** A slot that was found is neither missing nor ambiguous. *)
Definition ambiguous_slot (reason : text) (r : SemanticSlotParseResult) : SemanticSlotParseResult :=
  r <|sp_ClarifyNeeded := true|> <|sp_SlotStatus := SemanticSlotStatusAmbiguous|>
    <|sp_Actionability := SemanticSlotActionabilityClarifyNeeded|> <|sp_Reason := reason|>.

Definition complete_slots (reason : text) (r : SemanticSlotParseResult) : SemanticSlotParseResult :=
  let r := r <|sp_SlotStatus := SemanticSlotStatusComplete|> <|sp_Actionability := SemanticSlotActionabilityActCandidate|>
             <|sp_ClarifyNeeded := false|> in
  if replaceable_reason (sp_Reason r) then r <|sp_Reason := reason|> else r.

Definition with_location (groundedLocation : option EntityCatalogItem) (r : SemanticSlotParseResult) : SemanticSlotParseResult :=
  match groundedLocation with
  | None => r
  | Some item => r <|sp_Grounded := true|> <|sp_CanonicalLocation := CanonicalName item|>
                   <|sp_RiskLevel := strongerSemanticRiskLevel (sp_RiskLevel r) (RiskLevel item)|>
  end.
Definition with_target (groundedTarget : option EntityCatalogItem) (r : SemanticSlotParseResult) : SemanticSlotParseResult :=
  match groundedTarget with
  | None => r
  | Some item => r <|sp_Grounded := true|> <|sp_CanonicalTarget := CanonicalName item|>
                   <|sp_RiskLevel := strongerSemanticRiskLevel (sp_RiskLevel r) (RiskLevel item)|>
  end.

Definition not_nil {A} (o : option A) : bool := match o with Some _ => true | None => false end.
Definition found {A} (o : option A) (slots : string_set) (set : string_set) : string_set :=
  match o with Some _ => set ∖ slots | None => set end.

(** [targetMatches] and [roomMatches] as the two [singleCatalogMatch] calls see them. *)
Definition smartHomeMatches (c : EntityCatalog) (s : entityCatalogRecentStore) (sessionID said : text)
    : list entityCatalogMatch * list entityCatalogMatch :=
  let roomMatches := mostSpecificCatalogMatches (matchEntities c said entityNamespaceSmartHome [entityTypeRoom]) in
  let targetMatches := matchEntities c said entityNamespaceSmartHome [entityTypeDevice; entityTypeDeviceGroup] in
  let targetMatches := match roomMatches with
    | [room] => let filtered := filterCatalogMatchesByRoom targetMatches (EntityID (Item room)) in
                if 0 <? len filtered then filtered else targetMatches
    | _ => targetMatches
    end in
  let roomMatches := preferSessionContextMatches s sessionID roomMatches in
  let targetMatches := preferSessionContextMatches s sessionID targetMatches in
  (roomMatches, mostSpecificCatalogMatches targetMatches).

Definition groundSmartHome (c : EntityCatalog) (s : entityCatalogRecentStore) (sessionID said : text)
    (result : SemanticSlotParseResult) : entityCatalogRecentStore * SemanticSlotParseResult * bool :=
  let '(roomMatches, targetMatches) := smartHomeMatches c s sessionID said in
  let '(groundedLocation, locationAmbiguous) := singleCatalogMatch roomMatches in
  let '(groundedTarget, targetAmbiguous) := singleCatalogMatch targetMatches in
  if negb (not_nil groundedLocation) && negb (not_nil groundedTarget)
     && negb locationAmbiguous && negb targetAmbiguous
  then (s, result, false)
  else
    let updated := result in
    let missing := semanticSlotListSet (sp_MissingSlots updated) in
    let ambiguous := semanticSlotListSet (sp_AmbiguousSlots updated) in
    let updated := with_target groundedTarget (with_location groundedLocation updated) in
    let missing := found groundedTarget (slot_name "target") (found groundedLocation (slot_name "location") missing) in
    let ambiguous := found groundedTarget (slot_name "target") (found groundedLocation (slot_name "location") ambiguous) in
    let '(missing, ambiguous, updated) :=
      if locationAmbiguous then (missing ∖ slot_name "location", ambiguous ∪ slot_name "location",
                                 ambiguous_slot "catalog_location_ambiguous" updated)
      else (missing, ambiguous, updated) in
    let '(missing, ambiguous, updated) :=
      if targetAmbiguous then (missing ∖ slot_name "target", ambiguous ∪ slot_name "target",
                               ambiguous_slot "catalog_target_ambiguous" updated)
      else (missing, ambiguous, updated) in
    let updated := updated <|sp_MissingSlots := semanticSlotListFromSet missing|> in
    let updated := updated <|sp_AmbiguousSlots := semanticSlotListFromSet ambiguous|> in
    let updated :=
      if not_nil groundedTarget && negb locationAmbiguous && negb targetAmbiguous then
        if len (sp_MissingSlots updated) =? 0 then complete_slots "catalog_target_grounded" updated
        else if sp_Actionability updated == SemanticSlotActionabilityObserveOnly
        then updated <|sp_Actionability := SemanticSlotActionabilityDraftOK|> else updated
      else updated in
    let s := if not_nil groundedLocation || not_nil groundedTarget
             then note sessionID groundedLocation groundedTarget s else s in
    (s, updated, true).

Definition desktopMatches (c : EntityCatalog) (s : entityCatalogRecentStore) (sessionID said : text) : list entityCatalogMatch :=
  preferSessionContextMatches s sessionID
    (mostSpecificCatalogMatches (matchEntities c said entityNamespaceDesktopAssistant [entityTypeApp])).

Definition groundDesktopAssistant (c : EntityCatalog) (s : entityCatalogRecentStore) (sessionID said : text)
    (result : SemanticSlotParseResult) : entityCatalogRecentStore * SemanticSlotParseResult * bool :=
  let '(groundedApp, appAmbiguous) := singleCatalogMatch (desktopMatches c s sessionID said) in
  if negb (not_nil groundedApp) && negb appAmbiguous then (s, result, false)
  else
    let updated := result in
    let missing := semanticSlotListSet (sp_MissingSlots updated) in
    let ambiguous := semanticSlotListSet (sp_AmbiguousSlots updated) in
    let app_slots := slot_name "target_app" ∪ slot_name "target" in
    let updated := with_target groundedApp updated in
    let missing := found groundedApp app_slots missing in
    let ambiguous := found groundedApp app_slots ambiguous in
    let updated := if not_nil groundedApp && bool_decide (missing = ∅)
                   then complete_slots "catalog_app_grounded" updated else updated in
    let '(missing, ambiguous, updated) :=
      if appAmbiguous then (missing ∖ app_slots, ambiguous ∪ slot_name "target_app",
                            ambiguous_slot "catalog_target_app_ambiguous" updated)
      else (missing, ambiguous, updated) in
    let updated := updated <|sp_MissingSlots := semanticSlotListFromSet missing|> in
    let updated := updated <|sp_AmbiguousSlots := semanticSlotListFromSet ambiguous|> in
    let s := if not_nil groundedApp then note sessionID None groundedApp s else s in
    (s, updated, true).

Definition appendSemanticSource (current suffix : text) : text :=
  let current := TrimSpace current in
  let suffix := TrimSpace suffix in
  if current == "" then suffix
  else if (suffix == "") || Contains current suffix then current
  else current ++ txt "+" ++ suffix.

Definition GroundPreview (c : EntityCatalog) (req : SemanticSlotParseRequest) (result : SemanticSlotParseResult)
    (s : entityCatalogRecentStore) : entityCatalogRecentStore * SemanticSlotParseResult :=
  if len c =? 0 then (s, result)
  else
    let bestText := firstNonEmpty [sr_StablePrefix req; sr_PartialText req] in
    if TrimSpace bestText == "" then (s, result)
    else
      let domain := normalizeSemanticSlotDomain (sp_Domain result) in
      if negb ((domain == SemanticSlotDomainSmartHome) || (domain == SemanticSlotDomainDesktopAssistant)) then (s, result)
      else
        let '(s, grounded, changed) :=
          if domain == SemanticSlotDomainSmartHome then groundSmartHome c s (sr_SessionID req) bestText result
          else groundDesktopAssistant c s (sr_SessionID req) bestText result in
        let grounded := postProcessSemanticSlotResult req grounded in
        let grounded := if changed : bool then grounded <|sp_Source := appendSemanticSource (sp_Source grounded) "entity_catalog_grounder"|>
                        else grounded in
        (s, grounded).

(** ** Hints for the transcriber *)

Definition appendEntityHint (values candidates : list text) : list text := values ++ cloneStringSlice candidates.

Fixpoint limit_loop (values filtered : list text) (maxLen : Z) : list text :=
  match values with
  | [] => filtered
  | value :: values =>
      let trimmed := TrimSpace value in
      if trimmed == "" then limit_loop values filtered maxLen
      else if existsb (text_eqb trimmed) filtered then limit_loop values filtered maxLen
      else
        let filtered := filtered ++ [trimmed] in
        if (0 <? maxLen) && (maxLen <=? len filtered) then filtered else limit_loop values filtered maxLen
  end.
Definition limitDistinctHints (values : list text) (maxLen : Z) : list text := limit_loop values [] maxLen.

Record TranscriptionHints := mkHints { Hotwords : list text; HintPhrases : list text }.

Definition hint_words (c : EntityCatalog) (ids : list text) : list text :=
  fold_left (fun hotwords id =>
      match itemByID c id with
      | Some item => appendEntityHint hotwords (CanonicalName item :: Aliases item)
      | None => hotwords
      end) ids [].

Definition TranscriptionHintsForSession (c : EntityCatalog) (sessionID : text) (s : entityCatalogRecentStore) : TranscriptionHints :=
  if TrimSpace sessionID == "" then mkHints [] []
  else match load sessionID s with
  | None => mkHints [] []
  | Some context =>
      let hotwords := limitDistinctHints (hint_words c (RecentEntityIDs context ++ RecentRoomIDs context)) 8 in
      if len hotwords =? 0 then mkHints [] [] else mkHints hotwords (limitDistinctHints hotwords 4)
  end.

(** ** Laws: choosing between matches *)

Lemma matchEntities_mentions c s namespace types :
  Forall (fun m => mentions c s namespace types (Item m)) (matchEntities c s namespace types).
Proof.
  apply Forall_forall. intros m [H1 H2 H3 _ H5 H6 _ _]%matchEntities_mentioned. split; [done|]. split; [done|]. split; [done|].
  apply Exists_exists. by exists (Alias m).
Qed.

Lemma most_specific_subset ms : mostSpecificCatalogMatches ms ⊆ ms.
Proof.
  unfold mostSpecificCatalogMatches. split_if; [done|]. cbv zeta. split_if; [done|].
  intros m. rewrite !list_elem_of_In, filter_In. tauto.
Qed.

Lemma filter_by_room_subset ms roomID : filterCatalogMatchesByRoom ms roomID ⊆ ms.
Proof.
  unfold filterCatalogMatchesByRoom. split_if; [done|].
  intros m. rewrite !list_elem_of_In, filter_In. tauto.
Qed.

Definition scored_by (context : entityCatalogSessionContext) (m : entityCatalogMatch) : entityCatalogMatch :=
  mkMatch (Item m) (Alias m) (AliasLen m) (scoreEntityCatalogMatch context m).

(** The context only orders the matches, or picks the first of them. *)
Lemma prefer_cases s sessionID ms :
  preferSessionContextMatches s sessionID ms = ms \/
  exists context, load sessionID s = Some context /\ 1 < len ms /\
    let scored := sort_matches (map (scored_by context) ms) in
    preferSessionContextMatches s sessionID ms = scored \/
    exists first second rest, scored = first :: second :: rest /\ Score second < Score first /\
      preferSessionContextMatches s sessionID ms = [first].
Proof.
  unfold preferSessionContextMatches. destruct (_ || _) eqn:E; [by left|]. bool_prop.
  destruct (load sessionID s) as [context|]; [|by left]. right. exists context. split; [done|]. split; [done|]. cbv zeta.
  change (fun m => mkMatch _ _ _ _) with (scored_by context).
  destruct (sort_matches (map (scored_by context) ms)) as [|first [|second rest]]; [by left..|].
  split_if; [|by left]. bool_prop. right. by exists first, second, rest.
Qed.

Lemma prefer_items s sessionID ms (P : EntityCatalogItem -> Prop) :
  Forall (fun m => P (Item m)) ms -> Forall (fun m => P (Item m)) (preferSessionContextMatches s sessionID ms).
Proof.
  intros H. destruct (prefer_cases s sessionID ms) as [->|(context & _ & _ & Hp)]; [done|]. cbv zeta in Hp.
  assert (Hs : Forall (fun m => P (Item m)) (sort_matches (map (scored_by context) ms))).
  { apply Forall_forall. intros m. rewrite sort_matches_permutation. intros (m0 & -> & Hm)%list_elem_of_fmap. cbn.
    by rewrite Forall_forall in H; apply H. }
  destruct Hp as [->|(first & second & rest & Es & _ & ->)]; [done|].
  rewrite Es in Hs. apply Forall_cons in Hs as [Hs _]. by constructor.
Qed.

Lemma Forall_subset {A} (P : A -> Prop) (l k : list A) : l ⊆ k -> Forall P k -> Forall P l.
Proof. rewrite !Forall_forall. intros Hs Hk x Hx. by apply Hk, Hs. Qed.

Definition room_types : list text := [entityTypeRoom].
Definition target_types : list text := [entityTypeDevice; entityTypeDeviceGroup].

Lemma smart_home_mentions c s sessionID t :
  let '(rooms, targets) := smartHomeMatches c s sessionID t in
  Forall (fun m => mentions c t entityNamespaceSmartHome room_types (Item m)) rooms /\
  Forall (fun m => mentions c t entityNamespaceSmartHome target_types (Item m)) targets.
Proof.
  unfold smartHomeMatches. cbv zeta. split.
  - apply prefer_items. eapply Forall_subset; [apply most_specific_subset | apply matchEntities_mentions].
  - eapply Forall_subset; [apply most_specific_subset|]. apply prefer_items.
    pose proof (matchEntities_mentions c t entityNamespaceSmartHome target_types) as H. fold target_types.
    destruct (mostSpecificCatalogMatches _) as [|room [|]]; [done| |done]. split_if; [|done].
    eapply Forall_subset; [apply filter_by_room_subset|done].
Qed.

Lemma desktop_mentions c s sessionID t :
  Forall (fun m => mentions c t entityNamespaceDesktopAssistant [entityTypeApp] (Item m)) (desktopMatches c s sessionID t).
Proof.
  unfold desktopMatches. apply prefer_items. eapply Forall_subset; [apply most_specific_subset | apply matchEntities_mentions].
Qed.

Lemma single_match_spec ms :
  match singleCatalogMatch ms with
  | (Some item, ambiguous) => ambiguous = false /\ exists m, ms = [m] /\ Item m = item
  | (None, true) => 1 < len ms
  | (None, false) => ms = []
  end.
Proof.
  destruct ms as [|m [|m' ms]]; cbn [singleCatalogMatch]; [done|by split; [|exists m]|]. rewrite !len_cons.
  pose proof (len_nonneg ms). lia.
Qed.

(** ** Laws: what grounding changes *)

Lemma elem_of_slot_list x set : x ∈ semanticSlotListFromSet set <-> x ∈ set.
Proof. unfold semanticSlotListFromSet. by rewrite elem_of_sort_strings, elem_of_elements. Qed.

(** The result asks the user which of several is meant. *)
Definition asks_back (slot : text) (r : SemanticSlotParseResult) : Prop :=
  sp_ClarifyNeeded r = true /\ sp_SlotStatus r = SemanticSlotStatusAmbiguous /\
  sp_Actionability r = SemanticSlotActionabilityClarifyNeeded /\ slot ∈ sp_AmbiguousSlots r.

(** The two names, the risk and the domain after grounding. *)
Record names_of (location target : option EntityCatalogItem) (r r' : SemanticSlotParseResult) : Prop := {
  nm_location : sp_CanonicalLocation r' = from_option CanonicalName (sp_CanonicalLocation r) location;
  nm_target : sp_CanonicalTarget r' = from_option CanonicalName (sp_CanonicalTarget r) target;
  nm_risk : sp_RiskLevel r' = sp_RiskLevel (with_target target (with_location location r));
  nm_domain : sp_Domain r' = sp_Domain r
}.

Definition noted (sessionID : text) (location target : option EntityCatalogItem) (s : entityCatalogRecentStore)
    : entityCatalogRecentStore :=
  match location, target with None, None => s | _, _ => note sessionID location target s end.

Lemma complete_slots_names reason location target r r' :
  names_of location target r r' -> names_of location target r (complete_slots reason r').
Proof. intros [H1 H2 H3 H4]. unfold complete_slots. cbv zeta. split_if; split; read_fields; done. Qed.

Lemma ambiguous_slot_names reason location target r r' :
  names_of location target r r' -> names_of location target r (ambiguous_slot reason r').
Proof. intros [H1 H2 H3 H4]. unfold ambiguous_slot. split; read_fields; done. Qed.

Lemma set_slots_names missing ambiguous location target r r' :
  names_of location target r r' ->
  names_of location target r (r' <|sp_MissingSlots := missing|> <|sp_AmbiguousSlots := ambiguous|>).
Proof. intros [H1 H2 H3 H4]. split; read_fields; done. Qed.

Lemma set_actionability_names a location target r r' :
  names_of location target r r' -> names_of location target r (r' <|sp_Actionability := a|>).
Proof. intros [H1 H2 H3 H4]. split; read_fields; done. Qed.

Lemma with_names location target r : names_of location target r (with_target target (with_location location r)).
Proof. destruct location, target; split; cbn [with_target with_location from_option]; read_fields; done. Qed.

Ltac names_step Hn :=
  lazymatch goal with
  | |- names_of _ _ _ (if _ then _ else _) => split_if
  | |- names_of _ _ _ (complete_slots _ _) => apply complete_slots_names
  | |- names_of _ _ _ (ambiguous_slot _ _) => apply ambiguous_slot_names
  | |- names_of _ _ _ (field_map sp_AmbiguousSlots _ (field_map sp_MissingSlots _ _)) => apply set_slots_names
  | |- names_of _ _ _ (field_map sp_Actionability _ _) => apply set_actionability_names
  | |- names_of _ _ _ (with_target _ _) => exact Hn
  end.

Lemma ground_smart_home_names c s sessionID t r :
  let '(rooms, targets) := smartHomeMatches c s sessionID t in
  let location := (singleCatalogMatch rooms).1 in
  let target := (singleCatalogMatch targets).1 in
  let '(s', r', _) := groundSmartHome c s sessionID t r in
  s' = noted sessionID location target s /\ names_of location target r r'.
Proof.
  unfold groundSmartHome. destruct (smartHomeMatches c s sessionID t) as [rooms targets].
  destruct (singleCatalogMatch rooms) as [location locAmb], (singleCatalogMatch targets) as [target tgtAmb]. cbn [fst].
  destruct (negb _ && _ && _ && _) eqn:E.
  { destruct location, target; try done. }
  clear E. pose proof (with_names location target r) as Hn. destruct locAmb, tgtAmb; cbv zeta; cbn [negb];
    rewrite ?andb_false_r, ?andb_true_r; (split; [by destruct location, target|]);
      repeat names_step Hn.
Qed.

Lemma ground_desktop_names c s sessionID t r :
  let target := (singleCatalogMatch (desktopMatches c s sessionID t)).1 in
  let '(s', r', _) := groundDesktopAssistant c s sessionID t r in
  s' = noted sessionID None target s /\ names_of None target r r'.
Proof.
  unfold groundDesktopAssistant. destruct (singleCatalogMatch _) as [target amb]. cbn [fst].
  destruct (negb _ && _) eqn:E.
  { destruct target; try done. }
  clear E. pose proof (with_names None target r) as Hn. cbn [with_location] in Hn. destruct amb; cbv zeta;
    (split; [by destruct target|]);
      repeat names_step Hn.
Qed.

Lemma slot_name_in (slot : string) (X : string_set) : txt slot ∈ X ∪ slot_name slot.
Proof. apply elem_of_union_r. unfold slot_name. by apply elem_of_singleton_2. Qed.

Lemma ambiguous_asks_back slot reason missing ambiguous r :
  slot ∈ ambiguous ->
  asks_back slot ((ambiguous_slot reason r) <|sp_MissingSlots := missing|> <|sp_AmbiguousSlots := semanticSlotListFromSet ambiguous|>).
Proof.
  intros H. unfold asks_back, ambiguous_slot. read_fields. split; [done|]. split; [done|]. split; [done|].
  by apply elem_of_slot_list.
Qed.

Lemma ground_smart_home_asks c s sessionID t r :
  let '(rooms, targets) := smartHomeMatches c s sessionID t in
  let r' := (groundSmartHome c s sessionID t r).1.2 in
  (1 < len targets -> asks_back "target" r') /\ (1 < len rooms -> asks_back "location" r').
Proof.
  unfold groundSmartHome. destruct (smartHomeMatches c s sessionID t) as [rooms targets].
  pose proof (single_match_spec rooms) as Hr. pose proof (single_match_spec targets) as Ht.
  destruct (singleCatalogMatch rooms) as [location locAmb], (singleCatalogMatch targets) as [target tgtAmb].
  assert (Hl : 1 < len rooms -> locAmb = true /\ location = None).
  { intros H. destruct location; [destruct Hr as (_ & m & -> & _); done|]. destruct locAmb; [done|]. by subst rooms. }
  assert (Hg : 1 < len targets -> tgtAmb = true /\ target = None).
  { intros H. destruct target; [destruct Ht as (_ & m & -> & _); done|]. destruct tgtAmb; [done|]. by subst targets. }
  clear Hr Ht. split; intros H.
  - destruct (Hg H) as [-> ->]. clear Hg Hl H. rewrite andb_false_r. cbv zeta.
    destruct locAmb; cbn [not_nil negb andb fst snd]; apply ambiguous_asks_back, slot_name_in.
  - destruct (Hl H) as [-> ->]. clear Hg Hl H. cbv zeta.
    destruct target, tgtAmb; cbn [not_nil negb andb fst snd]; apply ambiguous_asks_back;
      try apply slot_name_in; apply elem_of_union_l, slot_name_in.
Qed.

(** Post-processing keeps the names, the level and a question asked back. *)
Lemma post_process_names req r :
  let p := postProcessSemanticSlotResult req r in
  sp_CanonicalTarget p = sp_CanonicalTarget r /\ sp_CanonicalLocation p = sp_CanonicalLocation r.
Proof.
  cbv zeta. unfold postProcessSemanticSlotResult.
  assert (Hn : forall x, sp_CanonicalTarget (normalizeSemanticSlotValue req x) = sp_CanonicalTarget x /\
    sp_CanonicalLocation (normalizeSemanticSlotValue req x) = sp_CanonicalLocation x).
  { intros x. unfold normalizeSemanticSlotValue. cbv zeta. repeat (split_if; read_fields; try done). }
  destruct (Hn r) as [<- <-]. generalize (normalizeSemanticSlotValue req r). clear. intros r.
  unfold applySemanticSlotRiskGating. destruct (detectSemanticRisk r) as [level reason]. cbv zeta.
  repeat (split_if; read_fields; try done).
Qed.

Lemma post_process_asks req slot r : asks_back slot r -> asks_back slot (postProcessSemanticSlotResult req r).
Proof.
  intros (H1 & H2 & H3 & H4). unfold postProcessSemanticSlotResult.
  assert (Hn : asks_back slot (normalizeSemanticSlotValue req r)).
  { unfold normalizeSemanticSlotValue. cbv zeta. split_if; [by split|]. split_if; [by split|]. split_if; [by split|].
    assert (E : (len (sp_AmbiguousSlots r) =? 0) = false).
    { apply Z.eqb_neq. assert (0 < len (sp_AmbiguousSlots r)); [|lia]. apply len_pos. intros E. rewrite E in H4.
      by apply not_elem_of_nil in H4. }
    read_fields. rewrite E, andb_false_r. unfold asks_back. read_fields. done. }
  clear H1 H2 H3 H4. revert Hn. generalize (normalizeSemanticSlotValue req r). clear r. intros r (H1 & H2 & H3 & H4).
  unfold applySemanticSlotRiskGating. destruct (detectSemanticRisk r) as [level reason]. cbv zeta.
  split_if; [by split|].
  assert (Hn : forall x, sp_Actionability x = SemanticSlotActionabilityClarifyNeeded ->
    (sp_Actionability x == SemanticSlotActionabilityActCandidate) || (sp_Actionability x == SemanticSlotActionabilityDraftOK) = false)
    by (intros x ->; by vm_compute).
  unfold asks_back. repeat split_if; read_fields; try done.
  all: match goal with H : (_ || _) = true |- _ => rewrite Hn in H; [discriminate | read_fields; done] end.
Qed.

Lemma rank_high level : level ∈ SemanticRiskLevelUnknown :: risk_levels -> 3 <= risk_rank level -> level = SemanticRiskLevelHigh.
Proof.
  unfold risk_levels. rewrite !elem_of_cons. rewrite elem_of_nil. intros [-> | [-> | [-> | [-> | []]]]] Hr; done.
Qed.

Lemma stronger_high left right :
  normalizeSemanticRiskLevel left = SemanticRiskLevelHigh \/ normalizeSemanticRiskLevel right = SemanticRiskLevelHigh ->
  normalizeSemanticRiskLevel (strongerSemanticRiskLevel left right) = SemanticRiskLevelHigh.
Proof.
  intros H. destruct (stronger_rank left right) as [E Hr]. apply rank_high; [apply risk_level_known|].
  rewrite E, Hr. destruct H as [-> | ->]; change (risk_rank SemanticRiskLevelHigh) with 3; lia.
Qed.

(** The two steps of a preview that is grounded at all. *)
Lemma ground_preview_steps c req r s :
  let t := firstNonEmpty [sr_StablePrefix req; sr_PartialText req] in
  GroundPreview c req r s = (s, r) \/
  (exists s' g source,
    GroundPreview c req r s = (s', (postProcessSemanticSlotResult req g) <|sp_Source := source|>) /\
    (groundSmartHome c s (sr_SessionID req) t r).1 = (s', g) /\
    normalizeSemanticSlotDomain (sp_Domain r) = SemanticSlotDomainSmartHome) \/
  (exists s' g source,
    GroundPreview c req r s = (s', (postProcessSemanticSlotResult req g) <|sp_Source := source|>) /\
    (groundDesktopAssistant c s (sr_SessionID req) t r).1 = (s', g) /\
    normalizeSemanticSlotDomain (sp_Domain r) = SemanticSlotDomainDesktopAssistant).
Proof.
  cbv zeta. unfold GroundPreview. split_if; [by left|]. cbv zeta. split_if; [by left|]. split_if; [by left|].
  assert (Hsame : forall x, x = x <|sp_Source := sp_Source x|>) by (by intros []).
  destruct (_ == SemanticSlotDomainSmartHome) eqn:Ed; right; [left|right].
  - destruct (groundSmartHome c s _ _ r) as [[s' g] changed]. cbv zeta. destruct changed; eexists s', g, _.
    + split; [reflexivity|]. text_prop. by split.
    + split; [f_equal; apply Hsame|]. text_prop. by split.
  - destruct (groundDesktopAssistant c s _ _ r) as [[s' g] changed]. cbv zeta. destruct changed; eexists s', g, _.
    + split; [reflexivity|]. apply negb_false_iff in Heqb1. cbn [orb] in Heqb1. by text_prop.
    + split; [f_equal; apply Hsame|]. apply negb_false_iff in Heqb1. cbn [orb] in Heqb1. by text_prop.
Qed.

Definition target_of (c : EntityCatalog) (t : text) (item : EntityCatalogItem) : Prop :=
  mentions c t entityNamespaceSmartHome target_types item \/
  mentions c t entityNamespaceDesktopAssistant [entityTypeApp] item.

Lemma single_mentioned (P : EntityCatalogItem -> Prop) ms item :
  Forall (fun m => P (Item m)) ms -> (singleCatalogMatch ms).1 = Some item -> P item.
Proof.
  intros H E. pose proof (single_match_spec ms) as Hs. destruct (singleCatalogMatch ms) as [o b]. cbn [fst] in E. subst o.
  destruct Hs as (_ & m & -> & <-). by apply Forall_cons in H as [H _].
Qed.

Lemma names_high location target r r' :
  names_of location target r r' ->
  (forall item, target = Some item -> normalizeSemanticRiskLevel (RiskLevel item) = SemanticRiskLevelHigh -> high_risk r') /\
  (forall item, location = Some item -> normalizeSemanticRiskLevel (RiskLevel item) = SemanticRiskLevelHigh -> high_risk r').
Proof.
  intros [_ _ Hr _]. unfold high_risk. rewrite Hr. split; intros item -> Hi.
  - cbn [with_target]. read_fields. apply stronger_high. by right.
  - destruct target; cbn [with_target with_location]; read_fields; [apply stronger_high; left|]; apply stronger_high; by right.
Qed.

Lemma post_process_gates req r : high_risk r -> gated (postProcessSemanticSlotResult req r).
Proof.
  intros H. unfold postProcessSemanticSlotResult. apply gate_gates. unfold high_risk in *. rewrite <- H. f_equal.
  unfold normalizeSemanticSlotValue. cbv zeta. repeat (split_if; read_fields; try done).
Qed.

Lemma settled_names c req r t location target g source :
  names_of location target r g ->
  (forall item, target = Some item -> target_of c t item) ->
  (forall item, location = Some item -> mentions c t entityNamespaceSmartHome room_types item) ->
  let r' := (postProcessSemanticSlotResult req g) <|sp_Source := source|> in
  (sp_CanonicalTarget r' = sp_CanonicalTarget r \/
   exists item, target_of c t item /\ sp_CanonicalTarget r' = CanonicalName item /\
     (normalizeSemanticRiskLevel (RiskLevel item) = SemanticRiskLevelHigh -> gated r')) /\
  (sp_CanonicalLocation r' = sp_CanonicalLocation r \/
   exists item, mentions c t entityNamespaceSmartHome room_types item /\ sp_CanonicalLocation r' = CanonicalName item /\
     (normalizeSemanticRiskLevel (RiskLevel item) = SemanticRiskLevelHigh -> gated r')).
Proof.
  intros Hn Ht Hl r'. destruct (post_process_names req g) as [E1 E2].
  destruct (names_high _ _ _ _ Hn) as [Hr1 Hr2]. destruct Hn as [N1 N2 _ _].
  assert (Hg : high_risk g -> gated r').
  { intros Hh%(post_process_gates req). unfold r', gated. read_fields. exact Hh. }
  unfold r' at 1 2 4 5. read_fields. rewrite E1, E2, N1, N2. split.
  - destruct target as [item|]; [right|by left]. exists item. split; [by apply Ht|]. split; [done|].
    intros Hi. by apply Hg, (Hr1 item).
  - destruct location as [item|]; [right|by left]. exists item. split; [by apply Hl|]. split; [done|].
    intros Hi. by apply Hg, (Hr2 item).
Qed.

(** C37. Grounding names only what was said, and risk reaches the gate. If a
    grounded preview names another target or location than the parser did, it is
    the canonical name of an item of the catalogue, of the right kind, one of whose
    names occurs in the text; and if that item is a high-risk one, the result
    requires a confirmation and is neither an act candidate nor a draft. *)
Theorem grounding_is_sound c req r s :
  let t := firstNonEmpty [sr_StablePrefix req; sr_PartialText req] in
  let r' := (GroundPreview c req r s).2 in
  (sp_CanonicalTarget r' = sp_CanonicalTarget r \/
   exists item, target_of c t item /\ sp_CanonicalTarget r' = CanonicalName item /\
     (normalizeSemanticRiskLevel (RiskLevel item) = SemanticRiskLevelHigh -> gated r')) /\
  (sp_CanonicalLocation r' = sp_CanonicalLocation r \/
   exists item, mentions c t entityNamespaceSmartHome room_types item /\ sp_CanonicalLocation r' = CanonicalName item /\
     (normalizeSemanticRiskLevel (RiskLevel item) = SemanticRiskLevelHigh -> gated r')).
Proof.
  cbv zeta. set (t := firstNonEmpty _).
  destruct (ground_preview_steps c req r s) as [->|[(s' & g & source & -> & E & _)|(s' & g & source & -> & E & _)]];
    [split; by left| |]; fold t in E; cbn [snd].
  - pose proof (ground_smart_home_names c s (sr_SessionID req) t r) as Hn.
    pose proof (smart_home_mentions c s (sr_SessionID req) t) as Hm.
    destruct (smartHomeMatches c s (sr_SessionID req) t) as [rooms targets]. destruct Hm as [Hm1 Hm2].
    destruct (groundSmartHome _ _ _ _ _) as [[s1 g1] changed]. cbn [fst] in E. injection E as -> ->.
    destruct Hn as [_ Hn]. eapply settled_names; [exact Hn| |].
    + intros item Hi. left. eapply single_mentioned; [exact Hm2 | exact Hi].
    + intros item Hi. eapply single_mentioned; [exact Hm1 | exact Hi].
  - pose proof (ground_desktop_names c s (sr_SessionID req) t r) as Hn.
    pose proof (desktop_mentions c s (sr_SessionID req) t) as Hm.
    destruct (groundDesktopAssistant _ _ _ _ _) as [[s1 g1] changed]. cbn [fst] in E. injection E as -> ->.
    destruct Hn as [_ Hn]. eapply settled_names; [exact Hn| |done].
    intros item Hi. right. eapply single_mentioned; [exact Hm | exact Hi].
Qed.

(** An ambiguous mention is asked back. When more than one device is left for a
    smart-home preview, the result names the target among the ambiguous slots, asks
    for a clarification and is neither complete nor actionable; likewise for the
    location. *)
Theorem ambiguity_asks_back c req r s :
  let t := firstNonEmpty [sr_StablePrefix req; sr_PartialText req] in
  c <> [] -> t <> [] -> normalizeSemanticSlotDomain (sp_Domain r) = SemanticSlotDomainSmartHome ->
  let '(rooms, targets) := smartHomeMatches c s (sr_SessionID req) t in
  let r' := (GroundPreview c req r s).2 in
  (1 < len targets -> asks_back "target" r') /\ (1 < len rooms -> asks_back "location" r').
Proof.
  cbv zeta. set (t := firstNonEmpty _). intros Hc Ht Hd. unfold GroundPreview. fold t.
  assert ((len c =? 0) = false) as -> by (apply Z.eqb_neq; apply len_pos in Hc; lia).
  assert (Htr : TrimSpace t = t) by apply firstNonEmpty_trimmed. rewrite Htr. cbv zeta.
  assert ((t == "") = false) as -> by (by apply text_eqb_false). rewrite Hd, text_eqb_refl. cbn [orb negb].
  pose proof (ground_smart_home_asks c s (sr_SessionID req) t r) as Ha.
  destruct (smartHomeMatches _ _ _ _) as [rooms targets]. cbv zeta in Ha.
  destruct (groundSmartHome _ _ _ _ _) as [[s1 g] changed]. cbn [fst snd] in Ha |- *.
  assert (Hp : forall slot, asks_back slot g -> asks_back slot (if changed
    then (postProcessSemanticSlotResult req g) <|sp_Source := appendSemanticSource
      (sp_Source (postProcessSemanticSlotResult req g)) "entity_catalog_grounder"|> else postProcessSemanticSlotResult req g)).
  { intros slot H%(post_process_asks req). destruct changed; [|done]. unfold asks_back in *. read_fields. exact H. }
  split; intros H; apply Hp; by apply Ha.
Qed.

(** ** Laws: the recent store *)

Lemma prepend_loop_spec values next value maxLen :
  len next < maxLen ->
  prepend_loop values next value maxLen
    = take (Z.to_nat maxLen) (next ++ List.filter (fun e => TrimSpace e != value) values).
Proof.
  revert next. induction values as [|e values IH]; intros next Hl; cbn [prepend_loop List.filter].
  - rewrite app_nil_r, take_ge; [done|]. unfold len in Hl. lia.
  - destruct (TrimSpace e == value); cbn [negb]; [by apply IH|]. cbv zeta.
    assert ((0 <? maxLen) = true) as -> by (apply Z.ltb_lt; pose proof (len_nonneg next); lia). cbn [andb].
    destruct (maxLen <=? len (next ++ [e])) eqn:E; bool_prop.
    + rewrite (app_assoc next [e] (List.filter _ values) : next ++ e :: _ = _).
      rewrite take_app_le by (unfold len in *; lia). rewrite take_ge; [done|]. rewrite length_app. unfold len in *. cbn [length]. lia.
    + rewrite IH by (rewrite len_app in *; cbn in *; lia). by rewrite <- app_assoc.
Qed.

(** A list of recent identifiers: few, distinct, trimmed, the last one first. *)
Record recent_ok (last : text) (ids : list text) : Prop := {
  rk_few : (length ids <= 4)%nat;
  rk_nodup : NoDup ids;
  rk_named : Forall (fun id => trimmed id /\ id <> []) ids;
  rk_last : last = default [] (head ids)
}.

Lemma prepend_recent last ids id :
  trimmed id -> id <> [] -> recent_ok last ids -> recent_ok id (prependUniqueString ids id 4).
Proof.
  intros Ht Hn [H1 H2 H3 H4]. unfold prependUniqueString. cbv zeta. rewrite Ht.
  assert ((id == "") = false) as -> by (by apply text_eqb_false).
  rewrite prepend_loop_spec by (by vm_compute). change (Z.to_nat 4) with 4%nat.
  set (rest := List.filter _ ids). assert (Hsub : rest `sublist_of` ids).
  { unfold rest. clear. induction ids as [|e ids IH]; cbn; [constructor|]. destruct (_ != _); by constructor. }
  assert (Hid : id ∉ rest).
  { unfold rest. rewrite list_elem_of_In, filter_In. intros [_ H]. rewrite Ht in H. apply negb_true_iff, text_eqb_false in H. done. }
  split.
  - rewrite length_take. lia.
  - eapply sublist_NoDup; [|apply sublist_take]. cbn [app]. apply NoDup_cons. split; [done|].
    by eapply sublist_NoDup.
  - apply Forall_take. constructor; [done|]. rewrite Forall_forall in H3 |- *. intros x Hx. apply H3.
    apply list_elem_of_In in Hx. apply list_elem_of_In. unfold rest in Hx. by apply filter_In in Hx as [Hx _].
  - done.
Qed.

Record context_ok (c : entityCatalogSessionContext) : Prop := {
  cx_entities : recent_ok (LastEntityID c) (RecentEntityIDs c);
  cx_rooms : recent_ok (LastRoomID c) (RecentRoomIDs c)
}.
Definition store_ok (s : entityCatalogRecentStore) : Prop := map_Forall (fun k c => trimmed k /\ k <> [] /\ context_ok c) s.

Record item_ok (item : EntityCatalogItem) : Prop := {
  it_id : trimmed (EntityID item) /\ EntityID item <> [];
  it_room : trimmed (RoomID item);
  it_name : trimmed (CanonicalName item) /\ CanonicalName item <> []
}.

Lemma new_catalog_ok items : Forall item_ok (NewEntityCatalog items).
Proof.
  apply Forall_forall. intros item. unfold NewEntityCatalog. rewrite list_elem_of_In, filter_In, in_map_iff.
  intros [(raw & <- & _) H]. bool_prop. text_prop. cbn in *.
  split; cbn; try split; auto with go.
Qed.

Lemma zero_context_ok : context_ok zero_context.
Proof. split; split; cbn; try done; [lia|apply NoDup_nil_2|lia|apply NoDup_nil_2]. Qed.

Lemma note_target_ok item c : item_ok item -> context_ok c -> context_ok (note_target item c).
Proof.
  intros [[H1 H2] H3 _] [He Hr]. unfold note_target. cbv zeta. split_if; split; read_fields.
  - eapply prepend_recent; [done..|exact He].
  - bool_prop. text_prop. eapply prepend_recent; [done..|exact Hr].
  - eapply prepend_recent; [done..|exact He].
  - exact Hr.
Qed.

Lemma note_location_ok item c : item_ok item -> context_ok c -> context_ok (note_location item c).
Proof.
  intros [[H1 H2] H3 _] [He Hr]. unfold note_location. cbv zeta. split; read_fields; [exact He|].
  eapply prepend_recent; [done..|exact Hr].
Qed.

Definition all_ok (o : option EntityCatalogItem) : Prop := forall item, o = Some item -> item_ok item.

Lemma note_ok sessionID location target s :
  all_ok location -> all_ok target -> store_ok s -> store_ok (note sessionID location target s).
Proof.
  intros Hl Ht Hs. unfold note. split_if; [done|]. cbv zeta. text_prop.
  apply map_Forall_insert_2; [|done]. split; [apply trimmed_TrimSpace|]. split; [done|].
  assert (H0 : context_ok (default zero_context (s !! TrimSpace sessionID))).
  { destruct (s !! TrimSpace sessionID) as [c|] eqn:E; cbn; [|apply zero_context_ok]. by apply Hs in E as (_ & _ & E). }
  assert (H1 : context_ok (match target with Some item => note_target item (default zero_context (s !! TrimSpace sessionID))
    | None => default zero_context (s !! TrimSpace sessionID) end)).
  { destruct target as [item|]; [|done]. by apply note_target_ok; [apply Ht|]. }
  destruct location as [item|]; [|done]. by apply note_location_ok; [apply Hl|].
Qed.

Lemma noted_cases sessionID location target s :
  noted sessionID location target s = s \/ noted sessionID location target s = note sessionID location target s.
Proof. destruct location, target; auto. Qed.

(** What a preview does to the store: nothing, or it notes what was grounded. *)
Lemma ground_preview_store c req r s :
  exists location target,
    (GroundPreview c req r s).1 = noted (sr_SessionID req) location target s /\
    (forall item, location = Some item \/ target = Some item -> item ∈ c).
Proof.
  set (t := firstNonEmpty [sr_StablePrefix req; sr_PartialText req]).
  destruct (ground_preview_steps c req r s) as [->|[(s' & g & source & -> & E & _)|(s' & g & source & -> & E & _)]];
    [by exists None, None; split; [|intros item [|]]| |]; fold t in E; cbn [fst].
  - pose proof (ground_smart_home_names c s (sr_SessionID req) t r) as Hn.
    pose proof (smart_home_mentions c s (sr_SessionID req) t) as Hm.
    destruct (smartHomeMatches c s (sr_SessionID req) t) as [rooms targets]. destruct Hm as [Hm1 Hm2].
    destruct (groundSmartHome _ _ _ _ _) as [[s1 g1] changed]. cbn [fst] in E. injection E as -> ->.
    destruct Hn as [-> _]. eexists _, _. split; [reflexivity|].
    intros item [Hi|Hi]; eapply single_mentioned in Hi; [|exact Hm1| |exact Hm2]; by destruct Hi.
  - pose proof (ground_desktop_names c s (sr_SessionID req) t r) as Hn.
    pose proof (desktop_mentions c s (sr_SessionID req) t) as Hm.
    destruct (groundDesktopAssistant _ _ _ _ _) as [[s1 g1] changed]. cbn [fst] in E. injection E as -> ->.
    destruct Hn as [-> _]. eexists _, _. split; [reflexivity|].
    intros item [Hi|Hi]; [done|]. eapply single_mentioned in Hi; [|exact Hm]. by destruct Hi.
Qed.

Definition ground_all (c : EntityCatalog) (calls : list (SemanticSlotParseRequest * SemanticSlotParseResult))
    (s : entityCatalogRecentStore) : entityCatalogRecentStore :=
  fold_left (fun s '(req, r) => (GroundPreview c req r s).1) calls s.

(** What is remembered of a session stays small and current. After any
    previews of any sessions, a session's recent devices and rooms are at most four
    each, distinct and trimmed, the last one noted comes first, and no session is
    kept under a blank key. *)
Theorem recent_store_invariant items calls :
  store_ok (ground_all (NewEntityCatalog items) calls ∅).
Proof.
  unfold ground_all. apply fold_left_inv; [apply map_Forall_empty|]. intros s [req r] _ Hs.
  destruct (ground_preview_store (NewEntityCatalog items) req r s) as (location & target & -> & Hin).
  pose proof (new_catalog_ok items) as Hok. rewrite Forall_forall in Hok.
  destruct (noted_cases (sr_SessionID req) location target s) as [->| ->]; [done|].
  apply note_ok; [| |done]; intros item Hi; apply Hok, Hin; auto.
Qed.

Lemma note_other sessionID other location target s :
  TrimSpace other <> TrimSpace sessionID -> load other (note sessionID location target s) = load other s.
Proof.
  unfold entityCatalogRecentStore in *. intros H. unfold load. split_if; [done|]. unfold note. split_if; [done|].
  cbv zeta. apply lookup_insert_ne. congruence.
Qed.

(** The result of grounding depends on the store only through the preferences. *)
Lemma ground_smart_home_result c s s' sessionID t r :
  (forall ms, preferSessionContextMatches s' sessionID ms = preferSessionContextMatches s sessionID ms) ->
  (groundSmartHome c s' sessionID t r).1.2 = (groundSmartHome c s sessionID t r).1.2 /\
  (groundSmartHome c s' sessionID t r).2 = (groundSmartHome c s sessionID t r).2.
Proof.
  intros H. unfold groundSmartHome.
  assert (smartHomeMatches c s' sessionID t = smartHomeMatches c s sessionID t) as ->
    by (unfold smartHomeMatches; cbv zeta; by rewrite !H).
  destruct (smartHomeMatches c s sessionID t) as [rooms targets].
  destruct (singleCatalogMatch rooms) as [location locAmb], (singleCatalogMatch targets) as [target tgtAmb].
  destruct (negb _ && _ && _ && _); [done|]. destruct locAmb, tgtAmb; split; reflexivity.
Qed.

Lemma ground_desktop_result c s s' sessionID t r :
  (forall ms, preferSessionContextMatches s' sessionID ms = preferSessionContextMatches s sessionID ms) ->
  (groundDesktopAssistant c s' sessionID t r).1.2 = (groundDesktopAssistant c s sessionID t r).1.2 /\
  (groundDesktopAssistant c s' sessionID t r).2 = (groundDesktopAssistant c s sessionID t r).2.
Proof.
  intros H. unfold groundDesktopAssistant.
  assert (desktopMatches c s' sessionID t = desktopMatches c s sessionID t) as ->
    by (unfold desktopMatches; by rewrite !H).
  destruct (singleCatalogMatch _) as [target amb]. destruct (negb _ && _); [done|]. destruct amb; split; reflexivity.
Qed.

(** Sessions do not hear of each other. Grounding a preview of one session
    changes neither what another session has spoken of, nor the hints its
    transcriber is given, nor how its next preview is grounded. *)
Theorem grounding_is_per_session c req r s other req' r' :
  TrimSpace other <> TrimSpace (sr_SessionID req) -> TrimSpace (sr_SessionID req') = TrimSpace other ->
  let s' := (GroundPreview c req r s).1 in
  load other s' = load other s /\
  TranscriptionHintsForSession c other s' = TranscriptionHintsForSession c other s /\
  (GroundPreview c req' r' s').2 = (GroundPreview c req' r' s).2.
Proof.
  intros Hne Heq. cbv zeta. destruct (ground_preview_store c req r s) as (location & target & -> & _).
  assert (Hl : forall id, TrimSpace id = TrimSpace other -> load id (noted (sr_SessionID req) location target s) = load id s).
  { intros id Hid. destruct (noted_cases (sr_SessionID req) location target s) as [->| ->]; [done|].
    apply note_other. congruence. }
  generalize dependent (noted (sr_SessionID req) location target s). clear - Heq. intros s' Hl.
  split; [by apply Hl|]. split; [unfold TranscriptionHintsForSession; by rewrite Hl|].
  specialize (Hl _ Heq).
  assert (Hp : forall ms, preferSessionContextMatches s' (sr_SessionID req') ms = preferSessionContextMatches s (sr_SessionID req') ms)
    by (intros ms; unfold preferSessionContextMatches; by rewrite Hl).
  destruct (ground_smart_home_result c s s' (sr_SessionID req') (firstNonEmpty [sr_StablePrefix req'; sr_PartialText req']) r' Hp) as [H1 H2].
  destruct (ground_desktop_result c s s' (sr_SessionID req') (firstNonEmpty [sr_StablePrefix req'; sr_PartialText req']) r' Hp) as [H3 H4].
  unfold GroundPreview. cbv zeta. destruct (len c =? 0); [done|]. destruct (TrimSpace _ == ""); [done|]. destruct (negb _); [done|].
  destruct (_ == SemanticSlotDomainSmartHome).
  - destruct (groundSmartHome c s' _ _ r') as [[s1 g1] c1], (groundSmartHome c s _ _ r') as [[s2 g2] c2].
    cbn [fst snd] in *. by subst.
  - destruct (groundDesktopAssistant c s' _ _ r') as [[s1 g1] c1], (groundDesktopAssistant c s _ _ r') as [[s2 g2] c2].
    cbn [fst snd] in *. by subst.
Qed.

(** ** Laws: the entity last spoken of *)

Lemma recency_bonus_bound (bonus : Z -> Z) b ids id index :
  0 <= b -> (forall i, index <= i -> bonus i <= b) -> recency_bonus bonus index ids id <= b.
Proof.
  intros Hb. revert index. induction ids as [|x ids IH]; intros index H; cbn [recency_bonus]; [done|].
  split_if; [apply H; lia|]. apply IH. intros i Hi. apply H. lia.
Qed.

Lemma recency_bonus_nonneg (bonus : Z -> Z) ids id index :
  (forall i, 0 <= bonus i) -> 0 <= recency_bonus bonus index ids id.
Proof. intros H. revert index. induction ids as [|x ids IH]; intros index; cbn [recency_bonus]; [done|]. split_if; auto. Qed.

Lemma maxInt_range a b lo hi : lo <= a <= hi -> lo <= b <= hi -> lo <= maxInt a b <= hi.
Proof. unfold maxInt. destruct (b <? a); lia. Qed.

Ltac score_tac := repeat match goal with |- context [if ?b then _ else _] => destruct b end; lia.

Lemma last_entity_score c m :
  context_ok c -> LastEntityID c <> [] -> EntityID (Item m) = LastEntityID c -> 140 <= scoreEntityCatalogMatch c m.
Proof.
  intros [[_ _ _ He] _] Hn Hm. unfold scoreEntityCatalogMatch. cbv zeta. rewrite Hm.
  destruct (RecentEntityIDs c) as [|id ids]; cbn in He; [congruence|]. subst id.
  cbn [recency_bonus]. rewrite text_eqb_refl.
  assert ((LastEntityID c == "") = false) as -> by (by apply text_eqb_false). cbn [negb andb].
  change (maxInt (60 - 0 * 15) 10) with 60.
  pose proof (recency_bonus_nonneg (fun i => maxInt (30 - i * 10) 10) (RecentRoomIDs c) (RoomID (Item m)) 0
    ltac:(intros i; unfold maxInt; destruct (_ <? _) eqn:E; bool_prop; lia)). score_tac.
Qed.

Lemma other_entity_score c m :
  context_ok c -> EntityID (Item m) <> LastEntityID c -> scoreEntityCatalogMatch c m <= 115.
Proof.
  intros [[_ _ _ He] _] Hm. unfold scoreEntityCatalogMatch. cbv zeta.
  assert (H1 : recency_bonus (fun i => maxInt (60 - i * 15) 10) 0 (RecentEntityIDs c) (EntityID (Item m)) <= 45).
  { destruct (RecentEntityIDs c) as [|id ids]; cbn in He; cbn [recency_bonus]; [lia|]. subst id.
    assert ((LastEntityID c == EntityID (Item m)) = false) as -> by (apply text_eqb_false; congruence).
    apply recency_bonus_bound; [lia|]. intros i Hi. unfold maxInt. destruct (_ <? _) eqn:E; bool_prop; lia. }
  assert (H2 : recency_bonus (fun i => maxInt (30 - i * 10) 10) 0 (RecentRoomIDs c) (RoomID (Item m)) <= 30).
  { apply recency_bonus_bound; [lia|]. intros i Hi. unfold maxInt. destruct (_ <? _) eqn:E; bool_prop; lia. }
  apply text_eqb_false in Hm. rewrite Hm, andb_false_r. score_tac.
Qed.

(** Among matches of distinct entities, the one the session spoke of last wins. *)
Lemma last_entity_wins s sessionID c ms m :
  TrimSpace sessionID <> [] -> load sessionID s = Some c -> context_ok c ->
  NoDup (match_ids ms) -> m ∈ ms -> EntityID (Item m) = LastEntityID c -> LastEntityID c <> [] -> 1 < len ms ->
  preferSessionContextMatches s sessionID ms = [scored_by c m].
Proof.
  intros Hs Hl Hc Hn Hm He Hne Hlen. unfold preferSessionContextMatches.
  assert ((len ms <=? 1) = false) as -> by (apply Z.leb_gt; lia).
  assert ((TrimSpace sessionID == "") = false) as -> by (by apply text_eqb_false). cbn [orb]. rewrite Hl.
  change (fun m => mkMatch _ _ _ _) with (scored_by c). set (scored := sort_matches (map (scored_by c) ms)).
  assert (Hp : scored ≡ₚ scored_by c <$> ms) by apply sort_matches_permutation.
  assert (Hso : StronglySorted match_le scored) by apply sort_matches_sorted.
  assert (Hlow : forall x, x ∈ ms -> x <> m -> Score (scored_by c x) <= 115).
  { intros x Hx Hxm. apply other_entity_score; [done|]. intros E. apply Hxm. apply (match_ids_inj ms); congruence. }
  assert (Hhigh : 140 <= Score (scored_by c m)) by (apply last_entity_score; congruence).
  assert (Hin : forall y, y ∈ scored -> exists x, x ∈ ms /\ y = scored_by c x).
  { intros y. rewrite Hp. intros (x & -> & Hx)%list_elem_of_fmap. by exists x. }
  assert (Hnd : NoDup scored).
  { rewrite Hp. apply NoDup_fmap_1 with (f := fun y => EntityID (Item y)). rewrite <- list_fmap_compose. exact Hn. }
  destruct scored as [|first rest] eqn:Es.
  { apply Permutation_length in Hp. rewrite length_fmap in Hp. unfold len in Hlen. cbn in Hp. lia. }
  assert (Hfirst : first = scored_by c m).
  { assert (Hsm : scored_by c m ∈ first :: rest) by (rewrite Hp; by apply list_elem_of_fmap_2).
    apply elem_of_cons in Hsm as [<-|Hsm]; [done|]. apply StronglySorted_inv in Hso as [_ Hso].
    rewrite Forall_forall in Hso. specialize (Hso _ Hsm). destruct (Hin first) as (x & Hx & ->); [by left|].
    destruct (decide (EntityID (Item x) = LastEntityID c)) as [Hxe|Hxe].
    { f_equal. apply (match_ids_inj ms); congruence. }
    assert (Hxm : x <> m) by congruence. specialize (Hlow x Hx Hxm). unfold match_le in Hso.
    repeat split_if_in Hso; bool_prop; lia. }
  destruct rest as [|second rest].
  { apply Permutation_length in Hp. rewrite length_fmap in Hp. unfold len in Hlen. cbn in Hp. lia. }
  assert (Hsecond : Score second <= 115).
  { destruct (Hin second) as (x & Hx & ->); [by right; left|]. apply Hlow; [done|]. intros ->.
    apply NoDup_cons in Hnd as [Hnd _]. apply Hnd. rewrite Hfirst. by left. }
  rewrite Hfirst. assert ((Score second <? Score (scored_by c m)) = true) as -> by (apply Z.ltb_lt; lia).
  assert ((0 <? Score (scored_by c m)) = true) as -> by (apply Z.ltb_lt; lia). done.
Qed.

(** ** Laws: hints *)

Definition item_hints (c : EntityCatalog) (id : text) : list text :=
  match itemByID c id with Some item => cloneStringSlice (CanonicalName item :: Aliases item) | None => [] end.

Lemma hint_words_flat c ids : hint_words c ids = flat_map (item_hints c) ids.
Proof.
  unfold hint_words. transitivity ([] ++ flat_map (item_hints c) ids); [|done]. generalize (@nil text).
  induction ids as [|id ids IH]; intros acc; cbn [fold_left flat_map]; [by rewrite app_nil_r|].
  rewrite IH. unfold item_hints at 2. destruct (itemByID c id); [|done]. unfold appendEntityHint. by rewrite app_assoc.
Qed.

Definition hint_ok (w : text) : Prop := trimmed w /\ w <> [].

Lemma limit_loop_spec values filtered maxLen :
  len filtered < maxLen -> NoDup filtered -> Forall hint_ok filtered ->
  let l := limit_loop values filtered maxLen in
  filtered `prefix_of` l /\ len l <= maxLen /\ NoDup l /\ Forall hint_ok l /\
  (forall w, w ∈ l -> w ∈ filtered \/ exists v, v ∈ values /\ w = TrimSpace v).
Proof.
  revert filtered. induction values as [|v values IH]; intros filtered Hl Hn Hf; cbv zeta; cbn [limit_loop]; cbv zeta.
  { split; [done|]. split; [lia|]. by auto. }
  assert (Hskip : let l := limit_loop values filtered maxLen in
    filtered `prefix_of` l /\ len l <= maxLen /\ NoDup l /\ Forall hint_ok l /\
    (forall w, w ∈ l -> w ∈ filtered \/ exists x, x ∈ v :: values /\ w = TrimSpace x)).
  { destruct (IH filtered Hl Hn Hf) as (H1 & H2 & H3 & H4 & H5). repeat (split; [done|]).
    intros w [Hw|(x & Hx & ->)]%H5; [by left|right]. exists x. split; [by right|done]. }
  split_if; [exact Hskip|]. split_if; [exact Hskip|]. clear Hskip.
  assert (Hnew : NoDup (filtered ++ [TrimSpace v]) /\ Forall hint_ok (filtered ++ [TrimSpace v])).
  { text_prop. split.
    - apply NoDup_app. split; [done|]. split; [|apply NoDup_singleton]. intros w Hw ->%list_elem_of_singleton.
      apply existsb_eqb_elem in Hw. congruence.
    - apply Forall_app. split; [done|]. repeat constructor; [apply trimmed_TrimSpace|done]. }
  destruct Hnew as [Hn' Hf'].
  assert (Hm : (0 <? maxLen) = true) by (apply Z.ltb_lt; pose proof (len_nonneg filtered); lia). rewrite Hm. cbn [andb].
  assert (Hin : forall w, w ∈ filtered ++ [TrimSpace v] -> w ∈ filtered \/ exists x, x ∈ v :: values /\ w = TrimSpace x).
  { intros w [Hw| ->%list_elem_of_singleton]%elem_of_app; [by left|right]. exists v. split; [by left|done]. }
  split_if; bool_prop.
  - split; [by exists [TrimSpace v]|]. rewrite len_app in *. change (len [TrimSpace v]) with 1 in *. split; [lia|]. by auto.
  - destruct (IH (filtered ++ [TrimSpace v]) ltac:(done) Hn' Hf') as (H1 & H2 & H3 & H4 & H5).
    split; [etransitivity; [|exact H1]; by exists [TrimSpace v]|]. repeat (split; [done|]).
    intros w [Hw|(x & Hx & ->)]%H5; [by apply Hin|right]. exists x. split; [by right|done].
Qed.

(** Limiting a list that is already distinct and trimmed takes its beginning. *)
Lemma limit_loop_take values filtered maxLen :
  len filtered < maxLen -> NoDup (filtered ++ values) -> Forall hint_ok values ->
  limit_loop values filtered maxLen = take (Z.to_nat maxLen) (filtered ++ values).
Proof.
  revert filtered. induction values as [|v values IH]; intros filtered Hl Hn Hv; cbn [limit_loop].
  - rewrite app_nil_r, take_ge; [done|]. unfold len in Hl. lia.
  - apply Forall_cons in Hv as [[Ht Hne] Hv]. rewrite Ht. cbv zeta. apply text_eqb_false in Hne.
    assert ((v == "") = false) as -> by exact Hne.
    assert (existsb (text_eqb v) filtered = false) as ->.
    { apply not_true_iff_false. rewrite existsb_eqb_elem. intros Hin. apply NoDup_app in Hn as (_ & Hn & _).
      apply (Hn v Hin). by left. }
    assert ((0 <? maxLen) = true) as -> by (apply Z.ltb_lt; pose proof (len_nonneg filtered); lia). cbn [andb].
    rewrite (app_assoc filtered [v] values : filtered ++ v :: values = _) in *.
    split_if; bool_prop; [|by apply IH].
    rewrite len_app in *. change (len [v]) with 1 in *. rewrite take_app_le by (rewrite length_app; unfold len in *; cbn; lia).
    rewrite take_ge; [done|]. rewrite length_app. unfold len in *. cbn. lia.
Qed.

Lemma clone_slice_ok values : Forall hint_ok (cloneStringSlice values).
Proof.
  apply Forall_forall. intros w. unfold cloneStringSlice. rewrite list_elem_of_In, filter_In, in_map_iff.
  intros [(v & <- & _) H]. split; [apply trimmed_TrimSpace|]. by apply negb_true_iff, text_eqb_false in H.
Qed.

Lemma item_by_id_in c id item : itemByID c id = Some item -> item ∈ c.
Proof. unfold itemByID. cbv zeta. split_if; [done|]. intros [H _]%find_some. by apply list_elem_of_In. Qed.

(** Transcription hints are few and come from the catalogue. Whatever a session
    has spoken of, its transcriber is given at most eight hot words, distinct and
    trimmed, each a name or an alias of an item of the catalogue, and as phrases
    the first four of them. *)
Theorem hints_are_bounded c sessionID s :
  let h := TranscriptionHintsForSession c sessionID s in
  len (Hotwords h) <= 8 /\ NoDup (Hotwords h) /\ HintPhrases h = take 4 (Hotwords h) /\
  Forall (fun w => hint_ok w /\ exists item, item ∈ c /\ w ∈ cloneStringSlice (CanonicalName item :: Aliases item)) (Hotwords h).
Proof.
  cbv zeta. unfold TranscriptionHintsForSession.
  assert (H0 : len (@nil text) <= 8 /\ NoDup (@nil text) /\ @nil text = take 4 [] /\ forall P, Forall P (@nil text)).
  { split; [done|]. split; [apply NoDup_nil_2|]. by split. }
  destruct H0 as (H1 & H2 & H3 & H4). split_if; [by auto|]. destruct (load sessionID s) as [x|]; [|by auto].
  cbv zeta. split_if; [by auto|]. clear H1 H2 H3 H4. cbn [Hotwords HintPhrases].
  set (words := hint_words c _). unfold limitDistinctHints.
  destruct (limit_loop_spec words [] 8 ltac:(done) ltac:(apply NoDup_nil_2) ltac:(done)) as (_ & H2 & H3 & H4 & H5).
  split; [done|]. split; [done|]. split; [by rewrite limit_loop_take|].
  apply Forall_forall. intros w Hw. rewrite Forall_forall in H4. split; [by apply H4|].
  apply H5 in Hw as [Hw|(v & Hv & ->)]; [by apply not_elem_of_nil in Hw|].
  unfold words in Hv. rewrite hint_words_flat, list_elem_of_In, in_flat_map in Hv. destruct Hv as (id & _ & Hv).
  unfold item_hints in Hv. destruct (itemByID c id) as [item|] eqn:E; [|done]. exists item.
  split; [by eapply item_by_id_in|]. apply list_elem_of_In in Hv.
  pose proof (clone_slice_ok (CanonicalName item :: Aliases item)) as Ho. rewrite Forall_forall in Ho.
  by destruct (Ho v Hv) as [-> _].
Qed.

Lemma item_by_id_unique c item :
  NoDup (map EntityID c) -> item ∈ c -> trimmed (EntityID item) -> EntityID item <> [] ->
  itemByID c (EntityID item) = Some item.
Proof.
  intros Hn Hin Ht Hne. unfold itemByID. rewrite Ht. cbv zeta. apply text_eqb_false in Hne.
  assert ((EntityID item == "") = false) as -> by exact Hne.
  destruct (find (fun x => EntityID x == EntityID item) c) as [x|] eqn:E.
  - apply find_some in E as [Hx Hxe]. text_prop. f_equal. apply list_elem_of_In in Hx.
    apply list_elem_of_lookup in Hx as [i Hi], Hin as [j Hj].
    assert (i = j) as ->; [|congruence].
    eapply NoDup_lookup; [exact Hn|..]; change (map EntityID c) with (EntityID <$> c); rewrite list_lookup_fmap.
    + by rewrite Hi.
    + rewrite Hj. cbn. by rewrite Hxe.
  - exfalso. apply list_elem_of_In in Hin. pose proof (find_none _ _ E item Hin) as H. cbv beta in H; by rewrite text_eqb_refl in H.
Qed.

Lemma limit_first w rest : hint_ok w -> exists k, limitDistinctHints (w :: rest) 8 = w :: k.
Proof.
  intros [Ht Hne]. unfold limitDistinctHints. cbn [limit_loop]. rewrite Ht. apply text_eqb_false in Hne as Hne'.
  assert ((w == "") = false) as -> by exact Hne'. cbn [existsb app]. cbv zeta.
  change ((0 <? 8) && (8 <=? len [w])) with false. cbv iota.
  destruct (limit_loop_spec rest [w] 8 ltac:(done) ltac:(apply NoDup_singleton) ltac:(by repeat constructor)) as ([k ->] & _).
  by exists k.
Qed.

(** The session after its target was noted. *)
Lemma noted_target sessionID location target s :
  TrimSpace sessionID <> [] -> item_ok target ->
  exists c, load sessionID (note sessionID location (Some target) s) = Some c /\ LastEntityID c = EntityID target.
Proof.
  unfold entityCatalogRecentStore in *. intros Hs Ht. unfold load, note. apply text_eqb_false in Hs.
  assert ((TrimSpace sessionID == "") = false) as -> by exact Hs. cbv zeta.
  eexists. split; [apply lookup_insert_eq|]. destruct location; unfold note_location, note_target; cbv zeta; split_if; by read_fields.
Qed.

(** What was grounded last is preferred next. Once a preview of a session has
    grounded a target, that target is chosen among any matches of distinct entities
    it is one of, and its name is the first hot word the session's transcriber is
    given. *)
Theorem grounded_target_is_remembered items req r s target :
  let c := NewEntityCatalog items in
  let t := firstNonEmpty [sr_StablePrefix req; sr_PartialText req] in
  NoDup (map EntityID c) -> store_ok s -> TrimSpace (sr_SessionID req) <> [] -> t <> [] ->
  normalizeSemanticSlotDomain (sp_Domain r) = SemanticSlotDomainSmartHome ->
  (singleCatalogMatch (smartHomeMatches c s (sr_SessionID req) t).2).1 = Some target ->
  let s' := (GroundPreview c req r s).1 in
  (forall ms m, NoDup (match_ids ms) -> m ∈ ms -> Item m = target ->
     map Item (preferSessionContextMatches s' (sr_SessionID req) ms) = [target]) /\
  head (Hotwords (TranscriptionHintsForSession c (sr_SessionID req) s')) = Some (CanonicalName target).
Proof.
  cbv zeta. set (c := NewEntityCatalog items). set (t := firstNonEmpty _). intros Hnd Hs Hid Ht Hd Hg.
  pose proof (new_catalog_ok items) as Hok. fold c in Hok. clearbody c.
  pose proof (smart_home_mentions c s (sr_SessionID req) t) as Hm.
  pose proof (ground_smart_home_names c s (sr_SessionID req) t r) as Hn.
  assert (Hstep : (GroundPreview c req r s).1 = (groundSmartHome c s (sr_SessionID req) t r).1.1).
  { unfold GroundPreview. fold t. destruct (smartHomeMatches c s (sr_SessionID req) t) as [rooms targets].
    destruct Hm as [_ Hm]. cbn [snd] in Hg.
    destruct (single_mentioned _ _ _ Hm Hg) as (Hin & _).
    assert (Hc : 0 < len c) by (apply len_pos; intros ->; by apply not_elem_of_nil in Hin).
    assert ((len c =? 0) = false) as -> by (apply Z.eqb_neq; lia).
    assert (Htr : TrimSpace t = t) by apply firstNonEmpty_trimmed. rewrite Htr. cbv zeta.
    assert ((t == "") = false) as -> by (by apply text_eqb_false). rewrite Hd, text_eqb_refl. cbn [orb negb].
    by destruct (groundSmartHome c s (sr_SessionID req) t r) as [[s1 g1] changed]. }
  rewrite Hstep. destruct (smartHomeMatches c s (sr_SessionID req) t) as [rooms targets]. destruct Hm as [Hm1 Hm2].
  cbn [snd] in Hg. destruct (groundSmartHome _ _ _ _ _) as [[s1 g1] changed]. destruct Hn as [-> _].
  cbn [fst]. rewrite Hg.
  destruct (single_mentioned _ _ _ Hm2 Hg) as (Hin & _). rewrite Forall_forall in Hok. pose proof (Hok _ Hin) as Hto.
  set (location := (singleCatalogMatch rooms).1).
  assert (Hl : all_ok location).
  { intros item Hi. apply Hok. destruct (single_mentioned _ _ _ Hm1 Hi) as (Hi' & _). done. }
  assert (noted (sr_SessionID req) location (Some target) s = note (sr_SessionID req) location (Some target) s) as ->
    by (by destruct location).
  assert (Hso : store_ok (note (sr_SessionID req) location (Some target) s)).
  { apply note_ok; [done| |done]. by intros item [= <-]. }
  destruct (noted_target (sr_SessionID req) location target s Hid Hto) as (x & Hx & Hlast).
  generalize dependent (note (sr_SessionID req) location (Some target) s). intros s' Hso Hx.
  assert (Hxo : context_ok x).
  { unfold load in Hx. split_if_in Hx; [done|]. by apply Hso in Hx as (_ & _ & Hx). }
  destruct Hto as [[Hi1 Hi2] _ [Hn1 Hn2]]. split.
  - intros ms m Hms Hmin Hitem. destruct (decide (1 < len ms)) as [Hlen|Hlen].
    + rewrite (last_entity_wins s' (sr_SessionID req) x ms m); try done; [by cbn; rewrite Hitem|congruence|congruence].
    + destruct ms as [|m1 [|m2 ms]]; [by apply not_elem_of_nil in Hmin| |].
      * apply list_elem_of_singleton in Hmin. subst m1 target. done.
      * exfalso. apply Hlen. rewrite !len_cons. pose proof (len_nonneg ms). lia.
  - unfold TranscriptionHintsForSession. apply text_eqb_false in Hid.
    assert ((TrimSpace (sr_SessionID req) == "") = false) as -> by exact Hid. rewrite Hx. cbv zeta.
    destruct Hxo as [[_ _ _ Hh] _]. destruct (RecentEntityIDs x) as [|id ids]; cbn in Hh; [congruence|].
    assert (id = EntityID target) as -> by congruence. cbn [app]. rewrite hint_words_flat. cbn [flat_map].
    assert (Hih : item_hints c (EntityID target) = CanonicalName target :: cloneStringSlice (Aliases target)).
    { unfold item_hints. rewrite item_by_id_unique by done. unfold cloneStringSlice. cbn [map List.filter]. rewrite Hn1.
      apply text_eqb_false in Hn2 as Hn2'. assert ((CanonicalName target == "") = false) as -> by exact Hn2'. done. }
    rewrite Hih. cbn [app]. set (rest := cloneStringSlice (Aliases target) ++ _). destruct (limit_first (CanonicalName target) rest ltac:(by split)) as [k Hk].
    rewrite Hk. done.
Qed.

(** ** The seed catalogue *)

Definition demo_slot_request (session said : text) : SemanticSlotParseRequest :=
  mkSlotRequest session "" "" said said 0 f_zero 0 TurnArbitrationStagePreviewOnly false "" "" [].
Definition demo_slot_answer (domain : text) : SemanticSlotParseResult :=
  zero_parse <|sp_Domain := domain|> <|sp_Actionability := SemanticSlotActionabilityObserveOnly|>
    <|sp_MissingSlots := texts ["target"]|>.
Definition seed_domain (item : EntityCatalogItem) : text :=
  if Namespace item == entityNamespaceSmartHome then SemanticSlotDomainSmartHome else SemanticSlotDomainDesktopAssistant.

(** Every item of the seed catalogue is reached by its own name, at once, and the
    door lock only with a confirmation. *)
Example seed_items_are_reached :
  forallb (fun item =>
    let r := (GroundPreview DefaultSeedEntityCatalog (demo_slot_request "s1" (CanonicalName item))
                (demo_slot_answer (seed_domain item)) ∅).2 in
    sp_Grounded r && Bool.eqb (sp_RiskConfirmRequired r) (EntityID item == "device_group_entry_door_lock") &&
    (if EntityType item == entityTypeRoom then sp_CanonicalLocation r == CanonicalName item
     else (sp_CanonicalTarget r == CanonicalName item) && (len (sp_MissingSlots r) =? 0))) DefaultSeedEntityCatalog = true.
Proof. by vm_compute. Qed.

Definition demo_lamp : SemanticSlotParseResult := demo_slot_answer SemanticSlotDomainSmartHome.

Lemma ambiguity_asks_back_witness :
  len (smartHomeMatches DefaultSeedEntityCatalog ∅ "s1" "打开灯").2 = 2 /\
  asks_back "target" (GroundPreview DefaultSeedEntityCatalog (demo_slot_request "s1" "打开灯") demo_lamp ∅).2.
Proof.
  split; [by vm_compute|].
  pose proof (ambiguity_asks_back DefaultSeedEntityCatalog (demo_slot_request "s1" "打开灯") demo_lamp ∅
    ltac:(by vm_compute) ltac:(by vm_compute) ltac:(by vm_compute)) as H. cbv zeta in H.
  destruct (smartHomeMatches _ _ _ _) as [rooms targets] eqn:E. apply H.
  change targets with (rooms, targets).2. rewrite <- E. by vm_compute.
Defined.

Definition demo_study : SemanticSlotParseRequest := demo_slot_request "s1" "打开书房灯".
Definition demo_store_after : entityCatalogRecentStore := (GroundPreview DefaultSeedEntityCatalog demo_study demo_lamp ∅).1.

Lemma grounding_is_per_session_witness :
  TrimSpace "s2" <> TrimSpace (sr_SessionID demo_study) /\
  (GroundPreview DefaultSeedEntityCatalog (demo_slot_request "s2" "打开灯") demo_lamp demo_store_after).2
    = (GroundPreview DefaultSeedEntityCatalog (demo_slot_request "s2" "打开灯") demo_lamp ∅).2.
Proof.
  split; [by vm_compute|].
  destruct (grounding_is_per_session DefaultSeedEntityCatalog demo_study demo_lamp ∅ "s2" (demo_slot_request "s2" "打开灯")
    demo_lamp ltac:(by vm_compute) ltac:(by vm_compute)) as (_ & _ & H). exact H.
Defined.

Definition seed_items : list EntityCatalogItem := DefaultSeedEntityCatalog.
Definition study_light : EntityCatalogItem :=
  Eval vm_compute in List.nth 5 DefaultSeedEntityCatalog (mkItem "" "" "" "" "" "" "" [] []).

Lemma grounded_target_is_remembered_witness :
  head (Hotwords (TranscriptionHintsForSession (NewEntityCatalog seed_items) "s1"
    (GroundPreview (NewEntityCatalog seed_items) demo_study demo_lamp ∅).1)) = Some (txt "书房灯") /\
  sp_CanonicalTarget (GroundPreview DefaultSeedEntityCatalog (demo_slot_request "s1" "打开灯") demo_lamp demo_store_after).2
    = txt "书房灯".
Proof.
  split; [|by vm_compute].
  destruct (grounded_target_is_remembered seed_items demo_study demo_lamp ∅ study_light
    ltac:(apply (bool_decide_unpack _); by vm_compute) ltac:(apply map_Forall_empty) ltac:(by vm_compute)
    ltac:(by vm_compute) ltac:(by vm_compute) ltac:(by vm_compute)) as [_ H]. exact H.
Defined.
