(* ===== verification/SlotParser.v ===== *)
(** * The parsers that answer a preview

    What becomes of a model's answer before the preview session sees it: the JSON
    object is cut out of the text and its fields are brought into the closed
    vocabularies (internal/voice/semantic_judge.go, semantic_slot_parser.go); the
    prompt profile adds its hints to the request (semantic_slot_profiles.go); the
    catalogue grounds the result (entity_catalog.go). [buildSlotParser] composes
    them as internal/app/app.go does. The chat model and the JSON decoder are
    arguments: the theorems hold whatever they answer. *)

From S2P Require Import Prelude GoText GoOrder GoFloat Contracts Lexical Vocabulary.
From S2P Require Import TurnDetector BargeIn Playback Semantic SlotValues EntityCatalog EntityGrounding.

(** ** Decoding *)

Record semanticSlotParserJSON := mkSlotJSON {
  js_Domain : text;
  js_TaskFamily : text;
  js_Intent : text;
  js_SlotStatus : text;
  js_Actionability : text;
  js_ClarifyNeeded : bool;
  js_MissingSlots : list text;
  js_AmbiguousSlots : list text;
  js_Confidence : float64;
  js_Reason : text
}.

Record semanticJudgeJSON := mkJudgeJSON {
  jj_UtteranceStatus : text;
  jj_InterruptionIntent : text;
  jj_TaskFamily : text;
  jj_SlotReadinessHint : text;
  jj_DynamicWaitPolicy : text;
  jj_WaitDeltaMs : Z;
  jj_Confidence : float64;
  jj_Reason : text
}.

(** [strings.IndexByte] and [strings.LastIndexByte] of an ASCII byte. *)
Fixpoint index_from (b : rune) (s : text) (i : Z) : Z :=
  match s with
  | [] => -1
  | r :: s => if r =? b then i else index_from b s (i + 1)
  end.
Definition IndexByte (s : text) (b : rune) : Z := index_from b s 0.
Definition LastIndexByte (s : text) (b : rune) : Z :=
  fst (fold_left (fun '(last, i) r => (if r =? b then i else last, i + 1)) s (-1, 0)).

(** The JSON object of a model's answer: from the first brace to the last. *)
Definition json_object (raw : text) : result text text :=
  let raw := TrimSpace raw in
  if raw == "" then Err (txt "returned empty content")
  else
    let start := IndexByte raw 123 in
    let stop := LastIndexByte raw 125 in
    if (start <? 0) || (stop <=? start) then Err (txt "did not return json")
    else Ok (take (Z.to_nat (stop + 1 - start)) (drop (Z.to_nat start) raw)).

(** [json.Unmarshal] into the two structs, and the chat model's [Complete]: the
    prompts of a request are not spelled out, the model is asked with the request
    itself. *)
Class SemanticServices (S : Type) := {
  unmarshal_slots : text -> result text semanticSlotParserJSON;
  unmarshal_judgement : text -> result text semanticJudgeJSON;
  complete_slots_prompt : SemanticSlotParseRequest -> S -> S * result text text;
  complete_judge_prompt : text -> text -> S -> S * result text text
}.

Section Parsers.
Context {S : Type} `{!SemanticServices S}.

Definition decodeSemanticSlotParseResult (raw : text) : result text SemanticSlotParseResult :=
  let! object := json_object raw in
  let! decoded := unmarshal_slots object in
  Ok (zero_parse
    <|sp_Domain := normalizeSemanticSlotDomain (js_Domain decoded)|>
    <|sp_TaskFamily := normalizeSemanticTaskFamily (js_TaskFamily decoded)|>
    <|sp_Intent := normalizeSemanticSlotLabel (js_Intent decoded) "unknown"|>
    <|sp_SlotStatus := normalizeSemanticSlotStatus (js_SlotStatus decoded)|>
    <|sp_Actionability := normalizeSemanticSlotActionability (js_Actionability decoded)|>
    <|sp_ClarifyNeeded := js_ClarifyNeeded decoded|>
    <|sp_MissingSlots := normalizeSemanticSlotList (js_MissingSlots decoded)|>
    <|sp_AmbiguousSlots := normalizeSemanticSlotList (js_AmbiguousSlots decoded)|>
    <|sp_Confidence := clampUnit (js_Confidence decoded)|>
    <|sp_Reason := normalizeSemanticReason (js_Reason decoded)|>).

Definition decodeSemanticTurnJudgement (raw : text) : result text SemanticTurnJudgement :=
  let! object := json_object raw in
  let! decoded := unmarshal_judgement object in
  Ok (mkJudgement [] [] []
        (normalizeSemanticUtteranceStatus (jj_UtteranceStatus decoded))
        (normalizeSemanticIntent (jj_InterruptionIntent decoded))
        (normalizeSemanticTaskFamily (jj_TaskFamily decoded))
        (normalizeSemanticSlotReadinessHint (jj_SlotReadinessHint decoded))
        (normalizeSemanticWaitPolicy (jj_DynamicWaitPolicy decoded))
        (clampSemanticWaitDeltaMs (jj_WaitDeltaMs decoded))
        (clampUnit (jj_Confidence decoded))
        (normalizeSemanticReason (jj_Reason decoded)) []).

(** ** The language-model parsers *)

(** A parser of previews, over the state of the services it uses. *)
Definition slot_parser (T : Type) : Type := SemanticSlotParseRequest -> T -> T * result text SemanticSlotParseResult.

Definition LLMSemanticSlotParser : slot_parser S := fun req s =>
  let '(s, response) := complete_slots_prompt req s in
  (s, let! raw := response in
      let! result := decodeSemanticSlotParseResult raw in
      let result := result <|sp_CandidateKey := semanticCandidateKey (sr_StablePrefix req) (sr_PartialText req)|>
        <|sp_PartialText := TrimSpace (sr_PartialText req)|> <|sp_StablePrefix := TrimSpace (sr_StablePrefix req)|> in
      Ok (if sp_Source result == "" then result <|sp_Source := txt "llm_semantic_slot_parser"|> else result)).

Definition JudgePreview (partialText stablePrefix : text) (s : S) : S * result text SemanticTurnJudgement :=
  let '(s, response) := complete_judge_prompt partialText stablePrefix s in
  (s, let! raw := response in
      let! j := decodeSemanticTurnJudgement raw in
      Ok (mkJudgement (semanticCandidateKey stablePrefix partialText) (TrimSpace partialText) (TrimSpace stablePrefix)
            (sj_UtteranceStatus j) (sj_InterruptionIntent j) (sj_TaskFamily j) (sj_SlotReadinessHint j)
            (sj_DynamicWaitPolicy j) (sj_WaitDeltaMs j) (sj_Confidence j) (sj_Reason j)
            (if sj_Source j == "" then txt "llm_semantic_judge" else sj_Source j))).
End Parsers.

(** ** Prompt profiles *)

Definition BuiltInEntityCatalogProfileSeedCompanion : text := "seed_companion".

(** [normalizeBuiltInEntityCatalogProfile] is the same [switch]. *)
Definition normalizeSemanticSlotPromptProfile (profile : text) : text :=
  let p := ToLower (TrimSpace profile) in
  if existsb (text_eqb p) (texts [""; "off"; "none"; "disabled"]) then []
  else if existsb (text_eqb p) [txt "seed"; txt "demo"; BuiltInEntityCatalogProfileSeedCompanion]
  then BuiltInEntityCatalogProfileSeedCompanion else p.

(** The loops keep the first of equal lines; [seen] holds what was kept. *)
Definition keep_new (kept : list text) (line : text) : list text :=
  if existsb (text_eqb line) kept then kept else kept ++ [line].

Definition normalizeSemanticSlotPromptHints (lines : list text) : list text :=
  fold_left (fun kept line => let trimmed := TrimSpace line in if trimmed == "" then kept else keep_new kept trimmed) lines [].

Definition mergeSemanticSlotPromptHints (base extra : list text) : list text :=
  fold_left keep_new (normalizeSemanticSlotPromptHints extra) (normalizeSemanticSlotPromptHints base).

Definition ProfileAwareSemanticSlotParser {T} (inner : slot_parser T) (promptProfile : text) (promptHints : list text)
    : slot_parser T := fun req s =>
  let profile := if TrimSpace (sr_PromptProfile req) == "" then promptProfile else sr_PromptProfile req in
  let hints := mergeSemanticSlotPromptHints (sr_PromptHints req) promptHints in
  inner (mkSlotRequest (sr_SessionID req) (sr_DeviceID req) (sr_ClientType req) (sr_PartialText req) (sr_StablePrefix req)
    (sr_AudioMs req) (sr_Stability req) (sr_StableForMs req) (sr_TurnStage req) (sr_EndpointHinted req)
    (sr_SemanticIntent req) profile hints) s.

Definition NewProfileAwareSemanticSlotParser {T} (inner : slot_parser T) (profile : text) (hints : list text) : slot_parser T :=
  let profile := normalizeSemanticSlotPromptProfile profile in
  let hints := normalizeSemanticSlotPromptHints hints in
  if (profile == "") && (len hints =? 0) then inner else ProfileAwareSemanticSlotParser inner profile hints.

(** ** Grounded parsing *)

Definition GroundedSemanticSlotParser {T} (inner : slot_parser T) (c : EntityCatalog) : slot_parser (T * entityCatalogRecentStore) :=
  fun req '(s, recent) =>
    let '(s, answer) := inner req s in
    match answer with
    | Err err => ((s, recent), Err err)
    | Ok result => let '(recent, grounded) := GroundPreview c req result recent in ((s, recent), Ok grounded)
    end.

Definition NewBuiltInEntityCatalogGrounder (profile : text) : option EntityCatalog :=
  if normalizeSemanticSlotPromptProfile profile == BuiltInEntityCatalogProfileSeedCompanion then Some DefaultSeedEntityCatalog
  else None.

(** [buildVoiceSemanticSlotParser], past its configuration checks. *)
Definition buildSlotParser {S} `{!SemanticServices S} (profile : text) : slot_parser (S * entityCatalogRecentStore) :=
  let parser := NewProfileAwareSemanticSlotParser LLMSemanticSlotParser profile [] in
  match NewBuiltInEntityCatalogGrounder profile with
  | None => fun req '(s, recent) => let '(s, answer) := parser req s in ((s, recent), answer)
  | Some c => GroundedSemanticSlotParser parser c
  end.

(** ** Laws: prompt hints *)

Lemma keep_new_keeps kept line x : x ∈ kept -> x ∈ keep_new kept line.
Proof. intros H. unfold keep_new. split_if; [done|]. apply elem_of_app. by left. Qed.

Lemma keep_new_has kept line : line ∈ keep_new kept line.
Proof. unfold keep_new. destruct (existsb _ _) eqn:E; [by apply existsb_eqb_elem|]. apply elem_of_app. right. by left. Qed.

Lemma fold_keep_new_keeps lines kept x : x ∈ kept \/ x ∈ lines -> x ∈ fold_left keep_new lines kept.
Proof.
  revert kept. induction lines as [|l lines IH]; intros kept; cbn [fold_left].
  - intros [H|H%not_elem_of_nil]; done.
  - intros [H|[->|H]%elem_of_cons]; apply IH; [left; by apply keep_new_keeps | left; apply keep_new_has | by right].
Qed.

Lemma keep_new_known kept line : line ∈ kept -> keep_new kept line = kept.
Proof. unfold keep_new. by intros ->%existsb_eqb_elem. Qed.

Lemma fold_keep_new_step kept line acc :
  fold_left keep_new (keep_new kept line) acc = keep_new (fold_left keep_new kept acc) line.
Proof.
  unfold keep_new at 2. destruct (existsb (text_eqb line) kept) eqn:E.
  - symmetry. apply keep_new_known, fold_keep_new_keeps. right. by apply existsb_eqb_elem.
  - by rewrite fold_left_app.
Qed.

(** Merging prompt hints is normalizing their concatenation: the lines of the
    request come first, then those of the profile, trimmed, without blanks and each
    once - the two loops of the merge do what the one loop of the normalizer does
    on both lists. *)
Theorem merge_hints_is_normalize base extra :
  mergeSemanticSlotPromptHints base extra = normalizeSemanticSlotPromptHints (base ++ extra) /\
  normalizeSemanticSlotPromptHints (normalizeSemanticSlotPromptHints base) = normalizeSemanticSlotPromptHints base.
Proof.
  set (step := fun kept line => let trimmed := TrimSpace line in if trimmed == "" then kept else keep_new kept trimmed).
  assert (Hstep : forall lines kept acc, fold_left keep_new (fold_left step lines kept) acc
                                         = fold_left step lines (fold_left keep_new kept acc)).
  { induction lines as [|l lines IH]; intros kept acc; cbn [fold_left]; [done|]. rewrite IH. f_equal.
    unfold step. cbv zeta. split_if; [done|]. apply fold_keep_new_step. }
  split.
  - unfold mergeSemanticSlotPromptHints, normalizeSemanticSlotPromptHints. fold step. rewrite fold_left_app. apply Hstep.
  - assert (Hn : forall lines kept, Forall hint_ok lines -> fold_left step lines kept = fold_left keep_new lines kept).
    { induction lines as [|l lines IH]; intros kept Hl; cbn [fold_left]; [done|].
      apply Forall_cons in Hl as [[Ht Hne] Hl]. rewrite IH by done. f_equal. unfold step. cbv zeta. rewrite Ht.
      apply text_eqb_false in Hne. assert ((l == "") = false) as -> by exact Hne. done. }
    assert (Hok : Forall hint_ok (normalizeSemanticSlotPromptHints base)).
    { unfold normalizeSemanticSlotPromptHints. apply fold_left_inv; [done|]. intros kept line _ Hk. cbv zeta.
      split_if; [done|]. text_prop. unfold keep_new. split_if; [done|]. apply Forall_app. split; [done|].
      constructor; [split; [apply trimmed_TrimSpace|done]|done]. }
    unfold normalizeSemanticSlotPromptHints in *. fold step in Hok |- *. rewrite Hn by exact Hok.
    rewrite Hstep. done.
Qed.

(** ** Laws: cutting the object out *)

Lemma index_from_app b s t i : ContainsRune s b = false -> index_from b (s ++ b :: t) i = i + len s.
Proof.
  revert i. induction s as [|r s IH]; intros i; cbn [app index_from].
  - rewrite Z.eqb_refl, len_nil. lia.
  - unfold ContainsRune. cbn [existsb]. intros [Hr Hs]%orb_false_iff. rewrite Z.eqb_sym, Hr, IH by done.
    rewrite len_cons. lia.
Qed.

Lemma last_index_skip b s last i : ContainsRune s b = false ->
  fold_left (fun '(last, i) r => (if r =? b then i else last, i + 1)) s (last, i) = (last, i + len s).
Proof.
  revert last i. induction s as [|r s IH]; intros last i; cbn [fold_left].
  - rewrite len_nil. intros _. f_equal. lia.
  - unfold ContainsRune. cbn [existsb]. intros [Hr Hs]%orb_false_iff. rewrite Z.eqb_sym, Hr, IH by done.
    rewrite len_cons. f_equal. lia.
Qed.

Lemma last_index_counts b s last i :
  snd (fold_left (fun '(last, i) r => (if r =? b then i else last, i + 1)) s (last, i)) = i + len s.
Proof.
  revert last i. induction s as [|r s IH]; intros last i; cbn [fold_left]; [rewrite len_nil; cbn; lia|].
  rewrite IH, len_cons. lia.
Qed.

Lemma last_index_app b s t : ContainsRune t b = false -> LastIndexByte (s ++ b :: t) b = len s.
Proof.
  intros Ht. unfold LastIndexByte. rewrite fold_left_app. pose proof (last_index_counts b s (-1) 0) as H.
  destruct (fold_left _ s (-1, 0)) as [last i]. cbn [snd] in H. subst i. cbn [fold_left]. rewrite Z.eqb_refl.
  rewrite last_index_skip by done. cbn. lia.
Qed.

Lemma TrimLeft_app_keep f s t : TrimLeftFunc f t = t -> TrimLeftFunc f (s ++ t) = TrimLeftFunc f s ++ t.
Proof. intros H. induction s as [|r s IH]; cbn [app TrimLeftFunc]; [done|]. by destruct (f r). Qed.

Lemma ContainsRune_app s t b : ContainsRune (s ++ t) b = ContainsRune s b || ContainsRune t b.
Proof. apply existsb_app. Qed.

Lemma ContainsRune_reverse s b : ContainsRune (reverse s) b = ContainsRune s b.
Proof.
  unfold ContainsRune. apply eq_true_iff_eq. rewrite !existsb_exists.
  by setoid_rewrite <- list_elem_of_In; setoid_rewrite elem_of_reverse.
Qed.

Lemma ContainsRune_trim f s b : ContainsRune s b = false -> ContainsRune (TrimLeftFunc f s) b = false.
Proof.
  destruct (TrimLeftFunc_suffix f s) as (l & Hs & _). rewrite Hs at 1. rewrite ContainsRune_app.
  by intros [_ H]%orb_false_iff.
Qed.

(** White space around a text that starts and ends with something else. *)
Lemma TrimSpace_around pre core post a z :
  IsSpace a = false -> IsSpace z = false ->
  exists p q, TrimSpace (pre ++ (a :: core ++ [z]) ++ post) = p ++ (a :: core ++ [z]) ++ q /\
    (forall b, ContainsRune pre b = false -> ContainsRune p b = false) /\
    (forall b, ContainsRune post b = false -> ContainsRune q b = false).
Proof.
  intros Ha Hz. exists (TrimLeftFunc IsSpace pre), (reverse (TrimLeftFunc IsSpace (reverse post))).
  split; [|split].
  - unfold TrimSpace, TrimFunc, TrimRightFunc.
    rewrite (TrimLeft_app_keep IsSpace pre) by (by apply TrimLeftFunc_id).
    rewrite !reverse_app, <- app_assoc, (TrimLeft_app_keep IsSpace (reverse post)).
    + rewrite !reverse_app, !reverse_involutive. by rewrite <- app_assoc.
    + cbn [app]. rewrite reverse_cons, reverse_app. cbn. by apply TrimLeftFunc_id.
  - intros b. apply ContainsRune_trim.
  - intros b Hb. rewrite ContainsRune_reverse. apply ContainsRune_trim. by rewrite ContainsRune_reverse.
Qed.

(** The answer's object is found in whatever surrounds it. An answer that holds
    an object - a brace, anything, a closing brace - after text without an opening
    brace and before text without a closing one, such as a Markdown fence, is cut
    down to exactly that object. *)
Theorem json_object_found pre body post :
  ContainsRune pre 123 = false -> ContainsRune post 125 = false ->
  json_object (pre ++ (123 :: body ++ [125]) ++ post) = Ok (123 :: body ++ [125]).
Proof.
  intros Hpre Hpost. unfold json_object.
  destruct (TrimSpace_around pre body post 123 125 eq_refl eq_refl) as (p & q & -> & Hp & Hq).
  specialize (Hp 123 Hpre). specialize (Hq 125 Hpost). clear Hpre Hpost. cbv zeta.
  assert ((p ++ (123 :: body ++ [125]) ++ q == "") = false) as -> by (apply text_eqb_false; by destruct p).
  assert (IndexByte (p ++ (123 :: body ++ [125]) ++ q) 123 = len p) as -> by (by apply (index_from_app 123 p)).
  assert (LastIndexByte (p ++ (123 :: body ++ [125]) ++ q) 125 = len p + (1 + len body)) as ->.
  { replace (p ++ (123 :: body ++ [125]) ++ q) with ((p ++ 123 :: body) ++ 125 :: q)
      by (cbn [app]; rewrite <- !app_assoc; done).
    by rewrite last_index_app, len_app, len_cons. }
  pose proof (len_nonneg p). pose proof (len_nonneg body).
  assert (((len p <? 0) || (len p + (1 + len body) <=? len p)) = false) as ->
    by (apply orb_false_iff; split; [apply Z.ltb_ge | apply Z.leb_gt]; lia).
  f_equal. unfold len. rewrite Nat2Z.id, drop_app_length.
  rewrite take_app_le by (cbn; rewrite length_app; cbn; lia).
  apply take_ge. cbn. rewrite length_app. cbn. lia.
Qed.

Lemma json_object_found_witness :
  json_object (txt "```json" ++ txt "{}" ++ txt "```") = Ok (txt "{}").
Proof. exact (json_object_found (txt "```json") [] (txt "```") eq_refl eq_refl). Defined.

(** ** Laws: the type of an answer *)

(** The key of the preview that was asked about and the vocabularies: closed labels, a confidence in the unit
    interval, a known risk level or none yet. *)
Definition typed_of (want key domain family status actionability risk : text) (confidence : float64) : Prop :=
  key = want /\ domain ∈ SemanticSlotDomainUnknown :: slot_domains /\
  family ∈ SemanticTaskFamilyUnknown :: task_families /\
  status ∈ SemanticSlotStatusUnknown :: slot_statuses /\
  actionability ∈ SemanticSlotActionabilityObserveOnly :: slot_actionabilities /\
  (risk = [] \/ risk ∈ SemanticRiskLevelUnknown :: risk_levels) /\ in_unit confidence.
Definition typed_parse (want : text) (r : SemanticSlotParseResult) : Prop :=
  typed_of want (sp_CandidateKey r) (sp_Domain r) (sp_TaskFamily r) (sp_SlotStatus r) (sp_Actionability r) (sp_RiskLevel r) (sp_Confidence r).

Lemma normalize_to_elem cases d v : normalize_to cases d v ∈ d :: cases.
Proof. apply elem_of_cons. destruct (normalize_to_range cases d v); auto. Qed.

Lemma typed_decoded key domain family status actionability confidence :
  typed_of key key (normalizeSemanticSlotDomain domain) (normalizeSemanticTaskFamily family) (normalizeSemanticSlotStatus status)
    (normalizeSemanticSlotActionability actionability) [] (clampUnit confidence).
Proof.
  split; [done|]. split; [apply normalize_to_elem|]. split; [apply normalize_to_elem|]. split; [apply normalize_to_elem|].
  split; [apply normalize_to_elem|]. split; [by left|]. apply clamp_unit_in_unit.
Qed.

Lemma stronger_known left right : strongerSemanticRiskLevel left right ∈ SemanticRiskLevelUnknown :: risk_levels.
Proof. unfold strongerSemanticRiskLevel. cbv zeta. split_if; apply risk_level_known. Qed.

Lemma typed_of_status w k d f st st' a risk c :
  typed_of w k d f st a risk c -> st' ∈ SemanticSlotStatusUnknown :: slot_statuses -> typed_of w k d f st' a risk c.
Proof. unfold typed_of. tauto. Qed.
Lemma typed_of_actionability w k d f st a a' risk c :
  typed_of w k d f st a risk c -> a' ∈ SemanticSlotActionabilityObserveOnly :: slot_actionabilities -> typed_of w k d f st a' risk c.
Proof. unfold typed_of. tauto. Qed.
Lemma typed_of_risk w k d f st a risk left right c :
  typed_of w k d f st a risk c -> typed_of w k d f st a (strongerSemanticRiskLevel left right) c.
Proof. unfold typed_of. pose proof (stronger_known left right). tauto. Qed.

Ltac known := apply existsb_eqb_elem; by vm_compute.

Lemma typed_with key location target r : typed_parse key r -> typed_parse key (with_target target (with_location location r)).
Proof.
  intros H. assert (Hl : typed_parse key (with_location location r)).
  { destruct location; [|done]. unfold typed_parse, with_location. read_fields. by eapply typed_of_risk. }
  destruct target; [|done]. unfold typed_parse in *. cbn [with_target]. read_fields. by eapply typed_of_risk.
Qed.

Lemma typed_ambiguous key reason r : typed_parse key r -> typed_parse key (ambiguous_slot reason r).
Proof.
  unfold typed_parse, ambiguous_slot. read_fields. intros H.
  eapply typed_of_actionability; [eapply typed_of_status; [exact H|]|]; known.
Qed.

Lemma typed_complete key reason r : typed_parse key r -> typed_parse key (complete_slots reason r).
Proof.
  intros H. unfold typed_parse, complete_slots in *. cbv zeta.
  split_if; read_fields; (eapply typed_of_actionability; [eapply typed_of_status; [exact H|]|]; known).
Qed.

Lemma typed_lists key missing ambiguous r :
  typed_parse key r -> typed_parse key ((r <|sp_MissingSlots := missing|>) <|sp_AmbiguousSlots := ambiguous|>).
Proof. unfold typed_parse. by read_fields. Qed.

Lemma typed_draft key r : typed_parse key r -> typed_parse key (r <|sp_Actionability := SemanticSlotActionabilityDraftOK|>).
Proof. unfold typed_parse. read_fields. intros H. eapply typed_of_actionability; [exact H | known]. Qed.

Ltac typed_step Hn :=
  lazymatch goal with
  | |- typed_parse _ (if _ then _ else _) => split_if
  | |- typed_parse _ (complete_slots _ _) => apply typed_complete
  | |- typed_parse _ (ambiguous_slot _ _) => apply typed_ambiguous
  | |- typed_parse _ (field_map sp_AmbiguousSlots _ (field_map sp_MissingSlots _ _)) => apply typed_lists
  | |- typed_parse _ (field_map sp_Actionability _ _) => apply typed_draft
  | |- typed_parse _ (with_target _ _) => exact Hn
  end.

Lemma typed_smart_home key c s sessionID t r : typed_parse key r -> typed_parse key (groundSmartHome c s sessionID t r).1.2.
Proof.
  intros H. unfold groundSmartHome. destruct (smartHomeMatches c s sessionID t) as [rooms targets].
  destruct (singleCatalogMatch rooms) as [location locAmb], (singleCatalogMatch targets) as [target tgtAmb].
  pose proof (typed_with key location target r H) as Hn.
  destruct (negb _ && _ && _ && _); [done|]. destruct locAmb, tgtAmb; cbv zeta; cbn [fst snd]; repeat typed_step Hn.
Qed.

Lemma typed_desktop key c s sessionID t r : typed_parse key r -> typed_parse key (groundDesktopAssistant c s sessionID t r).1.2.
Proof.
  intros H. unfold groundDesktopAssistant. destruct (singleCatalogMatch _) as [target amb].
  pose proof (typed_with key None target r H) as Hn. cbn [with_location] in Hn.
  destruct (negb _ && _); [done|]. destruct amb; cbv zeta; cbn [fst snd]; repeat typed_step Hn.
Qed.

Lemma typed_value key req r : typed_parse key r -> typed_parse key (normalizeSemanticSlotValue req r).
Proof.
  intros H. unfold normalizeSemanticSlotValue. cbv zeta. repeat (split_if; [exact H|]).
  assert (Ha : SemanticSlotActionabilityActCandidate ∈ SemanticSlotActionabilityObserveOnly :: slot_actionabilities) by known.
  assert (Hs : SemanticSlotStatusComplete ∈ SemanticSlotStatusUnknown :: slot_statuses) by known.
  unfold typed_parse in *. repeat (split_if; read_fields); try exact H;
    first [eapply typed_of_actionability; [eapply typed_of_status; [exact H|exact Hs]|exact Ha]
          | eapply typed_of_status; [exact H|exact Hs]].
Qed.

Lemma typed_gate key r : typed_parse key r -> typed_parse key (applySemanticSlotRiskGating r).
Proof.
  intros H. unfold applySemanticSlotRiskGating. destruct (detectSemanticRisk r) as [level reason]. split_if; [done|]. cbv zeta.
  assert (Ha : SemanticSlotActionabilityClarifyNeeded ∈ SemanticSlotActionabilityObserveOnly :: slot_actionabilities) by known.
  unfold typed_parse in *. repeat (split_if; read_fields);
    first [apply (typed_of_risk _ _ _ _ _ _ _ _ _ _ H)
          | eapply typed_of_actionability; [apply (typed_of_risk _ _ _ _ _ _ _ _ _ _ H)|exact Ha]].
Qed.

Lemma typed_ground key c req r s : typed_parse key r -> typed_parse key (GroundPreview c req r s).2.
Proof.
  intros H.
  assert (Hp : forall g source, typed_parse key g ->
    typed_parse key ((postProcessSemanticSlotResult req g) <|sp_Source := source|>)).
  { intros g source Hg. unfold postProcessSemanticSlotResult.
    pose proof (typed_gate key _ (typed_value key req g Hg)) as Hx. unfold typed_parse in *. by read_fields. }
  destruct (ground_preview_steps c req r s) as [->|[(s' & g & source & -> & E & _)|(s' & g & source & -> & E & _)]];
    [done| |]; cbn [snd]; apply Hp.
  - pose proof (typed_smart_home key c s (sr_SessionID req) (firstNonEmpty [sr_StablePrefix req; sr_PartialText req]) r H) as Hs.
    by rewrite E in Hs.
  - pose proof (typed_desktop key c s (sr_SessionID req) (firstNonEmpty [sr_StablePrefix req; sr_PartialText req]) r H) as Hs.
    by rewrite E in Hs.
Qed.

Section Answers.
Context {S : Type} `{!SemanticServices S}.

Lemma Ok_inj {A} (a b : A) : @Ok text A a = Ok b -> a = b.
Proof. by injection 1. Qed.

(** What the language-model parser returns: no risk level, and the key of the request. *)
Lemma llm_parser_typed req (s : S) r :
  (LLMSemanticSlotParser req s).2 = Ok r ->
  typed_parse (semanticCandidateKey (sr_StablePrefix req) (sr_PartialText req)) r /\ sp_RiskLevel r = [].
Proof.
  unfold LLMSemanticSlotParser. destruct (complete_slots_prompt req s) as [s' [raw|err]]; cbn [snd result_bind]; [|done].
  unfold decodeSemanticSlotParseResult. destruct (json_object raw) as [object|]; cbn [result_bind]; [|done].
  destruct (unmarshal_slots object) as [decoded|]; cbn [result_bind]; [|done].
  cbv zeta. intros H%Ok_inj. subst r. split_if; (split; [unfold typed_parse; read_fields; apply typed_decoded | by read_fields]).
Qed.

Lemma profile_parser_typed {T} (P : SemanticSlotParseRequest -> SemanticSlotParseResult -> Prop) (inner : slot_parser T) profile hints :
  (forall req s r, (inner req s).2 = Ok r -> P req r) ->
  (forall req req' r, sr_StablePrefix req = sr_StablePrefix req' -> sr_PartialText req = sr_PartialText req' -> P req r -> P req' r) ->
  forall req s r, (NewProfileAwareSemanticSlotParser inner profile hints req s).2 = Ok r -> P req r.
Proof.
  intros Hi Hk req s r. unfold NewProfileAwareSemanticSlotParser. cbv zeta. split_if; [apply Hi|].
  unfold ProfileAwareSemanticSlotParser. cbv zeta. intros H%Hi. by eapply Hk; [..|exact H].
Qed.

(** C36. Whatever the model answers, the preview gets a typed and gated result. A
    parse that comes out of the parser the server builds - language model, prompt
    profile, catalogue - carries the key of the preview it was asked about, labels
    of the closed vocabularies and a confidence between 0 and 1; and when its risk
    level is high it requires a confirmation and is not actionable. *)
Theorem parser_answers_are_typed profile req (s : S) recent r :
  (buildSlotParser profile req (s, recent)).2 = Ok r ->
  typed_parse (semanticCandidateKey (sr_StablePrefix req) (sr_PartialText req)) r /\ (high_risk r -> gated r).
Proof.
  unfold buildSlotParser. cbv zeta.
  pose proof (profile_parser_typed
    (fun req r => typed_parse (semanticCandidateKey (sr_StablePrefix req) (sr_PartialText req)) r /\ sp_RiskLevel r = [])
    LLMSemanticSlotParser profile [] llm_parser_typed) as Hp.
  specialize (Hp ltac:(intros ? ? ? H1 H2; cbv beta; by rewrite H1, H2)).
  destruct (NewBuiltInEntityCatalogGrounder profile) as [c|].
  - unfold GroundedSemanticSlotParser. specialize (Hp req s).
    destruct (NewProfileAwareSemanticSlotParser _ _ _ req s) as [s1 [r0|err]]; [|done].
    destruct (Hp r0 eq_refl) as [Ht Hr]. pose proof (typed_ground _ c req r0 recent Ht) as Hg.
    pose proof (ground_preview_steps c req r0 recent) as Hs. cbv zeta in Hs.
    destruct (GroundPreview c req r0 recent) as [recent' g]. cbn [snd] in *. intros [= <-]. split; [done|].
    intros Hh. destruct Hs as [[= _ ->]|[(s' & g' & source & [= _ ->] & _)|(s' & g' & source & [= _ ->] & _)]].
    + exfalso. unfold high_risk in Hh. rewrite Hr in Hh. by vm_compute in Hh.
    + unfold gated. read_fields. apply risky_gate. unfold high_risk in *. by read_fields_in Hh.
    + unfold gated. read_fields. apply risky_gate. unfold high_risk in *. by read_fields_in Hh.
  - specialize (Hp req s). destruct (NewProfileAwareSemanticSlotParser _ _ _ req s) as [s1 answer]. cbn [snd]. intros ->.
    destruct (Hp r eq_refl) as [Ht Hr]. split; [done|]. intros Hh. exfalso. unfold high_risk in Hh. rewrite Hr in Hh.
    by vm_compute in Hh.
Qed.

(** A parser that fails leaves no trace. When the model fails, or answers without
    an object or with one that does not decode, the caller gets the error and what
    the sessions have spoken of is unchanged. *)
Theorem parser_errors profile req (s : S) recent s' recent' err :
  buildSlotParser profile req (s, recent) = ((s', recent'), Err err) -> recent' = recent.
Proof.
  unfold buildSlotParser. cbv zeta. destruct (NewBuiltInEntityCatalogGrounder profile) as [c|].
  - unfold GroundedSemanticSlotParser. destruct (NewProfileAwareSemanticSlotParser _ _ _ req s) as [s1 [r0|e]].
    + by destruct (GroundPreview c req r0 recent).
    + by intros [= _ <- _].
  - destruct (NewProfileAwareSemanticSlotParser _ _ _ req s) as [s1 answer]. by intros [= _ <- _].
Qed.
End Answers.

(** ** A concrete parser *)

(** A model that always answers the same object, unless nothing was said. *)
#[local] Instance demo_services : SemanticServices unit := {
  unmarshal_slots := fun _ => Ok (mkSlotJSON "smart_home" "Structured_Command" "turn on" "partial" "DRAFT_OK" false
    (texts ["target"]) [] f_one "missing_target");
  unmarshal_judgement := fun _ => Err (txt "none");
  complete_slots_prompt := fun req s => (s, if sr_PartialText req == "" then Err (txt "offline") else Ok (txt "```{}```"));
  complete_judge_prompt := fun _ _ s => (s, Err (txt "offline"))
}.

Definition demo_lock_request : SemanticSlotParseRequest := demo_slot_request "s1" "打开大门锁".
Definition demo_lock_answer : SemanticSlotParseResult :=
  Eval vm_compute in match (buildSlotParser (S := unit) "seed" demo_lock_request (tt, ∅)).2 with Ok r => r | Err _ => zero_parse end.

(** The front door is not opened on the strength of a parse alone. *)
Lemma parser_answers_are_typed_witness :
  (buildSlotParser (S := unit) "seed" demo_lock_request (tt, ∅)).2 = Ok demo_lock_answer /\
  sp_CanonicalTarget demo_lock_answer = txt "入户门锁" /\ gated demo_lock_answer.
Proof.
  assert (H : (buildSlotParser (S := unit) "seed" demo_lock_request (tt, ∅)).2 = Ok demo_lock_answer) by (by vm_compute).
  split; [exact H|]. split; [by vm_compute|].
  exact (proj2 (parser_answers_are_typed "seed" demo_lock_request tt ∅ demo_lock_answer H) ltac:(by vm_compute)).
Defined.

Lemma parser_errors_witness :
  (buildSlotParser (S := unit) "seed" (demo_slot_request "s1" "") (tt, demo_store_after)).1.2 = demo_store_after.
Proof.
  destruct (buildSlotParser (S := unit) "seed" (demo_slot_request "s1" "") (tt, demo_store_after)) as [[s' recent'] [r|err]] eqn:E.
  - exfalso. apply (f_equal snd) in E. vm_compute in E. discriminate.
  - exact (parser_errors "seed" (demo_slot_request "s1" "") tt demo_store_after s' recent' err E).
Defined.
