(* ===== verification/Rollout.v ===== *)
(** * Rollout of the semantic judge (internal/voice/semantic_judge_rollout.go)

    Which previews the model judges: a mode, a percentage, and a bucket that
    is a hash (FNV-1a, 32 bits) of the identifiers of the session. *)

From S2P Require Import Prelude GoText.

(** ** Bytes of a string *)

(** UTF-8 of one rune; what is not a code point is U+FFFD. *)
Definition utf8_encode (r : rune) : list Z :=
  let r := if (r <? 0) || (1114111 <? r) || ((55296 <=? r) && (r <=? 57343)) then 65533 else r in
  if r <? 128 then [r]
  else if r <? 2048 then [192 + r / 64; 128 + r mod 64]
  else if r <? 65536 then [224 + r / 4096; 128 + (r / 64) mod 64; 128 + r mod 64]
  else [240 + r / 262144; 128 + (r / 4096) mod 64; 128 + (r / 64) mod 64; 128 + r mod 64].

Definition string_to_bytes (s : text) : list Z := flat_map utf8_encode s.

(** [hash/fnv] New32a and Write: xor the byte, then multiply, in 32 bits. *)
Definition fnv32a_write (h : Z) (bytes : list Z) : Z :=
  fold_left (fun h b => (Z.lxor h b * 16777619) mod 4294967296) bytes h.
Definition fnv32a_offset : Z := 2166136261.

(** ** The decision *)

Definition SemanticJudgeRolloutModeControl : text := "control".
Definition SemanticJudgeRolloutModeSemantic : text := "semantic".
Definition SemanticJudgeRolloutModeStickyPercent : text := "sticky_percent".
Definition SemanticJudgeVariantControl : text := "control".
Definition SemanticJudgeVariantSemantic : text := "semantic".
Definition semanticJudgeRolloutSalt : text := "voice.semantic_judge.rollout.v1".

Record SemanticJudgeRolloutConfig := mkRolloutConfig { Mode : text; Percentage : Z }.

Record semanticJudgeRolloutDecision := mkRolloutDecision {
  Variant : text;
  Enabled : bool;
  Bucket : Z
}.

Record InputPreviewRequest := mkPreviewRequest {
  pr_SessionID : text;
  pr_DeviceID : text;
  pr_ClientType : text;
  pr_Codec : text;
  pr_SampleRateHz : Z;
  pr_Channels : Z;
  pr_Language : text
}.

Definition control_modes : list text := [[]] ++ texts ["control"; "off"; "disabled"; "false"; "0"].
Definition semantic_modes : list text := texts ["semantic"; "enabled"; "on"; "true"; "100"].
Definition sticky_modes : list text := texts ["sticky_percent"; "sticky"; "percent"; "percentage"; "rollout"; "ab"].

Definition NormalizeSemanticJudgeRolloutMode (mode : text) : text :=
  let m := ToLower (TrimSpace mode) in
  if existsb (text_eqb m) control_modes then SemanticJudgeRolloutModeControl
  else if existsb (text_eqb m) semantic_modes then SemanticJudgeRolloutModeSemantic
  else if existsb (text_eqb m) sticky_modes then SemanticJudgeRolloutModeStickyPercent
  else m.

Definition NormalizeSemanticJudgeRolloutConfig (cfg : SemanticJudgeRolloutConfig) : SemanticJudgeRolloutConfig :=
  mkRolloutConfig (NormalizeSemanticJudgeRolloutMode (Mode cfg)) (Percentage cfg).

Definition IsSupportedSemanticJudgeRolloutMode (mode : text) : bool :=
  let m := NormalizeSemanticJudgeRolloutMode mode in
  (m == SemanticJudgeRolloutModeControl) || (m == SemanticJudgeRolloutModeSemantic)
  || (m == SemanticJudgeRolloutModeStickyPercent).

Definition clampSemanticJudgeRolloutPercent (percent : Z) : Z :=
  if percent <? 0 then 0 else if 100 <? percent then 100 else percent.

Definition semanticJudgeStickyKey (req : InputPreviewRequest) : text :=
  let sessionID := TrimSpace (pr_SessionID req) in
  let deviceID := TrimSpace (pr_DeviceID req) in
  let clientType := TrimSpace (pr_ClientType req) in
  if (sessionID != []) && (deviceID != []) then txt "session:" ++ sessionID ++ txt "|device:" ++ deviceID
  else if sessionID != [] then txt "session:" ++ sessionID
  else if deviceID != [] then txt "device:" ++ deviceID
  else if clientType != [] then txt "client:" ++ clientType
  else "preview:anonymous".

Definition semanticJudgeRolloutBucket (req : InputPreviewRequest) : Z :=
  let h := fnv32a_write fnv32a_offset (string_to_bytes semanticJudgeRolloutSalt) in
  let h := fnv32a_write h (string_to_bytes (txt "|")) in
  let h := fnv32a_write h (string_to_bytes (semanticJudgeStickyKey req)) in
  h mod 100.

(** [judge] says whether a judge is configured. *)
Definition decideSemanticJudgeRollout (req : InputPreviewRequest) (cfg : SemanticJudgeRolloutConfig)
    (judge : bool) : semanticJudgeRolloutDecision :=
  let cfg := NormalizeSemanticJudgeRolloutConfig cfg in
  let '(variant, bucket) :=
    if Mode cfg == SemanticJudgeRolloutModeSemantic then (SemanticJudgeVariantSemantic, -1)
    else if Mode cfg == SemanticJudgeRolloutModeStickyPercent then
      let bucket := semanticJudgeRolloutBucket req in
      (if bucket <? clampSemanticJudgeRolloutPercent (Percentage cfg)
       then SemanticJudgeVariantSemantic else SemanticJudgeVariantControl, bucket)
    else (SemanticJudgeVariantControl, -1) in
  mkRolloutDecision variant ((variant == SemanticJudgeVariantSemantic) && judge) bucket.

#[global] Arguments semanticJudgeRolloutBucket _ : simpl never.

(** ** Laws *)

Example fnv32a_known : fnv32a_write fnv32a_offset (string_to_bytes (txt "foobar")) = 3214735720.
Proof. vm_compute. reflexivity. Qed.

Example utf8_known : string_to_bytes (txt "é你😀") = [195; 169; 228; 189; 160; 240; 159; 152; 128].
Proof. vm_compute. reflexivity. Qed.

Lemma fnv32a_range h bytes : 0 <= h < 4294967296 -> 0 <= fnv32a_write h bytes < 4294967296.
Proof.
  intros Hh. unfold fnv32a_write. apply (fold_left_inv (fun h => 0 <= h < 4294967296)); [exact Hh|].
  intros a b _ _. apply Z.mod_pos_bound. lia.
Qed.

Lemma bucket_range req : 0 <= semanticJudgeRolloutBucket req < 100.
Proof. unfold semanticJudgeRolloutBucket. cbv zeta. apply Z.mod_pos_bound. lia. Qed.

Definition with_percentage (p : Z) (cfg : SemanticJudgeRolloutConfig) : SemanticJudgeRolloutConfig :=
  mkRolloutConfig (Mode cfg) p.

Lemma sticky_key_trims req req' :
  TrimSpace (pr_SessionID req) = TrimSpace (pr_SessionID req') ->
  TrimSpace (pr_DeviceID req) = TrimSpace (pr_DeviceID req') ->
  TrimSpace (pr_ClientType req) = TrimSpace (pr_ClientType req') ->
  semanticJudgeStickyKey req = semanticJudgeStickyKey req'.
Proof. unfold semanticJudgeStickyKey. by intros -> -> ->. Qed.

Lemma mode_fixed m : NormalizeSemanticJudgeRolloutMode m ∈ [SemanticJudgeRolloutModeControl;
    SemanticJudgeRolloutModeSemantic; SemanticJudgeRolloutModeStickyPercent] ->
  NormalizeSemanticJudgeRolloutMode (NormalizeSemanticJudgeRolloutMode m) = NormalizeSemanticJudgeRolloutMode m.
Proof.
  rewrite !elem_of_cons, elem_of_nil. by intros [-> | [-> | [-> | []]]].
Qed.

(** The rollout is sticky and monotone. The decision depends on the
    trimmed identifiers of the request only; the bucket lies in [0, 99] in
    the sticky mode; 0 percent enables nobody and 100 percent everybody who
    has a judge; and raising the percentage never takes the judge away from
    a session that had it. *)
Theorem rollout_sticky_monotone req req' cfg judge :
  TrimSpace (pr_SessionID req) = TrimSpace (pr_SessionID req') ->
  TrimSpace (pr_DeviceID req) = TrimSpace (pr_DeviceID req') ->
  TrimSpace (pr_ClientType req) = TrimSpace (pr_ClientType req') ->
  let mode := NormalizeSemanticJudgeRolloutMode (Mode cfg) in
  let enabled p r := Enabled (decideSemanticJudgeRollout r (with_percentage p cfg) judge) in
  decideSemanticJudgeRollout req cfg judge = decideSemanticJudgeRollout req' cfg judge /\
  (forall p q, p <= q -> enabled p req = true -> enabled q req = true) /\
  (mode = SemanticJudgeRolloutModeStickyPercent ->
     0 <= Bucket (decideSemanticJudgeRollout req cfg judge) < 100 /\
     (forall p, p <= 0 -> enabled p req = false) /\ (forall p, 100 <= p -> enabled p req = judge)) /\
  (IsSupportedSemanticJudgeRolloutMode (Mode cfg) = false -> Enabled (decideSemanticJudgeRollout req cfg judge) = false).
Proof.
  intros Hs Hd Hc mode enabled. subst mode enabled.
  assert (Hb : semanticJudgeRolloutBucket req = semanticJudgeRolloutBucket req')
    by (unfold semanticJudgeRolloutBucket; by rewrite (sticky_key_trims req req')).
  pose proof (bucket_range req) as Hr.
  unfold decideSemanticJudgeRollout, NormalizeSemanticJudgeRolloutConfig, with_percentage,
    IsSupportedSemanticJudgeRolloutMode. cbv zeta. cbn [Mode Percentage Enabled Bucket]. rewrite <- Hb.
  set (b := semanticJudgeRolloutBucket req) in *. clearbody b.
  set (m := NormalizeSemanticJudgeRolloutMode (Mode cfg)). clearbody m.
  split; [done|]. split; [|split].
  - intros p q Hpq. destruct (m == SemanticJudgeRolloutModeSemantic); [done|].
    destruct (m == SemanticJudgeRolloutModeStickyPercent); [|done].
    unfold clampSemanticJudgeRolloutPercent. cbn [Enabled].
    destruct (b <? _) eqn:E1; destruct (b <? if q <? 0 then 0 else _) eqn:E2; try done.
    exfalso. bool_prop. revert E1 E2. repeat split_if; bool_prop; lia.
  - intros ->. cbn [Enabled Bucket].
    replace (SemanticJudgeRolloutModeStickyPercent == SemanticJudgeRolloutModeSemantic) with false by reflexivity.
    rewrite text_eqb_refl. cbn [Enabled Bucket]. split; [lia|]. unfold clampSemanticJudgeRolloutPercent.
    split; intros p Hp.
    + assert ((b <? (if p <? 0 then 0 else if 100 <? p then 100 else p)) = false) as ->; [|done].
      apply Z.ltb_ge. repeat split_if; bool_prop; lia.
    + assert ((b <? (if p <? 0 then 0 else if 100 <? p then 100 else p)) = true) as ->; [|done].
      apply Z.ltb_lt. repeat split_if; bool_prop; lia.
  - intros H. bool_prop.
    repeat match goal with H : (m == _) = false |- _ => rewrite H; clear H end. done.
Qed.

Definition demo_rollout_request (session : text) : InputPreviewRequest :=
  mkPreviewRequest session "dev" "" "" 16000 1 "".

Lemma rollout_sticky_monotone_witness :
  let cfg := mkRolloutConfig "sticky" 50 in
  decideSemanticJudgeRollout (demo_rollout_request " s1") cfg true
    = decideSemanticJudgeRollout (demo_rollout_request "s1 ") cfg true.
Proof.
  intros cfg. apply (rollout_sticky_monotone (demo_rollout_request " s1") (demo_rollout_request "s1 ") cfg true);
    by vm_compute.
Defined.
