(* ===== verification/SpeechPlanner.v ===== *)
(** * The speech planner (internal/voice/speech_planner.go)

    The planner cuts the growing answer into clauses that are synthesized
    before the answer is finished; the queued stream plays the synthesized
    clauses in order, whole or segment by segment. *)

From S2P Require Import Prelude GoText Contracts Lexical BargeIn.

(** ** Data *)

Definition defaultSpeechPlannerMinChunkRunes : Z := 6.
Definition defaultSpeechPlannerTargetChunkRunes : Z := 24.
Definition defaultSpeechPlannerMaxChunkRunes : Z := 42.

Inductive SpeechClauseBoundaryKind :=
| SpeechClauseBoundaryStrongStop | SpeechClauseBoundarySoftContinue
| SpeechClauseBoundaryForcedBreath | SpeechClauseBoundaryFinalFlush
| SpeechClauseBoundaryNone (* the zero value [""] *).

Inductive SpeechClauseProsodyHint :=
| SpeechClauseProsodyNeutral | SpeechClauseProsodyContinuationHold
| SpeechClauseProsodyFinalFall | SpeechClauseProsodyAckLead
| SpeechClauseProsodyNone (* the zero value [""] *).

#[export] Instance Boundary_eq_dec : EqDecision SpeechClauseBoundaryKind.
Proof. solve_decision. Defined.

Record PlannedSpeechClause := mkClause {
  pc_Index : Z;
  pc_Text : text;
  pc_BoundaryKind : SpeechClauseBoundaryKind;
  pc_ProsodyHint : SpeechClauseProsodyHint;
  pc_CanStartBeforeFinalized : bool;
  pc_EstimatedDuration : duration
}.

Definition zero_clause : PlannedSpeechClause :=
  mkClause 0 "" SpeechClauseBoundaryNone SpeechClauseProsodyNone false 0.

Record SpeechPlannerConfig := mkPlannerConfig {
  sc_Enabled : bool;
  sc_MinChunkRunes : Z;
  sc_TargetChunkRunes : Z
}.

Definition NormalizeSpeechPlannerConfig (cfg : SpeechPlannerConfig) : SpeechPlannerConfig :=
  let min := if sc_MinChunkRunes cfg <=? 0 then defaultSpeechPlannerMinChunkRunes else sc_MinChunkRunes cfg in
  let target := if sc_TargetChunkRunes cfg <=? 0 then defaultSpeechPlannerTargetChunkRunes
                else sc_TargetChunkRunes cfg in
  mkPlannerConfig (sc_Enabled cfg) min (if target <? min then min else target).

(** ** Boundaries *)

Definition isStrongSpeechBoundary (r : rune) : bool := rune_in r (txt ".!?;" ++ [10] ++ txt "。！？；…").
Definition isSoftSpeechBoundary (r : rune) : bool := rune_in r ",:，、：".

(** The positions the scan remembers; a cut is one past the rune. *)
Record boundary_scan := mkScan {
  lastStrong : Z;
  lastSoft : Z;
  lastSpace : Z;
  firstStrong : Z;
  firstSoft : Z
}.

Fixpoint scan_boundaries (minRunes cut : Z) (runes : text) (s : boundary_scan) : boundary_scan :=
  match runes with
  | [] => s
  | r :: runes =>
      let s :=
        if isStrongSpeechBoundary r then
          mkScan cut (lastSoft s) (lastSpace s)
            (if (firstStrong s =? 0) && (minRunes <=? cut) then cut else firstStrong s) (firstSoft s)
        else if isSoftSpeechBoundary r then
          mkScan (lastStrong s) cut (lastSpace s) (firstStrong s)
            (if (firstSoft s =? 0) && (minRunes <=? cut) then cut else firstSoft s)
        else if IsSpace r then mkScan (lastStrong s) (lastSoft s) cut (firstStrong s) (firstSoft s)
        else s in
      scan_boundaries minRunes (cut + 1) runes s
  end.

Definition plannedSpeechBoundary (runes : text) (cfg : SpeechPlannerConfig) (flush : bool) : Z :=
  let total := len runes in
  if total =? 0 then 0 else
  let min := sc_MinChunkRunes cfg in
  let target := sc_TargetChunkRunes cfg in
  let maxChunkRunes := i64 (target + maxInt (idiv target 2) 8) in
  let maxChunkRunes := if maxChunkRunes <? defaultSpeechPlannerMaxChunkRunes
                       then defaultSpeechPlannerMaxChunkRunes else maxChunkRunes in
  let s := scan_boundaries min 1 runes (mkScan 0 0 0 0 0) in
  if (0 <? firstStrong s) && (firstStrong s <? total) then firstStrong s
  else if min <=? lastStrong s then lastStrong s
  else if (min <=? lastSoft s) && (lastSoft s =? total) then lastSoft s
  else if (target <=? total) && (0 <? firstSoft s) && (firstSoft s <? total) then firstSoft s
  else if (target <=? total) && (min <=? lastSoft s) then lastSoft s
  else if (target <=? total) && (min <=? lastSpace s) then lastSpace s
  else if (target <=? total) && negb flush then target
  else if maxChunkRunes <=? total then
    if min <=? lastSoft s then lastSoft s
    else if min <=? lastSpace s then lastSpace s
    else if target <? total then target else total
  else if flush then
    if (0 <? firstSoft s) && (firstSoft s <? total) then firstSoft s
    else if min <=? lastSoft s then lastSoft s
    else if min <=? lastSpace s then lastSpace s
    else total
  else 0.

Definition nextPlannedSpeechSegment (s : text) (cfg : SpeechPlannerConfig) (flush : bool) : text * text :=
  let runes := TrimSpace s in
  if runes == "" then ([], [])
  else
    let cfg := NormalizeSpeechPlannerConfig cfg in
    let cut := plannedSpeechBoundary runes cfg flush in
    if cut <=? 0 then ([], runes)
    else
      let cut := if len runes <? cut then len runes else cut in
      (TrimSpace (take (Z.to_nat cut) runes), TrimLeftFunc IsSpace (drop (Z.to_nat cut) runes)).

(** ** Clauses *)

Definition punctuation_pause (r : rune) : duration :=
  if rune_in r "，,、" then 120 * Millisecond
  else if rune_in r "。.！!？?;；:：" then 220 * Millisecond
  else 0.

Definition estimatePlannedSpeechDuration (s : text) : duration :=
  let runes := TrimSpace s in
  if len runes =? 0 then 0
  else fold_left (fun d r => i64 (d + punctuation_pause r)) runes (i64 (len runes * (110 * Millisecond))).

Definition estimateClausePlaybackDuration (c : PlannedSpeechClause) : duration :=
  if 0 <? pc_EstimatedDuration c then pc_EstimatedDuration c else estimatePlannedSpeechDuration (pc_Text c).

Definition playbackSegmentForClause (c : PlannedSpeechClause) : PlaybackSegment :=
  mkPlaybackSegment (pc_Index c) (TrimSpace (pc_Text c)) (estimateClausePlaybackDuration c)
    (bool_decide (pc_BoundaryKind c = SpeechClauseBoundaryFinalFlush)).

Definition speechPlannerAckLeadTokens : list text :=
  texts ["好，"; "好的，"; "当然可以，"; "没问题，"; "可以，"; "收到，"; "明白，"].

Definition looksLikeAckLeadClause (s : text) (boundary : SpeechClauseBoundaryKind) : bool :=
  let t := TrimSpace s in
  if (t == "") || negb (bool_decide (boundary = SpeechClauseBoundarySoftContinue)) then false
  else if 8 <? len t then false
  else existsb (HasPrefix t) speechPlannerAckLeadTokens.

Definition classifySpeechClauseBoundary (segment rest : text) (flush : bool) : SpeechClauseBoundaryKind :=
  let trimmed := TrimSpace segment in
  if trimmed == "" then SpeechClauseBoundaryFinalFlush
  else if flush && (TrimSpace rest == "") then SpeechClauseBoundaryFinalFlush
  else
    let last := runeAtEnd trimmed in
    if isStrongSpeechBoundary last then SpeechClauseBoundaryStrongStop
    else if isSoftSpeechBoundary last then SpeechClauseBoundarySoftContinue
    else if TrimSpace rest != "" then SpeechClauseBoundaryForcedBreath
    else SpeechClauseBoundaryFinalFlush.

(** [Index] is set by the callers. *)
Definition classifyPlannedSpeechClause (index : Z) (s : text) (boundary : SpeechClauseBoundaryKind)
    (canStartBeforeFinalized : bool) : PlannedSpeechClause :=
  let trimmed := TrimSpace s in
  let prosody :=
    if looksLikeAckLeadClause trimmed boundary then SpeechClauseProsodyAckLead
    else match boundary with
         | SpeechClauseBoundarySoftContinue | SpeechClauseBoundaryForcedBreath => SpeechClauseProsodyContinuationHold
         | SpeechClauseBoundaryStrongStop | SpeechClauseBoundaryFinalFlush => SpeechClauseProsodyFinalFall
         | SpeechClauseBoundaryNone => SpeechClauseProsodyNeutral
         end in
  mkClause index trimmed boundary prosody canStartBeforeFinalized (estimatePlannedSpeechDuration trimmed).

Definition nextPlannedSpeechClause (s : text) (cfg : SpeechPlannerConfig) (flush canStart : bool) (index : Z)
    : PlannedSpeechClause * text :=
  let '(segment, rest) := nextPlannedSpeechSegment s cfg flush in
  if TrimSpace segment == "" then (zero_clause, rest)
  else (classifyPlannedSpeechClause index segment (classifySpeechClauseBoundary segment rest flush) canStart, rest).

(** ** The planner *)

Record SpeechPlanner := mkPlanner {
  planner_cfg : SpeechPlannerConfig;
  observed : text;
  pending : text;
  nextClauseIndex : Z
}.

Definition NewSpeechPlanner (cfg : SpeechPlannerConfig) : SpeechPlanner :=
  mkPlanner (NormalizeSpeechPlannerConfig cfg) [] [] 0.

(** The loop of [drainClauses]; every round that goes on shortens the text. *)
Fixpoint drain_loop (fuel : nat) (cfg : SpeechPlannerConfig) (flush : bool) (text_left : text) (index : Z)
    : list PlannedSpeechClause * text * Z :=
  match fuel with
  | O => ([], text_left, index)
  | S fuel =>
      let '(clause, rest) := nextPlannedSpeechClause text_left cfg flush (negb flush) index in
      if TrimSpace (pc_Text clause) == "" then ([], text_left, index)
      else if rest == "" then ([clause], rest, index + 1)
      else
        let '(clauses, text_left, index) := drain_loop fuel cfg flush rest (index + 1) in
        (clause :: clauses, text_left, index)
  end.

Definition drainClauses (flush : bool) (p : SpeechPlanner) : SpeechPlanner * list PlannedSpeechClause :=
  let trimmed := TrimSpace (pending p) in
  if trimmed == "" then (mkPlanner (planner_cfg p) (observed p) [] (nextClauseIndex p), [])
  else
    let '(clauses, remains, index) :=
      drain_loop (S (length trimmed)) (planner_cfg p) flush trimmed (nextClauseIndex p) in
    (mkPlanner (planner_cfg p) (observed p) remains index, clauses).

Definition write (s : text) (p : SpeechPlanner) : SpeechPlanner :=
  mkPlanner (planner_cfg p) (observed p ++ s) (pending p ++ s) (nextClauseIndex p).

Definition ObserveTextDeltaClauses (s : text) (p : SpeechPlanner) : SpeechPlanner * list PlannedSpeechClause :=
  if TrimSpace s == "" then (p, []) else drainClauses false (write s p).

Definition plannerRemainingTail (seen final : text) : text :=
  if TrimSpace final == "" then []
  else if seen == "" then final
  else drop (length (longestCommonPrefix seen final)) final.

Definition FinalizeTextClauses (s : text) (p : SpeechPlanner) : SpeechPlanner * list PlannedSpeechClause :=
  let tail := plannerRemainingTail (observed p) s in
  let p := if TrimSpace tail != "" then write tail p else p in
  let '(p, clauses) := drainClauses true p in
  let remaining := TrimSpace (pending p) in
  let '(clauses, index) :=
    if remaining != ""
    then (clauses ++ [classifyPlannedSpeechClause (nextClauseIndex p) remaining SpeechClauseBoundaryFinalFlush false],
          nextClauseIndex p + 1)
    else (clauses, nextClauseIndex p) in
  (mkPlanner (planner_cfg p) (observed p) [] index, clauses).

Definition plannedSpeechClauseTexts (clauses : list PlannedSpeechClause) : list text :=
  List.filter (fun t => t != []) (map (fun c => TrimSpace (pc_Text c)) clauses).

Definition ObserveTextDelta (s : text) (p : SpeechPlanner) : SpeechPlanner * list text :=
  let '(p, clauses) := ObserveTextDeltaClauses s p in (p, plannedSpeechClauseTexts clauses).
Definition FinalizeText (s : text) (p : SpeechPlanner) : SpeechPlanner * list text :=
  let '(p, clauses) := FinalizeTextClauses s p in (p, plannedSpeechClauseTexts clauses).

(** A whole answer: the deltas, then the final text. *)
Fixpoint observe_all (deltas : list text) (p : SpeechPlanner) : SpeechPlanner * list PlannedSpeechClause :=
  match deltas with
  | [] => (p, [])
  | d :: deltas =>
      let '(p, c) := ObserveTextDeltaClauses d p in
      let '(p, cs) := observe_all deltas p in
      (p, c ++ cs)
  end.

Definition plan_answer (deltas : list text) (final : text) (p : SpeechPlanner) : list PlannedSpeechClause :=
  let '(p, clauses) := observe_all deltas p in
  clauses ++ (FinalizeTextClauses final p).2.

Definition demo_planner : SpeechPlanner := NewSpeechPlanner (mkPlannerConfig true 0 0).
Example plan_example :
  map pc_Text (plan_answer (texts ["好的，我来帮你看一下。今"; "天天气"; "很好"]) (txt "好的，我来帮你看一下。今天天气很好，适合出门。") demo_planner)
  = texts ["好的，我来帮你看一下。"; "今天天气很好，适合出门。"].
Proof. vm_compute. reflexivity. Qed.

(** ** Laws of cutting *)

#[global] Arguments plannedSpeechBoundary _ _ _ : simpl never.
#[global] Arguments NormalizeSpeechPlannerConfig _ : simpl never.

(** A text without its white space: what the listener hears of it. *)
Definition words (s : text) : text := List.filter (fun r => negb (IsSpace r)) s.

Lemma words_app a b : words (a ++ b) = words a ++ words b.
Proof. apply List.filter_app. Qed.

Lemma words_spaces l : Forall (fun r => IsSpace r = true) l -> words l = [].
Proof. intros H. unfold words. induction H as [|r l Hr _ IH]; cbn; [done|]. by rewrite Hr. Qed.

Lemma words_trim_left s : words (TrimLeftFunc IsSpace s) = words s.
Proof.
  destruct (TrimLeftFunc_suffix IsSpace s) as [l [Hs Hl]]. rewrite Hs at 2. by rewrite words_app, (words_spaces l).
Qed.
Lemma words_trim_right s : words (TrimRightFunc IsSpace s) = words s.
Proof.
  destruct (TrimRightFunc_prefix IsSpace s) as [l [Hs Hl]]. rewrite Hs at 2.
  by rewrite words_app, (words_spaces l), app_nil_r.
Qed.
Lemma words_trim s : words (TrimSpace s) = words s.
Proof. unfold TrimSpace, TrimFunc. by rewrite words_trim_right, words_trim_left. Qed.

Lemma words_blank s : TrimSpace s = [] -> words s = [].
Proof. intros H. by rewrite <- words_trim, H. Qed.

Lemma take_nonblank s n : trimmed s -> s <> [] -> (0 < n)%nat -> TrimSpace (take n s) <> [].
Proof.
  intros Ht Hs Hn. destruct s as [|r s]; [done|]. destruct n as [|n]; [lia|]. cbn [take].
  apply trimmed_head in Ht. intros E. apply TrimFunc_nil in E. inversion E. congruence.
Qed.

(** One cut: the words are split, a cut is never blank, and it shortens. *)
Lemma segment_spec s cfg flush segment rest :
  nextPlannedSpeechSegment s cfg flush = (segment, rest) ->
  words segment ++ words rest = words s /\
  (segment = [] \/ (trimmed segment /\ segment <> [] /\ (length rest < length (TrimSpace s))%nat)).
Proof.
  unfold nextPlannedSpeechSegment. cbv zeta.
  destruct (TrimSpace s == "") eqn:E0; text_prop.
  { intros [= <- <-]. split; [by rewrite (words_blank s E0) | by left]. }
  set (cfg' := NormalizeSpeechPlannerConfig cfg). set (runes := TrimSpace s) in *.
  destruct (plannedSpeechBoundary runes cfg' flush <=? 0) eqn:E1.
  { intros [= <- <-]. split; [apply words_trim | by left]. }
  set (cut := if len runes <? plannedSpeechBoundary runes cfg' flush then len runes
              else plannedSpeechBoundary runes cfg' flush).
  intros [= <- <-]. split.
  - rewrite words_trim, words_trim_left, <- words_app, take_drop. apply words_trim.
  - right. assert (Hcut : 0 < cut <= len runes).
    { assert (0 < len runes) by (by apply len_pos). subst cut. split_if; bool_prop; lia. }
    split; [apply trimmed_TrimSpace|]. split.
    + apply take_nonblank; [apply trimmed_TrimSpace | done | lia].
    + pose proof (TrimLeftFunc_length IsSpace (drop (Z.to_nat cut) runes)) as Hl. rewrite length_drop in Hl.
      unfold len in Hcut. lia.
Qed.

Lemma planner_config_pos cfg :
  0 < sc_MinChunkRunes (NormalizeSpeechPlannerConfig cfg)
    <= sc_TargetChunkRunes (NormalizeSpeechPlannerConfig cfg).
Proof.
  unfold NormalizeSpeechPlannerConfig, defaultSpeechPlannerMinChunkRunes, defaultSpeechPlannerTargetChunkRunes.
  cbn [sc_MinChunkRunes sc_TargetChunkRunes]. repeat split_if; bool_prop; lia.
Qed.

Lemma planner_config_idemp cfg :
  NormalizeSpeechPlannerConfig (NormalizeSpeechPlannerConfig cfg) = NormalizeSpeechPlannerConfig cfg.
Proof.
  pose proof (planner_config_pos cfg) as H. set (c := NormalizeSpeechPlannerConfig cfg) in *.
  clearbody c. destruct c as [e m t]. cbn [sc_MinChunkRunes sc_TargetChunkRunes] in H.
  unfold NormalizeSpeechPlannerConfig. cbn [sc_Enabled sc_MinChunkRunes sc_TargetChunkRunes].
  assert ((m <=? 0) = false) as -> by lia. assert ((t <=? 0) = false) as -> by lia.
  by assert ((t <? m) = false) as -> by lia.
Qed.

(** A flush always cuts. *)
Lemma flush_cuts runes cfg : runes <> [] -> 0 < plannedSpeechBoundary runes (NormalizeSpeechPlannerConfig cfg) true.
Proof.
  intros Hr. pose proof (planner_config_pos cfg) as Hc. apply len_pos in Hr as Hl.
  unfold plannedSpeechBoundary. assert ((len runes =? 0) = false) as -> by lia. cbv zeta.
  set (s := scan_boundaries _ _ _ _). clearbody s. cbn [negb]. rewrite andb_false_r.
  repeat (split_if; bool_prop; try lia).
Qed.

Lemma next_clause_spec s cfg flush canStart index clause rest :
  nextPlannedSpeechClause s cfg flush canStart index = (clause, rest) ->
  (TrimSpace (pc_Text clause) = [] \/
   (pc_Index clause = index /\ trimmed (pc_Text clause) /\ pc_Text clause <> [] /\
    words (pc_Text clause) ++ words rest = words s /\ (length rest < length (TrimSpace s))%nat /\
    pc_CanStartBeforeFinalized clause = canStart)).
Proof.
  unfold nextPlannedSpeechClause. destruct (nextPlannedSpeechSegment s cfg flush) as [segment r] eqn:E.
  apply segment_spec in E as [Hw Hs]. destruct (TrimSpace segment == "") eqn:E1; text_prop;
    intros [= <- <-]; [by left|]. right. destruct Hs as [->|(Ht & Hn & Hl)]; [done|].
  unfold classifyPlannedSpeechClause. cbv zeta. cbn [pc_Index pc_Text pc_CanStartBeforeFinalized].
  rewrite Ht. by repeat split.
Qed.

(** ** Laws of the loop *)

#[global] Arguments nextPlannedSpeechClause _ _ _ _ _ : simpl never.

Definition spoken (clauses : list PlannedSpeechClause) : text := concat (map pc_Text clauses).

(** Clauses as they leave the planner: numbered from [n], trimmed, not empty. *)
Definition numbered (n : Z) (clauses : list PlannedSpeechClause) : Prop :=
  map pc_Index clauses = seqZ n (len clauses) /\
  Forall (fun c => trimmed (pc_Text c) /\ pc_Text c <> []) clauses.

Lemma spoken_app a b : spoken (a ++ b) = spoken a ++ spoken b.
Proof. unfold spoken. by rewrite map_app, concat_app. Qed.

Lemma numbered_nil n : numbered n [].
Proof. by split. Qed.

Lemma numbered_cons n c cs :
  pc_Index c = n -> trimmed (pc_Text c) -> pc_Text c <> [] -> numbered (n + 1) cs -> numbered n (c :: cs).
Proof.
  intros Hi Ht Hn [H1 H2]. split; [|by constructor]. cbn [map]. rewrite Hi, H1, len_cons.
  pose proof (len_nonneg cs). rewrite (seqZ_cons n (1 + len cs)) by lia. f_equal. f_equal; lia.
Qed.

Lemma numbered_app n a b : numbered n a -> numbered (n + len a) b -> numbered n (a ++ b).
Proof.
  intros [A1 A2] [B1 B2]. split; [|by apply Forall_app].
  rewrite map_app, A1, B1, len_app. pose proof (len_nonneg a). pose proof (len_nonneg b).
  rewrite seqZ_app by lia. done.
Qed.

(** The loop, with enough fuel: it stops by itself, keeps the words, numbers
    the clauses, and on a flush leaves nothing. *)
Lemma drain_loop_spec fuel cfg flush s index clauses left_over index' :
  (length (TrimSpace s) < fuel)%nat ->
  drain_loop fuel cfg flush s index = (clauses, left_over, index') ->
  words (spoken clauses) ++ words left_over = words s /\ numbered index clauses /\ index' = index + len clauses /\
  Forall (fun c => pc_CanStartBeforeFinalized c = negb flush) clauses /\
  (TrimSpace (pc_Text (nextPlannedSpeechClause left_over cfg flush (negb flush) index').1) = [] \/ left_over = []).
Proof.
  revert s index clauses left_over index'. induction fuel as [|fuel IH]; intros s index clauses left_over index' Hf; [lia|].
  cbn [drain_loop]. destruct (nextPlannedSpeechClause s cfg flush (negb flush) index) as [clause rest] eqn:E.
  destruct (TrimSpace (pc_Text clause) == "") eqn:E1; text_prop.
  { intros [= <- <- <-]. repeat split; auto; [rewrite len_nil; lia|]. left. by rewrite E. }
  destruct (next_clause_spec _ _ _ _ _ _ _ E) as [Hb|(Hi & Ht & Hn & Hw & Hl & Hc)]; [done|].
  destruct (rest == "") eqn:E2; text_prop.
  { intros [= <- <- <-]. subst rest. unfold spoken. cbn [map concat]. rewrite app_nil_r.
    change (words (txt "")) with (@nil Z) in Hw. change (words []) with (@nil Z).
    split; [by rewrite app_nil_r in Hw; rewrite app_nil_r|]. split; [apply numbered_cons; auto; apply numbered_nil|].
    split; [rewrite len_cons, len_nil; lia|]. split; [by constructor | by right]. }
  destruct (drain_loop fuel cfg flush rest (index + 1)) as [[cs lo] ix] eqn:Ed.
  intros [= <- <- <-]. assert (Hr : (length (TrimSpace rest) < fuel)%nat) by (pose proof (TrimSpace_length rest); lia).
  destruct (IH rest (index + 1) cs lo ix Hr Ed) as (I1 & I2 & I3 & I4 & I5).
  split; [|split; [by apply numbered_cons|split; [rewrite len_cons; lia|split; [by constructor|done]]]].
  change (spoken (clause :: cs)) with (pc_Text clause ++ spoken cs).
  by rewrite words_app, <- app_assoc, I1.
Qed.

(** Fuel beyond the length of the text changes nothing: the loop of the code
    terminates. *)
Lemma drain_loop_fuel fuel fuel' cfg flush s index :
  (length (TrimSpace s) < fuel)%nat -> (length (TrimSpace s) < fuel')%nat ->
  drain_loop fuel cfg flush s index = drain_loop fuel' cfg flush s index.
Proof.
  revert fuel' s index. induction fuel as [|fuel IH]; intros [|fuel'] s index Hf Hf'; try lia.
  cbn [drain_loop]. destruct (nextPlannedSpeechClause s cfg flush (negb flush) index) as [clause rest] eqn:E.
  destruct (TrimSpace (pc_Text clause) == "") eqn:E1; [done|]. destruct (rest == ""); [done|]. text_prop.
  destruct (next_clause_spec _ _ _ _ _ _ _ E) as [Hb|(_ & _ & _ & _ & Hl & _)]; [done|].
  pose proof (TrimSpace_length rest). rewrite (IH fuel' rest (index + 1)) by lia. done.
Qed.

Lemma flush_never_stuck s cfg canStart index :
  TrimSpace s <> [] ->
  TrimSpace (pc_Text (nextPlannedSpeechClause s (NormalizeSpeechPlannerConfig cfg) true canStart index).1) <> [].
Proof.
  intros Hs. unfold nextPlannedSpeechClause, nextPlannedSpeechSegment. cbv zeta.
  destruct (TrimSpace s == "") eqn:E0; text_prop; [done|].
  pose proof (flush_cuts (TrimSpace s) (NormalizeSpeechPlannerConfig cfg) Hs) as Hc.
  destruct (plannedSpeechBoundary _ _ true <=? 0) eqn:E1; bool_prop; [lia|].
  set (cut := if len (TrimSpace s) <? _ then _ else _).
  assert (Hseg : TrimSpace (take (Z.to_nat cut) (TrimSpace s)) <> []).
  { apply take_nonblank; [apply trimmed_TrimSpace | done|].
    assert (0 < len (TrimSpace s)) by (by apply len_pos). subst cut. split_if; bool_prop; lia. }
  rewrite TrimSpace_idemp. destruct (TrimSpace (take _ _) == "") eqn:E2; text_prop; [done|].
  cbn [fst]. unfold classifyPlannedSpeechClause. cbv zeta. cbn [pc_Text]. by rewrite !TrimSpace_idemp.
Qed.

Definition planner_ok (p : SpeechPlanner) : Prop := exists cfg, planner_cfg p = NormalizeSpeechPlannerConfig cfg.

Lemma drain_spec flush p p' clauses :
  drainClauses flush p = (p', clauses) ->
  words (spoken clauses) ++ words (pending p') = words (pending p) /\
  numbered (nextClauseIndex p) clauses /\ nextClauseIndex p' = nextClauseIndex p + len clauses /\
  observed p' = observed p /\ planner_cfg p' = planner_cfg p /\
  Forall (fun c => pc_CanStartBeforeFinalized c = negb flush) clauses /\
  (planner_ok p -> flush = true -> TrimSpace (pending p') = []).
Proof.
  unfold drainClauses. cbv zeta. destruct (TrimSpace (pending p) == "") eqn:E; text_prop.
  { intros [= <- <-]. cbn [pending observed nextClauseIndex planner_cfg]. rewrite (words_blank _ E).
    repeat split; auto. rewrite len_nil. lia. }
  destruct (drain_loop _ _ _ _ _) as [[cs lo] ix] eqn:Ed. intros [= <- <-].
  apply drain_loop_spec in Ed as (D1 & D2 & D3 & D4 & D5); [|rewrite TrimSpace_idemp; lia].
  cbn [pending observed nextClauseIndex planner_cfg]. rewrite words_trim in D1. repeat split; auto; try apply D2.
  intros [cfg Hcfg] ->. rewrite Hcfg in D5. destruct D5 as [D5| ->]; [|done].
  destruct (decide (TrimSpace lo = [])) as [|Hn]; [done|]. exfalso. revert D5. by apply flush_never_stuck.
Qed.

(** A blank delta is dropped; any other is observed and drained. *)
Lemma delta_spec d p p' clauses :
  ObserveTextDeltaClauses d p = (p', clauses) ->
  words (spoken clauses) ++ words (pending p') = words (pending p) ++ words d /\
  numbered (nextClauseIndex p) clauses /\ nextClauseIndex p' = nextClauseIndex p + len clauses /\
  observed p' = observed p ++ (if TrimSpace d == "" then [] else d) /\ planner_cfg p' = planner_cfg p /\
  Forall (fun c => pc_CanStartBeforeFinalized c = true) clauses.
Proof.
  unfold ObserveTextDeltaClauses. destruct (TrimSpace d == "") eqn:E; text_prop.
  { intros [= <- <-]. rewrite (words_blank _ E), !app_nil_r. repeat split; auto. rewrite len_nil. lia. }
  intros H. apply drain_spec in H as (D1 & D2 & D3 & D4 & D5 & D6 & _).
  cbn [write pending observed nextClauseIndex planner_cfg] in *. rewrite words_app in D1.
  repeat split; try done; apply D2.
Qed.

Lemma observe_spec deltas p p' clauses :
  observe_all deltas p = (p', clauses) ->
  words (spoken clauses) ++ words (pending p') = words (pending p) ++ words (concat deltas) /\
  numbered (nextClauseIndex p) clauses /\ nextClauseIndex p' = nextClauseIndex p + len clauses /\
  observed p' = observed p ++ concat (List.filter (fun d => TrimSpace d != "") deltas) /\
  planner_cfg p' = planner_cfg p /\ Forall (fun c => pc_CanStartBeforeFinalized c = true) clauses.
Proof.
  revert p p' clauses. induction deltas as [|d deltas IH]; intros p p' clauses; cbn [observe_all].
  { intros [= <- <-]. cbn [concat List.filter]. rewrite !app_nil_r. repeat split; auto. rewrite len_nil. lia. }
  destruct (ObserveTextDeltaClauses d p) as [p1 c1] eqn:E1. destruct (observe_all deltas p1) as [p2 c2] eqn:E2.
  intros [= <- <-]. apply delta_spec in E1 as (A1 & A2 & A3 & A4 & A5 & A6).
  apply IH in E2 as (B1 & B2 & B3 & B4 & B5 & B6). cbn [concat List.filter].
  split; [|split; [|split; [|split; [|split]]]].
  - by rewrite spoken_app, !words_app, <- app_assoc, B1, (app_assoc (words (spoken c1))), A1, <- app_assoc.
  - apply numbered_app; [done|]. by rewrite <- A3.
  - rewrite len_app. lia.
  - rewrite B4, A4. destruct (TrimSpace d == ""); cbn [negb concat]; by rewrite <- app_assoc.
  - congruence.
  - by apply Forall_app.
Qed.

(** The final text: everything still pending is spoken, and nothing stays. *)
Lemma finalize_spec final p p' clauses :
  planner_ok p -> FinalizeTextClauses final p = (p', clauses) ->
  words (spoken clauses) = words (pending p) ++ words (plannerRemainingTail (observed p) final) /\
  numbered (nextClauseIndex p) clauses /\ pending p' = [] /\
  Forall (fun c => pc_CanStartBeforeFinalized c = false) clauses.
Proof.
  intros Hok. unfold FinalizeTextClauses. cbv zeta.
  set (tail := plannerRemainingTail (observed p) final).
  set (q := if TrimSpace tail != "" then write tail p else p).
  assert (Hq : planner_ok q /\ words (pending q) = words (pending p) ++ words tail /\ nextClauseIndex q = nextClauseIndex p).
  { subst q. destruct (TrimSpace tail == "") eqn:E; cbn [negb]; text_prop; [by rewrite (words_blank _ E), app_nil_r|].
    cbn [write pending nextClauseIndex]. by rewrite words_app. }
  destruct Hq as (Hq1 & Hq2 & Hq3). clearbody q tail. destruct (drainClauses true q) as [p1 cs] eqn:E.
  apply drain_spec in E as (D1 & D2 & D3 & D4 & D5 & D6 & D7). rewrite (D7 Hq1 eq_refl). cbn [negb].
  change ([] == txt "") with true. cbn [negb]. intros [= <- <-].
  rewrite (words_blank _ (D7 Hq1 eq_refl)), app_nil_r in D1. cbn [pending].
  repeat split; [congruence| | |done].
  - rewrite <- Hq3. apply D2.
  - apply D2.
Qed.

Lemma new_planner_ok cfg : planner_ok (NewSpeechPlanner cfg).
Proof. by exists cfg. Qed.

Lemma planner_ok_cfg p q : planner_cfg q = planner_cfg p -> planner_ok p -> planner_ok q.
Proof. intros H [cfg Hc]. exists cfg. congruence. Qed.

Lemma remaining_tail_prefix seen final :
  seen `prefix_of` final -> final = seen ++ plannerRemainingTail seen final \/
  (TrimSpace final = [] /\ plannerRemainingTail seen final = []).
Proof.
  intros [l ->]. unfold plannerRemainingTail. destruct (TrimSpace (seen ++ l) == "") eqn:E; text_prop; [by right|].
  left. destruct (seen == "") eqn:E1; text_prop; [by subst seen|].
  assert (longestCommonPrefix seen (seen ++ l) = seen) as ->.
  { apply (anti_symm prefix).
    - apply LCP_prefix_l.
    - apply LCP_greatest; [done | by exists l]. }
  by rewrite drop_app_length.
Qed.

(** ** Properties of the planner *)

(** What becomes of a whole answer, shared with the player. *)
Lemma plan_answer_facts cfg deltas final early rest_planner :
  Forall (fun d => TrimSpace d <> []) deltas -> concat deltas `prefix_of` final ->
  observe_all deltas (NewSpeechPlanner cfg) = (rest_planner, early) ->
  let clauses := plan_answer deltas final (NewSpeechPlanner cfg) in
  exists late, clauses = early ++ late /\
  words (spoken clauses) = words final /\
  map pc_Index clauses = seqZ 0 (len clauses) /\
  Forall (fun c => TrimSpace (pc_Text c) = pc_Text c /\ pc_Text c <> []) clauses /\
  Forall (fun c => pc_CanStartBeforeFinalized c = true) early /\
  Forall (fun c => pc_CanStartBeforeFinalized c = false) late.
Proof.
  intros Hd Hp Ho. cbv zeta. unfold plan_answer. rewrite Ho. apply observe_spec in Ho as (O1 & O2 & O3 & O4 & O5 & O6).
  destruct (FinalizeTextClauses final rest_planner) as [p' late] eqn:Ef. exists late. split; [done|]. cbn [snd].
  assert (Hok : planner_ok rest_planner) by (eapply planner_ok_cfg; [exact O5 | apply new_planner_ok]).
  destruct (finalize_spec _ _ _ _ Hok Ef) as (F1 & F2 & _ & F4).
  rewrite forallb_filter_id in O4.
  2: { apply forallb_forall. intros d Hin. rewrite Forall_forall in Hd. specialize (Hd d ltac:(by apply list_elem_of_In)).
       destruct (TrimSpace d == "") eqn:E; text_prop; [done|reflexivity]. }
  cbn [NewSpeechPlanner pending observed nextClauseIndex words List.filter app] in *.
  assert (Hn : numbered 0 (early ++ late)) by (apply numbered_app; [done | by rewrite <- O3]).
  split; [|split; [apply Hn | split; [apply Hn | done]]].
  rewrite spoken_app, words_app, F1, app_assoc, O1, O4.
  destruct (remaining_tail_prefix _ _ Hp) as [E|[E1 E2]].
  - by rewrite E at 2; rewrite words_app.
  - rewrite E2. destruct Hp as [l ->]. rewrite words_app. cbn [words List.filter]. rewrite app_nil_r.
    assert (words (concat deltas) ++ words l = []) as Hb by (by rewrite <- words_app, (words_blank _ E1)).
    apply app_nil in Hb as [-> ->]. done.
Qed.

(** C28. Nothing the model answers is lost, repeated or reordered on its way to
    the synthesizer.  When no delta is blank and the final text extends the
    concatenated deltas, the clauses of the whole answer, laid end to end, are
    the final text up to white space; they are numbered 0, 1, 2, ..., trimmed and
    not empty; the ones cut while the answer was still arriving, and only
    those, are marked as allowed to start before it is final. *)
Theorem planner_speaks_the_answer cfg deltas final early rest_planner :
  Forall (fun d => TrimSpace d <> []) deltas -> concat deltas `prefix_of` final ->
  observe_all deltas (NewSpeechPlanner cfg) = (rest_planner, early) ->
  let clauses := plan_answer deltas final (NewSpeechPlanner cfg) in
  exists late, clauses = early ++ late /\
  words (spoken clauses) = words final /\
  map pc_Index clauses = seqZ 0 (len clauses) /\
  Forall (fun c => TrimSpace (pc_Text c) = pc_Text c /\ pc_Text c <> []) clauses /\
  Forall (fun c => pc_CanStartBeforeFinalized c = true) early /\
  Forall (fun c => pc_CanStartBeforeFinalized c = false) late.
Proof. exact (plan_answer_facts cfg deltas final early rest_planner). Qed.

Lemma planner_speaks_the_answer_witness :
  exists early p, let deltas := texts ["好的，我来帮你看一下。今"; "天天气"; "很好"] in
  let final := txt "好的，我来帮你看一下。今天天气很好，适合出门。" in
  early <> [] /\ observe_all deltas demo_planner = (p, early) /\
  exists late, plan_answer deltas final demo_planner = early ++ late /\
  words (spoken (plan_answer deltas final demo_planner)) = words final /\
  map pc_Index (plan_answer deltas final demo_planner) = seqZ 0 (len (plan_answer deltas final demo_planner)) /\
  Forall (fun c => TrimSpace (pc_Text c) = pc_Text c /\ pc_Text c <> []) (plan_answer deltas final demo_planner) /\
  Forall (fun c => pc_CanStartBeforeFinalized c = true) early /\
  Forall (fun c => pc_CanStartBeforeFinalized c = false) late.
Proof.
  exists (observe_all (texts ["好的，我来帮你看一下。今"; "天天气"; "很好"]) demo_planner).2.
  exists (observe_all (texts ["好的，我来帮你看一下。今"; "天天气"; "很好"]) demo_planner).1.
  cbv zeta. split; [by vm_compute|]. split; [by vm_compute|].
  apply (planner_speaks_the_answer (mkPlannerConfig true 0 0)
    (texts ["好的，我来帮你看一下。今"; "天天气"; "很好"]) (txt "好的，我来帮你看一下。今天天气很好，适合出门。")
    (observe_all (texts ["好的，我来帮你看一下。今"; "天天气"; "很好"]) demo_planner).2
    (observe_all (texts ["好的，我来帮你看一下。今"; "天天气"; "很好"]) demo_planner).1).
  - repeat constructor; by vm_compute.
  - exists (txt "，适合出门。"). vm_compute. reflexivity.
  - vm_compute. reflexivity.
Defined.

(** White space in the deltas is not handled: a delta that is only white
    space is dropped from what the planner believes to have observed, so the
    final text no longer extends it and its tail is spoken a second time; and
    white space at the edge of a delta is trimmed away with the pending text,
    so two words are glued together. *)
Theorem blank_delta_repeats_text :
  concat (texts ["Hello"; " "; "world."]) = txt "Hello world." /\
  map pc_Text (plan_answer (texts ["Hello"; " "; "world."]) (txt "Hello world.") demo_planner)
    = texts ["Helloworld."; "world."] /\
  map pc_Text (plan_answer (texts ["Hello "; "world."]) (txt "Hello world.") demo_planner)
    = texts ["Helloworld."].
Proof. vm_compute. done. Qed.

(** ** Latency: what the planner may hold back *)

Definition scan_within (min lo hi : Z) (s : boundary_scan) : Prop :=
  0 <= lastStrong s <= hi /\ 0 <= lastSoft s <= hi /\ 0 <= lastSpace s <= hi /\
  (firstStrong s = 0 \/ min <= firstStrong s <= hi) /\ (firstSoft s = 0 \/ min <= firstSoft s <= hi) /\
  lo <= lastStrong s.

Lemma scan_spec min cut runes s lo :
  0 < cut -> scan_within min lo (cut - 1) s ->
  scan_within min lo (cut - 1 + len runes) (scan_boundaries min cut runes s) /\
  (forall i r, runes !! i = Some r -> isStrongSpeechBoundary r = true ->
     cut + Z.of_nat i <= lastStrong (scan_boundaries min cut runes s)).
Proof.
  revert cut s lo. induction runes as [|r runes IH]; intros cut s lo Hc Hs; cbn [scan_boundaries].
  { rewrite len_nil, Z.add_0_r. split; [done|]. intros i r Hi. by rewrite lookup_nil in Hi. }
  rewrite len_cons. set (s' := if isStrongSpeechBoundary r then _ else _).
  assert (Hs' : scan_within min (if isStrongSpeechBoundary r then Z.max lo cut else lo) (cut + 1 - 1) s').
  { subst s'. unfold scan_within in *.
    destruct (isStrongSpeechBoundary r); [|destruct (isSoftSpeechBoundary r); [|destruct (IsSpace r)]];
      cbn [lastStrong lastSoft lastSpace firstStrong firstSoft]; repeat split_if; bool_prop; lia. }
  destruct (IH (cut + 1) s' _ ltac:(lia) Hs') as [H1 H2]. clearbody s'. split.
  - replace (cut - 1 + (1 + len runes)) with (cut + 1 - 1 + len runes) by lia.
    unfold scan_within in *. destruct (isStrongSpeechBoundary r); lia.
  - intros [|i] r' Hi Hr; cbn in Hi.
    + injection Hi as ->. rewrite Hr in H1. unfold scan_within in H1. lia.
    + specialize (H2 i r' Hi Hr). lia.
Qed.

Lemma scan_from_start min runes :
  let s := scan_boundaries min 1 runes (mkScan 0 0 0 0 0) in
  scan_within min 0 (len runes) s /\
  (forall i r, runes !! i = Some r -> isStrongSpeechBoundary r = true -> 1 + Z.of_nat i <= lastStrong s).
Proof.
  cbv zeta. destruct (scan_spec min 1 runes (mkScan 0 0 0 0 0) 0 ltac:(lia)) as [H1 H2]; [|by split].
  unfold scan_within. cbn. lia.
Qed.

Lemma max_chunk_above_target target :
  0 < target -> target <= 2 ^ 62 -> target < i64 (target + maxInt (idiv target 2) 8).
Proof.
  intros H0 H1. assert (H2 : 0 <= idiv target 2 <= 2 ^ 61).
  { rewrite idiv_floor by i64_lia. pose proof (Z.div_mod target 2 ltac:(lia)). pose proof (Z.mod_pos_bound target 2). lia. }
  unfold maxInt. split_if; bool_prop; rewrite i64_id by i64_lia; lia.
Qed.

(** While the answer is arriving a cut leaves at least the minimum on its left,
    and no cut means a short text without a sentence end past the minimum. *)
Lemma boundary_streaming runes cfg :
  let cfg := NormalizeSpeechPlannerConfig cfg in
  let cut := plannedSpeechBoundary runes cfg false in
  runes <> [] -> sc_TargetChunkRunes cfg <= 2 ^ 62 ->
  (cut = 0 /\ len runes < sc_TargetChunkRunes cfg /\
   forall i r, runes !! i = Some r -> isStrongSpeechBoundary r = true -> 1 + Z.of_nat i < sc_MinChunkRunes cfg) \/
  sc_MinChunkRunes cfg <= cut <= len runes.
Proof.
  cbv zeta. intros Hr Hmax. pose proof (planner_config_pos cfg) as Hc. apply len_pos in Hr as Hl.
  destruct (scan_from_start (sc_MinChunkRunes (NormalizeSpeechPlannerConfig cfg)) runes) as [Hs Hstrong].
  unfold plannedSpeechBoundary. assert ((len runes =? 0) = false) as -> by lia. cbv zeta.
  set (s := scan_boundaries _ _ _ _) in *. clearbody s. set (c := NormalizeSpeechPlannerConfig cfg) in *. clearbody c. unfold scan_within in Hs.
  pose proof (max_chunk_above_target (sc_TargetChunkRunes c) ltac:(lia) Hmax) as Hm0.
  set (m := if i64 _ <? _ then _ else _). assert (Hm : sc_TargetChunkRunes c < m) by (subst m; split_if; bool_prop; lia).
  clearbody m. clear Hm0.
  destruct (lastStrong s <? sc_MinChunkRunes c) eqn:E; bool_prop; cbn [negb]; rewrite andb_true_r.
  - destruct (sc_TargetChunkRunes c <=? len runes) eqn:E1; bool_prop; [right; repeat (split_if; bool_prop); lia|].
    repeat (split_if; bool_prop; try (right; lia)).
    left. split; [lia|]. split; [lia|]. intros i r Hi Hir. specialize (Hstrong i r Hi Hir). lia.
  - right. repeat (split_if; bool_prop; try lia).
Qed.

Lemma stuck_spec s cfg canStart index :
  let runes := TrimSpace s in
  let cfg' := NormalizeSpeechPlannerConfig cfg in
  sc_TargetChunkRunes cfg' <= 2 ^ 62 ->
  TrimSpace (pc_Text (nextPlannedSpeechClause s cfg' false canStart index).1) = [] ->
  len runes < sc_TargetChunkRunes cfg' /\
  forall i r, runes !! i = Some r -> isStrongSpeechBoundary r = true -> 1 + Z.of_nat i < sc_MinChunkRunes cfg'.
Proof.
  cbv zeta. intros Hmax. pose proof (planner_config_pos cfg) as Hc.
  unfold nextPlannedSpeechClause, nextPlannedSpeechSegment. cbv zeta.
  destruct (TrimSpace s == "") eqn:E0; text_prop.
  { intros _. change (txt "") with (@nil Z) in E0. rewrite E0, len_nil. split; [lia|].
    intros i r Hi. discriminate Hi. }
  rewrite planner_config_idemp.
  destruct (boundary_streaming (TrimSpace s) cfg E0 Hmax) as [(_ & H)|H]; [done|].
  set (cut := plannedSpeechBoundary _ _ false) in *. clearbody cut.
  assert ((cut <=? 0) = false) as -> by lia. assert ((len (TrimSpace s) <? cut) = false) as -> by lia.
  assert (Hseg : TrimSpace (take (Z.to_nat cut) (TrimSpace s)) <> []).
  { apply take_nonblank; [apply trimmed_TrimSpace | done | lia]. }
  rewrite TrimSpace_idemp. destruct (TrimSpace (take _ _) == "") eqn:E2; text_prop; [done|].
  cbn [fst]. unfold classifyPlannedSpeechClause. cbv zeta. cbn [pc_Text]. by rewrite !TrimSpace_idemp.
Qed.

(** Speech starts early: after any delta, what the planner still holds back
    is shorter than the target clause length and has no sentence end past the
    minimum clause length, so at most one unfinished clause waits for the next
    delta, whatever was held back before. *)
Theorem planner_holds_back_less_than_a_clause cfg d p :
  let cfg := NormalizeSpeechPlannerConfig cfg in
  planner_cfg p = cfg -> TrimSpace d <> [] -> sc_TargetChunkRunes cfg <= 2 ^ 62 ->
  let held := TrimSpace (pending (ObserveTextDeltaClauses d p).1) in
  len held < sc_TargetChunkRunes cfg /\
  forall i r, held !! i = Some r -> isStrongSpeechBoundary r = true -> 1 + Z.of_nat i < sc_MinChunkRunes cfg.
Proof.
  cbv zeta. intros Hcfg Hd Hmax. pose proof (planner_config_pos cfg) as Hc.
  unfold ObserveTextDeltaClauses. destruct (TrimSpace d == "") eqn:E; text_prop; [done|].
  destruct (drainClauses false (write d p)) as [p' cs] eqn:Ed. cbn [fst]. revert Ed. unfold drainClauses. cbv zeta.
  destruct (TrimSpace (pending (write d p)) == "") eqn:E1; text_prop.
  { intros [= <- <-]. cbn [pending]. change (TrimSpace []) with (@nil Z). rewrite len_nil.
    split; [lia|]. intros i r Hi. discriminate Hi. }
  destruct (drain_loop _ _ _ _ _) as [[cs' lo] ix] eqn:El. intros [= <- <-]. cbn [pending].
  apply drain_loop_spec in El as (_ & _ & _ & _ & D); [|rewrite TrimSpace_idemp; lia].
  cbn [write planner_cfg] in D. rewrite Hcfg in D. destruct D as [D| ->].
  - by eapply stuck_spec.
  - change (TrimSpace []) with (@nil Z). rewrite len_nil. split; [lia|]. intros i r Hi. discriminate Hi.
Qed.

Lemma planner_holds_back_less_than_a_clause_witness :
  let cfg := NormalizeSpeechPlannerConfig (mkPlannerConfig true 0 0) in
  let held := TrimSpace (pending (ObserveTextDeltaClauses "好的，我来帮你看一下。今天" demo_planner).1) in
  held = txt "今天" /\ len held < sc_TargetChunkRunes cfg /\
  forall i r, held !! i = Some r -> isStrongSpeechBoundary r = true -> 1 + Z.of_nat i < sc_MinChunkRunes cfg.
Proof.
  cbv zeta. split; [by vm_compute|].
  apply (planner_holds_back_less_than_a_clause (mkPlannerConfig true 0 0)); by vm_compute.
Defined.
