(* ===== verification/Audio.v ===== *)
(** * Audio plumbing (internal/voice/audio_output.go, audio_stream.go,
      synthesis_audio.go, input_audio.go)

    Cutting PCM into frames, reading a WAV container, the audio streams a
    synthesizer answers with, and the header of an incoming Opus packet. *)

From S2P Require Import Prelude GoText.

Abbreviation bytes := (list byte).

(** A run-time panic is an outcome of its own, so that its absence can be
    stated. *)
Inductive go_error := GoError (message : text) | GoPanic.

Definition slice {A} (l : list A) (from upto : Z) : result go_error (list A) :=
  if (0 <=? from) && (from <=? upto) && (upto <=? len l)
  then Ok (take (Z.to_nat (upto - from)) (drop (Z.to_nat from) l))
  else Err GoPanic.

(** ** Frames *)

Fixpoint chunk_loop (fuel : nat) (audioPCM : bytes) (chunkBytes offset : Z) : result go_error (list bytes) :=
  match fuel with
  | O => Ok []
  | S fuel =>
      if offset <? len audioPCM then
        let upto := i64 (offset + chunkBytes) in
        let upto := if len audioPCM <? upto then len audioPCM else upto in
        let! chunk := slice audioPCM offset upto in
        let! chunks := chunk_loop fuel audioPCM chunkBytes (i64 (offset + chunkBytes)) in
        Ok (chunk :: chunks)
      else Ok []
  end.

Definition chunk_bytes (sampleRateHz channels frameMs : Z) : Z :=
  let frameMs := if frameMs <=? 0 then 20 else frameMs in
  let bytesPerFrame := i64 (channels * 2) in
  let samplesPerChunk := idiv (i64 (sampleRateHz * frameMs)) 1000 in
  let samplesPerChunk := if samplesPerChunk <=? 0 then idiv sampleRateHz 50 else samplesPerChunk in
  i64 (samplesPerChunk * bytesPerFrame).

Definition chunkPCM16 (audioPCM : bytes) (sampleRateHz channels frameMs : Z) : result go_error (list bytes) :=
  if (len audioPCM =? 0) || (sampleRateHz <=? 0) || (channels <=? 0) then Ok []
  else
    let chunkBytes := chunk_bytes sampleRateHz channels frameMs in
    if chunkBytes <=? 0 then Ok []
    else chunk_loop (S (length audioPCM)) audioPCM chunkBytes 0.

(** ** Streams: [Next] answers a chunk or an error, [io.EOF] at the end *)

Inductive stream_error := EOF | StreamError (message : text).

Record AudioStream := mkStream { chunks : list bytes; ending : stream_error }.

Definition stream_Next (s : AudioStream) : result stream_error bytes * AudioStream :=
  match chunks s with
  | [] => (Err (ending s), s)
  | c :: cs => (Ok c, mkStream cs (ending s))
  end.

Definition NewStaticAudioStream (cs : list bytes) : AudioStream := mkStream cs EOF.

(** [collectAudioStream] loops until the stream ends; [fuel] counts calls of
    [Next]. *)
Fixpoint collect_loop (fuel : nat) (s : AudioStream) (collected : bytes) : option (result text bytes) :=
  match fuel with
  | O => None
  | S fuel =>
      match stream_Next s with
      | (Err EOF, _) => Some (Ok collected)
      | (Err (StreamError e), _) => Some (Err e)
      | (Ok c, s) => collect_loop fuel s (collected ++ c)
      end
  end.

Definition collectAudioStream (s : AudioStream) : option (result text bytes) :=
  collect_loop (S (length (chunks s))) s [].

Definition pcm16FrameBytes (sampleRateHz channels : Z) : Z :=
  if (sampleRateHz <=? 0) || (channels <=? 0) then 0 else i64 (i64 (idiv sampleRateHz 50 * channels) * 2).

(** The pending buffer is passed by reference: answer and new buffer. *)
Definition nextPCMChunk (pending : bytes) (frameBytes : Z) : bytes * bytes :=
  if (len pending <=? frameBytes) || (frameBytes <=? 0) then (pending, [])
  else (take (Z.to_nat frameBytes) pending, drop (Z.to_nat frameBytes) pending).

Example chunk_example :
  option_map (map length) (match chunkPCM16 (repeat Byte.x00 1700) 16000 1 20 with Ok l => Some l | Err _ => None end)
  = Some [640; 640; 420]%nat.
Proof. vm_compute. reflexivity. Qed.

(** ** The WAV container *)

Fixpoint le_value (bs : bytes) : Z :=
  match bs with [] => 0 | b :: bs => byte_val b + 256 * le_value bs end.

(** [binary.LittleEndian.Uint16] and [Uint32] of a slice of that length. *)
Definition Uint16 (bs : bytes) : Z := le_value bs.
Definition Uint32 (bs : bytes) : Z := le_value bs.

Definition ascii_bytes (s : string) : bytes := String.list_byte_of_string s.

#[export] Instance byte_eq_decision : EqDecision byte := Byte.byte_eq_dec.

Definition bytes_eqb (a b : bytes) : bool := bool_decide (a = b).

(** What the chunk loop has found so far. *)
Record wav_scan := mkWavScan {
  wav_sampleRateHz : Z;
  wav_channels : Z;
  audioFormat : Z;
  bitsPerSample : Z;
  dataChunk : bytes
}.

Definition read_wav_chunk (chunkID chunkData : bytes) (w : wav_scan) : result go_error wav_scan :=
  if bytes_eqb chunkID (ascii_bytes "fmt ") then
    if len chunkData <? 16 then Err (GoError "wav fmt chunk is too short")
    else
      let! f := slice chunkData 0 2 in
      let! c := slice chunkData 2 4 in
      let! r := slice chunkData 4 8 in
      let! b := slice chunkData 14 16 in
      Ok (mkWavScan (Uint32 r) (Uint16 c) (Uint16 f) (Uint16 b) (dataChunk w))
  else if bytes_eqb chunkID (ascii_bytes "data") then
    Ok (mkWavScan (wav_sampleRateHz w) (wav_channels w) (audioFormat w) (bitsPerSample w) chunkData)
  else Ok w.

Fixpoint wav_loop (fuel : nat) (payload : bytes) (offset : Z) (w : wav_scan) : result go_error wav_scan :=
  match fuel with
  | O => Ok w
  | S fuel =>
      if offset + 8 <=? len payload then
        let! chunkID := slice payload offset (offset + 4) in
        let! size := slice payload (offset + 4) (offset + 8) in
        let chunkSize := Uint32 size in
        let offset := offset + 8 in
        if len payload <? offset + chunkSize then Err (GoError "wav chunk exceeds payload length")
        else
          let! chunkData := slice payload offset (offset + chunkSize) in
          let! w := read_wav_chunk chunkID chunkData w in
          let offset := offset + chunkSize in
          let offset := if irem chunkSize 2 =? 1 then offset + 1 else offset in
          wav_loop fuel payload offset w
      else Ok w
  end.

(** The numbers interpolated in two of the messages are left out. *)
Definition wav_result (w : wav_scan) : result go_error (bytes * Z * Z) :=
  if negb (audioFormat w =? 1) then Err (GoError "unsupported wav audio format")
  else if negb (bitsPerSample w =? 16) then Err (GoError "unsupported wav bit depth")
  else if (wav_channels w <=? 0) || (wav_sampleRateHz w <=? 0) then Err (GoError "wav metadata is incomplete")
  else if len (dataChunk w) =? 0 then Err (GoError "wav data chunk is empty")
  else Ok (dataChunk w, wav_sampleRateHz w, wav_channels w).

Definition decodeWAVPCM16 (payload : bytes) : result go_error (bytes * Z * Z) :=
  if len payload <? 12 then Err (GoError "wav payload is too short")
  else
    let! riff := slice payload 0 4 in
    if negb (bytes_eqb riff (ascii_bytes "RIFF")) then Err (GoError "wav header is invalid")
    else
      let! wave := slice payload 8 12 in
      if negb (bytes_eqb wave (ascii_bytes "WAVE")) then Err (GoError "wav header is invalid")
      else
        let! w := wav_loop (S (length payload)) payload 12 (mkWavScan 0 0 0 0 []) in
        wav_result w.

(** ** The header of an Opus packet *)

Inductive opusConfigurationMode :=
| opusConfigurationModeSilkOnly | opusConfigurationModeHybrid | opusConfigurationModeCeltOnly.

Record opusPacketInfo := mkOpusPacketInfo {
  opus_Mode : opusConfigurationMode;
  opus_SampleRateHz : Z;
  opus_Channels : Z;
  FrameCount : Z;
  SampleCount : Z
}.

Definition opus_long_frames : list Z := [10000000; 20000000; 40000000; 60000000].
Definition opus_short_frames : list Z := [2500000; 5000000; 10000000; 20000000].

(** Indexing out of range would panic. *)
Definition indexed {A} (l : list A) (i : Z) : result go_error A :=
  if i <? 0 then Err GoPanic else match l !! Z.to_nat i with Some a => Ok a | None => Err GoPanic end.

Definition opusConfigurationInfo (config : Z) : result go_error (opusConfigurationMode * Z * Z) :=
  let row mode rate durations i := let! d := indexed durations i in Ok (mode, rate, d) in
  if config <=? 3 then row opusConfigurationModeSilkOnly 8000 opus_long_frames config
  else if config <=? 7 then row opusConfigurationModeSilkOnly 12000 opus_long_frames (config - 4)
  else if config <=? 11 then row opusConfigurationModeSilkOnly 16000 opus_long_frames (config - 8)
  else if config <=? 13 then row opusConfigurationModeHybrid 24000 (take 2 opus_long_frames) (config - 12)
  else if config <=? 15 then row opusConfigurationModeHybrid 48000 (take 2 opus_long_frames) (config - 14)
  else if config <=? 19 then row opusConfigurationModeCeltOnly 8000 opus_short_frames (config - 16)
  else if config <=? 23 then row opusConfigurationModeCeltOnly 16000 opus_short_frames (config - 20)
  else if config <=? 27 then row opusConfigurationModeCeltOnly 24000 opus_short_frames (config - 24)
  else if config <=? 31 then row opusConfigurationModeCeltOnly 48000 opus_short_frames (config - 28)
  else Err (GoError "unsupported opus configuration").

Definition opusFrameCount (payload : bytes) (frameCode : Z) : result go_error Z :=
  if frameCode =? 0 then Ok 1
  else if (frameCode =? 1) || (frameCode =? 2) then Ok 2
  else if frameCode =? 3 then
    if len payload <? 2 then Err (GoError "opus packet is missing the code 3 frame count byte")
    else
      let! b := indexed payload 1 in
      let frameCount := Z.land (byte_val b) 63 in
      if frameCount =? 0 then Err (GoError "opus packet frame count must not be zero") else Ok frameCount
  else Err (GoError "unsupported opus frame code").

Definition parseOpusPacketInfo (payload : bytes) : result go_error opusPacketInfo :=
  if len payload =? 0 then Err (GoError "opus packet is empty")
  else
    let! toc := indexed payload 0 in
    let toc := byte_val toc in
    let config := Z.shiftr toc 3 in
    let channels := if negb (Z.land toc 4 =? 0) then 2 else 1 in
    let! (mode, sampleRateHz, frameDurationNs) := opusConfigurationInfo config in
    let! frameCount := opusFrameCount payload (Z.land toc 3) in
    if 120000000 <? i64 (frameDurationNs * frameCount)
    then Err (GoError "opus packet exceeds 120 ms maximum duration")
    else
      let sampleCount := idiv (i64 (i64 (sampleRateHz * frameDurationNs) * frameCount)) 1000000000 in
      if sampleCount <=? 0 then Err (GoError "opus packet produced invalid sample count")
      else Ok (mkOpusPacketInfo mode sampleRateHz channels frameCount sampleCount).

(** ** Laws of slices and chunks *)

#[global] Arguments slice {A} _ _ _ : simpl never.

Lemma slice_ok {A} (l : list A) a b :
  0 <= a -> a <= b -> b <= len l -> slice l a b = Ok (take (Z.to_nat (b - a)) (drop (Z.to_nat a) l)).
Proof. intros. unfold slice. assert ((0 <=? a) && (a <=? b) && (b <=? len l) = true) as -> by lia. done. Qed.

Lemma len_slice {A} (l s : list A) a b : slice l a b = Ok s -> len s = b - a.
Proof.
  unfold slice. destruct (_ && _) eqn:E; [|done]. intros [= <-]. bool_prop. unfold len in *.
  rewrite length_take, length_drop. lia.
Qed.

(** Reading a known part out of a concatenation. *)
Lemma slice_middle {A} (p m q : list A) a b :
  a = len p -> b = len p + len m -> slice (p ++ m ++ q) a b = Ok m.
Proof.
  intros -> ->. pose proof (len_nonneg p). pose proof (len_nonneg m). pose proof (len_nonneg q).
  rewrite slice_ok by (rewrite ?len_app; lia). f_equal.
  replace (Z.to_nat (len p + len m - len p)) with (length m) by (unfold len; lia).
  replace (Z.to_nat (len p)) with (length p) by (unfold len; lia).
  by rewrite drop_app_length, take_app_length.
Qed.

Lemma chunk_loop_spec fuel audio chunk offset :
  0 < chunk -> 0 <= offset -> len audio + chunk <= max_int64 ->
  (length audio - Z.to_nat offset < fuel)%nat -> offset <= len audio + chunk ->
  exists cs, chunk_loop fuel audio chunk offset = Ok cs /\
  concat cs = drop (Z.to_nat offset) audio /\
  Forall (fun c => 0 < len c <= chunk) cs /\
  Forall (fun c => len c = chunk) (removelast cs).
Proof.
  intros Hc. revert offset. induction fuel as [|fuel IH]; intros offset Ho Hmax Hf Hle; [lia|]. cbn [chunk_loop].
  destruct (offset <? len audio) eqn:E; bool_prop.
  - rewrite !i64_id by (pose proof (len_nonneg audio); i64_lia). set (upto := if len audio <? offset + chunk then _ else _).
    assert (Hu : offset < upto <= len audio /\ upto <= offset + chunk /\ (upto < offset + chunk -> upto = len audio)).
    { subst upto. split_if; bool_prop; lia. }
    clearbody upto. rewrite slice_ok by lia. cbn [result_bind].
    destruct (IH (offset + chunk)) as (cs & -> & Hcat & Hall & Hfull); try (unfold len in *; lia).
    assert (Hlen : len (take (Z.to_nat (upto - offset)) (drop (Z.to_nat offset) audio)) = upto - offset).
    { unfold len in *. rewrite length_take, length_drop. lia. }
    eexists. split; [reflexivity|]. split; [|split].
    + cbn [concat]. rewrite Hcat. rewrite <- (take_drop (Z.to_nat (upto - offset)) (drop (Z.to_nat offset) audio)) at 2.
      f_equal. rewrite drop_drop. destruct (Z.eq_dec upto (offset + chunk)) as [->|Hn]; [f_equal; lia|].
      rewrite !drop_ge; [done| |]; unfold len in *; lia.
    + constructor; [lia | done].
    + destruct cs as [|c cs]; [done|]. cbn [removelast]. constructor; [|done].
      rewrite Hlen. destruct (Z.eq_dec upto (offset + chunk)) as [->|Hn]; [lia|]. exfalso.
      rewrite (drop_ge audio) in Hcat by (unfold len in *; lia). apply Forall_cons_1 in Hall as [H1 _].
      cbn [concat] in Hcat. apply app_nil in Hcat as [-> _]. change (len []) with 0 in H1. lia.
  - exists []. rewrite drop_ge by (unfold len in *; lia). by repeat constructor.
Qed.

(** Cutting PCM into frames never panics or loses a byte: whenever a frame
    length can be computed, the frames laid end to end are the audio, no frame is
    empty or longer than the frame length, and only the last may be shorter. *)
Theorem chunk_pcm16_partition audio rate channels frameMs :
  0 < rate -> 0 < channels -> 0 < chunk_bytes rate channels frameMs ->
  len audio + chunk_bytes rate channels frameMs <= max_int64 ->
  exists cs, chunkPCM16 audio rate channels frameMs = Ok cs /\ concat cs = audio /\
  Forall (fun c => 0 < len c <= chunk_bytes rate channels frameMs) cs /\
  Forall (fun c => len c = chunk_bytes rate channels frameMs) (removelast cs).
Proof.
  intros Hr Hch Hc Hmax. unfold chunkPCM16. set (n := chunk_bytes rate channels frameMs) in *. clearbody n.
  destruct (len audio =? 0) eqn:E; bool_prop; cbn [orb].
  { exists []. destruct audio; [by repeat constructor|]. rewrite len_cons in E. pose proof (len_nonneg audio). lia. }
  assert ((rate <=? 0) || (channels <=? 0) = false) as -> by lia. cbv zeta.
  assert ((n <=? 0) = false) as -> by lia. pose proof (len_nonneg audio).
  destruct (chunk_loop_spec (S (length audio)) audio n 0) as (cs & H1 & H2 & H3 & H4); try lia.
  exists cs. rewrite H1, H2. done.
Qed.

Lemma chunk_pcm16_partition_witness :
  chunk_bytes 16000 1 20 = 640 /\
  exists cs, chunkPCM16 (repeat Byte.x00 1700) 16000 1 20 = Ok cs /\ concat cs = repeat Byte.x00 1700 /\
  Forall (fun c => 0 < len c <= chunk_bytes 16000 1 20) cs /\
  Forall (fun c => len c = chunk_bytes 16000 1 20) (removelast cs).
Proof.
  split; [by vm_compute|]. apply (chunk_pcm16_partition (repeat Byte.x00 1700) 16000 1 20); by vm_compute.
Defined.

(** Collecting a synthesized stream always ends, with all its bytes in order
    or with the error that broke it off; a static stream loses nothing. *)
Theorem collect_returns_the_audio s cs :
  collectAudioStream s = Some (match ending s with EOF => Ok (concat (chunks s)) | StreamError e => Err e end) /\
  collectAudioStream (NewStaticAudioStream cs) = Some (Ok (concat cs)).
Proof.
  assert (H : forall e cs acc, collect_loop (S (length cs)) (mkStream cs e) acc =
    Some (match e with EOF => Ok (acc ++ concat cs) | StreamError e => Err e end)).
  { intros e cs'. induction cs' as [|c cs' IH]; intros acc.
    - destruct e; cbn; by rewrite ?app_nil_r.
    - change (collect_loop (S (length (c :: cs'))) (mkStream (c :: cs') e) acc)
        with (collect_loop (S (length cs')) (mkStream cs' e) (acc ++ c)).
      rewrite IH. cbn [concat]. by rewrite <- app_assoc. }
  destruct s as [cs' e]. unfold collectAudioStream, NewStaticAudioStream. cbn [chunks ending]. by rewrite !H.
Qed.

(** ** Laws of the WAV reader *)

Lemma le_value_range bs : 0 <= le_value bs < 256 ^ len bs.
Proof.
  induction bs as [|b bs IH]; [split; by vm_compute|]. cbn [le_value]. rewrite len_cons. pose proof (byte_val_range b).
  pose proof (len_nonneg bs). rewrite Z.pow_add_r, Z.pow_1_r by lia. lia.
Qed.

Definition no_panic {A} (m : result go_error A) : Prop := m <> Err GoPanic.

Lemma no_panic_bind {A B} (m : result go_error A) (f : A -> result go_error B) :
  no_panic m -> (forall a, m = Ok a -> no_panic (f a)) -> no_panic (result_bind m f).
Proof. unfold no_panic. destruct m as [a|e]; cbn; intros H1 H2; [by apply H2 | congruence]. Qed.

Lemma no_panic_slice {A} (l : list A) a b : 0 <= a -> a <= b -> b <= len l -> no_panic (slice l a b).
Proof. intros. unfold no_panic. by rewrite slice_ok. Qed.

Lemma no_panic_fmt id data w : no_panic (read_wav_chunk id data w).
Proof.
  unfold read_wav_chunk. repeat split_if; bool_prop; try done.
  repeat (apply no_panic_bind; [apply no_panic_slice; lia | intros ? _]). done.
Qed.

Lemma no_panic_wav_loop fuel payload offset w : 0 <= offset -> no_panic (wav_loop fuel payload offset w).
Proof.
  revert offset w. induction fuel as [|fuel IH]; intros offset w Ho; cbn [wav_loop]; [done|].
  split_if; bool_prop; [|done].
  apply no_panic_bind; [apply no_panic_slice; lia|]. intros chunkID _.
  apply no_panic_bind; [apply no_panic_slice; lia|]. intros size Hs.
  pose proof (le_value_range size) as Hr. fold (Uint32 size) in Hr. cbv zeta.
  split_if; bool_prop; [done|]. apply no_panic_bind; [apply no_panic_slice; lia|]. intros data _.
  apply no_panic_bind; [apply no_panic_fmt|]. intros w' _. apply IH. split_if; lia.
Qed.

(** The container as a WAV writer lays it out: a tag, a length, the data, and a
    pad byte after an odd length. *)
Definition byte_of (z : Z) : byte :=
  match Byte.of_N (Z.to_N (z mod 256)) with Some b => b | None => Byte.x00 end.

Fixpoint le_bytes (k : nat) (z : Z) : bytes :=
  match k with O => [] | S k => byte_of z :: le_bytes k (z / 256) end.

Definition wav_chunk (c : bytes * bytes) : bytes :=
  c.1 ++ le_bytes 4 (len c.2) ++ c.2 ++ (if irem (len c.2) 2 =? 1 then [Byte.x00] else []).

Definition fmt_data (rate channels : Z) (extension : bytes) : bytes :=
  le_bytes 2 1 ++ le_bytes 2 channels ++ le_bytes 4 rate ++ le_bytes 4 (rate * channels * 2) ++
  le_bytes 2 (channels * 2) ++ le_bytes 2 16 ++ extension.

Definition wav_file (rate channels : Z) (extension : bytes) (extra : list (bytes * bytes)) (pcm : bytes) : bytes :=
  let body := concat (map wav_chunk ((ascii_bytes "fmt ", fmt_data rate channels extension) :: extra
                                     ++ [(ascii_bytes "data", pcm)])) in
  ascii_bytes "RIFF" ++ le_bytes 4 (4 + len body) ++ ascii_bytes "WAVE" ++ body.

Lemma byte_of_val z : byte_val (byte_of z) = z mod 256.
Proof.
  unfold byte_val, byte_of. pose proof (Z.mod_pos_bound z 256 ltac:(lia)) as H.
  destruct (Byte.of_N (Z.to_N (z mod 256))) as [b|] eqn:E.
  - apply Byte.to_of_N in E. rewrite E. lia.
  - apply Byte.of_N_None_iff in E. lia.
Qed.

Lemma length_le_bytes k z : length (le_bytes k z) = k.
Proof. revert z. induction k as [|k IH]; intros z; cbn; [done|]. by rewrite IH. Qed.

Lemma len_le_bytes k z : len (le_bytes k z) = Z.of_nat k.
Proof. unfold len. by rewrite length_le_bytes. Qed.

Lemma le_value_bytes k z : 0 <= z < 256 ^ Z.of_nat k -> le_value (le_bytes k z) = z.
Proof.
  revert z. induction k as [|k IH]; intros z Hz.
  - cbn in *. lia.
  - cbn [le_bytes le_value]. rewrite Nat2Z.inj_succ, Z.pow_succ_r in Hz by lia.
    rewrite byte_of_val, IH; [pose proof (Z.div_mod z 256); lia|].
    split; [apply Z.div_pos; lia|]. apply Z.div_lt_upper_bound; lia.
Qed.

Lemma len_pad n : 0 <= n -> len (if irem n 2 =? 1 then [Byte.x00] else []) = if irem n 2 =? 1 then 1 else 0.
Proof. intros _. by destruct (irem n 2 =? 1). Qed.

(** One round of the loop reads one chunk. *)
Lemma wav_loop_chunk fuel p id data q w :
  len id = 4 -> len data < 2 ^ 32 ->
  wav_loop (S fuel) (p ++ wav_chunk (id, data) ++ q) (len p) w =
  result_bind (read_wav_chunk id data w)
    (fun w => wav_loop fuel (p ++ wav_chunk (id, data) ++ q) (len (p ++ wav_chunk (id, data))) w).
Proof.
  intros Hid Hdata. cbn [wav_loop]. unfold wav_chunk at 1 2 3 4 5. cbn [fst snd].
  set (pad := if irem (len data) 2 =? 1 then [Byte.x00] else []).
  assert (Hpad : len pad = if irem (len data) 2 =? 1 then 1 else 0) by (apply len_pad, len_nonneg).
  pose proof (len_nonneg p). pose proof (len_nonneg q). pose proof (len_nonneg data). pose proof (len_nonneg pad).
  assert (Hsz : len (le_bytes 4 (len data)) = 4) by apply len_le_bytes.
  set (size := le_bytes 4 (len data)) in *.
  set (payload := p ++ (id ++ size ++ data ++ pad) ++ q).
  assert (E0 : slice payload (len p) (len p + 4) = Ok id).
  { unfold payload. rewrite <- !app_assoc. apply slice_middle; lia. }
  assert (E1 : slice payload (len p + 4) (len p + 8) = Ok size).
  { unfold payload. rewrite <- !app_assoc, (app_assoc p id). apply slice_middle; rewrite len_app; lia. }
  assert (E2 : slice payload (len p + 8) (len p + 8 + len data) = Ok data).
  { unfold payload. rewrite <- !app_assoc, (app_assoc p id), (app_assoc (p ++ id)).
    apply slice_middle; rewrite !len_app; lia. }
  assert (Hlen : len payload = len p + 8 + len data + len pad + len q).
  { unfold payload. rewrite !len_app. lia. }
  assert ((len p + 8 <=? len payload) = true) as -> by lia.
  rewrite E0, E1. cbn [result_bind].
  assert (Hv : Uint32 size = len data) by (apply le_value_bytes; cbn; lia).
  rewrite Hv. assert ((len payload <? len p + 8 + len data) = false) as -> by lia. rewrite E2. cbn [result_bind].
  unfold wav_chunk. cbn [fst snd]. fold size pad.
  replace (if irem (len data) 2 =? 1 then len p + 8 + len data + 1 else len p + 8 + len data)
    with (len (p ++ id ++ size ++ data ++ pad)); [done|].
  rewrite !len_app. split_if; lia.
Qed.

Fixpoint read_wav_chunks (cs : list (bytes * bytes)) (w : wav_scan) : result go_error wav_scan :=
  match cs with [] => Ok w | c :: cs => result_bind (read_wav_chunk c.1 c.2 w) (read_wav_chunks cs) end.

Definition chunk_ok (c : bytes * bytes) : Prop := len c.1 = 4 /\ len c.2 < 2 ^ 32.

Lemma wav_loop_chunks fuel cs p w :
  Forall chunk_ok cs -> (length cs < fuel)%nat ->
  wav_loop fuel (p ++ concat (map wav_chunk cs)) (len p) w = read_wav_chunks cs w.
Proof.
  revert fuel p w. induction cs as [|[id data] cs IH]; intros [|fuel] p w Hcs Hf; cbn [length] in Hf; try lia.
  - cbn [map concat wav_loop]. rewrite app_nil_r. by assert ((len p + 8 <=? len p) = false) as -> by lia.
  - apply Forall_cons_1 in Hcs as [[H1 H2] Hcs]. cbn [map concat]. rewrite wav_loop_chunk by done.
    cbn [read_wav_chunks fst snd]. destruct (read_wav_chunk id data w) as [w'|e]; [|done]. cbn [result_bind].
    rewrite app_assoc. apply IH; [done | lia].
Qed.

Lemma read_fmt rate channels extension w :
  0 < channels < 65536 -> 0 < rate < 2 ^ 32 ->
  read_wav_chunk (ascii_bytes "fmt ") (fmt_data rate channels extension) w
  = Ok (mkWavScan rate channels 1 16 (dataChunk w)).
Proof.
  intros Hc Hr. unfold read_wav_chunk. change (bytes_eqb (ascii_bytes "fmt ") (ascii_bytes "fmt ")) with true. cbv iota.
  unfold fmt_data. pose proof (len_nonneg extension). rewrite !len_app, !len_le_bytes.
  destruct (_ <? 16) eqn:E; [bool_prop; lia|]. clear E.
  set (a := le_bytes 2 1). set (b := le_bytes 2 channels). set (c := le_bytes 4 rate).
  set (d := le_bytes 4 (rate * channels * 2)). set (e := le_bytes 2 (channels * 2)). set (f := le_bytes 2 16).
  assert (H1 : slice (a ++ b ++ c ++ d ++ e ++ f ++ extension) 0 2 = Ok a).
  { apply (slice_middle []); subst a; rewrite ?len_le_bytes; reflexivity. }
  assert (H2 : slice (a ++ b ++ c ++ d ++ e ++ f ++ extension) 2 4 = Ok b).
  { apply slice_middle; subst a b; rewrite ?len_le_bytes; reflexivity. }
  assert (H3 : slice (a ++ b ++ c ++ d ++ e ++ f ++ extension) 4 8 = Ok c).
  { rewrite (app_assoc a). apply slice_middle; subst a b c; rewrite ?len_app, ?len_le_bytes; reflexivity. }
  assert (H4 : slice (a ++ b ++ c ++ d ++ e ++ f ++ extension) 14 16 = Ok f).
  { rewrite (app_assoc a), (app_assoc (a ++ b)), (app_assoc ((a ++ b) ++ c)), (app_assoc (((a ++ b) ++ c) ++ d)).
    apply slice_middle; subst a b c d e f; rewrite ?len_app, ?len_le_bytes; reflexivity. }
  rewrite H1, H2, H3, H4. cbn [result_bind]. unfold Uint16, Uint32. subst a b c f.
  rewrite !le_value_bytes by (cbn; lia). done.
Qed.

Lemma read_wav_chunks_app cs ds w :
  read_wav_chunks (cs ++ ds) w = result_bind (read_wav_chunks cs w) (read_wav_chunks ds).
Proof.
  revert w. induction cs as [|c cs IH]; intros w; cbn [app read_wav_chunks]; [done|].
  destruct (read_wav_chunk c.1 c.2 w); cbn [result_bind]; auto.
Qed.

Lemma read_extra cs w :
  Forall (fun c => c.1 <> ascii_bytes "fmt " /\ c.1 <> ascii_bytes "data") cs -> read_wav_chunks cs w = Ok w.
Proof.
  induction 1 as [|c cs [H1 H2] _ IH]; cbn [read_wav_chunks]; [done|]. unfold read_wav_chunk, bytes_eqb.
  rewrite !bool_decide_eq_false_2 by done. exact IH.
Qed.

(** C32. Reading a WAV file back gives the PCM that was written, with its rate and
    channel count, whatever chunks of other kinds stand between the format and the
    data and however long the format chunk is; and no payload at all, well formed
    or not, makes the reader index out of range. *)
Theorem wav_round_trip rate channels extension extra pcm payload :
  0 < channels < 65536 -> 0 < rate < 2 ^ 32 -> len extension < 2 ^ 31 -> 0 < len pcm < 2 ^ 32 ->
  Forall (fun c => chunk_ok c /\ c.1 <> ascii_bytes "fmt " /\ c.1 <> ascii_bytes "data") extra ->
  decodeWAVPCM16 (wav_file rate channels extension extra pcm) = Ok (pcm, rate, channels) /\
  no_panic (decodeWAVPCM16 payload).
Proof.
  intros Hc Hr Hx Hp Hextra. apply Forall_and in Hextra as [Hok Hids]. split.
  - unfold decodeWAVPCM16, wav_file. cbv zeta. set (cs := (ascii_bytes "fmt ", _) :: _).
    set (body := concat (map wav_chunk cs)). set (size := le_bytes 4 (4 + len body)).
    assert (Hs : len size = 4) by apply len_le_bytes. pose proof (len_nonneg body).
    assert (E1 : slice (ascii_bytes "RIFF" ++ size ++ ascii_bytes "WAVE" ++ body) 0 4 = Ok (ascii_bytes "RIFF")).
    { apply (slice_middle []); reflexivity. }
    assert (E2 : slice (ascii_bytes "RIFF" ++ size ++ ascii_bytes "WAVE" ++ body) 8 12 = Ok (ascii_bytes "WAVE")).
    { rewrite app_assoc. apply slice_middle; rewrite len_app, Hs; reflexivity. }
    rewrite E1, E2. rewrite !len_app, Hs.
    change (len (ascii_bytes "RIFF")) with 4. change (len (ascii_bytes "WAVE")) with 4.
    assert ((4 + (4 + (4 + len body)) <? 12) = false) as -> by lia. cbn [result_bind].
    change (negb (bytes_eqb (ascii_bytes "RIFF") (ascii_bytes "RIFF"))) with false.
    change (negb (bytes_eqb (ascii_bytes "WAVE") (ascii_bytes "WAVE"))) with false. cbv iota.
    assert (Hloop : wav_loop (S (length (ascii_bytes "RIFF" ++ size ++ ascii_bytes "WAVE" ++ body)))
      (ascii_bytes "RIFF" ++ size ++ ascii_bytes "WAVE" ++ body) 12 (mkWavScan 0 0 0 0 [])
      = read_wav_chunks cs (mkWavScan 0 0 0 0 [])).
    { rewrite !app_assoc. replace 12 with (len ((ascii_bytes "RIFF" ++ size) ++ ascii_bytes "WAVE")).
      2: { rewrite !len_app, Hs. reflexivity. }
      apply wav_loop_chunks.
      - subst cs. constructor; [|apply Forall_app; split; [done|repeat constructor]]; try done; cbn [fst snd]; [|lia].
        split; [done|]. unfold fmt_data. cbn [snd]. rewrite !len_app, !len_le_bytes. lia.
      - rewrite !length_app. assert (length cs <= length body)%nat; [|lia]. subst body. clear.
        induction cs as [|c cs IH]; [done|]. cbn [map concat length]. unfold wav_chunk at 1.
        rewrite !length_app, length_le_bytes. lia. }
    rewrite Hloop. subst cs. cbn [read_wav_chunks fst snd]. rewrite read_fmt by done. cbn [result_bind].
    rewrite read_wav_chunks_app, read_extra by done. cbn [result_bind read_wav_chunks fst snd dataChunk].
    unfold read_wav_chunk. change (bytes_eqb (ascii_bytes "data") (ascii_bytes "fmt ")) with false.
    change (bytes_eqb (ascii_bytes "data") (ascii_bytes "data")) with true. cbn [result_bind].
    unfold wav_result. cbn [audioFormat bitsPerSample wav_channels wav_sampleRateHz dataChunk Z.eqb Pos.eqb negb].
    assert ((channels <=? 0) || (rate <=? 0) = false) as -> by lia.
    by assert ((len pcm =? 0) = false) as -> by lia.
  - unfold decodeWAVPCM16. split_if; bool_prop; [done|]. apply no_panic_bind; [apply no_panic_slice; lia|]. intros riff _.
    split_if; [done|]. apply no_panic_bind; [apply no_panic_slice; lia|]. intros wave _. split_if; [done|].
    apply no_panic_bind; [by apply no_panic_wav_loop|]. intros w _. unfold wav_result. by repeat split_if.
Qed.

Lemma wav_round_trip_witness :
  let pcm := repeat Byte.x2a 6 in
  let extra := [(ascii_bytes "LIST", ascii_bytes "abc")] in
  decodeWAVPCM16 (wav_file 24000 1 [] extra pcm) = Ok (pcm, 24000, 1) /\ no_panic (decodeWAVPCM16 pcm).
Proof.
  cbv zeta.
  refine (wav_round_trip 24000 1 [] [(ascii_bytes "LIST", ascii_bytes "abc")]
    (repeat Byte.x2a 6) (repeat Byte.x2a 6) _ _ _ _ _).
  1-4: rewrite ?len_nil; change (len (repeat Byte.x2a 6)) with 6; lia.
  constructor; [|constructor]. split; [split; by vm_compute | split; by vm_compute].
Defined.

(** ** Laws of the Opus header *)

Definition config_row_ok (config : Z) : bool :=
  match opusConfigurationInfo config with
  | Ok (mode, rate, ns) =>
      (0 <? rate) && (rate <=? 48000) && (2500000 <=? ns) && (ns <=? 60000000) &&
      (rate * ns mod 1000000000 =? 0) &&
      match mode with opusConfigurationModeSilkOnly => config <=? 11 | _ => 12 <=? config end
  | Err _ => false
  end.

Lemma config_table config : 0 <= config < 32 -> config_row_ok config = true.
Proof.
  intros H. assert (Hall : forallb config_row_ok (seqZ 0 32) = true) by (vm_compute; reflexivity).
  rewrite forallb_forall in Hall. apply Hall, list_elem_of_In, elem_of_seqZ. lia.
Qed.

Lemma frame_count_range payload code n : opusFrameCount payload code = Ok n -> 1 <= n <= 63.
Proof.
  unfold opusFrameCount. repeat split_if; bool_prop; try done; try (intros [= <-]; lia).
  destruct (indexed payload 1) as [b|e]; cbn [result_bind]; [|done]. split_if; bool_prop; [done|].
  intros [= <-]. pose proof (Z.land_nonneg (byte_val b) 63) as Hn. pose proof (Z.land_ones (byte_val b) 6 ltac:(lia)) as Hl.
  change (Z.ones 6) with 63 in Hl. rewrite Hl in *. pose proof (Z.mod_pos_bound (byte_val b) (2 ^ 6)). lia.
Qed.

Lemma no_panic_indexed {A} (l : list A) i : 0 <= i < len l -> no_panic (indexed l i).
Proof.
  intros H. unfold indexed. assert ((i <? 0) = false) as -> by lia.
  destruct (l !! Z.to_nat i) eqn:E; [done|]. apply lookup_ge_None in E. unfold len in H. lia.
Qed.

Lemma toc_config b : 0 <= Z.shiftr (byte_val b) 3 < 32.
Proof.
  pose proof (byte_val_range b). rewrite Z.shiftr_div_pow2 by lia. split; [apply Z.div_pos; lia|].
  apply Z.div_lt_upper_bound; lia.
Qed.

(** What the parser answers. *)
Lemma opus_header payload :
  no_panic (parseOpusPacketInfo payload) /\
  forall info, parseOpusPacketInfo payload = Ok info ->
  exists toc rest ns, payload = toc :: rest /\
  0 < ns * FrameCount info <= 120000000 /\ 1 <= FrameCount info <= 48 /\
  1000000000 * SampleCount info = opus_SampleRateHz info * (ns * FrameCount info) /\
  0 < SampleCount info <= 5760 /\ (opus_Channels info = 1 \/ opus_Channels info = 2) /\
  (opus_Mode info = opusConfigurationModeSilkOnly <-> Z.shiftr (byte_val toc) 3 <= 11).
Proof.
  unfold parseOpusPacketInfo. destruct payload as [|toc rest]; [by split|].
  change (indexed (toc :: rest) 0) with (Ok (E := go_error) toc). pose proof (len_nonneg rest).
  assert ((len (toc :: rest) =? 0) = false) as -> by (rewrite len_cons; lia). cbn [result_bind]. cbv zeta.
  pose proof (config_table _ (toc_config toc)) as Hrow. unfold config_row_ok in Hrow.
  destruct (opusConfigurationInfo _) as [[[mode rate] ns]|e]; [|done]. cbn [result_bind].
  apply andb_true_iff in Hrow as [Hrow Hmode]. bool_prop.
  split.
  - apply no_panic_bind; [|intros n _; by repeat split_if].
    unfold opusFrameCount. repeat split_if; bool_prop; try done.
    apply no_panic_bind; [apply no_panic_indexed; lia | intros b _; by split_if].
  - intros info. destruct (opusFrameCount _ _) as [n|e] eqn:En; cbn [result_bind]; [|done].
    apply frame_count_range in En. rewrite (i64_id (ns * n)) by (i64_lia || (unfold in_i64, min_int64, max_int64, two63; nia)).
    assert (Hk : exists k, rate * ns = 1000000000 * k) by (exists (rate * ns / 1000000000); pose proof (Z.div_mod (rate * ns) 1000000000); lia).
    destruct Hk as [k Hk].
    destruct (120000000 <? ns * n) eqn:E1; bool_prop; [done|].
    assert (Hrn : 0 <= rate * ns * n <= 48000 * 120000000) by nia.
    rewrite (i64_id (rate * ns)) by (unfold in_i64, min_int64, max_int64, two63; nia).
    rewrite (i64_id (rate * ns * n)) by (unfold in_i64, min_int64, max_int64, two63; lia).
    rewrite idiv_floor by (unfold max_int64, two63; lia).
    assert (Hq : rate * ns * n / 1000000000 = k * n).
    { rewrite Hk. replace (1000000000 * k * n) with (k * n * 1000000000) by lia. by apply Z.div_mul. }
    rewrite Hq. destruct (k * n <=? 0) eqn:E2; bool_prop; [done|]. intros [= <-].
    cbn [FrameCount SampleCount opus_SampleRateHz opus_Channels opus_Mode].
    exists toc, rest, ns. repeat split; try nia; try (split_if; auto).
    + intros ->. bool_prop. lia.
    + destruct mode; bool_prop; [done|lia|lia].
Qed.

(** An accepted Opus packet lasts at most 120 ms, its sample count is exactly
    its sample rate times its duration (the integer division loses nothing and
    no product overflows), and lies between 1 and 5760; the mode is SILK exactly
    for the configurations the decoder supports; and no packet, however short,
    makes the parser index out of range. *)
Theorem opus_header_spec payload :
  no_panic (parseOpusPacketInfo payload) /\
  forall info, parseOpusPacketInfo payload = Ok info ->
  exists toc rest ns, payload = toc :: rest /\
  0 < ns * FrameCount info <= 120000000 /\ 1 <= FrameCount info <= 48 /\
  1000000000 * SampleCount info = opus_SampleRateHz info * (ns * FrameCount info) /\
  0 < SampleCount info <= 5760 /\ (opus_Channels info = 1 \/ opus_Channels info = 2) /\
  (opus_Mode info = opusConfigurationModeSilkOnly <-> Z.shiftr (byte_val toc) 3 <= 11).
Proof. apply opus_header. Qed.
