(* ===== verification/PlaybackAck.v ===== *)
(** * What the client acknowledges (internal/gateway/voice_collaboration.go,
      realtime_ws.go)

    The gateway announces each segment of an answer with the text and duration
    that precede it, keeps the announced segments, and turns the client's acks
    (started, mark, cleared, completed) into facts for the orchestrator. *)

From S2P Require Import Prelude GoText GoFloat Contracts BargeIn Playback Memory Orchestrator.

(** ** Announcements *)

Record audioPlaybackMeta := mkMeta {
  meta_ResponseID : text;
  meta_PlaybackID : text;
  meta_SegmentID : text;
  meta_Text : text;
  meta_ExpectedDuration : duration;
  meta_IsLastSegment : bool;
  SegmentIndex : Z;
  TextBefore : text;
  TextAfter : text;
  DurationBefore : duration;
  DurationAfter : duration
}.

Definition zero_meta : audioPlaybackMeta := mkMeta [] [] [] [] 0 false 0 [] [] 0 0.

(** [%04d] of a non-negative number. *)
Definition pad4 (n : Z) : text := repeat 48 (4 - length (Itoa n)) ++ Itoa n.

Definition audioPlaybackSegmentID (responseID : text) (segmentIndex : Z) : text :=
  let segmentIndex := if segmentIndex <=? 0 then 1 else segmentIndex in
  txt "segment_" ++ responseID ++ txt "_" ++ pad4 segmentIndex.

Definition newAudioPlaybackMeta (now : instant) (responseID s : text) (expectedDuration : duration) : audioPlaybackMeta :=
  let responseID := TrimSpace responseID in
  let responseID := if responseID == "" then txt "resp_" ++ Itoa (UnixNano now) else responseID in
  let trimmedText := TrimSpace s in
  mkMeta responseID (txt "playback_" ++ responseID) (audioPlaybackSegmentID responseID 1) trimmedText
    expectedDuration true 1 [] trimmedText 0 expectedDuration.

Definition nextSegmentAudioPlaybackMeta (base : audioPlaybackMeta) (segmentText : text)
    (expectedDuration : duration) (isLast : bool) : audioPlaybackMeta :=
  let segmentText := TrimSpace segmentText in
  let index := i64 (SegmentIndex base + 1) in
  let index := if index <=? 0 then 1 else index in
  let textBefore := TextAfter base in
  let durationBefore := DurationAfter base in
  mkMeta (meta_ResponseID base) (meta_PlaybackID base) (audioPlaybackSegmentID (meta_ResponseID base) index)
    segmentText expectedDuration isLast index textBefore (TrimSpace (textBefore ++ segmentText))
    durationBefore (i64 (durationBefore + expectedDuration)).

(** ** The heard part of a segment *)

Definition audioDurationMs (d : duration) : Z := if d <=? 0 then 0 else Milliseconds d.

Definition clampPlaybackMarkDuration (value maxValue : duration) : duration :=
  if value <? 0 then 0 else if (0 <? maxValue) && (maxValue <? value) then maxValue else value.

(** The gateway's own copy of [heardTextForPlayback]. *)
Definition voiceHeardTextForPlayback (s : text) (playedDuration plannedDuration : duration) : text :=
  let runes := TrimSpace s in
  if (runes == "") || (playedDuration <=? 0) then []
  else
    let clip (count : Z) :=
      let count := if count <=? 0 then 1 else count in
      let count := if len runes <? count then len runes else count in
      take (Z.to_nat count) runes in
    if 0 <? plannedDuration then
      let ratio := f_div (f_of_Z playedDuration) (f_of_Z plannedDuration) in
      if f_leb f_one ratio then runes
      else clip (f_ceil_int (f_mul (f_of_Z (len runes)) ratio))
    else clip (idiv playedDuration (110 * Millisecond)).

Definition heardTextForPlaybackSegment (meta : audioPlaybackMeta) (localPlayed : duration) : text :=
  let local := TrimSpace (meta_Text meta) in
  if local == "" then TrimSpace (TextBefore meta)
  else TrimSpace (TrimSpace (TextBefore meta)
                  ++ voiceHeardTextForPlayback local localPlayed (meta_ExpectedDuration meta)).

(** ** The ack state *)

Inductive playbackAckTerminal :=
| playbackAckTerminalNone | playbackAckTerminalCleared | playbackAckTerminalCompleted.

#[export] Instance terminal_eq_dec : EqDecision playbackAckTerminal.
Proof. solve_decision. Defined.

(** [waitCh]: nil, open or closed; [panicked] records the close of a closed
    channel, a run-time panic. *)
Inductive wait_channel := ChanNil | ChanOpen | ChanClosed.

Record playbackAckState := mkAckState {
  ack_meta : audioPlaybackMeta;
  segments : gmap text audioPlaybackMeta;
  startedAt : instant;
  lastMarkMs : Z;
  clearedAt : instant;
  clearedReason : text;
  completedAt : instant;
  completed : bool;
  terminal : playbackAckTerminal;
  waitCh : wait_channel;
  panicked : bool
}.

#[export] Instance AckState_rebuild : Rebuild playbackAckState := fun a =>
  mkAckState (ack_meta a) (segments a) (startedAt a) (lastMarkMs a) (clearedAt a) (clearedReason a)
    (completedAt a) (completed a) (terminal a) (waitCh a) (panicked a).

Definition zero_ack_state : playbackAckState :=
  mkAckState zero_meta ∅ time_zero 0 time_zero [] time_zero false playbackAckTerminalNone ChanNil false.

Definition installPlaybackAckMeta (meta : audioPlaybackMeta) (a : playbackAckState) : playbackAckState :=
  mkAckState (mkMeta (meta_ResponseID meta) (meta_PlaybackID meta) [] [] 0 false 0 [] [] 0 0)
    ∅ time_zero 0 time_zero [] time_zero false playbackAckTerminalNone ChanOpen (panicked a).

Definition clearPlaybackAckState (a : playbackAckState) : playbackAckState :=
  mkAckState zero_meta ∅ time_zero 0 time_zero [] time_zero false playbackAckTerminalNone ChanNil (panicked a).

Definition playbackAckMetaForSegmentLocked (a : playbackAckState) (segmentID : text) : audioPlaybackMeta :=
  let trimmed := TrimSpace segmentID in
  if trimmed == "" then ack_meta a
  else match segments a !! trimmed with Some meta => meta | None => ack_meta a end.

Definition activatePlaybackAckSegment (meta : audioPlaybackMeta) (a : playbackAckState) : playbackAckState :=
  let a := if TrimSpace (meta_SegmentID meta) != ""
           then a <|segments := <[meta_SegmentID meta := meta]> (segments a)|> else a in
  a <|ack_meta := meta|>.

Definition finishLocked (t : playbackAckTerminal) (a : playbackAckState) : playbackAckState :=
  if negb (bool_decide (terminal a = playbackAckTerminalNone)) then a
  else
    let a := a <|terminal := t|> in
    match waitCh a with
    | ChanNil => a
    | ChanOpen => a <|waitCh := ChanClosed|>
    | ChanClosed => a <|panicked := true|>
    end.

Definition start_clock (now : instant) (a : playbackAckState) : playbackAckState :=
  if IsZero (startedAt a) then a <|startedAt := now|> else a.

Definition advance_mark (ms : Z) (a : playbackAckState) : playbackAckState :=
  if lastMarkMs a <? ms then a <|lastMarkMs := ms|> else a.

Definition recordPlaybackStarted (now : instant) (a : playbackAckState) : playbackAckState * audioPlaybackMeta :=
  let a := start_clock now a in (a, ack_meta a).

Definition recordPlaybackMark (now : instant) (segmentID : text) (playedDurationMs : Z) (a : playbackAckState)
    : playbackAckState * (audioPlaybackMeta * duration * text) :=
  let meta := playbackAckMetaForSegmentLocked a segmentID in
  let localPlayed := clampPlaybackMarkDuration (i64 (maxInt playedDurationMs 0 * Millisecond)) (meta_ExpectedDuration meta) in
  let totalPlayed := i64 (DurationBefore meta + localPlayed) in
  let a := start_clock now (advance_mark (audioDurationMs totalPlayed) a) in
  (a, (meta, totalPlayed, heardTextForPlaybackSegment meta localPlayed)).

Definition recordPlaybackCleared (now : instant) (segmentID reason : text) (a : playbackAckState)
    : playbackAckState * (audioPlaybackMeta * duration * text) :=
  let meta := playbackAckMetaForSegmentLocked a segmentID in
  let a := advance_mark (audioDurationMs (DurationAfter meta)) a in
  let a := a <|clearedAt := now|> in
  let a := a <|clearedReason := TrimSpace reason|> in
  let a := finishLocked playbackAckTerminalCleared a in
  (a, (meta, DurationAfter meta, TrimSpace (TextAfter meta))).

Definition recordPlaybackCompleted (now : instant) (a : playbackAckState) : playbackAckState * audioPlaybackMeta :=
  let a := a <|completedAt := now|> in
  let a := a <|completed := true|> in
  let a := finishLocked playbackAckTerminalCompleted a in
  (a, ack_meta a).

(** [waitForPlaybackAckTerminal] answers what is decided when it wakes up; the
    wait itself is the caller's schedule. *)
Definition waitForPlaybackAckTerminal (a : playbackAckState) : playbackAckTerminal * text * bool :=
  if negb (bool_decide (terminal a = playbackAckTerminalNone)) then (terminal a, clearedReason a, true)
  else (playbackAckTerminalNone, [], false).

Definition playbackAckTerminalWaitTimeout (meta : audioPlaybackMeta) : duration :=
  if 1500 * Millisecond <=? meta_ExpectedDuration meta then 1200 * Millisecond
  else if 600 * Millisecond <=? meta_ExpectedDuration meta then 900 * Millisecond
  else 600 * Millisecond.

Definition validatePlaybackAckIdentity (meta : audioPlaybackMeta) (responseID playbackID : text) : bool :=
  if (TrimSpace responseID == "") || (TrimSpace playbackID == "") then false
  else if (meta_ResponseID meta == "") || (meta_PlaybackID meta == "") then false
  else (meta_ResponseID meta == responseID) && (meta_PlaybackID meta == playbackID).

(** ** The client's acks reach the orchestrator *)

Section Handlers.
Context {S P : Type} `{!MemoryStore S} `{!PreviewSession P}.

(** What the handlers use of a connection: its ack state, the voice session,
    the id of the running session ([[]] when idle), whether it is speaking, and
    whether playback acks were negotiated. *)
Record connection := mkConnection {
  conn_ack : playbackAckState;
  voiceSession : SessionOrchestrator S P;
  conn_SessionID : text;
  conn_speaking : bool;
  PlaybackAckEnabled : bool
}.

Definition set_ack (a : playbackAckState) (c : connection) : connection :=
  mkConnection a (voiceSession c) (conn_SessionID c) (conn_speaking c) (PlaybackAckEnabled c).
Definition set_voice (o : SessionOrchestrator S P) (c : connection) : connection :=
  mkConnection (conn_ack c) o (conn_SessionID c) (conn_speaking c) (PlaybackAckEnabled c).

Definition syncAnnouncedPlaybackContext (c : connection) : connection :=
  let meta := ack_meta (conn_ack c) in
  let delivered := TrimSpace (TextAfter meta) in
  let delivered := if delivered == "" then TrimSpace (meta_Text meta) else delivered in
  let planned := DurationAfter meta in
  let planned := if planned <=? 0 then meta_ExpectedDuration meta else planned in
  if (delivered == "") && (planned <=? 0) then c
  else set_voice (UpdatePlayback delivered planned (voiceSession c)) c.

(** [written]: whether the event reached the peer; the answer is whether the
    caller goes on. *)
Definition emitAudioOutMeta (written : bool) (meta : audioPlaybackMeta) (c : connection) : connection * bool :=
  let c := set_ack (activatePlaybackAckSegment meta (conn_ack c)) c in
  if negb (PlaybackAckEnabled c) then (syncAnnouncedPlaybackContext c, true)
  else if negb written then (c, false)
  else (syncAnnouncedPlaybackContext c, true).

(** The guards the four handlers share. *)
Definition ack_accepted (responseID playbackID : text) (c : connection) : bool :=
  negb ((conn_SessionID c == "") || negb (PlaybackAckEnabled c))
  && validatePlaybackAckIdentity (ack_meta (conn_ack c)) (TrimSpace responseID) (TrimSpace playbackID).

Definition observe_mark (totalPlayed : duration) (heard : text) (c : connection) : connection :=
  if TrimSpace heard != "" then set_voice (ObservePlaybackMarkTextFact totalPlayed heard (voiceSession c)) c
  else if 0 <? totalPlayed then set_voice (ObservePlaybackMarkFact totalPlayed (voiceSession c)) c
  else c.

Definition recordPlaybackAckStarted (now : instant) (responseID playbackID : text) (c : connection) : connection :=
  if negb (ack_accepted responseID playbackID c) then c
  else
    let c := set_ack (recordPlaybackStarted now (conn_ack c)).1 c in
    let c := syncAnnouncedPlaybackContext c in
    set_voice (ObservePlaybackStartedFact (voiceSession c)) c.

Definition recordPlaybackAckMark (now : instant) (responseID playbackID segmentID : text) (playedDurationMs : Z)
    (c : connection) : connection :=
  if negb (ack_accepted responseID playbackID c) then c
  else
    let c := syncAnnouncedPlaybackContext c in
    let '(a, (_, totalPlayed, heard)) := recordPlaybackMark now (TrimSpace segmentID) playedDurationMs (conn_ack c) in
    observe_mark totalPlayed heard (set_ack a c).

(** The answer is the reason of the interruption that follows, when the session
    is still speaking. *)
Definition recordPlaybackAckCleared (now : instant) (responseID playbackID segmentID reason : text)
    (c : connection) : connection * option text :=
  if negb (ack_accepted responseID playbackID c) then (c, None)
  else
    let c := syncAnnouncedPlaybackContext c in
    let '(a, (_, totalPlayed, heard)) := recordPlaybackCleared now (TrimSpace segmentID) reason (conn_ack c) in
    let c := observe_mark totalPlayed heard (set_ack a c) in
    (c, if conn_speaking c then Some (firstNonEmpty [TrimSpace reason; txt "client_playback_cleared"]) else None).

Definition recordPlaybackAckCompleted (now : instant) (responseID playbackID : text) (c : connection) : connection :=
  if negb (ack_accepted responseID playbackID c) then c
  else
    let c := syncAnnouncedPlaybackContext c in
    let c := set_ack (recordPlaybackCompleted now (conn_ack c)).1 c in
    set_voice (ObservePlaybackCompletedFact (voiceSession c)) c.
End Handlers.
Arguments connection S P : clear implicits.

(** ** Segment identifiers *)

Lemma pad4_inj n m : 0 <= n -> 0 <= m -> pad4 n = pad4 m -> n = m.
Proof.
  intros Hn Hm E. apply (f_equal digits_number) in E. unfold pad4 in E.
  by rewrite !digits_number_zeros, !Itoa_value in E.
Qed.

Lemma segment_id_inj responseID n m :
  1 <= n -> 1 <= m -> audioPlaybackSegmentID responseID n = audioPlaybackSegmentID responseID m -> n = m.
Proof.
  intros Hn Hm. unfold audioPlaybackSegmentID. assert ((n <=? 0) = false) as -> by lia.
  assert ((m <=? 0) = false) as -> by lia. intros E. do 3 apply app_inv_head in E. apply pad4_inj; lia || done.
Qed.

(** ** Texts laid end to end *)

Lemma trimmed_ends a r b q : IsSpace a = false -> IsSpace r = false -> a :: b = q ++ [r] -> trimmed (a :: b).
Proof.
  intros Ha Hr E. unfold trimmed, TrimSpace, TrimFunc. rewrite TrimLeftFunc_id by done. rewrite E.
  unfold TrimRightFunc. rewrite reverse_snoc, TrimLeftFunc_id by done.
  by rewrite reverse_cons, reverse_involutive.
Qed.

Lemma trimmed_app a b : trimmed a -> trimmed b -> trimmed (a ++ b).
Proof.
  intros Ha Hb. destruct a as [|r a]; [done|]. destruct b as [|s b]; [by rewrite app_nil_r|].
  destruct (exists_last (l := s :: b)) as (q & z & Hq); [done|]. rewrite Hq in *.
  change ((r :: a) ++ q ++ [z]) with (r :: (a ++ q ++ [z])).
  eapply (trimmed_ends r z _ ((r :: a) ++ q)).
  - by apply trimmed_head in Ha.
  - by apply trimmed_last in Hb.
  - by rewrite app_comm_cons, app_assoc.
Qed.

(** Trimming after a trimmed text only looks at what follows it. *)
Lemma TrimSpace_after a b : trimmed a -> a <> [] -> a `prefix_of` TrimSpace (a ++ b).
Proof.
  intros Ha Hn. destruct a as [|r a]; [done|].
  unfold TrimSpace, TrimFunc. cbn [app]. rewrite TrimLeftFunc_id by (by apply trimmed_head in Ha).
  destruct (exists_last Hn) as (q & z & Hq). change (r :: a ++ b) with ((r :: a) ++ b). rewrite Hq.
  rewrite Hq in Ha. apply trimmed_last in Ha. unfold TrimRightFunc.
  rewrite !reverse_app. change (reverse [z]) with [z].
  destruct (TrimLeftFunc_suffix IsSpace (reverse b)) as [l [Hl Hs]].
  assert (HT : TrimLeftFunc IsSpace (reverse b ++ [z] ++ reverse q) = TrimLeftFunc IsSpace (reverse b) ++ [z] ++ reverse q).
  { clear - Ha. induction (reverse b) as [|x xs IH]; cbn [app TrimLeftFunc]; [by rewrite Ha|].
    destruct (IsSpace x); [exact IH | done]. }
  rewrite HT, reverse_app. rewrite reverse_app, reverse_involutive.
  by apply prefix_app_r.
Qed.

(** ** Announcing the segments of an answer *)

Record segment_in := mkSegment { seg_text : text; seg_duration : duration; seg_last : bool }.

(** The cursor of the player, moved over every segment. *)
Fixpoint announce (cursor : audioPlaybackMeta) (segs : list segment_in) : list audioPlaybackMeta :=
  match segs with
  | [] => []
  | s :: segs =>
      let cursor := nextSegmentAudioPlaybackMeta cursor (seg_text s) (seg_duration s) (seg_last s) in
      cursor :: announce cursor segs
  end.

(** The cursor before the first segment. *)
Definition initial_cursor (meta : audioPlaybackMeta) : audioPlaybackMeta :=
  mkMeta (meta_ResponseID meta) (meta_PlaybackID meta) [] [] 0 false 0 [] [] 0 0.

(** What holds of every announced segment. *)
Record meta_wf (m : audioPlaybackMeta) : Prop := {
  wf_before : trimmed (TextBefore m);
  wf_text : trimmed (meta_Text m);
  wf_after : TextAfter m = TextBefore m ++ meta_Text m;
  wf_duration : DurationAfter m = i64 (DurationBefore m + meta_ExpectedDuration m)
}.

Lemma wf_after_trimmed m : meta_wf m -> trimmed (TextAfter m).
Proof. intros [H1 H2 H3 _]. rewrite H3. by apply trimmed_app. Qed.

Lemma next_meta_wf base s d l :
  trimmed (TextAfter base) -> meta_wf (nextSegmentAudioPlaybackMeta base s d l).
Proof.
  intros Hb. unfold nextSegmentAudioPlaybackMeta. cbv zeta. split; cbn [TextBefore meta_Text TextAfter DurationAfter DurationBefore meta_ExpectedDuration].
  - done.
  - apply trimmed_TrimSpace.
  - by apply trimmed_app; [|apply trimmed_TrimSpace].
  - done.
Qed.

Lemma announce_spec cursor segs :
  trimmed (TextAfter cursor) -> 0 <= SegmentIndex cursor -> SegmentIndex cursor + len segs <= max_int64 ->
  Forall meta_wf (announce cursor segs) /\
  map SegmentIndex (announce cursor segs) = seqZ (SegmentIndex cursor + 1) (len segs) /\
  map meta_Text (announce cursor segs) = map (fun s => TrimSpace (seg_text s)) segs /\
  Forall (fun m => meta_ResponseID m = meta_ResponseID cursor /\ meta_PlaybackID m = meta_PlaybackID cursor /\
                   meta_SegmentID m = audioPlaybackSegmentID (meta_ResponseID cursor) (SegmentIndex m))
    (announce cursor segs) /\
  (forall k m, announce cursor segs !! k = Some m ->
     TextAfter m = TextAfter cursor ++ concat (map (fun s => TrimSpace (seg_text s)) (take (S k) segs))).
Proof.
  revert cursor. induction segs as [|s segs IH]; intros cursor Ht Hi Hmax; cbn [announce map].
  { repeat split; try constructor. intros k m Hk. by rewrite lookup_nil in Hk. }
  cbv zeta. set (c := nextSegmentAudioPlaybackMeta cursor (seg_text s) (seg_duration s) (seg_last s)).
  rewrite len_cons in *. pose proof (len_nonneg segs).
  assert (Hc : meta_wf c) by (by apply next_meta_wf).
  assert (Hidx : SegmentIndex c = SegmentIndex cursor + 1).
  { subst c. cbn. rewrite i64_id by i64_lia. split_if; bool_prop; lia. }
  assert (Ha : TextAfter c = TextAfter cursor ++ TrimSpace (seg_text s)) by apply (wf_after _ Hc).
  assert (Hids : meta_ResponseID c = meta_ResponseID cursor /\ meta_PlaybackID c = meta_PlaybackID cursor /\
                 meta_SegmentID c = audioPlaybackSegmentID (meta_ResponseID cursor) (SegmentIndex c)) by done.
  assert (Htc : trimmed (TextAfter c)) by (by apply wf_after_trimmed).
  assert (Htext : meta_Text c = TrimSpace (seg_text s)) by done.
  destruct (IH c Htc ltac:(lia) ltac:(lia)) as (I1 & I2 & I3 & I4 & I5). clearbody c.
  destruct Hids as (R1 & R2 & R3). split; [by constructor|]. split; [|split; [|split]].
  - rewrite I2, Hidx. rewrite (seqZ_cons _ (1 + len segs)) by lia. f_equal. f_equal; lia.
  - by rewrite I3, Htext.
  - constructor; [by rewrite R1, R2, R3|]. rewrite R1, R2 in I4. exact I4.
  - intros [|k] m Hk; cbn [lookup list_lookup] in Hk.
    + injection Hk as <-. rewrite Ha. cbn [take map concat]. by rewrite app_nil_r.
    + rewrite (I5 k m Hk), Ha. cbn [take map concat]. by rewrite app_assoc.
Qed.

(** ** The heard part of a segment *)

#[global] Arguments voiceHeardTextForPlayback _ _ _ : simpl never.

Lemma voice_heard_prefix s played planned : voiceHeardTextForPlayback s played planned `prefix_of` TrimSpace s.
Proof.
  unfold voiceHeardTextForPlayback. cbv zeta.
  repeat (split_if; [first [apply prefix_nil | reflexivity | apply take_prefix_of]|]);
    repeat split_if; first [apply prefix_nil | reflexivity | apply take_prefix_of].
Qed.

(** The heard text of a segment lies between the text before and after it. *)
Lemma segment_heard_between m local :
  meta_wf m ->
  TextBefore m `prefix_of` heardTextForPlaybackSegment m local /\
  heardTextForPlaybackSegment m local `prefix_of` TextAfter m.
Proof.
  intros Hm. pose proof (wf_after_trimmed _ Hm) as Ht. destruct Hm as [H1 H2 H3 _].
  unfold heardTextForPlaybackSegment. cbv zeta. rewrite H1, H2, H3.
  destruct (meta_Text m == "") eqn:E; text_prop; [split; [done | by exists (meta_Text m)]|].
  set (h := voiceHeardTextForPlayback _ _ _).
  assert (Hh : h `prefix_of` TrimSpace (meta_Text m)) by apply voice_heard_prefix.
  rewrite H2 in Hh.
  split.
  - destruct (decide (TextBefore m = [])) as [->|Hn]; [apply prefix_nil|]. by apply TrimSpace_after.
  - rewrite H3 in Ht. apply TrimSpace_prefix_of with (s := TextBefore m ++ meta_Text m) (p := TextBefore m ++ h) in Ht.
    + exact Ht.
    + by apply prefix_app.
Qed.

Lemma digits_go_last fuel n acc : exists ys, digits_go (S fuel) n acc = ys ++ (48 + n mod 10) :: acc.
Proof.
  revert n acc. induction fuel as [|fuel IH]; intros n acc.
  - cbn. destruct (n <? 10); by exists [].
  - cbn [digits_go]. destruct (n <? 10); [by exists []|].
    destruct (IH (n / 10) ((48 + n mod 10) :: acc)) as [ys H]. cbn [digits_go] in H. rewrite H.
    exists (ys ++ [48 + n / 10 mod 10]). by rewrite <- app_assoc.
Qed.

Lemma segment_id_trimmed responseID n : 1 <= n -> trimmed (audioPlaybackSegmentID responseID n).
Proof.
  intros Hn. unfold audioPlaybackSegmentID. assert ((n <=? 0) = false) as -> by lia. unfold pad4, Itoa.
  assert ((n <? 0) = false) as -> by lia.
  destruct (digits_go_last (Z.to_nat (Z.log2 n)) n []) as [ys ->].
  set (zeros := repeat 48 _). clearbody zeros.
  eapply (trimmed_ends 115 (48 + n mod 10) _
    (txt "segment_" ++ responseID ++ txt "_" ++ zeros ++ ys)).
  - reflexivity.
  - pose proof (Z.mod_pos_bound n 10 ltac:(lia)).
    assert (Hall : forallb (fun d => negb (IsSpace (48 + d))) (seqZ 0 10) = true) by (vm_compute; reflexivity).
    rewrite forallb_forall in Hall. specialize (Hall (n mod 10)). apply negb_true_iff, Hall.
    apply list_elem_of_In, elem_of_seqZ. lia.
  - by rewrite <- !app_assoc.
Qed.

(** Segments as they are activated one after the other. *)
Definition activate_all (ms : list audioPlaybackMeta) (a : playbackAckState) : playbackAckState :=
  fold_left (fun a m => activatePlaybackAckSegment m a) ms a.

Lemma activate_fields m a :
  ack_meta (activatePlaybackAckSegment m a) = m /\
  (TrimSpace (meta_SegmentID m) <> [] -> segments (activatePlaybackAckSegment m a) = <[meta_SegmentID m := m]> (segments a)).
Proof.
  unfold activatePlaybackAckSegment. destruct (TrimSpace (meta_SegmentID m) == "") eqn:E; cbn [negb]; text_prop;
    split; read_fields; done.
Qed.

Lemma activate_all_lookup ms a k m :
  NoDup (map meta_SegmentID ms) -> Forall (fun m => TrimSpace (meta_SegmentID m) <> []) ms ->
  ms !! k = Some m -> segments (activate_all ms a) !! meta_SegmentID m = Some m.
Proof.
  revert a k. induction ms as [|x ms IH]; intros a k Hd Hall Hk; [by rewrite lookup_nil in Hk|].
  cbn [map] in Hd. apply NoDup_cons in Hd as [Hx Hd]. apply Forall_cons_1 in Hall as [Hxn Hall].
  unfold activate_all. cbn [fold_left]. fold (activate_all ms (activatePlaybackAckSegment x a)).
  destruct k as [|k]; [|by eapply IH]. cbn in Hk. injection Hk as ->.
  assert (Hkeep : forall a, segments a !! meta_SegmentID m = Some m -> segments (activate_all ms a) !! meta_SegmentID m = Some m).
  { clear IH Hd a. induction ms as [|y ms IH]; intros a Ha; [done|]. cbn [map] in Hx. apply not_elem_of_cons in Hx as [Hne Hx].
    apply Forall_cons_1 in Hall as [Hy Hall]. apply IH; [done|done|].
    destruct (activate_fields y a) as [_ ->]; [|done]. by rewrite lookup_insert_ne. }
  apply Hkeep. destruct (activate_fields m a) as [_ ->]; [|done]. by rewrite lookup_insert_eq.
Qed.

Lemma activate_all_meta ms m a : ack_meta (activate_all (ms ++ [m]) a) = m.
Proof. unfold activate_all. rewrite fold_left_app. cbn [fold_left]. apply activate_fields. Qed.

(** ** Properties *)

(** Every fact about a run of announcements, shared by the theorems below. *)
Lemma announce_facts meta segs :
  len segs <= max_int64 ->
  let ms := announce (initial_cursor meta) segs in
  map SegmentIndex ms = seqZ 1 (len segs) /\ NoDup (map meta_SegmentID ms) /\
  Forall (fun m => meta_ResponseID m = meta_ResponseID meta /\ meta_PlaybackID m = meta_PlaybackID meta /\
                   TrimSpace (meta_SegmentID m) = meta_SegmentID m /\ meta_SegmentID m <> []) ms /\
  forall k m, ms !! k = Some m ->
    meta_wf m /\ TextAfter m = concat (map (fun s => TrimSpace (seg_text s)) (take (S k) segs)) /\
    TextBefore m = concat (map (fun s => TrimSpace (seg_text s)) (take k segs)).
Proof.
  intros Hmax. cbv zeta.
  destruct (announce_spec (initial_cursor meta) segs trimmed_nil ltac:(cbn; lia) ltac:(cbn; lia)) as (A1 & A2 & A3 & A4 & A5).
  cbn [initial_cursor SegmentIndex TextAfter meta_ResponseID meta_PlaybackID app] in A2, A4, A5. rewrite Z.add_0_l in A2.
  set (ms := announce (initial_cursor meta) segs) in *.
  assert (Hidx : Forall (fun m => 1 <= SegmentIndex m) ms).
  { apply Forall_forall. intros m Hm. apply (list_elem_of_fmap_2 SegmentIndex) in Hm. unfold fmap in Hm.
    change (list_fmap _ _ SegmentIndex ms) with (map SegmentIndex ms) in Hm. rewrite A2 in Hm. apply elem_of_seqZ in Hm. lia. }
  split; [done|]. split; [|split].
  - assert (Hnd : NoDup (map SegmentIndex ms)) by (rewrite A2; apply NoDup_seqZ).
    clear - Hnd A4 Hidx. induction ms as [|m ms IH]; [constructor|]. cbn [map] in *.
    apply NoDup_cons in Hnd as [Hn Hnd]. apply Forall_cons_1 in A4 as [(_ & _ & Hid) A4].
    apply Forall_cons_1 in Hidx as [Hm Hidx]. apply NoDup_cons. split; [|by apply IH].
    intros Hin. apply Hn. apply list_elem_of_In, in_map_iff in Hin as (m' & He & Hin).
    apply list_elem_of_In in Hin. rewrite Forall_forall in A4, Hidx.
    destruct (A4 m' Hin) as (_ & _ & Hid'). rewrite Hid, Hid' in He. apply segment_id_inj in He; [|by apply Hidx|done].
    rewrite <- He. apply list_elem_of_In, in_map. by apply list_elem_of_In.
  - rewrite Forall_forall in *. intros m Hm. destruct (A4 m Hm) as (R1 & R2 & R3).
    split; [done|]. split; [done|]. rewrite R3. split; [by apply segment_id_trimmed, Hidx|]. done.
  - intros k m Hk. assert (Hw : meta_wf m) by (rewrite Forall_forall in A1; eapply A1, list_elem_of_lookup_2, Hk).
    split; [done|]. rewrite (A5 k m Hk). split; [done|].
    pose proof (wf_after _ Hw) as Ha. rewrite (A5 k m Hk) in Ha.
    assert (Hlk : exists s, segs !! k = Some s /\ meta_Text m = TrimSpace (seg_text s)).
    { assert (E : (meta_Text <$> ms) !! k = ((fun s => TrimSpace (seg_text s)) <$> segs) !! k).
      { change (map meta_Text ms !! k = map (fun s => TrimSpace (seg_text s)) segs !! k). by rewrite A3. }
      rewrite !list_lookup_fmap, Hk in E. destruct (segs !! k) as [s|]; [|discriminate E].
      injection E as E. by exists s. }
    destruct Hlk as (s & Hs & Ht). rewrite (take_S_r segs k s Hs), map_app, concat_app, Ht in Ha. cbn [map concat] in Ha.
    rewrite app_nil_r in Ha. by apply app_inv_tail in Ha.
Qed.

(** The segments of an answer are announced without gaps: they are numbered
    1, 2, 3, ..., carry the answer's response and playback ids, have pairwise
    different segment ids that survive trimming, and the text before and after
    each is exactly the concatenation of the (trimmed) segments announced so far. *)
Theorem announced_segments meta segs :
  len segs <= max_int64 ->
  let ms := announce (initial_cursor meta) segs in
  map SegmentIndex ms = seqZ 1 (len segs) /\ NoDup (map meta_SegmentID ms) /\
  Forall (fun m => meta_ResponseID m = meta_ResponseID meta /\ meta_PlaybackID m = meta_PlaybackID meta /\
                   TrimSpace (meta_SegmentID m) = meta_SegmentID m /\ meta_SegmentID m <> []) ms /\
  forall k m, ms !! k = Some m ->
    meta_wf m /\ TextAfter m = concat (map (fun s => TrimSpace (seg_text s)) (take (S k) segs)) /\
    TextBefore m = concat (map (fun s => TrimSpace (seg_text s)) (take k segs)).
Proof. exact (announce_facts meta segs). Qed.

Lemma announced_segments_witness :
  let segs := [mkSegment "好的，" (300 * Millisecond) false; mkSegment "我来看一下。" Second true] in
  let ms := announce (initial_cursor (newAudioPlaybackMeta 0 "r1" "" 0)) segs in
  len segs <= max_int64 /\ map meta_SegmentID ms = texts ["segment_r1_0001"; "segment_r1_0002"] /\
  map SegmentIndex ms = seqZ 1 (len segs).
Proof.
  cbv zeta. split; [by vm_compute|]. split; [by vm_compute|].
  apply (announced_segments (newAudioPlaybackMeta 0 "r1" "" 0)
    [mkSegment "好的，" (300 * Millisecond) false; mkSegment "我来看一下。" Second true]). by vm_compute.
Defined.

(** ** The terminal ack *)

Inductive ack_op :=
| AckInstall (meta : audioPlaybackMeta) | AckClear | AckActivate (meta : audioPlaybackMeta)
| AckStarted | AckMark (segmentID : text) (playedDurationMs : Z)
| AckCleared (segmentID reason : text) | AckCompleted.

Definition ack_step (now : instant) (op : ack_op) (a : playbackAckState) : playbackAckState :=
  match op with
  | AckInstall meta => installPlaybackAckMeta meta a
  | AckClear => clearPlaybackAckState a
  | AckActivate meta => activatePlaybackAckSegment meta a
  | AckStarted => (recordPlaybackStarted now a).1
  | AckMark segmentID ms => (recordPlaybackMark now segmentID ms a).1
  | AckCleared segmentID reason => (recordPlaybackCleared now segmentID reason a).1
  | AckCompleted => (recordPlaybackCompleted now a).1
  end.

Definition ack_run (ops : list (instant * ack_op)) (a : playbackAckState) : playbackAckState :=
  fold_left (fun a p => ack_step p.1 p.2 a) ops a.

(** The channel of a playback is closed exactly when its outcome is decided. *)
Definition ack_inv (a : playbackAckState) : Prop :=
  panicked a = false /\
  (waitCh a = ChanClosed -> terminal a <> playbackAckTerminalNone) /\
  (waitCh a = ChanOpen -> terminal a = playbackAckTerminalNone).

Lemma finish_inv t a : t <> playbackAckTerminalNone -> ack_inv a -> ack_inv (finishLocked t a).
Proof.
  intros Ht (H1 & H2 & H3). unfold finishLocked.
  destruct (decide (terminal a = playbackAckTerminalNone)) as [E|E].
  - rewrite bool_decide_eq_true_2 by done. cbn [negb]. cbv zeta. unfold ack_inv.
    destruct (waitCh a) eqn:W; [| |by elim (H2 eq_refl)]; read_fields; rewrite ?W; read_fields; rewrite ?W, ?H1; done.
  - by rewrite bool_decide_eq_false_2.
Qed.

Lemma finish_first_wins t a : terminal a <> playbackAckTerminalNone -> finishLocked t a = a.
Proof. intros H. unfold finishLocked. by rewrite bool_decide_eq_false_2. Qed.

Definition resets (op : ack_op) : bool := match op with AckInstall _ | AckClear => true | _ => false end.

(** The fields the bookkeeping of marks does not touch. *)
Definition same_outcome (a b : playbackAckState) : Prop :=
  terminal a = terminal b /\ waitCh a = waitCh b /\ panicked a = panicked b.

Lemma same_outcome_inv a b : same_outcome a b -> ack_inv b -> ack_inv a.
Proof. unfold same_outcome, ack_inv. intros (-> & -> & ->). done. Qed.

Lemma bookkeeping_outcome now ms m a :
  same_outcome (start_clock now a) a /\ same_outcome (advance_mark ms a) a /\
  same_outcome (activatePlaybackAckSegment m a) a.
Proof.
  unfold same_outcome, start_clock, advance_mark, activatePlaybackAckSegment. cbv zeta.
  repeat split; split_if; by read_fields.
Qed.

Lemma same_outcome_trans a b c : same_outcome a b -> same_outcome b c -> same_outcome a c.
Proof. unfold same_outcome. intros (-> & -> & ->). done. Qed.

(** A step either resets the playback, decides it, or leaves its outcome. *)
Lemma step_outcome now op a :
  resets op = false ->
  exists b, same_outcome b a /\
  (same_outcome (ack_step now op a) b \/
   exists t, t <> playbackAckTerminalNone /\ ack_step now op a = finishLocked t b).
Proof.
  intros Hr. destruct (bookkeeping_outcome now 0 zero_meta a) as (B1 & _ & _).
  destruct op as [m| |m| |s ms|s r|]; try discriminate Hr; cbn [ack_step].
  - exists a. split; [done|]. left. exact (proj2 (proj2 (bookkeeping_outcome now 0 m a))).
  - exists a. split; [done|]. left. exact B1.
  - exists a. split; [done|]. left. unfold recordPlaybackMark. cbv zeta. cbn [fst].
    match goal with |- same_outcome (start_clock _ (advance_mark ?v _)) _ =>
      apply (same_outcome_trans _ (advance_mark v a));
        [exact (proj1 (bookkeeping_outcome now 0 zero_meta (advance_mark v a)))
        | exact (proj1 (proj2 (bookkeeping_outcome now v zero_meta a)))]
    end.
  - unfold recordPlaybackCleared. cbv zeta. cbn [fst].
    eexists. split; [|right; exists playbackAckTerminalCleared; split; [done|reflexivity]].
    destruct (bookkeeping_outcome now (audioDurationMs (DurationAfter (playbackAckMetaForSegmentLocked a s))) zero_meta a)
      as (_ & (T1 & T2 & T3) & _).
    unfold same_outcome. read_fields. done.
  - unfold recordPlaybackCompleted. cbv zeta. cbn [fst].
    eexists. split; [|right; exists playbackAckTerminalCompleted; split; [done|reflexivity]].
    unfold same_outcome. by read_fields.
Qed.

(** C34. The terminal ack of a playback. Whatever acks arrive in whatever order,
    repeated or late, the wait channel is never closed twice (no panic) and is
    closed exactly when the outcome is decided; and the first terminal ack
    wins: once [cleared] or [completed], the outcome stays the same until the
    next playback is installed or the state is cleared. *)
Theorem first_terminal_ack_wins ops now op :
  let a := ack_run ops zero_ack_state in
  ack_inv a /\
  (resets op = false -> terminal a <> playbackAckTerminalNone -> terminal (ack_step now op a) = terminal a) /\
  (resets op = true -> waitForPlaybackAckTerminal (ack_step now op a) = (playbackAckTerminalNone, [], false)).
Proof.
  cbv zeta. set (a := ack_run ops zero_ack_state).
  assert (Hinv : ack_inv a).
  { subst a. unfold ack_run. apply fold_left_inv; [by split|]. intros b [t o] _ Hb. cbn [fst snd].
    destruct (resets o) eqn:E.
    - destruct o; try discriminate E; destruct Hb as (H1 & _); unfold ack_inv; by cbn.
    - destruct (step_outcome t o b E) as (c & Hc & [Hs|(k & Hk & ->)]).
      + eapply same_outcome_inv, Hb. by eapply same_outcome_trans.
      + apply finish_inv; [done|]. by eapply same_outcome_inv. }
  split; [done|]. split.
  - intros Hr Ht. destruct (step_outcome now op a Hr) as (c & (C1 & C2 & C3) & [(S1 & _)|(k & Hk & ->)]); [congruence|].
    rewrite finish_first_wins; congruence.
  - intros Hr. by destruct op.
Qed.

(** ** Marks *)

Lemma clamp_range value maxValue : 0 <= clampPlaybackMarkDuration value maxValue /\
  (0 < maxValue -> clampPlaybackMarkDuration value maxValue <= maxValue).
Proof. unfold clampPlaybackMarkDuration. repeat split_if; bool_prop; lia. Qed.

Section Marks.
Context {St P : Type} `{!MemoryStore St} `{!PreviewSession P}.

Lemma update_turn delivered planned (o : SessionOrchestrator St P) t :
  turn o = Some t -> playbackActive t = true ->
  exists t', turn (UpdatePlayback delivered planned o) = Some t' /\ playbackActive t' = true /\
    deliveredText t' = if TrimSpace delivered == "" then deliveredText t else TrimSpace delivered.
Proof.
  intros Ht Ha. unfold UpdatePlayback. rewrite Ht. cbv zeta. rewrite persist_turn. cbn [with_turn turn].
  eexists. split; [reflexivity|].
  set (t1 := if TrimSpace delivered != "" then t <|deliveredText := TrimSpace delivered|> else t).
  set (t2 := if 0 <? planned then t1 <|plannedDuration := planned|> else t1).
  assert (H2 : playbackActive t2 = true /\ deliveredText t2 = if TrimSpace delivered == "" then deliveredText t else TrimSpace delivered)
    by (subst t2 t1; destruct (TrimSpace delivered == ""), (0 <? planned); cbn [negb]; by read_fields).
  destruct H2 as (A2 & D2). rewrite A2. clearbody t2. clear t1.
  unfold updateHeardTextLocked, set_heard, advance_played. cbv zeta.
  destruct (playedDuration t2 <? playedDuration t2); by read_fields.
Qed.

(** An exact mark that fits the delivered text is taken as it is. *)
Lemma mark_text_turn played heard (o : SessionOrchestrator St P) t :
  turn o = Some t -> playbackActive t = true -> trimmed (deliveredText t) -> trimmed heard ->
  heard <> [] -> heard `prefix_of` deliveredText t ->
  exists t', turn (ObservePlaybackMarkTextFact played heard o) = Some t' /\ heardText t' = heard /\
    heardSource t' = HeardTextSourceSegmentMark /\ deliveredText t' = deliveredText t.
Proof.
  intros Ht Ha Hd Hh Hn Hp. unfold ObservePlaybackMarkTextFact, on_active_playback. rewrite Ht, Ha. cbn [negb with_turn turn].
  eexists. split; [reflexivity|]. unfold updateHeardTextExactLocked. cbv zeta.
  set (t1 := advance_played played t).
  assert (D1 : deliveredText t1 = deliveredText t).
  { subst t1. unfold advance_played. destruct (playedDuration t <? played); by read_fields. }
  rewrite D1, Hd, Hh. assert ((heard == "") = false) as -> by (by apply text_eqb_false).
  assert ((deliveredText t == "") = false) as ->.
  { apply text_eqb_false. intros E. rewrite E in Hp. destruct Hp as [l Hl]. symmetry in Hl. by apply app_nil in Hl as [-> _]. }
  assert (HasPrefix (deliveredText t) heard = true) as -> by (by apply HasPrefix_spec). cbn [orb negb].
  unfold set_heard. read_fields. done.
Qed.

Lemma sync_turn (c : connection St P) t :
  turn (voiceSession c) = Some t -> playbackActive t = true -> TrimSpace (TextAfter (ack_meta (conn_ack c))) <> [] ->
  conn_ack (syncAnnouncedPlaybackContext c) = conn_ack c /\
  exists t', turn (voiceSession (syncAnnouncedPlaybackContext c)) = Some t' /\ playbackActive t' = true /\
    deliveredText t' = TrimSpace (TextAfter (ack_meta (conn_ack c))).
Proof.
  intros Ht Ha Hn. unfold syncAnnouncedPlaybackContext. cbv zeta. apply text_eqb_false in Hn as Hn'. change (@nil Z) with (txt "") in Hn'. rewrite Hn', Hn'.
  cbn [andb]. split; [done|]. cbn [set_voice voiceSession].
  set (planned := if DurationAfter _ <=? 0 then _ else _).
  destruct (update_turn (TrimSpace (TextAfter (ack_meta (conn_ack c)))) planned _ t Ht Ha) as (t' & T1 & T2 & T3).
  exists t'. rewrite TrimSpace_idemp, Hn' in T3. done.
Qed.

(** Where an answer stands when [j + 1] of its segments were announced, whatever
    the client acknowledged before, between and after the announcements: starts,
    marks, even the ends of the playback, in any order and any number. *)
Definition announcement (op : instant * ack_op) : option audioPlaybackMeta :=
  match op.2 with AckActivate meta => Some meta | _ => None end.

Definition playing (meta : audioPlaybackMeta) (segs : list segment_in) (j : nat) (a : playbackAckState) : Prop :=
  exists a0 ops, a = ack_run ops (installPlaybackAckMeta meta a0) /\ Forall (fun op => resets op.2 = false) ops /\
    omap announcement ops = take (1 + j) (announce (initial_cursor meta) segs).

(** The segments announced, which acks leave alone. *)
Definition same_segments (a b : playbackAckState) : Prop := ack_meta a = ack_meta b /\ segments a = segments b.

Lemma ack_keeps_segments now op a : resets op = false -> announcement (now, op) = None -> same_segments (ack_step now op a) a.
Proof.
  intros Hr Hn. destruct op; try done; cbn [ack_step]; unfold same_segments, recordPlaybackStarted, recordPlaybackMark, recordPlaybackCleared,
    recordPlaybackCompleted, start_clock, advance_mark, finishLocked; cbv zeta; cbn [fst]; repeat split_if; try destruct (waitCh _); by read_fields.
Qed.

Lemma activate_same m a b : same_segments a b -> same_segments (activatePlaybackAckSegment m a) (activatePlaybackAckSegment m b).
Proof. intros [_ H]. unfold same_segments, activatePlaybackAckSegment. cbv zeta. split_if; read_fields; by rewrite ?H. Qed.

Lemma run_segments ops a b :
  Forall (fun op => resets op.2 = false) ops -> same_segments a b ->
  same_segments (ack_run ops a) (activate_all (omap announcement ops) b).
Proof.
  intros Hr. revert a b. induction Hr as [|[now op] ops Hop _ IH]; intros a b Hs; [done|].
  unfold ack_run. cbn [fold_left fst snd]. fold (ack_run ops (ack_step now op a)). cbn [omap list_omap].
  destruct (announcement (now, op)) as [m|] eqn:E.
  - destruct op; try discriminate E. injection E as ->. apply IH. by apply activate_same.
  - apply IH. destruct (ack_keeps_segments now op a Hop E) as [H1 H2], Hs as [H3 H4]. split; congruence.
Qed.

Lemma playing_lookup meta segs j k a latest m :
  len segs <= max_int64 -> playing meta segs j a -> (k <= j)%nat ->
  announce (initial_cursor meta) segs !! j = Some latest -> announce (initial_cursor meta) segs !! k = Some m ->
  ack_meta a = latest /\ playbackAckMetaForSegmentLocked a (TrimSpace (meta_SegmentID m)) = m /\
  meta_wf m /\ meta_wf latest /\ TextAfter m `prefix_of` TextAfter latest.
Proof.
  intros Hmax (a0 & ops & -> & Hops & Han) Hkj Hj Hk. destruct (announce_facts meta segs Hmax) as (_ & Hnd & Hall & Hm).
  destruct (run_segments ops _ (installPlaybackAckMeta meta a0) Hops (conj eq_refl eq_refl)) as [Rm Rs]. rewrite Han in Rm, Rs.
  set (ms := announce (initial_cursor meta) segs) in *. destruct (Hm k m Hk) as (Wm & Am & _).
  destruct (Hm j latest Hj) as (Wl & Al & _).
  assert (Hids : TrimSpace (meta_SegmentID m) = meta_SegmentID m /\ meta_SegmentID m <> []).
  { rewrite Forall_forall in Hall. destruct (Hall m (list_elem_of_lookup_2 _ _ _ Hk)) as (_ & _ & H1 & H2). done. }
  destruct Hids as [I1 I2]. split; [|split; [|split; [done|split; [done|]]]].
  - rewrite Rm. change (1 + j)%nat with (S j). rewrite (take_S_r ms j latest Hj). apply activate_all_meta.
  - unfold playbackAckMetaForSegmentLocked. cbv zeta. rewrite !I1, Rs.
    assert ((meta_SegmentID m == "") = false) as -> by (by apply text_eqb_false).
    rewrite (activate_all_lookup _ _ k m); [done| | |].
    + rewrite <- firstn_map. rewrite <- (take_drop (1 + j) (map meta_SegmentID ms)) in Hnd. by apply NoDup_app in Hnd as [? _].
    + apply Forall_take. eapply Forall_impl; [exact Hall|]. intros x (_ & _ & H1 & H2). cbn. congruence.
    + rewrite lookup_take_lt by lia. done.
  - rewrite Am, Al. replace (S j) with (S k + (j - k))%nat by lia.
    rewrite <- (take_take_drop segs (S k) (j - k)), map_app, concat_app. by eexists.
Qed.
(** A mark leaves the playback where it stands: the next one finds it as this
    one did. *)
Lemma observe_mark_active total heard (c : connection St P) t :
  turn (voiceSession c) = Some t -> playbackActive t = true ->
  conn_ack (observe_mark total heard c) = conn_ack c /\
  exists t', turn (voiceSession (observe_mark total heard c)) = Some t' /\ playbackActive t' = true.
Proof.
  intros Ht Ha. unfold observe_mark, ObservePlaybackMarkTextFact, ObservePlaybackMarkFact, on_active_playback. split; [by repeat split_if|].
  rewrite Ht, Ha. cbn [negb]. repeat split_if; cbn [set_voice voiceSession with_turn turn]; eexists; (split; [first [exact Ht|reflexivity]|]); [| |done];
    unfold updateHeardTextExactLocked, updateHeardTextLocked, set_heard, advance_played; cbv zeta; repeat split_if; by read_fields.
Qed.

Lemma playing_step meta segs j a now op :
  playing meta segs j a -> resets op = false -> announcement (now, op) = None -> playing meta segs j (ack_step now op a).
Proof.
  intros (a0 & ops & -> & Hr & Han) Hop Hn. exists a0, (ops ++ [(now, op)]). split; [|split].
  - unfold ack_run. by rewrite fold_left_app.
  - apply Forall_app. split; [done|]. by constructor.
  - by rewrite omap_app, Han; cbn [omap list_omap]; rewrite Hn, app_nil_r.
Qed.

Lemma accepted_same responseID playbackID (c c' : connection St P) :
  ack_meta (conn_ack c') = ack_meta (conn_ack c) -> conn_SessionID c' = conn_SessionID c ->
  PlaybackAckEnabled c' = PlaybackAckEnabled c ->
  ack_accepted responseID playbackID c' = ack_accepted responseID playbackID c.
Proof. unfold ack_accepted. by intros -> -> ->. Qed.

Lemma observe_mark_ids total heard (c : connection St P) :
  conn_SessionID (observe_mark total heard c) = conn_SessionID c /\ PlaybackAckEnabled (observe_mark total heard c) = PlaybackAckEnabled c.
Proof. unfold observe_mark. by repeat split_if. Qed.

Lemma sync_ids (c : connection St P) :
  conn_ack (syncAnnouncedPlaybackContext c) = conn_ack c /\
  conn_SessionID (syncAnnouncedPlaybackContext c) = conn_SessionID c /\
  PlaybackAckEnabled (syncAnnouncedPlaybackContext c) = PlaybackAckEnabled c.
Proof. unfold syncAnnouncedPlaybackContext. cbv zeta. by repeat split_if. Qed.

Lemma sync_active (c : connection St P) t :
  turn (voiceSession c) = Some t -> playbackActive t = true ->
  exists t', turn (voiceSession (syncAnnouncedPlaybackContext c)) = Some t' /\ playbackActive t' = true.
Proof.
  intros Ht Ha. unfold syncAnnouncedPlaybackContext. cbv zeta.
  match goal with |- context [if ?b then c else _] => destruct b; [by exists t|] end.
  cbn [set_voice voiceSession].
  match goal with |- context [UpdatePlayback ?d ?p _] => destruct (update_turn d p _ t Ht Ha) as (t' & T1 & T2 & _) end.
  by exists t'.
Qed.

Lemma mark_keeps_playing meta segs j now responseID playbackID segmentID playedMs (c : connection St P) t :
  playing meta segs j (conn_ack c) -> turn (voiceSession c) = Some t -> playbackActive t = true ->
  let c' := recordPlaybackAckMark now responseID playbackID segmentID playedMs c in
  playing meta segs j (conn_ack c') /\
  ack_accepted responseID playbackID c' = ack_accepted responseID playbackID c /\
  exists t', turn (voiceSession c') = Some t' /\ playbackActive t' = true.
Proof.
  intros Hp Ht Ha. cbv zeta. unfold recordPlaybackAckMark. destruct (ack_accepted responseID playbackID c) eqn:Hacc; cbn [negb]; [|by eauto].
  destruct (sync_ids c) as (S1 & S2 & S3), (sync_active c t Ht Ha) as (t1 & T1 & A1). cbv zeta. rewrite S1.
  destruct (recordPlaybackMark now (TrimSpace segmentID) playedMs (conn_ack c)) as [a [[m total] heard]] eqn:E.
  assert (Hstep : a = ack_step now (AckMark (TrimSpace segmentID) playedMs) (conn_ack c)) by (cbn [ack_step]; by rewrite E).
  destruct (observe_mark_active total heard (set_ack a (syncAnnouncedPlaybackContext c)) t1 T1 A1) as (O1 & O2).
  destruct (observe_mark_ids total heard (set_ack a (syncAnnouncedPlaybackContext c))) as (O3 & O4).
  rewrite O1. cbn [set_ack conn_ack]. split; [|split; [|exact O2]].
  - rewrite Hstep. by apply playing_step.
  - rewrite <- Hacc. apply accepted_same; [|rewrite O3; exact S2|rewrite O4; exact S3].
    rewrite O1. cbn [set_ack conn_ack]. rewrite Hstep. by apply ack_keeps_segments.
Qed.

Lemma accepted_mark_text now responseID playbackID playedMs (c : connection St P) t m latest :
  ack_accepted responseID playbackID c = true -> turn (voiceSession c) = Some t -> playbackActive t = true ->
  ack_meta (conn_ack c) = latest ->
  playbackAckMetaForSegmentLocked (conn_ack c) (TrimSpace (meta_SegmentID m)) = m -> meta_wf latest ->
  let local := clampPlaybackMarkDuration (i64 (maxInt playedMs 0 * Millisecond)) (meta_ExpectedDuration m) in
  let heard := heardTextForPlaybackSegment m local in
  heard `prefix_of` TextAfter latest -> heard <> [] ->
  exists t', turn (voiceSession (recordPlaybackAckMark now responseID playbackID (meta_SegmentID m) playedMs c)) = Some t' /\
    heardText t' = heard /\ heardSource t' = HeardTextSourceSegmentMark /\ deliveredText t' = TextAfter latest.
Proof.
  intros Hacc Ht Ha L1 L2 Wl. cbv zeta. set (local := clampPlaybackMarkDuration _ _). set (heard := heardTextForPlaybackSegment m local).
  intros B3 Hn. pose proof (wf_after_trimmed _ Wl) as Htl.
  assert (Hln : TrimSpace (TextAfter latest) <> []).
  { rewrite Htl. intros E. rewrite E in B3. destruct B3 as [l Hl]. symmetry in Hl. by apply app_nil in Hl as [-> _]. }
  rewrite <- L1 in Hln. destruct (sync_turn c t Ht Ha Hln) as (S1 & t1 & T1 & A1 & D1). rewrite L1, Htl in D1.
  unfold recordPlaybackAckMark. rewrite Hacc. cbn [negb]. cbv zeta. rewrite S1.
  unfold recordPlaybackMark. cbv zeta. rewrite L2. fold local. fold heard.
  assert (Hh : trimmed heard).
  { subst heard. unfold heardTextForPlaybackSegment. cbv zeta. split_if; apply trimmed_TrimSpace. }
  unfold observe_mark. rewrite Hh. assert ((heard == "") = false) as -> by (by apply text_eqb_false). cbn [negb].
  cbn [set_voice voiceSession set_ack].
  destruct (mark_text_turn (i64 (DurationBefore m + local)) heard _ t1 T1 A1) as (t' & R1 & R2 & R3 & R4);
    rewrite ?D1; try done. exists t'. by rewrite R4, D1.
Qed.
End Marks.

(** C20. A mark fixes the heard text. While an answer is being played and some of
    its segments have been announced, whatever the client acknowledged before
    (starts, other marks, ends, in any order and number), a mark for any
    announced segment, the last one or an earlier one, that arrives with the right
    response and playback ids makes the orchestrator's heard text exactly the text
    before that segment followed by the played part of the segment: at least
    everything before the segment, at most everything announced, never an estimate
    from bytes; the delivered text becomes everything announced. And the mark
    leaves the playback as it found it, so that the same holds of the next mark. *)
Theorem mark_sets_heard_text {St P : Type} `{!MemoryStore St} `{!PreviewSession P}
    meta segs j k latest m now responseID playbackID playedMs (c : connection St P) t :
  len segs <= max_int64 -> playing meta segs j (conn_ack c) -> (k <= j)%nat ->
  announce (initial_cursor meta) segs !! j = Some latest -> announce (initial_cursor meta) segs !! k = Some m ->
  ack_accepted responseID playbackID c = true ->
  turn (voiceSession c) = Some t -> playbackActive t = true ->
  let local := clampPlaybackMarkDuration (i64 (maxInt playedMs 0 * Millisecond)) (meta_ExpectedDuration m) in
  let heard := heardTextForPlaybackSegment m local in
  let c' := recordPlaybackAckMark now responseID playbackID (meta_SegmentID m) playedMs c in
  TextBefore m `prefix_of` heard /\ heard `prefix_of` TextAfter latest /\
  (heard <> [] -> exists t', turn (voiceSession c') = Some t' /\
     heardText t' = heard /\ heardSource t' = HeardTextSourceSegmentMark /\ deliveredText t' = TextAfter latest) /\
  playing meta segs j (conn_ack c') /\ ack_accepted responseID playbackID c' = true /\
  exists t', turn (voiceSession c') = Some t' /\ playbackActive t' = true.
Proof.
  intros Hmax Hplay Hkj Hj Hk Hacc Ht Ha. cbv zeta.
  destruct (playing_lookup _ _ _ _ _ _ _ Hmax Hplay Hkj Hj Hk) as (L1 & L2 & Wm & Wl & Lp).
  set (local := clampPlaybackMarkDuration _ _). destruct (segment_heard_between m local Wm) as [B1 B2].
  assert (B3 : heardTextForPlaybackSegment m local `prefix_of` TextAfter latest) by (by transitivity (TextAfter m)).
  split; [done|]. split; [done|]. split.
  - intros Hn. exact (accepted_mark_text now responseID playbackID playedMs c t m latest Hacc Ht Ha L1 L2 Wl B3 Hn).
  - destruct (mark_keeps_playing meta segs j now responseID playbackID (meta_SegmentID m) playedMs c t Hplay Ht Ha) as (P1 & P2 & P3). rewrite Hacc in P2. done.
Qed.

#[local] Existing Instance demo_session.

Definition demo_segments : list segment_in :=
  [mkSegment "Hello there." Second false; mkSegment "How are you today?" (2 * Second) true].
Definition demo_meta : audioPlaybackMeta := newAudioPlaybackMeta 0 "r1" "" 0.
Definition demo_announced (k : nat) : audioPlaybackMeta :=
  default zero_meta (announce (initial_cursor demo_meta) demo_segments !! k).

(** The first segment announced and started, a mark in it, then the second
    announced, and a mark one second into that. *)
Definition demo_acks : list (instant * ack_op) :=
  [(1, AckActivate (demo_announced 0)); (2, AckStarted); (3, AckMark (meta_SegmentID (demo_announced 0)) 400);
   (4, AckActivate (demo_announced 1))].
Definition demo_playing : connection InMemoryMemoryStore unit :=
  mkConnection (ack_run demo_acks (installPlaybackAckMeta demo_meta zero_ack_state)) demo_orch "s1" true true.

Lemma mark_sets_heard_text_witness :
  lastMarkMs (conn_ack demo_playing) <> 0 /\
  exists t', turn (voiceSession (recordPlaybackAckMark (S := InMemoryMemoryStore) (P := unit) 5 "r1" "playback_r1"
                    (meta_SegmentID (demo_announced 1)) 1000 demo_playing)) = Some t' /\
  heardText t' = txt "Hello there.How are y" /\ heardSource t' = HeardTextSourceSegmentMark /\
  deliveredText t' = txt "Hello there.How are you today?".
Proof.
  split; [by vm_compute|].
  destruct (@mark_sets_heard_text InMemoryMemoryStore unit InMemory_MemoryStore demo_session demo_meta demo_segments 1 1
    (demo_announced 1) (demo_announced 1) 5 "r1" "playback_r1" 1000 demo_playing demo_turn) as (_ & _ & H & _).
  - by vm_compute.
  - exists zero_ack_state, demo_acks. split; [done|]. split; [by repeat constructor|by vm_compute].
  - done.
  - by vm_compute.
  - by vm_compute.
  - by vm_compute.
  - exact demo_turn_followed.
  - by vm_compute.
  - destruct H as (t' & H1 & H2 & H3 & H4); [by vm_compute|]. exists t'. split; [exact H1|].
    split; [rewrite H2; by vm_compute|]. split; [exact H3|]. rewrite H4. by vm_compute.
Defined.

(** The gateway's own heard-text estimate agrees with the voice runtime's
    whenever a planned duration is known; without one it counts a rune every
    110 ms where the runtime counts one every 120 ms, so it never claims less, and
    for some durations claims more. *)
Theorem gateway_estimate_agrees s played planned :
  played <= max_int64 ->
  (0 < planned -> voiceHeardTextForPlayback s played planned = heardTextForPlayback s played planned) /\
  heardTextForPlayback s played planned `prefix_of` voiceHeardTextForPlayback s played planned /\
  voiceHeardTextForPlayback "Hello there." (1320 * Millisecond) 0 = txt "Hello there." /\
  heardTextForPlayback "Hello there." (1320 * Millisecond) 0 = txt "Hello there".
Proof.
  intros Hmax.
  assert (Heq : 0 < planned -> voiceHeardTextForPlayback s played planned = heardTextForPlayback s played planned).
  { intros Hp. unfold voiceHeardTextForPlayback, heardTextForPlayback. cbv zeta.
    assert ((0 <? planned) = true) as -> by lia.
    destruct (TrimSpace s == ""), (played <=? 0); done. }
  split; [exact Heq|]. split; [|split; by vm_compute].
  destruct (decide (0 < planned)) as [Hp|Hp]; [by rewrite Heq|].
  unfold voiceHeardTextForPlayback, heardTextForPlayback. cbv zeta.
  assert ((0 <? planned) = false) as -> by lia.
  destruct (TrimSpace s == "") eqn:E; cbn [orb]; [done|].
  destruct (played <=? 0) eqn:E1; bool_prop; [done|].
  rewrite !idiv_floor by (unfold approxHeardRuneDuration, Millisecond; lia).
  assert (Hm : played / approxHeardRuneDuration <= played / (110 * Millisecond)).
  { apply Z.div_le_compat_l; [lia|]. split; [reflexivity | by vm_compute]. }
  apply take_prefix_take, Z2Nat.inj_le; apply (clip_mono _ _ _ (len_nonneg (TrimSpace s)) Hm).
Qed.

Lemma gateway_estimate_agrees_witness :
  1320 * Millisecond <= max_int64 /\
  heardTextForPlayback "Hello there." (1320 * Millisecond) 0
    `prefix_of` voiceHeardTextForPlayback "Hello there." (1320 * Millisecond) 0.
Proof.
  split; [by vm_compute|]. apply (gateway_estimate_agrees "Hello there." (1320 * Millisecond) 0). by vm_compute.
Defined.
