(* ===== verification/SpeechStream.v ===== *)
(** * From clauses to frames (internal/voice/speech_planner.go,
      synthesis_audio.go; internal/gateway/realtime_ws.go, voice_collaboration.go)

    The planner's worker synthesizes clause after clause into a queue; the
    gateway's player announces each segment of the queue to the client and sends
    its frames.  The two goroutines only meet at the queue, a channel the worker
    closes, so the player sees the sequence of all results the worker will ever
    send; a context cancelled half-way only cuts that sequence short. *)

From S2P Require Import Prelude GoText Contracts Lexical BargeIn SpeechPlanner Audio PlaybackAck.

(** ** The synthesizer, an external service behind an interface

    [StreamSynthesize] is [None] when the synthesizer is not a streaming one;
    its answer is [None] when it fails or answers no stream. [Synthesize] answers
    PCM with its rate and channel count. Both are asked with the clause's text;
    the rest of the request is constant. *)
Record Synthesizer := mkSynthesizer {
  StreamSynthesize : option (text -> option AudioStream);
  Synthesize : text -> option (bytes * Z * Z)
}.

Definition bufferedSynthesisAudio (z : Synthesizer) (s : text) : option AudioStream :=
  match Synthesize z s with
  | None => None
  | Some (AudioPCM, rate, channels) =>
      if len AudioPCM =? 0 then None
      else match chunkPCM16 AudioPCM rate channels 20 with
           | Ok cs => Some (NewStaticAudioStream cs)
           | Err _ => None (* a panic; excluded by [chunk_pcm16_partition] *)
           end
  end.

(** [nextNonEmptyChunk]: the chunk, and the stream after it. *)
Fixpoint nextNonEmptyChunk (cs : list bytes) (e : stream_error) : result stream_error (bytes * AudioStream) :=
  match cs with
  | [] => Err e
  | c :: cs => if len c =? 0 then nextNonEmptyChunk cs e else Ok (c, mkStream cs e)
  end.

(** [prepareStreamingAudio] with [fallbackSynthesisAudioStream]: the first chunk
    put back in front of the rest. The cancelled context is left out. *)
Definition prepareStreamingAudio (stream : AudioStream) (z : Synthesizer) (s : text) : option AudioStream :=
  match nextNonEmptyChunk (chunks stream) (ending stream) with
  | Ok (firstChunk, rest) => Some (mkStream (firstChunk :: chunks rest) (ending rest))
  | Err _ => bufferedSynthesisAudio z s
  end.

Definition synthesizedAudioStream (z : Synthesizer) (s : text) : option AudioStream :=
  match StreamSynthesize z with
  | Some streaming =>
      match streaming s with
      | Some stream =>
          match prepareStreamingAudio stream z s with
          | Some prepared => Some prepared
          | None => bufferedSynthesisAudio z s
          end
      | None => bufferedSynthesisAudio z s
      end
  | None => bufferedSynthesisAudio z s
  end.

Definition synthesizedPlannedClauseStream (z : Synthesizer) (clause : PlannedSpeechClause) : option AudioStream :=
  synthesizedAudioStream z (pc_Text clause).

(** ** The worker *)

Record queuedSpeechAudioResult := mkQueued { q_stream : AudioStream; q_segment : PlaybackSegment }.

(** [enqueueClause]: blank clauses are dropped, a missing estimate is filled in. *)
Definition enqueueClause (clause : PlannedSpeechClause) : list PlannedSpeechClause :=
  let trimmed := TrimSpace (pc_Text clause) in
  if trimmed == "" then []
  else [mkClause (pc_Index clause) trimmed (pc_BoundaryKind clause) (pc_ProsodyHint clause)
          (pc_CanStartBeforeFinalized clause)
          (if pc_EstimatedDuration clause <=? 0
           then estimateClausePlaybackDuration (mkClause (pc_Index clause) trimmed (pc_BoundaryKind clause)
                  (pc_ProsodyHint clause) (pc_CanStartBeforeFinalized clause) (pc_EstimatedDuration clause))
           else pc_EstimatedDuration clause)].

Fixpoint runWorker (z : Synthesizer) (queue : list PlannedSpeechClause) : list queuedSpeechAudioResult :=
  match queue with
  | [] => []
  | clause :: queue =>
      match synthesizedPlannedClauseStream z clause with
      | None => runWorker z queue
      | Some stream => mkQueued stream (playbackSegmentForClause clause) :: runWorker z queue
      end
  end.

(** ** The queued stream *)

Record queuedSpeechAudioStream := mkQueue {
  q_results : list queuedSpeechAudioResult;
  q_current : option AudioStream;
  segmented : bool
}.

(** [Next]: the loop ends at a chunk, at an error, at the end of the queue, or
    between two segments when the reader asks segment by segment. *)
Fixpoint queue_Next (current : option AudioStream) (seg : bool) (results : list queuedSpeechAudioResult)
    {struct results} : result stream_error bytes * queuedSpeechAudioStream :=
  let load :=
    match results with
    | [] => (Err EOF, mkQueue [] None seg)
    | r :: results => queue_Next (Some (q_stream r)) seg results
    end in
  match current with
  | None => load
  | Some s =>
      match stream_Next s with
      | (Ok chunk, s) => (Ok chunk, mkQueue results (Some s) seg)
      | (Err (StreamError e), s) => (Err (StreamError e), mkQueue results (Some s) seg)
      | (Err EOF, _) => if seg then (Err EOF, mkQueue results None seg) else load
      end
  end.

Definition Next (q : queuedSpeechAudioStream) : result stream_error bytes * queuedSpeechAudioStream :=
  queue_Next (q_current q) (segmented q) (q_results q).

Definition NextSegment (q : queuedSpeechAudioStream)
    : result stream_error (option PlaybackSegment) * queuedSpeechAudioStream :=
  match q_current q with
  | Some s => (Ok None, mkQueue (q_results q) (Some s) true)
  | None =>
      match q_results q with
      | [] => (Err EOF, mkQueue [] None true)
      | r :: results => (Ok (Some (q_segment r)), mkQueue results (Some (q_stream r)) true)
      end
  end.

(** ** The player ([startAudioStream])

    Only the segmented loop is modelled; the events are what the client gets. The
    interruption of the player, the pacing ticker and failed writes stop the loop
    early and are left out. *)
Inductive player_event := Announce (meta : audioPlaybackMeta) | Frame (chunk : bytes).

Inductive player_end := PlayedOut | PlayerFailed (message : text).

Fixpoint player (fuel : nat) (cursor : audioPlaybackMeta) (q : queuedSpeechAudioStream)
    : option (list player_event * player_end) :=
  match fuel with
  | O => None
  | S fuel =>
      match NextSegment q with
      | (Err EOF, _) => Some ([], PlayedOut)
      | (Err (StreamError e), _) => Some ([], PlayerFailed e)
      | (Ok segment, q) =>
          let '(cursor, announced) :=
            match segment with
            | Some s =>
                let cursor := nextSegmentAudioPlaybackMeta cursor (Segment_Text s) (ExpectedDuration s) (IsLastSegment s) in
                (cursor, [Announce cursor])
            | None => (cursor, [])
            end in
          let continue_with (evs : list player_event) (q : queuedSpeechAudioStream) :=
            match player fuel cursor q with
            | Some (rest, e) => Some (announced ++ evs ++ rest, e)
            | None => None
            end in
          match Next q with
          | (Err EOF, q) => continue_with [] q
          | (Err (StreamError e), _) => Some (announced, PlayerFailed e)
          | (Ok chunk, q) => continue_with (if len chunk =? 0 then [] else [Frame chunk]) q
          end
      end
  end.

Definition play (meta : audioPlaybackMeta) (results : list queuedSpeechAudioResult)
    : option (list player_event * player_end) :=
  player (S (list_sum (map (fun r => S (length (chunks (q_stream r)))) results))) (initial_cursor meta)
    (mkQueue results None false).

(** ** What the player must show *)

Definition frames (cs : list bytes) : list player_event :=
  map Frame (List.filter (fun c => negb (len c =? 0)) cs).

Definition segment_of (r : queuedSpeechAudioResult) : segment_in :=
  mkSegment (Segment_Text (q_segment r)) (ExpectedDuration (q_segment r)) (IsLastSegment (q_segment r)).

(** Segment after segment: its announcement, then its frames. *)
Fixpoint expected_events (metas : list audioPlaybackMeta) (results : list queuedSpeechAudioResult)
    : list player_event * player_end :=
  match metas, results with
  | m :: metas, r :: results =>
      match ending (q_stream r) with
      | EOF => let '(rest, e) := expected_events metas results in
               (Announce m :: frames (chunks (q_stream r)) ++ rest, e)
      | StreamError e => (Announce m :: frames (chunks (q_stream r)), PlayerFailed e)
      end
  | _, _ => ([], PlayedOut)
  end.

(** The rest of a segment already announced. *)
Lemma player_current cs e cursor results fuel :
  player (S (length cs) + fuel) cursor (mkQueue results (Some (mkStream cs e)) true) =
  match e with
  | EOF => match player fuel cursor (mkQueue results None true) with
           | Some (rest, out) => Some (frames cs ++ rest, out)
           | None => None
           end
  | StreamError m => Some (frames cs, PlayerFailed m)
  end.
Proof.
  induction cs as [|c cs IH].
  - cbn [length Nat.add]. cbn [player NextSegment q_current q_results]. unfold Next.
    cbn [q_current q_results segmented]. destruct results; cbn; by destruct e.
  - change (S (length (c :: cs)) + fuel)%nat with (S (S (length cs) + fuel)).
    cbn [player NextSegment q_current q_results]. unfold Next. cbn [q_current q_results segmented].
    destruct results as [|r results]; cbn [queue_Next stream_Next chunks ending]; rewrite IH;
      unfold frames; cbn [List.filter];
      (destruct e; [|by destruct (len c =? 0)]);
      (destruct (player fuel cursor _) as [[rest out]|]; [|by destruct (len c =? 0)]);
      by destruct (len c =? 0).
Qed.

Lemma player_load fuel cursor r results seg :
  player (S fuel) cursor (mkQueue (r :: results) None seg) =
  let cursor := nextSegmentAudioPlaybackMeta cursor (seg_text (segment_of r)) (seg_duration (segment_of r))
                  (seg_last (segment_of r)) in
  match player (S fuel) cursor (mkQueue results (Some (q_stream r)) true) with
  | Some (rest, e) => Some (Announce cursor :: rest, e)
  | None => None
  end.
Proof.
  cbv zeta. cbn [player NextSegment q_current q_results segment_of seg_text seg_duration seg_last].
  unfold Next. cbn [q_current q_results segmented]. set (c := nextSegmentAudioPlaybackMeta _ _ _ _).
  destruct (queue_Next (Some (q_stream r)) true results) as [[chunk|[|e]] q].
  - by destruct (player fuel c q) as [[rest e]|].
  - by destruct (player fuel c q) as [[rest e]|].
  - done.
Qed.

Lemma player_results results cursor seg fuel :
  (list_sum (map (fun r => S (length (chunks (q_stream r)))) results) < fuel)%nat ->
  player fuel cursor (mkQueue results None seg) =
  Some (expected_events (announce cursor (map segment_of results)) results).
Proof.
  revert cursor seg fuel. induction results as [|r results IH]; intros cursor seg fuel Hf; cbn [map] in Hf.
  - change (list_sum []) with 0%nat in Hf. destruct fuel as [|fuel]; [lia|]. done.
  - change (list_sum (?x :: ?l)) with (x + list_sum l)%nat in Hf. cbn [list_sum fold_right] in Hf. destruct fuel as [|fuel]; [lia|].
    rewrite player_load. cbv zeta. cbn [map announce expected_events].
    set (c := nextSegmentAudioPlaybackMeta _ _ _ _). destruct (q_stream r) as [cs e] eqn:Es. cbn [chunks ending] in *.
    replace (S fuel) with (S (length cs) + (fuel - length cs))%nat by lia. rewrite player_current.
    destruct e; [|done]. rewrite IH by (unfold list_sum in *; lia).
    by destruct (expected_events _ results) as [rest out].
Qed.

(** ** Properties *)

(** The player of a segmented answer always finishes, whatever the worker put
    in the queue: it announces each segment just before its first frame, with the
    texts and durations of the segments before it, sends the segment's non-empty
    chunks in order and nothing else, goes on to the next segment at the end of a
    stream, and stops at the first stream that breaks off or at the end of the
    queue. *)
Theorem player_plays_every_segment meta results :
  play meta results = Some (expected_events (announce (initial_cursor meta) (map segment_of results)) results).
Proof. unfold play. apply player_results. lia. Qed.

Definition announcements (evs : list player_event) : list audioPlaybackMeta :=
  omap (fun ev => match ev with Announce m => Some m | Frame _ => None end) evs.

Definition audio_of (evs : list player_event) : bytes :=
  concat (map (fun ev => match ev with Announce _ => [] | Frame c => c end) evs).

Lemma announcements_app a b : announcements (a ++ b) = announcements a ++ announcements b.
Proof. apply omap_app. Qed.

Lemma announcements_frames cs : announcements (frames cs) = [].
Proof.
  unfold frames, announcements. induction (List.filter _ cs) as [|c l IH]; [done|]. exact IH.
Qed.

Lemma audio_of_frames cs : audio_of (frames cs) = concat cs.
Proof.
  unfold frames, audio_of. induction cs as [|c cs IH]; [done|]. cbn [List.filter].
  destruct (len c =? 0) eqn:E; cbn [negb map concat]; rewrite IH; [|done].
  rewrite len_zero in E. by destruct c.
Qed.

Lemma audio_of_app a b : audio_of (a ++ b) = audio_of a ++ audio_of b.
Proof. unfold audio_of. by rewrite map_app, concat_app. Qed.

Lemma expected_all_ended metas results :
  length metas = length results -> Forall (fun r => ending (q_stream r) = EOF) results ->
  (expected_events metas results).2 = PlayedOut /\
  announcements (expected_events metas results).1 = metas /\
  audio_of (expected_events metas results).1 = concat (map (fun r => concat (chunks (q_stream r))) results).
Proof.
  intros Hl He. revert metas Hl. induction He as [|r results Hr _ IH]; intros [|m metas] Hl; try done.
  cbn [length] in Hl. destruct (IH metas ltac:(lia)) as (I1 & I2 & I3). cbn [expected_events]. rewrite Hr.
  destruct (expected_events metas results) as [rest e]. cbn [fst snd] in *. split; [done|]. split.
  - change (Announce m :: frames (chunks (q_stream r)) ++ rest) with ([Announce m] ++ frames (chunks (q_stream r)) ++ rest).
    rewrite !announcements_app, announcements_frames, I2. done.
  - change (Announce m :: frames (chunks (q_stream r)) ++ rest) with ([Announce m] ++ frames (chunks (q_stream r)) ++ rest).
    rewrite !audio_of_app, audio_of_frames, I3. done.
Qed.

Lemma announce_length cursor segs : length (announce cursor segs) = length segs.
Proof. revert cursor. induction segs as [|s segs IH]; intros cursor; cbn; [done|]. by rewrite IH. Qed.

(** A synthesizer that has audio for every text that is not blank. *)
Definition complete (z : Synthesizer) : Prop :=
  forall s, ~ blank s -> exists cs, synthesizedAudioStream z s = Some (mkStream cs EOF).

Lemma worker_spec z clauses :
  complete z -> Forall (fun c => TrimSpace (pc_Text c) = pc_Text c /\ pc_Text c <> []) clauses ->
  let results := runWorker z (concat (map enqueueClause clauses)) in
  map (fun r => Segment_Text (q_segment r)) results = map pc_Text clauses /\
  map (fun r => Segment_Index (q_segment r)) results = map pc_Index clauses /\
  Forall (fun r => ending (q_stream r) = EOF) results.
Proof.
  intros Hz Hc. cbv zeta. induction Hc as [|c clauses [H1 H2] _ IH]; [by repeat constructor|].
  cbn [map concat]. unfold enqueueClause at 1 3 5. cbv zeta. rewrite H1.
  assert ((pc_Text c == "") = false) as -> by (by apply text_eqb_false). cbn [app runWorker].
  unfold synthesizedPlannedClauseStream. cbn [pc_Text]. destruct (Hz (pc_Text c)) as [cs ->]; [intros Hb; by rewrite <- H1 in H2|].
  cbn [map q_segment q_stream]. destruct IH as (I1 & I2 & I3). rewrite I1, I2.
  unfold playbackSegmentForClause. cbn [Segment_Text Segment_Index pc_Text pc_Index]. rewrite H1.
  repeat split; by constructor.
Qed.

Definition answer_results (z : Synthesizer) (deltas : list text) (final : text) (p : SpeechPlanner)
    : list queuedSpeechAudioResult :=
  runWorker z (concat (map enqueueClause (plan_answer deltas final p))).

(** The way of an answer through the worker and the player. *)
Lemma answer_is_played z cfg deltas final meta :
  complete z -> Forall (fun d => TrimSpace d <> []) deltas -> concat deltas `prefix_of` final ->
  let results := answer_results z deltas final (NewSpeechPlanner cfg) in
  len results <= max_int64 ->
  exists evs, play meta results = Some (evs, PlayedOut) /\
  map SegmentIndex (announcements evs) = seqZ 1 (len (announcements evs)) /\
  words (concat (map meta_Text (announcements evs))) = words final /\
  (forall m, last (announcements evs) = Some m -> words (TextAfter m) = words final) /\
  audio_of evs = concat (map (fun r => concat (chunks (q_stream r))) results).
Proof.
  intros Hz Hd Hp. cbv zeta. unfold answer_results.
  destruct (observe_all deltas (NewSpeechPlanner cfg)) as [p early] eqn:Eo.
  destruct (plan_answer_facts cfg deltas final early p Hd Hp Eo) as (late & Hpl & Hw & Hi & Hc & _ & _).
  destruct (worker_spec z _ Hz Hc) as (W1 & W2 & W3). set (results := runWorker z _) in *. intros Hmax.
  assert (Hseg : len (map segment_of results) = len results) by (unfold len; by rewrite length_map).
  destruct (announce_facts meta (map segment_of results)) as (A1 & A2 & A3 & A4); [by rewrite Hseg|].
  set (ms := announce (initial_cursor meta) (map segment_of results)) in *.
  assert (Hlm : length ms = length results) by (unfold ms; by rewrite announce_length, length_map).
  destruct (expected_all_ended ms results Hlm W3) as (E1 & E2 & E3).
  exists (expected_events ms results).1. rewrite E2.
  assert (Htexts : concat (map (fun s => TrimSpace (seg_text s)) (map segment_of results)) = spoken (plan_answer deltas final (NewSpeechPlanner cfg))).
  { unfold spoken. f_equal. rewrite <- W1, map_map. apply map_ext_in. intros r Hr. cbn [segment_of seg_text].
    assert (Hin : In (Segment_Text (q_segment r)) (map pc_Text (plan_answer deltas final (NewSpeechPlanner cfg)))).
    { rewrite <- W1. apply in_map_iff. by exists r. }
    apply in_map_iff in Hin as (c & <- & Hin). rewrite Forall_forall in Hc.
    by apply Hc, list_elem_of_In. }
  assert (Hmeta : map meta_Text ms = map (fun s => TrimSpace (seg_text s)) (map segment_of results)).
  { apply announce_spec; [apply trimmed_nil | cbn; lia | cbn [initial_cursor SegmentIndex]; by rewrite Hseg]. }
  split; [|split; [|split; [|split]]].
  - unfold play. rewrite player_results by lia. unfold ms in *. rewrite <- E1. by destruct (expected_events _ results).
  - rewrite A1. f_equal. unfold len. rewrite length_map. by rewrite Hlm.
  - by rewrite Hmeta, Htexts.
  - intros m Hm. rewrite last_lookup in Hm. destruct (A4 _ m Hm) as (_ & -> & _).
    rewrite take_ge; [by rewrite Htexts|]. rewrite length_map. pose proof (length_zero_iff_nil ms). lia.
  - exact E3.
Qed.

(** C4. From the model's answer to the client's ear. When no delta is blank, the
    final text extends the deltas, and the synthesizer has audio for every clause,
    the player plays the whole answer out: the announced segments are numbered 1,
    2, 3, ...; their texts, end to end, are the final text up to white space; the
    last announcement carries that whole text as the text delivered; and the
    frames, end to end, are the audio of the clauses in order. *)
Theorem answer_reaches_the_client z cfg deltas final meta :
  complete z -> Forall (fun d => TrimSpace d <> []) deltas -> concat deltas `prefix_of` final ->
  let results := answer_results z deltas final (NewSpeechPlanner cfg) in
  len results <= max_int64 ->
  exists evs, play meta results = Some (evs, PlayedOut) /\
  map SegmentIndex (announcements evs) = seqZ 1 (len (announcements evs)) /\
  words (concat (map meta_Text (announcements evs))) = words final /\
  (forall m, last (announcements evs) = Some m -> words (TextAfter m) = words final) /\
  audio_of evs = concat (map (fun r => concat (chunks (q_stream r))) results).
Proof. apply answer_is_played. Qed.

(** A synthesizer that answers the same half second to everything. *)
Definition demo_synthesizer : Synthesizer :=
  mkSynthesizer None (fun _ => Some (repeat Byte.x2a 1700, 16000, 1)).

Lemma demo_complete : complete demo_synthesizer.
Proof.
  intros s _. exists [repeat Byte.x2a 640; repeat Byte.x2a 640; repeat Byte.x2a 420].
  unfold synthesizedAudioStream, demo_synthesizer, bufferedSynthesisAudio. cbn [StreamSynthesize Synthesize].
  vm_compute. reflexivity.
Qed.

Lemma answer_reaches_the_client_witness :
  let deltas := texts ["好的，我来帮你看一下。今"; "天天气"; "很好"] in
  let final := txt "好的，我来帮你看一下。今天天气很好，适合出门。" in
  let results := answer_results demo_synthesizer deltas final demo_planner in
  len results = 2 /\
  exists evs, play demo_meta results = Some (evs, PlayedOut) /\
  map SegmentIndex (announcements evs) = seqZ 1 (len (announcements evs)) /\
  words (concat (map meta_Text (announcements evs))) = words final /\
  (forall m, last (announcements evs) = Some m -> words (TextAfter m) = words final) /\
  audio_of evs = concat (map (fun r => concat (chunks (q_stream r))) results).
Proof.
  cbv zeta. assert (Hlen : len (answer_results demo_synthesizer (texts ["好的，我来帮你看一下。今"; "天天气"; "很好"])
      (txt "好的，我来帮你看一下。今天天气很好，适合出门。") demo_planner) = 2) by (vm_compute; reflexivity).
  split; [exact Hlen|].
  apply (answer_reaches_the_client demo_synthesizer (mkPlannerConfig true 0 0)
    (texts ["好的，我来帮你看一下。今"; "天天气"; "很好"]) (txt "好的，我来帮你看一下。今天天气很好，适合出门。") demo_meta).
  - exact demo_complete.
  - repeat constructor; by vm_compute.
  - exists (txt "，适合出门。"). vm_compute. reflexivity.
  - change (len (answer_results demo_synthesizer (texts ["好的，我来帮你看一下。今"; "天天气"; "很好"])
      (txt "好的，我来帮你看一下。今天天气很好，适合出门。") demo_planner) <= max_int64). rewrite Hlen. by vm_compute.
Defined.
