(* ===== verification/BargeInRuntime.v ===== *)
(** * Audio that arrives while the server speaks
      (internal/gateway/barge_in_runtime.go)

    Until a barge-in is decided, incoming frames are staged beside the session;
    when the playback ends they are flushed into it, so the user's first words
    are part of the next turn. *)

From S2P Require Import Prelude GoText GoFloat Contracts Session.

Record pendingBargeInAudio := mkPending { pending_chunks : list (list byte); pending_audioBytes : Z }.

Definition zero_pending : pendingBargeInAudio := mkPending [] 0.

(** The part of a connection these methods use. *)
Record connectionRuntime := mkRuntime { rt_session : RealtimeSession; pendingBargeIn : pendingBargeInAudio }.

Definition stagePendingBargeInAudio (payload : list byte) (r : connectionRuntime) : connectionRuntime :=
  if len payload =? 0 then r
  else mkRuntime (rt_session r)
         (mkPending (pending_chunks (pendingBargeIn r) ++ [payload])
            (i64 (pending_audioBytes (pendingBargeIn r) + len payload))).

Definition hasPendingBargeInAudio (r : connectionRuntime) : bool := 0 <? len (pending_chunks (pendingBargeIn r)).
Definition pendingBargeInAudioBytes (r : connectionRuntime) : Z := pending_audioBytes (pendingBargeIn r).
Definition resetPendingBargeInAudio (r : connectionRuntime) : connectionRuntime := mkRuntime (rt_session r) zero_pending.

Definition pendingBargeInPreview (base : InputPreview) (r : connectionRuntime) : InputPreview :=
  let base := if Preview_AudioBytes base <? pending_audioBytes (pendingBargeIn r)
              then base <|Preview_AudioBytes := pending_audioBytes (pendingBargeIn r)|> else base in
  if 0 <? pending_audioBytes (pendingBargeIn r) then base <|SpeechStarted := true|> else base.

(** The staged chunks are gone even when a frame is refused half-way. *)
Fixpoint ingest_chunks (now : instant) (chunks : list (list byte)) (snapshot : Snapshot) (s : RealtimeSession)
    : RealtimeSession * result Error Snapshot :=
  match chunks with
  | [] => (s, Ok snapshot)
  | chunk :: chunks =>
      match IngestOwnedAudioFrame now chunk s with
      | (s, Ok snapshot) => ingest_chunks now chunks snapshot s
      | (s, Err e) => (s, Err e)
      end
  end.

Definition flushPendingBargeInAudio (now : instant) (r : connectionRuntime) : connectionRuntime * result Error Snapshot :=
  let '(s, res) := ingest_chunks now (pending_chunks (pendingBargeIn r)) zero_Snapshot (rt_session r) in
  (mkRuntime s zero_pending, res).

(** [clearInputPreview], as far as the session goes. *)
Definition clearInputPreview_session (now : instant) (s : RealtimeSession) : RealtimeSession :=
  let snapshot := Snapshot_ s in
  if (SessionID snapshot != "") && bool_decide (Snap_InputState snapshot = InputStatePreviewing)
  then (SetInputState now InputStateActive s).1 else s.

(** The snapshot, whether the session stays active, the error. *)
Definition resolvePostPlaybackActiveSnapshot (now : instant) (r : connectionRuntime)
    : connectionRuntime * (result Error (Snapshot * bool)) :=
  let snapshot := Snapshot_ (rt_session r) in
  if SessionID snapshot == "" then (r, Ok (zero_Snapshot, false))
  else
    let keepPreview := bool_decide (Snap_InputState snapshot = InputStatePreviewing) in
    let keepPending := hasPendingBargeInAudio r in
    if negb keepPreview && negb keepPending then
      let r := resetPendingBargeInAudio r in
      (mkRuntime (clearInputPreview_session now (rt_session r)) (pendingBargeIn r), Ok (zero_Snapshot, false))
    else
      match SetOutputState now OutputStateIdle (rt_session r) with
      | (s, Err e) => (mkRuntime s (pendingBargeIn r), Err e)
      | (s, Ok active) =>
          let r := mkRuntime s (pendingBargeIn r) in
          let '(r, flushed) :=
            if keepPending then
              match flushPendingBargeInAudio now r with
              | (r, Err e) => (r, Err e)
              | (r, Ok flushed) => (r, Ok (if SessionID flushed != "" then flushed else active))
              end
            else (r, Ok active) in
          match flushed with
          | Err e => (r, Err e)
          | Ok current =>
              if keepPreview then
                match SetInputState now InputStatePreviewing (rt_session r) with
                | (s, Err e) => (mkRuntime s (pendingBargeIn r), Err e)
                | (s, Ok previewing) => (mkRuntime s (pendingBargeIn r), Ok (previewing, true))
                end
              else (r, Ok (current, true))
          end
      end.

(** ** The session's methods, seen through its specification *)

Lemma abs_active s a : abs s = Some a -> active s = true /\ a = mkAlive (Snap_InputState (current s))
  (Snap_OutputState (current s)) (concat (turnAudioChunks s)) (Turns (current s)).
Proof. unfold abs. destruct (active s); [|done]. by intros [= <-]. Qed.

Lemma set_output_abs now st s a :
  abs s = Some a -> exists s' snap, SetOutputState now st s = (s', Ok snap) /\
  abs s' = Some (a <|a_output := normalizeOutputState st|>).
Proof.
  intros H. destruct (abs_active _ _ H) as [Ha ->]. unfold SetOutputState. rewrite Ha. cbn [negb].
  eexists _, _. split; [reflexivity|]. unfold abs. cbn. by rewrite Ha.
Qed.

Lemma set_input_abs now st s a :
  abs s = Some a -> exists s' snap, SetInputState now st s = (s', Ok snap) /\
  abs s' = Some (a <|a_input := normalizeInputState st|>).
Proof.
  intros H. destruct (abs_active _ _ H) as [Ha ->]. unfold SetInputState. rewrite Ha. cbn [negb].
  eexists _, _. split; [reflexivity|]. unfold abs. cbn. by rewrite Ha.
Qed.

Lemma ingest_abs now p s a :
  abs s = Some a -> exists s' snap, IngestOwnedAudioFrame now p s = (s', Ok snap) /\
  abs s' = Some (mkAlive InputStateActive (a_output a) (a_pending a ++ p) (a_turns a)).
Proof.
  intros H. destruct (abs_active _ _ H) as [Ha ->]. unfold IngestOwnedAudioFrame. rewrite Ha. cbn [negb].
  eexists _, _. split; [reflexivity|]. unfold abs. cbn. rewrite ?Ha. by rewrite concat_pending.
Qed.

Lemma ingest_chunks_abs now chunks snap0 s a :
  abs s = Some a -> exists s' snap, ingest_chunks now chunks snap0 s = (s', Ok snap) /\
  abs s' = Some (if len chunks =? 0 then a
                 else mkAlive InputStateActive (a_output a) (a_pending a ++ concat chunks) (a_turns a)).
Proof.
  revert snap0 s a. induction chunks as [|c chunks IH]; intros snap0 s a Ha; cbn [ingest_chunks].
  { by exists s, snap0. }
  destruct (ingest_abs now c s a Ha) as (s1 & sn1 & -> & H1).
  destruct (IH sn1 s1 _ H1) as (s2 & sn2 & -> & H2). exists s2, sn2. split; [done|]. rewrite H2.
  cbn [a_output a_pending a_turns concat]. rewrite !len_zero. destruct chunks as [|d chunks].
  - cbn [concat]. by rewrite app_nil_r.
  - by rewrite <- app_assoc.
Qed.

Lemma stage_all ps s q :
  pending_chunks (pendingBargeIn (fold_left (fun r p => stagePendingBargeInAudio p r) ps (mkRuntime s q)))
    = pending_chunks q ++ List.filter (fun p => negb (len p =? 0)) ps /\
  rt_session (fold_left (fun r p => stagePendingBargeInAudio p r) ps (mkRuntime s q)) = s.
Proof.
  revert q. induction ps as [|p ps IH]; intros q; cbn [fold_left List.filter]; [by rewrite app_nil_r|].
  unfold stagePendingBargeInAudio at 2 4. cbn [rt_session pendingBargeIn].
  destruct (len p =? 0); cbn [negb]; [apply IH|].
  destruct (IH (mkPending (pending_chunks q ++ [p]) (i64 (pending_audioBytes q + len p)))) as [H1 H2].
  rewrite H1, H2. cbn [pending_chunks]. by rewrite <- app_assoc.
Qed.

Lemma concat_nonempty (ps : list (list byte)) :
  concat (List.filter (fun p => negb (len p =? 0)) ps) = concat ps.
Proof.
  induction ps as [|p ps IH]; [done|]. cbn [List.filter concat]. rewrite len_zero.
  destruct p; cbn [negb concat]; by rewrite IH.
Qed.

Lemma has_pending_bytes s q :
  Forall (fun p => p <> []) (pending_chunks q) ->
  hasPendingBargeInAudio (mkRuntime s q) = negb (len (concat (pending_chunks q)) =? 0).
Proof.
  intros Hne. unfold hasPendingBargeInAudio. cbn [pendingBargeIn]. rewrite len_zero.
  destruct (pending_chunks q) as [|p l]; [done|]. apply Forall_cons_1 in Hne as [Hp _]. rewrite len_cons.
  pose proof (len_nonneg l). assert ((0 <? 1 + len l) = true) as -> by lia. by destruct p.
Qed.

(** The end of the playback when the session stays active. *)
Lemma resolve_kept now s a q :
  session_inv s -> abs s = Some a -> Forall (fun p => p <> []) (pending_chunks q) ->
  let previewing := bool_decide (a_input a = InputStatePreviewing) in
  let staged := concat (pending_chunks q) in
  previewing || negb (len staged =? 0) = true ->
  exists r' snapshot b, resolvePostPlaybackActiveSnapshot now (mkRuntime s q) = (r', Ok (snapshot, true)) /\
  pending_chunks (pendingBargeIn r') = [] /\
  ((len staged =? 0) = true -> pendingBargeIn r' = q) /\ ((len staged =? 0) = false -> pendingBargeIn r' = zero_pending) /\
  abs (rt_session r') = Some b /\ a_output b = OutputStateIdle /\
  a_input b = (if previewing then InputStatePreviewing else InputStateActive) /\
  a_pending b = a_pending a ++ staged /\ a_turns b = a_turns a.
Proof.
  intros Hs Ha Hne. cbv zeta. intros Hk. destruct (abs_active _ _ Ha) as [Hact Ea].
  pose proof (inv_id _ Hs) as Hid. rewrite Hact in Hid.
  assert (Hsid : (SessionID (current s) == "") = false) by (apply text_eqb_false; by apply Hid).
  assert (Hin : bool_decide (Snap_InputState (current s) = InputStatePreviewing)
                = bool_decide (a_input a = InputStatePreviewing)) by (by rewrite Ea).
  unfold resolvePostPlaybackActiveSnapshot. rewrite (has_pending_bytes s q Hne). cbn [rt_session pendingBargeIn]. cbv zeta.
  change (SessionID (Snapshot_ s)) with (SessionID (current s)).
  change (Snap_InputState (Snapshot_ s)) with (Snap_InputState (current s)). rewrite Hsid, Hin.
  set (previewing := bool_decide _) in *. set (none := len (concat (pending_chunks q)) =? 0) in *.
  assert (negb previewing && negb (negb none) = false) as -> by (by destruct previewing, none).
  destruct (set_output_abs now OutputStateIdle s a Ha) as (s1 & sn1 & -> & H1).
  cbn [rt_session pendingBargeIn]. unfold flushPendingBargeInAudio. cbn [rt_session pendingBargeIn].
  destruct (ingest_chunks_abs now (pending_chunks q) zero_Snapshot s1 _ H1) as (s2 & sn2 & -> & H2).
  assert (Hlen : none = (len (pending_chunks q) =? 0)).
  { subst none. rewrite !len_zero. destruct (pending_chunks q) as [|p l]; [done|].
    apply Forall_cons_1 in Hne as [Hp _]. by destruct p. }
  rewrite <- Hlen in H2. clearbody none previewing.
  destruct none eqn:En; cbn [negb] in *.
  - assert (previewing = true) as -> by (by destruct previewing). cbn [rt_session pendingBargeIn].
    destruct (set_input_abs now InputStatePreviewing s1 _ H1) as (s3 & sn3 & -> & H3).
    symmetry in Hlen. rewrite len_zero in Hlen. destruct (pending_chunks q) eqn:Eq; [|done].
    eexists _, _, _. split; [reflexivity|]. cbn [pendingBargeIn rt_session concat].
    split; [done|]. split; [done|]. split; [done|]. split; [exact H3|]. read_fields. by rewrite app_nil_r.
  - destruct previewing; cbn [rt_session pendingBargeIn].
    + destruct (set_input_abs now InputStatePreviewing s2 _ H2) as (s3 & sn3 & -> & H3).
      eexists _, _, _. split; [reflexivity|]. cbn [pendingBargeIn rt_session].
      split; [done|]. split; [done|]. split; [done|]. split; [exact H3|]. by read_fields.
    + eexists _, _, _. split; [reflexivity|]. cbn [pendingBargeIn rt_session].
      split; [done|]. split; [done|]. split; [done|]. split; [exact H2|]. by cbn.
Qed.

(** ** The property *)

(** The user's first words survive the end of the playback. Whatever frames
    were staged while the server spoke, when the playback ends on a running
    session no staged frame is left behind and no call fails; if the user was
    being previewed or anything was staged, the session stays active with an idle
    output lane, is previewing exactly if it was, and the audio of its open turn
    is what it had followed by every staged byte in order; otherwise the session
    is left as it was. *)
Theorem staged_audio_reaches_the_turn s a ps now :
  session_inv s -> abs s = Some a ->
  let r := fold_left (fun r p => stagePendingBargeInAudio p r) ps (mkRuntime s zero_pending) in
  let previewing := bool_decide (a_input a = InputStatePreviewing) in
  let keep := previewing || negb (len (concat ps) =? 0) in
  exists r' snapshot, resolvePostPlaybackActiveSnapshot now r = (r', Ok (snapshot, keep)) /\
  pending_chunks (pendingBargeIn r') = [] /\
  (keep = false -> rt_session r' = s) /\
  (keep = true -> exists b, abs (rt_session r') = Some b /\ a_output b = OutputStateIdle /\
     a_input b = (if previewing then InputStatePreviewing else InputStateActive) /\
     a_pending b = a_pending a ++ concat ps /\ a_turns b = a_turns a).
Proof.
  intros Hs Ha. cbv zeta. set (r := fold_left _ ps _).
  destruct (stage_all ps s zero_pending) as [Hc Hr]. fold r in Hc, Hr. cbn [zero_pending pending_chunks app] in Hc.
  clearbody r. destruct r as [s' q]. cbn [rt_session pendingBargeIn] in Hc, Hr. subst s'.
  assert (Hne : Forall (fun p => p <> []) (pending_chunks q)).
  { rewrite Hc. apply Forall_forall. intros p Hp. apply list_elem_of_In, List.filter_In in Hp as [_ Hp]. by destruct p. }
  rewrite <- (concat_nonempty ps), <- Hc.
  destruct (bool_decide (a_input a = InputStatePreviewing) || negb (len (concat (pending_chunks q)) =? 0)) eqn:Ek.
  - destruct (resolve_kept now s a q Hs Ha Hne Ek) as (r' & sn & b & E & P1 & _ & _ & B). exists r', sn.
    split; [exact E|]. split; [done|]. split; [done|]. intros _. by exists b.
  - pose proof (has_pending_bytes s q Hne) as Hp. apply orb_false_iff in Ek as [E1 E2].
    destruct (abs_active _ _ Ha) as [Hact Ea]. rewrite Ea in E1. cbn [a_input] in E1.
    unfold resolvePostPlaybackActiveSnapshot. cbn [rt_session pendingBargeIn]. cbv zeta.
    change (SessionID (Snapshot_ s)) with (SessionID (current s)).
    change (Snap_InputState (Snapshot_ s)) with (Snap_InputState (current s)). rewrite Hp, E1, E2. cbn [negb andb].
    assert (Hsid : (SessionID (current s) == "") = false) by (apply text_eqb_false; by apply (inv_id _ Hs)).
    rewrite Hsid. eexists _, _. split; [reflexivity|]. split; [done|]. split; [|done]. intros _.
    cbn [resetPendingBargeInAudio rt_session pendingBargeIn]. unfold clearInputPreview_session. cbv zeta.
    change (SessionID (Snapshot_ s)) with (SessionID (current s)).
    change (Snap_InputState (Snapshot_ s)) with (Snap_InputState (current s)). by rewrite E1, andb_false_r.
Qed.

Lemma staged_audio_reaches_the_turn_witness :
  let ps := [["001"]%byte; []; ["002"; "003"]%byte] in
  let r := fold_left (fun r p => stagePendingBargeInAudio p r) ps (mkRuntime demo_speaking zero_pending) in
  exists a, abs demo_speaking = Some a /\
  exists r' snapshot, resolvePostPlaybackActiveSnapshot demo_now r = (r', Ok (snapshot, true)) /\
  exists b, abs (rt_session r') = Some b /\ a_pending b = a_pending a ++ ["001"; "002"; "003"]%byte.
Proof.
  cbv zeta. eexists. split; [reflexivity|].
  destruct (staged_audio_reaches_the_turn demo_speaking _ [["001"]%byte; []; ["002"; "003"]%byte] demo_now
    (reachable_inv _ demo_speaking_reachable) eq_refl) as (r' & sn & H1 & _ & _ & H4).
  exists r', sn. split; [exact H1|]. destruct (H4 eq_refl) as (b & B1 & _ & _ & B4 & _). by exists b.
Defined.
