(* ===== verification/PreviewPipeline.v ===== *)
(** * The streaming preview session (internal/voice/asr_responder.go)

    One session follows the words of a turn while they are spoken: it feeds the
    transcriber in small pieces, asks the detector for a preview after each, lets
    the answers of the judge and of the slot parser weigh on it, asks them again
    when the words have moved on, and warms the executor up.

    Three services are outside: the transcriber's stream, which takes a piece and
    may report words at any time; the judge and the slot parser, whose answers
    arrive at any time after they were asked; and the executor that is warmed. All
    the model says of them is in the class [PreviewEnvironment]. *)

From S2P Require Import Prelude GoText GoFloat Contracts Lexical Vocabulary TurnDetector.
From S2P Require Import BargeIn Playback Memory Orchestrator Semantic Rollout Audio.

(** ** Pieces of audio *)

Definition defaultASRStreamingChunkMs : Z := 40.
Definition defaultPreviewPrewarmMinRunes : Z := 4.
Definition defaultBufferedStreamingChunkBytes : Z := 1280.

Definition pcmFrameBytes (sampleRateHz channels frameMs : Z) : Z :=
  if (sampleRateHz <=? 0) || (channels <=? 0) || (frameMs <=? 0) then defaultBufferedStreamingChunkBytes
  else
    let samplesPerChannel := idiv (i64 (sampleRateHz * frameMs)) 1000 in
    if samplesPerChannel <=? 0 then defaultBufferedStreamingChunkBytes
    else i64 (i64 (samplesPerChannel * channels) * 2).

(** The loop is that of [chunkPCM16]. *)
Definition splitPCMForStreaming (audioPCM : bytes) (sampleRateHz channels frameMs : Z) : result go_error (list bytes) :=
  if len audioPCM =? 0 then Ok []
  else
    let frameBytes := pcmFrameBytes sampleRateHz channels frameMs in
    if (frameBytes <=? 0) || (len audioPCM <=? frameBytes) then Ok [audioPCM]
    else chunk_loop (S (length audioPCM)) audioPCM frameBytes 0.

(** ** The session *)

Record asrInputPreviewSession := mkPreviewSession {
  detector : SilenceTurnDetector;
  prewarmer : bool (* whether the executor can be warmed *);
  semanticJudge : bool (* whether there is one *);
  semanticDecision : semanticJudgeRolloutDecision;
  semanticState : previewAnswerState SemanticTurnJudgement;
  semanticMinRunes : Z;
  semanticMinStableFor : duration;
  slotParser : bool;
  slotState : previewAnswerState SemanticSlotParseResult;
  slotParserMinRunes : Z;
  slotParserStableFor : duration;
  previewRequest : InputPreviewRequest;
  minPrewarmRunes : Z;
  lastPrewarmText : text
}.

#[export] Instance PreviewSession_rebuild : Rebuild asrInputPreviewSession := fun s =>
  mkPreviewSession (detector s) (prewarmer s) (semanticJudge s) (semanticDecision s) (semanticState s)
    (semanticMinRunes s) (semanticMinStableFor s) (slotParser s) (slotState s) (slotParserMinRunes s)
    (slotParserStableFor s) (previewRequest s) (minPrewarmRunes s) (lastPrewarmText s).

(** What the session asks of the services outside. *)
Inductive preview_request :=
| AskJudge (key : text) (partial stable : text)
| AskSlots (key : text) (partial stable : text)
| Prewarm (candidate : text).

(** [semanticTurnRequest] and [semanticSlotParseRequest]: the texts both carry;
    the other fields are copied from the preview and the request. *)
Definition request_texts (snapshot : InputPreview) : option (text * text) :=
  let partialText := TrimSpace (PartialText snapshot) in
  let stablePrefix := TrimSpace (StablePrefix snapshot) in
  if (partialText == "") && (stablePrefix == "") then None else Some (partialText, stablePrefix).

Definition maybeLaunchSemanticJudge (snapshot : InputPreview) (s : asrInputPreviewSession)
    : asrInputPreviewSession * list preview_request :=
  if negb (semanticJudge s) || negb (Enabled (semanticDecision s)) then (s, [])
  else if negb (shouldJudgeSemantic snapshot (semanticMinRunes s) (semanticMinStableFor s)) then (s, [])
  else match request_texts snapshot with
  | None => (s, [])
  | Some (partial, stable) =>
      let key := semanticCandidateKey stable partial in
      let '(st, launch) := shouldLaunch key (semanticState s) in
      (s <|semanticState := st|>, if launch then [AskJudge key partial stable] else [])
  end.

Definition mergedSemanticSnapshot (snapshot : InputPreview) (s : asrInputPreviewSession) : InputPreview :=
  match resultFor (semanticCandidateKey (StablePrefix snapshot) (PartialText snapshot)) (semanticState s) with
  | None => snapshot
  | Some result => mergeSemanticJudgement snapshot result
  end.

Definition annotateSemanticJudgeTracing (snapshot : InputPreview) (s : asrInputPreviewSession) : InputPreview :=
  snapshot <|Arbitration := (Arbitration snapshot)
    <|SemanticJudgeVariant := TrimSpace (Variant (semanticDecision s))|>
    <|SemanticJudgeEnabled := Enabled (semanticDecision s)|> |>.

Definition maybeLaunchSlotParser (snapshot : InputPreview) (s : asrInputPreviewSession)
    : asrInputPreviewSession * list preview_request :=
  if negb (slotParser s) then (s, [])
  else if negb (shouldParseSemanticSlots snapshot (slotParserMinRunes s) (slotParserStableFor s)) then (s, [])
  else match request_texts snapshot with
  | None => (s, [])
  | Some (partial, stable) =>
      let key := semanticCandidateKey stable partial in
      let '(st, launch) := shouldLaunch key (slotState s) in
      (s <|slotState := st|>, if launch then [AskSlots key partial stable] else [])
  end.

Definition mergedSlotSnapshot (snapshot : InputPreview) (s : asrInputPreviewSession) : InputPreview :=
  match resultFor (semanticCandidateKey (StablePrefix snapshot) (PartialText snapshot)) (slotState s) with
  | None => snapshot
  | Some result => mergeSemanticSlotParse snapshot result
  end.

(** The candidate is the user text of the warmed turn; its trace metadata is
    left out. *)
Definition maybePrewarm (snapshot : InputPreview) (s : asrInputPreviewSession)
    : asrInputPreviewSession * list preview_request :=
  if negb (prewarmer s) then (s, [])
  else if negb (PrewarmAllowed (Arbitration snapshot)) then (s, [])
  else
    let candidate := TrimSpace (StablePrefix snapshot) in
    let candidate := if (candidate == "") && CommitSuggested snapshot && UtteranceComplete snapshot
                     then TrimSpace (PartialText snapshot) else candidate in
    if (candidate == "") || (candidate == lastPrewarmText s) then (s, [])
    else if len candidate <? minPrewarmRunes s then (s, [])
    else (s <|lastPrewarmText := candidate|>, [Prewarm candidate]).

(** The body of [Poll], and the end of [pushPreviewChunk]. *)
Definition Poll (now : instant) (s : asrInputPreviewSession)
    : asrInputPreviewSession * InputPreview * list preview_request :=
  let '(d, snapshot) := TurnDetector.Snapshot now (detector s) in
  let s := s <|detector := d|> in
  let '(s, asked) := maybeLaunchSemanticJudge snapshot s in
  let snapshot := mergedSemanticSnapshot snapshot s in
  let snapshot := annotateSemanticJudgeTracing snapshot s in
  let '(s, asked') := maybeLaunchSlotParser snapshot s in
  let snapshot := mergedSlotSnapshot snapshot s in
  let '(s, warmed) := maybePrewarm snapshot s in
  (s, snapshot, asked ++ asked' ++ warmed).

(** ** Starting one *)

Record preview_config := mkPreviewConfig {
  pc_turnDetection : SilenceTurnDetectorConfig;
  pc_prewarmer : bool;
  pc_judge : bool;
  pc_judgeMinRunes : Z;
  pc_judgeMinStableFor : duration;
  pc_rollout : SemanticJudgeRolloutConfig;
  pc_slotParser : bool;
  pc_slotMinRunes : Z;
  pc_slotMinStableFor : duration
}.

Definition firstPositiveDuration (primary fallback : duration) : duration := if 0 <? primary then primary else fallback.

Definition defaultSemanticJudgeMinStableFor : duration := 120 * Millisecond.
Definition defaultSemanticSlotParserMinStableFor : duration := 160 * Millisecond.

Definition StartInputPreview (cfg : preview_config) (req : InputPreviewRequest) : asrInputPreviewSession :=
  mkPreviewSession
    (NewSilenceTurnDetector (pc_turnDetection cfg) (pr_SampleRateHz req) (pr_Channels req))
    (pc_prewarmer cfg) (pc_judge cfg) (decideSemanticJudgeRollout req (pc_rollout cfg) (pc_judge cfg))
    newAnswerState (maxInt (pc_judgeMinRunes cfg) defaultSemanticJudgeMinRunes)
    (firstPositiveDuration (pc_judgeMinStableFor cfg) defaultSemanticJudgeMinStableFor)
    (pc_slotParser cfg) newAnswerState (maxInt (pc_slotMinRunes cfg) defaultSemanticSlotParserMinRunes)
    (firstPositiveDuration (pc_slotMinStableFor cfg) defaultSemanticSlotParserMinStableFor)
    req defaultPreviewPrewarmMinRunes [].

(** ** What arrives from outside, at any time *)

Inductive outside_event :=
| Heard (now : instant) (delta : TranscriptionDelta)
| Judged (key : text) (answer : option SemanticTurnJudgement)
| Parsed (key : text) (answer : option SemanticSlotParseResult).

Definition rekey_judgement (key : text) (j : SemanticTurnJudgement) : SemanticTurnJudgement :=
  mkJudgement key (sj_PartialText j) (sj_StablePrefix j) (sj_UtteranceStatus j) (sj_InterruptionIntent j)
    (sj_TaskFamily j) (sj_SlotReadinessHint j) (sj_DynamicWaitPolicy j) (sj_WaitDeltaMs j) (sj_Confidence j)
    (sj_Reason j) (sj_Source j).
Definition rekey_parse (key : text) (r : SemanticSlotParseResult) : SemanticSlotParseResult :=
  mkSlotParse key (sp_PartialText r) (sp_StablePrefix r) (sp_Domain r) (sp_TaskFamily r) (sp_Intent r)
    (sp_SlotStatus r) (sp_Actionability r) (sp_ClarifyNeeded r) (sp_Grounded r) (sp_CanonicalTarget r)
    (sp_CanonicalLocation r) (sp_NormalizedValue r) (sp_NormalizedValueUnit r) (sp_RiskLevel r) (sp_RiskReason r)
    (sp_RiskConfirmRequired r) (sp_MissingSlots r) (sp_AmbiguousSlots r) (sp_Confidence r) (sp_Reason r) (sp_Source r).

(** The transcriber's sink, and the ends of the two goroutines. *)
Definition outside_step (s : asrInputPreviewSession) (e : outside_event) : asrInputPreviewSession :=
  match e with
  | Heard now delta => s <|detector := ObserveTranscriptionDelta now delta (detector s)|>
  | Judged _ None => s <|semanticState := clearRequest (semanticState s)|>
  | Judged key (Some j) => s <|semanticState := storeResult (rekey_judgement key j) (semanticState s)|>
  | Parsed _ None => s <|slotState := clearRequest (slotState s)|>
  | Parsed key (Some r) => s <|slotState := storeResult (rekey_parse key r) (slotState s)|>
  end.

(** ** Pushing audio *)

(** What surrounds a session: the instant before a call, what arrived before it,
    and what a push to the transcriber's stream answers: what it makes arrive, and
    whether it fails. *)
Class PreviewEnvironment (E : Type) := {
  env_arrived : E -> E * list outside_event;
  env_now : E -> E * instant;
  env_push : bytes -> E -> E * (list outside_event * result text unit)
}.

Section Pushing.
Context {E : Type} `{!PreviewEnvironment E}.

Record live_session := mkLive {
  session : asrInputPreviewSession;
  environment : E;
  asked : list preview_request (* everything asked so far *)
}.

Definition arrive (l : live_session) : live_session :=
  let '(e, events) := env_arrived (environment l) in
  mkLive (fold_left outside_step events (session l)) e (asked l).

Definition poll_live (now : instant) (l : live_session) : live_session * InputPreview :=
  let '(s, snapshot, requests) := Poll now (session l) in
  (mkLive s (environment l) (asked l ++ requests), snapshot).

Definition pushPreviewChunk (chunk : bytes) (l : live_session) : live_session * result text InputPreview :=
  let '(e, now) := env_now (environment l) in
  let s := (session l) <|detector := ObserveAudio now (len chunk) (detector (session l))|> in
  let '(e, (events, pushed)) := env_push chunk e in
  let s := fold_left outside_step events s in
  match pushed with
  | Err err => (mkLive s e (asked l), Err err)
  | Ok _ =>
      let '(e, now) := env_now e in
      let '(l, snapshot) := poll_live now (mkLive s e (asked l)) in
      (l, Ok snapshot)
  end.

(** The emitted previews, and the last one or the error. *)
Fixpoint push_pieces (pieces : list bytes) (l : live_session) (previous : InputPreview)
    : live_session * (list InputPreview * result text InputPreview) :=
  match pieces with
  | [] => (l, ([], Ok previous))
  | piece :: pieces =>
      match pushPreviewChunk piece l with
      | (l, Err err) => (l, ([], Err err))
      | (l, Ok snapshot) =>
          let '(l, (emitted, final)) := push_pieces pieces l snapshot in
          (l, (snapshot :: emitted, final))
      end
  end.

Definition PushAudioProgressively (chunk : bytes) (l : live_session)
    : live_session * (list InputPreview * result text InputPreview) :=
  let req := previewRequest (session l) in
  match splitPCMForStreaming chunk (pr_SampleRateHz req) (pr_Channels req) defaultASRStreamingChunkMs with
  | Ok pieces => push_pieces pieces l zero_InputPreview
  | Err _ => (l, ([], Err (txt "panic")))
  end.

(** The session as the orchestrator drives it. *)
#[export] Instance asr_PreviewSession : Orchestrator.PreviewSession live_session := {
  ps_progressive := fun _ => true;
  ps_push := fun _ payload l => PushAudioProgressively payload (arrive l);
  ps_poll := fun now l => poll_live now (arrive l)
}.
End Pushing.
Arguments live_session E : clear implicits.

(** ** Laws: pieces *)

Lemma frame_bytes_bound rate channels frameMs n :
  pcmFrameBytes rate channels frameMs = n -> n <= max_int64.
Proof.
  intros <-. unfold pcmFrameBytes. split_if; [by vm_compute|]. cbv zeta. split_if; [by vm_compute|].
  apply i64_range.
Qed.

Lemma split_spec audio rate channels frameMs :
  len audio <= 2 ^ 61 ->
  exists pieces, splitPCMForStreaming audio rate channels frameMs = Ok pieces /\ concat pieces = audio /\
  Forall (fun p => p <> []) pieces.
Proof.
  intros Hmax. unfold splitPCMForStreaming. rewrite len_zero. destruct audio as [|b audio]; [by exists []|].
  set (whole := b :: audio) in *. cbv zeta. set (n := pcmFrameBytes rate channels frameMs). clearbody n.
  destruct ((n <=? 0) || (len whole <=? n)) eqn:E.
  { exists [whole]. cbn [concat]. rewrite app_nil_r. by repeat constructor. }
  bool_prop. destruct (chunk_loop_spec (S (length whole)) whole n 0) as (cs & H1 & H2 & H3 & _);
    try (unfold max_int64, two63; lia).
  exists cs. split; [exact H1|]. split; [exact H2|]. eapply Forall_impl; [exact H3|].
  intros c Hc ->. cbn in Hc. unfold len in Hc. cbn in Hc. lia.
Qed.

(** ** Laws: what a poll leaves as the detector has it *)

(** The part of a preview the semantic layer does not touch. *)
Definition same_words (p q : InputPreview) : Prop :=
  PartialText p = PartialText q /\ StablePrefix p = StablePrefix q /\ EndpointReason p = EndpointReason q /\
  Preview_AudioBytes p = Preview_AudioBytes q /\ CommitSuggested p = CommitSuggested q /\
  SpeechStarted p = SpeechStarted q.

Lemma same_words_refl p : same_words p p.
Proof. by repeat split. Qed.

Lemma same_words_trans p q r : same_words p q -> same_words q r -> same_words p r.
Proof. unfold same_words. intros (-> & -> & -> & -> & -> & ->). done. Qed.

Lemma merge_judgement_words p j : same_words (mergeSemanticJudgement p j) p.
Proof.
  destruct (sj_CandidateKey j == "") eqn:E; text_prop.
  - unfold mergeSemanticJudgement. rewrite E. apply same_words_refl.
  - destruct (judgement_folds p j E) as (q & a & -> & (Q1 & Q2 & Q3 & Q4 & Q5 & Q6) & _).
    unfold same_words. read_fields. by repeat split.
Qed.

Lemma merge_parse_words p r : same_words (mergeSemanticSlotParse p r) p.
Proof.
  destruct (sp_CandidateKey r == "") eqn:E; text_prop.
  - unfold mergeSemanticSlotParse. rewrite E. apply same_words_refl.
  - destruct (slot_parse_folds p r E) as (a & -> & _). unfold same_words. by read_fields.
Qed.

Lemma merged_words p s :
  same_words (mergedSemanticSnapshot p s) p /\ same_words (mergedSlotSnapshot p s) p /\
  same_words (annotateSemanticJudgeTracing p s) p.
Proof.
  unfold mergedSemanticSnapshot, mergedSlotSnapshot. split; [|split].
  - destruct (resultFor _ (semanticState s)); [apply merge_judgement_words | apply same_words_refl].
  - destruct (resultFor _ (slotState s)); [apply merge_parse_words | apply same_words_refl].
  - unfold annotateSemanticJudgeTracing, same_words. by read_fields.
Qed.

(** The launches and the warm-up leave the detector and the settings alone. *)
Definition same_settings (s t : asrInputPreviewSession) : Prop :=
  detector s = detector t /\ previewRequest s = previewRequest t /\ minPrewarmRunes s = minPrewarmRunes t /\
  prewarmer s = prewarmer t.

Lemma launches_settings p s :
  (same_settings (maybeLaunchSemanticJudge p s).1 s /\
   lastPrewarmText (maybeLaunchSemanticJudge p s).1 = lastPrewarmText s) /\
  (same_settings (maybeLaunchSlotParser p s).1 s /\
   lastPrewarmText (maybeLaunchSlotParser p s).1 = lastPrewarmText s) /\
  same_settings (maybePrewarm p s).1 s.
Proof.
  unfold maybeLaunchSemanticJudge, maybeLaunchSlotParser, maybePrewarm, same_settings. cbv zeta. split; [|split].
  - repeat (split_if; [done|]). destruct (request_texts p) as [[x y]|]; [|done].
    destruct (shouldLaunch _ (semanticState s)) as [st b]. cbn [fst]. by read_fields.
  - repeat (split_if; [done|]). destruct (request_texts p) as [[x y]|]; [|done].
    destruct (shouldLaunch _ (slotState s)) as [st b]. cbn [fst]. by read_fields.
  - repeat (split_if; [done|]). repeat split_if; cbn [fst]; by read_fields.
Qed.

Lemma poll_spec now s :
  let '(s', p, _) := Poll now s in
  detector s' = (TurnDetector.Snapshot now (detector s)).1 /\
  same_words p (TurnDetector.Snapshot now (detector s)).2 /\
  previewRequest s' = previewRequest s /\ minPrewarmRunes s' = minPrewarmRunes s /\ prewarmer s' = prewarmer s.
Proof.
  unfold Poll. destruct (TurnDetector.Snapshot now (detector s)) as [d p] eqn:Ed. cbv zeta.
  set (s0 := s <|detector := d|>).
  assert (H0 : detector s0 = d /\ previewRequest s0 = previewRequest s /\ minPrewarmRunes s0 = minPrewarmRunes s /\
               prewarmer s0 = prewarmer s) by (subst s0; by read_fields).
  destruct (maybeLaunchSemanticJudge p s0) as [s1 a1] eqn:E1.
  destruct (launches_settings p s0) as (((D1 & R1 & M1 & P1) & _) & _). rewrite E1 in D1, R1, M1, P1. cbn [fst] in *.
  set (p1 := annotateSemanticJudgeTracing (mergedSemanticSnapshot p s1) s1).
  destruct (maybeLaunchSlotParser p1 s1) as [s2 a2] eqn:E2.
  destruct (launches_settings p1 s1) as (_ & ((D2 & R2 & M2 & P2) & _) & _). rewrite E2 in D2, R2, M2, P2. cbn [fst] in *.
  destruct (maybePrewarm (mergedSlotSnapshot p1 s2) s2) as [s3 a3] eqn:E3.
  destruct (launches_settings (mergedSlotSnapshot p1 s2) s2) as (_ & _ & (D3 & R3 & M3 & P3)).
  rewrite E3 in D3, R3, M3, P3. cbn [fst snd] in *.
  destruct H0 as (H1 & H2 & H3 & H4). split; [congruence|]. split; [|by repeat split; congruence].
  eapply same_words_trans; [apply merged_words|]. eapply same_words_trans; [apply merged_words|]. apply merged_words.
Qed.

(** ** Warming up *)

Definition warmed (requests : list preview_request) : list text :=
  omap (fun r => match r with Prewarm c => Some c | _ => None end) requests.

Lemma warmed_app a b : warmed (a ++ b) = warmed a ++ warmed b.
Proof. apply omap_app. Qed.

Lemma launches_warm_nothing p s :
  warmed (maybeLaunchSemanticJudge p s).2 = [] /\ warmed (maybeLaunchSlotParser p s).2 = [].
Proof.
  unfold maybeLaunchSemanticJudge, maybeLaunchSlotParser. split.
  - repeat (split_if; [done|]). destruct (request_texts p) as [[x y]|]; [|done].
    by destruct (shouldLaunch _ (semanticState s)) as [st []].
  - repeat (split_if; [done|]). destruct (request_texts p) as [[x y]|]; [|done].
    by destruct (shouldLaunch _ (slotState s)) as [st []].
Qed.

(** A text worth warming up for. *)
Definition warmable (minRunes : Z) (c : text) : Prop := TrimSpace c = c /\ c <> [] /\ minRunes <= len c.

Lemma prewarm_spec p s :
  warmed (maybePrewarm p s).2 = [] /\ lastPrewarmText (maybePrewarm p s).1 = lastPrewarmText s \/
  exists c, warmed (maybePrewarm p s).2 = [c] /\ lastPrewarmText (maybePrewarm p s).1 = c /\
    warmable (minPrewarmRunes s) c /\ c <> lastPrewarmText s /\ PrewarmAllowed (Arbitration p) = true /\
    (c = TrimSpace (StablePrefix p) \/
     c = TrimSpace (PartialText p) /\ CommitSuggested p = true /\ UtteranceComplete p = true).
Proof.
  unfold maybePrewarm. split_if; [by left|]. destruct (PrewarmAllowed (Arbitration p)) eqn:Ep; [|by left].
  cbn [negb]. cbv zeta. set (c := if _ && _ && _ then _ else _).
  assert (Hc : TrimSpace c = c /\ (c = TrimSpace (StablePrefix p) \/
     c = TrimSpace (PartialText p) /\ CommitSuggested p = true /\ UtteranceComplete p = true)).
  { subst c. split_if; [|split; [apply TrimSpace_idemp | by left]]. bool_prop. split; [apply TrimSpace_idemp|].
    right. by repeat split. }
  clearbody c. destruct Hc as [H1 H2]. destruct ((c == "") || (c == lastPrewarmText s)) eqn:E; [by left|].
  split_if; [by left|]. bool_prop. text_prop. right. exists c. cbn [fst snd]. split; [done|].
  split; [by read_fields|]. by repeat split.
Qed.

Lemma poll_warms now s :
  let '(s', _, requests) := Poll now s in
  (warmed requests = [] /\ lastPrewarmText s' = lastPrewarmText s) \/
  exists c, warmed requests = [c] /\ lastPrewarmText s' = c /\ warmable (minPrewarmRunes s) c /\ c <> lastPrewarmText s.
Proof.
  unfold Poll. destruct (TurnDetector.Snapshot now (detector s)) as [d p]. cbv zeta.
  set (s0 := s <|detector := d|>).
  assert (H0 : lastPrewarmText s0 = lastPrewarmText s /\ minPrewarmRunes s0 = minPrewarmRunes s) by (subst s0; by read_fields).
  destruct (maybeLaunchSemanticJudge p s0) as [s1 a1] eqn:E1.
  destruct (launches_settings p s0) as (((_ & _ & M1 & _) & L1) & _). destruct (launches_warm_nothing p s0) as (W1 & _).
  rewrite E1 in M1, L1, W1. cbn [fst snd] in *.
  set (p1 := annotateSemanticJudgeTracing (mergedSemanticSnapshot p s1) s1).
  destruct (maybeLaunchSlotParser p1 s1) as [s2 a2] eqn:E2.
  destruct (launches_settings p1 s1) as (_ & ((_ & _ & M2 & _) & L2) & _). destruct (launches_warm_nothing p1 s1) as (_ & W2).
  rewrite E2 in M2, L2, W2. cbn [fst snd] in *. destruct H0 as [H1 H2].
  destruct (prewarm_spec (mergedSlotSnapshot p1 s2) s2) as [[W L]|(c & W & L & Hok & Hne & _)];
    destruct (maybePrewarm (mergedSlotSnapshot p1 s2) s2) as [s3 a3]; cbn [fst snd] in *;
    rewrite !warmed_app, W1, W2, W; cbn [app].
  - left. split; [done|congruence].
  - right. exists c. split; [done|]. split; [done|]. rewrite M2, M1, H2 in Hok. split; [done|]. congruence.
Qed.

Definition no_repeats (ws : list text) : Prop :=
  forall i c c', ws !! i = Some c -> ws !! S i = Some c' -> c <> c'.

Lemma no_repeats_snoc ws c : no_repeats ws -> last ws <> Some c -> no_repeats (ws ++ [c]).
Proof.
  intros Hn Hl i a b Ha Hb. assert (Hi : (S i < length (ws ++ [c]))%nat) by (by eapply lookup_lt_Some).
  rewrite length_app in Hi. cbn in Hi. rewrite lookup_app_l in Ha by lia.
  destruct (decide (S i < length ws)%nat) as [Hlt|Hge].
  - rewrite lookup_app_l in Hb by lia. by eapply Hn.
  - assert (S i = length ws) as Heq by lia. rewrite Heq, list_lookup_middle in Hb by done. injection Hb as <-.
    intros ->. apply Hl. rewrite last_lookup, <- Heq. exact Ha.
Qed.

Section Live.
Context {E : Type} `{!PreviewEnvironment E}.

(** What a live session keeps to. *)
Record live_inv (l : live_session E) : Prop := {
  li_min : minPrewarmRunes (session l) = defaultPreviewPrewarmMinRunes;
  li_warm : Forall (warmable (minPrewarmRunes (session l))) (warmed (asked l));
  li_last : last (warmed (asked l)) = if lastPrewarmText (session l) == [] then None else Some (lastPrewarmText (session l));
  li_fresh : no_repeats (warmed (asked l))
}.

(** Two sessions that agree on the request and on what was warmed up. *)
Definition same_warmth (s t : asrInputPreviewSession) : Prop :=
  previewRequest s = previewRequest t /\ minPrewarmRunes s = minPrewarmRunes t /\ lastPrewarmText s = lastPrewarmText t.

Lemma same_warmth_trans s t u : same_warmth s t -> same_warmth t u -> same_warmth s u.
Proof. unfold same_warmth. intros (-> & -> & ->). done. Qed.

Lemma outside_warmth s events :
  same_warmth (fold_left outside_step events s) s /\
  audioBytes (detector (fold_left outside_step events s)) = audioBytes (detector s).
Proof.
  revert s. induction events as [|e events IH]; intros s; cbn [fold_left]; [by repeat split|].
  assert (H : same_warmth (outside_step s e) s /\ audioBytes (detector (outside_step s e)) = audioBytes (detector s)).
  { unfold same_warmth. destruct e as [now delta|key [j|]|key [r|]]; cbn [outside_step]; read_fields; repeat split.
    unfold ObserveTranscriptionDelta. cbv zeta. destruct (Delta_Kind delta); repeat split_if; by read_fields. }
  destruct H as [H1 H2], (IH (outside_step s e)) as [H3 H4]. split; [by eapply same_warmth_trans | congruence].
Qed.

Lemma live_inv_warmth s e l :
  same_warmth s (session l) -> live_inv l -> live_inv (mkLive s e (asked l)).
Proof. intros (R & M & L) [H0 H1 H2 H3]. split; cbn [session asked]; rewrite ?M, ?L; done. Qed.

Lemma poll_live_inv now l : live_inv l -> live_inv (poll_live now l).1.
Proof.
  intros [H0 H1 H2 H3]. unfold poll_live. pose proof (poll_spec now (session l)) as Hs. pose proof (poll_warms now (session l)) as Hw.
  destruct (Poll now (session l)) as [[s p] requests]. destruct Hs as (_ & _ & _ & Hm & _). cbn [fst].
  destruct Hw as [[W L]|(c & W & L & Hok & Hne)]; split; cbn [session asked]; rewrite ?warmed_app, ?W, ?L, ?Hm, ?app_nil_r; try done.
  - apply Forall_app. split; [done | by constructor].
  - rewrite last_snoc. destruct Hok as (_ & Hn & _). by apply text_eqb_false in Hn as ->.
  - apply no_repeats_snoc; [done|]. rewrite H2. destruct (lastPrewarmText (session l) == []); congruence.
Qed.

Lemma push_chunk_spec chunk l :
  live_inv l ->
  let '(l', r) := pushPreviewChunk chunk l in
  live_inv l' /\ previewRequest (session l') = previewRequest (session l) /\
  audioBytes (detector (session l')) = i64 (audioBytes (detector (session l)) + len chunk) \/ len chunk <= 0.
Proof.
  intros Hl. unfold pushPreviewChunk. destruct (env_now (environment l)) as [e now].
  set (s := (session l) <|detector := ObserveAudio now (len chunk) (detector (session l))|>).
  destruct (env_push chunk e) as [e1 [events pushed]].
  destruct (outside_warmth s events) as [Hw Hb]. set (s1 := fold_left outside_step events s) in *.
  assert (Hs : same_warmth s (session l)) by (subst s; unfold same_warmth; by read_fields).
  assert (Hd : detector s = ObserveAudio now (len chunk) (detector (session l))) by (subst s; by read_fields).
  assert (Hs1 : same_warmth s1 (session l)) by (by eapply same_warmth_trans).
  destruct (decide (len chunk <= 0)) as [Hz|Hz].
  { destruct pushed; [destruct (env_now e1); destruct (poll_live _ _)|]; by right. }
  assert (Ha : audioBytes (detector s1) = i64 (audioBytes (detector (session l)) + len chunk)).
  { rewrite Hb, Hd. unfold ObserveAudio. assert ((len chunk <=? 0) = false) as -> by lia. by read_fields. }
  destruct pushed as [u|err].
  - destruct (env_now e1) as [e2 now2]. pose proof (live_inv_warmth s1 e2 l Hs1 Hl) as Hl1.
    pose proof (poll_live_inv now2 _ Hl1) as Hl2. unfold poll_live in *. cbn [session] in *.
    pose proof (poll_spec now2 s1) as Hp. destruct (Poll now2 s1) as [[s2 p] requests]. cbn [fst] in *.
    destruct Hp as (Hdet & _ & Hreq & _). left. split; [done|]. cbn [session]. split; [rewrite Hreq; apply Hs1|].
    rewrite Hdet. destruct (Snapshot_frame now2 (detector s1)) as (b & r & -> & _). by read_fields.
  - left. cbn [session]. split; [by apply live_inv_warmth|]. split; [apply Hs1 | done].
Qed.

Lemma last_default {A} (x : A) l d d' : List.last (x :: l) d = List.last (x :: l) d'.
Proof. revert x. induction l as [|y l IH]; intros x; [done|]. exact (IH y). Qed.

Lemma push_pieces_spec pieces l previous :
  live_inv l -> Forall (fun p => p <> []) pieces ->
  let '(l', (emitted, final)) := push_pieces pieces l previous in
  live_inv l' /\ previewRequest (session l') = previewRequest (session l) /\
  (is_Ok final = true ->
     audioBytes (detector (session l')) = (if len pieces =? 0 then audioBytes (detector (session l))
                                           else i64 (audioBytes (detector (session l)) + len (concat pieces)))) /\
  (is_Ok final = true -> length emitted = length pieces /\ final = Ok (List.last emitted previous)).
Proof.
  revert l previous. induction pieces as [|p pieces IH]; intros l previous Hl Hp; cbn [push_pieces].
  { split; [done|]. split; [done|]. by split. }
  apply Forall_cons_1 in Hp as [Hne Hp]. pose proof (push_chunk_spec p l Hl) as H1.
  destruct (pushPreviewChunk p l) as [l1 r]. destruct H1 as [(I1 & R1 & A1)|Hz].
  2: { exfalso. destruct p; [done|]. rewrite len_cons in Hz. pose proof (len_nonneg p). lia. }
  destruct r as [snapshot|err]; [|split; [done|split; [done|by split]]].
  pose proof (IH l1 snapshot I1 Hp) as H2. destruct (push_pieces pieces l1 snapshot) as [l2 [emitted final]].
  destruct H2 as (I2 & R2 & A2 & F2). split; [done|]. split; [congruence|]. split.
  - intros Hok. rewrite (A2 Hok), A1, len_zero, len_zero. cbn [concat]. destruct pieces as [|p' pieces].
    + cbn [concat]. by rewrite app_nil_r.
    + rewrite i64_add_l, len_app. f_equal. lia.
  - intros Hok. destruct (F2 Hok) as [Hlen ->]. cbn [length List.last]. split; [by rewrite Hlen|].
    destruct emitted as [|q emitted]; [done|]. f_equal. apply last_default.
Qed.

Lemma arrive_inv l :
  live_inv l -> live_inv (arrive l) /\ previewRequest (session (arrive l)) = previewRequest (session l) /\
  audioBytes (detector (session (arrive l))) = audioBytes (detector (session l)).
Proof.
  intros Hl. unfold arrive. destruct (env_arrived (environment l)) as [e events]. cbn [session].
  destruct (outside_warmth (session l) events) as [Hw Hb]. split; [by apply live_inv_warmth|]. split; [apply Hw|done].
Qed.

(** The calls of the orchestrator. *)
Inductive live_call := CallPush (payload : bytes) | CallPoll (now : instant).

Definition live_step (l : live_session E) (c : live_call) : live_session E :=
  match c with
  | CallPush payload => (ps_push 0 payload l).1
  | CallPoll now => (ps_poll now l).1
  end.

(** No payload is longer than memory. *)
Definition small_call (c : live_call) : Prop :=
  match c with CallPush payload => len payload <= 2 ^ 61 | CallPoll _ => True end.

Lemma live_step_inv l c : small_call c -> live_inv l -> live_inv (live_step l c).
Proof.
  intros Hc Hl. destruct (arrive_inv l Hl) as (Ha & _ & _). destruct c as [payload|now]; cbn [live_step ps_push ps_poll asr_PreviewSession].
  - cbn [small_call] in Hc. unfold PushAudioProgressively. cbv zeta.
    destruct (split_spec payload (pr_SampleRateHz (previewRequest (session (arrive l))))
      (pr_Channels (previewRequest (session (arrive l)))) defaultASRStreamingChunkMs Hc) as (ps & -> & _ & Hne).
    pose proof (push_pieces_spec ps (arrive l) zero_InputPreview Ha Hne) as H.
    destruct (push_pieces ps (arrive l) zero_InputPreview) as [l' [emitted final]]. by destruct H.
  - by apply poll_live_inv.
Qed.

(** ** Properties *)

(** The executor is warmed up with discipline. Over any calls and anything
    that arrives in between, every text a preview session warms up for is trimmed,
    not empty and at least four runes long, and never the text warmed up for just
    before. *)
Theorem prewarm_discipline cfg req (e : E) calls :
  Forall small_call calls ->
  let ws := warmed (asked (fold_left live_step calls (mkLive (StartInputPreview cfg req) e []))) in
  Forall (fun c => TrimSpace c = c /\ c <> [] /\ 4 <= len c) ws /\ no_repeats ws.
Proof.
  intros Hc. cbv zeta.
  assert (H : live_inv (fold_left live_step calls (mkLive (StartInputPreview cfg req) e []))).
  { apply fold_left_inv; [|intros l c Hin Hl; apply live_step_inv; [by eapply Forall_forall in Hc|done]].
    split; cbn; try done. }
  destruct H as [H0 H1 _ H3]. rewrite H0 in H1. by split.
Qed.

(** The preview hears all of the user. A pushed frame that the transcriber
    accepts reaches it in full: the pieces laid end to end are the frame, the
    detector counts exactly its bytes, one preview is reported per piece and the
    last one is the answer. *)
Theorem preview_hears_the_frame payload (l : live_session E) l' emitted answer :
  live_inv l -> 0 < len payload <= 2 ^ 61 ->
  ps_push 0 payload l = (l', (emitted, Ok answer)) ->
  exists pieces,
    splitPCMForStreaming payload (pr_SampleRateHz (previewRequest (session l)))
      (pr_Channels (previewRequest (session l))) defaultASRStreamingChunkMs = Ok pieces /\
    concat pieces = payload /\ length emitted = length pieces /\ last emitted = Some answer /\
    audioBytes (detector (session l')) = i64 (audioBytes (detector (session l)) + len payload).
Proof.
  intros Hl Hp. cbn [ps_push asr_PreviewSession]. destruct (arrive_inv l Hl) as (Ha & Hr & Hb).
  unfold PushAudioProgressively. cbv zeta. rewrite Hr.
  destruct (split_spec payload (pr_SampleRateHz (previewRequest (session l))) (pr_Channels (previewRequest (session l)))
    defaultASRStreamingChunkMs ltac:(lia)) as (ps & -> & Hcat & Hne).
  pose proof (push_pieces_spec ps (arrive l) zero_InputPreview Ha Hne) as H. intros Hpush. rewrite Hpush in H.
  destruct H as (_ & _ & H1 & H2). destruct (H2 eq_refl) as [H3 H4]. injection H4 as H4. specialize (H1 eq_refl).
  rewrite Hcat, Hb, len_zero in H1. destruct ps as [|p ps]; [cbn [concat] in Hcat; subst payload; change (len []) with 0 in Hp; lia|].
  exists (p :: ps). split; [done|]. split; [done|]. split; [done|]. split; [|done].
  destruct emitted as [|x emitted]; [done|]. rewrite H4. clear.
  destruct (exists_last (l := x :: emitted)) as (xs & y & ->); [done|]. by rewrite last_snoc, List.last_last.
Qed.

(** No model answer commits a turn. Whatever the transcriber, the judge and the
    slot parser have answered, a poll reports the words, the endpoint reason and
    the commit exactly as the detector has them; so the first suggestion to commit
    still needs a partial that is not blank, the minimum of audio and 120 ms of
    silence, and answers can neither add nor withhold it. *)
Theorem answers_never_commit now (l : live_session E) :
  let d := detector (session (arrive l)) in
  let p := (ps_poll now l).2 in
  same_words p (TurnDetector.Snapshot now d).2 /\
  (commitSuggested d = false -> CommitSuggested p = true ->
     TrimSpace (latestPartial d) <> [] /\ lastAudioAt d <> time_zero /\
     cfg_MinAudioMs (NormalizeSilenceTurnDetectorConfig (config d)) <= TurnDetector.audioDurationMs d /\
     120 <= durationMs (time_Sub now (lastAudioAt d))).
Proof.
  cbv zeta. cbn [ps_poll asr_PreviewSession]. unfold poll_live. pose proof (poll_spec now (session (arrive l))) as H.
  destruct (Poll now (session (arrive l))) as [[s p] requests]. destruct H as (_ & Hw & _). cbn [snd].
  split; [exact Hw|]. intros Hc Hs. destruct Hw as (_ & _ & _ & _ & Hw & _). rewrite Hw in Hs.
  exact (commit_evidence now _ Hc Hs).
Qed.
End Live.

(** A late answer undoes a newer request. While the judge works on a newer
    preview, the answer for an older one marks the state idle and takes the place
    of the last result: the newer preview is asked about a second time while its
    first request is still running, and an older answer that comes last discards
    the newer one. *)
Theorem late_answer_relaunches {R : Type} `{!CandidateKeyed R} older newer (r : R) :
  older <> [] -> newer <> [] -> older <> newer -> candidate_key r = older ->
  let s := fold_left answer_step [ELaunch older; ELaunch newer; EAnswer r] newAnswerState in
  lastRequestedKey s = newer /\ (shouldLaunch newer s).2 = true /\
  forall r', candidate_key r' = newer ->
    resultFor newer (answer_step (answer_step s (EAnswer r')) (EAnswer r)) = None.
Proof.
  intros Ho Hn Hne Hr. cbv zeta. cbn [fold_left answer_step newAnswerState].
  assert (E1 : forall s : previewAnswerState R, evaluating s = false -> candidate_key (lastResult s) = [] ->
    shouldLaunch older s = (mkAnswerState true older (lastResult s), true)).
  { intros s H1 H2. unfold shouldLaunch. rewrite H1, H2. cbn [andb]. apply text_eqb_false in Ho as Ho'. rewrite Ho'.
    assert (([] == older) = false) as ->; [by apply text_eqb_false|done]. }
  rewrite E1 by (done || apply zero_key). cbn [fst lastResult].
  apply text_eqb_false in Hn as Hn'. apply text_eqb_false in Hne as Hne'.
  unfold shouldLaunch at 1 2. cbn [evaluating lastRequestedKey lastResult]. change (lastResult newAnswerState) with (zero_answer (R := R)). rewrite zero_key, Hn', Hne'. cbn [andb].
  assert (([] == newer) = false) as -> by (by apply text_eqb_false). cbn [fst storeResult lastRequestedKey].
  split; [done|]. unfold shouldLaunch. cbn [storeResult evaluating lastResult lastRequestedKey]. rewrite Hn'. cbn [andb].
  rewrite Hr, Hne'. split; [done|]. intros r' Hr'. unfold resultFor. cbn [answer_step storeResult lastResult].
  by rewrite Hr, Hn', Hne'.
Qed.

(** ** A concrete preview *)

(** A clock that ticks at every call, and a transcriber that reports the same
    words at every piece. *)
#[local] Instance demo_environment : PreviewEnvironment Z := {
  env_arrived := fun t => (t, []);
  env_now := fun t => (t + 60 * Millisecond, t);
  env_push := fun _ t =>
    (t, ([Heard t (mkTranscriptionDelta TranscriptionDeltaKindPartial "打开客厅的灯" "" 0)], Ok tt))
}.

Definition demo_preview_config : preview_config :=
  mkPreviewConfig (mkDetectorConfig 0 0 "" 0 0) true true 0 0 (mkRolloutConfig "semantic" 100) true 0 0.
Definition demo_preview_request : InputPreviewRequest := mkPreviewRequest "s1" "d1" "" "pcm16le" 16000 1 "zh".
Definition demo_live : live_session Z := mkLive (StartInputPreview demo_preview_config demo_preview_request) Second [].
Definition demo_frame : bytes := repeat Byte.x00 3200.
Definition demo_calls : list live_call :=
  [CallPush demo_frame; CallPush demo_frame; CallPush demo_frame; CallPush demo_frame; CallPush demo_frame;
   CallPoll (3 * Second)].

Lemma prewarm_discipline_witness :
  Forall small_call demo_calls /\
  warmed (asked (fold_left live_step demo_calls demo_live)) = texts ["打开客厅的灯"] /\
  no_repeats (warmed (asked (fold_left live_step demo_calls demo_live))).
Proof.
  assert (H : Forall small_call demo_calls) by (repeat constructor; by vm_compute).
  split; [exact H|]. split; [by vm_compute|].
  exact (proj2 (prewarm_discipline demo_preview_config demo_preview_request Second demo_calls H)).
Defined.

Definition demo_pushed : live_session Z * (list InputPreview * result text InputPreview) := ps_push 0 demo_frame demo_live.
Definition demo_heard : InputPreview := Eval vm_compute in List.last (demo_pushed.2).1 zero_InputPreview.

Lemma demo_live_inv : live_inv demo_live.
Proof. by split. Qed.

Lemma preview_hears_the_frame_witness :
  audioBytes (detector (session demo_live)) = 0 /\
  exists pieces, concat pieces = demo_frame /\ length (demo_pushed.2).1 = length pieces /\
    audioBytes (detector (session demo_pushed.1)) = 3200.
Proof.
  split; [by vm_compute|].
  destruct (preview_hears_the_frame demo_frame demo_live demo_pushed.1 (demo_pushed.2).1 demo_heard
    demo_live_inv ltac:(by vm_compute) ltac:(by vm_compute)) as (ps & _ & H1 & H2 & _ & H3).
  exists ps. split; [exact H1|]. split; [exact H2|]. rewrite H3. by vm_compute.
Defined.
