(* ===== verification/TurnTrace.v ===== *)
(** * Traces of a turn and of an input preview
      (internal/gateway/turn_trace.go, preview_trace.go, preview_logging.go)

    A connection keeps the milestones of the turn it is serving and of the
    preview it is hearing, for the latencies its logs report.  Every method runs
    under the mutex of its state, so it is one step; the clock it reads is an
    argument.  A log line is its message and its list of attributes. *)

From S2P Require Import Prelude GoText GoFloat Contracts.

(** ** Values of log attributes *)

Inductive log_value :=
| LogText (s : text) | LogInt (n : Z) | LogBool (b : bool) | LogFloat (x : float64) | LogTexts (l : list text).

Definition log_attrs := list (text * log_value).

Definition attr (key : string) (v : log_value) : text * log_value := (txt key, v).

(** The attribute a guarded [append] adds. *)
Definition attr_if (b : bool) (key : string) (v : log_value) : log_attrs := if b then [attr key v] else [].

(** The attribute of a text that is not blank, trimmed. *)
Definition attr_text (key : string) (s : text) : log_attrs :=
  attr_if (TrimSpace s != "") key (LogText (TrimSpace s)).

(** ** The trace of a turn *)

Record turnTrace := mkTurnTrace {
  tt_TurnID : text;
  tt_TraceID : text;
  tt_Source : text;
  AcceptedAt : instant;
  ResponseStartedAt : instant;
  FirstTextDeltaAt : instant;
  SpeakingAt : instant;
  FirstAudioChunkAt : instant;
  ActiveAt : instant;
  InterruptedAt : instant;
  CompletedAt : instant
}.

#[export] Instance turnTrace_rebuild : Rebuild turnTrace := fun t =>
  mkTurnTrace (tt_TurnID t) (tt_TraceID t) (tt_Source t) (AcceptedAt t) (ResponseStartedAt t) (FirstTextDeltaAt t)
    (SpeakingAt t) (FirstAudioChunkAt t) (ActiveAt t) (InterruptedAt t) (CompletedAt t).

Definition zero_turnTrace : turnTrace :=
  mkTurnTrace "" "" "" time_zero time_zero time_zero time_zero time_zero time_zero time_zero time_zero.

Record turnTraceState := mkTraceState { trace_counter : Z; trace_current : turnTrace }.

Definition zero_turnTraceState : turnTraceState := mkTraceState 0 zero_turnTrace.

Definition underscore : text := "_".

Definition Begin (now : instant) (sessionID source : text) (s : turnTraceState) : turnTraceState * turnTrace :=
  let counter := i64 (trace_counter s + 1) in
  let turn := mkTurnTrace (txt "turn_" ++ Itoa (UnixNano now) ++ underscore ++ Itoa counter)
                (txt "trace_" ++ sessionID ++ underscore ++ Itoa (UnixNano now) ++ underscore ++ Itoa counter)
                source now time_zero time_zero time_zero time_zero time_zero time_zero time_zero in
  (mkTraceState counter turn, turn).

Definition Current (s : turnTraceState) : turnTrace := trace_current s.

(** The shape of the marks: nothing without a turn, else the update. *)
Definition mark_turn (f : turnTrace -> turnTrace) (s : turnTraceState) : turnTraceState * turnTrace :=
  if tt_TurnID (trace_current s) == "" then (s, zero_turnTrace)
  else let t := f (trace_current s) in (mkTraceState (trace_counter s) t, t).

Definition MarkResponseStart (now : instant) : turnTraceState -> turnTraceState * turnTrace :=
  mark_turn (fun t => t <|ResponseStartedAt := now|>).
Definition MarkSpeaking (now : instant) : turnTraceState -> turnTraceState * turnTrace :=
  mark_turn (fun t => t <|SpeakingAt := now|>).
Definition MarkActive (now : instant) : turnTraceState -> turnTraceState * turnTrace :=
  mark_turn (fun t => t <|ActiveAt := now|>).
Definition MarkInterrupted (now : instant) : turnTraceState -> turnTraceState * turnTrace :=
  mark_turn (fun t => t <|InterruptedAt := now|>).
Definition MarkCompleted (now : instant) : turnTraceState -> turnTraceState * turnTrace :=
  mark_turn (fun t => t <|CompletedAt := now|>).

Definition MarkFirstTextDelta (now : instant) (s : turnTraceState) : turnTraceState * (turnTrace * bool) :=
  if tt_TurnID (trace_current s) == "" then (s, (zero_turnTrace, false))
  else if negb (IsZero (FirstTextDeltaAt (trace_current s))) then (s, (trace_current s, false))
  else let t := (trace_current s) <|FirstTextDeltaAt := now|> in (mkTraceState (trace_counter s) t, (t, true)).

Definition MarkFirstAudioChunk (now : instant) (s : turnTraceState) : turnTraceState * (turnTrace * bool) :=
  if tt_TurnID (trace_current s) == "" then (s, (zero_turnTrace, false))
  else if negb (IsZero (FirstAudioChunkAt (trace_current s))) then (s, (trace_current s, false))
  else let t := (trace_current s) <|FirstAudioChunkAt := now|> in (mkTraceState (trace_counter s) t, (t, true)).

Definition Clear (s : turnTraceState) : turnTraceState := mkTraceState (trace_counter s) zero_turnTrace.

Definition AcceptedElapsedMs (t : turnTrace) (at_ : instant) : Z :=
  if IsZero (AcceptedAt t) || IsZero at_ then 0 else Milliseconds (time_Sub at_ (AcceptedAt t)).

Definition ResponseStartLatencyMs (t : turnTrace) : Z := AcceptedElapsedMs t (ResponseStartedAt t).
Definition FirstTextDeltaLatencyMs (t : turnTrace) : Z := AcceptedElapsedMs t (FirstTextDeltaAt t).
Definition SpeakingLatencyMs (t : turnTrace) : Z := AcceptedElapsedMs t (SpeakingAt t).
Definition FirstAudioChunkLatencyMs (t : turnTrace) : Z := AcceptedElapsedMs t (FirstAudioChunkAt t).
Definition ActiveReturnLatencyMs (t : turnTrace) : Z := AcceptedElapsedMs t (ActiveAt t).
Definition CompletedLatencyMs (t : turnTrace) : Z := AcceptedElapsedMs t (CompletedAt t).

Definition turnTraceLogAttrs (sessionID : text) (t : turnTrace) (extra : log_attrs) : log_attrs :=
  [attr "session_id" (LogText sessionID); attr "turn_id" (LogText (tt_TurnID t));
   attr "trace_id" (LogText (tt_TraceID t)); attr "turn_source" (LogText (tt_Source t))] ++ extra.

(** What is written to a logger that is there. *)
Definition logTurnTraceInfo (msg : string) (sessionID : text) (t : turnTrace) (extra : log_attrs)
    : list (text * log_attrs) :=
  if tt_TurnID t == "" then [] else [(txt msg, turnTraceLogAttrs sessionID t extra)].

Definition markTurnFirstTextDelta (now : instant) (sessionID deltaText : text) (s : turnTraceState)
    : turnTraceState * list (text * log_attrs) :=
  if TrimSpace deltaText == "" then (s, [])
  else
    let '(s, (trace, recorded)) := MarkFirstTextDelta now s in
    if negb recorded then (s, [])
    else (s, logTurnTraceInfo "gateway turn first text delta" sessionID trace
               [attr "first_text_delta_latency_ms" (LogInt (FirstTextDeltaLatencyMs trace));
                attr "delta_text" (LogText (TrimSpace deltaText))]).

Definition markTurnFirstAudioChunk (now : instant) (sessionID : text) (chunkBytes : Z) (s : turnTraceState)
    : turnTraceState * list (text * log_attrs) :=
  if chunkBytes <=? 0 then (s, [])
  else
    let '(s, (trace, recorded)) := MarkFirstAudioChunk now s in
    if negb recorded then (s, [])
    else (s, logTurnTraceInfo "gateway turn first audio chunk" sessionID trace
               [attr "first_audio_chunk_latency_ms" (LogInt (FirstAudioChunkLatencyMs trace));
                attr "audio_chunk_bytes" (LogInt chunkBytes)]).

(** ** The trace of an input preview *)

Record inputPreviewTrace := mkPreviewTrace {
  PreviewID : text;
  pt_SessionID : text;
  pt_StartedAt : instant;
  SpeechStartedAt : instant;
  FirstPartialAt : instant;
  CandidateReadyAt : instant;
  DraftReadyAt : instant;
  AcceptReadyAt : instant;
  SemanticReadyAt : instant;
  SlotReadyAt : instant;
  EndpointCandidateAt : instant;
  CommitSuggestedAt : instant;
  pt_AudioBytes : Z;
  LastPartialText : text;
  pt_EndpointReason : text;
  TurnStage : text;
  pt_CandidateReady : bool;
  pt_DraftReady : bool;
  pt_AcceptReady : bool;
  pt_SemanticReady : bool;
  pt_SemanticComplete : bool;
  pt_SemanticIntent : text;
  pt_SemanticSlotReadiness : text;
  pt_TaskFamily : text;
  pt_SemanticConfidence : float64;
  pt_SlotConstraintRequired : bool;
  pt_SlotReady : bool;
  pt_SlotComplete : bool;
  pt_SlotDomain : text;
  pt_SlotStatus : text;
  pt_SlotActionability : text;
  pt_SlotConfidence : float64;
  pt_SlotMissing : list text;
  pt_SlotAmbiguous : list text;
  pt_BaseWaitMs : Z;
  pt_RuleAdjustMs : Z;
  pt_PunctuationAdjustMs : Z;
  pt_SemanticWaitDeltaMs : Z;
  pt_SlotGuardAdjustMs : Z;
  pt_EffectiveWaitMs : Z;
  HoldReason : text;
  AcceptReason : text
}.

Definition zero_previewTrace : inputPreviewTrace :=
  mkPreviewTrace "" "" time_zero time_zero time_zero time_zero time_zero time_zero time_zero time_zero time_zero
    time_zero 0 "" "" "" false false false false false "" "" "" f_zero false false false "" "" "" f_zero [] []
    0 0 0 0 0 0 "" "".

#[export] Instance inputPreviewTrace_rebuild : Rebuild inputPreviewTrace := fun t =>
  mkPreviewTrace (PreviewID t) (pt_SessionID t) (pt_StartedAt t) (SpeechStartedAt t) (FirstPartialAt t)
    (CandidateReadyAt t) (DraftReadyAt t) (AcceptReadyAt t) (SemanticReadyAt t) (SlotReadyAt t)
    (EndpointCandidateAt t) (CommitSuggestedAt t) (pt_AudioBytes t) (LastPartialText t) (pt_EndpointReason t)
    (TurnStage t) (pt_CandidateReady t) (pt_DraftReady t) (pt_AcceptReady t) (pt_SemanticReady t)
    (pt_SemanticComplete t) (pt_SemanticIntent t) (pt_SemanticSlotReadiness t) (pt_TaskFamily t)
    (pt_SemanticConfidence t) (pt_SlotConstraintRequired t) (pt_SlotReady t) (pt_SlotComplete t) (pt_SlotDomain t)
    (pt_SlotStatus t) (pt_SlotActionability t) (pt_SlotConfidence t) (pt_SlotMissing t) (pt_SlotAmbiguous t)
    (pt_BaseWaitMs t) (pt_RuleAdjustMs t) (pt_PunctuationAdjustMs t) (pt_SemanticWaitDeltaMs t)
    (pt_SlotGuardAdjustMs t) (pt_EffectiveWaitMs t) (HoldReason t) (AcceptReason t).

Record inputPreviewTraceUpdate := mkTraceUpdate {
  FirstPartialObserved : bool;
  SpeechStartedObserved : bool;
  CandidateReadyObserved : bool;
  DraftReadyObserved : bool;
  AcceptReadyObserved : bool;
  SemanticReadyObserved : bool;
  SlotReadyObserved : bool;
  EndpointCandidateObserved : bool;
  CommitSuggestedObserved : bool
}.

Record inputPreviewTraceState := mkPreviewTraceState { preview_counter : Z; preview_current : inputPreviewTrace }.

Definition zero_previewTraceState : inputPreviewTraceState := mkPreviewTraceState 0 zero_previewTrace.

(** A fresh preview: the counter moves on and the milestones are unset. *)
Definition begin_preview (now : instant) (sessionID : text) (s : inputPreviewTraceState) : inputPreviewTraceState :=
  let counter := i64 (preview_counter s + 1) in
  mkPreviewTraceState counter
    (zero_previewTrace
       <|PreviewID := txt "preview_" ++ sessionID ++ underscore ++ Itoa (UnixNano now) ++ underscore ++ Itoa counter|>
       <|pt_SessionID := TrimSpace sessionID|> <|pt_StartedAt := now|>).

Definition name_session (sessionID : text) (t : inputPreviewTrace) : inputPreviewTrace :=
  if pt_SessionID t == "" then t <|pt_SessionID := TrimSpace sessionID|> else t.

Definition ObserveAudio (sessionID : text) (payloadBytes : Z) (now : instant) (s : inputPreviewTraceState)
    : inputPreviewTraceState * inputPreviewTrace :=
  if payloadBytes <=? 0 then (s, preview_current s)
  else
    let s := if PreviewID (preview_current s) == "" then begin_preview now sessionID s else s in
    let t := name_session sessionID (preview_current s) in
    let t := t <|pt_AudioBytes := i64 (pt_AudioBytes t + payloadBytes)|> in
    (mkPreviewTraceState (preview_counter s) t, t).

(** A milestone is stamped the first time its condition holds. *)
Definition first_time (cond : bool) (now at_ : instant) : instant * bool :=
  if cond && IsZero at_ then (now, true) else (at_, false).

Definition stage_text (s : TurnArbitrationStage) : text :=
  match s with
  | StageNone => ""
  | TurnArbitrationStagePreviewOnly => "preview_only"
  | TurnArbitrationStagePrewarmAllowed => "prewarm_allowed"
  | TurnArbitrationStageDraftAllowed => "draft_allowed"
  | TurnArbitrationStageAcceptCandidate => "accept_candidate"
  | TurnArbitrationStageAcceptNow => "accept_now"
  | TurnArbitrationStageWaitForMore => "wait_for_more"
  | StageOther s => s
  end.

(** [firstNonEmpty] of xiaozhi_ws.go: the first value that is not blank, as it is. *)
Fixpoint firstNonEmptyValue (values : list text) : text :=
  match values with
  | [] => ""
  | value :: values => if TrimSpace value != "" then value else firstNonEmptyValue values
  end.

(** The trace a preview is observed on. *)
Definition preview_base (sessionID : text) (preview : InputPreview) (now : instant) (s : inputPreviewTraceState)
    : inputPreviewTraceState :=
  let s := if (PreviewID (preview_current s) == "") && (0 <? Preview_AudioBytes preview)
           then begin_preview now sessionID s else s in
  let t := name_session sessionID (preview_current s) in
  let t := if pt_AudioBytes t <? Preview_AudioBytes preview
           then t <|pt_AudioBytes := Preview_AudioBytes preview|> else t in
  mkPreviewTraceState (preview_counter s) t.

(** The milestones and the other fields a preview sets on a trace. *)
Definition observe_on (preview : InputPreview) (now : instant) (t : inputPreviewTrace)
    : inputPreviewTrace * inputPreviewTraceUpdate :=
  let a := Arbitration preview in
  let partialText := TrimSpace (PartialText preview) in
  let endpointReason := TrimSpace (EndpointReason preview) in
  let stage := TrimSpace (stage_text (Stage a)) in
  let '(speechAt, speech) := first_time (SpeechStarted preview) now (SpeechStartedAt t) in
  let '(partialAt, partial) := first_time (partialText != "") now (FirstPartialAt t) in
  let '(candidateAt, candidate) := first_time (CandidateReady a) now (CandidateReadyAt t) in
  let '(draftAt, draft) := first_time (DraftReady a) now (DraftReadyAt t) in
  let '(acceptAt, accept) := first_time (AcceptReady a) now (AcceptReadyAt t) in
  let '(semanticAt, semantic) := first_time (SemanticReady a) now (SemanticReadyAt t) in
  let '(slotAt, slot) := first_time (SlotReady a) now (SlotReadyAt t) in
  let '(endpointAt, endpoint) := first_time (endpointReason != "") now (EndpointCandidateAt t) in
  let '(commitAt, commit) := first_time (CommitSuggested preview) now (CommitSuggestedAt t) in
  let accepted := CommitSuggested preview || AcceptCandidate a || AcceptNow a in
  ({| PreviewID := PreviewID t; pt_SessionID := pt_SessionID t; pt_StartedAt := pt_StartedAt t;
      SpeechStartedAt := speechAt; FirstPartialAt := partialAt; CandidateReadyAt := candidateAt;
      DraftReadyAt := draftAt; AcceptReadyAt := acceptAt; SemanticReadyAt := semanticAt; SlotReadyAt := slotAt;
      EndpointCandidateAt := endpointAt; CommitSuggestedAt := commitAt; pt_AudioBytes := pt_AudioBytes t;
      LastPartialText := if partialText != "" then partialText else LastPartialText t;
      pt_EndpointReason := if endpointReason != "" then endpointReason else pt_EndpointReason t;
      TurnStage := if stage != "" then stage else TurnStage t;
      pt_CandidateReady := CandidateReady a; pt_DraftReady := DraftReady a; pt_AcceptReady := AcceptReady a;
      pt_SemanticReady := SemanticReady a; pt_SemanticComplete := SemanticComplete a;
      pt_SemanticIntent := TrimSpace (SemanticIntent a);
      pt_SemanticSlotReadiness := TrimSpace (SemanticSlotReadiness a); pt_TaskFamily := TrimSpace (TaskFamily a);
      pt_SemanticConfidence := SemanticConfidence a; pt_SlotConstraintRequired := SlotConstraintRequired a;
      pt_SlotReady := SlotReady a; pt_SlotComplete := SlotComplete a; pt_SlotDomain := TrimSpace (SlotDomain a);
      pt_SlotStatus := TrimSpace (SlotStatus a); pt_SlotActionability := TrimSpace (SlotActionability a);
      pt_SlotConfidence := SlotConfidence a; pt_SlotMissing := SlotMissing a; pt_SlotAmbiguous := SlotAmbiguous a;
      pt_BaseWaitMs := BaseWaitMs a; pt_RuleAdjustMs := RuleAdjustMs a;
      pt_PunctuationAdjustMs := PunctuationAdjustMs a; pt_SemanticWaitDeltaMs := SemanticWaitDeltaMs a;
      pt_SlotGuardAdjustMs := SlotGuardAdjustMs a; pt_EffectiveWaitMs := EffectiveWaitMs a;
      HoldReason := if accepted then txt "" else TrimSpace (Reason a);
      AcceptReason := if accepted then firstNonEmptyValue [endpointReason; TrimSpace (Reason a)] else txt "" |},
   mkTraceUpdate partial speech candidate draft accept semantic slot endpoint commit).

Definition ObservePreview (sessionID : text) (preview : InputPreview) (now : instant) (s : inputPreviewTraceState)
    : inputPreviewTraceState * (inputPreviewTrace * inputPreviewTraceUpdate) :=
  let s := preview_base sessionID preview now s in
  let '(t, update) := observe_on preview now (preview_current s) in
  (mkPreviewTraceState (preview_counter s) t, (t, update)).

Definition PreviewCurrent (s : inputPreviewTraceState) : inputPreviewTrace := preview_current s.

Definition PreviewClear (s : inputPreviewTraceState) : inputPreviewTraceState * inputPreviewTrace :=
  (mkPreviewTraceState (preview_counter s) zero_previewTrace, preview_current s).

(** The milliseconds from the start of the preview to a milestone, 0 when
    either is unset: the body of the nine latencies. *)
Definition latency_ms (at_ : instant) (t : inputPreviewTrace) : Z :=
  if IsZero (pt_StartedAt t) || IsZero at_ then 0 else Milliseconds (time_Sub at_ (pt_StartedAt t)).

Definition FirstPartialLatencyMs (t : inputPreviewTrace) : Z := latency_ms (FirstPartialAt t) t.
Definition SpeechStartLatencyMs (t : inputPreviewTrace) : Z := latency_ms (SpeechStartedAt t) t.
Definition EndpointCandidateLatencyMs (t : inputPreviewTrace) : Z := latency_ms (EndpointCandidateAt t) t.
Definition CommitSuggestedLatencyMs (t : inputPreviewTrace) : Z := latency_ms (CommitSuggestedAt t) t.
Definition CandidateReadyLatencyMs (t : inputPreviewTrace) : Z := latency_ms (CandidateReadyAt t) t.
Definition DraftReadyLatencyMs (t : inputPreviewTrace) : Z := latency_ms (DraftReadyAt t) t.
Definition AcceptReadyLatencyMs (t : inputPreviewTrace) : Z := latency_ms (AcceptReadyAt t) t.
Definition SemanticReadyLatencyMs (t : inputPreviewTrace) : Z := latency_ms (SemanticReadyAt t) t.
Definition SlotReadyLatencyMs (t : inputPreviewTrace) : Z := latency_ms (SlotReadyAt t) t.
Definition ElapsedMs (now : instant) (t : inputPreviewTrace) : Z := latency_ms now t.

Definition appendInputPreviewTraceLogAttrs (attrs : log_attrs) (t : inputPreviewTrace) (now : instant) : log_attrs :=
  if PreviewID t == "" then attrs
  else
    attrs ++
    [attr "preview_id" (LogText (PreviewID t)); attr "preview_audio_bytes" (LogInt (pt_AudioBytes t));
     attr "preview_elapsed_ms" (LogInt (ElapsedMs now t))] ++
    attr_if (negb (IsZero (SpeechStartedAt t))) "preview_speech_start_latency_ms" (LogInt (SpeechStartLatencyMs t)) ++
    attr_if (negb (IsZero (FirstPartialAt t))) "preview_first_partial_latency_ms" (LogInt (FirstPartialLatencyMs t)) ++
    attr_if (negb (IsZero (CandidateReadyAt t))) "preview_candidate_ready_latency_ms" (LogInt (CandidateReadyLatencyMs t)) ++
    attr_if (negb (IsZero (DraftReadyAt t))) "preview_draft_ready_latency_ms" (LogInt (DraftReadyLatencyMs t)) ++
    attr_if (negb (IsZero (AcceptReadyAt t))) "preview_accept_ready_latency_ms" (LogInt (AcceptReadyLatencyMs t)) ++
    attr_if (negb (IsZero (SemanticReadyAt t))) "preview_semantic_ready_latency_ms" (LogInt (SemanticReadyLatencyMs t)) ++
    attr_if (negb (IsZero (SlotReadyAt t))) "preview_slot_ready_latency_ms" (LogInt (SlotReadyLatencyMs t)) ++
    attr_if (negb (IsZero (EndpointCandidateAt t))) "preview_endpoint_candidate_latency_ms"
      (LogInt (EndpointCandidateLatencyMs t)) ++
    attr_if (negb (IsZero (CommitSuggestedAt t))) "preview_commit_suggest_latency_ms" (LogInt (CommitSuggestedLatencyMs t)) ++
    attr_text "preview_endpoint_reason" (pt_EndpointReason t) ++
    attr_text "preview_turn_stage" (TurnStage t) ++
    [attr "preview_candidate_ready" (LogBool (pt_CandidateReady t)); attr "preview_draft_ready" (LogBool (pt_DraftReady t));
     attr "preview_accept_ready" (LogBool (pt_AcceptReady t)); attr "preview_semantic_ready" (LogBool (pt_SemanticReady t));
     attr "preview_semantic_complete" (LogBool (pt_SemanticComplete t)); attr "preview_slot_ready" (LogBool (pt_SlotReady t));
     attr "preview_slot_complete" (LogBool (pt_SlotComplete t))] ++
    attr_text "preview_semantic_intent" (pt_SemanticIntent t) ++
    attr_text "preview_semantic_slot_readiness" (pt_SemanticSlotReadiness t) ++
    attr_text "preview_task_family" (pt_TaskFamily t) ++
    attr_if (f_ltb f_zero (pt_SemanticConfidence t)) "preview_semantic_confidence" (LogFloat (pt_SemanticConfidence t)) ++
    attr_if (pt_SlotConstraintRequired t) "preview_slot_constraint_required" (LogBool true) ++
    attr_text "preview_slot_domain" (pt_SlotDomain t) ++
    attr_text "preview_slot_status" (pt_SlotStatus t) ++
    attr_text "preview_slot_actionability" (pt_SlotActionability t) ++
    attr_if (f_ltb f_zero (pt_SlotConfidence t)) "preview_slot_confidence" (LogFloat (pt_SlotConfidence t)) ++
    attr_if (0 <? len (pt_SlotMissing t)) "preview_slot_missing" (LogTexts (pt_SlotMissing t)) ++
    attr_if (0 <? len (pt_SlotAmbiguous t)) "preview_slot_ambiguous" (LogTexts (pt_SlotAmbiguous t)) ++
    attr_if (0 <? pt_BaseWaitMs t) "preview_base_wait_ms" (LogInt (pt_BaseWaitMs t)) ++
    attr_if (negb (pt_RuleAdjustMs t =? 0)) "preview_rule_adjust_ms" (LogInt (pt_RuleAdjustMs t)) ++
    attr_if (negb (pt_PunctuationAdjustMs t =? 0)) "preview_punctuation_adjust_ms" (LogInt (pt_PunctuationAdjustMs t)) ++
    attr_if (negb (pt_SemanticWaitDeltaMs t =? 0)) "preview_semantic_wait_delta_ms" (LogInt (pt_SemanticWaitDeltaMs t)) ++
    attr_if (negb (pt_SlotGuardAdjustMs t =? 0)) "preview_slot_guard_adjust_ms" (LogInt (pt_SlotGuardAdjustMs t)) ++
    attr_if (0 <? pt_EffectiveWaitMs t) "preview_effective_wait_ms" (LogInt (pt_EffectiveWaitMs t)) ++
    attr_text "preview_hold_reason" (HoldReason t) ++
    attr_text "preview_accept_reason" (AcceptReason t) ++
    attr_text "preview_partial_text" (LastPartialText t).

Definition logInputPreviewTraceInfo (now : instant) (msg sessionID : text) (t : inputPreviewTrace) (extra : log_attrs)
    : list (text * log_attrs) :=
  if PreviewID t == "" then []
  else [(msg, appendInputPreviewTraceLogAttrs
                [attr "session_id" (LogText (firstNonEmpty [sessionID; pt_SessionID t]))] t now ++ extra)].

(** ** Identifiers of turns *)

Inductive trace_op :=
| OpBegin (sessionID source : text) | OpResponseStart | OpFirstTextDelta | OpSpeaking | OpFirstAudioChunk
| OpActive | OpInterrupted | OpCompleted | OpClear.

(** One call under the mutex, and the trace it returns. *)
Definition trace_step (now : instant) (op : trace_op) (s : turnTraceState) : turnTraceState * turnTrace :=
  match op with
  | OpBegin sessionID source => Begin now sessionID source s
  | OpResponseStart => MarkResponseStart now s
  | OpFirstTextDelta => let '(s, (t, _)) := MarkFirstTextDelta now s in (s, t)
  | OpSpeaking => MarkSpeaking now s
  | OpFirstAudioChunk => let '(s, (t, _)) := MarkFirstAudioChunk now s in (s, t)
  | OpActive => MarkActive now s
  | OpInterrupted => MarkInterrupted now s
  | OpCompleted => MarkCompleted now s
  | OpClear => (Clear s, zero_turnTrace)
  end.

Definition begins (op : trace_op) : bool := match op with OpBegin _ _ => true | _ => false end.

(** The turns a run begins. *)
Fixpoint begun (ops : list (instant * trace_op)) (s : turnTraceState) : list turnTrace :=
  match ops with
  | [] => []
  | (now, op) :: ops =>
      let '(s, t) := trace_step now op s in
      if begins op then t :: begun ops s else begun ops s
  end.

Lemma mark_turn_counter f s : trace_counter (mark_turn f s).1 = trace_counter s.
Proof. unfold mark_turn. by destruct (tt_TurnID (trace_current s) == ""). Qed.

Lemma step_counter now op s :
  begins op = false -> trace_counter (trace_step now op s).1 = trace_counter s.
Proof.
  destruct op; intros Hb; try discriminate Hb; cbn [trace_step]; try apply mark_turn_counter; [| |reflexivity].
  - unfold MarkFirstTextDelta. by repeat split_if.
  - unfold MarkFirstAudioChunk. by repeat split_if.
Qed.

Definition turn_id (now : instant) (counter : Z) : text :=
  txt "turn_" ++ Itoa (UnixNano now) ++ underscore ++ Itoa counter.

Lemma turn_id_inj now now' c c' : 0 <= c -> 0 <= c' -> turn_id now c = turn_id now' c' -> c = c'.
Proof.
  intros Hc Hc' E. unfold turn_id in E. apply app_inv_head in E.
  change underscore with [95] in E. cbn [app] in E. apply split_at_separator in E as [_ E]; [by apply Itoa_inj| |]; intros [?|?]%Itoa_runes; lia.
Qed.

Lemma begun_ids ops s t :
  0 <= trace_counter s -> trace_counter s + len ops < two63 -> t ∈ begun ops s ->
  exists now c, tt_TurnID t = turn_id now c /\ trace_counter s < c.
Proof.
  revert s. induction ops as [|[now op] ops IH]; intros s H0 Hlt Ht; cbn [begun] in Ht.
  { by apply not_elem_of_nil in Ht. }
  rewrite len_cons in Hlt. pose proof (len_nonneg ops). destruct (begins op) eqn:Eb.
  - destruct op; try discriminate Eb. cbn [trace_step Begin] in Ht. cbv zeta in Ht.
    rewrite i64_id in Ht by i64_lia. clear Eb. apply elem_of_cons in Ht as [->|Ht].
    + exists now, (trace_counter s + 1). split; [done|lia].
    + apply IH in Ht as (now' & c & -> & Hc); cbn [trace_counter] in *; [|lia|lia]. exists now', c. split; [done|lia].
  - pose proof (step_counter now op s Eb) as Hs. destruct (trace_step now op s) as [s' t']. cbn [fst] in Hs.
    apply IH in Ht as (now' & c & -> & Hc); [|lia|lia]. exists now', c. split; [done|lia].
Qed.

(** The identifiers of the turns of a connection are pairwise different, even
    when turns are begun at the same instant. *)
Lemma turn_ids_are_unique ops s :
  0 <= trace_counter s -> trace_counter s + len ops < two63 -> NoDup (map tt_TurnID (begun ops s)).
Proof.
  revert s. induction ops as [|[now op] ops IH]; intros s H0 Hlt; cbn [begun]; [constructor|].
  rewrite len_cons in Hlt. pose proof (len_nonneg ops). destruct (begins op) eqn:Eb.
  - destruct op; try discriminate Eb. cbn [trace_step Begin]. cbv zeta. rewrite i64_id by i64_lia. cbn [map].
    constructor; [|apply IH; cbn [trace_counter]; lia].
    intros (t & E & Ht)%list_elem_of_fmap.
    apply begun_ids in Ht as (now' & c & Hid & Hc); cbn [trace_counter] in *; [|lia|lia].
    cbn [tt_TurnID] in E. rewrite Hid in E.
    enough (trace_counter s + 1 = c) by lia. eapply turn_id_inj; [lia|lia|exact E].
  - pose proof (step_counter now op s Eb) as Hs. destruct (trace_step now op s) as [s' t']. cbn [fst] in Hs.
    apply IH; lia.
Qed.

(** ** Milestones of a turn *)

Definition turn_milestones (t : turnTrace) : list instant :=
  [ResponseStartedAt t; FirstTextDeltaAt t; SpeakingAt t; FirstAudioChunkAt t; ActiveAt t; InterruptedAt t; CompletedAt t].

(** Every milestone reached lies between the acceptance of the turn and now. *)
Definition trace_ok (now : instant) (t : turnTrace) : Prop :=
  t = zero_turnTrace \/
  (tt_TurnID t <> [] /\ 0 < AcceptedAt t <= now /\
   Forall (fun m => m = time_zero \/ AcceptedAt t <= m <= now) (turn_milestones t)).

Lemma trace_ok_later now now' t : now <= now' -> trace_ok now t -> trace_ok now' t.
Proof.
  intros Hle [->|(Hid & Ha & Hm)]; [by left|]. right. split; [done|]. split; [lia|].
  eapply Forall_impl; [exact Hm|]. cbn. intros m [?|?]; [by left|right; lia].
Qed.

Lemma mark_turn_ok now f s :
  (forall t, tt_TurnID (f t) = tt_TurnID t /\ AcceptedAt (f t) = AcceptedAt t /\
     Forall (fun m => m = now \/ m ∈ turn_milestones t) (turn_milestones (f t))) ->
  0 < now -> trace_ok now (trace_current s) -> trace_ok now (trace_current (mark_turn f s).1).
Proof.
  intros Hf H0 Hok. unfold mark_turn. destruct (tt_TurnID (trace_current s) == "") eqn:E; [exact Hok|].
  cbn [fst trace_current]. destruct Hok as [Hz|(Hid & Ha & Hm)]; [by rewrite Hz in E|].
  destruct (Hf (trace_current s)) as (E1 & E2 & E3). right. rewrite E1, E2. split; [done|]. split; [done|].
  eapply Forall_impl; [exact E3|]. cbn. intros m [->|Hin]; [right; lia|].
  rewrite Forall_forall in Hm. by apply Hm.
Qed.

Ltac marks_one :=
  intros ?; split; [reflexivity|]; split; [reflexivity|]; unfold turn_milestones; read_fields;
  repeat (apply Forall_cons; split; [first [by left | right; set_solver]|]); apply Forall_nil; exact I.

Lemma trace_step_ok now op s :
  0 < now -> trace_ok now (trace_current s) -> trace_ok now (trace_current (trace_step now op s).1).
Proof.
  intros H0 Hok. destruct op; cbn [trace_step].
  - right. cbn [Begin fst trace_current tt_TurnID AcceptedAt]. split; [done|]. split; [lia|].
    repeat (apply Forall_cons; split; [by left|]). by apply Forall_nil.
  - apply mark_turn_ok; [marks_one|done|done].
  - unfold MarkFirstTextDelta. destruct (tt_TurnID (trace_current s) == "") eqn:E; [exact Hok|].
    destruct (negb (IsZero (FirstTextDeltaAt (trace_current s)))); [exact Hok|]. cbv zeta. cbn [fst].
    pose proof (mark_turn_ok now (fun t => t <|FirstTextDeltaAt := now|>) s ltac:(marks_one) H0 Hok) as H.
    unfold mark_turn in H. by rewrite E in H.
  - apply mark_turn_ok; [marks_one|done|done].
  - unfold MarkFirstAudioChunk. destruct (tt_TurnID (trace_current s) == "") eqn:E; [exact Hok|].
    destruct (negb (IsZero (FirstAudioChunkAt (trace_current s)))); [exact Hok|]. cbv zeta. cbn [fst].
    pose proof (mark_turn_ok now (fun t => t <|FirstAudioChunkAt := now|>) s ltac:(marks_one) H0 Hok) as H.
    unfold mark_turn in H. by rewrite E in H.
  - apply mark_turn_ok; [marks_one|done|done].
  - apply mark_turn_ok; [marks_one|done|done].
  - apply mark_turn_ok; [marks_one|done|done].
  - by left.
Qed.

(** Where the clock does not run backwards, no latency of a turn is negative or
    longer than the turn so far. *)
Lemma turn_latencies_bounded now t m :
  now - AcceptedAt t < two63 -> trace_ok now t -> m ∈ turn_milestones t ->
  0 <= AcceptedElapsedMs t m <= AcceptedElapsedMs t now.
Proof.
  intros Hs Hok Hm. unfold AcceptedElapsedMs. destruct Hok as [->|(_ & Ha & Hf)].
  { assert (IsZero (AcceptedAt zero_turnTrace) = true) as -> by done. done. }
  rewrite Forall_forall in Hf. specialize (Hf m Hm).
  assert (IsZero (AcceptedAt t) = false) as -> by (unfold IsZero; lia).
  assert (IsZero now = false) as -> by (unfold IsZero; lia). cbn [orb].
  assert (0 <= Milliseconds (time_Sub now (AcceptedAt t))).
  { apply (Milliseconds_mono 0). rewrite time_Sub_exact by i64_lia. lia. }
  destruct Hf as [->|Hf]; [by cbn|].
  assert (IsZero m = false) as -> by (unfold IsZero; lia). split.
  - apply (Milliseconds_mono 0). rewrite time_Sub_exact by i64_lia. lia.
  - apply Milliseconds_mono, time_Sub_mono. lia.
Qed.

(** ** Milestones of a preview *)

Definition preview_milestones (t : inputPreviewTrace) : list instant :=
  [FirstPartialAt t; SpeechStartedAt t; CandidateReadyAt t; DraftReadyAt t; AcceptReadyAt t; SemanticReadyAt t;
   SlotReadyAt t; EndpointCandidateAt t; CommitSuggestedAt t].

Definition update_flags (u : inputPreviewTraceUpdate) : list bool :=
  [FirstPartialObserved u; SpeechStartedObserved u; CandidateReadyObserved u; DraftReadyObserved u;
   AcceptReadyObserved u; SemanticReadyObserved u; SlotReadyObserved u; EndpointCandidateObserved u;
   CommitSuggestedObserved u].

(** What a preview shows of each milestone. *)
Definition preview_conditions (p : InputPreview) : list bool :=
  [TrimSpace (PartialText p) != ""; SpeechStarted p; CandidateReady (Arbitration p); DraftReady (Arbitration p);
   AcceptReady (Arbitration p); SemanticReady (Arbitration p); SlotReady (Arbitration p);
   TrimSpace (EndpointReason p) != ""; CommitSuggested p].

Inductive preview_op := ObserveFrame (payloadBytes : Z) | ObserveSnapshot (preview : InputPreview).

Definition preview_step (sessionID : text) (now : instant) (op : preview_op) (s : inputPreviewTraceState)
    : inputPreviewTraceState * list bool :=
  match op with
  | ObserveFrame n => ((ObserveAudio sessionID n now s).1, [])
  | ObserveSnapshot p => let '(s, (_, u)) := ObservePreview sessionID p now s in (s, update_flags u)
  end.

(** How often the [i]th milestone is reported along a run. *)
Fixpoint reports (sessionID : text) (i : nat) (ops : list (instant * preview_op)) (s : inputPreviewTraceState) : Z :=
  match ops with
  | [] => 0
  | (now, op) :: ops =>
      let '(s, flags) := preview_step sessionID now op s in
      (if nth i flags false then 1 else 0) + reports sessionID i ops s
  end.

Definition preview_run (sessionID : text) (ops : list (instant * preview_op)) (s : inputPreviewTraceState)
    : inputPreviewTraceState :=
  fold_left (fun s o => (preview_step sessionID o.1 o.2 s).1) ops s.

Definition milestone (i : nat) (t : inputPreviewTrace) : instant := nth i (preview_milestones t) time_zero.

(** An observation stamps exactly the milestones that show for the first time. *)
Lemma observe_milestones p now t i :
  let '(t', u) := observe_on p now t in
  let fresh := nth i (preview_conditions p) false && IsZero (milestone i t) in
  nth i (update_flags u) false = fresh /\
  milestone i t' = (if fresh then now else milestone i t) /\
  PreviewID t' = PreviewID t /\ pt_StartedAt t' = pt_StartedAt t /\
  (AcceptReason t' = [] \/ HoldReason t' = []).
Proof.
  unfold observe_on. cbv zeta.
  destruct (first_time (SpeechStarted p) now (SpeechStartedAt t)) as [m1 f1] eqn:E1.
  destruct (first_time (TrimSpace (PartialText p) != "") now (FirstPartialAt t)) as [m2 f2] eqn:E2.
  destruct (first_time (CandidateReady (Arbitration p)) now (CandidateReadyAt t)) as [m3 f3] eqn:E3.
  destruct (first_time (DraftReady (Arbitration p)) now (DraftReadyAt t)) as [m4 f4] eqn:E4.
  destruct (first_time (AcceptReady (Arbitration p)) now (AcceptReadyAt t)) as [m5 f5] eqn:E5.
  destruct (first_time (SemanticReady (Arbitration p)) now (SemanticReadyAt t)) as [m6 f6] eqn:E6.
  destruct (first_time (SlotReady (Arbitration p)) now (SlotReadyAt t)) as [m7 f7] eqn:E7.
  destruct (first_time (TrimSpace (EndpointReason p) != "") now (EndpointCandidateAt t)) as [m8 f8] eqn:E8.
  destruct (first_time (CommitSuggested p) now (CommitSuggestedAt t)) as [m9 f9] eqn:E9.
  assert (Hft : forall c at_ m f, first_time c now at_ = (m, f) ->
            f = c && IsZero at_ /\ m = if c && IsZero at_ then now else at_).
  { intros c at_ m f. unfold first_time. destruct (c && IsZero at_); by intros [= <- <-]. }
  split; [|split; [|split; [done|split; [done|]]]].
  1, 2: unfold milestone, preview_milestones, update_flags, preview_conditions;
    do 9 (destruct i as [|i]; [cbn; eapply Hft; eassumption|]); by destruct i.
  cbn [AcceptReason HoldReason]. destruct (CommitSuggested p || _ || _); [by right|by left].
Qed.

Lemma name_session_keeps sessionID t :
  preview_milestones (name_session sessionID t) = preview_milestones t /\
  PreviewID (name_session sessionID t) = PreviewID t /\ pt_StartedAt (name_session sessionID t) = pt_StartedAt t.
Proof. unfold name_session, preview_milestones. split_if; [|done]. by read_fields. Qed.

Lemma preview_base_keeps sessionID p now s :
  PreviewID (preview_current s) <> [] ->
  let t := preview_current (preview_base sessionID p now s) in
  preview_milestones t = preview_milestones (preview_current s) /\ PreviewID t = PreviewID (preview_current s) /\
  pt_StartedAt t = pt_StartedAt (preview_current s).
Proof.
  intros Hid. unfold preview_base. cbv zeta. pose proof (proj2 (text_eqb_false _ (txt "")) Hid) as E. rewrite E. cbn [andb preview_current].
  destruct (name_session_keeps sessionID (preview_current s)) as (H1 & H2 & H3).
  split_if; [|done]. revert H1. unfold preview_milestones. read_fields. done.
Qed.

(** One step of a running preview. *)
Lemma preview_step_keeps sessionID now op s i :
  PreviewID (preview_current s) <> [] -> 0 < now ->
  let '(s', flags) := preview_step sessionID now op s in
  PreviewID (preview_current s') = PreviewID (preview_current s) /\
  pt_StartedAt (preview_current s') = pt_StartedAt (preview_current s) /\
  (nth i flags false = true -> milestone i (preview_current s) = time_zero /\ milestone i (preview_current s') = now) /\
  (nth i flags false = false -> milestone i (preview_current s') = milestone i (preview_current s)).
Proof.
  intros Hid H0. destruct op as [n|p]; cbn [preview_step].
  - unfold ObserveAudio. pose proof (proj2 (text_eqb_false _ (txt "")) Hid) as E. rewrite E.
    destruct (name_session_keeps sessionID (preview_current s)) as (H1 & H2 & H3). unfold milestone.
    destruct (n <=? 0); cbn [fst preview_current]; (split; [|split; [|split]]); try done;
      rewrite <- ?H1; try (by destruct i); unfold preview_milestones; by read_fields.
  - unfold ObservePreview. cbv zeta. destruct (preview_base_keeps sessionID p now s Hid) as (H1 & H2 & H3).
    set (b := preview_base sessionID p now s) in *.
    pose proof (observe_milestones p now (preview_current b) i) as Ho.
    destruct (observe_on p now (preview_current b)) as [t u]. cbv zeta in Ho. cbn [preview_current].
    destruct Ho as (O1 & O2 & O3 & O4 & _). rewrite O1, O2, O3, O4, H2, H3.
    assert (Hm : milestone i (preview_current b) = milestone i (preview_current s)) by (unfold milestone; by rewrite H1).
    rewrite Hm. split; [done|]. split; [done|]. split; intros Hf; rewrite Hf; [|done].
    apply andb_true_iff in Hf as [_ Hz]. unfold IsZero in Hz. split; [unfold time_zero; lia|done].
Qed.

Lemma reports_bounded sessionID i ops s :
  PreviewID (preview_current s) <> [] -> Forall (fun o => 0 < o.1) ops ->
  0 <= reports sessionID i ops s <= (if IsZero (milestone i (preview_current s)) then 1 else 0) /\
  PreviewID (preview_current (preview_run sessionID ops s)) = PreviewID (preview_current s) /\
  (IsZero (milestone i (preview_current s)) = false ->
     milestone i (preview_current (preview_run sessionID ops s)) = milestone i (preview_current s)).
Proof.
  revert s. induction ops as [|[now op] ops IH]; intros s Hid Hpos; cbn [reports preview_run fold_left].
  { split; [split_if; lia|done]. }
  apply Forall_cons_1 in Hpos as [H0 Hpos]. cbn [fst] in H0.
  pose proof (preview_step_keeps sessionID now op s i Hid H0) as Hs. cbn [fst snd].
  destruct (preview_step sessionID now op s) as [s' flags]. destruct Hs as (Hid' & _ & Ht & Hf). cbn [fst].
  destruct (IH s') as (IH1 & IH2 & IH3); [by rewrite Hid'|done|]. fold (preview_run sessionID ops s') in *.
  rewrite IH2, Hid'. destruct (nth i flags false).
  - destruct (Ht eq_refl) as [-> Hnow]. rewrite Hnow in *.
    assert (IsZero now = false) as E by (unfold IsZero; lia). rewrite E in *. cbn [IsZero time_zero Z.eqb].
    split; [lia|]. split; [done|]. discriminate.
  - rewrite (Hf eq_refl) in *. split; [lia|]. by split.
Qed.

(** A preview reports each of its milestones once. Along any run of audio
    frames and previews on a connection whose preview has begun, with a clock that
    is set, every one of the nine milestones (first partial, speech start,
    candidate, draft, accept, semantic and slot readiness, endpoint candidate,
    commit suggestion) is reported at most once, and not at all when it had been
    reached; a milestone once reached keeps its instant, and the preview its
    identifier. *)
Theorem preview_milestones_once sessionID i ops s :
  PreviewID (preview_current s) <> [] -> Forall (fun o => 0 < o.1) ops ->
  0 <= reports sessionID i ops s <= 1 /\
  (milestone i (preview_current s) <> time_zero ->
     reports sessionID i ops s = 0 /\
     milestone i (preview_current (preview_run sessionID ops s)) = milestone i (preview_current s)) /\
  PreviewID (preview_current (preview_run sessionID ops s)) = PreviewID (preview_current s).
Proof.
  intros Hid Hpos. destruct (reports_bounded sessionID i ops s Hid Hpos) as (H1 & H2 & H3).
  split; [destruct (IsZero _); lia|]. split; [|done]. intros Hm.
  assert (IsZero (milestone i (preview_current s)) = false) as E by (unfold IsZero, time_zero in *; lia).
  rewrite E in H1. split; [lia|by apply H3].
Qed.

Definition demo_preview : InputPreview := zero_InputPreview <|PartialText := txt "hi"|> <|Preview_AudioBytes := 640|>.

Lemma preview_milestones_once_witness :
  let s := (ObserveAudio "s1" 640 5 zero_previewTraceState).1 in
  let ops := [(6, ObserveSnapshot demo_preview); (7, ObserveFrame 640); (8, ObserveSnapshot demo_preview)] in
  PreviewID (preview_current s) <> [] /\ reports "s1" 0 ops s = 1 /\ 0 <= reports "s1" 0 ops s <= 1.
Proof.
  cbv zeta. split; [by vm_compute|]. split; [by vm_compute|].
  apply (preview_milestones_once (txt "s1") 0
    [(6, ObserveSnapshot demo_preview); (7, ObserveFrame 640); (8, ObserveSnapshot demo_preview)]
    (ObserveAudio "s1" 640 5 zero_previewTraceState).1); [by vm_compute|].
  repeat (apply Forall_cons; split; [done|]). by apply Forall_nil.
Defined.

(** A preview either waits for a reason or is accepted for one. *)
Lemma hold_excludes_accept sessionID p now s :
  let t := (ObservePreview sessionID p now s).2.1 in AcceptReason t = [] \/ HoldReason t = [].
Proof.
  cbv zeta. unfold ObservePreview. cbv zeta.
  pose proof (observe_milestones p now (preview_current (preview_base sessionID p now s)) 0) as Ho.
  destruct (observe_on p now _) as [t u]. cbv zeta in Ho. cbn [fst snd]. apply Ho.
Qed.

(** ** Keys of the log *)

Lemma attr_if_keys b key v : map fst (attr_if b key v) `sublist_of` [txt key].
Proof. destruct b; cbn; [done|]. apply sublist_nil_l. Qed.

Lemma keys_app (l1 l2 : log_attrs) k1 k2 :
  map fst l1 `sublist_of` k1 -> map fst l2 `sublist_of` k2 -> map fst (l1 ++ l2) `sublist_of` k1 ++ k2.
Proof. intros H1 H2. rewrite map_app. by apply sublist_app. Qed.

Definition preview_log_keys : list text := texts
  ["preview_id"; "preview_audio_bytes"; "preview_elapsed_ms"; "preview_speech_start_latency_ms";
   "preview_first_partial_latency_ms"; "preview_candidate_ready_latency_ms"; "preview_draft_ready_latency_ms";
   "preview_accept_ready_latency_ms"; "preview_semantic_ready_latency_ms"; "preview_slot_ready_latency_ms";
   "preview_endpoint_candidate_latency_ms"; "preview_commit_suggest_latency_ms"; "preview_endpoint_reason";
   "preview_turn_stage"; "preview_candidate_ready"; "preview_draft_ready"; "preview_accept_ready";
   "preview_semantic_ready"; "preview_semantic_complete"; "preview_slot_ready"; "preview_slot_complete";
   "preview_semantic_intent"; "preview_semantic_slot_readiness"; "preview_task_family";
   "preview_semantic_confidence"; "preview_slot_constraint_required"; "preview_slot_domain"; "preview_slot_status";
   "preview_slot_actionability"; "preview_slot_confidence"; "preview_slot_missing"; "preview_slot_ambiguous";
   "preview_base_wait_ms"; "preview_rule_adjust_ms"; "preview_punctuation_adjust_ms";
   "preview_semantic_wait_delta_ms"; "preview_slot_guard_adjust_ms"; "preview_effective_wait_ms";
   "preview_hold_reason"; "preview_accept_reason"; "preview_partial_text"]%string.

(** The line of a preview names every attribute at most once. *)
Lemma preview_log_names_once t now :
  NoDup (map fst (appendInputPreviewTraceLogAttrs [] t now)).
Proof.
  unfold appendInputPreviewTraceLogAttrs. destruct (PreviewID t == ""); [constructor|]. cbn [app].
  eapply sublist_NoDup; [apply (bool_decide_unpack (NoDup preview_log_keys)); by vm_compute|].
  unfold preview_log_keys, texts, attr_text. cbn [map].
  repeat first [apply attr_if_keys | apply sublist_skip | apply keys_app with (k1 := [_]); [apply attr_if_keys|]].
Qed.
