(* ===== verification/GatewayProfile.v ===== *)
(** * What the gateway offers and when it closes a session
      (internal/gateway/realtime.go, realtime_runtime.go, voice_collaboration.go)

    The profile a transport is configured with, what discovery tells a client of
    it, the features a client and the server agree on, and the deadlines after
    which a session is closed. *)

From S2P Require Import Prelude GoText Session.

Record serverEndpointProfile := mkServerEndpoint {
  se_Available : bool;
  se_MainPathCandidate : bool;
  se_Enabled : bool;
  se_Mode : text;
  se_ClientCommitCompatible : bool;
  se_RequiresStreamingPreview : bool;
  se_MinAudioMs : Z;
  se_SilenceMs : Z;
  se_HintSilenceMs : Z;
  se_IncompleteHoldMs : Z;
  se_LexicalMode : text
}.

#[export] Instance serverEndpointProfile_rebuild : Rebuild serverEndpointProfile := fun p =>
  mkServerEndpoint (se_Available p) (se_MainPathCandidate p) (se_Enabled p) (se_Mode p) (se_ClientCommitCompatible p)
    (se_RequiresStreamingPreview p) (se_MinAudioMs p) (se_SilenceMs p) (se_HintSilenceMs p) (se_IncompleteHoldMs p)
    (se_LexicalMode p).

(** The configuration of a transport, less its logger and the endpoint profile
    that is computed when it is asked for. *)
Record RealtimeProfile := mkProfile {
  WSPath : text;
  ProtocolVersion : text;
  Subprotocol : text;
  LLMProvider : text;
  VoiceProvider : text;
  TTSProvider : text;
  ServerEndpointAvailable : bool;
  ServerEndpointEnabled : bool;
  ServerEndpointMinAudioMs : Z;
  ServerEndpointSilenceMs : Z;
  ServerEndpointLexicalMode : text;
  ServerEndpointIncompleteHoldMs : Z;
  ServerEndpointHintSilenceMs : Z;
  BargeInMinAudioMs : Z;
  BargeInHoldAudioMs : Z;
  AuthMode : text;
  TurnMode : text;
  IdleTimeoutMs : Z;
  MaxSessionMs : Z;
  MaxFrameBytes : Z;
  rp_InputCodec : text;
  rp_InputSampleRate : Z;
  rp_InputChannels : Z;
  rp_OutputCodec : text;
  rp_OutputSampleRate : Z;
  rp_OutputChannels : Z;
  AllowOpus : bool;
  AllowTextInput : bool;
  AllowImageInput : bool
}.

#[export] Instance RealtimeProfile_rebuild : Rebuild RealtimeProfile := fun p =>
  mkProfile (WSPath p) (ProtocolVersion p) (Subprotocol p) (LLMProvider p) (VoiceProvider p) (TTSProvider p)
    (ServerEndpointAvailable p) (ServerEndpointEnabled p) (ServerEndpointMinAudioMs p) (ServerEndpointSilenceMs p)
    (ServerEndpointLexicalMode p) (ServerEndpointIncompleteHoldMs p) (ServerEndpointHintSilenceMs p)
    (BargeInMinAudioMs p) (BargeInHoldAudioMs p) (AuthMode p) (TurnMode p) (IdleTimeoutMs p) (MaxSessionMs p)
    (MaxFrameBytes p) (rp_InputCodec p) (rp_InputSampleRate p) (rp_InputChannels p) (rp_OutputCodec p)
    (rp_OutputSampleRate p) (rp_OutputChannels p) (AllowOpus p) (AllowTextInput p) (AllowImageInput p).

Definition zero_profile : RealtimeProfile :=
  mkProfile "" "" "" "" "" "" false false 0 0 "" 0 0 0 0 "" "" 0 0 0 "" 0 0 "" 0 0 false false false.

Definition serverEndpointProfile_of (p : RealtimeProfile) : serverEndpointProfile :=
  let profile := mkServerEndpoint (ServerEndpointAvailable p) (ServerEndpointAvailable p) (ServerEndpointEnabled p)
                   "" true false 0 0 0 0 "" in
  if negb (ServerEndpointAvailable p) then profile <|se_Mode := txt "unsupported"|>
  else
    profile <|se_RequiresStreamingPreview := true|>
      <|se_MinAudioMs := ServerEndpointMinAudioMs p|> <|se_SilenceMs := ServerEndpointSilenceMs p|>
      <|se_HintSilenceMs := ServerEndpointHintSilenceMs p|>
      <|se_IncompleteHoldMs := ServerEndpointIncompleteHoldMs p|>
      <|se_LexicalMode := ServerEndpointLexicalMode p|>
      <|se_Mode := txt (if ServerEndpointEnabled p then "server_vad_assisted" else "client_commit_only")|>.

Definition base_notes : list text := texts
  ["session.start must be sent before the first inbound binary audio frame";
   "client and server may both terminate the dialog with session.end";
   "bootstrap websocket handler is available at the advertised ws_path";
   "idle timeout is enforced only while the session is active";
   "new inbound audio or session.update interrupt=true can barge into speaking state";
   "inbound audio barge-in now uses a shared adaptive threshold instead of interrupting on the very first frame";
   "clients may negotiate preview_events and playback_ack through session.start capabilities when voice_collaboration advertises them"]%string.

Definition discoveryNotes (p : RealtimeProfile) : list text :=
  base_notes ++
  [if ServerEndpointEnabled p then txt "audio turns may auto-commit through the shared server-endpoint candidate after preview silence; explicit audio.in.commit stays supported"
   else if ServerEndpointAvailable p then txt "shared server-endpointing is now a main-path candidate behind AGENT_SERVER_VOICE_SERVER_ENDPOINT_ENABLED, while explicit audio.in.commit remains the default"
   else txt "user turns currently complete only after explicit audio.in.commit or text.in"].

(** ** What client and server agree on *)

Definition previewEventModePreviewV1 : text := "preview_v1".
Definition playbackAckModeSegmentMarkV1 : text := "segment_mark_v1".
Definition playbackEventSourceServerPreview : text := "server_preview".

Record previewEventsProfile := mkPreviewEvents {
  pe_Enabled : bool; pe_SpeechStart : bool; pe_Partial : bool; pe_EndpointCandidate : bool; pe_Mode : text
}.

Record playbackAckProfile := mkAckProfile {
  pa_Enabled : bool; pa_Started : bool; pa_Mark : bool; pa_Cleared : bool; pa_Completed : bool; pa_Mode : text
}.

Record voiceCollaborationProfile := mkCollaboration { vc_PreviewEvents : previewEventsProfile; vc_PlaybackAck : playbackAckProfile }.

Definition voiceCollaborationProfile_of (p : RealtimeProfile) : voiceCollaborationProfile :=
  let previewEnabled := ServerEndpointEnabled p in
  mkCollaboration
    (mkPreviewEvents previewEnabled previewEnabled previewEnabled previewEnabled previewEventModePreviewV1)
    (mkAckProfile true true true true true playbackAckModeSegmentMarkV1).

(** The capabilities of a [session.start]: [None] is the nil pointer. *)
Record sessionStartCapabilities := mkCapabilities {
  caps_TextInput : bool;
  caps_ImageInput : bool;
  caps_HalfDuplex : bool;
  caps_LocalWakeWord : bool;
  caps_PreviewEvents : bool;
  caps_PlaybackAck : option text
}.

Definition playbackAckMode (c : sessionStartCapabilities) : text :=
  match caps_PlaybackAck c with None => "" | Some mode => TrimSpace mode end.

(** The mode is the only field of the agreed acknowledgement. *)
Record collaborationNegotiation := mkNegotiation { cn_PreviewEvents : bool; cn_PlaybackAckMode : text }.

Definition negotiateVoiceCollaboration (p : RealtimeProfile) (caps : sessionStartCapabilities) : collaborationNegotiation :=
  let collaboration := voiceCollaborationProfile_of p in
  mkNegotiation
    (pe_Enabled (vc_PreviewEvents collaboration) && caps_PreviewEvents caps)
    (match caps_PlaybackAck caps with
     | Some mode =>
         if pa_Enabled (vc_PlaybackAck collaboration) && (TrimSpace mode == playbackAckModeSegmentMarkV1)
         then mode else txt ""
     | None => ""
     end).

Definition PlaybackAckEnabled (n : collaborationNegotiation) : bool := TrimSpace (cn_PlaybackAckMode n) != "".

Definition validatePlaybackAckMode (mode : text) : result text unit :=
  let mode := TrimSpace mode in
  if (mode == "") || (mode == playbackAckModeSegmentMarkV1) then Ok tt
  else Err (txt "unsupported playback_ack.mode " ++ mode).

(** ** Reasons to close *)

Definition reason_text (r : CloseReason) : text :=
  match r with
  | CloseReasonNone => ""
  | CloseReasonClientStop => "client_stop"
  | CloseReasonServerStop => "server_stop"
  | CloseReasonCompleted => "completed"
  | CloseReasonWakeCancelled => "wake_cancelled"
  | CloseReasonDeviceSleep => "device_sleep"
  | CloseReasonNetworkStop => "network_shutdown"
  | CloseReasonIdle => "idle_timeout"
  | CloseReasonMaxDuration => "max_duration"
  | CloseReasonError => "error"
  | CloseReasonOther s => s
  end.

Definition known_reasons : list CloseReason :=
  [CloseReasonNone; CloseReasonClientStop; CloseReasonServerStop; CloseReasonCompleted; CloseReasonWakeCancelled;
   CloseReasonDeviceSleep; CloseReasonNetworkStop; CloseReasonIdle; CloseReasonMaxDuration; CloseReasonError].

(** [session.CloseReason(s)]: the constant that is written so, if there is one. *)
Definition reason_of_text (s : text) : CloseReason :=
  match List.find (fun r => reason_text r == s) known_reasons with Some r => r | None => CloseReasonOther s end.

Definition closeMessageForReason (reason : CloseReason) : text :=
  match reason with
  | CloseReasonIdle => "session closed after idle timeout"
  | CloseReasonMaxDuration => "session reached max duration"
  | CloseReasonCompleted => "server ended the dialog"
  | CloseReasonError => "session closed because of a server error"
  | _ => reason_text reason
  end.

Definition defaultCloseReason (reason fallback : text) : text :=
  if TrimSpace reason == "" then fallback else reason.

(** The reason and message of a session an answer ends. *)
Definition close_directive (endReason endMessage : text) : CloseReason * text :=
  let reason := reason_of_text (defaultCloseReason endReason (reason_text CloseReasonCompleted)) in
  let message := TrimSpace endMessage in
  (reason, if message == "" then closeMessageForReason reason else message).

(** ** Deadlines *)

(** [time.Duration(ms) * time.Millisecond] *)
Definition ms_duration (ms : Z) : duration := i64 (ms * Millisecond).

Definition max_deadline (snapshot : Snapshot) (p : RealtimeProfile) : option instant :=
  if (0 <? MaxSessionMs p) && negb (IsZero (StartedAt snapshot))
  then Some (time_Add (StartedAt snapshot) (ms_duration (MaxSessionMs p))) else None.

Definition idle_deadline (snapshot : Snapshot) (p : RealtimeProfile) : option instant :=
  if bool_decide (Snap_State snapshot = StateActive) && (0 <? IdleTimeoutMs p)
     && negb (IsZero (LastActivityAt snapshot))
  then Some (time_Add (LastActivityAt snapshot) (ms_duration (IdleTimeoutMs p))) else None.

Definition readDeadlineForSnapshot (snapshot : Snapshot) (p : RealtimeProfile) : instant :=
  if SessionID snapshot == "" then time_zero
  else
    let deadline := match max_deadline snapshot p with Some d => d | None => time_zero end in
    match idle_deadline snapshot p with
    | Some idle => if IsZero deadline || time_Before idle deadline then idle else deadline
    | None => deadline
    end.

Definition deadlineCloseReason (snapshot : Snapshot) (p : RealtimeProfile) (now : instant) : option CloseReason :=
  if SessionID snapshot == "" then None
  else if match max_deadline snapshot p with Some d => negb (time_Before now d) | None => false end
  then Some CloseReasonMaxDuration
  else if match idle_deadline snapshot p with Some d => negb (time_Before now d) | None => false end
  then Some CloseReasonIdle
  else None.

(** ** Theorems *)

(** The timeouts of a profile fit a duration. *)
Definition timeouts_fit (p : RealtimeProfile) : Prop :=
  MaxSessionMs p <= 9223372036854 /\ IdleTimeoutMs p <= 9223372036854.

Lemma ms_duration_exact ms : 0 <= ms <= 9223372036854 -> ms_duration ms = ms * Millisecond.
Proof. intros H. unfold ms_duration. apply i64_id. unfold Millisecond. i64_lia. Qed.

Lemma max_deadline_positive snapshot p d :
  0 <= StartedAt snapshot -> timeouts_fit p -> max_deadline snapshot p = Some d -> 0 < d.
Proof.
  intros Hs [Hf _]. unfold max_deadline. destruct (0 <? MaxSessionMs p) eqn:E; [|discriminate]. bool_prop.
  destruct (negb (IsZero (StartedAt snapshot))); [|discriminate]. intros [= <-].
  unfold time_Add. rewrite ms_duration_exact by lia. unfold Millisecond. lia.
Qed.

Lemma idle_deadline_positive snapshot p d :
  0 <= LastActivityAt snapshot -> timeouts_fit p -> idle_deadline snapshot p = Some d -> 0 < d.
Proof.
  intros Hs [_ Hf]. unfold idle_deadline. destruct (bool_decide _); [|discriminate].
  destruct (0 <? IdleTimeoutMs p) eqn:E; [|discriminate]. bool_prop.
  destruct (negb (IsZero (LastActivityAt snapshot))); [|discriminate]. intros [= <-].
  unfold time_Add. rewrite ms_duration_exact by lia. unfold Millisecond. lia.
Qed.

(** The read deadline and the reason to close agree. For a session whose
    instants are set and a profile whose timeouts fit a duration, there is a
    reason to close at an instant exactly when the deadline that was set on the
    connection exists and has been reached; the reason is the maximal duration
    exactly when that one has passed, the idle timeout only while the session is
    active. *)
Theorem close_reason_meets_deadline snapshot p now :
  0 <= StartedAt snapshot -> 0 <= LastActivityAt snapshot -> timeouts_fit p ->
  let deadline := readDeadlineForSnapshot snapshot p in
  (deadlineCloseReason snapshot p now <> None <-> deadline <> time_zero /\ deadline <= now) /\
  (deadlineCloseReason snapshot p now = Some CloseReasonMaxDuration <->
     SessionID snapshot <> [] /\ exists d, max_deadline snapshot p = Some d /\ d <= now) /\
  (deadlineCloseReason snapshot p now = Some CloseReasonIdle -> Snap_State snapshot = StateActive).
Proof.
  intros Hs Hl Hf. cbv zeta. unfold deadlineCloseReason, readDeadlineForSnapshot.
  destruct (SessionID snapshot == "") eqn:Ei.
  { apply text_eqb_true in Ei. split; [|split]; [| |done]; split; intros H; [done|by destruct H|done|by destruct H as [H _]]. }
  assert (Hid : SessionID snapshot <> []) by (by apply text_eqb_false in Ei).
  pose proof (max_deadline_positive snapshot p) as Hm. pose proof (idle_deadline_positive snapshot p) as Hi.
  unfold time_zero, IsZero, time_Before.
  assert (Ha : forall d, idle_deadline snapshot p = Some d -> Snap_State snapshot = StateActive).
  { intros d. unfold idle_deadline. destruct (bool_decide _) eqn:E; [by bool_prop|discriminate]. }
  destruct (max_deadline snapshot p) as [dm|]; destruct (idle_deadline snapshot p) as [di|];
    repeat match goal with
    | H : forall d, _ -> _ -> Some ?x = Some d -> 0 < d |- _ => specialize (H x ltac:(assumption) ltac:(assumption) eq_refl)
    | H : forall d, Some ?x = Some d -> Snap_State _ = _ |- _ => specialize (H x eq_refl)
    end;
    repeat split_if; bool_prop; repeat split; intros; try done; try lia;
    try (match goal with H : _ /\ _ |- _ => destruct H as [? H]; try (destruct H as (? & ? & ?)) end; simplify_eq; lia);
    try (eexists; split; [reflexivity|lia]).
  all: repeat match goal with H : _ \/ _ |- _ => destruct H end; bool_prop; try lia.
Qed.

Definition demo_profile : RealtimeProfile := zero_profile <|MaxSessionMs := 60000|> <|IdleTimeoutMs := 15000|>.

Lemma close_reason_meets_deadline_witness :
  let snapshot := current demo_speaking in
  0 <= StartedAt snapshot /\ 0 <= LastActivityAt snapshot /\ timeouts_fit demo_profile /\
  (deadlineCloseReason snapshot demo_profile (demo_now + 60000 * Millisecond) <> None <->
   readDeadlineForSnapshot snapshot demo_profile <> time_zero /\
   readDeadlineForSnapshot snapshot demo_profile <= demo_now + 60000 * Millisecond).
Proof.
  cbv zeta. split; [by vm_compute|]. split; [by vm_compute|]. split; [by vm_compute|].
  apply (close_reason_meets_deadline (current demo_speaking) demo_profile (demo_now + 60000 * Millisecond));
    by vm_compute.
Defined.

(** The acknowledgements agreed on are those of the one mode the server speaks;
    a mode the server refuses at the start is never agreed. *)
Lemma negotiated_mode p caps :
  let n := negotiateVoiceCollaboration p caps in
  PlaybackAckEnabled n = (playbackAckMode caps == playbackAckModeSegmentMarkV1) /\
  (PlaybackAckEnabled n = true -> validatePlaybackAckMode (playbackAckMode caps) = Ok tt) /\
  (cn_PreviewEvents n = true -> ServerEndpointEnabled p = true /\ caps_PreviewEvents caps = true).
Proof.
  cbv zeta. unfold negotiateVoiceCollaboration, PlaybackAckEnabled, playbackAckMode. cbv zeta.
  cbn [cn_PlaybackAckMode cn_PreviewEvents voiceCollaborationProfile_of vc_PlaybackAck pa_Enabled vc_PreviewEvents pe_Enabled andb].
  split; [|split].
  - destruct (caps_PlaybackAck caps) as [mode|]; [|reflexivity].
    destruct (TrimSpace mode == playbackAckModeSegmentMarkV1) eqn:E; [|reflexivity].
    apply text_eqb_true in E. by rewrite E.
  - destruct (caps_PlaybackAck caps) as [mode|]; [|discriminate].
    destruct (TrimSpace mode == playbackAckModeSegmentMarkV1) eqn:E; [|discriminate]. intros _.
    apply text_eqb_true in E. rewrite E. by vm_compute.
  - by intros [? ?]%andb_true_iff.
Qed.

(** The reason is read back as it was written. *)
Lemma reason_text_round_trip r : r ∈ known_reasons -> reason_of_text (reason_text r) = r.
Proof.
  intros Hr. repeat (apply elem_of_cons in Hr as [->|Hr]; [by vm_compute|]). by apply not_elem_of_nil in Hr.
Qed.

(** A session that ends always says why. *)
Lemma close_directive_speaks endReason endMessage :
  let '(reason, message) := close_directive endReason endMessage in message <> [].
Proof.
  unfold close_directive. cbv zeta. destruct (TrimSpace endMessage == "") eqn:E; [|by apply text_eqb_false in E].
  unfold defaultCloseReason. destruct (TrimSpace endReason == "") eqn:Er; [by vm_compute|].
  apply text_eqb_false in Er. unfold reason_of_text.
  destruct (List.find _ known_reasons) as [r|] eqn:Ef.
  - apply List.find_some in Ef as [Hin Heq]. apply text_eqb_true in Heq.
    assert (Hne : reason_text r <> []) by (rewrite Heq; by intros ->).
    destruct r; cbn in *; try done; by vm_compute.
  - cbn. by intros ->.
Qed.
