(* ===== verification/OutputEffects.v ===== *)
(** * The audio that is being sent: its outcome and its volume
      (internal/gateway/output_outcome.go, output_effects.go)

    The outcome of an output is resolved once and read by whoever waits for it.
    While the user may be interrupting, the output is ducked: the gain moves to a
    target, stays there and comes back, and every PCM sample is scaled by it.  The
    methods run under a mutex, so each is one step; the clock is an argument. *)

From S2P Require Import Prelude GoText GoFloat Audio Contracts Lexical BargeIn.

(** ** The outcome of an output *)

Record turnOutputOutcome := mkOutputOutcome { oc_EndSession : bool; oc_EndReason : text; oc_EndMessage : text }.

Definition zero_outcome : turnOutputOutcome := mkOutputOutcome false "" "".

Record turnOutputOutcomeFuture := mkOutcomeFuture { fu_ready : bool; fu_outcome : turnOutputOutcome }.

Definition newTurnOutputOutcomeFuture : turnOutputOutcomeFuture := mkOutcomeFuture false zero_outcome.

Definition Resolve (outcome : turnOutputOutcome) (f : turnOutputOutcomeFuture) : turnOutputOutcomeFuture :=
  if fu_ready f then f else mkOutcomeFuture true outcome.

Definition resolvedTurnOutputOutcome (outcome : turnOutputOutcome) : turnOutputOutcomeFuture :=
  Resolve outcome newTurnOutputOutcomeFuture.

(** What a waiter reads, [None] while it is blocked; the cancellation of its
    context is the other way out. *)
Definition Wait (f : turnOutputOutcomeFuture) : option turnOutputOutcome :=
  if fu_ready f then Some (fu_outcome f) else None.

Lemma resolved_stays outcomes f : fu_ready f = true -> fold_left (fun f o => Resolve o f) outcomes f = f.
Proof. induction outcomes as [|o outcomes IH]; intros Hf; cbn [fold_left]; [done|]. unfold Resolve at 2. rewrite Hf. by apply IH. Qed.

(** Only the first resolution counts. *)
Lemma first_resolution_wins outcomes :
  Wait (fold_left (fun f o => Resolve o f) outcomes newTurnOutputOutcomeFuture) = head outcomes.
Proof. destruct outcomes as [|o outcomes]; [done|]. cbn [fold_left head]. by rewrite resolved_stays. Qed.

(** ** The gain of a ducked output *)

Record outputEffectState := mkEffect {
  appliedAt : instant;
  attackUntil : instant;
  holdUntil : instant;
  releaseUntil : instant;
  fromGain : float64;
  targetGain : float64
}.

(** The zero value of the struct, and what a finished envelope leaves. *)
Definition zero_effect : outputEffectState := mkEffect time_zero time_zero time_zero time_zero f_zero f_zero.
Definition released_effect : outputEffectState := mkEffect time_zero time_zero time_zero time_zero f_one f_one.

Definition maxDuration (value fallback : duration) : duration := if fallback <? value then value else fallback.

Definition clampGain (gain : float64) : float64 :=
  if f_leb gain f_zero then f_zero else if f_leb f_one gain then f_one else gain.

Definition interpolateGain (from to : float64) (elapsed total : duration) : float64 :=
  if total <=? 0 then to
  else
    let ratio := f_div (f_of_Z elapsed) (f_of_Z total) in
    if f_leb ratio f_zero then from
    else if f_leb f_one ratio then to
    else f_add from (f_mul (f_sub to from) ratio).

Definition currentGainLocked (now : instant) (s : outputEffectState) : outputEffectState * float64 :=
  if IsZero (appliedAt s) then (s, f_one)
  else if time_After (attackUntil s) (appliedAt s) && time_Before now (attackUntil s) then
    (s, interpolateGain (fromGain s) (targetGain s) (time_Sub now (appliedAt s)) (time_Sub (attackUntil s) (appliedAt s)))
  else if time_Before now (holdUntil s) || (now =? holdUntil s) then (s, targetGain s)
  else
    let releaseStart := if IsZero (holdUntil s) then attackUntil s else holdUntil s in
    if time_After (releaseUntil s) releaseStart && time_Before now (releaseUntil s) then
      (s, interpolateGain (targetGain s) f_one (time_Sub now releaseStart) (time_Sub (releaseUntil s) releaseStart))
    else (released_effect, f_one).

Definition CurrentGain : instant -> outputEffectState -> outputEffectState * float64 := currentGainLocked.

Definition ApplyDirective (directive : PlaybackDirective) (now : instant) (s : outputEffectState) : outputEffectState * bool :=
  if negb (ShouldDuckOutput directive) then (s, false)
  else
    let target := clampGain (pd_Gain directive) in
    let '(s, gain) := currentGainLocked now s in
    let attack := time_Add now (maxDuration (pd_Attack directive) 0) in
    let hold := time_Add attack (maxDuration (pd_Hold directive) 0) in
    let release := time_Add hold (maxDuration (pd_Release directive) 0) in
    (mkEffect now attack hold release gain target, true).

Definition MaxInt16 : Z := 32767.
Definition MinInt16 : Z := -32768.

(** [int16(u)] of a [uint16] and back. *)
Definition int16_of (u : Z) : Z := if MaxInt16 <? u then u - 65536 else u.
Definition uint16_of (z : Z) : Z := z mod 65536.

Definition scale_sample (gain : float64) (sample : Z) : Z :=
  let value := f_round_int (f_mul (f_of_Z sample) gain) in
  if MaxInt16 <? value then MaxInt16 else if value <? MinInt16 then MinInt16 else value.

Fixpoint scale_pcm (gain : float64) (chunk : list byte) : list byte :=
  match chunk with
  | b0 :: b1 :: rest => le_bytes 2 (uint16_of (scale_sample gain (int16_of (Uint16 [b0; b1])))) ++ scale_pcm gain rest
  | _ => chunk
  end.

Definition ApplyPCM16 (chunk : list byte) (now : instant) (s : outputEffectState) : outputEffectState * list byte :=
  let '(s, gain) := CurrentGain now s in
  if f_leb (f_lit 999 1000) gain || (len chunk <? 2) then (s, chunk) else (s, scale_pcm gain chunk).

(** [pcm16EffectAudioStream]: what the wrapped stream answers, with the audio of
    a chunk scaled at the instant it is read. *)
Definition effect_Next (now : instant) (answer : result stream_error (list byte)) (s : outputEffectState)
    : outputEffectState * result stream_error (list byte) :=
  match answer with
  | Err e => (s, Err e)
  | Ok chunk => if len chunk =? 0 then (s, Ok chunk) else let '(s, chunk) := ApplyPCM16 chunk now s in (s, Ok chunk)
  end.

(** The samples a chunk carries, and the odd byte behind them. *)
Fixpoint samples (chunk : list byte) : list Z :=
  match chunk with b0 :: b1 :: rest => int16_of (Uint16 [b0; b1]) :: samples rest | _ => [] end.

Definition odd_tail (chunk : list byte) : list byte := drop (2 * (length chunk / 2)) chunk.

(** ** The samples of a ducked chunk *)

Lemma uint16_round z : MinInt16 <= z <= MaxInt16 -> int16_of (uint16_of z) = z.
Proof.
  unfold MinInt16, MaxInt16, int16_of, uint16_of. intros Hz. unfold MaxInt16.
  destruct (z <? 0) eqn:E; bool_prop.
  - rewrite <- (Z.mod_add z 1 65536), Z.mod_small by lia.
    assert ((32767 <? z + 1 * 65536) = true) as -> by lia. lia.
  - rewrite Z.mod_small by lia. assert ((32767 <? z) = false) as -> by lia. done.
Qed.

Lemma scale_sample_range gain sample : MinInt16 <= scale_sample gain sample <= MaxInt16.
Proof. unfold scale_sample. cbv zeta. unfold MinInt16, MaxInt16. repeat split_if; bool_prop; lia. Qed.

Lemma two_bytes z : exists b0 b1, le_bytes 2 z = [b0; b1].
Proof. by eexists _, _. Qed.

Lemma scale_pcm_spec gain n chunk : (length chunk <= n)%nat ->
  length (scale_pcm gain chunk) = length chunk /\
  samples (scale_pcm gain chunk) = map (scale_sample gain) (samples chunk) /\
  odd_tail (scale_pcm gain chunk) = odd_tail chunk.
Proof.
  revert chunk. induction n as [|n IH]; intros chunk Hn.
  { by destruct chunk; [|cbn in Hn; lia]. }
  destruct chunk as [|b0 [|b1 rest]]; [done|done|]. cbn [length] in Hn.
  destruct (IH rest ltac:(lia)) as (H1 & H2 & H3). cbn [scale_pcm].
  set (v := scale_sample gain _). destruct (two_bytes (uint16_of v)) as (c0 & c1 & E). rewrite E.
  cbn [app length samples map]. rewrite <- E, H1, H2. split; [done|]. split.
  - f_equal. unfold Uint16. rewrite le_value_bytes; [apply uint16_round, scale_sample_range|].
    unfold uint16_of. apply Z.mod_pos_bound. lia.
  - unfold odd_tail in *. cbn [length]. rewrite H1 in *.
    replace (S (S (length rest)) / 2)%nat with (S (length rest / 2))%nat.
    + replace (2 * S (length rest / 2))%nat with (S (S (2 * (length rest / 2))))%nat by lia. cbn [drop]. exact H3.
    + change (S (S (length rest))) with (1 * 2 + length rest)%nat. by rewrite Nat.div_add_l by lia.
Qed.

(** Ducking changes the volume and nothing else. At whatever gain the effect
    stands, a chunk keeps its length and the odd byte behind its samples, every
    one of its 16-bit samples becomes the sample times the gain, rounded to the
    nearest integer and kept within 16 bits, and at full gain (or for a chunk
    shorter than a sample) the very same bytes go out. *)
Theorem ducked_audio_is_scaled chunk now s :
  let gain := (CurrentGain now s).2 in
  let '(s', out) := ApplyPCM16 chunk now s in
  s' = (CurrentGain now s).1 /\ len out = len chunk /\ odd_tail out = odd_tail chunk /\
  samples out = (if f_leb (f_lit 999 1000) gain then samples chunk else map (scale_sample gain) (samples chunk)) /\
  (f_leb (f_lit 999 1000) gain = true -> out = chunk) /\
  Forall (fun z => MinInt16 <= scale_sample gain z <= MaxInt16) (samples chunk).
Proof.
  cbv zeta. unfold ApplyPCM16. destruct (CurrentGain now s) as [s1 gain] eqn:Eg. cbn [fst snd].
  assert (Hr : Forall (fun z => MinInt16 <= scale_sample gain z <= MaxInt16) (samples chunk))
    by (apply Forall_forall; intros; apply scale_sample_range).
  destruct (f_leb (f_lit 999 1000) gain) eqn:Ef; cbn [orb]; [done|].
  destruct (len chunk <? 2) eqn:El.
  - split; [done|]. split; [done|]. split; [done|]. split; [|done].
    bool_prop. unfold len in El. by destruct chunk as [|b0 [|b1 rest]]; [| |cbn [length] in El; lia].
  - destruct (scale_pcm_spec gain (length chunk) chunk ltac:(lia)) as (H1 & H2 & H3).
    split; [done|]. split; [unfold len; by rewrite H1|]. split; [done|]. split; [done|]. by split.
Qed.

(** ** The envelope *)

Definition ducking_parameters (d : PlaybackDirective) : Prop :=
  (pd_Gain d = f_lit 72 100 \/ pd_Gain d = f_lit 36 100) /\
  (pd_Attack d = 45 * Millisecond \/ pd_Attack d = 30 * Millisecond) /\
  180 * Millisecond <= pd_Hold d <= 720 * Millisecond /\
  (pd_Release d = 180 * Millisecond \/ pd_Release d = 220 * Millisecond).

Lemma directive_parameters decision :
  ShouldDuckOutput (playbackDirectiveForDecision decision) = true ->
  ducking_parameters (playbackDirectiveForDecision decision).
Proof.
  assert (HM : Millisecond = 1000000) by reflexivity.
  assert (Hl := clampDirective_range (i64 (maxInt (i64 (bd_AudioMs decision + 80)) 180 * Millisecond))
                  (180 * Millisecond) (420 * Millisecond) ltac:(lia) ltac:(lia)).
  assert (Hh : 180 * Millisecond <= recommendedDuckHold decision <= 720 * Millisecond)
    by (apply clampDirective_range; lia).
  unfold playbackDirectiveForDecision, ShouldDuckOutput, ducking_parameters. cbv zeta.
  destruct (normalizeInterruptionPolicy (bd_Policy decision)); split_if; read_fields;
    cbn [pd_Action pd_Gain pd_Attack pd_Hold pd_Release]; intros Hd; try discriminate Hd;
    (split; [by auto|split; [by auto|split; [lia|by auto]]]).
Qed.

Lemma interpolate_start from to total :
  f_leb (f_div (f_of_Z 0) (f_of_Z total)) f_zero = true -> interpolateGain from to 0 total = if total <=? 0 then to else from.
Proof. intros H. unfold interpolateGain. by rewrite H. Qed.

(** What [ApplyDirective] leaves for a decision that ducks. *)
Lemma duck_state decision now s :
  ShouldDuckOutput (playbackDirectiveForDecision decision) = true ->
  let d := playbackDirectiveForDecision decision in
  ApplyDirective d now s =
    (mkEffect now (now + pd_Attack d) (now + pd_Attack d + pd_Hold d) (now + pd_Attack d + pd_Hold d + pd_Release d)
       (currentGainLocked now s).2 (pd_Gain d), true).
Proof.
  intros Hd. cbv zeta. destruct (directive_parameters decision Hd) as (Hg & Ha & Hh & Hr).
  unfold ApplyDirective. rewrite Hd. cbn [negb]. cbv zeta. destruct (currentGainLocked now s) as [s1 gain]. cbn [snd].
  assert (clampGain (pd_Gain (playbackDirectiveForDecision decision)) = pd_Gain (playbackDirectiveForDecision decision)) as ->
    by (destruct Hg as [-> | ->]; by vm_compute).
  unfold maxDuration, time_Add, Millisecond in *.
  assert ((0 <? pd_Attack (playbackDirectiveForDecision decision)) = true) as -> by lia.
  assert ((0 <? pd_Hold (playbackDirectiveForDecision decision)) = true) as -> by lia.
  assert ((0 <? pd_Release (playbackDirectiveForDecision decision)) = true) as -> by lia. done.
Qed.

(** The three phases of an envelope. *)
Lemma gain_at_start now attack h r g t :
  0 < now -> 0 < attack < two63 ->
  currentGainLocked now (mkEffect now (now + attack) h r g t)
    = (mkEffect now (now + attack) h r g t, interpolateGain g t 0 attack).
Proof.
  intros H0 Ha. unfold currentGainLocked. cbn [appliedAt attackUntil fromGain targetGain].
  assert (IsZero now = false) as -> by (unfold IsZero; lia).
  assert (time_After (now + attack) now = true) as -> by (unfold time_After; lia).
  assert (time_Before now (now + attack) = true) as -> by (unfold time_Before; lia). cbn [andb].
  assert (time_Sub now now = 0) as -> by (rewrite time_Sub_exact; i64_lia).
  by assert (time_Sub (now + attack) now = attack) as -> by (rewrite time_Sub_exact; i64_lia).
Qed.

Lemma gain_on_hold a at_ b h r g t :
  0 < a -> b <= at_ <= h -> currentGainLocked at_ (mkEffect a b h r g t) = (mkEffect a b h r g t, t).
Proof.
  intros H0 Hb. unfold currentGainLocked. cbn [appliedAt attackUntil holdUntil targetGain].
  assert (IsZero a = false) as -> by (unfold IsZero; lia).
  assert (time_Before at_ b = false) as -> by (unfold time_Before; lia). rewrite andb_false_r.
  by assert (time_Before at_ h || (at_ =? h) = true) as -> by (unfold time_Before; lia).
Qed.

Lemma gain_after a at_ b h r g t :
  0 < a -> 0 < h -> b <= at_ -> h < at_ -> r <= at_ ->
  currentGainLocked at_ (mkEffect a b h r g t) = (released_effect, f_one).
Proof.
  intros H0 Hh Hb Hh' Hr. unfold currentGainLocked. cbn [appliedAt attackUntil holdUntil releaseUntil targetGain].
  assert (IsZero a = false) as -> by (unfold IsZero; lia).
  assert (time_Before at_ b = false) as -> by (unfold time_Before; lia). rewrite andb_false_r.
  assert (time_Before at_ h || (at_ =? h) = false) as -> by (unfold time_Before; lia).
  assert (time_Before at_ r = false) as -> by (unfold time_Before; lia). by rewrite andb_false_r.
Qed.

Lemma attack_starts_flat from to attack :
  attack = 45000000 \/ attack = 30000000 -> interpolateGain from to 0 attack = from.
Proof.
  intros Ha. unfold interpolateGain.
  assert ((attack <=? 0) = false) as -> by (destruct Ha; lia).
  assert (f_leb (f_div (f_of_Z 0) (f_of_Z attack)) f_zero = true) as -> by (destruct Ha as [-> | ->]; by vm_compute).
  done.
Qed.

(** The envelope of a ducked output. For every decision that ducks, at
    whatever point of an earlier envelope it comes, the volume does not jump when
    the directive is applied; from the end of the attack to the end of the hold
    the gain is exactly the directive's, which stays between 180 and 720 ms; and
    when the release is over the gain is 1 again and nothing of the envelope is
    left. *)
Theorem ducking_envelope decision now s :
  0 < now -> ShouldDuckOutput (playbackDirectiveForDecision decision) = true ->
  let d := playbackDirectiveForDecision decision in
  let '(s', applied) := ApplyDirective d now s in
  applied = true /\
  (CurrentGain now s').2 = (CurrentGain now s).2 /\
  (forall t, now + pd_Attack d <= t <= now + pd_Attack d + pd_Hold d -> CurrentGain t s' = (s', pd_Gain d)) /\
  (forall t, now + pd_Attack d + pd_Hold d + pd_Release d <= t -> CurrentGain t s' = (released_effect, f_one)) /\
  180 * Millisecond <= pd_Hold d <= 720 * Millisecond.
Proof.
  intros H0 Hd. cbv zeta. rewrite duck_state by exact Hd.
  destruct (directive_parameters decision Hd) as (_ & Ha & Hh & Hr).
  unfold Millisecond in *. split; [done|].
  split; [|split; [intros t Ht; apply gain_on_hold; lia|split; [intros t Ht; apply gain_after; lia|exact Hh]]].
  unfold CurrentGain. rewrite gain_at_start by i64_lia. cbn [snd]. apply attack_starts_flat. lia.
Qed.

Definition demo_duck_decision : BargeInDecision :=
  mkBargeInDecision false InterruptionPolicyDuckOnly "duck_pending" 200 false 240 160 false true false "" f_zero false
    false false false false false StageNone f_zero 0 f_zero f_zero.

Lemma ducking_envelope_witness :
  let d := playbackDirectiveForDecision demo_duck_decision in
  0 < 1000 /\ ShouldDuckOutput d = true /\
  let '(s', applied) := ApplyDirective d 1000 zero_effect in (CurrentGain 1000 s').2 = (CurrentGain 1000 zero_effect).2.
Proof.
  cbv zeta. split; [done|]. split; [by vm_compute|].
  pose proof (ducking_envelope demo_duck_decision 1000 zero_effect eq_refl ltac:(by vm_compute)) as H. cbv zeta in H.
  destruct (ApplyDirective (playbackDirectiveForDecision demo_duck_decision) 1000 zero_effect) as [s' applied].
  apply H.
Defined.

(** A directive that does not duck leaves the volume as it was. *)
Lemma other_directives_keep_volume d now s : ShouldDuckOutput d = false -> ApplyDirective d now s = (s, false).
Proof. intros Hd. unfold ApplyDirective. by rewrite Hd. Qed.

(** Without a directive the output is never touched. *)
Lemma no_effect_without_directive chunk now : ApplyPCM16 chunk now zero_effect = (zero_effect, chunk).
Proof.
  unfold ApplyPCM16, CurrentGain, currentGainLocked. cbn [appliedAt zero_effect IsZero time_zero Z.eqb].
  assert (f_leb (f_lit 999 1000) f_one = true) as -> by (by vm_compute). done.
Qed.
