(* ===== verification/InputAudio.v ===== *)
(** * What comes in is made PCM (internal/voice/input_audio.go, adaptPCM16 of
      audio_output.go)

    A session's input is PCM already, or Opus packets decoded one by one and
    resampled to the rate the server works at.  The Opus decoder is a library, a
    parameter: what it answers to a packet may depend on the packets before, which
    stand for its state. *)

From S2P Require Import Prelude GoText GoFloat Audio OutputEffects.

(** ** Resampling *)

(** [PutUint16] of a sample. *)
Definition put_sample (z : Z) : bytes := le_bytes 2 (uint16_of z).

Definition read_samples (sourceSamples : Z) (audioPCM : bytes) : list Z :=
  take (Z.to_nat sourceSamples) (samples audioPCM).

(** The sample at [index] of the output, between its neighbours in the input. *)
Definition resampled (values : list Z) (sourceSamples : Z) (ratio : float64) (index : Z) : result go_error bytes :=
  let position := f_mul (f_of_Z index) ratio in
  let base := f_floor_int position in
  if sourceSamples - 1 <=? base then
    let! v := indexed values (sourceSamples - 1) in Ok (put_sample v)
  else
    let fraction := f_sub position (f_of_Z base) in
    let! l := indexed values base in
    let! r := indexed values (base + 1) in
    let left := f_of_Z l in
    let right := f_of_Z r in
    Ok (put_sample (f_round_int (f_add left (f_mul (f_sub right left) fraction)))).

Fixpoint resample_loop (n : nat) (values : list Z) (sourceSamples : Z) (ratio : float64) (index : Z) : result go_error bytes :=
  match n with
  | O => Ok []
  | S n =>
      let! here := resampled values sourceSamples ratio index in
      let! rest := resample_loop n values sourceSamples ratio (index + 1) in
      Ok (here ++ rest)
  end.

Definition target_samples (sourceSamples targetRateHz sourceRateHz : Z) : Z :=
  f_round_int (f_div (f_mul (f_of_Z sourceSamples) (f_of_Z targetRateHz)) (f_of_Z sourceRateHz)).

Definition adaptPCM16 (audioPCM : bytes) (sourceRateHz sourceChannels targetRateHz targetChannels : Z) : result go_error bytes :=
  if negb (targetChannels =? sourceChannels) then Err (GoError "channel adaptation is not implemented")
  else if negb (sourceChannels =? 1) then Err (GoError "only mono pcm is currently supported")
  else if (targetRateHz <=? 0) || (sourceRateHz <=? 0) then Err (GoError "invalid sample rate")
  else if sourceRateHz =? targetRateHz then Ok audioPCM
  else if negb (irem (len audioPCM) 2 =? 0) then Err (GoError "pcm payload length must be even")
  else
    let sourceSamples := idiv (len audioPCM) 2 in
    if sourceSamples =? 0 then Ok []
    else
      let targetSamples := target_samples sourceSamples targetRateHz sourceRateHz in
      if targetSamples <=? 0 then Err (GoError "target sample count is invalid")
      else
        let values := read_samples sourceSamples audioPCM in
        if targetSamples =? 1 then let! v := indexed values 0 in Ok (put_sample v)
        else
          let ratio := f_div (f_of_Z (sourceSamples - 1)) (f_of_Z (targetSamples - 1)) in
          resample_loop (Z.to_nat targetSamples) values sourceSamples ratio 0.

(** ** Normalizers *)

(** The decoder's answer to a packet: the PCM it wrote over the given room, the
    sample rate of the packet's bandwidth, whether it is stereo.  The packets
    before it come first. *)
Class OpusDecoder := pion_decode : list bytes -> bytes -> result text (bytes * Z * bool).

Inductive InputNormalizer :=
| PCM16InputNormalizer (sampleRateHz channels : Z)
| OpusInputNormalizer (decoded : list bytes) (targetSampleRateHz targetChannels : Z).

Definition OutputCodec (n : InputNormalizer) : text := "pcm16le".
Definition OutputSampleRate (n : InputNormalizer) : Z :=
  match n with PCM16InputNormalizer rate _ | OpusInputNormalizer _ rate _ => rate end.
Definition OutputChannels (n : InputNormalizer) : Z :=
  match n with PCM16InputNormalizer _ channels | OpusInputNormalizer _ _ channels => channels end.

Definition NewInputNormalizer (codec : text) (sampleRateHz channels : Z) : result text InputNormalizer :=
  let codec' := ToLower (TrimSpace codec) in
  if (codec' == "") || (codec' == txt "pcm16le") then Ok (PCM16InputNormalizer sampleRateHz channels)
  else if codec' == txt "opus" then Ok (OpusInputNormalizer [] sampleRateHz channels)
  else Err (txt "unsupported input codec " ++ codec).

(** What is made of a decoded packet: [out] is the room after the decoder wrote. *)
Definition adapt_decoded (info : opusPacketInfo) (out : bytes) (bandwidthRate : Z) (isStereo : bool)
    (targetSampleRateHz targetChannels : Z) : result go_error bytes :=
  let decodedChannels := if isStereo then 2 else 1 in
  if negb (decodedChannels =? opus_Channels info) then Err (GoError "decoded opus channel count does not match toc channel count")
  else if negb (decodedChannels =? targetChannels) then Err (GoError "unsupported opus channel count")
  else
    let decodedRateHz := i64 (bandwidthRate * 3) in
    if decodedRateHz <=? 0 then Err (GoError "decoded opus packet reported invalid sample rate")
    else
      let! payloadPCM := slice out 0 (SampleCount info * decodedChannels * 2 * 3) in
      if decodedRateHz =? targetSampleRateHz then Ok payloadPCM
      else adaptPCM16 payloadPCM decodedRateHz decodedChannels targetSampleRateHz targetChannels.

Definition room (info : opusPacketInfo) : Z := SampleCount info * opus_Channels info * 2 * 3.

(** The decoder writes into the room: what it wrote, cut or filled with zeros. *)
Definition into_room (info : opusPacketInfo) (written : bytes) : bytes :=
  take (Z.to_nat (room info)) (written ++ repeat Byte.x00 (Z.to_nat (room info))).

Definition Decode `{OpusDecoder} (payload : bytes) (n : InputNormalizer) : InputNormalizer * result go_error bytes :=
  match n with
  | PCM16InputNormalizer _ _ => (n, Ok payload)
  | OpusInputNormalizer before rate channels =>
      if len payload =? 0 then (n, Ok [])
      else
        match parseOpusPacketInfo payload with
        | Err e => (n, Err e)
        | Ok info =>
            if negb (match opus_Mode info with opusConfigurationModeSilkOnly => true | _ => false end)
            then (n, Err (GoError "unsupported opus mode; only SILK-only speech packets are currently supported"))
            else
              let n := OpusInputNormalizer (before ++ [payload]) rate channels in
              match pion_decode before payload with
              | Err e => (n, Err (GoError e))
              | Ok (written, bandwidthRate, isStereo) =>
                  (n, adapt_decoded info (into_room info written) bandwidthRate isStereo rate channels)
              end
        end
  end.

(** ** Whole samples *)

Lemma resampled_length values n ratio i out : resampled values n ratio i = Ok out -> length out = 2%nat.
Proof.
  unfold resampled. split_if; [destruct (indexed values (n - 1)) as [v|e]; [|done]; by intros [= <-]|].
  destruct (indexed values (f_floor_int _)) as [l|e]; [|done]. cbn [result_bind].
  destruct (indexed values _) as [r|e]; [|done]. by intros [= <-].
Qed.

Lemma resample_length k values n ratio i out : resample_loop k values n ratio i = Ok out -> length out = (2 * k)%nat.
Proof.
  revert i out. induction k as [|k IH]; intros i out; cbn [resample_loop]; [by intros [= <-]|].
  destruct (resampled values n ratio i) as [here|e] eqn:E; [|done]. cbn [result_bind].
  destruct (resample_loop k values n ratio (i + 1)) as [rest|e] eqn:R; [|done]. cbn [result_bind]. intros [= <-].
  rewrite length_app, (resampled_length _ _ _ _ _ E), (IH _ _ R). lia.
Qed.

(** Resampled audio has the samples the ratio of the rates asks for. *)
Lemma adapt_length pcm rate channels target out :
  adaptPCM16 pcm rate channels target channels = Ok out -> rate <> target -> 0 < idiv (len pcm) 2 ->
  len out = 2 * target_samples (idiv (len pcm) 2) target rate.
Proof.
  intros Ho Hr Hp. unfold adaptPCM16 in Ho. rewrite Z.eqb_refl in Ho. cbn [negb] in Ho.
  assert ((rate =? target) = false) as E1 by lia. assert ((idiv (len pcm) 2 =? 0) = false) as E2 by lia. rewrite E1, E2 in Ho.
  destruct (negb (channels =? 1)); [done|]. destruct ((target <=? 0) || _); [done|].
  destruct (negb (irem _ _ =? 0)); [done|]. cbv zeta in Ho. set (t := target_samples _ target rate) in *.
  destruct (t <=? 0) eqn:E3; [done|]. destruct (t =? 1) eqn:E4.
  - destruct (indexed _ 0) as [v|e]; [|done]. cbn [result_bind] in Ho. injection Ho as <-.
    assert (t = 1) as -> by lia. done.
  - apply resample_length in Ho. unfold len. rewrite Ho. lia.
Qed.

(** Audio whose samples the packet counted: exactly the room, or resampled. *)
Lemma adapted_length info written rate_ stereo rate channels out :
  0 < SampleCount info <= 5760 -> opus_Channels info = 1 \/ opus_Channels info = 2 ->
  adapt_decoded info (into_room info written) rate_ stereo rate channels = Ok out ->
  opus_Channels info = channels /\
  len out = 2 * (let decoded := 3 * SampleCount info * channels in
                 if i64 (rate_ * 3) =? rate then decoded else target_samples decoded rate (i64 (rate_ * 3))).
Proof.
  intros Hn Hc. unfold adapt_decoded. set (dc := if stereo then 2 else 1). set (dr := i64 (rate_ * 3)). cbv zeta.
  destruct (dc =? opus_Channels info) eqn:E1; [|done]. destruct (dc =? channels) eqn:E2; [|done]. cbn [negb].
  assert (Hd : opus_Channels info = dc /\ channels = dc) by lia. destruct Hd as [Hd1 ->]. clear E1 E2. clearbody dc.
  destruct (dr <=? 0); [done|].
  assert (Hroom : room info = SampleCount info * dc * 2 * 3) by (unfold room; by rewrite Hd1).
  assert (Hlen : len (into_room info written) = SampleCount info * dc * 2 * 3).
  { unfold into_room, len. rewrite length_take, length_app, repeat_length. rewrite Hroom. rewrite Hd1 in Hc. nia. }
  rewrite Hd1 in Hc. rewrite slice_ok by nia. cbn [result_bind]. set (p := take _ _).
  assert (Hp : len p = SampleCount info * dc * 2 * 3) by (subst p; unfold len in *; rewrite length_take, length_drop; nia).
  clearbody p. destruct (dr =? rate) eqn:E; intros Ho; (split; [done|]).
  - injection Ho as <-. rewrite Hp. lia.
  - assert (Hi : idiv (len p) 2 = 3 * SampleCount info * dc).
    { rewrite Hp, idiv_floor by (unfold max_int64, two63; nia). replace (SampleCount info * dc * 2 * 3) with (3 * SampleCount info * dc * 2) by lia.
      apply Z.div_mul. lia. }
    rewrite <- Hi. eapply adapt_length; [exact Ho|lia|]. rewrite Hi. nia.
Qed.

(** C38. An Opus packet becomes whole samples of the server's format. Whatever
    the decoder answers, when a packet is normalized it was a SILK packet with the
    server's channels, and the PCM has exactly the samples its header counts, at
    three times its bandwidth, or as many of them as the ratio of the two sample
    rates asks for; an empty packet becomes no audio, and the decoder sees every
    other supported packet once and in order. *)
Theorem opus_packets_become_whole_samples `{OpusDecoder} payload before rate channels n out :
  Decode payload (OpusInputNormalizer before rate channels) = (n, Ok out) ->
  (payload = [] /\ out = [] /\ n = OpusInputNormalizer before rate channels) \/
  exists info written bandwidth stereo,
    parseOpusPacketInfo payload = Ok info /\ pion_decode before payload = Ok (written, bandwidth, stereo) /\
    opus_Mode info = opusConfigurationModeSilkOnly /\ opus_Channels info = channels /\
    n = OpusInputNormalizer (before ++ [payload]) rate channels /\
    len out = 2 * (let decoded := 3 * SampleCount info * channels in
                   if i64 (bandwidth * 3) =? rate then decoded else target_samples decoded rate (i64 (bandwidth * 3))).
Proof.
  unfold Decode. destruct payload as [|b payload]; [intros [= <- <-]; by left|].
  assert ((len (b :: payload) =? 0) = false) as -> by (rewrite len_cons; pose proof (len_nonneg payload); lia).
  destruct (opus_header (b :: payload)) as [_ Hh]. set (pkt := b :: payload) in *. clearbody pkt.
  destruct (parseOpusPacketInfo pkt) as [info|e] eqn:Ep; [|by intros [=]].
  destruct (Hh info eq_refl) as (_ & _ & _ & _ & _ & _ & _ & Hn & Hc & _).
  destruct (opus_Mode info) eqn:Em; cbn [negb]; [|by intros [=]..].
  destruct (pion_decode before pkt) as [[[written bw] stereo]|e] eqn:Ed; [|by intros [=]].
  intros [= <- Ho]. right. exists info, written, bw, stereo.
  destruct (adapted_length _ _ _ _ _ _ _ Hn Hc Ho) as [H1 H2]. by repeat (split; [done|]).
Qed.

(** A decoder that answers silence at 8 kHz, and a 20 ms SILK packet. *)
#[local] Instance silent_decoder : OpusDecoder := fun _ _ => Ok ([], 8000, false).

Definition demo_packet : bytes := ["008"; "000"]%byte.
Definition demo_pcm : bytes := repeat Byte.x00 640.

Lemma opus_packets_become_whole_samples_witness :
  Decode demo_packet (OpusInputNormalizer [] 16000 1) = (OpusInputNormalizer [demo_packet] 16000 1, Ok demo_pcm) /\
  len demo_pcm = 640.
Proof.
  assert (E : Decode demo_packet (OpusInputNormalizer [] 16000 1) = (OpusInputNormalizer [demo_packet] 16000 1, Ok demo_pcm))
    by (vm_compute; reflexivity).
  split; [exact E|]. destruct (opus_packets_become_whole_samples _ _ _ _ _ _ E) as [(H & _)|(info & written & bw & stereo & H1 & H2 & _ & _ & _ & H4)].
  - discriminate H.
  - rewrite H4. assert (H1' : SampleCount info = 160) by (vm_compute in H1; by injection H1 as <-).
    assert (H2' : bw = 8000) by (by injection H2 as _ <- _). rewrite H1', H2'. by vm_compute.
Defined.

(** What was PCM is left as it is, and only two codecs have a normalizer. *)
Lemma pcm_is_kept `{OpusDecoder} codec rate channels n payload :
  NewInputNormalizer codec rate channels = Ok n -> ToLower (TrimSpace codec) <> "opus" ->
  Decode payload n = (n, Ok payload) /\ OutputSampleRate n = rate /\ OutputChannels n = channels.
Proof.
  unfold NewInputNormalizer. cbv zeta. destruct (_ || _); [by intros [= <-]|].
  destruct (_ == txt "opus") eqn:E; [|done]. apply text_eqb_true in E. by rewrite E.
Qed.
