(* ===== verification/TurnResponse.v ===== *)
(** * The answer of a turn and its early audio
      (internal/voice/contracts.go, turn_executor.go, orchestrated_response.go)

    An executor's deltas become the deltas of a response.  An orchestrated
    response is a future with two readers: one waits for audio to start with, the
    other for the whole response; whichever comes first takes the audio.  Every
    method of the future runs under its mutex, so a run is a sequence of calls.
    [A] is the type of audio streams; the future only hands them on. *)

From S2P Require Import Prelude GoText Contracts Memory Orchestrator Audio AgentRuntime BootstrapExecutor.

(** ** Deltas *)

Inductive ResponseDeltaKind :=
| ResponseDeltaKindText | ResponseDeltaKindToolCall | ResponseDeltaKindToolResult | ResponseDeltaKindOther (s : text).

#[export] Instance ResponseDeltaKind_eq_dec : EqDecision ResponseDeltaKind.
Proof. solve_decision. Defined.

Record ResponseDelta := mkResponseDelta {
  rd_Kind : ResponseDeltaKind;
  rd_Text : text;
  rd_ToolCallID : text;
  rd_ToolName : text;
  rd_ToolStatus : text;
  rd_ToolInput : text;
  rd_ToolOutput : text
}.

#[export] Instance ResponseDelta_eq_dec : EqDecision ResponseDelta.
Proof. solve_decision. Defined.

Definition text_response_delta (s : text) : ResponseDelta := mkResponseDelta ResponseDeltaKindText s [] [] [] [] [].

Definition is_text_delta (d : ResponseDelta) : bool := bool_decide (rd_Kind d = ResponseDeltaKindText).

Definition responseDeltaFromTurnDelta (d : TurnDelta) : ResponseDelta :=
  mkResponseDelta
    (match td_Kind d with
     | TurnDeltaKindText => ResponseDeltaKindText
     | TurnDeltaKindToolCall => ResponseDeltaKindToolCall
     | TurnDeltaKindToolResult => ResponseDeltaKindToolResult
     end)
    (td_Text d) (td_ToolCallID d) (td_ToolName d) (td_ToolStatus d) (td_ToolInput d) (td_ToolOutput d).

Definition responseDeltasFromTurn (output : TurnOutput) : list ResponseDelta :=
  if len (to_Deltas output) =? 0 then
    if TrimSpace (to_Text output) == "" then [] else [text_response_delta (to_Text output)]
  else map responseDeltaFromTurnDelta (to_Deltas output).

(** ** Responses *)

Record TurnResponse (A : Type) := mkTurnResponse {
  rsp_InputText : text;
  rsp_Text : text;
  rsp_Deltas : list ResponseDelta;
  rsp_AudioChunks : list bytes;
  rsp_AudioStream : option A;
  rsp_AudioStreamTransferred : bool;
  rsp_EndSession : bool;
  rsp_EndReason : text;
  rsp_EndMessage : text
}.
Arguments mkTurnResponse {A}.
Arguments rsp_InputText {A}.
Arguments rsp_Text {A}.
Arguments rsp_Deltas {A}.
Arguments rsp_AudioChunks {A}.
Arguments rsp_AudioStream {A}.
Arguments rsp_AudioStreamTransferred {A}.
Arguments rsp_EndSession {A}.
Arguments rsp_EndReason {A}.
Arguments rsp_EndMessage {A}.

#[export] Instance TurnResponse_rebuild A : Rebuild (TurnResponse A) := fun r =>
  mkTurnResponse (rsp_InputText r) (rsp_Text r) (rsp_Deltas r) (rsp_AudioChunks r) (rsp_AudioStream r)
    (rsp_AudioStreamTransferred r) (rsp_EndSession r) (rsp_EndReason r) (rsp_EndMessage r).

Definition zero_response {A} : TurnResponse A := mkTurnResponse "" "" [] [] None false false "" "".

(** [collectTurnResponse]: what the collector saw stands for the deltas a
    streamer left out. *)
Definition collectTurnResponse {A} (collected : list ResponseDelta) (r : result text (TurnResponse A))
    : result text (TurnResponse A) :=
  match r with
  | Err e => Err e
  | Ok response =>
      let response := if len (rsp_Deltas response) =? 0 then response <|rsp_Deltas := collected|> else response in
      Ok (if (len (rsp_Deltas response) =? 0) && (TrimSpace (rsp_Text response) != "")
          then response <|rsp_Deltas := [text_response_delta (rsp_Text response)]|> else response)
  end.

Inductive ResponseAudioStartSource := StartFromSpeechPlanner | StartFromFinalResponse.

Record ResponseAudioStart (A : Type) := mkAudioStart {
  as_Stream : option A;
  as_Text : text;
  as_Incremental : bool;
  as_Source : ResponseAudioStartSource
}.
Arguments mkAudioStart {A}.
Arguments as_Stream {A}.
Arguments as_Text {A}.
Arguments as_Incremental {A}.
Arguments as_Source {A}.

(** The response owns audio that nobody has taken. *)
Definition has_own_audio {A} (r : TurnResponse A) : bool :=
  bool_decide (is_Some (rsp_AudioStream r)) || (0 <? len (rsp_AudioChunks r)).

Definition turnResponseHasAudio {A} (r : TurnResponse A) : bool := has_own_audio r || rsp_AudioStreamTransferred r.

Definition detachTurnResponseAudio {A} (r : TurnResponse A) : TurnResponse A :=
  if negb (has_own_audio r) then r
  else r <|rsp_AudioStream := None|> <|rsp_AudioChunks := []|> <|rsp_AudioStreamTransferred := true|>.

(** ** The future *)

Section Future.

(** [static] is [NewStaticAudioStream] as a stream of type [A]. *)
Context {A : Type} (static : list bytes -> A).

Definition responseAudioStartFromTurnResponse (r : TurnResponse A) : option (ResponseAudioStart A) :=
  match rsp_AudioStream r with
  | Some s => Some (mkAudioStart (Some s) (rsp_Text r) false StartFromFinalResponse)
  | None =>
      if 0 <? len (rsp_AudioChunks r)
      then Some (mkAudioStart (Some (static (rsp_AudioChunks r))) (rsp_Text r) false StartFromFinalResponse)
      else None
  end.

(** The channels [responseReady] and [audioReady] are closed exactly when
    [resolved] and [audioResolved] are set. *)
Record asyncTurnResponseFuture := mkFuture {
  fut_resolved : bool;
  fut_response : TurnResponse A;
  fut_err : option text;
  fut_audioResolved : bool;
  fut_audioStart : option (ResponseAudioStart A); (* set exactly when [audioAvailable] is *)
  fut_audioClaimed : bool;
  fut_responseDelivered : bool
}.

Definition newAsyncTurnResponseFuture : asyncTurnResponseFuture :=
  mkFuture false zero_response None false None false false.

Definition PublishAudioStart (start : ResponseAudioStart A) (f : asyncTurnResponseFuture) : asyncTurnResponseFuture :=
  match as_Stream start with
  | None => f
  | Some _ =>
      if fut_audioResolved f || fut_responseDelivered f then f
      else mkFuture (fut_resolved f) (fut_response f) (fut_err f) true (Some start) (fut_audioClaimed f)
             (fut_responseDelivered f)
  end.

Definition Resolve (r : result text (TurnResponse A)) (f : asyncTurnResponseFuture) : asyncTurnResponseFuture :=
  if fut_resolved f then f
  else
    let '(response, err) := match r with Ok response => (response, None) | Err e => (zero_response, Some e) end in
    let start := if fut_audioResolved f then fut_audioStart f else responseAudioStartFromTurnResponse response in
    mkFuture true response err true start (fut_audioClaimed f) (fut_responseDelivered f).

(** [Wait] and [WaitAudioStart]: [None] while they are blocked. A cancelled
    context is the other way out of both. *)
Definition Wait (f : asyncTurnResponseFuture) : asyncTurnResponseFuture * option (result text (TurnResponse A)) :=
  if negb (fut_resolved f) then (f, None)
  else match fut_err f with
  | Some e => (f, Some (Err e))
  | None =>
      let response := fut_response f in
      if fut_audioClaimed f then (f, Some (Ok (detachTurnResponseAudio response)))
      else if negb (fut_responseDelivered f) then
        (mkFuture (fut_resolved f) (fut_response f) (fut_err f) (fut_audioResolved f) (fut_audioStart f)
           (fut_audioClaimed f) true, Some (Ok response))
      else if turnResponseHasAudio response then (f, Some (Ok (detachTurnResponseAudio response)))
      else (f, Some (Ok response))
  end.

Definition WaitAudioStart (f : asyncTurnResponseFuture)
    : asyncTurnResponseFuture * option (result text (option (ResponseAudioStart A))) :=
  if negb (fut_audioResolved f) then (f, None)
  else match fut_err f with
  | Some e => (f, Some (Err e))
  | None =>
      match fut_audioStart f with
      | None => (f, Some (Ok None))
      | Some start =>
          if fut_audioClaimed f || fut_responseDelivered f then (f, Some (Ok None))
          else (mkFuture (fut_resolved f) (fut_response f) (fut_err f) (fut_audioResolved f) (fut_audioStart f) true
                  (fut_responseDelivered f), Some (Ok (Some start)))
      end
  end.

(** ** Runs *)

Inductive future_op :=
| OpPublish (start : ResponseAudioStart A)
| OpResolve (r : result text (TurnResponse A))
| OpWait
| OpWaitAudio.

(** The call, and whether it handed audio to its caller. *)
Definition future_step (op : future_op) (f : asyncTurnResponseFuture) : asyncTurnResponseFuture * bool :=
  match op with
  | OpPublish start => (PublishAudioStart start f, false)
  | OpResolve r => (Resolve r f, false)
  | OpWait =>
      match Wait f with
      | (f, Some (Ok response)) => (f, has_own_audio response)
      | (f, _) => (f, false)
      end
  | OpWaitAudio =>
      match WaitAudioStart f with
      | (f, Some (Ok (Some _))) => (f, true)
      | (f, _) => (f, false)
      end
  end.

Fixpoint handed_out (ops : list future_op) (f : asyncTurnResponseFuture) : Z :=
  match ops with
  | [] => 0
  | op :: ops => let '(f, handed) := future_step op f in (if handed then 1 else 0) + handed_out ops f
  end.

Definition future_run (ops : list future_op) : asyncTurnResponseFuture :=
  fold_left (fun f op => (future_step op f).1) ops newAsyncTurnResponseFuture.

(** Somebody took the audio, or the response with it. *)
Definition taken (f : asyncTurnResponseFuture) : bool := fut_audioClaimed f || fut_responseDelivered f.

Lemma detach_leaves_no_audio (r : TurnResponse A) : has_own_audio (detachTurnResponseAudio r) = false.
Proof.
  unfold detachTurnResponseAudio. destruct (has_own_audio r) eqn:E; cbn [negb]; [|exact E].
  unfold has_own_audio. by read_fields.
Qed.

Lemma step_hands_once op f :
  let '(f', handed) := future_step op f in
  (taken f = true -> handed = false /\ taken f' = true) /\ (handed = true -> taken f' = true).
Proof.
  destruct op as [start|r| |]; cbn [future_step].
  - unfold PublishAudioStart. destruct (as_Stream start); [|by split].
    destruct (fut_audioResolved f || fut_responseDelivered f); by split.
  - unfold Resolve. destruct (fut_resolved f); [by split|]. destruct r; by split.
  - unfold Wait. destruct (negb (fut_resolved f)); [by split|]. destruct (fut_err f); [by split|]. cbv zeta.
    unfold taken. destruct (fut_audioClaimed f) eqn:Ec.
    { rewrite detach_leaves_no_audio. rewrite Ec. by split. }
    destruct (fut_responseDelivered f) eqn:Ed; cbn [negb].
    + destruct (turnResponseHasAudio (fut_response f)) eqn:Eh.
      * rewrite detach_leaves_no_audio, Ed, Ec. by split.
      * unfold turnResponseHasAudio in Eh. apply orb_false_iff in Eh as [-> _]. rewrite Ed, Ec. by split.
    + cbn [fut_audioClaimed fut_responseDelivered]. by split.
  - unfold WaitAudioStart. destruct (negb (fut_audioResolved f)); [by split|]. destruct (fut_err f); [by split|].
    destruct (fut_audioStart f); [|by split]. fold (taken f). by destruct (taken f) eqn:Et; split.
Qed.

Lemma handed_out_bound ops f : 0 <= handed_out ops f <= (if taken f then 0 else 1).
Proof.
  revert f. induction ops as [|op ops IH]; intros f; cbn [handed_out]; [destruct (taken f); lia|].
  pose proof (step_hands_once op f) as Hs. destruct (future_step op f) as [f' handed]. destruct Hs as [H1 H2].
  specialize (IH f'). destruct (taken f).
  - destruct (H1 eq_refl) as [-> E]. rewrite E in IH. lia.
  - destruct handed; [rewrite (H2 eq_refl) in IH; lia|]. destruct (taken f'); lia.
Qed.

(** What is true of every future. *)
Record future_inv (f : asyncTurnResponseFuture) : Prop := {
  fi_resolved : fut_resolved f = true -> fut_audioResolved f = true;
  fi_early : fut_resolved f = false -> fut_audioResolved f = true -> is_Some (fut_audioStart f);
  fi_start : fut_resolved f = true -> fut_err f = None -> has_own_audio (fut_response f) = true ->
             is_Some (fut_audioStart f);
  fi_stream : forall start, fut_audioStart f = Some start -> is_Some (as_Stream start);
  fi_delivered : fut_responseDelivered f = true -> fut_resolved f = true
}.

Lemma start_from_response r :
  is_Some (responseAudioStartFromTurnResponse r) <-> has_own_audio r = true.
Proof.
  unfold responseAudioStartFromTurnResponse, has_own_audio. destruct (rsp_AudioStream r); cbn; [by split|].
  destruct (0 <? len (rsp_AudioChunks r)); split; try done.
Qed.

Lemma response_start_stream response start :
  responseAudioStartFromTurnResponse response = Some start -> is_Some (as_Stream start).
Proof.
  unfold responseAudioStartFromTurnResponse. destruct (rsp_AudioStream response); [by intros [= <-]|].
  destruct (0 <? len _); [by intros [= <-]|done].
Qed.

Lemma future_step_inv op f : future_inv f -> future_inv (future_step op f).1.
Proof.
  intros Hf. pose proof Hf as [H1 H0 H2 H3 H4]. destruct op as [start|r| |]; cbn [future_step].
  - unfold PublishAudioStart. cbn [fst]. destruct (as_Stream start) eqn:Es; [|exact Hf].
    destruct (fut_audioResolved f || fut_responseDelivered f) eqn:E; [exact Hf|].
    split; cbn; try done. intros ? [= <-]. eauto.
  - unfold Resolve. cbn [fst]. destruct (fut_resolved f) eqn:E; [exact Hf|].
    destruct (fut_audioResolved f) eqn:Ea; destruct r as [response|e]; split; cbn; try done.
    + intros _ _ _. by apply H0.
    + intros _ _. by apply start_from_response.
    + apply response_start_stream.
  - unfold Wait. destruct (fut_resolved f) eqn:E; cbn [negb]; [|exact Hf]. destruct (fut_err f) eqn:Ee; [exact Hf|]. cbv zeta.
    destruct (fut_audioClaimed f); [exact Hf|]. destruct (fut_responseDelivered f); cbn [negb].
    + destruct (turnResponseHasAudio _); exact Hf.
    + cbn [fst]. split; cbn; rewrite ?E, ?Ee; auto.
  - unfold WaitAudioStart. destruct (negb (fut_audioResolved f)) eqn:Ea; [exact Hf|].
    destruct (fut_err f) eqn:Ee; [exact Hf|].
    destruct (fut_audioStart f) eqn:Es; [|exact Hf].
    destruct (fut_audioClaimed f || fut_responseDelivered f); [exact Hf|].
    cbn [fst]. split; cbn; rewrite ?Es, ?Ee in *; auto.
Qed.

Lemma future_run_inv ops : future_inv (future_run ops).
Proof.
  unfold future_run. apply fold_left_inv; [by split|]. intros f op _. apply future_step_inv.
Qed.

(** The audio of an answer goes out once. However the planner's early start,
    the answer and the two readers are interleaved, audio is handed out at most
    once; and when the answer has audio and nobody has taken it yet, the two
    readers get it exactly once in either order: if the audio is asked for first,
    the response that follows has lost it and says so, and if the response comes
    first, with its audio, nothing is left to start early. *)
Theorem audio_goes_out_once ops :
  handed_out ops newAsyncTurnResponseFuture <= 1 /\
  let f := future_run ops in
  fut_resolved f = true -> fut_err f = None -> has_own_audio (fut_response f) = true -> taken f = false ->
  (exists f1 start f2 response,
     WaitAudioStart f = (f1, Some (Ok (Some start))) /\ is_Some (as_Stream start) /\
     Wait f1 = (f2, Some (Ok response)) /\ has_own_audio response = false /\
     rsp_AudioStreamTransferred response = true) /\
  (exists f1 f2, Wait f = (f1, Some (Ok (fut_response f))) /\ WaitAudioStart f1 = (f2, Some (Ok None))).
Proof.
  split. { pose proof (handed_out_bound ops newAsyncTurnResponseFuture). cbn in *. lia. }
  cbv zeta. intros Hr He Ho Ht. destruct (future_run_inv ops) as [H1 _ H2 H3 _].
  set (f := future_run ops) in *. clearbody f. unfold taken in Ht. apply orb_false_iff in Ht as [Hc Hd].
  destruct (H2 Hr He Ho) as [start Hs]. pose proof (H1 Hr) as Ha. split.
  - eexists _, start, _, _. unfold WaitAudioStart. rewrite Ha, He, Hs, Hc, Hd. cbn [negb orb].
    split; [reflexivity|]. split; [by apply H3|]. unfold Wait. cbn [fut_resolved fut_err fut_audioClaimed].
    rewrite Hr. cbn [negb fut_response]. split; [reflexivity|]. split; [apply detach_leaves_no_audio|].
    unfold detachTurnResponseAudio. rewrite Ho. cbn [negb]. by read_fields.
  - eexists _, _. unfold Wait. rewrite Hr, He, Hc, Hd. cbn [negb]. split; [reflexivity|].
    unfold WaitAudioStart. cbn [fut_audioResolved fut_err fut_audioStart fut_audioClaimed fut_responseDelivered].
    rewrite ?Ha, ?He, ?Hs, ?Hc. reflexivity.
Qed.

End Future.
Arguments asyncTurnResponseFuture A : clear implicits.
Arguments future_op A : clear implicits.

Lemma audio_goes_out_once_witness :
  let response : TurnResponse nat := zero_response <|rsp_AudioStream := Some 7%nat|> in
  let ops := [OpPublish (mkAudioStart (Some 7%nat) "hi" true StartFromSpeechPlanner); OpResolve (Ok response)] in
  let static := fun _ : list bytes => 0%nat in
  handed_out static (ops ++ [OpWait; OpWaitAudio; OpWait]) newAsyncTurnResponseFuture <= 1 /\
  exists f1 start f2 r, WaitAudioStart (future_run static ops) = (f1, Some (Ok (Some start))) /\
    Wait f1 = (f2, Some (Ok r)) /\ rsp_AudioStreamTransferred r = true.
Proof.
  cbv zeta.
  set (response := (zero_response (A := nat)) <|rsp_AudioStream := Some 7%nat|>).
  set (ops := [OpPublish (mkAudioStart (Some 7%nat) (txt "hi") true StartFromSpeechPlanner); OpResolve (Ok response)]).
  split; [apply (audio_goes_out_once (fun _ => 0%nat) (ops ++ [OpWait; OpWaitAudio; OpWait]))|].
  destruct (audio_goes_out_once (fun _ => 0%nat) ops) as [_ H].
  destruct (H eq_refl eq_refl eq_refl eq_refl) as [(f1 & start & f2 & r & E1 & _ & E2 & _ & E3) _].
  by exists f1, start, f2, r.
Defined.
