(* ===== verification/Transcription.v ===== *)
(** * Transcribing a turn's audio
      (internal/voice/speech_metadata.go, streaming_transcriber.go, asr_responder.go)

    What the recognizer heard becomes metadata of the turn.  The recognizer is an
    outside service; a batch one is given the interface of a stream by buffering
    what is pushed, and the audio of a whole turn is pushed in pieces. *)

From S2P Require Import Prelude GoText GoJSON Contracts Memory Audio EntityGrounding PreviewPipeline.

(** ** Metadata of a transcription *)

Definition nonEmptySpeechStrings (values : list text) : list text :=
  List.filter (fun s => s != "") (map TrimSpace values).

(** A JSON array, empty when nothing is left to list. *)
Definition encodeSpeechStringList (values : list text) : text :=
  let filtered := nonEmptySpeechStrings values in
  if len filtered =? 0 then "" else Marshal (JArray (map JString filtered)).

Definition has_suffix_of (s : text) (suffixes : list text) : bool := existsb (HasSuffix s) suffixes.

Definition detectSpeechTerminalPunctuation (s : text) : text :=
  let s := TrimSpace s in
  if s == "" then ""
  else if has_suffix_of s (texts ["?"; "？"]) then "question_mark"
  else if has_suffix_of s (texts ["..."; "……"; "…"]) then "ellipsis"
  else if has_suffix_of s (texts ["."; "。"; "!"; "！"]) then "strong_stop"
  else if has_suffix_of s (texts [","; "，"; ";"; "；"]) then "soft_pause"
  else "".

Definition clause_marks : text := "。.！!？?；;".

Definition estimateSpeechClauseCount (s : text) (segments : list text) : Z :=
  if 0 <? len (nonEmptySpeechStrings segments) then len (nonEmptySpeechStrings segments)
  else
    let s := TrimSpace s in
    if s == "" then 0
    else 1 + len (List.filter (ContainsRune clause_marks) s).

Definition put_speech (key : string) (value : text) (m : metadata) : metadata :=
  if TrimSpace value != "" then <[txt key := TrimSpace value]> m else m.

Definition put_when (b : bool) (key : string) (value : text) (m : metadata) : metadata :=
  if b then <[txt key := value]> m else m.

Definition buildTranscriptionMetadata (r : TranscriptionResult) : metadata :=
  let m := put_speech "speech.source" "asr" ∅ in
  let m := put_speech "speech.language" (rec_Language r) m in
  let m := put_speech "speech.emotion" (rec_Emotion r) m in
  let m := put_speech "speech.speaker_id" (rec_SpeakerID r) m in
  let m := put_speech "speech.endpoint_reason" (rec_EndpointReason r) m in
  let m := put_speech "speech.model" (rec_Model r) m in
  let m := put_speech "speech.device" (rec_Device r) m in
  let m := put_speech "speech.transcriber_mode" (rec_Mode r) m in
  let m := put_when (0 <? rec_DurationMs r) "speech.duration_ms" (Itoa (rec_DurationMs r)) m in
  let m := put_when (0 <? rec_ElapsedMs r) "speech.elapsed_ms" (Itoa (rec_ElapsedMs r)) m in
  let punctuation := detectSpeechTerminalPunctuation (rec_Text r) in
  let m := put_when (punctuation != "") "speech.text_terminal_punctuation" punctuation m in
  let clauseCount := estimateSpeechClauseCount (rec_Text r) (rec_Segments r) in
  let m := put_when (0 <? clauseCount) "speech.text_clause_count" (Itoa clauseCount) m in
  let audioEvents := encodeSpeechStringList (rec_AudioEvents r) in
  let m := put_when (audioEvents != "") "speech.audio_events" audioEvents m in
  let partials := encodeSpeechStringList (rec_Partials r) in
  let m := put_when (partials != "") "speech.partial_count" (Itoa (len (rec_Partials r)))
             (put_when (partials != "") "speech.partials" partials m) in
  let segments := encodeSpeechStringList (rec_Segments r) in
  let m := put_when (segments != "") "speech.segments" segments m in
  if (Z.of_nat (size m) =? 1) && (default [] (m !! txt "speech.source") == "asr") then ∅ else m.

(** The transcription's entries win over the turn's own. *)
Definition turnMetadataWithTranscription (base : metadata) (r : TranscriptionResult) : metadata :=
  buildTranscriptionMetadata r ∪ base.

(** ** The recognizer *)

Record TranscriptionRequest := mkTranscriptionRequest {
  tq_SessionID : text;
  tq_TurnID : text;
  tq_TraceID : text;
  tq_DeviceID : text;
  tq_AudioPCM : bytes;
  tq_Codec : text;
  tq_SampleRateHz : Z;
  tq_Channels : Z;
  tq_Language : text;
  tq_Hotwords : list text;
  tq_HintPhrases : list text
}.

#[export] Instance TranscriptionRequest_rebuild : Rebuild TranscriptionRequest := fun r =>
  mkTranscriptionRequest (tq_SessionID r) (tq_TurnID r) (tq_TraceID r) (tq_DeviceID r) (tq_AudioPCM r) (tq_Codec r)
    (tq_SampleRateHz r) (tq_Channels r) (tq_Language r) (tq_Hotwords r) (tq_HintPhrases r).

(** A recognizer acts on a world [W]: each of its calls takes the world as it is
    and leaves it as it became, so that a call more or less is a different world.
    A stream keeps a state of its own between its calls. *)
Record TranscriptionStream (W : Type) := mkTranscriptionStream {
  ts_state : Type;
  ts_started : ts_state;
  ts_push : bytes -> ts_state -> W -> ts_state * W * option text;
  ts_finish : ts_state -> W -> ts_state * W * result text TranscriptionResult;
  ts_close : ts_state -> W -> W
}.
Arguments ts_state {W}.
Arguments ts_started {W}.
Arguments ts_push {W}.
Arguments ts_finish {W}.
Arguments ts_close {W}.

(** What a stream reports its deltas to, [None] for no sink. *)
Definition TranscriptionDeltaSink (W : Type) : Type := option (TranscriptionDelta -> W -> W * option text).

(** [tx_stream] is [None] for a recognizer without streams. *)
Record Transcriber (W : Type) := mkTranscriber {
  tx_transcribe : TranscriptionRequest -> W -> W * result text TranscriptionResult;
  tx_stream : option (TranscriptionRequest -> TranscriptionDeltaSink W -> W -> W * result text (TranscriptionStream W))
}.
Arguments mkTranscriber {W}.
Arguments tx_transcribe {W}.
Arguments tx_stream {W}.

(** ** A batch recognizer as a stream (streaming_transcriber.go) *)

Definition with_mode (mode : string) (r : TranscriptionResult) : TranscriptionResult :=
  if TrimSpace (rec_Mode r) == "" then r <|rec_Mode := txt mode|> else r.

Record bufferedStreamingSession := mkBuffered {
  bs_req : TranscriptionRequest;
  bs_buffer : bytes;
  bs_started : bool;
  bs_closed : bool
}.

Definition closed_error : text := "streaming transcription session is closed".
Definition inner_error : text := "streaming transcriber inner is nil".

(** The request of a stream carries no audio of its own. *)
Definition BufferedStartStream (req : TranscriptionRequest) : bufferedStreamingSession :=
  mkBuffered (req <|tq_AudioPCM := []|>) [] false false.

Definition closed (s : bufferedStreamingSession) : bufferedStreamingSession :=
  mkBuffered (bs_req s) (bs_buffer s) (bs_started s) true.

Definition BufferedClose (s : bufferedStreamingSession) : bufferedStreamingSession :=
  mkBuffered (bs_req s) [] (bs_started s) true.

Section Buffered.

Context {W : Type}.

Definition emitTranscriptionDelta (sink : TranscriptionDeltaSink W) (delta : TranscriptionDelta) (w : W) : W * option text :=
  match sink with None => (w, None) | Some f => f delta w end.

Definition BufferedTranscribe (inner : option (Transcriber W)) (req : TranscriptionRequest) (w : W)
    : W * result text TranscriptionResult :=
  match inner with
  | None => (w, Err inner_error)
  | Some inner =>
      match tx_transcribe inner req w with
      | (w, Err e) => (w, Err e)
      | (w, Ok r) => (w, Ok (with_mode "batch" r))
      end
  end.

Definition BufferedPush (sink : TranscriptionDeltaSink W) (chunk : bytes) (s : bufferedStreamingSession) (w : W)
    : bufferedStreamingSession * W * option text :=
  if bs_closed s then (s, w, Some closed_error)
  else if len chunk =? 0 then (s, w, None)
  else
    let appended := mkBuffered (bs_req s) (bs_buffer s ++ chunk) true false in
    if bs_started s then (appended, w, None)
    else
      match emitTranscriptionDelta sink (mkTranscriptionDelta TranscriptionDeltaKindSpeechStart "" "" (len chunk)) w with
      | (w, Some e) => (s, w, Some e)
      | (w, None) => (appended, w, None)
      end.

Definition BufferedFinish (inner : Transcriber W) (sink : TranscriptionDeltaSink W) (s : bufferedStreamingSession) (w : W)
    : bufferedStreamingSession * W * result text TranscriptionResult :=
  if bs_closed s then (s, w, Err closed_error)
  else
    match (if bs_started s
           then emitTranscriptionDelta sink (mkTranscriptionDelta TranscriptionDeltaKindSpeechEnd "" "" (len (bs_buffer s))) w
           else (w, None)) with
    | (w, Some e) => (s, w, Err e)
    | (w, None) =>
        let req := (bs_req s) <|tq_AudioPCM := bs_buffer s|> in
        match tx_transcribe inner req w with
        | (w, Err e) => (closed s, w, Err e)
        | (w, Ok r) =>
            let r := with_mode "buffered_stream" r in
            if TrimSpace (rec_Text r) == "" then (closed s, w, Ok r)
            else
              match emitTranscriptionDelta sink (mkTranscriptionDelta TranscriptionDeltaKindFinal (rec_Text r)
                      (rec_EndpointReason r) (len (tq_AudioPCM req))) w with
              | (w, Some e) => (closed s, w, Err e)
              | (w, None) => (closed s, w, Ok r)
              end
        end
    end.

Definition NewBufferedStreamingTranscriber (inner : option (Transcriber W)) : Transcriber W :=
  mkTranscriber (BufferedTranscribe inner)
    (Some (fun req sink w =>
       match inner with
       | None => (w, Err inner_error)
       | Some inner => (w, Ok (mkTranscriptionStream W bufferedStreamingSession (BufferedStartStream req) (BufferedPush sink)
                                 (BufferedFinish inner sink) (fun _ w => w)))
       end)).

(** ** A turn's audio (asr_responder.go) *)

(** The pieces pushed one after the other, up to the first that is refused; the
    stream is closed on the way out. *)
Fixpoint stream_pieces (stream : TranscriptionStream W) (pieces : list bytes) (st : ts_state stream) (w : W)
    : W * result text TranscriptionResult :=
  match pieces with
  | [] => let '(st, w, r) := ts_finish stream st w in (ts_close stream st w, r)
  | piece :: pieces =>
      match ts_push stream piece st w with
      | (st, w, Some e) => (ts_close stream st w, Err e)
      | (st, w, None) => stream_pieces stream pieces st w
      end
  end.

(** What the responder asks for a turn. [None] is a panic of the splitting,
    excluded by [split_spec]. *)
Definition transcribeAudio (transcriber : Transcriber W) (req : TranscriptionRequest) (w : W)
    : option (W * result text TranscriptionResult) :=
  match tx_stream transcriber with
  | None => Some (tx_transcribe transcriber req w)
  | Some start =>
      match start req None w with
      | (w, Err _) => Some (tx_transcribe transcriber req w)
      | (w, Ok stream) =>
          match splitPCMForStreaming (tq_AudioPCM req) (tq_SampleRateHz req) (tq_Channels req) defaultASRStreamingChunkMs with
          | Ok pieces => Some (stream_pieces stream pieces (ts_started stream) w)
          | Err _ => None
          end
      end
  end.

(** The transcription a preview already has stands for the turn's. *)
Definition transcriptionForTurn (transcriber : Transcriber W) (preview : option TranscriptionResult) (req : TranscriptionRequest)
    (w : W) : option (W * result text TranscriptionResult) :=
  match preview with
  | Some r => if TrimSpace (rec_Text r) != "" then Some (w, Ok r) else transcribeAudio transcriber req w
  | None => transcribeAudio transcriber req w
  end.

End Buffered.

(** A sink that takes every delta. *)
Definition no_sink (d : TranscriptionDelta) : option text := None.

(** ** Metadata *)

Lemma put_speech_other key value m k : txt key <> k -> put_speech key value m !! k = m !! k.
Proof. intros H. unfold put_speech. split_if; [by apply lookup_insert_ne|done]. Qed.

Lemma put_when_other b key value m k : txt key <> k -> put_when b key value m !! k = m !! k.
Proof. intros H. unfold put_when. destruct b; [by apply lookup_insert_ne|done]. Qed.

Lemma speech_metadata_keys r k : HasPrefix k "speech." = false -> buildTranscriptionMetadata r !! k = None.
Proof.
  intros Hk. unfold buildTranscriptionMetadata. cbv zeta.
  match goal with |- (if _ then ∅ else ?m) !! k = None => enough (E : m !! k = None) by (split_if; [apply lookup_empty|exact E]) end.
  repeat (first [rewrite put_when_other | rewrite put_speech_other];
          [|intros E; rewrite <- E in Hk; vm_compute in Hk; discriminate Hk]).
  apply lookup_empty.
Qed.

(** What the recognizer heard is added to the turn's metadata under its own
    prefix; everything else the turn carries, the previous playback included,
    stays as it was. *)
Lemma transcription_keeps_context base r k :
  HasPrefix k "speech." = false -> turnMetadataWithTranscription base r !! k = base !! k.
Proof.
  intros Hk. unfold turnMetadataWithTranscription. rewrite lookup_union_r; [done|]. by apply speech_metadata_keys.
Qed.

(** The number of partials counts the blank ones, the list leaves them out. *)
Lemma partial_count_counts_blanks :
  let m := buildTranscriptionMetadata (zero_TranscriptionResult <|rec_Partials := texts ["hi"; " "]|>) in
  m !! txt "speech.partial_count" = Some (txt "2") /\
  m !! txt "speech.partials" = Some (Marshal (JArray [JString (txt "hi")])).
Proof. split; vm_compute; reflexivity. Qed.

(** ** The buffered stream *)

(** The answer of a recognizer, marked as streamed when it names no mode. *)
Definition streamed (answer : result text TranscriptionResult) : result text TranscriptionResult :=
  match answer with Ok r => Ok (with_mode "buffered_stream" r) | Err e => Err e end.

Definition open_session (req : TranscriptionRequest) (buffer : bytes) : bufferedStreamingSession :=
  mkBuffered (req <|tq_AudioPCM := []|>) buffer (0 <? len buffer) false.

Section Streamed.

Context {W : Type}.

Lemma push_open req buffer piece (w : W) :
  BufferedPush None piece (open_session req buffer) w = (open_session req (buffer ++ piece), w, None).
Proof.
  unfold BufferedPush, open_session. cbn [bs_closed bs_started bs_req bs_buffer emitTranscriptionDelta].
  pose proof (len_nonneg buffer). pose proof (len_nonneg piece). rewrite len_app. destruct (len piece =? 0) eqn:Ep.
  { rewrite len_zero in Ep. destruct piece; [|discriminate]. by rewrite app_nil_r, Z.add_0_r. }
  bool_prop. assert ((0 <? len buffer + len piece) = true) as -> by lia. by destruct (0 <? len buffer).
Qed.

Lemma finish_open inner req buffer (w : W) :
  (BufferedFinish inner None (open_session req buffer) w).1.2 = (tx_transcribe inner (req <|tq_AudioPCM := buffer|>) w).1 /\
  (BufferedFinish inner None (open_session req buffer) w).2 = streamed (tx_transcribe inner (req <|tq_AudioPCM := buffer|>) w).2.
Proof.
  unfold BufferedFinish, open_session. cbn [bs_closed bs_started bs_req bs_buffer emitTranscriptionDelta].
  assert ((if 0 <? len buffer then (w, None) else (w, None)) = (w, @None text)) as -> by (by destruct (0 <? len buffer)). cbv zeta.
  change ((req <|tq_AudioPCM := []|>) <|tq_AudioPCM := buffer|>) with (req <|tq_AudioPCM := buffer|>).
  destruct (tx_transcribe inner _ w) as [w' [r|e]]; [|done]. by split_if.
Qed.

Definition buffered_stream (inner : Transcriber W) (req : TranscriptionRequest) : TranscriptionStream W :=
  mkTranscriptionStream W bufferedStreamingSession (BufferedStartStream req) (BufferedPush None) (BufferedFinish inner None) (fun _ w => w).

Lemma pieces_of_buffered inner req pieces buffer (w : W) :
  stream_pieces (buffered_stream inner req) pieces (open_session req buffer) w =
  let call := tx_transcribe inner (req <|tq_AudioPCM := buffer ++ concat pieces|>) w in (call.1, streamed call.2).
Proof.
  cbv zeta. revert buffer. induction pieces as [|piece pieces IH]; intros buffer;
    cbn [stream_pieces buffered_stream ts_push ts_finish ts_close ts_state concat].
  - rewrite app_nil_r. destruct (finish_open inner req buffer w) as [H1 H2].
    destruct (BufferedFinish inner None _ w) as [[st w'] r]. cbn [fst snd] in H1, H2. by rewrite H1, H2.
  - rewrite push_open. fold (buffered_stream inner req). rewrite IH. by rewrite <- app_assoc.
Qed.

End Streamed.

(** A recognizer that keeps the requests it was asked. *)
Definition logged {W} (inner : Transcriber W) : Transcriber (W * list TranscriptionRequest) :=
  mkTranscriber (fun req w => let call := tx_transcribe inner req w.1 in ((call.1, w.2 ++ [req]), call.2)) None.

(** C31. Streaming is batch recognition. When the recognizer behind the stream is
    a batch one, transcribing a turn piece by piece does to the world what one
    call of it does, for the whole audio of the turn and otherwise the same
    request, and answers what that call answers, marked as streamed when it did
    not name its mode, an error passed on. A recognizer that keeps its requests
    has seen exactly that one more: none for the pieces, none again at the end. *)
Theorem streaming_equals_batch {W} (inner : Transcriber W) req w asked :
  len (tq_AudioPCM req) <= 2 ^ 61 ->
  let call := tx_transcribe inner req w in
  transcribeAudio (NewBufferedStreamingTranscriber (Some inner)) req w = Some (call.1, streamed call.2) /\
  transcribeAudio (NewBufferedStreamingTranscriber (Some (logged inner))) req (w, asked) = Some ((call.1, asked ++ [req]), streamed call.2).
Proof.
  intros Hmax. cbv zeta.
  assert (H : forall V (i : Transcriber V) v, transcribeAudio (NewBufferedStreamingTranscriber (Some i)) req v =
    Some ((tx_transcribe i req v).1, streamed (tx_transcribe i req v).2)).
  { intros V i v. unfold transcribeAudio, NewBufferedStreamingTranscriber. cbn [tx_stream].
    destruct (split_spec (tq_AudioPCM req) (tq_SampleRateHz req) (tq_Channels req) defaultASRStreamingChunkMs Hmax)
      as (pieces & -> & Hc & _).
    pose proof (pieces_of_buffered i req pieces [] v) as Hp. cbn [app] in Hp. rewrite Hc in Hp.
    replace (req <|tq_AudioPCM := tq_AudioPCM req|>) with req in Hp by (by destruct req). exact (f_equal Some Hp). }
  split; [exact (H W inner w) | exact (H _ (logged inner) (w, asked))].
Qed.

(** Without a recognizer inside there is no stream, and no transcription. *)
Lemma nothing_to_stream {W} req (w : W) :
  transcribeAudio (NewBufferedStreamingTranscriber None) req w = Some (w, Err inner_error).
Proof. reflexivity. Qed.

(** It answers how much audio it was given, and how often it had been asked. *)
Definition demo_recognizer : Transcriber Z :=
  mkTranscriber (fun req n => (n + 1, Ok (zero_TranscriptionResult <|rec_Text := Itoa (len (tq_AudioPCM req)) ++ txt "/" ++ Itoa n|>))) None.
Definition demo_speech : TranscriptionRequest :=
  mkTranscriptionRequest "s1" "t1" "" "d1" (repeat Byte.x00 3000) "pcm16le" 16000 1 "zh" [] [].

Lemma streaming_equals_batch_witness :
  len (tq_AudioPCM demo_speech) <= 2 ^ 61 /\
  transcribeAudio (NewBufferedStreamingTranscriber (Some (logged demo_recognizer))) demo_speech (7, []) =
  Some ((8, [demo_speech]), Ok (zero_TranscriptionResult <|rec_Text := txt "3000/7"|> <|rec_Mode := txt "buffered_stream"|>)).
Proof.
  assert (Hl : len (tq_AudioPCM demo_speech) <= 2 ^ 61) by (by vm_compute). split; [exact Hl|].
  destruct (streaming_equals_batch demo_recognizer demo_speech 7 [] Hl) as [_ H]. exact (eq_trans H eq_refl).
Defined.

(** A session that was closed refuses audio and has no result. *)
Lemma closed_session_refuses {W} inner sink chunk s (w : W) :
  bs_closed s = true ->
  BufferedPush sink chunk s w = (s, w, Some closed_error) /\ BufferedFinish inner sink s w = (s, w, Err closed_error).
Proof. intros Hc. unfold BufferedPush, BufferedFinish. by rewrite Hc. Qed.
