(* ===== verification/Responder.v ===== *)
(** * Responders: from a turn's words to its answer and audio
      (internal/voice/asr_responder.go, bootstrap_responder.go, speech_planner.go,
      synthesis_audio.go, turn_executor.go)

    A responder finds out what was said, runs the executor, lets the planner cut
    the answer into clauses while it grows, and returns the answer with the audio
    of those clauses, or with the audio of the whole text when nothing was
    planned.  The executor runs in the monad [agent]; the deltas it emits are those
    the planner observes, for a delta the sink refuses reaches neither.

    The planner's queued stream is one object, handed out early and again with the
    answer: [PlannedAudio] names it, and what it plays are the worker's results for
    the clauses of [ps_queue]. *)

From S2P Require Import Prelude GoText Contracts Lexical BargeIn Memory Orchestrator Audio AgentRuntime BootstrapExecutor.
From S2P Require Import LLMExecutor.
From S2P Require Import EntityGrounding SpeechPlanner PlaybackAck SpeechStream PreviewPipeline TurnResponse Transcription.

(** ** The planned synthesis of an answer *)

Inductive response_audio := PlannedAudio | WholeAudio (s : AudioStream).

Record plannedSpeechSynthesis := mkPlannedSynthesis {
  ps_planner : SpeechPlanner;
  ps_queue : list PlannedSpeechClause; (* all the clauses sent to the worker *)
  ps_planned : duration;
  ps_start : option text (* [None] until [resolveStart]; the empty text: not started *)
}.

Definition newPlannedSpeechSynthesis (z : option Synthesizer) (cfg : SpeechPlannerConfig) : option plannedSpeechSynthesis :=
  let cfg := NormalizeSpeechPlannerConfig cfg in
  match z with
  | None => None
  | Some _ => if negb (sc_Enabled cfg) then None else Some (mkPlannedSynthesis (NewSpeechPlanner cfg) [] 0 None)
  end.

Definition resolveStart (s : text) (p : plannedSpeechSynthesis) : plannedSpeechSynthesis :=
  match ps_start p with
  | Some _ => p
  | None => mkPlannedSynthesis (ps_planner p) (ps_queue p) (ps_planned p) (Some (TrimSpace s))
  end.

Definition enqueue (p : plannedSpeechSynthesis) (clause : PlannedSpeechClause) : plannedSpeechSynthesis :=
  match enqueueClause clause with
  | [] => p
  | clause :: _ =>
      resolveStart (pc_Text clause)
        (mkPlannedSynthesis (ps_planner p) (ps_queue p ++ [clause])
           (i64 (ps_planned p + estimateClausePlaybackDuration clause)) (ps_start p))
  end.

Definition observe_text (s : text) (p : plannedSpeechSynthesis) : plannedSpeechSynthesis :=
  let '(planner, clauses) := ObserveTextDeltaClauses s (ps_planner p) in
  fold_left enqueue clauses (mkPlannedSynthesis planner (ps_queue p) (ps_planned p) (ps_start p)).

Definition ObserveDelta (p : plannedSpeechSynthesis) (d : ResponseDelta) : plannedSpeechSynthesis :=
  if negb (is_text_delta d) then p else observe_text (rd_Text d) p.

Definition Finalize (responseText : text) (p : plannedSpeechSynthesis) : plannedSpeechSynthesis * option response_audio :=
  let '(planner, clauses) := FinalizeTextClauses responseText (ps_planner p) in
  let p := fold_left enqueue clauses (mkPlannedSynthesis planner (ps_queue p) (ps_planned p) (ps_start p)) in
  if len (ps_queue p) =? 0 then (resolveStart [] p, None) else (p, Some PlannedAudio).

Definition ClosePlanned (p : plannedSpeechSynthesis) : plannedSpeechSynthesis := resolveStart [] p.

(** [WaitAudioStart] of the planner: [None] while it is blocked. *)
Definition planner_WaitAudioStart (p : plannedSpeechSynthesis) : option (option (ResponseAudioStart response_audio)) :=
  match ps_start p with
  | None => None
  | Some s => Some (if s == "" then None else Some (mkAudioStart (Some PlannedAudio) s true StartFromSpeechPlanner))
  end.

(** [PlaybackDuration] of the queued stream. *)
Definition planned_PlaybackDuration (p : plannedSpeechSynthesis) : duration := ps_planned p.

(** ** Audio of a whole text *)

Definition silence (n : Z) : bytes := repeat Byte.x00 (Z.to_nat n).

Definition bootstrapAudio (codec : text) (sampleRate channels : Z) : list bytes :=
  if (codec != "pcm16le") || (sampleRate <=? 0) || (channels <=? 0) then []
  else
    let samplesPer20ms := idiv sampleRate 50 in
    let samplesPer20ms := if samplesPer20ms <=? 0 then 320 else samplesPer20ms in
    let frameSize := i64 (i64 (samplesPer20ms * channels) * 2) in
    if frameSize <=? 0 then [] else [silence frameSize; silence frameSize].

(** [synthesizedAudio]: no chunks, and a stream if there is one. *)
Definition synthesizedAudio (z : option Synthesizer) (responseText : text) : option response_audio :=
  match z with
  | None => None
  | Some z => option_map WholeAudio (synthesizedAudioStream z responseText)
  end.

(** ** The responders *)

(** What both responders know of the output; [emitPlaceholder] is always set for
    the bootstrap one. *)
Record output_config := mkOutputConfig {
  oc_Codec : text;
  oc_SampleRate : Z;
  oc_Channels : Z;
  oc_Placeholder : bool;
  oc_Synthesizer : option Synthesizer;
  oc_Planner : SpeechPlannerConfig
}.

Definition audioOutput (c : output_config) (responseText : text) : list bytes * option response_audio :=
  match synthesizedAudio (oc_Synthesizer c) responseText with
  | Some s => ([], Some s)
  | None =>
      if negb (oc_Placeholder c) then ([], None)
      else (bootstrapAudio (oc_Codec c) (oc_SampleRate c) (oc_Channels c), None)
  end.

Definition MayStreamAudioResponse (c : output_config) : bool :=
  bool_decide (is_Some (oc_Synthesizer c)) || oc_Placeholder c.

Section Respond.

Context {W : Type} `{!AgentServices W}.

(** An executor that streams its turn, or one that only executes it. *)
Inductive turn_executor :=
| Streaming (turn : TurnInput -> agent W TurnOutput)
| Plain (execute : TurnInput -> W -> W * result text TurnOutput).

(** The deltas [responseDeltasFromTurn] makes of an output, as the executor's. *)
Definition turn_deltas (output : TurnOutput) : list TurnDelta :=
  if len (to_Deltas output) =? 0 then
    if TrimSpace (to_Text output) == "" then [] else [text_delta (to_Text output)]
  else to_Deltas output.

Fixpoint emit_all (ds : list TurnDelta) : agent W unit :=
  match ds with
  | [] => agent_ret tt
  | d :: ds => do! _ := emitTurnDelta d in emit_all ds
  end.

Definition executeTurnStream (e : option turn_executor) (req : TurnRequest) (userText : text) : agent W TurnOutput :=
  let input := turnInputFromRequest req userText in
  match e with
  | None => BootstrapStreamTurn input
  | Some (Streaming turn) => turn input
  | Some (Plain execute) =>
      do! r := attempt (execute input) in
      match r with
      | Err err => agent_fail err
      | Ok output => do! _ := emit_all (turn_deltas output) in agent_ret output
      end
  end.

Abbreviation response := (TurnResponse response_audio).

(** What a turn leaves: the early start that was announced, and the result. *)
Record turn_outcome := mkTurnOutcome {
  ou_start : option (ResponseAudioStart response_audio);
  ou_planned : option plannedSpeechSynthesis;
  ou_result : result text response
}.

(** The deltas a computation added, as the planner sees them. *)
Definition new_deltas (s s' : agent_state W) : list ResponseDelta :=
  map responseDeltaFromTurnDelta (drop (length (emitted s)) (emitted s')).

Definition announced (p : option plannedSpeechSynthesis) : option (ResponseAudioStart response_audio) :=
  match p with
  | None => None
  | Some p => match planner_WaitAudioStart p with Some start => start | None => None end
  end.

Definition turn_response (inputText : text) (turn : TurnOutput) (audio : list bytes * option response_audio) (hasSink : bool)
    : response :=
  mkTurnResponse inputText (to_Text turn) (if hasSink then [] else responseDeltasFromTurn turn) audio.1 audio.2 false
    (to_EndSession turn) (to_EndReason turn) (to_EndMessage turn).

(** [executeTurnWithPlannedSpeech] and the response around it; the body of the
    bootstrap responder's [respondWithSpeechPlanner] too. *)
Definition respond_with_executor (c : output_config) (e : option turn_executor) (req : TurnRequest)
    (userText inputText : text) (hasSink : bool) (s : agent_state W) : agent_state W * turn_outcome :=
  let planner := newPlannedSpeechSynthesis (oc_Synthesizer c) (oc_Planner c) in
  let '(s', r) := executeTurnStream e req userText s in
  let planner := option_map (fold_left ObserveDelta (new_deltas s s')) planner in
  match r with
  | Err err =>
      let planner := option_map ClosePlanned planner in
      (s', mkTurnOutcome (announced planner) planner (Err err))
  | Ok turn =>
      let '(planner, plannedStream) :=
        match planner with
        | None => (None, None)
        | Some p => let '(p, stream) := Finalize (to_Text turn) p in (Some p, stream)
        end in
      let audio := match plannedStream with Some s => ([], Some s) | None => audioOutput c (to_Text turn) end in
      (s', mkTurnOutcome (announced planner) planner (Ok (turn_response inputText turn audio hasSink)))
  end.

(** The bootstrap responder hands the text on as it is. *)
Definition BootstrapRespond (c : output_config) (e : option turn_executor) (req : TurnRequest) (hasSink : bool)
    : agent_state W -> agent_state W * turn_outcome :=
  respond_with_executor c e req (tr_Text req) (TrimSpace (tr_Text req)) hasSink.

(** The fields of [ASRResponder] that answering uses. *)
Record ASRResponder := mkASRResponder {
  ar_Transcriber : option (Transcriber W);
  ar_Executor : option turn_executor;
  ar_Hints : option (text -> TranscriptionHints);
  ar_Language : text;
  ar_Output : output_config
}.

Definition transcriptionHints (r : ASRResponder) (sessionID : text) : TranscriptionHints :=
  match ar_Hints r with
  | None => mkHints [] []
  | Some provider => if TrimSpace sessionID == "" then mkHints [] [] else provider sessionID
  end.

Definition transcription_request (r : ASRResponder) (req : TurnRequest) : TranscriptionRequest :=
  let hints := transcriptionHints r (tr_SessionID req) in
  mkTranscriptionRequest (tr_SessionID req) (tr_TurnID req) (tr_TraceID req) (tr_DeviceID req) (tr_AudioPCM req)
    (tr_InputCodec req) (tr_InputSampleRate req) (tr_InputChannels req) (ar_Language r) (Hotwords hints)
    (HintPhrases hints).

Definition singleTextResponse (r : ASRResponder) (userText said : text) (hasSink : bool) (s : agent_state W)
    : agent_state W * turn_outcome :=
  match (if hasSink then emitTurnDelta (text_delta said) s else (s, Ok tt)) with
  | (s, Err e) => (s, mkTurnOutcome None None (Err e))
  | (s, Ok _) =>
      let audio := audioOutput (ar_Output r) said in
      (s, mkTurnOutcome None None
            (Ok (mkTurnResponse (TrimSpace userText) said (if hasSink then [] else [text_response_delta said])
                   audio.1 audio.2 false false [] [])))
  end.

Definition no_audio_text : text := "未收到有效音频输入。".
Definition no_speech_text : text := "未识别到有效语音。".
Definition no_transcriber_error : text := "asr transcriber is not configured".

(** [respondWithOptionalPlanning]. [None] is the panic [transcribeAudio] excludes. *)
Definition respondWithOptionalPlanning (r : ASRResponder) (req : TurnRequest) (hasSink : bool) (s : agent_state W)
    : option (agent_state W * turn_outcome) :=
  if TrimSpace (tr_Text req) != "" then
    let userText := TrimSpace (tr_Text req) in
    Some (respond_with_executor (ar_Output r) (ar_Executor r) req userText userText hasSink s)
  else if len (tr_AudioPCM req) =? 0 then Some (singleTextResponse r (tr_Text req) no_audio_text hasSink s)
  else
    match ar_Transcriber r with
    | None => Some (s, mkTurnOutcome None None (Err no_transcriber_error))
    | Some transcriber =>
        match transcriptionForTurn transcriber (tr_PreviewTranscription req) (transcription_request r req) (services s) with
        | None => None
        | Some (w, Err e) => Some (mkAgentState w (emitted s), mkTurnOutcome None None (Err e))
        | Some (w, Ok transcription) =>
            let s := mkAgentState w (emitted s) in
            let userText := TrimSpace (rec_Text transcription) in
            if userText == "" then Some (singleTextResponse r (tr_Text req) no_speech_text hasSink s)
            else
              let req := req <|tr_Metadata := turnMetadataWithTranscription (tr_Metadata req) transcription|> in
              Some (respond_with_executor (ar_Output r) (ar_Executor r) req userText userText hasSink s)
        end
    end.

End Respond.

(** ** What is queued *)

Lemma enqueue_cases clause :
  enqueueClause clause = [] \/ exists c, enqueueClause clause = [c] /\ TrimSpace (pc_Text c) = pc_Text c /\ pc_Text c <> [].
Proof.
  unfold enqueueClause. cbv zeta. destruct (TrimSpace (pc_Text clause) == "") eqn:E; [by left|]. right.
  eexists. split; [reflexivity|]. cbn [pc_Text]. apply text_eqb_false in E. split; [apply TrimSpace_idemp|done].
Qed.

Definition head_text (queue : list PlannedSpeechClause) : option text := option_map pc_Text (head queue).

(** The start is announced with the first clause, and the duration is that of all
    the clauses. *)
Record planned_inv (p : plannedSpeechSynthesis) : Prop := {
  pi_start : ps_start p = head_text (ps_queue p);
  pi_texts : Forall (fun c => TrimSpace (pc_Text c) = pc_Text c /\ pc_Text c <> []) (ps_queue p);
  pi_planned : ps_planned p = i64 (fold_right (fun c n => estimateClausePlaybackDuration c + n) 0 (ps_queue p))
}.

Lemma fold_estimates q c :
  fold_right (fun c n => estimateClausePlaybackDuration c + n) 0 (q ++ [c])
  = fold_right (fun c n => estimateClausePlaybackDuration c + n) 0 q + estimateClausePlaybackDuration c.
Proof. induction q as [|d q IH]; cbn [app fold_right]; [lia|]. rewrite IH. lia. Qed.

Lemma enqueue_spec p clause :
  planned_inv p ->
  planned_inv (enqueue p clause) /\ ps_planner (enqueue p clause) = ps_planner p /\
  ps_queue (enqueue p clause) = ps_queue p ++ enqueueClause clause.
Proof.
  intros [H1 H2 H3]. unfold enqueue. destruct (enqueue_cases clause) as [-> | (c & -> & Ht & Hn)].
  { rewrite app_nil_r. by repeat split. }
  unfold resolveStart. cbn [ps_start ps_planner ps_queue ps_planned]. rewrite H1.
  assert (Hp : i64 (ps_planned p + estimateClausePlaybackDuration c)
               = i64 (fold_right (fun c n => estimateClausePlaybackDuration c + n) 0 (ps_queue p ++ [c]))).
  { rewrite fold_estimates, H3. apply i64_add_l. }
  destruct (ps_queue p) as [|d q] eqn:Eq; cbn [head_text head option_map]; (split; [split|done]);
    cbn [ps_start ps_queue ps_planned app head_text head option_map] in *; try done.
  - by rewrite Ht.
  - by repeat constructor.
  - apply Forall_cons_1 in H2 as [? ?]. constructor; [done|]. apply Forall_app. split; [done|]. by repeat constructor.
Qed.

Lemma enqueue_all_spec clauses p :
  planned_inv p ->
  planned_inv (fold_left enqueue clauses p) /\ ps_planner (fold_left enqueue clauses p) = ps_planner p /\
  ps_queue (fold_left enqueue clauses p) = ps_queue p ++ concat (map enqueueClause clauses).
Proof.
  revert p. induction clauses as [|c clauses IH]; intros p Hp; cbn [fold_left map concat].
  { by rewrite app_nil_r. }
  destruct (enqueue_spec p c Hp) as (I1 & I2 & I3). destruct (IH _ I1) as (J1 & J2 & J3).
  rewrite J2, J3, I2, I3, <- app_assoc. done.
Qed.

Lemma with_planner_inv planner p :
  planned_inv p -> planned_inv (mkPlannedSynthesis planner (ps_queue p) (ps_planned p) (ps_start p)).
Proof. by intros [? ? ?]. Qed.

(** The texts a response's deltas say. *)
Definition said (ds : list ResponseDelta) : list text := map rd_Text (List.filter is_text_delta ds).

Lemma observe_deltas_spec ds p :
  planned_inv p ->
  let p' := fold_left ObserveDelta ds p in
  let '(planner, clauses) := observe_all (said ds) (ps_planner p) in
  planned_inv p' /\ ps_planner p' = planner /\ ps_queue p' = ps_queue p ++ concat (map enqueueClause clauses).
Proof.
  cbv zeta. revert p. induction ds as [|d ds IH]; intros p Hp; cbn [fold_left].
  { cbn [said List.filter map observe_all concat]. by rewrite app_nil_r. }
  unfold said, ObserveDelta at 2 4 6. cbn [List.filter]. destruct (is_text_delta d); cbn [negb]; [|by apply IH].
  cbn [map observe_all]. fold (said ds). unfold observe_text.
  destruct (ObserveTextDeltaClauses (rd_Text d) (ps_planner p)) as [planner clauses].
  destruct (enqueue_all_spec clauses _ (with_planner_inv planner p Hp)) as (E1 & E2 & E3). cbn [ps_planner ps_queue] in *.
  set (p1 := fold_left enqueue clauses _) in *. specialize (IH p1 E1). rewrite E2 in IH.
  destruct (observe_all (said ds) planner) as [planner' clauses']. destruct IH as (I1 & I2 & I3).
  split; [exact I1|]. split; [exact I2|]. by rewrite I3, E3, map_app, concat_app, <- app_assoc.
Qed.

Lemma new_planned_inv cfg : planned_inv (mkPlannedSynthesis (NewSpeechPlanner cfg) [] 0 None).
Proof. by split. Qed.

(** What a finished answer has queued. *)
Lemma finalize_queue cfg ds responseText p' stream :
  Finalize responseText (fold_left ObserveDelta ds (mkPlannedSynthesis (NewSpeechPlanner cfg) [] 0 None)) = (p', stream) ->
  ps_queue p' = concat (map enqueueClause (plan_answer (said ds) responseText (NewSpeechPlanner cfg))) /\
  (stream = None -> ps_queue p' = [] /\ ps_start p' = Some []) /\
  (forall s, stream = Some s -> s = PlannedAudio /\ ps_queue p' <> [] /\ planned_inv p').
Proof.
  intros Hf. pose proof (observe_deltas_spec ds _ (new_planned_inv cfg)) as Ho. cbv zeta in Ho.
  set (p := fold_left ObserveDelta ds _) in *. clearbody p. cbn [ps_planner ps_queue app] in Ho. unfold plan_answer.
  destruct (observe_all (said ds) (NewSpeechPlanner cfg)) as [planner early]. destruct Ho as (H1 & H2 & H3).
  unfold Finalize in Hf. rewrite H2 in Hf. destruct (FinalizeTextClauses responseText planner) as [planner' late].
  destruct (enqueue_all_spec late _ (with_planner_inv planner' p H1)) as (E1 & E2 & E3).
  set (q := fold_left enqueue late _) in *. cbn [ps_queue snd] in *.
  assert (Hq : ps_queue q = concat (map enqueueClause (early ++ late))) by (by rewrite E3, H3, map_app, concat_app).
  rewrite len_zero in Hf. destruct (ps_queue q) as [|c cs] eqn:Eq; injection Hf as <- <-.
  - unfold resolveStart. destruct E1 as [Es _ _]. rewrite Es, Eq. cbn [head_text head option_map ps_queue].
    rewrite <- Hq, ?Eq. by repeat split.
  - rewrite <- Hq, ?Eq. split; [done|]. split; [done|]. intros s [= <-]. done.
Qed.

(** ** The early start and the answer *)

Lemma announced_start p : ps_queue p <> [] -> planned_inv p ->
  exists c, announced (Some p) = Some (mkAudioStart (Some PlannedAudio) (pc_Text c) true StartFromSpeechPlanner) /\
    head (ps_queue p) = Some c /\ pc_Text c <> [].
Proof.
  intros Hq [Hs Ht _]. unfold announced, planner_WaitAudioStart. rewrite Hs.
  destruct (ps_queue p) as [|c cs]; [done|]. cbn [head_text head option_map].
  apply Forall_cons_1 in Ht as [[_ Hn] _]. assert ((pc_Text c == "") = false) as -> by (by apply text_eqb_false).
  by exists c.
Qed.

Lemma close_keeps_start p start :
  planned_inv p -> announced (Some (ClosePlanned p)) = Some start -> announced (Some p) = Some start /\ ps_queue p <> [].
Proof.
  intros [Hs _ _]. unfold announced, planner_WaitAudioStart, ClosePlanned, resolveStart.
  destruct (ps_start p) eqn:E.
  - rewrite E. intros H. split; [exact H|]. intros Eq. by rewrite Eq in Hs.
  - cbn [ps_start]. by assert ((TrimSpace [] == "") = true) as -> by done.
Qed.

Definition whole_audio (a : option response_audio) : Prop := a <> Some PlannedAudio.

Lemma output_is_whole c s : whole_audio (audioOutput c s).2.
Proof.
  unfold audioOutput, synthesizedAudio, whole_audio.
  destruct (oc_Synthesizer c) as [z|]; [|by split_if].
  destruct (synthesizedAudioStream z s); cbn [option_map]; [done|by split_if].
Qed.

(** An outcome whose early start and answer agree on the audio. *)
Definition start_agrees (o : turn_outcome) : Prop :=
  (forall start, ou_start o = Some start ->
     as_Stream start = Some PlannedAudio /\ as_Text start <> [] /\
     forall r, ou_result o = Ok r -> rsp_AudioStream r = Some PlannedAudio /\ rsp_AudioChunks r = []) /\
  (forall r, ou_result o = Ok r -> rsp_AudioStream r = Some PlannedAudio -> is_Some (ou_start o)).

Section Agreement.

Context {W : Type} `{!AgentServices W}.

Lemma executor_start_agrees c e req userText inputText hasSink (s : agent_state W) :
  start_agrees (respond_with_executor c e req userText inputText hasSink s).2.
Proof.
  unfold respond_with_executor. cbv zeta. destruct (executeTurnStream e req userText s) as [s' r].
  unfold newPlannedSpeechSynthesis. cbv zeta. set (cfg := NormalizeSpeechPlannerConfig (oc_Planner c)).
  assert (Hnone : forall turn, start_agrees (mkTurnOutcome None None (Ok (turn_response inputText turn (audioOutput c (to_Text turn)) hasSink)))).
  { intros turn. split; [done|]. cbn [ou_result]. intros r0 [= <-]. cbn [turn_response rsp_AudioStream].
    intros Ha. by destruct (output_is_whole c (to_Text turn)). }
  assert (Herr : forall p err, match p with Some p => planned_inv p | None => True end ->
    start_agrees (mkTurnOutcome (announced (option_map ClosePlanned p)) (option_map ClosePlanned p) (Err err))).
  { intros [p|] err Hp; (split; [|done]); cbn [option_map ou_start ou_result]; [|done]. intros start Hs.
    apply close_keeps_start in Hs as [Hs Hq]; [|done]. destruct (announced_start p Hq Hp) as (c0 & E & _ & Hn).
    rewrite E in Hs. injection Hs as <-. done. }
  set (planner := match oc_Synthesizer c with Some _ => _ | None => _ end).
  assert (Hpl : planner = None \/ planner = Some (mkPlannedSynthesis (NewSpeechPlanner cfg) [] 0 None))
    by (subst planner; destruct (oc_Synthesizer c); [destruct (negb (sc_Enabled cfg))|]; auto).
  clearbody planner. set (ds := new_deltas s s'). clearbody ds.
  destruct Hpl as [-> | ->]; cbn [option_map]; destruct r as [turn|err]; cbn [snd].
  - apply Hnone.
  - by apply (Herr None err).
  - destruct (Finalize (to_Text turn) _) as [p stream] eqn:Ef. apply finalize_queue in Ef as (_ & F2 & F3).
    destruct stream as [a|].
    + destruct (F3 a eq_refl) as (-> & Hq & Hi). destruct (announced_start p Hq Hi) as (c0 & E & _ & Hn).
      split; cbn [ou_start ou_result]; rewrite E; [|done]. intros start [= <-]. split; [done|]. split; [done|].
      intros r0 [= <-]. done.
    + assert (announced (Some p) = None) as E by (unfold announced, planner_WaitAudioStart; rewrite (proj2 (F2 eq_refl)); by vm_compute).
      cbn [ou_start]. rewrite E. destruct (Hnone turn) as [_ Hn]. by split.
  - apply (Herr (Some _) err). pose proof (observe_deltas_spec ds _ (new_planned_inv cfg)) as Ho. cbv zeta in Ho.
    destruct (observe_all _ _). by destruct Ho.
Qed.

(** C18. The audio that starts early is the answer's audio. Whatever was said or
    heard, whatever the executor and the synthesizer do, when the ASR responder
    announces early audio it is the planner's stream with the text of a first
    clause, and an answer that is returned carries that same stream and no other
    audio; and an answer whose audio is the planner's stream has been announced. *)
Theorem early_start_is_the_answers_audio (r : ASRResponder (W := W)) req hasSink s outcome :
  respondWithOptionalPlanning r req hasSink s = Some outcome -> start_agrees outcome.2.
Proof.
  assert (Hs : forall userText t s, start_agrees (singleTextResponse r userText t hasSink s).2).
  { intros userText t s0. unfold singleTextResponse. destruct (if hasSink then _ else _) as [s1 [[]|e]]; cbn [snd]; [|by split].
    cbv zeta. split; [done|]. cbn [ou_result]. intros r0 [= <-]. cbn [rsp_AudioStream]. intros Ha.
    by destruct (output_is_whole (ar_Output r) t). }
  unfold respondWithOptionalPlanning. cbv zeta.
  destruct (TrimSpace (tr_Text req) != ""); [intros [= <-]; apply executor_start_agrees|].
  destruct (len (tr_AudioPCM req) =? 0); [intros [= <-]; apply Hs|].
  destruct (ar_Transcriber r) as [transcriber|]; [|by intros [= <-]].
  destruct (transcriptionForTurn _ _ _ _) as [[w [t|e]]|]; [|by intros [= <-]|done].
  destruct (TrimSpace (rec_Text t) == ""); intros [= <-]; [apply Hs|apply executor_start_agrees].
Qed.

End Agreement.

(** A runtime that keeps nothing and offers no tools. *)
#[local] Instance quiet_services : AgentServices unit := {
  load_context _ w := (w, Ok zero_MemoryContext);
  save_turn _ w := w;
  list_tools _ w := (w, Ok []);
  invoke_tool _ w := (w, Err (txt "no tool"));
  sink_error _ _ _ := None
}.

Definition demo_output : output_config :=
  mkOutputConfig "pcm16le" 16000 1 false (Some demo_synthesizer) (mkPlannerConfig true 0 0).

Definition demo_turn_request (said : text) : TurnRequest :=
  mkTurnRequest "s1" "t1" "" "d1" "web" said ∅ None [] 0 0 "pcm16le" 16000 1.

Definition demo_responder : ASRResponder (W := unit) := mkASRResponder None None None "zh" demo_output.

Definition demo_outcome : option (agent_state unit * turn_outcome) :=
  respondWithOptionalPlanning demo_responder (demo_turn_request "/tool time.now") false (mkAgentState tt []).

Lemma early_start_is_the_answers_audio_witness :
  match demo_outcome with
  | None => False
  | Some outcome => is_Some (ou_start outcome.2) /\ start_agrees outcome.2
  end.
Proof.
  destruct demo_outcome as [outcome|] eqn:E; [|by vm_compute in E].
  split; [|by apply (early_start_is_the_answers_audio _ _ _ _ _ E)].
  revert E. vm_compute. intros [= <-]. by eexists.
Defined.

(** ** From the executor to the client's ear *)

Lemma words_nonblank s : TrimSpace s <> [] -> words s <> [].
Proof.
  intros H E. apply H. apply TrimFunc_nil. clear H. unfold words in E.
  induction s as [|r s IH]; [constructor|]. cbn [List.filter] in E. destruct (IsSpace r) eqn:Er; [|done].
  by constructor; [|apply IH].
Qed.

Lemma text_delta_kind d :
  is_text_delta (responseDeltaFromTurnDelta d) = match td_Kind d with TurnDeltaKindText => true | _ => false end.
Proof. unfold is_text_delta. by destruct d as [[] ? ? ? ? ? ?]. Qed.

Lemma said_spoken ds :
  Forall delta_speaks ds ->
  let deltas := said (map responseDeltaFromTurnDelta ds) in
  Forall (fun d => TrimSpace d <> []) deltas /\ concat deltas = spoken_text ds.
Proof.
  cbv zeta. unfold said, spoken_text. induction 1 as [|d ds Hd _ [IH1 IH2]]; [done|].
  unfold delta_speaks in Hd. cbn [map List.filter].
  rewrite text_delta_kind. destruct (td_Kind d); cbn [map concat];
    [|by rewrite Hd|by rewrite Hd].
  split; [by constructor|]. cbn [responseDeltaFromTurnDelta rd_Text]. by rewrite IH2.
Qed.

Section Heard.

Context {W : Type} `{!AgentServices W}.
Variables (c : output_config) (z : Synthesizer).
Hypothesis Hsynth : oc_Synthesizer c = Some z.
Hypothesis Hcomplete : complete z.
Hypothesis Henabled : sc_Enabled (oc_Planner c) = true.

(** What the client hears of a turn: the answer was announced early, its audio is
    the planner's stream, and playing the worker's results for the queued clauses
    ends with all the words of the answer announced in order. *)
Definition heard (o : turn_outcome) : Prop :=
  exists p r, ou_planned o = Some p /\ ou_result o = Ok r /\ TrimSpace (rsp_Text r) <> [] /\
    is_Some (ou_start o) /\ rsp_AudioStream r = Some PlannedAudio /\
    let results := runWorker z (ps_queue p) in
    (len results <= max_int64 -> forall meta, exists evs, play meta results = Some (evs, PlayedOut) /\
       map SegmentIndex (announcements evs) = seqZ 1 (len (announcements evs)) /\
       words (concat (map meta_Text (announcements evs))) = words (rsp_Text r) /\
       audio_of evs = concat (map (fun r => concat (chunks (q_stream r))) results)).

Lemma planned_words cfg deltas final :
  Forall (fun d => TrimSpace d <> []) deltas -> concat deltas `prefix_of` final -> TrimSpace final <> [] ->
  concat (map enqueueClause (plan_answer deltas final (NewSpeechPlanner cfg))) <> [].
Proof.
  intros Hd Hp Hf E. destruct (observe_all deltas (NewSpeechPlanner cfg)) as [p early] eqn:Eo.
  destruct (plan_answer_facts cfg deltas final early p Hd Hp Eo) as (late & _ & Hw & _ & Hc & _ & _).
  destruct (worker_spec z _ Hcomplete Hc) as (W1 & _ & _). rewrite E in W1. cbn [runWorker map] in W1.
  apply (words_nonblank final Hf). rewrite <- Hw. unfold spoken. by rewrite <- W1.
Qed.

Lemma speaking_turn_is_heard e req userText inputText hasSink (s : agent_state W) :
  emits (executeTurnStream e req userText) speaks ->
  heard (respond_with_executor c e req userText inputText hasSink s).2.
Proof.
  intros He. destruct (He s) as (ds & Eds & (output & Er & Et & Hn & Hs)).
  unfold respond_with_executor. cbv zeta. destruct (executeTurnStream e req userText s) as [s' r].
  cbn [fst snd] in *. subst r. unfold new_deltas, newPlannedSpeechSynthesis. rewrite Eds, drop_app_length, Hsynth. cbv zeta.
  assert (sc_Enabled (NormalizeSpeechPlannerConfig (oc_Planner c)) = true) as -> by exact Henabled.
  cbn [negb option_map]. destruct (said_spoken ds Hs) as [Hd Hc]. cbv zeta in Hd, Hc.
  set (ds' := map responseDeltaFromTurnDelta ds) in *.
  destruct (Finalize (to_Text output) _) as [p stream] eqn:Ef. apply finalize_queue in Ef as (Hq & Fn & Fs).
  assert (Hp : concat (said ds') `prefix_of` to_Text output) by (by rewrite Hc, Et).
  pose proof (planned_words (NormalizeSpeechPlannerConfig (oc_Planner c)) _ _ Hd Hp Hn) as Hne. rewrite <- Hq in Hne.
  exists p. eexists. split; [reflexivity|]. split; [reflexivity|]. cbn [turn_response rsp_Text rsp_AudioStream ou_start].
  split; [exact Hn|]. destruct stream as [a|]; [|by destruct (Fn eq_refl)].
  destruct (Fs a eq_refl) as (-> & _ & Hi). destruct (announced_start p Hne Hi) as (c0 & E & _ & _). rewrite E.
  split; [by eexists|]. split; [done|]. cbv zeta. rewrite Hq. intros Hl meta.
  destruct (answer_is_played z _ (said ds') (to_Text output) meta Hcomplete Hd Hp Hl) as (evs & P1 & P2 & P3 & _ & P5).
  by exists evs.
Qed.

End Heard.

(** The responder knows what was said: as text, or from audio it could transcribe. *)
Definition understands {W} `{!AgentServices W} (r : ASRResponder (W := W)) (req : TurnRequest) (w : W) : Prop :=
  TrimSpace (tr_Text req) <> [] \/
  (TrimSpace (tr_Text req) = [] /\ tr_AudioPCM req <> [] /\
   exists transcriber w' t, ar_Transcriber r = Some transcriber /\
     transcriptionForTurn transcriber (tr_PreviewTranscription req) (transcription_request r req) w = Some (w', Ok t) /\
     TrimSpace (rec_Text t) <> []).

(** C19. A turn that was understood is heard. Without a model, whatever the memory,
    the registry and the tools do, with the planner enabled and a synthesizer that
    answers every text: when the request has a text, or audio the transcriber finds
    words in, the responder answers with a text that is not blank, announces its
    audio early, returns the stream it announced, and playing that stream ends with
    every word of the answer announced in segments 1, 2, 3, ... and the frames of
    every clause sent in order. *)
Theorem understood_turn_is_heard {W} `{!AgentServices W} `{!Collecting W}
    (r : ASRResponder (W := W)) z req hasSink (s : agent_state W) :
  ar_Executor r = None -> oc_Synthesizer (ar_Output r) = Some z -> complete z ->
  sc_Enabled (oc_Planner (ar_Output r)) = true -> understands r req (services s) ->
  exists outcome, respondWithOptionalPlanning r req hasSink s = Some outcome /\ heard z outcome.2.
Proof.
  intros He Hs Hz Hen Hu.
  assert (Hall : forall req userText s, heard z
      (respond_with_executor (ar_Output r) (ar_Executor r) req userText userText hasSink s).2).
  { intros req' userText s0. apply speaking_turn_is_heard; [done..|]. rewrite He. apply bootstrap_turn_speaks. }
  unfold respondWithOptionalPlanning. cbv zeta. destruct Hu as [Ht|(Ht & Ha & transcriber & w' & t & Hr & Htr & Hw)].
  - assert ((TrimSpace (tr_Text req) == "") = false) as -> by (by apply text_eqb_false). cbn [negb].
    by eexists.
  - rewrite Ht. change ([] == txt "") with true. cbn [negb]. destruct (tr_AudioPCM req) as [|b bs] eqn:Ea; [done|].
    rewrite len_zero, Hr, Htr. assert ((TrimSpace (rec_Text t) == "") = false) as -> by (by apply text_eqb_false).
    by eexists.
Qed.

#[local] Instance quiet_collects : Collecting unit.
Proof. done. Qed.

Lemma understood_turn_is_heard_witness :
  exists outcome, respondWithOptionalPlanning demo_responder (demo_turn_request "/tool time.now") false (mkAgentState tt [])
    = Some outcome /\ heard demo_synthesizer outcome.2.
Proof.
  apply (understood_turn_is_heard demo_responder demo_synthesizer); [done|done|exact demo_complete|done|].
  left. by vm_compute.
Defined.

(** ** A heard turn and what was prepared for it *)

Lemma Itoa_not_blank n : 0 < n -> TrimSpace (Itoa n) <> [].
Proof.
  intros Hn Hb. apply blank_spaces in Hb. destruct (Itoa n) as [|r rest] eqn:E.
  - assert (E' := Itoa_value n ltac:(lia)). rewrite E in E'. cbn in E'. lia.
  - inversion_clear Hb as [|? ? Hr _]. assert (Hin : r ∈ Itoa n) by (rewrite E; by left).
    apply Itoa_runes in Hin as [Hr'| ->]; [|by vm_compute in Hr].
    assert (r = 48 \/ r = 49 \/ r = 50 \/ r = 51 \/ r = 52 \/ r = 53 \/ r = 54 \/ r = 55 \/ r = 56 \/ r = 57) as Hd by lia.
    repeat (destruct Hd as [-> |Hd]; [by vm_compute in Hr|]). subst r. by vm_compute in Hr.
Qed.

(** A turn that was transcribed carries how many clauses were heard. *)
Lemma heard_clauses base r :
  TrimSpace (rec_Text r) <> [] ->
  exists n, 0 < n /\ metadata_get (turnMetadataWithTranscription base r) (txt "speech.text_clause_count") = Itoa n.
Proof.
  intros Ht. exists (estimateSpeechClauseCount (rec_Text r) (rec_Segments r)).
  assert (Hn : 0 < estimateSpeechClauseCount (rec_Text r) (rec_Segments r)).
  { unfold estimateSpeechClauseCount. destruct (0 <? len _) eqn:E; bool_prop; [lia|]. cbv zeta.
    pose proof (proj2 (text_eqb_false _ (txt "")) Ht) as ->. pose proof (len_nonneg (List.filter (ContainsRune clause_marks) (TrimSpace (rec_Text r)))). lia. }
  split; [exact Hn|]. unfold metadata_get, turnMetadataWithTranscription, buildTranscriptionMetadata. cbv zeta.
  set (m := put_when (0 <? estimateSpeechClauseCount _ _) _ _ _).
  assert (Hm : m !! txt "speech.text_clause_count" = Some (Itoa (estimateSpeechClauseCount (rec_Text r) (rec_Segments r)))).
  { subst m. unfold put_when. assert ((0 <? estimateSpeechClauseCount (rec_Text r) (rec_Segments r)) = true) as -> by lia. apply lookup_insert_eq. }
  assert (Hs : m !! txt "speech.source" = Some (txt "asr")).
  { subst m. repeat (first [rewrite put_when_other | rewrite put_speech_other]; [|by vm_compute]). by vm_compute. }
  clearbody m.
  match goal with |- default [] (((if _ then ∅ else ?m') ∪ base) !! _) = _ => set (m2 := m') end.
  assert (H2 : m2 !! txt "speech.text_clause_count" = Some (Itoa (estimateSpeechClauseCount (rec_Text r) (rec_Segments r))) /\
               m2 !! txt "speech.source" = Some (txt "asr")).
  { subst m2. split; repeat (first [rewrite put_when_other]; [|by vm_compute]); [exact Hm|exact Hs]. }
  destruct H2 as [H2 H3]. clearbody m2.
  assert (Hsize : (Z.of_nat (size m2) =? 1) = false).
  { apply Z.eqb_neq. intros E. assert (E0 : size (delete (txt "speech.source") m2) = 0%nat) by (rewrite map_size_delete_Some by (by eexists); exact (f_equal pred (Nat2Z.inj _ 1 E))).
    apply map_size_empty_inv in E0. assert (E1 : delete (txt "speech.source") m2 !! txt "speech.text_clause_count" = None) by (rewrite E0; apply lookup_empty).
    rewrite lookup_delete_ne in E1 by by vm_compute. rewrite H2 in E1. discriminate E1. }
  rewrite Hsize. cbn [andb]. by rewrite (lookup_union_Some_l _ _ _ _ H2).
Qed.

(** What a preview prepared is not taken by the turn that was previewed.  A turn the
    transcriber found words in always carries speech metadata of its own, the
    number of its clauses at least, and the candidate of a preview was signed
    without any: whatever the words, however soon, the turn starts cold. *)
Theorem heard_turn_starts_cold now q base r c :
  TrimSpace (rec_Text r) <> [] -> wc_MetadataSig c = [] ->
  ti_Metadata q = turnMetadataWithTranscription base r ->
  candidate_matches now q (TrimSpace (ti_UserText q)) (ti_Metadata q) c = false.
Proof.
  intros Ht Hc ->. destruct (heard_clauses base r Ht) as (n & Hn & E).
  apply not_true_iff_false. unfold candidate_matches. rewrite !andb_true_iff. intros [_ H]. apply text_eqb_true in H. rewrite Hc in H.
  symmetry in H. apply (proj1 (signature_nil _)) with (key := txt "speech.text_clause_count") in H; [|by vm_compute].
  rewrite E in H. by apply (Itoa_not_blank n).
Qed.

Lemma heard_turn_starts_cold_witness :
  let r := zero_TranscriptionResult <|rec_Text := "What time is it?"|> in
  let q := mkTurnInput "s1" "t1" "" "d1" "web" "What time is it?" (mkAudioInput true 0 0 "" 0 0) [] (turnMetadataWithTranscription ∅ r) in
  let c := mkCandidate "s1" "d1" "web" "What time is it?" [] 0 [] zero_MemoryContext [] ∅ in
  candidate_matches 0 q (TrimSpace (ti_UserText q)) (ti_Metadata q) c = false.
Proof.
  intros r q c. assert (Ht : TrimSpace (rec_Text r) <> []) by (by vm_compute).
  exact (heard_turn_starts_cold 0 q ∅ r c Ht eq_refl eq_refl).
Defined.
