(* ===== verification/TurnFlow.v ===== *)
(** * The flow of a turn through the gateway
      (internal/gateway/turn_flow.go, responseDeltasForEmission and responseModalities
      of realtime_ws.go)

    The gateway runs a responder and sends what it produces to the client: one
    response start, the deltas, the collected text, and the audio as soon as it may
    start.  What the responder produces arrives on three channels, and the [select]
    of the loop takes them in any order: a run is a list of [select_case]s, and
    [schedule_of] says which lists three given channels can produce.

    The world [W] is what the turn runs in: the runtime of the connection, with its
    turn trace and its clock ([TurnWorld]).  The callbacks of the transport change it
    and may fail, and the flow records each call.  What other goroutines do to the
    world while the select waits is a case of its own, [Meanwhile].  A responder
    without channels has no context, and [fl_cancelled] no meaning for it. *)

From S2P Require Import Prelude GoText Contracts Audio AgentRuntime BargeIn TurnTrace TurnResponse OutputEffects.

(** ** What the turn said *)

(** [collectedTurnText]: its parts. *)
Definition collect_Add (parts : list text) (d : ResponseDelta) : list text :=
  if negb (is_text_delta d) || (TrimSpace (rd_Text d) == "") then parts else parts ++ [rd_Text d].

Definition collect_AddAll (parts : list text) (ds : list ResponseDelta) : list text := fold_left collect_Add ds parts.

Definition Joined (parts : list text) : text := TrimSpace (Join parts "").

Definition responseDeltasForEmission {A} (r : TurnResponse A) (allowTextFallback : bool) : list ResponseDelta :=
  if 0 <? len (rsp_Deltas r) then rsp_Deltas r
  else if allowTextFallback && (TrimSpace (rsp_Text r) != "") then [text_response_delta (rsp_Text r)]
  else [].

Definition responseModalities {A} (ds : list ResponseDelta) (r : TurnResponse A) : list text :=
  let modalities := (if 0 <? len ds then texts ["text"] else []) ++ (if has_own_audio r then texts ["audio"] else []) in
  if len modalities =? 0 then texts ["text"] else modalities.

Definition modalitiesForAudioStart {A} (start : ResponseAudioStart A) (seenAnyDelta : bool) : list text :=
  if seenAnyDelta || (TrimSpace (as_Text start) != "") then texts ["text"; "audio"] else texts ["audio"].

Definition aggregatedTextForAudioStart {A} (parts : list text) (start : ResponseAudioStart A) : text :=
  let joined := TrimSpace (Joined parts) in
  let audioHint := TrimSpace (as_Text start) in
  if joined == "" then audioHint
  else if audioHint == "" then joined
  else if HasPrefix audioHint joined then audioHint
  else joined.

Definition markResponseAudioTransferred {A} (r : TurnResponse A) : TurnResponse A :=
  if bool_decide (rsp_AudioStream r = None) && (len (rsp_AudioChunks r) =? 0) then r
  else r <|rsp_AudioStream := None|> <|rsp_AudioChunks := []|> <|rsp_AudioStreamTransferred := true|>.

(** ** The stream that cancels the turn when it is closed *)

Record cancelOnCloseAudioStream := mkCancelOnClose {
  cc_inner : AudioStream;
  cc_released : bool;
  cc_cancels : Z (* calls of [cancel] *)
}.

Definition newCancelOnClose (s : AudioStream) : cancelOnCloseAudioStream := mkCancelOnClose s false 0.

Definition release (s : cancelOnCloseAudioStream) : cancelOnCloseAudioStream :=
  if cc_released s then s else mkCancelOnClose (cc_inner s) true (cc_cancels s + 1).

Definition cancel_Next (s : cancelOnCloseAudioStream) : cancelOnCloseAudioStream * result stream_error bytes :=
  let '(r, inner) := stream_Next (cc_inner s) in
  let s := mkCancelOnClose inner (cc_released s) (cc_cancels s) in
  match r with
  | Err (StreamError _) => (release s, r)
  | _ => (s, r)
  end.

Definition cancel_Close : cancelOnCloseAudioStream -> cancelOnCloseAudioStream := release.

(** ** The flow *)

(** A stream of a response: as the responder made it, or wrapped. *)
Inductive turn_stream (A : Type) := Inner (a : A) | CancelOnClose (a : turn_stream A).
Arguments Inner {A}.
Arguments CancelOnClose {A}.

(** What the flow uses of the runtime it runs in. *)
Class TurnWorld (W : Type) := {
  read_clock : W -> W * instant;
  world_traces : W -> turnTraceState;
  with_traces : turnTraceState -> W -> W
}.

Section Flow.

Context {A W : Type} `{!TurnWorld W}.

Abbreviation stream := (turn_stream A).
Abbreviation response := (TurnResponse stream).
Abbreviation audio_start := (ResponseAudioStart stream).

(** The calls of the transport's callbacks. *)
Inductive flow_effect :=
| CallResponseStart (trace : turnTrace) (responseID : text) (modalities : list text) (r : response)
| CallResponseDelta (responseID : text) (d : ResponseDelta)
| CallTextCollected (trace : turnTrace) (aggregatedText : text)
| CallStartAudio (trace : turnTrace) (responseID : text) (start : audio_start) (aggregatedText : text).

(** A callback that may fail. *)
Definition callback := flow_effect -> W -> W * option text.

(** [turnExecutionOptions]; [MayStream] is what the responder hints of itself. *)
Record turnExecutionOptions := mkExecutionOptions {
  xo_SessionID : text;
  xo_ResponseID : text;
  xo_EmitResponseStart : option callback;
  xo_EmitResponseDelta : option callback;
  xo_OnTextDeltaCollected : option (turnTrace -> text -> W -> W);
  xo_StartResponseAudio : option callback;
  xo_MayStream : bool
}.

Record flow_state := mkFlow {
  fl_world : W;
  fl_trace : turnTrace;
  fl_logs : list (text * log_attrs);
  fl_effects : list flow_effect;
  fl_parts : list text;
  fl_response : response;
  fl_ready : bool;
  fl_sent : bool;
  fl_seen : bool;
  fl_completion : option turnOutputOutcomeFuture;
  fl_cancelled : bool;
  fl_deltas_open : bool;
  fl_audio_open : bool;
  fl_response_open : bool
}.

#[local] Instance flow_rebuild : Rebuild flow_state := fun s =>
  mkFlow (fl_world s) (fl_trace s) (fl_logs s) (fl_effects s) (fl_parts s) (fl_response s) (fl_ready s)
    (fl_sent s) (fl_seen s) (fl_completion s) (fl_cancelled s) (fl_deltas_open s) (fl_audio_open s) (fl_response_open s).

Definition flow (R : Type) : Type := flow_state -> flow_state * result text R.
Definition flow_ret {R} (x : R) : flow R := fun s => (s, Ok x).
Definition flow_bind {R Q} (m : flow R) (f : R -> flow Q) : flow Q := fun s =>
  let '(s, r) := m s in match r with Ok x => f x s | Err e => (s, Err e) end.
Definition modify (f : flow_state -> flow_state) : flow unit := fun s => (f s, Ok tt).

#[local] Notation "m ;; k" := (flow_bind m (fun _ => k)) (at level 100, right associativity).

(** The error a callback returns; the flow cancels the turn and hands it on. *)
Definition call (f : option callback) (fx : flow_effect) : flow unit := fun s =>
  match f with
  | None => (s, Ok tt)
  | Some f =>
      let '(w, r) := f fx (fl_world s) in
      let s := s <|fl_world := w|> <|fl_effects := fl_effects s ++ [fx]|> in
      match r with
      | Some e => (s <|fl_cancelled := true|>, Err e)
      | None => (s, Ok tt)
      end
  end.

Definition markTurnResponseStart (opts : turnExecutionOptions) (responseID : text) (modalities : list text) : flow unit :=
  modify (fun s =>
    let '(w, now) := read_clock (fl_world s) in
    let '(traces, trace) := MarkResponseStart now (world_traces w) in
    s <|fl_world := with_traces traces w|> <|fl_trace := trace|>
      <|fl_logs := fl_logs s ++
          logTurnTraceInfo "gateway turn response started" (xo_SessionID opts) trace
            [attr "response_id" (LogText responseID);
             attr "response_start_latency_ms" (LogInt (ResponseStartLatencyMs trace));
             attr "modalities" (LogText (Join modalities ","));
             attr "has_audio" (LogBool (has_own_audio (fl_response s)))]|>).

(** The response start of a turn: marked, then emitted. *)
Definition start_response (opts : turnExecutionOptions) (responseID : text) (modalities : list text) : flow unit := fun s =>
  (markTurnResponseStart opts responseID modalities ;;
   fun s => call (xo_EmitResponseStart opts) (CallResponseStart (fl_trace s) responseID modalities (fl_response s)) s) s.

Definition start_response_once (opts : turnExecutionOptions) (responseID : text) (modalities : list text) : flow unit :=
  fun s => if fl_sent s then (s, Ok tt)
           else (start_response opts responseID modalities ;; modify (fun s => s <|fl_sent := true|>)) s.

(** One delta: the first text is marked, then the delta goes out. *)
Definition emitTurnResponseDelta (opts : turnExecutionOptions) (responseID : text) (d : ResponseDelta) : flow unit :=
  modify (fun s =>
    if negb (is_text_delta d) then s
    else
      let '(w, now) := read_clock (fl_world s) in
      let '(traces, logs) := markTurnFirstTextDelta now (xo_SessionID opts) (rd_Text d) (world_traces w) in
      s <|fl_world := with_traces traces w|> <|fl_logs := fl_logs s ++ logs|>) ;;
  call (xo_EmitResponseDelta opts) (CallResponseDelta responseID d).

Fixpoint emit_response_deltas (opts : turnExecutionOptions) (responseID : text) (ds : list ResponseDelta) : flow unit :=
  match ds with
  | [] => flow_ret tt
  | d :: ds => emitTurnResponseDelta opts responseID d ;; emit_response_deltas opts responseID ds
  end.

Definition text_collected (opts : turnExecutionOptions) (cond : flow_state -> bool) : flow unit := fun s =>
  match xo_OnTextDeltaCollected opts with
  | None => (s, Ok tt)
  | Some f =>
      if cond s
      then (s <|fl_world := f (fl_trace s) (Joined (fl_parts s)) (fl_world s)|>
              <|fl_effects := fl_effects s ++ [CallTextCollected (fl_trace s) (Joined (fl_parts s))]|>, Ok tt)
      else (s, Ok tt)
  end.

(** The answer as a whole: what a responder that streamed nothing sends. *)
Definition emit_whole (opts : turnExecutionOptions) (responseID : text) (ds : list ResponseDelta) : flow unit :=
  (fun s => start_response opts responseID (responseModalities ds (fl_response s)) s) ;;
  emit_response_deltas opts responseID ds ;;
  modify (fun s => s <|fl_parts := collect_AddAll (fl_parts s) ds|>) ;;
  text_collected opts (fun s => TrimSpace (Joined (fl_parts s)) != "").

Definition emit_response (opts : turnExecutionOptions) (responseID : text) : flow unit := fun s =>
  emit_whole opts responseID (responseDeltasForEmission (fl_response s) true) s.

Definition resolveCompletion (s : flow_state) : flow_state :=
  match fl_completion s with
  | Some f =>
      if fl_ready s then
        s <|fl_completion := Some (OutputEffects.Resolve
              (mkOutputOutcome (rsp_EndSession (fl_response s)) (rsp_EndReason (fl_response s))
                 (rsp_EndMessage (fl_response s))) f)|>
      else s
  | None => s
  end.

(** ** The cases of the select *)

Inductive select_case :=
| DeltaReceived (d : ResponseDelta)
| DeltasClosed
| AudioStarted (r : result text (option (ResponseAudioStart A)))
| ResponseReady (r : result text (TurnResponse A))
| Meanwhile (f : W -> W). (* what another goroutine does while the select waits *)

Definition from_responder (r : TurnResponse A) : response :=
  mkTurnResponse (rsp_InputText r) (rsp_Text r) (rsp_Deltas r) (rsp_AudioChunks r) (option_map Inner (rsp_AudioStream r))
    (rsp_AudioStreamTransferred r) (rsp_EndSession r) (rsp_EndReason r) (rsp_EndMessage r).

Definition wrapResponseAudioStart (start : ResponseAudioStart A) : audio_start :=
  mkAudioStart (option_map (fun a => CancelOnClose (Inner a)) (as_Stream start)) (as_Text start) (as_Incremental start)
    (as_Source start).

Definition on_delta (opts : turnExecutionOptions) (responseID : text) (modalities : list text) (d : ResponseDelta)
    : flow unit :=
  modify (fun s => s <|fl_seen := true|> <|fl_parts := collect_Add (fl_parts s) d|>) ;;
  start_response_once opts responseID modalities ;;
  emitTurnResponseDelta opts responseID d ;;
  text_collected opts (fun _ => is_text_delta d).

Definition on_audio_start (opts : turnExecutionOptions) (responseID : text) (start : ResponseAudioStart A) : flow unit :=
  (fun s => start_response_once opts responseID (modalitiesForAudioStart start (fl_seen s)) s) ;;
  modify (fun s => s <|fl_completion := Some newTurnOutputOutcomeFuture|>) ;;
  (fun s => call (xo_StartResponseAudio opts)
              (CallStartAudio (fl_trace s) responseID (wrapResponseAudioStart start)
                 (aggregatedTextForAudioStart (fl_parts s) start)) s) ;;
  modify (fun s => resolveCompletion (s <|fl_response := markResponseAudioTransferred (fl_response s)|>)).

Definition fail_flow (e : text) : flow unit := fun s => (s <|fl_cancelled := true|>, Err e).

Definition on_response (opts : turnExecutionOptions) (responseID : text) (r : TurnResponse A) : flow unit :=
  modify (fun s =>
    let s := s <|fl_response := from_responder r|> <|fl_ready := true|> in
    resolveCompletion
      (if fl_completion s is Some _ then s <|fl_response := markResponseAudioTransferred (fl_response s)|> else s)) ;;
  fun s => if fl_sent s then (s, Ok tt)
           else (emit_response opts responseID ;; modify (fun s => s <|fl_sent := true|>)) s.

Definition on_select (opts : turnExecutionOptions) (responseID : text) (modalities : list text) (c : select_case)
    : flow unit :=
  match c with
  | DeltasClosed => modify (fun s => s <|fl_deltas_open := false|>)
  | DeltaReceived d => on_delta opts responseID modalities d
  | AudioStarted r =>
      modify (fun s => s <|fl_audio_open := false|>) ;;
      match r with
      | Err e => fail_flow e
      | Ok None => modify resolveCompletion
      | Ok (Some start) => on_audio_start opts responseID start
      end
  | ResponseReady r =>
      modify (fun s => s <|fl_response_open := false|>) ;;
      match r with
      | Err e => fail_flow e
      | Ok r => on_response opts responseID r
      end
  | Meanwhile f => modify (fun s => s <|fl_world := f (fl_world s)|>)
  end.

Definition channels_open (s : flow_state) : bool := fl_response_open s || fl_deltas_open s || fl_audio_open s.

(** The loop over the cases the select takes: [None] while it would go on waiting. *)
Fixpoint select_loop (opts : turnExecutionOptions) (responseID : text) (modalities : list text)
    (cases : list select_case) (s : flow_state) : flow_state * option (result text unit) :=
  if negb (channels_open s) then (s, Some (Ok tt))
  else match cases with
  | [] => (s, None)
  | c :: cases =>
      match on_select opts responseID modalities c s with
      | (s, Err e) => (s, Some (Err e))
      | (s, Ok _) => select_loop opts responseID modalities cases s
      end
  end.

(** ** The three ways to run a responder *)

Record turnExecutionResult := mkExecutionResult {
  er_Trace : turnTrace;
  er_Response : response;
  er_ResponseID : text;
  er_AggregatedText : text
}.

Definition execution_result (responseID : text) (s : flow_state) : turnExecutionResult :=
  mkExecutionResult (fl_trace s) (fl_response s) responseID (Joined (fl_parts s)).

Definition flow_begin (w : W) (trace : turnTrace) (audio : bool) : flow_state :=
  mkFlow w trace [] [] [] zero_response false false false None false true audio true.

(** A stream the client still has to play holds the turn's context; without one
    it is cancelled now. *)
Definition keep_or_cancel (keep : bool) (s : flow_state) : flow_state :=
  match rsp_AudioStream (fl_response s) with
  | Some a =>
      if keep then s <|fl_response := (fl_response s) <|rsp_AudioStream := Some (CancelOnClose a)|>|> else s
  | None => if keep then s <|fl_cancelled := true|> else s
  end.

Definition finish_flow (responseID : text) (epilogue : flow_state -> flow_state)
    (o : flow_state * option (result text unit)) : flow_state * option (result text turnExecutionResult) :=
  match o with
  | (s, None) => (s, None)
  | (s, Some (Err e)) => (s, Some (Err e))
  | (s, Some (Ok _)) => let s := epilogue s in (s, Some (Ok (execution_result responseID s)))
  end.

Definition delta_modalities (opts : turnExecutionOptions) : list text :=
  if bool_decide (is_Some (xo_StartResponseAudio opts)) && xo_MayStream opts then texts ["text"; "audio"]
  else texts ["text"].

(** [started] is the error of [RespondOrchestrated]. *)
Definition executeOrchestratedTurnResponse (opts : turnExecutionOptions) (responseID : text) (started : option text)
    (cases : list select_case) (w : W) (trace : turnTrace)
    : flow_state * option (result text turnExecutionResult) :=
  let s := flow_begin w trace (bool_decide (is_Some (xo_StartResponseAudio opts))) in
  match started with
  | Some e => (s <|fl_cancelled := true|>, Some (Err e))
  | None =>
      finish_flow responseID
        (fun s => keep_or_cancel (negb (rsp_AudioStreamTransferred (fl_response s))) s)
        (select_loop opts responseID (delta_modalities opts) cases s)
  end.

Definition executeStreamingTurnResponse (opts : turnExecutionOptions) (responseID : text)
    (cases : list select_case) (w : W) (trace : turnTrace)
    : flow_state * option (result text turnExecutionResult) :=
  finish_flow responseID (keep_or_cancel true)
    (select_loop opts responseID (texts ["text"]) cases (flow_begin w trace false)).

(** A responder by the best it can do, with what it does. *)
Inductive responder_run :=
| Orchestrating (started : option text) (cases : list select_case)
| StreamingOnly (cases : list select_case)
| Responding (r : result text (TurnResponse A)).

Definition executeTurnResponse (opts : turnExecutionOptions) (run : responder_run) (w : W)
    (trace : turnTrace) : flow_state * option (result text turnExecutionResult) :=
  let responseID := TrimSpace (xo_ResponseID opts) in
  let '(w, responseID) :=
    if responseID == "" then let '(w, now) := read_clock w in (w, txt "resp_" ++ Itoa (UnixNano now)) else (w, responseID) in
  match run with
  | Orchestrating started cases => executeOrchestratedTurnResponse opts responseID started cases w trace
  | StreamingOnly cases => executeStreamingTurnResponse opts responseID cases w trace
  | Responding r =>
      let s := flow_begin w trace false in
      match r with
      | Err e => (s, Some (Err e))
      | Ok r =>
          match emit_response opts responseID (s <|fl_response := from_responder r|>) with
          | (s, Err e) => (s, Some (Err e))
          | (s, Ok _) => (s, Some (Ok (execution_result responseID s)))
          end
      end
  end.

End Flow.

#[export] Existing Instance flow_rebuild.

(** ** Which schedules three channels can produce *)

Section Schedules.

Context {A W : Type}.

Definition of_deltas (c : select_case (A := A) (W := W)) : bool :=
  match c with DeltaReceived _ | DeltasClosed => true | _ => false end.
Definition of_audio (c : select_case (A := A) (W := W)) : bool := match c with AudioStarted _ => true | _ => false end.
Definition of_response (c : select_case (A := A) (W := W)) : bool := match c with ResponseReady _ => true | _ => false end.

(** Every channel delivers in order; the select interleaves them. [audio] is
    [None] when nobody asks for early audio. *)
Record schedule_of (deltas : list ResponseDelta) (audio : option (result text (option (ResponseAudioStart A))))
    (r : result text (TurnResponse A)) (cases : list (select_case (A := A) (W := W))) : Prop := {
  so_deltas : List.filter of_deltas cases = map DeltaReceived deltas ++ [DeltasClosed];
  so_audio : List.filter of_audio cases = match audio with Some a => [AudioStarted a] | None => [] end;
  so_response : List.filter of_response cases = [ResponseReady r]
}.

End Schedules.

(** ** What is sent *)

Section Sent.

Context {A W : Type} `{!TurnWorld W}.

Abbreviation effect := (flow_effect (A := A)).
Abbreviation state := (flow_state (A := A) (W := W)).

Definition delta_of (fx : effect) : list ResponseDelta := match fx with CallResponseDelta _ d => [d] | _ => [] end.
Definition sent_deltas (fxs : list effect) : list ResponseDelta := concat (map delta_of fxs).

Definition is_start (fx : effect) : bool := match fx with CallResponseStart _ _ _ _ => true | _ => false end.

Definition audio_call (fx : effect) : list (ResponseAudioStart (turn_stream A)) :=
  match fx with CallStartAudio _ _ start _ => [start] | _ => [] end.
Definition audio_calls (fxs : list effect) : list (ResponseAudioStart (turn_stream A)) := concat (map audio_call fxs).

Lemma sent_deltas_app l l' : sent_deltas (l ++ l') = sent_deltas l ++ sent_deltas l'.
Proof. unfold sent_deltas. by rewrite map_app, concat_app. Qed.
Lemma audio_calls_app l l' : audio_calls (l ++ l') = audio_calls l ++ audio_calls l'.
Proof. unfold audio_calls. by rewrite map_app, concat_app. Qed.

Lemma sent_map id ds : sent_deltas (map (CallResponseDelta id) ds) = ds.
Proof. induction ds as [|d ds IH]; [done|]. unfold sent_deltas in *. cbn [map concat delta_of app]. by rewrite IH. Qed.
Lemma audio_map id ds : audio_calls (map (CallResponseDelta id) ds) = [].
Proof. by induction ds. Qed.
Lemma starts_map id ds : List.filter is_start (map (CallResponseDelta id) ds) = [].
Proof. by induction ds. Qed.

(** A transport that takes every call. *)
Record serving (opts : turnExecutionOptions (A := A) (W := W)) : Prop := {
  sv_start : exists f, xo_EmitResponseStart opts = Some f /\ forall fx w, (f fx w).2 = None;
  sv_delta : exists f, xo_EmitResponseDelta opts = Some f /\ forall fx w, (f fx w).2 = None;
  sv_audio : forall f, xo_StartResponseAudio opts = Some f -> forall fx w, (f fx w).2 = None
}.

(** Everything but the trace, the logs and the calls. *)
Definition core (s : state) :=
  (fl_parts s, fl_response s, (fl_ready s, fl_sent s, fl_seen s, fl_completion s),
   (fl_cancelled s, fl_deltas_open s, fl_audio_open s, fl_response_open s)).

(** [m] succeeds, changes the core by [f] and makes the calls [fxs]. *)
Definition does (m : flow (A := A) (W := W) unit) (s : state) (fxs : list effect -> Prop) (f : state -> Prop) : Prop :=
  exists s', m s = (s', Ok tt) /\ (exists l, fl_effects s' = fl_effects s ++ l /\ fxs l) /\ f s'.

Lemma does_bind (m k : flow (A := A) (W := W) unit) s P Q f g :
  does m s P f -> (forall s', f s' -> does k s' Q g) ->
  does (flow_bind m (fun _ => k)) s (fun l => exists l1 l2, l = l1 ++ l2 /\ P l1 /\ Q l2) g.
Proof.
  intros (s1 & E1 & (l1 & L1 & P1) & F1) Hk. destruct (Hk s1 F1) as (s2 & E2 & (l2 & L2 & P2) & F2).
  exists s2. unfold flow_bind. rewrite E1. split; [exact E2|]. split; [|exact F2].
  exists (l1 ++ l2). rewrite L2, L1, app_assoc. split; [done|]. by exists l1, l2.
Qed.

Lemma does_weaken (m : flow (A := A) (W := W) unit) s P Q f g :
  does m s P f -> (forall l, P l -> Q l) -> (forall s', f s' -> g s') -> does m s Q g.
Proof. intros (s' & E & (l & L & Pl) & F) H1 H2. exists s'. split; [done|]. split; [|by apply H2]. exists l. by split; [|apply H1]. Qed.

Lemma does_modify f s (g : state -> Prop) :
  fl_effects (f s) = fl_effects s -> g (f s) -> does (modify f) s (fun l => l = []) g.
Proof. intros He Hg. exists (f s). split; [done|]. split; [|done]. exists []. by rewrite He, app_nil_r. Qed.

Lemma does_call f fx s :
  (forall fx w, (f fx w).2 = None) -> does (call (Some f) fx) s (fun l => l = [fx]) (fun s' => core s' = core s).
Proof.
  intros Hf. unfold does, call. specialize (Hf fx (fl_world s)). destruct (f fx (fl_world s)) as [w r]. cbn [snd] in Hf. subst r.
  eexists. split; [reflexivity|]. split; [|by unfold core; read_fields].
  exists [fx]. split; [by read_fields|done].
Qed.

(** A computation that looks at the state first. *)
Lemma does_read (m : state -> flow (A := A) (W := W) unit) s P f : does (m s) s P f -> does (fun s => m s s) s P f.
Proof. done. Qed.

Lemma does_start opts id mods s :
  serving opts ->
  does (start_response opts id mods) s
    (fun l => exists tr, l = [CallResponseStart tr id mods (fl_response s)]) (fun s' => core s' = core s).
Proof.
  intros [(f & Hf & Hn) _ _]. unfold start_response.
  eapply does_weaken; [eapply does_bind; [apply (does_modify _ _ (fun s' => core s' = core s /\ fl_response s' = fl_response s))|] | |].
  - destruct (read_clock _), (MarkResponseStart _ _). by read_fields.
  - destruct (read_clock _), (MarkResponseStart _ _). unfold core. by read_fields.
  - intros s' [Hs Hr]. apply (does_read (fun s => call _ (CallResponseStart (fl_trace s) id mods (fl_response s)))).
    rewrite Hf, Hr. eapply does_weaken; [by apply does_call| |].
    + intros l Hl. exact (ex_intro (fun tr => l = [CallResponseStart tr id mods (fl_response s)]) _ Hl).
    + intros s'' E. exact (eq_trans E Hs).
  - cbn beta. intros l (l1 & l2 & -> & -> & tr & ->). by exists tr.
  - done.
Qed.

Lemma does_delta opts id d s :
  serving opts ->
  does (emitTurnResponseDelta opts id d) s (fun l => l = [CallResponseDelta id d]) (fun s' => core s' = core s).
Proof.
  intros [_ (f & Hf & Hn) _]. unfold emitTurnResponseDelta.
  eapply does_weaken; [eapply does_bind; [apply (does_modify _ _ (fun s' => core s' = core s))|] | |].
  - destruct (negb _); [done|]. destruct (read_clock _), (markTurnFirstTextDelta _ _ _ _). by read_fields.
  - destruct (negb _); [done|]. destruct (read_clock _), (markTurnFirstTextDelta _ _ _ _). unfold core. by read_fields.
  - intros s' Hs. rewrite Hf. eapply does_weaken; [by apply does_call|intros l Hl; exact Hl|]. intros s'' E. exact (eq_trans E Hs).
  - cbn beta. by intros l (l1 & l2 & -> & -> & ->).
  - done.
Qed.

Lemma does_deltas opts id ds s :
  serving opts ->
  does (emit_response_deltas opts id ds) s (fun l => l = map (CallResponseDelta id) ds) (fun s' => core s' = core s).
Proof.
  intros Ho. revert s. induction ds as [|d ds IH]; intros s; cbn [emit_response_deltas].
  { exists s. split; [done|]. split; [|done]. exists []. by rewrite app_nil_r. }
  eapply does_weaken; [eapply does_bind; [by apply does_delta|]| |].
  - intros s' Hs. eapply does_weaken; [apply (IH s')|intros l Hl; exact Hl|]. intros s'' E. exact (eq_trans E Hs).
  - cbn beta. by intros l (l1 & l2 & -> & -> & ->).
  - done.
Qed.

End Sent.

(** ** What the handlers do *)

Section Handlers.

Context {A W : Type} `{!TurnWorld W} (opts : turnExecutionOptions (A := A) (W := W)) (id : text).
Hypothesis Hserving : serving opts.

Abbreviation effect := (flow_effect (A := A)).
Abbreviation state := (flow_state (A := A) (W := W)).

(** The calls of a handler: a response start in front or none at all, these
    deltas, these audio starts. *)
Record shape (opening : bool) (ds : list ResponseDelta) (au : list (ResponseAudioStart (turn_stream A)))
    (l : list effect) : Prop := {
  sh_starts : if opening then exists tr mods r rest, l = CallResponseStart tr id mods r :: rest /\ List.filter is_start rest = []
              else List.filter is_start l = [];
  sh_deltas : sent_deltas l = ds;
  sh_audio : audio_calls l = au
}.

Lemma shape_nil : shape false [] [] [].
Proof. by split. Qed.

Lemma shape_app b ds ds' au au' l l' :
  shape b ds au l -> shape false ds' au' l' -> shape b (ds ++ ds') (au ++ au') (l ++ l').
Proof.
  intros [H1 H2 H3] [J1 J2 J3]. split.
  - destruct b; [destruct H1 as (tr & mods & r & rest & -> & H1); exists tr, mods, r, (rest ++ l'); split; [done|]|];
      by rewrite List.filter_app, H1, J1.
  - by rewrite sent_deltas_app, H2, J2.
  - by rewrite audio_calls_app, H3, J3.
Qed.

Lemma core_sent (s s' : state) : core s = core s' -> fl_sent s = fl_sent s'.
Proof. unfold core. by intros [=]. Qed.
Lemma core_seen (s s' : state) : core s = core s' -> fl_seen s = fl_seen s'.
Proof. unfold core. by intros [=]. Qed.
Lemma core_response (s s' : state) : core s = core s' -> fl_response s = fl_response s'.
Proof. unfold core. by intros [=]. Qed.

Lemma core_set_sent (s s' : state) : core s = core s' -> core (s <|fl_sent := true|>) = core (s' <|fl_sent := true|>).
Proof. unfold core. intros [=]. read_fields. congruence. Qed.

Lemma core_collect ds (s s' : state) : core s = core s' ->
  core (s <|fl_parts := collect_AddAll (fl_parts s) ds|>) = core (s' <|fl_parts := collect_AddAll (fl_parts s') ds|>).
Proof. unfold core. intros [=]. read_fields. congruence. Qed.

(** [does] with a shape and the core of a state. *)
Definition runs (m : flow (A := A) (W := W) unit) (s : state) b ds au (s1 : state) : Prop :=
  does m s (shape b ds au) (fun s' => core s' = core s1).

Lemma runs_seq (m k : flow (A := A) (W := W) unit) s b ds ds' ds2 au au' au2 s1 s2 :
  runs m s b ds au s1 -> (forall s', core s' = core s1 -> runs k s' false ds' au' s2) ->
  ds ++ ds' = ds2 -> au ++ au' = au2 -> runs (flow_bind m (fun _ => k)) s b ds2 au2 s2.
Proof.
  intros Hm Hk <- <-. eapply does_weaken; [eapply does_bind; [exact Hm|exact Hk]| |done].
  cbn beta. intros l (l1 & l2 & -> & H1 & H2). by apply shape_app.
Qed.

(** [seq_with ds ds' au au']: the first part sends [ds] and [au]. *)
Tactic Notation "seq_with" uconstr(ds1) uconstr(ds2) uconstr(au1) uconstr(au2) :=
  let d1 := constr:(ds1 : list ResponseDelta) in let d2 := constr:(ds2 : list ResponseDelta) in
  let a1 := open_constr:(au1) in let a2 := open_constr:(au2) in
  eapply runs_seq with (ds := d1) (ds' := d2) (au := a1) (au' := a2); [| |by rewrite ?app_nil_r|by rewrite ?app_nil_r].

Lemma runs_modify f (s s1 : state) :
  fl_effects (f s) = fl_effects s -> core (f s) = core s1 -> runs (modify f) s false [] [] s1.
Proof. intros He Hc. eapply does_weaken; [by apply (does_modify f s (fun s' => core s' = core s1))| |done]. by intros l ->. Qed.

(** A change of the core in front. *)
Lemma runs_after_modify f (k : flow (A := A) (W := W) unit) s b ds au s2 :
  fl_effects (f s) = fl_effects s -> runs k (f s) b ds au s2 -> runs (flow_bind (modify f) (fun _ => k)) s b ds au s2.
Proof. intros He (s' & E & (l & L & Sh) & Hc). exists s'. split; [exact E|]. split; [|exact Hc]. exists l. by rewrite <- He. Qed.

Lemma runs_once mods s :
  runs (start_response_once opts id mods) s (negb (fl_sent s)) [] [] (s <|fl_sent := true|>).
Proof.
  unfold start_response_once. destruct (fl_sent s) eqn:E; cbn [negb].
  - exists s. rewrite E. split; [done|]. split; [by exists []; rewrite app_nil_r|]. unfold core. read_fields. by rewrite E.
  - assert (H : runs (flow_bind (start_response opts id mods) (fun _ => modify (fun s => s <|fl_sent := true|>)))
        s true [] [] (s <|fl_sent := true|>)).
    { seq_with [] [] [] [].
      - eapply does_weaken; [by apply does_start| |intros s' H; exact H]. intros l [tr ->]. split; [|done|done]. by repeat eexists.
      - intros s' Hs. apply runs_modify; [by read_fields|by apply core_set_sent]. }
    destruct H as (s' & H & H'). exists s'. by rewrite E.
Qed.

Lemma runs_text cond s : runs (text_collected opts cond) s false [] [] s.
Proof.
  unfold text_collected, runs, does. destruct (xo_OnTextDeltaCollected opts); [destruct (cond s)|]; eexists; (split; [reflexivity|]).
  - split; [|by unfold core; read_fields]. eexists. split; [by read_fields|]. by split.
  - split; [|done]. exists []. by rewrite app_nil_r.
  - split; [|done]. exists []. by rewrite app_nil_r.
Qed.

Lemma runs_delta d s : runs (emitTurnResponseDelta opts id d) s false [d] [] s.
Proof. eapply does_weaken; [by apply does_delta| |done]. by intros l ->. Qed.

Lemma runs_deltas ds s : runs (emit_response_deltas opts id ds) s false ds [] s.
Proof.
  eapply does_weaken; [by apply does_deltas| |done]. intros l ->.
  split; [apply starts_map|apply sent_map|apply audio_map].
Qed.

Lemma core_resolve (s s' : state) : core s = core s' -> core (resolveCompletion s) = core (resolveCompletion s').
Proof.
  intros E. pose proof E as E'. unfold core in E'. injection E' as ? ? Hr ? ? Hc ? ? ? ?. unfold resolveCompletion.
  rewrite Hc, Hr. destruct (fl_completion s'); [|exact E]. destruct (fl_ready s'); [|exact E].
  unfold core in *. read_fields. congruence.
Qed.

Lemma resolve_effects (s : state) : fl_effects (resolveCompletion s) = fl_effects s.
Proof. unfold resolveCompletion. destruct (fl_completion s); [|done]. destruct (fl_ready s); [by read_fields|done]. Qed.

Definition after_delta (d : ResponseDelta) (s : state) : state :=
  s <|fl_seen := true|> <|fl_parts := collect_Add (fl_parts s) d|> <|fl_sent := true|>.

Lemma runs_on_delta mods d s :
  runs (on_delta opts id mods d) s (negb (fl_sent s)) [d] [] (after_delta d s).
Proof.
  unfold on_delta. eapply runs_after_modify; [by read_fields|].
  set (s1 := s <|fl_seen := true|> <|fl_parts := _|>). assert (fl_sent s = fl_sent s1) as -> by (subst s1; by read_fields).
  seq_with [] [d] [] []; [by apply runs_once|]. intros s2 H2.
  seq_with [d] [] [] []; [by eapply runs_delta|]. intros s3 H3. eapply does_weaken; [apply runs_text|done|].
  cbn beta. intros s4 H4. by rewrite H4, H3, H2.
Qed.

Definition after_audio (start : ResponseAudioStart A) (s : state) : state :=
  let s := s <|fl_sent := true|> <|fl_completion := Some newTurnOutputOutcomeFuture|> in
  resolveCompletion (s <|fl_response := markResponseAudioTransferred (fl_response s)|>).

Lemma runs_on_audio_start start s :
  is_Some (xo_StartResponseAudio opts) ->
  runs (on_audio_start opts id start) s (negb (fl_sent s)) [] [wrapResponseAudioStart start] (after_audio start s).
Proof.
  intros [f Hf]. unfold on_audio_start, after_audio. cbv zeta.
  seq_with [] [] [] [wrapResponseAudioStart start];
    [apply (runs_once (modalitiesForAudioStart start (fl_seen s)) s)|]. intros s1 H1.
  eapply runs_after_modify; [by read_fields|]. set (s2 := s1 <|fl_completion := _|>).
  seq_with [] [] [wrapResponseAudioStart start] [].
  - rewrite Hf. eapply does_weaken; [apply does_call, (sv_audio _ Hserving f Hf)| |intros s3 H3; exact H3].
    intros l ->. by split.
  - intros s3 H3. apply runs_modify; [by rewrite resolve_effects; read_fields|]. apply core_resolve.
    unfold core in *. subst s2. read_fields_in H1. read_fields_in H3. read_fields. congruence.
Qed.

Definition take_response (r : TurnResponse A) (s : state) : state :=
  let s := s <|fl_response := from_responder r|> <|fl_ready := true|> in
  resolveCompletion (if fl_completion s is Some _ then s <|fl_response := markResponseAudioTransferred (fl_response s)|> else s).

Definition response_deltas (r : TurnResponse A) : list ResponseDelta := responseDeltasForEmission (from_responder r) true.

Definition after_response (r : TurnResponse A) (s : state) : state :=
  let s1 := take_response r s in
  if fl_sent s then s1 else s1 <|fl_parts := collect_AddAll (fl_parts s1) (response_deltas r)|> <|fl_sent := true|>.

Lemma take_response_fields r s :
  fl_effects (take_response r s) = fl_effects s /\ fl_sent (take_response r s) = fl_sent s /\
  responseDeltasForEmission (fl_response (take_response r s)) true = response_deltas r.
Proof.
  unfold take_response. cbv zeta. rewrite resolve_effects. unfold resolveCompletion, response_deltas.
  destruct (fl_completion _) eqn:Ec; read_fields_in Ec; read_fields; rewrite ?Ec; read_fields; [|done].
  split; [done|]. split; [done|]. unfold markResponseAudioTransferred. destruct (_ && _); [done|].
  unfold responseDeltasForEmission. by read_fields.
Qed.

Lemma runs_on_response r s :
  runs (on_response opts id r) s (negb (fl_sent s)) (if fl_sent s then [] else response_deltas r) [] (after_response r s).
Proof.
  destruct (take_response_fields r s) as (He & Hs & Hd). unfold on_response, after_response. cbv zeta.
  eapply runs_after_modify; [exact He|]. fold (take_response r s). set (s1 := take_response r s) in *. rewrite <- Hs.
  destruct (fl_sent s1) eqn:Es; cbn [negb].
  { exists s1. rewrite Es. split; [done|]. split; [|done]. exists []. rewrite app_nil_r. by split. }
  assert (H : runs (flow_bind (emit_response opts id) (fun _ => modify (fun s => s <|fl_sent := true|>))) s1 true
      (response_deltas r) []
      (s1 <|fl_parts := collect_AddAll (fl_parts s1) (response_deltas r)|> <|fl_sent := true|>)).
  2: { destruct H as (s' & H & H'). exists s'. by rewrite Es. }
  seq_with (response_deltas r) [] [] []; [|intros s2 H2; apply runs_modify; [by read_fields|by apply core_set_sent]].
  apply (does_read (fun s => emit_whole opts id (responseDeltasForEmission (fl_response s) true))).
  rewrite Hd. set (ds := response_deltas r) in *. unfold emit_whole.
  seq_with [] ds [] [].
  - eapply does_weaken; [by apply does_start| |intros s' H; exact H]. intros l [tr ->]. split; [|done|done]. by repeat eexists.
  - intros s2 H2.     seq_with ds [] [] []; [by apply runs_deltas|]. intros s3 H3. eapply runs_after_modify; [by read_fields|].
    eapply does_weaken; [apply runs_text|done|]. cbn beta. intros s4 H4. rewrite H4. apply core_collect. by rewrite H3.
Qed.

End Handlers.

(** ** Runs *)

Section Runs.

Context {A W : Type} `{!TurnWorld W} (opts : turnExecutionOptions (A := A) (W := W)) (id : text) (modalities : list text).
Hypothesis Hserving : serving opts.

Abbreviation state := (flow_state (A := A) (W := W)).
Abbreviation case := (select_case (A := A) (W := W)).

(** What the cases taken so far brought. *)
Definition started_audio (c : case) : option (ResponseAudioStart A) :=
  match c with AudioStarted (Ok start) => start | _ => None end.
Definition ready_response (c : case) : option (TurnResponse A) :=
  match c with ResponseReady (Ok r) => Some r | _ => None end.
Definition delta_in (c : case) : list ResponseDelta := match c with DeltaReceived d => [d] | _ => [] end.

Definition audio_in (done : list case) : option (ResponseAudioStart A) := head (omap started_audio done).
Definition response_in (done : list case) : option (TurnResponse A) := head (omap ready_response done).
Definition deltas_in (done : list case) : list ResponseDelta := concat (map delta_in done).

(** A case that sends the response start when nothing has. *)
Definition opens (c : case) : bool :=
  match c with DeltaReceived _ | AudioStarted (Ok (Some _)) | ResponseReady (Ok _) => true | _ => false end.

(** The deltas sent from the answer itself: only when the answer came first. *)
Definition fallback (done : list case) : list ResponseDelta :=
  match List.find opens done with Some (ResponseReady (Ok r)) => response_deltas r | _ => [] end.

Definition all_deltas (done : list case) : list ResponseDelta := fallback done ++ deltas_in done.

Definition response_now (done : list case) : TurnResponse (turn_stream A) :=
  match response_in done with
  | None => zero_response
  | Some r => if audio_in done is Some _ then markResponseAudioTransferred (from_responder r) else from_responder r
  end.

Definition outcome_of (r : TurnResponse A) : turnOutputOutcome :=
  mkOutputOutcome (rsp_EndSession r) (rsp_EndReason r) (rsp_EndMessage r).

Definition completion_now (done : list case) : option turnOutputOutcomeFuture :=
  match audio_in done, response_in done with
  | Some _, Some r => Some (mkOutcomeFuture true (outcome_of r))
  | Some _, None => Some newTurnOutputOutcomeFuture
  | None, _ => None
  end.

Record flow_inv (done : list case) (s : state) : Prop := {
  fi_shape : shape id (existsb opens done) (all_deltas done)
               (match audio_in done with Some start => [wrapResponseAudioStart start] | None => [] end) (fl_effects s);
  fi_parts : fl_parts s = collect_AddAll [] (all_deltas done);
  fi_response : fl_response s = response_now done;
  fi_ready : fl_ready s = bool_decide (is_Some (response_in done));
  fi_sent : fl_sent s = existsb opens done;
  fi_completion : fl_completion s = completion_now done;
  fi_cancelled : fl_cancelled s = false;
  fi_quiet : existsb opens done = false -> fl_effects s = []
}.

Lemma find_snoc (done : list case) c :
  List.find opens (done ++ [c]) = if existsb opens done then List.find opens done else if opens c then Some c else None.
Proof. induction done as [|c0 done IH]; cbn [app List.find existsb]; [done|]. by destruct (opens c0); cbn [orb]. Qed.

Lemma head_omap_snoc {B} (f : case -> option B) done c :
  head (omap f (done ++ [c])) = match head (omap f done) with Some b => Some b | None => f c end.
Proof.
  rewrite omap_app. destruct (omap f done); cbn [app head]; [|done]. cbn. by destruct (f c).
Qed.

Lemma audio_snoc done c :
  audio_in (done ++ [c]) = match audio_in done with Some a => Some a | None => started_audio c end.
Proof. apply head_omap_snoc. Qed.
Lemma response_snoc done c :
  response_in (done ++ [c]) = match response_in done with Some r => Some r | None => ready_response c end.
Proof. apply head_omap_snoc. Qed.

Lemma deltas_snoc done c : deltas_in (done ++ [c]) = deltas_in done ++ delta_in c.
Proof. unfold deltas_in. rewrite map_app, concat_app. cbn [map concat]. by rewrite app_nil_r. Qed.

Lemma opens_snoc done c : existsb opens (done ++ [c]) = existsb opens done || opens c.
Proof. rewrite existsb_app. cbn [existsb]. by rewrite orb_false_r. Qed.

Lemma unopened done : existsb opens done = false -> fallback done = [] /\ deltas_in done = [] /\ audio_in done = None /\ response_in done = None.
Proof.
  unfold fallback, deltas_in, audio_in, response_in. induction done as [|c done IH]; [done|]. cbn [existsb].
  intros [Hc Hd]%orb_false_iff. destruct (IH Hd) as (I1 & I2 & I3 & I4).
  assert (started_audio c = None /\ ready_response c = None /\ delta_in c = []) as (J1 & J2 & J3)
    by (by destruct c as [d| |[[start|]|e]|[r|e]|f]).
  change (omap started_audio (c :: done)) with (match started_audio c with Some y => y :: omap started_audio done | None => omap started_audio done end).
  change (omap ready_response (c :: done)) with (match ready_response c with Some y => y :: omap ready_response done | None => omap ready_response done end).
  cbn [map concat List.find]. by rewrite Hc, J1, J2, J3.
Qed.

Lemma collect_app ps l l' : collect_AddAll ps (l ++ l') = collect_AddAll (collect_AddAll ps l) l'.
Proof. apply fold_left_app. Qed.

Lemma run_keeps_effects (s s1 : state) b ds au m :
  runs id m s b ds au s1 -> exists s', m s = (s', Ok tt) /\ core s' = core s1 /\
  forall b0 ds0 au0, shape id b0 ds0 au0 (fl_effects s) -> (b = true -> b0 = false /\ fl_effects s = []) ->
    shape id (b0 || b) (ds0 ++ ds) (au0 ++ au) (fl_effects s').
Proof.
  intros (s' & E & (l & L & Sh) & Hc). exists s'. split; [done|]. split; [done|]. intros b0 ds0 au0 H0 Hb.
  rewrite L. destruct b.
  - destruct (Hb eq_refl) as [-> He]. rewrite He in *. destruct H0 as [_ <- <-]. exact Sh.
  - rewrite orb_false_r. by apply shape_app.
Qed.

Definition channels (s : state) : bool * bool * bool := (fl_deltas_open s, fl_audio_open s, fl_response_open s).

(** A step of the loop: it succeeds, keeps the invariant, and leaves the channels as [chs]. *)
Definition steps_to (c : case) (done : list case) (s : state) (chs : bool * bool * bool) : Prop :=
  exists s', on_select opts id modalities c s = (s', Ok tt) /\ flow_inv (done ++ [c]) s' /\ channels s' = chs.

(** The shape of the effects after one more case. *)
Lemma shape_step done c s s1 b ds au m :
  flow_inv done s -> runs id m s b ds au s1 -> fl_sent s = existsb opens done -> b = negb (fl_sent s) && opens c ->
  all_deltas (done ++ [c]) = all_deltas done ++ ds ->
  (match audio_in (done ++ [c]) with Some start => [wrapResponseAudioStart start] | None => [] end)
  = (match audio_in done with Some start => [wrapResponseAudioStart start] | None => [] end) ++ au ->
  exists s', m s = (s', Ok tt) /\ core s' = core s1 /\
    shape id (existsb opens (done ++ [c])) (all_deltas (done ++ [c]))
      (match audio_in (done ++ [c]) with Some start => [wrapResponseAudioStart start] | None => [] end) (fl_effects s').
Proof.
  intros Hi Hm Hs Hb Hd Ha. destruct (run_keeps_effects _ _ _ _ _ _ Hm) as (s' & E & Hc & Hsh). exists s'.
  split; [done|]. split; [done|]. rewrite Hd, Ha, opens_snoc.
  assert (existsb opens done || opens c = existsb opens done || b) as -> by (rewrite Hb, Hs; by destruct (existsb opens done)).
  apply Hsh; [apply (fi_shape _ _ Hi)|]. rewrite Hb. intros [H1 H2]%andb_prop.
  rewrite Hs in H1. destruct (existsb opens done) eqn:Eo; [done|]. split; [done|]. by apply (fi_quiet _ _ Hi).
Qed.

Lemma all_deltas_snoc done c :
  all_deltas (done ++ [c]) = all_deltas done ++ delta_in c ++
    (if existsb opens done then [] else match c with ResponseReady (Ok r) => response_deltas r | _ => [] end).
Proof.
  unfold all_deltas. rewrite deltas_snoc. unfold fallback. rewrite find_snoc.
  destruct (existsb opens done) eqn:E; [by rewrite app_nil_r, !app_assoc|].
  destruct (unopened done E) as (F1 & F2 & _). unfold fallback in F1. rewrite F1, F2. cbn [app].
  by destruct c as [d| |[[start|]|e]|[r|e]|f]; cbn [opens delta_in app]; rewrite ?app_nil_r.
Qed.

Lemma step_delta done s d :
  flow_inv done s -> steps_to (DeltaReceived d) done s (channels s).
Proof.
  intros Hi. pose proof Hi as [_ Hp Hr Hy Hs Hc Hx _]. unfold steps_to. cbn [on_select].
  destruct (shape_step done (DeltaReceived d) s _ _ _ _ _ Hi (runs_on_delta opts id Hserving modalities d s) Hs)
    as (s' & E & Ec & Hsh); [by rewrite andb_true_r| | |].
  - rewrite all_deltas_snoc. cbn [delta_in]. by destruct (existsb opens done); rewrite app_nil_r.
  - rewrite audio_snoc. cbn [started_audio]. rewrite app_nil_r. by destruct (audio_in done).
  - exists s'. split; [exact E|]. unfold core, after_delta in Ec. read_fields_in Ec. injection Ec as E1 E2 E3 E4 E5 E6 E7 E8 E9 E10.
    split; [split|]; rewrite ?E1, ?E2, ?E3, ?E4, ?E6, ?E7.
    + exact Hsh.
    + rewrite Hp, all_deltas_snoc. cbn [delta_in]. assert ((if existsb opens done then [] else []) = ([] : list ResponseDelta)) as -> by (by destruct (existsb opens done)).
      by rewrite app_nil_r, collect_app.
    + rewrite Hr. unfold response_now. rewrite audio_snoc, response_snoc. by destruct (response_in done), (audio_in done).
    + rewrite Hy, response_snoc. by destruct (response_in done).
    + rewrite opens_snoc. by rewrite orb_true_r.
    + rewrite Hc. unfold completion_now. rewrite audio_snoc, response_snoc. by destruct (response_in done), (audio_in done).
    + exact Hx.
    + rewrite opens_snoc, orb_true_r. done.
    + unfold channels. by rewrite E8, E9, E10.
Qed.

(** A case that brings nothing. *)
Lemma step_quiet done s c s' :
  flow_inv done s -> opens c = false -> core s' = core s -> fl_effects s' = fl_effects s -> flow_inv (done ++ [c]) s'.
Proof.
  intros [Hsh Hp Hr Hy Hs Hc Hx Hq] Ho Ec He.
  assert (started_audio c = None /\ ready_response c = None /\ delta_in c = [] /\
    (match c with ResponseReady (Ok r) => response_deltas r | _ => [] end) = []) as (J1 & J2 & J3 & J4)
    by (by destruct c as [d| |[[start|]|e]|[r|e]|f]).
  assert (Ea : audio_in (done ++ [c]) = audio_in done) by (rewrite audio_snoc, J1; by destruct (audio_in done)).
  assert (Er : response_in (done ++ [c]) = response_in done) by (rewrite response_snoc, J2; by destruct (response_in done)).
  assert (Ed : all_deltas (done ++ [c]) = all_deltas done)
    by (rewrite all_deltas_snoc, J3, J4; destruct (existsb opens done); by rewrite app_nil_r).
  unfold core in Ec. injection Ec as E1 E2 E3 E4 E5 E6 E7 E8 E9 E10.
  split; rewrite ?opens_snoc, ?Ho, ?orb_false_r, ?E1, ?E2, ?E3, ?E4, ?E6, ?E7, ?He, ?Ea, ?Ed, ?Er; try done.
  - rewrite Hr. unfold response_now. by rewrite Ea, Er.
  - rewrite Hc. unfold completion_now. by rewrite Ea, Er.
Qed.


Lemma mark_outcome (r : TurnResponse (turn_stream A)) :
  let r' := markResponseAudioTransferred r in
  rsp_EndSession r' = rsp_EndSession r /\ rsp_EndReason r' = rsp_EndReason r /\ rsp_EndMessage r' = rsp_EndMessage r.
Proof. cbv zeta. unfold markResponseAudioTransferred. destruct (_ && _); [done|]. by read_fields. Qed.

Lemma mark_idemp (r : TurnResponse (turn_stream A)) :
  markResponseAudioTransferred (markResponseAudioTransferred r) = markResponseAudioTransferred r.
Proof.
  unfold markResponseAudioTransferred at 2 3. destruct (_ && _) eqn:E; [by unfold markResponseAudioTransferred; rewrite E|].
  unfold markResponseAudioTransferred. by read_fields.
Qed.

(** Where the response and the completion stand once they are resolved. *)
Lemma resolve_spec (s : state) r :
  fl_response s = markResponseAudioTransferred (from_responder r) \/ fl_response s = from_responder r ->
  fl_ready s = true -> fl_completion s = Some newTurnOutputOutcomeFuture ->
  core (resolveCompletion s) = core (s <|fl_completion := Some (mkOutcomeFuture true (outcome_of r))|>).
Proof.
  intros Hr Hy Hc. unfold resolveCompletion. rewrite Hc, Hy.
  assert (mkOutputOutcome (rsp_EndSession (fl_response s)) (rsp_EndReason (fl_response s)) (rsp_EndMessage (fl_response s))
          = outcome_of r) as ->; [|done].
  destruct (mark_outcome (from_responder r)) as (M1 & M2 & M3).
  destruct Hr as [Hr | Hr]; rewrite Hr, ?M1, ?M2, ?M3; reflexivity.
Qed.

Lemma step_audio done s start :
  flow_inv done s -> audio_in done = None -> is_Some (xo_StartResponseAudio opts) ->
  steps_to (AudioStarted (Ok (Some start))) done s (fl_deltas_open s, false, fl_response_open s).
Proof.
  intros Hi Ha Hopt. set (s0 := s <|fl_audio_open := false|>).
  assert (Hi0 : flow_inv done s0) by (destruct Hi; subst s0; split; by read_fields).
  assert (Hch : channels s0 = (fl_deltas_open s, false, fl_response_open s)) by (unfold channels; subst s0; by read_fields).
  unfold steps_to. change (on_select opts id modalities _ s) with (on_audio_start opts id start s0).
  clearbody s0. pose proof Hi0 as [_ Hp Hr Hy Hs Hc Hx _].
  destruct (shape_step done (AudioStarted (Ok (Some start))) s0 _ _ _ _ _ Hi0
    (runs_on_audio_start opts id Hserving start s0 Hopt) Hs) as (s' & E & Ec & Hsh); [by rewrite andb_true_r| | |].
  - rewrite all_deltas_snoc. cbn [delta_in app]. by destruct (existsb opens done).
  - by rewrite audio_snoc, Ha.
  - exists s'. split; [exact E|]. unfold after_audio in Ec. cbv zeta in Ec.
    set (s2 := s0 <|fl_sent := true|> <|fl_completion := _|> <|fl_response := _|>) in Ec.
    assert (Eq : core s' = core (s2 <|fl_completion := completion_now (done ++ [AudioStarted (Ok (Some start))])|>)).
    { rewrite Ec. unfold completion_now. rewrite audio_snoc, response_snoc, Ha. cbn [started_audio].
      destruct (response_in done) as [r|] eqn:Er; cbn [ready_response].
      - apply resolve_spec; subst s2; read_fields; [|by rewrite Hy|done]. left. rewrite Hr. unfold response_now.
        by rewrite Er, Ha.
      - unfold resolveCompletion. subst s2. read_fields. rewrite Hy. by unfold core; read_fields. }
    unfold core in Eq. subst s2. read_fields_in Eq. injection Eq as E1 E2 E3 E4 E5 E6 E7 E8 E9 E10.
    split; [split|]; rewrite ?opens_snoc, ?orb_true_r, ?E1, ?E2, ?E3, ?E4, ?E6, ?E7; try done.
    + by rewrite <- (orb_true_r (existsb opens done)), <- opens_snoc with (c := AudioStarted (Ok (Some start))).
    + rewrite Hp, all_deltas_snoc. cbn [delta_in app]. by destruct (existsb opens done); rewrite app_nil_r.
    + rewrite Hr. unfold response_now. rewrite audio_snoc, response_snoc, Ha. by destruct (response_in done).
    + rewrite Hy, response_snoc. by destruct (response_in done).
    + unfold channels in *. by rewrite E8, E9, E10.
Qed.

Lemma step_response done s r :
  flow_inv done s -> response_in done = None ->
  steps_to (ResponseReady (Ok r)) done s (fl_deltas_open s, fl_audio_open s, false).
Proof.
  intros Hi Hn. set (s0 := s <|fl_response_open := false|>).
  assert (Hi0 : flow_inv done s0) by (destruct Hi; subst s0; split; by read_fields).
  assert (Hch : channels s0 = (fl_deltas_open s, fl_audio_open s, false)) by (unfold channels; subst s0; by read_fields).
  unfold steps_to. change (on_select opts id modalities _ s) with (on_response opts id r s0).
  clearbody s0. pose proof Hi0 as [_ Hp Hr Hy Hs Hc Hx _]. set (c := ResponseReady (Ok r)).
  assert (Hd : all_deltas (done ++ [c]) = all_deltas done ++ (if fl_sent s0 then [] else response_deltas r))
    by (rewrite all_deltas_snoc, Hs; done).
  destruct (shape_step done c s0 _ _ _ _ _ Hi0 (runs_on_response opts id Hserving r s0) Hs) as (s' & E & Ec & Hsh);
    [by rewrite andb_true_r|exact Hd| |].
  - rewrite audio_snoc. cbn [started_audio c]. rewrite app_nil_r. by destruct (audio_in done).
  - exists s'. split; [exact E|].
    assert (Eq : core s' = core (s0 <|fl_response := response_now (done ++ [c])|> <|fl_ready := true|>
      <|fl_completion := completion_now (done ++ [c])|> <|fl_parts := collect_AddAll [] (all_deltas (done ++ [c]))|>
      <|fl_sent := true|>)).
    { rewrite Ec. unfold after_response. cbv zeta. rewrite Hd, collect_app, <- Hp.
      assert (Et : core (take_response r s0) = core (s0 <|fl_response := response_now (done ++ [c])|> <|fl_ready := true|>
        <|fl_completion := completion_now (done ++ [c])|>)).
      { unfold take_response, response_now, completion_now. cbv zeta. read_fields. rewrite audio_snoc, response_snoc, Hn.
        cbn [started_audio ready_response c]. rewrite Hc. unfold completion_now. rewrite Hn.
        destruct (audio_in done) eqn:Ea.
        - rewrite resolve_spec with (r := r); [by unfold core; read_fields|left; by read_fields|by read_fields|].
          read_fields. rewrite Hc. unfold completion_now. by rewrite Ea, Hn.
        - unfold resolveCompletion. read_fields. rewrite Hc. unfold completion_now. rewrite Ea. unfold core. read_fields.
          rewrite Hc. unfold completion_now. by rewrite Ea. }
      set (s1 := take_response r s0) in *. clearbody s1. unfold core in *. read_fields_in Et. read_fields.
      injection Et as E1 E2 E3 E4 E5 E6 E7 E8 E9 E10.
      destruct (fl_sent s0) eqn:Es; read_fields; rewrite ?E1, ?E2, ?E3, ?E4, ?E5, ?E6, ?E7, ?E8, ?E9, ?E10, ?Es; done. }
    unfold core in Eq. read_fields_in Eq. injection Eq as E1 E2 E3 E4 E5 E6 E7 E8 E9 E10.
    split; [split|]; rewrite ?E1, ?E2, ?E3, ?E4, ?E6, ?E7; try done.
    + rewrite response_snoc, Hn. done.
    + by rewrite opens_snoc, orb_true_r.
    + by rewrite opens_snoc, orb_true_r.
    + unfold channels in *. by rewrite E8, E9, E10.
Qed.


Lemma channels_fields (s : state) a b c :
  channels s = (a, b, c) -> fl_deltas_open s = a /\ fl_audio_open s = b /\ fl_response_open s = c.
Proof. unfold channels. by intros [=]. Qed.

(** What the channels still hold, and which of them are open. *)
Record pending (cases done : list case) (s : state) : Prop := {
  pe_deltas : exists ds, List.filter of_deltas cases = if fl_deltas_open s then map DeltaReceived ds ++ [DeltasClosed] else [];
  pe_audio : exists a, List.filter of_audio cases = (if fl_audio_open s then [AudioStarted (Ok a)] else []) /\
               (fl_audio_open s = true -> audio_in done = None);
  pe_response : exists r, List.filter of_response cases = (if fl_response_open s then [ResponseReady (Ok r)] else []) /\
               (fl_response_open s = true -> response_in done = None)
}.

Lemma pending_step c cases done s :
  flow_inv done s -> pending (c :: cases) done s -> (fl_audio_open s = true -> is_Some (xo_StartResponseAudio opts)) ->
  exists s', on_select opts id modalities c s = (s', Ok tt) /\ flow_inv (done ++ [c]) s' /\
    pending cases (done ++ [c]) s' /\ (fl_audio_open s' = true -> fl_audio_open s = true).
Proof.
  intros Hi [[ds Hd] (a & Ha & Han) (r & Hr & Hrn)] Hopt. cbn [List.filter] in Hd, Ha, Hr.
  assert (Hnext : forall s', (exists ds, List.filter of_deltas cases = if fl_deltas_open s' then map DeltaReceived ds ++ [DeltasClosed] else []) ->
    (exists a, List.filter of_audio cases = (if fl_audio_open s' then [AudioStarted (Ok a)] else []) /\
               (fl_audio_open s' = true -> audio_in (done ++ [c]) = None)) ->
    (exists r, List.filter of_response cases = (if fl_response_open s' then [ResponseReady (Ok r)] else []) /\
               (fl_response_open s' = true -> response_in (done ++ [c]) = None)) -> pending cases (done ++ [c]) s') by (by split).
  rewrite audio_snoc, response_snoc in Hnext.
  destruct c as [d| |ra|rr|f]; cbn [of_deltas of_audio of_response started_audio ready_response] in Hd, Ha, Hr, Hnext.
  - destruct (step_delta done s d Hi) as (s' & E & Hi' & [= C1 C2 C3]). exists s'. specialize (Hnext s'). rewrite C1, C2, C3 in Hnext. rewrite ?C1, ?C2, ?C3.
    destruct (fl_deltas_open s); [|done]. destruct ds as [|d' ds]; [done|]. cbn [map app] in Hd. injection Hd as <- Hd.
    split; [done|]. split; [done|]. split; [|done]. apply Hnext; [by exists ds|exists a|exists r]; (split; [done|]).
    + intros H. by rewrite (Han H).
    + intros H. by rewrite (Hrn H).
  - destruct (fl_deltas_open s) eqn:Eo; [|done]. destruct ds as [|d' ds]; [|done]. cbn [map app] in Hd. injection Hd as Hd.
    set (s' := s <|fl_deltas_open := false|>). exists s'. split; [done|].
    assert (Hi' : flow_inv done s') by (destruct Hi; subst s'; split; by read_fields).
    assert (Hch : channels s' = (false, fl_audio_open s, fl_response_open s)) by (unfold channels; subst s'; by read_fields).
    destruct (channels_fields _ _ _ _ Hch) as (C1 & C2 & C3). specialize (Hnext s'). rewrite C1, C2, C3 in Hnext. rewrite ?C1, ?C2, ?C3. split; [by apply (step_quiet done s')|]. split; [|done].
    apply Hnext; [by exists []|exists a|exists r]; (split; [done|]).
    + intros H. by rewrite (Han H).
    + intros H. by rewrite (Hrn H).
  - destruct (fl_audio_open s) eqn:Eo; [|done]. injection Ha as -> Ha. specialize (Han eq_refl). destruct a as [start|].
    + destruct (step_audio done s start Hi Han (Hopt eq_refl)) as (s' & E & Hi' & [= C1 C2 C3]). exists s'. specialize (Hnext s'). rewrite C1, C2, C3 in Hnext. rewrite ?C1, ?C2, ?C3.
      split; [done|]. split; [done|]. split; [|done].
      apply Hnext; [by exists ds|by exists None|exists r]. split; [done|]. intros H. by rewrite (Hrn H).
    + set (s0 := s <|fl_audio_open := false|>).
      assert (Hi' : flow_inv done s0) by (destruct Hi; subst s0; split; by read_fields).
      assert (Hch : channels s0 = (fl_deltas_open s, false, fl_response_open s)) by (unfold channels; subst s0; by read_fields).
      assert (Es : resolveCompletion s0 = s0).
      { unfold resolveCompletion. rewrite (fi_completion _ _ Hi'). unfold completion_now. by rewrite Han. }
      exists s0. destruct (channels_fields _ _ _ _ Hch) as (C1 & C2 & C3). specialize (Hnext s0). rewrite C1, C2, C3 in Hnext. rewrite ?C1, ?C2, ?C3. split; [transitivity (resolveCompletion s0, Ok tt : result text unit); [done|by rewrite Es]|].
      split; [by apply (step_quiet done s0)|]. split; [|done].
      apply Hnext; [by exists ds|by exists None|exists r]. split; [done|]. intros H. by rewrite (Hrn H).
  - destruct (fl_response_open s) eqn:Eo; [|done]. injection Hr as -> Hr. specialize (Hrn eq_refl).
    destruct (step_response done s r Hi Hrn) as (s' & E & Hi' & [= C1 C2 C3]). exists s'. specialize (Hnext s'). rewrite C1, C2, C3 in Hnext. rewrite ?C1, ?C2, ?C3.
    split; [done|]. split; [done|]. split; [|done].
    apply Hnext; [by exists ds|exists a|by exists r]. split; [done|]. intros H. by rewrite (Han H).
  - set (s' := s <|fl_world := f (fl_world s)|>). exists s'. split; [done|].
    assert (Hi' : flow_inv done s') by (destruct Hi; subst s'; split; by read_fields).
    assert (Hch : channels s' = channels s) by (unfold channels; subst s'; by read_fields).
    destruct (channels_fields _ _ _ _ Hch) as (C1 & C2 & C3). specialize (Hnext s'). rewrite C1, C2, C3 in Hnext.
    split; [by apply (step_quiet done s')|]. split; [apply Hnext; [by exists ds|exists a|exists r]; (split; [done|])|].
    + intros H. by rewrite (Han H).
    + intros H. by rewrite (Hrn H).
    + by rewrite C2.
Qed.

(** Once the channels are closed only other goroutines act. *)
Lemma quiet_rest cases done s :
  flow_inv done s -> List.filter of_deltas cases = [] -> List.filter of_audio cases = [] -> List.filter of_response cases = [] ->
  flow_inv (done ++ cases) s.
Proof.
  revert done. induction cases as [|c cases IH]; intros done Hi; [by rewrite app_nil_r|].
  cbn [List.filter]. destruct c as [d| |ra|rr|f]; cbn [of_deltas of_audio of_response]; try done. intros Hd Ha Hr.
  change (Meanwhile f :: cases) with ([Meanwhile f : case] ++ cases). rewrite app_assoc. apply IH; [|done..].
  by apply (step_quiet done s).
Qed.

Lemma loop_runs cases done s :
  flow_inv done s -> pending cases done s -> (fl_audio_open s = true -> is_Some (xo_StartResponseAudio opts)) ->
  exists s', select_loop opts id modalities cases s = (s', Some (Ok tt)) /\ flow_inv (done ++ cases) s'.
Proof.
  revert done s. induction cases as [|c cases IH]; intros done s Hi Hp Hopt; cbn [select_loop].
  - destruct Hp as [[ds Hd] (a & Ha & _) (r & Hr & _)]. cbn [List.filter] in *. unfold channels_open.
    destruct (fl_deltas_open s); [by destruct ds|]. destruct (fl_audio_open s); [done|]. destruct (fl_response_open s); [done|].
    exists s. by rewrite app_nil_r.
  - destruct (channels_open s) eqn:Ho; cbn [negb].
    + destruct (pending_step c cases done s Hi Hp Hopt) as (s' & E & Hi' & Hp' & Ha). rewrite E.
      destruct (IH _ s' Hi' Hp' ltac:(auto)) as (s2 & E2 & Hi2). exists s2. split; [exact E2|]. by rewrite <- app_assoc in Hi2.
    + exists s. split; [done|]. unfold channels_open in Ho. apply orb_false_iff in Ho as [[H1 H2]%orb_false_iff H3].
      destruct Hp as [[ds Hd] (a & Ha & _) (r & Hr & _)]. rewrite H2 in Hd. rewrite H3 in Ha. rewrite H1 in Hr.
      by apply quiet_rest.
Qed.

Lemma deltas_filter cases : deltas_in cases = deltas_in (List.filter of_deltas cases).
Proof.
  induction cases as [|c cases IH]; [done|]. unfold deltas_in in *. cbn [List.filter map concat].
  destruct c; cbn [of_deltas delta_in map concat app]; by rewrite IH.
Qed.
Lemma audio_filter cases : omap started_audio cases = omap started_audio (List.filter of_audio cases).
Proof. induction cases as [|c cases IH]; [done|]. cbn. destruct c; cbn; by rewrite IH. Qed.
Lemma response_filter cases : omap ready_response cases = omap ready_response (List.filter of_response cases).
Proof. induction cases as [|c cases IH]; [done|]. cbn. destruct c; cbn; by rewrite IH. Qed.

Lemma deltas_in_map ds : deltas_in (map DeltaReceived ds ++ [DeltasClosed]) = ds.
Proof. induction ds as [|d ds IH]; [done|]. unfold deltas_in in *. cbn [map app concat delta_in]. by rewrite IH. Qed.

(** The audio channel is there when the transport can start audio. *)
Definition audio_channel (audio : option (option (ResponseAudioStart A))) : Prop :=
  is_Some (xo_StartResponseAudio opts) <-> is_Some audio.

Definition asked (audio : option (option (ResponseAudioStart A))) : option (ResponseAudioStart A) :=
  match audio with Some start => start | None => None end.

Lemma schedule_facts ds audio r cases :
  schedule_of ds (option_map Ok audio) (Ok r) cases ->
  deltas_in cases = ds /\ audio_in cases = asked audio /\ response_in cases = Some r /\ existsb opens cases = true.
Proof.
  intros [Hd Ha Hr]. rewrite deltas_filter, Hd, deltas_in_map. unfold audio_in, response_in.
  rewrite audio_filter, response_filter, Ha, Hr. split; [done|]. split; [by destruct audio as [[start|]|]|]. split; [done|].
  apply existsb_exists. exists (ResponseReady (Ok r)). split; [|done].
  assert (H : In (ResponseReady (Ok r)) (List.filter of_response cases)) by (rewrite Hr; by left).
  by apply filter_In in H as [? _].
Qed.

Lemma schedule_runs ds audio r cases w trace :
  audio_channel audio -> schedule_of ds (option_map Ok audio) (Ok r) cases ->
  exists s, select_loop opts id modalities cases
      (flow_begin w trace (bool_decide (is_Some (xo_StartResponseAudio opts)))) = (s, Some (Ok tt)) /\ flow_inv cases s.
Proof.
  intros Hch [Hd Ha Hr]. set (s := flow_begin _ _ _).
  assert (Hi : flow_inv [] s) by (by split).
  destruct (loop_runs cases [] s Hi) as (s' & E & Hi'); [|subst s; cbn [fl_audio_open flow_begin]; by intros ?%bool_decide_eq_true|by exists s'].
  split; [by exists ds| |by exists r]. subst s. cbn [fl_audio_open flow_begin].
  destruct audio as [a|]; cbn [option_map] in Ha.
  - exists a. rewrite bool_decide_eq_true_2; [done|]. apply Hch. by eexists.
  - exists None. rewrite bool_decide_eq_false_2; [done|]. intros H. apply Hch in H. by destruct H.
Qed.

End Runs.

Section Served.

Context {A W : Type} `{!TurnWorld W} (opts : turnExecutionOptions (A := A) (W := W)) (id : text).

Lemma epilogue_fields (keep : bool) (s : flow_state (A := A) (W := W)) :
  let s' := keep_or_cancel keep s in
  fl_effects s' = fl_effects s /\ fl_parts s' = fl_parts s /\ fl_completion s' = fl_completion s.
Proof. cbv zeta. unfold keep_or_cancel. destruct (rsp_AudioStream _), keep; by read_fields. Qed.

(** What the flow of a turn that succeeds calls. *)
Lemma sent_turn (ds : list ResponseDelta) audio r cases w trace :
  serving opts -> audio_channel opts audio -> schedule_of ds (option_map Ok audio) (Ok r) cases ->
  exists s result, executeOrchestratedTurnResponse opts id None cases w trace = (s, Some (Ok result)) /\
    (exists tr mods rsp rest, fl_effects s = CallResponseStart tr id mods rsp :: rest /\ List.filter is_start rest = []) /\
    sent_deltas (fl_effects s) = fallback cases ++ ds /\
    er_AggregatedText result = Joined (collect_AddAll [] (sent_deltas (fl_effects s))) /\
    audio_calls (fl_effects s) = match asked audio with Some start => [wrapResponseAudioStart start] | None => [] end /\
    fl_completion s = option_map (fun _ => mkOutcomeFuture true (outcome_of r)) (asked audio).
Proof.
  intros Hs Hc Hsch. destruct (schedule_runs opts id (delta_modalities opts) Hs ds audio r cases w trace Hc Hsch) as (s & E & Hi).
  destruct (schedule_facts _ _ _ _ Hsch) as (F1 & F2 & F3 & F4). unfold executeOrchestratedTurnResponse. cbv zeta. rewrite E.
  cbn [finish_flow]. cbv zeta. do 2 eexists. split; [reflexivity|]. cbn [execution_result er_AggregatedText].
  destruct (epilogue_fields (negb (rsp_AudioStreamTransferred (fl_response s))) s) as (-> & -> & ->).
  destruct Hi as [[S1 S2 S3] Hp _ _ _ Hcm _ _]. rewrite F4 in S1. rewrite Hp, Hcm, S2, S3, F2. unfold all_deltas, completion_now.
  rewrite F1, F2, F3. split; [exact S1|]. repeat (split; [done|]). by destruct (asked audio).
Qed.

(** Whatever the order in which the select takes what the responder produces,
    a turn whose answer succeeds is sent to a transport that takes it: the flow
    ends with the answer; the first call is the response start and there is no
    other; the deltas go out in order, after those of the answer itself when the
    answer came first; the aggregated text is what the deltas sent say; and audio
    that may start early is started once, with the turn's outcome resolved to the
    end the answer asks for. *)
Theorem turn_is_sent (ds : list ResponseDelta) audio r cases w trace :
  serving opts -> audio_channel opts audio -> schedule_of ds (option_map Ok audio) (Ok r) cases ->
  exists s result, executeOrchestratedTurnResponse opts id None cases w trace = (s, Some (Ok result)) /\
    (exists tr mods rsp rest, fl_effects s = CallResponseStart tr id mods rsp :: rest /\ List.filter is_start rest = []) /\
    sent_deltas (fl_effects s) = fallback cases ++ ds /\
    er_AggregatedText result = Joined (collect_AddAll [] (sent_deltas (fl_effects s))) /\
    audio_calls (fl_effects s) = match asked audio with Some start => [wrapResponseAudioStart start] | None => [] end /\
    fl_completion s = option_map (fun _ => mkOutcomeFuture true (outcome_of r)) (asked audio).
Proof. apply sent_turn. Qed.

End Served.

(** ** The audio and the context of the turn *)

Section Context_of_turn.

Context {A W : Type} `{!TurnWorld W} (opts : turnExecutionOptions (A := A) (W := W)) (id : text).

(** How the future hands out audio: with the early start, and then the answer has
    lost it and says so, or with the answer. *)
Definition handed_over (start : option (ResponseAudioStart A)) (r : TurnResponse A) : Prop :=
  match start with
  | Some s => has_own_audio r = false /\ is_Some (as_Stream s)
  | None => True
  end /\ rsp_AudioStreamTransferred r = bool_decide (is_Some start).

Definition streams_of (fxs : list (flow_effect (A := A))) : list (turn_stream A) := omap as_Stream (audio_calls fxs).

(** The turn's context lives as long as its audio. When the audio goes out
    once, with the early start or with the answer, then after the flow the streams
    given to the transport and the stream left in the answer are together the
    stream the responder made, wrapped so that closing it cancels the turn; and the
    turn is cancelled at once exactly when there is no stream. *)
Theorem turn_context_follows_the_audio (ds : list ResponseDelta) audio r cases w trace :
  serving opts -> audio_channel opts audio -> schedule_of ds (option_map Ok audio) (Ok r) cases ->
  handed_over (asked audio) r ->
  exists s result, executeOrchestratedTurnResponse opts id None cases w trace = (s, Some (Ok result)) /\
    streams_of (fl_effects s) ++ option_list (rsp_AudioStream (er_Response result))
    = map (fun a => CancelOnClose (Inner a))
        (option_list (match asked audio with Some start => as_Stream start | None => rsp_AudioStream r end)) /\
    fl_cancelled s = bool_decide (streams_of (fl_effects s) ++ option_list (rsp_AudioStream (er_Response result)) = []).
Proof.
  intros Hs Hc Hsch [Ho Ht]. destruct (schedule_runs opts id (delta_modalities opts) Hs ds audio r cases w trace Hc Hsch) as (s & E & Hi).
  destruct (schedule_facts _ _ _ _ Hsch) as (F1 & F2 & F3 & F4). unfold executeOrchestratedTurnResponse. cbv zeta. rewrite E.
  cbn [finish_flow]. cbv zeta. do 2 eexists. split; [reflexivity|]. cbn [execution_result er_Response].
  destruct Hi as [[_ _ S3] _ Hr _ _ _ Hx _]. unfold streams_of. set (s0 := keep_or_cancel _ s).
  assert (fl_effects s0 = fl_effects s) as -> by apply epilogue_fields. rewrite S3, F2.
  unfold response_now in Hr. rewrite F2, F3 in Hr. subst s0. destruct (asked audio) as [start|]; cbn in Ht.
  - destruct Ho as [Ho [a Ea]]. assert (markResponseAudioTransferred (from_responder r) = from_responder r) as Em.
    { unfold markResponseAudioTransferred, has_own_audio in *. unfold from_responder. cbn [rsp_AudioStream rsp_AudioChunks].
      destruct (rsp_AudioStream r); [done|]. rewrite len_zero. destruct (rsp_AudioChunks r) as [|b l]; [done|].
      cbn [bool_decide orb] in Ho. apply Z.ltb_ge in Ho. unfold len in Ho. cbn [length] in Ho. lia. }
    rewrite Em in Hr. assert (rsp_AudioStream r = None) as En by (unfold has_own_audio in Ho; by destruct (rsp_AudioStream r)).
    unfold keep_or_cancel. rewrite Hr. cbn [from_responder rsp_AudioStream rsp_AudioStreamTransferred]. rewrite En, Ht.
    cbn [option_map negb]. rewrite Hr, Hx. cbn [from_responder rsp_AudioStream]. rewrite En. cbn. rewrite Ea. cbn. by split.
  - unfold keep_or_cancel. rewrite Hr. cbn [from_responder rsp_AudioStream rsp_AudioStreamTransferred]. rewrite Ht.
    cbn [negb]. destruct (rsp_AudioStream r) as [a|] eqn:En; cbn [option_map]; read_fields; rewrite ?Hr, ?Hx; cbn; rewrite ?En; by split.
Qed.

(** Closing the wrapped stream, or reading an error from it, cancels the turn once;
    reading its audio or its end does not. *)
Inductive stream_use := UseNext | UseClose.

Definition use_stream (s : cancelOnCloseAudioStream) (u : stream_use) : cancelOnCloseAudioStream :=
  match u with UseNext => (cancel_Next s).1 | UseClose => cancel_Close s end.

Lemma cancelled_at_most_once inner uses :
  let s := fold_left use_stream uses (newCancelOnClose inner) in
  cc_cancels s = (if cc_released s then 1 else 0).
Proof.
  cbv zeta. apply fold_left_inv; [done|]. intros s u _ Hs.
  assert (Hrel : forall s, cc_cancels s = (if cc_released s then 1 else 0) ->
    cc_cancels (release s) = (if cc_released (release s) then 1 else 0)).
  { intros s' H. unfold release. destruct (cc_released s') eqn:E; [by rewrite E|]. cbn. lia. }
  destruct u; cbn [use_stream]; [|by apply Hrel]. unfold cancel_Next. destruct (stream_Next (cc_inner s)) as [r inner'].
  destruct r as [c|[|e]]; cbn [fst cc_cancels cc_released]; [exact Hs|exact Hs|by apply Hrel].
Qed.

End Context_of_turn.

(** ** Errors *)

Section Errors.

Context {A W : Type} `{!TurnWorld W} (opts : turnExecutionOptions (A := A) (W := W)) (id : text).

(** A computation that has cancelled the turn when it fails. *)
Definition cancels (m : flow (A := A) (W := W) unit) : Prop := forall s s' e, m s = (s', Err e) -> fl_cancelled s' = true.

Lemma cancels_bind (m k : flow (A := A) (W := W) unit) : cancels m -> cancels k -> cancels (flow_bind m (fun _ => k)).
Proof.
  intros Hm Hk s s' e. unfold flow_bind. destruct (m s) as [s1 [x|e1]] eqn:E; [apply Hk|].
  intros [= <- <-]. by apply Hm in E.
Qed.

Lemma cancels_read (m : flow_state -> flow (A := A) (W := W) unit) : (forall s, cancels (m s)) -> cancels (fun s => m s s).
Proof. intros H s. apply H. Qed.

Lemma cancels_modify f : cancels (modify (A := A) (W := W) f).
Proof. by intros s s' e. Qed.

Lemma cancels_call f fx : cancels (call (A := A) (W := W) f fx).
Proof.
  intros s s' e. unfold call. destruct f as [f|]; [|done]. destruct (f fx (fl_world s)) as [w [e1|]]; [|done].
  intros [= <- _]. by read_fields.
Qed.

Lemma cancels_start mods : cancels (start_response opts id mods).
Proof.
  unfold start_response. intros s. apply cancels_bind; [apply cancels_modify|].
  apply (cancels_read (fun s => call _ (CallResponseStart (fl_trace s) id mods (fl_response s)))). intros. apply cancels_call.
Qed.

Lemma cancels_start_once mods : cancels (start_response_once opts id mods).
Proof.
  intros s s' e. unfold start_response_once. destruct (fl_sent s); [done|].
  apply cancels_bind; [apply cancels_start|apply cancels_modify].
Qed.

Lemma cancels_delta d : cancels (emitTurnResponseDelta opts id d).
Proof. apply cancels_bind; [apply cancels_modify|apply cancels_call]. Qed.

Lemma cancels_text cond : cancels (text_collected opts cond).
Proof. intros s s' e. unfold text_collected. destruct (xo_OnTextDeltaCollected opts); [|done]. by destruct (cond s). Qed.

Lemma cancels_response : cancels (emit_response opts id).
Proof.
  apply (cancels_read (fun s => emit_whole opts id (responseDeltasForEmission (fl_response s) true))).
  intros s. unfold emit_whole. set (ds := responseDeltasForEmission _ _). clearbody ds.
  apply cancels_bind; [apply (cancels_read (fun s => start_response opts id (responseModalities ds (fl_response s)))); intros; apply cancels_start|].
  apply cancels_bind; [|apply cancels_bind; [apply cancels_modify|apply cancels_text]].
  induction ds as [|d ds IH]; cbn [emit_response_deltas]; [done|]. by apply cancels_bind; [apply cancels_delta|].
Qed.

Lemma cancels_select mods c : cancels (on_select opts id mods c).
Proof.
  assert (Hfail : forall e, cancels (fail_flow e)) by (intros e s s' e'; intros [= <- _]; by read_fields).
  destruct c as [d| |[[start|]|e]|[r|e]|f]; cbn [on_select]; try apply cancels_bind; try apply cancels_modify; try apply Hfail.
  - apply cancels_bind; [apply cancels_start_once|]. apply cancels_bind; [apply cancels_delta|apply cancels_text].
  - unfold on_audio_start. apply cancels_bind; [|apply cancels_bind; [apply cancels_modify|]].
    { apply (cancels_read (fun s => start_response_once opts id (modalitiesForAudioStart start (fl_seen s)))).
      intros. apply cancels_start_once. }
    apply cancels_bind; [|apply cancels_modify].
    apply (cancels_read (fun s => call (xo_StartResponseAudio opts) (CallStartAudio (fl_trace s) id (wrapResponseAudioStart start)
      (aggregatedTextForAudioStart (fl_parts s) start)))). intros. apply cancels_call.
  - apply cancels_bind; [apply cancels_modify|]. intros s s' e. destruct (fl_sent s); [done|].
    apply cancels_bind; [apply cancels_response|apply cancels_modify].
Qed.

Lemma loop_cancels mods cases s s' e :
  select_loop opts id mods cases s = (s', Some (Err e)) -> fl_cancelled s' = true.
Proof.
  revert s. induction cases as [|c cases IH]; intros s; cbn [select_loop]; destruct (negb (channels_open s)); try done.
  pose proof (cancels_select mods c s) as Hc. destruct (on_select opts id mods c s) as [s1 [x|e1]]; [apply IH|].
  intros [= <- <-]. by eapply Hc.
Qed.

(** A turn that fails is cancelled. Whatever the callbacks answer and in
    whatever order the select takes what the responder does, when the flow of an
    orchestrated or a streamed turn returns an error, of the responder, of the
    early audio or of any call to the transport, the context the responder runs in
    has been cancelled. *)
Theorem failed_turn_is_cancelled started cases w trace s e :
  executeOrchestratedTurnResponse opts id started cases w trace = (s, Some (Err e)) \/
  executeStreamingTurnResponse opts id cases w trace = (s, Some (Err e)) ->
  fl_cancelled s = true.
Proof.
  assert (Hf : forall epilogue o, finish_flow (A := A) (W := W) id epilogue o = (s, Some (Err e)) -> o = (s, Some (Err e))).
  { intros epilogue [s1 [[x|e1]|]]; cbn [finish_flow]; [done|by intros [= -> ->]|done]. }
  intros [H|H]; [|by apply Hf, loop_cancels in H]. unfold executeOrchestratedTurnResponse in H. cbv zeta in H.
  destruct started as [e0|]; [|by apply Hf, loop_cancels in H]. injection H as <- _. by read_fields.
Qed.

End Errors.

(** ** Runs that happen *)

(** The answer's own deltas go out only when the answer was the first to come; then
    the deltas the responder had streamed follow them. *)
Lemma streamed_answer_is_sent_once {A W} (cases : list (select_case (A := A) (W := W))) :
  (forall r, List.find opens cases <> Some (ResponseReady (Ok r))) -> fallback cases = [].
Proof.
  intros H. unfold fallback. destruct (List.find opens cases) as [[d| |a|[r|e]|f]|] eqn:E; [done..| |done|done|done].
  by destruct (H r).
Qed.

(** A world that is a trace and a clock that ticks. *)
#[local] Instance demo_world : TurnWorld (turnTraceState * Z) := {
  read_clock w := ((w.1, w.2 + 1), w.2);
  world_traces w := w.1;
  with_traces t w := (t, w.2)
}.

Definition demo_transport : turnExecutionOptions (A := unit) (W := turnTraceState * Z) :=
  mkExecutionOptions "s1" "resp_1" (Some (fun _ w => (w, None))) (Some (fun _ w => (w, None))) (Some (fun _ _ w => w))
    (Some (fun _ w => (w, None))) true.

Lemma demo_serving : serving demo_transport.
Proof. split; [by eexists|by eexists|by intros f [= <-]]. Qed.

Definition demo_answer (stream : option unit) : TurnResponse unit :=
  mkTurnResponse "" "ok" [] [] stream (bool_decide (stream = None)) false "" "".

Definition demo_delta : ResponseDelta := text_response_delta "ok".

(** The answer and the delta that says it are both ready, and the select takes the
    answer first: the client is told the answer twice. *)
Lemma answer_may_be_sent_twice :
  let cases : list (select_case (A := unit) (W := turnTraceState * Z)) :=
    [ResponseReady (Ok (demo_answer (Some tt))); DeltaReceived demo_delta; DeltasClosed; AudioStarted (Ok None)] in
  schedule_of [demo_delta] (Some (Ok None)) (Ok (demo_answer (Some tt))) cases /\
  let '(s, result) := executeOrchestratedTurnResponse demo_transport "resp_1" None cases
    (zero_turnTraceState, 5) zero_turnTrace in
  map rd_Text (sent_deltas (fl_effects s)) = texts ["ok"; "ok"] /\
  match result with Some (Ok result) => er_AggregatedText result = txt "okok" | _ => False end.
Proof. cbv zeta. split; [by split|]. by vm_compute. Qed.

(** A start that came first: the audio begins before the text. *)
Definition demo_early : ResponseAudioStart unit := mkAudioStart (Some tt) "ok" true StartFromSpeechPlanner.

Definition demo_schedule : list (select_case (A := unit) (W := turnTraceState * Z)) :=
  [AudioStarted (Ok (Some demo_early)); DeltaReceived demo_delta; ResponseReady (Ok (demo_answer None)); DeltasClosed].

Lemma demo_scheduled : schedule_of [demo_delta] (option_map Ok (Some (Some demo_early))) (Ok (demo_answer None)) demo_schedule.
Proof. by split. Qed.

Lemma turn_is_sent_witness :
  exists s result, executeOrchestratedTurnResponse demo_transport "resp_1" None demo_schedule
      (zero_turnTraceState, 5) zero_turnTrace = (s, Some (Ok result)) /\
    (exists tr mods rsp rest, fl_effects s = CallResponseStart tr (txt "resp_1") mods rsp :: rest /\ List.filter is_start rest = []) /\
    sent_deltas (fl_effects s) = fallback demo_schedule ++ [demo_delta] /\
    er_AggregatedText result = Joined (collect_AddAll [] (sent_deltas (fl_effects s))) /\
    audio_calls (fl_effects s) = [wrapResponseAudioStart demo_early] /\
    fl_completion s = Some (mkOutcomeFuture true (outcome_of (demo_answer None))).
Proof.
  apply (turn_is_sent demo_transport (txt "resp_1") [demo_delta] (Some (Some demo_early)) (demo_answer None)).
  - exact demo_serving.
  - split; by eexists.
  - exact demo_scheduled.
Defined.

Lemma turn_context_follows_the_audio_witness :
  exists s result, executeOrchestratedTurnResponse demo_transport "resp_1" None demo_schedule
      (zero_turnTraceState, 5) zero_turnTrace = (s, Some (Ok result)) /\
    streams_of (fl_effects s) ++ option_list (rsp_AudioStream (er_Response result)) = [CancelOnClose (Inner tt)] /\
    fl_cancelled s = bool_decide (streams_of (fl_effects s) ++ option_list (rsp_AudioStream (er_Response result)) = []).
Proof.
  apply (turn_context_follows_the_audio demo_transport (txt "resp_1") [demo_delta] (Some (Some demo_early)) (demo_answer None)).
  - exact demo_serving.
  - split; by eexists.
  - exact demo_scheduled.
  - by split; [split; [|eexists]|].
Defined.

Definition demo_failure : flow_state * option (result text turnExecutionResult) :=
  executeStreamingTurnResponse demo_transport "resp_1"
    [DeltaReceived demo_delta; ResponseReady (Err (txt "model down"))] (zero_turnTraceState, 5) zero_turnTrace.

Lemma failed_turn_is_cancelled_witness :
  exists s, demo_failure = (s, Some (Err (txt "model down"))) /\ fl_cancelled s = true.
Proof.
  eexists. split; [vm_compute; reflexivity|].
  eapply (failed_turn_is_cancelled demo_transport (txt "resp_1") None
    [DeltaReceived demo_delta; ResponseReady (Err (txt "model down"))] (zero_turnTraceState, 5) zero_turnTrace).
  right. vm_compute. reflexivity.
Defined.
