(* ===== verification/OutputFlow.v ===== *)
(** * The output of a connection: speaking, interruption, completion
      (internal/gateway/output_flow.go, realtime_runtime.go, and the hooks of
      finalizeTurnResponse, startAudioStream, endSession and terminateWithError of
      realtime_ws.go)

    The runtime of a connection owns the session, the voice session, the traces,
    the playback acks, the staged audio and the one output that plays.  Three flows
    move it: an answer starts to be spoken or ends at once, a barge-in stops the
    output, and the playback goroutine ends by itself.  They are computations over
    the runtime; writing an event and setting the read deadline are answered by the
    connection, a parameter.  The playback goroutine is its frames (SpeechStream and
    PlaybackAck) and this file's [playback_tail].  Log lines are
    left out. *)

From S2P Require Import Prelude GoText GoFloat Contracts Lexical BargeIn Playback Memory Session Orchestrator PlaybackAck BargeInRuntime.
From S2P Require Import Audio InputAudio TurnTrace GatewayProfile OutputEffects TurnResponse TurnFlow.

(** ** The events the gateway writes to a client

    The last is the closing of the socket. *)

Inductive server_event :=
| SessionUpdateEvent (sessionID : text) (st : State) (input : InputState) (output : OutputState) (turnID acceptReason : text)
| SessionEndEvent (sessionID : text) (reason : CloseReason) (message : text)
| ErrorEvent (sessionID code message : text) (recoverable : bool)
| ResponseStartEvent (sessionID responseID : text) (modalities : list text) (turnID traceID : text)
| ResponseChunkEvent (sessionID responseID : text) (d : ResponseDelta)
| SpeechStartEvent (sessionID previewID : text) (audioOffsetMs : Z)
| PreviewEvent (sessionID previewID partial stablePrefix : text) (stability : option float64) (audioOffsetMs : Z)
| EndpointEvent (sessionID previewID reason : text) (audioOffsetMs : Z)
(* what a Xiaozhi device is written *)
| DeviceHello (version : Z) (transport sessionID format : text) (sampleRate channels frameDuration : Z)
| DeviceText (type sessionID said : text) (* stt, llm *)
| DeviceTTS (st sessionID said : text)
| DeviceError (sessionID message : text)
| DeviceFrame (frame : bytes)
| SocketClosed.

Definition sessionUpdateFromSnapshot (sessionID : text) (snapshot : Snapshot) (turnID acceptReason : text) : server_event :=
  SessionUpdateEvent sessionID (Snap_State snapshot) (Snap_InputState snapshot) (Snap_OutputState snapshot) turnID
    (TrimSpace acceptReason).

Definition session_error (e : Error) : text :=
  match e with ErrSessionAlreadyActive => "session already active" | ErrNoActiveSession => "no active session" end.

(** ** The runtime *)

(** The output that plays; it is named by its number, a pointer in the code. *)
Record outputStream := mkOutput {
  os_id : Z;
  os_cancelled : bool;
  os_completion : turnOutputOutcomeFuture;
  os_effects : outputEffectState
}.

Record gateway (S P : Type) := mkGateway {
  gw_barge : BargeInRuntime.connectionRuntime;
  gw_voice : SessionOrchestrator S P;
  gw_traces : turnTraceState;
  gw_previews : inputPreviewTraceState;
  gw_collaboration : collaborationNegotiation;
  gw_ack : playbackAckState;
  gw_output : option outputStream;
  gw_outputs : Z; (* outputs installed so far *)
  gw_deadline : instant;
  gw_events : list server_event;
  gw_reads : nat;
  gw_normalizer : option InputNormalizer
}.
Arguments mkGateway {S P}.
Arguments gw_barge {S P}.
Arguments gw_voice {S P}.
Arguments gw_traces {S P}.
Arguments gw_previews {S P}.
Arguments gw_collaboration {S P}.
Arguments gw_ack {S P}.
Arguments gw_output {S P}.
Arguments gw_outputs {S P}.
Arguments gw_deadline {S P}.
Arguments gw_events {S P}.
Arguments gw_reads {S P}.
Arguments gw_normalizer {S P}.

#[export] Instance gateway_rebuild S P : Rebuild (gateway S P) := fun g =>
  mkGateway (gw_barge g) (gw_voice g) (gw_traces g) (gw_previews g) (gw_collaboration g) (gw_ack g) (gw_output g)
    (gw_outputs g) (gw_deadline g) (gw_events g) (gw_reads g) (gw_normalizer g).

(** The connection: the error of writing an event, after those already written, and
    of setting a deadline. *)
Class Connection := {
  write_error : list server_event -> option text;
  deadline_error : list server_event -> instant -> option text
}.

Section Flows.

Context {S P : Type} `{!MemoryStore S} `{!PreviewSession P} {CN : Connection} (clock : nat -> instant) (profile : RealtimeProfile).

Abbreviation runtime := (gateway S P).

(** ** Computations over the runtime *)

Definition gw (A : Type) : Type := runtime -> runtime * result text A.
Definition gw_ret {A} (a : A) : gw A := fun g => (g, Ok a).
Definition gw_fail {A} (e : text) : gw A := fun g => (g, Err e).
Definition gw_bind {A B} (m : gw A) (f : A -> gw B) : gw B := fun g =>
  let '(g, r) := m g in match r with Ok a => f a g | Err e => (g, Err e) end.
Definition gw_update (f : runtime -> runtime) : gw unit := fun g => (f g, Ok tt).
Definition gw_get {A} (f : runtime -> A) : gw A := fun g => (g, Ok (f g)).

#[local] Notation "'let*' x ':=' m 'in' k" := (gw_bind m (fun x => k))
  (at level 10, x name, m at level 100, k at level 200).
#[local] Notation "m ;; k" := (gw_bind m (fun _ => k)) (at level 100, right associativity).

Definition gw_now : gw instant := fun g => (g <|gw_reads := Datatypes.S (gw_reads g)|>, Ok (clock (gw_reads g))).

Definition gw_session (g : runtime) : RealtimeSession := rt_session (gw_barge g).
Definition set_session (s : RealtimeSession) (g : runtime) : runtime :=
  g <|gw_barge := mkRuntime s (pendingBargeIn (gw_barge g))|>.

(** A method of the session. *)
Definition on_session (f : instant -> RealtimeSession -> RealtimeSession * result Error Snapshot) : gw Snapshot :=
  let* now := gw_now in
  fun g => let '(s, r) := f now (gw_session g) in
           (set_session s g, match r with Ok a => Ok a | Err e => Err (session_error e) end).

(** A method of the turn trace. *)
Definition on_trace (f : instant -> turnTraceState -> turnTraceState * turnTrace) : gw turnTrace :=
  let* now := gw_now in
  fun g => let '(t, trace) := f now (gw_traces g) in (g <|gw_traces := t|>, Ok trace).

Definition on_voice (f : SessionOrchestrator S P -> SessionOrchestrator S P) : gw unit :=
  gw_update (fun g => g <|gw_voice := f (gw_voice g)|>).

Definition WriteEvent (e : server_event) : gw unit := fun g =>
  let g := g <|gw_events := gw_events g ++ [e]|> in
  match write_error (gw_events g) with Some e => (g, Err e) | None => (g, Ok tt) end.

Definition applyReadDeadline (snapshot : Snapshot) : gw unit := fun g =>
  let deadline := readDeadlineForSnapshot snapshot profile in
  match deadline_error (gw_events g) deadline with
  | Some e => (g, Err e)
  | None => (g <|gw_deadline := deadline|>, Ok tt)
  end.

(** ** The small methods of the runtime *)

Definition clearInputPreview : gw unit :=
  gw_update (fun g => g <|gw_previews := (PreviewClear (gw_previews g)).1|>
                        <|gw_voice := ClearInputPreview (gw_voice g)|>) ;;
  let* now := gw_now in
  gw_update (fun g => set_session (clearInputPreview_session now (gw_session g)) g).

Definition resetPending : gw unit := gw_update (fun g => g <|gw_barge := resetPendingBargeInAudio (gw_barge g)|>).

Definition clearAck : gw unit := gw_update (fun g => g <|gw_ack := clearPlaybackAckState (gw_ack g)|>).

Definition installOutput (completion : turnOutputOutcomeFuture) : gw Z := fun g =>
  let id := gw_outputs g + 1 in
  (g <|gw_outputs := id|> <|gw_output := Some (mkOutput id false completion zero_effect)|>, Ok id).

Definition clearOutput (id : Z) : gw unit :=
  gw_update (fun g => match gw_output g with
                      | Some o => if os_id o =? id then g <|gw_output := None|> else g
                      | None => g
                      end).

(** What the goroutine's [defer]s do to the runtime when it ends. *)
Definition playback_ended (id : Z) : gw unit := clearAck ;; clearOutput id.

(** ** Interrupting the output *)

Definition policy_decision (policy : InterruptionPolicy) (reason : text) : BargeInDecision :=
  mkBargeInDecision false policy reason 0 false 0 0 false false false "" f_zero false false false false false false
    StageNone f_zero 0 f_zero f_zero.

(** [ended]: whether the goroutine of the cancelled output ended within the wait,
    and what it did meanwhile; without it the output stays. *)
Definition interruptOutputWithPolicy (policy : InterruptionPolicy) (reason : text) (ended : option (gw unit)) : gw bool := fun g =>
  match gw_output g with
  | None => (g, Ok false)
  | Some o =>
      if negb (ShouldInterruptOutput (playbackDirectiveForDecision (policy_decision policy reason))) then (g, Ok false)
      else
        (gw_update (fun g => g <|gw_output := Some (mkOutput (os_id o) true (os_completion o) (os_effects o))|>) ;;
         match ended with Some last_words => last_words ;; playback_ended (os_id o) | None => gw_ret tt end ;;
         on_voice (fun v => (if TrimSpace (policy_text policy) != "" then InterruptPlaybackWithPolicy policy reason v
                             else InterruptPlayback v).1) ;;
         gw_ret true) g
  end.

Definition interruptOutput : option (gw unit) -> gw bool :=
  interruptOutputWithPolicy InterruptionPolicyHardInterrupt "hard_interrupt".

Definition interruptOutputWithDecision (decision : BargeInDecision) : option (gw unit) -> gw bool :=
  interruptOutputWithPolicy (bd_Policy decision) (bd_Reason decision).

Definition applyOutputDirective (directive : PlaybackDirective) : gw bool := fun g =>
  match gw_output g with
  | None => (g, Ok false)
  | Some o =>
      (let* now := gw_now in
       fun g =>
         let '(effects, applied) := ApplyDirective directive now (os_effects o) in
         let g := g <|gw_output := Some (mkOutput (os_id o) (os_cancelled o) (os_completion o) effects)|> in
         if negb applied then (g, Ok false)
         else (g <|gw_voice := RecordInterruptionPolicy (pd_Policy directive) (pd_Reason directive) (gw_voice g)|>, Ok true)) g
  end.

(** [interruptSpeakingOptions]: which of decision and policy is set, if any. *)
Inductive interrupt_by := ByDefault | ByDecision (d : BargeInDecision) | ByPolicy (p : InterruptionPolicy) (reason : text).

Record interruptSpeakingOptions := mkInterruptOptions { ClearPreview : bool; ClearPending : bool; By : interrupt_by }.

Definition gw_when (b : bool) (m : gw unit) : gw unit := if b then m else gw_ret tt.
Definition gw_opt {A} (o : option (gw A)) (a : A) : gw A := match o with Some m => m | None => gw_ret a end.

Definition ask_interrupt (b : interrupt_by) (ended : option (gw unit)) : gw bool :=
  match b with
  | ByDecision d => interruptOutputWithDecision d ended
  | ByPolicy p reason => if policy_text p != "" then interruptOutputWithPolicy p reason ended else interruptOutput ended
  | ByDefault => interruptOutput ended
  end.

(** The flow from the snapshot it took first. *)
Definition interrupt_speaking (snapshot : Snapshot) (opts : interruptSpeakingOptions) (ended : option (gw unit))
    (onInterrupted : option (gw unit)) (onReturnActive : option (turnTrace -> Snapshot -> gw unit)) : gw unit :=
  let* interrupted := ask_interrupt (By opts) ended in
  gw_when interrupted (gw_opt onInterrupted tt) ;;
  if (SessionID snapshot == "") || negb (bool_decide (Snap_State snapshot = StateSpeaking)) then gw_ret tt
  else
    let* active := on_session (fun now => SetOutputState now OutputStateIdle) in
    on_trace MarkInterrupted ;;
    let* trace := on_trace MarkActive in
    gw_when (ClearPreview opts) clearInputPreview ;;
    gw_when (ClearPending opts) resetPending ;;
    applyReadDeadline active ;;
    match onReturnActive with Some f => f trace active | None => gw_ret tt end.

Definition interruptSpeakingFlowWithOptions (opts : interruptSpeakingOptions) (ended : option (gw unit))
    (onInterrupted : option (gw unit)) (onReturnActive : option (turnTrace -> Snapshot -> gw unit)) : gw unit := fun g =>
  let snapshot := Snapshot_ (gw_session g) in
  if negb (bool_decide (Snap_State snapshot = StateSpeaking)) && bool_decide (gw_output g = None) then (g, Ok tt)
  else interrupt_speaking snapshot opts ended onInterrupted onReturnActive g.

Definition interruptSpeakingFlow : option (gw unit) -> option (gw unit) -> option (turnTrace -> Snapshot -> gw unit) -> gw unit :=
  interruptSpeakingFlowWithOptions (mkInterruptOptions true true ByDefault).

(** ** Completing a turn *)

Record turnCompletionHooks := mkCompletionHooks {
  ResolveReturnActive : option (gw (Snapshot * bool));
  OnReturnActive : option (turnTrace -> Snapshot -> gw unit);
  OnEndSession : option (turnTrace -> CloseReason -> text -> gw unit)
}.

Definition clearTrace : gw unit := gw_update (fun g => g <|gw_traces := Clear (gw_traces g)|>).

Definition return_active : gw Snapshot := on_session (fun now => SetState now StateActive).

Definition completeTurnReturnOrClose (endSession : bool) (endReason endMessage : text) (hooks : turnCompletionHooks) : gw unit :=
  if endSession then
    let '(reason, message) := close_directive endReason endMessage in
    let* trace := on_trace MarkCompleted in
    clearTrace ;;
    match OnEndSession hooks with None => gw_ret tt | Some f => f trace reason message end
  else
    let* active :=
      match ResolveReturnActive hooks with
      | Some resolve =>
          let* r := resolve in
          if (snd r : bool) then gw_ret (fst r) else return_active
      | None => return_active
      end in
    applyReadDeadline active ;;
    on_trace MarkActive ;;
    let* trace := on_trace MarkCompleted in
    clearTrace ;;
    match OnReturnActive hooks with None => gw_ret tt | Some f => f trace active end.

(** [resolvePostPlaybackActiveSnapshot] over the whole runtime: the preview that is
    not kept is cleared in the voice session and its trace too. *)
Definition resolvePostPlayback : gw (Snapshot * bool) := fun g =>
  let snapshot := Snapshot_ (gw_session g) in
  if negb (SessionID snapshot == "") && negb (bool_decide (Snap_InputState snapshot = InputStatePreviewing))
     && negb (hasPendingBargeInAudio (gw_barge g))
  then (resetPending ;; clearInputPreview ;; gw_ret (zero_Snapshot, false)) g
  else
    (let* now := gw_now in
     fun g => let '(b, r) := resolvePostPlaybackActiveSnapshot now (gw_barge g) in
              (g <|gw_barge := b|>, match r with Ok x => Ok x | Err e => Err (session_error e) end)) g.

(** The hook both completions of the realtime handler share. *)
Definition write_active (trace : turnTrace) (active : Snapshot) : gw unit :=
  WriteEvent (sessionUpdateFromSnapshot (SessionID active) active (tt_TurnID trace) "").

Definition endSession (reason : CloseReason) (message : text) : gw unit :=
  let* snapshot := on_session (fun now => End_ now reason) in
  WriteEvent (SessionEndEvent (SessionID snapshot) reason message) ;;
  gw_update (fun g => (set_session (Reset_ (gw_session g)) g) <|gw_normalizer := None|>) ;;
  clearInputPreview ;;
  clearAck ;;
  gw_update (fun g => g <|gw_collaboration := mkNegotiation false ""|>) ;;
  clearTrace ;;
  let* snapshot := gw_get (fun g => Snapshot_ (gw_session g)) in
  applyReadDeadline snapshot.

Definition terminateWithError (code message : text) (ended : option (gw unit)) : gw unit := fun g =>
  let sessionID := SessionID (Snapshot_ (gw_session g)) in
  (WriteEvent (ErrorEvent sessionID code message false) ;;
   if sessionID != "" then interruptOutput ended ;; endSession CloseReasonError message else gw_ret tt) g.

(** ** The turn's answer *)

Record turnFinalizeHooks (A : Type) := mkFinalizeHooks {
  Completion : turnCompletionHooks;
  BeforeNoAudio : option (turnTrace -> TurnResponse A -> text -> gw unit);
  BeforeSpeaking : option (turnTrace -> gw unit);
  StartAudioStream : turnTrace -> A -> TurnResponse A -> text -> gw unit
}.
Arguments mkFinalizeHooks {A}.
Arguments Completion {A}.
Arguments BeforeNoAudio {A}.
Arguments BeforeSpeaking {A}.
Arguments StartAudioStream {A}.

Section Finalize.

(** Streams are an interface: [static] is [NewStaticAudioStream], and
    [duration_of] the method [PlaybackDuration] of a stream that has it. *)
Context {B : Type} (static : list bytes -> B) (duration_of : B -> duration -> option duration).

Abbreviation A := (turn_stream B).

(** The wrapper that cancels the turn has no such method. *)
Definition planned (s : A) (chunkDuration : duration) : option duration :=
  match s with Inner s => duration_of s chunkDuration | CancelOnClose _ => None end.

Definition audioStreamForTurnResponse (r : TurnResponse A) : option A :=
  match rsp_AudioStream r with
  | Some s => Some s
  | None => if 0 <? len (rsp_AudioChunks r) then Some (Inner (static (rsp_AudioChunks r))) else None
  end.

Definition plannedPlaybackDurationForAudioStream (s : option A) (chunkDuration : duration) : duration :=
  match s with
  | None => 0
  | Some s => if chunkDuration <=? 0 then 0 else match planned s chunkDuration with Some d => d | None => 0 end
  end.

Definition plannedPlaybackDurationForResponse (r : TurnResponse A) (chunkDuration : duration) : duration :=
  if chunkDuration <=? 0 then 0
  else if 0 <? len (rsp_AudioChunks r) then i64 (len (rsp_AudioChunks r) * chunkDuration)
  else plannedPlaybackDurationForAudioStream (rsp_AudioStream r) chunkDuration.

Definition finalizeTurnLifecycle (trace : turnTrace) (r : TurnResponse A) (aggregatedText : text)
    (hooks : turnFinalizeHooks A) : gw unit :=
  let* now := gw_now in
  gw_update (fun g => set_session (ClearTurn now (gw_session g)) g) ;;
  match audioStreamForTurnResponse r with
  | Some s =>
      let* speaking := on_session (fun now => SetOutputState now OutputStateSpeaking) in
      let* trace := on_trace MarkSpeaking in
      applyReadDeadline speaking ;;
      match BeforeSpeaking hooks with Some f => f trace | None => gw_ret tt end ;;
      StartAudioStream hooks trace s r aggregatedText
  | None =>
      match BeforeNoAudio hooks with Some f => f trace r aggregatedText | None => gw_ret tt end ;;
      completeTurnReturnOrClose (rsp_EndSession r) (rsp_EndReason r) (rsp_EndMessage r) (Completion hooks)
  end.

(** ** The realtime handler's hooks *)

Definition outputFrameInterval : duration := 20 * Millisecond.

Definition start_playback (delivered : text) (plannedDuration : duration) : gw unit := fun g =>
  on_voice (StartPlaybackWithOptions delivered outputFrameInterval plannedDuration
              (PlaybackAckEnabled (gw_collaboration g))) g.

(** [startAudioStream], up to the goroutine it starts. *)
Definition startAudioStream (meta : audioPlaybackMeta) (completion : turnOutputOutcomeFuture) : gw unit :=
  installOutput completion ;;
  gw_update (fun g => g <|gw_ack := installPlaybackAckMeta meta (gw_ack g)|>).

Definition completion_hooks : turnCompletionHooks :=
  mkCompletionHooks None (Some write_active) (Some (fun _ => endSession)).

Definition finalizeTurnResponse (sessionID : text) (trace : turnTrace) (responseID : text) (r : TurnResponse A)
    (deliveredText : text) : gw unit :=
  finalizeTurnLifecycle trace r deliveredText
    (mkFinalizeHooks completion_hooks
       (Some (fun _ _ aggregatedText => on_voice (FinalizeTextResponse aggregatedText)))
       (Some (fun trace =>
          start_playback deliveredText (plannedPlaybackDurationForResponse r outputFrameInterval) ;;
          let* speaking := gw_get (fun g => Snapshot_ (gw_session g)) in
          WriteEvent (sessionUpdateFromSnapshot sessionID speaking (tt_TurnID trace) "")))
       (fun _ _ r _ =>
          let* now := gw_now in
          startAudioStream
            (newAudioPlaybackMeta now responseID deliveredText (plannedPlaybackDurationForResponse r outputFrameInterval))
            (resolvedTurnOutputOutcome (mkOutputOutcome (rsp_EndSession r) (rsp_EndReason r) (rsp_EndMessage r))))).

(** The [StartResponseAudio] of emitTurnResponse: the answer starts to be spoken
    while it is still being made. *)
Definition start_early_audio (sessionID responseID aggregatedText : text) (start : ResponseAudioStart A)
    (completion : turnOutputOutcomeFuture) : gw unit :=
  let planned := plannedPlaybackDurationForAudioStream (as_Stream start) outputFrameInterval in
  let* speaking := on_session (fun now => SetOutputState now OutputStateSpeaking) in
  let* trace := on_trace MarkSpeaking in
  start_playback aggregatedText planned ;;
  applyReadDeadline speaking ;;
  WriteEvent (sessionUpdateFromSnapshot sessionID speaking (tt_TurnID trace) "") ;;
  let* now := gw_now in
  startAudioStream (newAudioPlaybackMeta now responseID aggregatedText planned) completion.

End Finalize.

(** ** The end of the playback goroutine *)

(** How the wait for the client's word ended. *)
Inductive ack_wait := AckReported | AckTimeout | AckCancelled.

(** How the loop over the frames ended. *)
Inductive playback_exit :=
| ExitCancelled (* the output was cancelled, or a write failed *)
| ExitStreamError (err : text)
| ExitPlayedOut (wait : ack_wait) (outcome : option turnOutputOutcome). (* no outcome: cancelled while waiting for it *)

Definition complete_playback (wait : ack_wait) : gw unit := fun g =>
  if PlaybackAckEnabled (gw_collaboration g) then
    let '(terminal, clearedReason, ok) := waitForPlaybackAckTerminal (gw_ack g) in
    match wait, ok, terminal with
    | AckReported, true, playbackAckTerminalCompleted =>
        on_voice (CompletePlaybackWithSource HeardTextSourcePlaybackCompleted) g
    | AckReported, true, playbackAckTerminalCleared =>
        on_voice (fun v => (InterruptPlaybackWithPolicy InterruptionPolicyHardInterrupt
                              (firstNonEmpty [TrimSpace clearedReason; txt "client_playback_cleared"]) v).1) g
    | _, _, _ => on_voice (CompletePlaybackWithSource HeardTextSourceHeuristicBytes) g
    end
  else on_voice CompletePlayback g.

Definition playing_session (sessionID : text) (g : runtime) : bool :=
  (SessionID (Snapshot_ (gw_session g)) == sessionID)
  && bool_decide (Snap_State (Snapshot_ (gw_session g)) = StateSpeaking).

(** What the goroutine does after its last frame, without its [defer]s. *)
Definition playback_tail (sessionID : text) (exit : playback_exit) : gw unit := fun g =>
  match exit with
  | ExitCancelled => (g, Ok tt)
  | ExitStreamError err =>
      if playing_session sessionID g then
        match (on_voice (fun v => (InterruptPlayback v).1) ;;
               fun g => let '(g, _) := WriteEvent (ErrorEvent sessionID "audio_stream_failed" err false) g in
                        endSession CloseReasonError err g) g with
        | (g, _) => (g, Ok tt)
        end
      else (g, Ok tt)
  | ExitPlayedOut wait outcome =>
      if negb (playing_session sessionID g) then (resetPending ;; clearInputPreview) g
      else
        match (complete_playback wait ;;
               match outcome with
               | None => gw_ret tt
               | Some o =>
                   if oc_EndSession o then
                     completeTurnReturnOrClose true (oc_EndReason o) (oc_EndMessage o)
                       (mkCompletionHooks None None (Some (fun _ => endSession)))
                   else
                     completeTurnReturnOrClose false (oc_EndReason o) (oc_EndMessage o)
                       (mkCompletionHooks (Some resolvePostPlayback) (Some write_active) None)
               end) g with
        | (g, _) => (g, Ok tt)
        end
  end.

Definition playback_finished (sessionID : text) (id : Z) (exit : playback_exit) : gw unit :=
  playback_tail sessionID exit ;; playback_ended id.

End Flows.

(** ** What a flow leaves, and how it is reasoned about *)

Section Reasoning.

Context {S P : Type} `{!MemoryStore S} `{!PreviewSession P} {CN : Connection} (clock : nat -> instant) (profile : RealtimeProfile).

Abbreviation runtime := (gateway S P).

(** [m] started in [g] ends in a state and a result that satisfy [Q]. *)
Definition ends {A} (m : gw (S := S) (P := P) A) (g : runtime) (Q : runtime -> result text A -> Prop) : Prop := Q (m g).1 (m g).2.

Lemma ends_bind {A B} (m : gw A) (f : A -> gw B) g Q :
  ends m g (fun g' r => match r with Ok a => ends (f a) g' Q | Err e => Q g' (Err e) end) -> ends (gw_bind m f) g Q.
Proof. unfold ends, gw_bind. destruct (m g) as [g' [a|e]]; done. Qed.

Lemma ends_weaken {A} (m : gw A) g (Q R : runtime -> result text A -> Prop) :
  ends m g Q -> (forall g' r, Q g' r -> R g' r) -> ends m g R.
Proof. unfold ends. intros H HQ. by apply HQ. Qed.

(** A property of the runtime that a computation keeps, whatever its result. *)
Definition keeps (I : runtime -> Prop) {A} (m : gw A) : Prop := forall g, I g -> ends m g (fun g' _ => I g').

Lemma keeps_bind (I : runtime -> Prop) {A B} (m : gw A) (f : A -> gw B) :
  keeps I m -> (forall a, keeps I (f a)) -> keeps I (gw_bind m f).
Proof.
  intros Hm Hf g Hg. apply ends_bind. eapply ends_weaken; [by apply Hm|]. intros g' [a|e] Hg'; [by apply Hf|exact Hg'].
Qed.

Lemma keeps_ret (I : runtime -> Prop) {A} (a : A) : keeps I (gw_ret a).
Proof. by intros g Hg. Qed.

Lemma keeps_read (I : runtime -> Prop) {A} (m : runtime -> gw A) : (forall g, keeps I (m g)) -> keeps I (fun g => m g g).
Proof. intros Hm g. apply (Hm g). Qed.

Lemma keeps_update (I : runtime -> Prop) f : (forall g, I g -> I (f g)) -> keeps I (gw_update f).
Proof. intros Hf g Hg. by apply Hf. Qed.

End Reasoning.

(** ** The session's methods on an open session *)

Definition after_output (now : instant) (st : OutputState) (s : RealtimeSession) : RealtimeSession :=
  rederive (s <|current := (current s) <|Snap_OutputState := normalizeOutputState st|> <|LastActivityAt := now|>|>).

Lemma set_output_ok now st s :
  active s = true -> SetOutputState now st s = (after_output now st s, Ok (Snapshot_ (after_output now st s))).
Proof. intros Ha. unfold SetOutputState. by rewrite Ha. Qed.

Lemma after_output_fields now st s :
  let s' := after_output now st s in
  active s' = active s /\ SessionID (Snapshot_ s') = SessionID (Snapshot_ s) /\
  Snap_InputState (Snapshot_ s') = Snap_InputState (Snapshot_ s) /\
  Snap_OutputState (Snapshot_ s') = normalizeOutputState st /\ turnAudioChunks s' = turnAudioChunks s /\
  Snap_State (Snapshot_ s') = deriveCompatState (Snap_InputState (Snapshot_ s)) (normalizeOutputState st) (SessionID (Snapshot_ s) != "").
Proof. cbv zeta. unfold after_output, rederive, Snapshot_, cloneSnapshot. by read_fields. Qed.

Lemma snapshot_state s : Snap_State (Snapshot_ s) = deriveCompatState (Snap_InputState (Snapshot_ s)) (Snap_OutputState (Snapshot_ s)) (SessionID (Snapshot_ s) != "").
Proof. unfold Snapshot_, cloneSnapshot. by read_fields. Qed.

(** A session is open exactly when its snapshot has an ID. *)
Lemma open_session s : session_inv s -> SessionID (Snapshot_ s) <> [] -> active s = true.
Proof. intros Hi Hn. apply (inv_id _ Hi). unfold Snapshot_, cloneSnapshot in Hn. by read_fields_in Hn. Qed.

Lemma speaking_session s :
  Snap_State (Snapshot_ s) = StateSpeaking -> SessionID (Snapshot_ s) <> [] /\ Snap_OutputState (Snapshot_ s) = OutputStateSpeaking.
Proof.
  rewrite snapshot_state. unfold deriveCompatState. destruct (SessionID (Snapshot_ s) == "") eqn:E; cbn [negb]; [done|].
  apply text_eqb_false in E. destruct (Snap_OutputState (Snapshot_ s)); try done.
Qed.

Definition clearing_input (i : InputState) : InputState :=
  match i with InputStatePreviewing => InputStateActive | _ => i end.

Lemma clear_preview_fields now s :
  session_inv s ->
  let s' := clearInputPreview_session now s in
  session_inv s' /\ active s' = active s /\ SessionID (Snapshot_ s') = SessionID (Snapshot_ s) /\
  Snap_InputState (Snapshot_ s') = clearing_input (Snap_InputState (Snapshot_ s)) /\
  Snap_OutputState (Snapshot_ s') = Snap_OutputState (Snapshot_ s) /\ turnAudioChunks s' = turnAudioChunks s.
Proof.
  intros Hi. cbv zeta. unfold clearInputPreview_session. cbv zeta.
  destruct (SessionID (Snapshot_ s) != "") eqn:Es; cbn [andb].
  - destruct (decide (Snap_InputState (Snapshot_ s) = InputStatePreviewing)) as [E|E].
    + rewrite bool_decide_eq_true_2 by done. split; [apply (step_inv now (OpSetInput InputStateActive) s Hi)|].
      assert (Ha : active s = true) by (apply open_session; [done|]; intros En; by rewrite En in Es).
      unfold SetInputState. rewrite Ha, E. cbn [negb fst]. unfold rederive, Snapshot_, cloneSnapshot. by read_fields.
    + rewrite bool_decide_eq_false_2 by done. repeat (split; [done|]). split; [|done].
      by destruct (Snap_InputState (Snapshot_ s)).
  - split; [done|]. repeat (split; [done|]). split; [|done].
    destruct (active s) eqn:Ha.
    + apply (inv_id _ Hi) in Ha. unfold Snapshot_, cloneSnapshot in Es. read_fields_in Es. by destruct (SessionID (current s)).
    + destruct (inv_idle _ Hi Ha) as (E & _). unfold Snapshot_, cloneSnapshot. read_fields. by rewrite E.
Qed.

(** ** A barge-in *)

(** A connection that takes what is written to it. *)
Class Reliable {CN : Connection} : Prop := {
  written : forall l, write_error l = None;
  deadline_set : forall l t, deadline_error l t = None
}.

Section Interruption.

Context {S P : Type} `{!MemoryStore S} `{!PreviewSession P} {CN : Connection} {RL : Reliable} (clock : nat -> instant) (profile : RealtimeProfile).

Abbreviation runtime := (gateway S P).

Lemma ends_step {A B} (m : gw A) (f : A -> gw B) (g g' : runtime) a Q : m g = (g', Ok a) -> ends (f a) g' Q -> ends (gw_bind m f) g Q.
Proof. intros E Hq. apply ends_bind. unfold ends at 1. by rewrite E. Qed.

Lemma write_ok e (g : runtime) : WriteEvent e g = (g <|gw_events := gw_events g ++ [e]|>, Ok tt).
Proof. unfold WriteEvent. by rewrite written. Qed.

Lemma deadline_ok snapshot (g : runtime) :
  applyReadDeadline profile snapshot g = (g <|gw_deadline := readDeadlineForSnapshot snapshot profile|>, Ok tt).
Proof. unfold applyReadDeadline. by rewrite deadline_set. Qed.

Definition read_once (g : runtime) : runtime := g <|gw_reads := Datatypes.S (gw_reads g)|>.
Definition time_of (g : runtime) : instant := clock (gw_reads g).

Lemma trace_ok f (g : runtime) :
  on_trace clock f g = ((read_once g) <|gw_traces := (f (time_of g) (gw_traces g)).1|>, Ok (f (time_of g) (gw_traces g)).2).
Proof.
  unfold on_trace, gw_bind, gw_now. change (gw_traces (g <|gw_reads := _|>)) with (gw_traces g). fold (time_of g).
  by destruct (f (time_of g) (gw_traces g)).
Qed.

Lemma output_ok st (g : runtime) :
  active (gw_session g) = true ->
  on_session clock (fun now => SetOutputState now st) g
  = (set_session (after_output (time_of g) st (gw_session g)) (read_once g), Ok (Snapshot_ (after_output (time_of g) st (gw_session g)))).
Proof.
  intros Ha. unfold on_session, gw_bind, gw_now.
  change (gw_session (g <|gw_reads := _|>)) with (gw_session g). by rewrite set_output_ok.
Qed.

Definition preview_cleared (g : runtime) : runtime :=
  set_session (clearInputPreview_session (time_of g) (gw_session g))
    ((read_once g) <|gw_previews := (PreviewClear (gw_previews g)).1|> <|gw_voice := ClearInputPreview (gw_voice g)|>).

Lemma clear_preview_ok (g : runtime) : clearInputPreview clock g = (preview_cleared g, Ok tt).
Proof. by destruct g. Qed.

(** The policy and reason an interruption asks for. *)
Definition asked_policy (b : interrupt_by) : InterruptionPolicy * text :=
  match b with
  | ByDefault => (InterruptionPolicyHardInterrupt, txt "hard_interrupt")
  | ByDecision d => (bd_Policy d, bd_Reason d)
  | ByPolicy p reason => if policy_text p != "" then (p, reason) else (InterruptionPolicyHardInterrupt, txt "hard_interrupt")
  end.

(** What the goroutine left if it ended within the wait. *)
Definition output_after (o : outputStream) (ended : bool) : option outputStream :=
  if ended then None else Some (mkOutput (os_id o) true (os_completion o) (os_effects o)).

Definition interrupted_output (reason : text) (o : outputStream) (ended : bool) (g : runtime) : runtime :=
  g <|gw_output := output_after o ended|>
    <|gw_ack := if ended then clearPlaybackAckState (gw_ack g) else gw_ack g|>
    <|gw_voice := (InterruptPlaybackWithPolicy InterruptionPolicyHardInterrupt reason (gw_voice g)).1|>.

Lemma interrupt_output_ok b (g : runtime) o (ended : bool) :
  gw_output g = Some o -> (asked_policy b).1 = InterruptionPolicyHardInterrupt ->
  ask_interrupt b (if ended then Some (gw_ret tt) else None) g = (interrupted_output (asked_policy b).2 o ended g, Ok true).
Proof.
  intros Ho Hp.
  assert (H : forall reason, interruptOutputWithPolicy InterruptionPolicyHardInterrupt reason (if ended then Some (gw_ret tt) else None) g
    = (interrupted_output reason o ended g, Ok true)).
  { intros reason. unfold interruptOutputWithPolicy. rewrite Ho.
    assert (ShouldInterruptOutput (playbackDirectiveForDecision (policy_decision InterruptionPolicyHardInterrupt reason)) = true) as ->.
    { change (ShouldInterrupt (policy_decision InterruptionPolicyHardInterrupt reason) = true). by rewrite directive_interrupts. }
    cbn [negb]. unfold interrupted_output. destruct g. cbn in Ho. subst. destruct ended; cbn; [|done]. by rewrite Z.eqb_refl. }
  destruct b as [|d|p reason]; cbn [ask_interrupt asked_policy fst snd] in *; [apply H| |].
  - unfold interruptOutputWithDecision. rewrite Hp. apply H.
  - destruct (policy_text p != ""); cbn [fst snd] in *; [subst p|]; apply H.
Qed.

Lemma bind_ok {A B} (m : gw A) (f : A -> gw B) (g g' : runtime) a : m g = (g', Ok a) -> gw_bind m f g = f a g'.
Proof. intros E. unfold gw_bind. by rewrite E. Qed.

Definition marked (f : instant -> turnTraceState -> turnTraceState * turnTrace) (g : runtime) : runtime :=
  (read_once g) <|gw_traces := (f (time_of g) (gw_traces g)).1|>.

(** The runtime an interrupted flow goes through. *)
Definition after_interruption (opts : interruptSpeakingOptions) (o : outputStream) (ended : bool) (g : runtime) : runtime :=
  let g := interrupted_output (asked_policy (By opts)).2 o ended g in
  let active := after_output (time_of g) OutputStateIdle (gw_session g) in
  let g := marked MarkInterrupted (set_session active (read_once g)) in
  let trace := (MarkActive (time_of g) (gw_traces g)).2 in
  let g := marked MarkActive g in
  let g := if ClearPreview opts then preview_cleared g else g in
  let g := if ClearPending opts then g <|gw_barge := resetPendingBargeInAudio (gw_barge g)|> else g in
  let g := g <|gw_deadline := readDeadlineForSnapshot (Snapshot_ active) profile|> in
  g <|gw_events := gw_events g ++ [sessionUpdateFromSnapshot (SessionID (Snapshot_ active)) (Snapshot_ active) (tt_TurnID trace) ""]|>.

Lemma interruption_ok (g : runtime) opts o (ended : bool) :
  active (gw_session g) = true -> Snap_State (Snapshot_ (gw_session g)) = StateSpeaking -> gw_output g = Some o ->
  (asked_policy (By opts)).1 = InterruptionPolicyHardInterrupt ->
  interruptSpeakingFlowWithOptions clock profile opts (if ended then Some (gw_ret tt) else None) None (Some write_active) g
  = (after_interruption opts o ended g, Ok tt).
Proof.
  intros Hact Hsp Ho Hp. unfold interruptSpeakingFlowWithOptions. cbv zeta. rewrite Hsp, bool_decide_eq_true_2 by done.
  cbn [negb andb]. unfold interrupt_speaking. rewrite (bind_ok _ _ _ _ _ (interrupt_output_ok _ _ _ _ Ho Hp)).
  rewrite (bind_ok (gw_when true _) _ _ _ _ eq_refl). destruct (speaking_session _ Hsp) as [Hid _].
  assert ((SessionID (Snapshot_ (gw_session g)) == "") = false) as -> by (by apply text_eqb_false).
  rewrite Hsp, bool_decide_eq_true_2 by done. cbn [negb orb]. unfold after_interruption. cbv zeta.
  set (g1 := interrupted_output _ o ended g).
  assert (E1 : gw_session g1 = gw_session g) by (subst g1; unfold interrupted_output, gw_session; by read_fields).
  clearbody g1. rewrite (bind_ok _ _ _ _ _ (output_ok OutputStateIdle g1 ltac:(by rewrite E1))).
  rewrite (bind_ok _ _ _ _ _ (trace_ok MarkInterrupted _)), (bind_ok _ _ _ _ _ (trace_ok MarkActive _)).
  fold (marked MarkInterrupted (set_session (after_output (time_of g1) OutputStateIdle (gw_session g1)) (read_once g1))).
  set (g2 := marked MarkInterrupted _). fold (marked MarkActive g2). set (g3 := marked MarkActive g2).
  set (snap := Snapshot_ (after_output _ _ _)). clearbody snap. clearbody g2. clearbody g3.
  destruct (ClearPreview opts); cbn [gw_when];
    [rewrite (bind_ok _ _ _ _ _ (clear_preview_ok g3))|rewrite (bind_ok (gw_ret tt) _ _ _ _ eq_refl)];
    (destruct (ClearPending opts); cbn [gw_when]; rewrite (bind_ok _ _ _ _ _ eq_refl));
    rewrite (bind_ok _ _ _ _ _ (deadline_ok _ _)); unfold write_active; by rewrite write_ok.
Qed.

(** What the interruption left, part by part. *)
Lemma after_interruption_fields opts o ended (g : runtime) :
  let s1 t := after_output t OutputStateIdle (gw_session g) in
  let v := (InterruptPlaybackWithPolicy InterruptionPolicyHardInterrupt (asked_policy (By opts)).2 (gw_voice g)).1 in
  exists t1 t2 trace,
    gw_session (after_interruption opts o ended g) = (if ClearPreview opts then clearInputPreview_session t2 (s1 t1) else s1 t1) /\
    gw_output (after_interruption opts o ended g) = output_after o ended /\
    turn (gw_voice (after_interruption opts o ended g)) = turn v /\
    lastPlaybackOutcome (gw_voice (after_interruption opts o ended g)) = lastPlaybackOutcome v /\
    pendingBargeIn (gw_barge (after_interruption opts o ended g))
    = (if ClearPending opts then zero_pending else pendingBargeIn (gw_barge g)) /\
    last (gw_events (after_interruption opts o ended g))
    = Some (sessionUpdateFromSnapshot (SessionID (Snapshot_ (s1 t1))) (Snapshot_ (s1 t1)) trace "").
Proof.
  cbv zeta. unfold after_interruption. cbv zeta. set (g1 := interrupted_output _ o ended g).
  assert (F : gw_session g1 = gw_session g /\ gw_output g1 = output_after o ended /\ pendingBargeIn (gw_barge g1) = pendingBargeIn (gw_barge g) /\
    gw_voice g1 = (InterruptPlaybackWithPolicy InterruptionPolicyHardInterrupt (asked_policy (By opts)).2 (gw_voice g)).1)
    by (subst g1; unfold interrupted_output, gw_session; by read_fields).
  destruct F as (F1 & F2 & F3 & F4). rewrite <- F1, <- F2, <- F3, <- F4. clear F1 F2 F3 F4. clearbody g1.
  exists (time_of g1). set (s1 := after_output (time_of g1) OutputStateIdle (gw_session g1)). clearbody s1.
  set (g2 := marked MarkInterrupted _).
  assert (F : gw_session g2 = s1 /\ gw_output g2 = gw_output g1 /\ pendingBargeIn (gw_barge g2) = pendingBargeIn (gw_barge g1) /\ gw_voice g2 = gw_voice g1)
    by (subst g2; unfold marked, set_session, read_once, gw_session; by read_fields).
  destruct F as (F1 & F2 & F3 & F4). rewrite <- F1, <- F2, <- F3, <- F4. clear F1 F2 F3 F4. clearbody g2.
  set (trace := (MarkActive _ _).2). clearbody trace. set (g3 := marked MarkActive g2).
  exists (time_of g3), (tt_TurnID trace).
  destruct (ClearPreview opts), (ClearPending opts); unfold preview_cleared, set_session, read_once, gw_session; subst g3;
    unfold marked, read_once, resetPendingBargeInAudio, ClearInputPreview, with_preview; read_fields; rewrite ?last_snoc; done.
Qed.

(** C15. A barge-in stops the turn everywhere. On a session that speaks, with an
    output playing the active playback of a turn, an interruption under the hard
    policy leaves the session open and active with the output idle and its input
    and audio untouched (out of the preview if that is asked for), cancels the
    output and, once its goroutine has ended, drops it with its acks, settles the
    turn in the voice session as interrupted, keeps or drops the staged audio as
    asked, sets the read deadline of an active session and tells the client. *)
Theorem interruption_stops_the_turn (g : runtime) opts o t (ended : bool) :
  session_inv (gw_session g) -> Snap_State (Snapshot_ (gw_session g)) = StateSpeaking ->
  gw_output g = Some o -> turn (gw_voice g) = Some t -> playbackActive t = true -> turn_inv t ->
  (asked_policy (By opts)).1 = InterruptionPolicyHardInterrupt ->
  ends (interruptSpeakingFlowWithOptions clock profile opts (if ended then Some (gw_ret tt) else None) None (Some write_active)) g
    (fun g' r => r = Ok tt /\
      let s := Snapshot_ (gw_session g) in let s' := Snapshot_ (gw_session g') in
      SessionID s' = SessionID s /\ Snap_State s' = StateActive /\ Snap_OutputState s' = OutputStateIdle /\
      Snap_InputState s' = (if ClearPreview opts then clearing_input (Snap_InputState s) else Snap_InputState s) /\
      turnAudioChunks (gw_session g') = turnAudioChunks (gw_session g) /\
      gw_output g' = output_after o ended /\
      turn (gw_voice g') = None /\
      (exists out, lastPlaybackOutcome (gw_voice g') = Some out /\ po_ResponseInterrupted out = true /\ po_PlaybackCompleted out = false) /\
      pendingBargeIn (gw_barge g') = (if ClearPending opts then zero_pending else pendingBargeIn (gw_barge g)) /\
      (exists trace, last (gw_events g') =
         Some (SessionUpdateEvent (SessionID s) StateActive (Snap_InputState s) OutputStateIdle trace ""))).
Proof.
  intros Hi Hsp Ho Ht Ha Hti Hp. destruct (speaking_session _ Hsp) as [Hid Hout].
  assert (Hact : active (gw_session g) = true) by (by apply open_session).
  unfold ends. rewrite (interruption_ok _ _ _ _ Hact Hsp Ho Hp). cbn [fst snd]. split; [done|]. cbv zeta.
  destruct (after_interruption_fields opts o ended g) as (t1 & t2 & trace & Es & Eo & Ev & El & Ep & Ee).
  destruct (after_output_fields t1 OutputStateIdle (gw_session g)) as (A1 & A2 & A3 & A4 & A5 & A6).
  assert (Hi1 : session_inv (after_output t1 OutputStateIdle (gw_session g))).
  { pose proof (step_inv t1 (OpSetOutput OutputStateIdle) _ Hi) as H1. cbn [step] in H1. by rewrite set_output_ok in H1. }
  destruct (clear_preview_fields t2 _ Hi1) as (_ & C2 & C3 & C4 & C5 & C6).
  pose proof (interrupt_steps InterruptionPolicyHardInterrupt (asked_policy (By opts)).2 t (gw_voice g) Ht Ha Hti) as Hv.
  destruct (InterruptPlaybackWithPolicy _ _ (gw_voice g)) as [v r]. destruct Hv as (_ & _ & _ & _ & _ & _ & _ & t' & -> & _ & _ & _ & Hin & Hco).
  cbn [fst] in Ev, El. rewrite Es, Eo, Ev, El, Ep, Ee.
  assert (Hid' : (SessionID (Snapshot_ (gw_session g)) != "") = true) by (pose proof (proj2 (text_eqb_false _ (txt "")) Hid) as E; by rewrite E).
  unfold sessionUpdateFromSnapshot. rewrite A2, A3, A4, A6, Hid'. split; [by destruct (ClearPreview opts); rewrite ?C3, A2|].
  split; [rewrite snapshot_state; by destruct (ClearPreview opts); rewrite ?C5, ?C4, ?C3, A2, A4, Hid'|].
  split; [by destruct (ClearPreview opts); rewrite ?C5, A4|]. split; [by destruct (ClearPreview opts); rewrite ?C4, A3|].
  split; [by destruct (ClearPreview opts); rewrite ?C6, A5|]. split; [done|]. split; [done|].
  split; [|split; [done|by exists trace]]. eexists. split; [reflexivity|]. unfold playbackOutcomeFromTurn.
  cbn [po_ResponseInterrupted po_PlaybackCompleted]. by rewrite Hin, Hco.
Qed.

(** ** The end of a session *)

Definition session_ended (reason : CloseReason) (message : text) (g : runtime) : runtime :=
  let g1 := set_session (End_ (time_of g) reason (gw_session g)).1 (read_once g) in
  let g1 := g1 <|gw_events := gw_events g1 ++ [SessionEndEvent (SessionID (Snapshot_ (gw_session g))) reason message]|> in
  let g1 := preview_cleared ((set_session (Reset_ (gw_session g1)) g1) <|gw_normalizer := None|>) in
  let g1 := g1 <|gw_ack := clearPlaybackAckState (gw_ack g1)|> <|gw_collaboration := mkNegotiation false ""|>
              <|gw_traces := Clear (gw_traces g1)|> in
  g1 <|gw_deadline := time_zero|>.

Lemma end_ok reason message (g : runtime) :
  active (gw_session g) = true -> endSession clock profile reason message g = (session_ended reason message g, Ok tt).
Proof.
  intros Ha. unfold endSession.
  assert (E : on_session clock (fun now => End_ now reason) g
    = (set_session (End_ (time_of g) reason (gw_session g)).1 (read_once g), Ok (Snapshot_ (End_ (time_of g) reason (gw_session g)).1))).
  { unfold on_session, gw_bind, gw_now. change (gw_session (g <|gw_reads := _|>)) with (gw_session g).
    unfold End_. by rewrite Ha. }
  rewrite (bind_ok _ _ _ _ _ E), (bind_ok _ _ _ _ _ (write_ok _ _)), (bind_ok (gw_update _) _ _ _ _ eq_refl).
  assert (Eid : SessionID (Snapshot_ (End_ (time_of g) reason (gw_session g)).1) = SessionID (Snapshot_ (gw_session g))).
  { unfold End_. rewrite Ha. cbn [negb fst]. unfold rederive, Snapshot_, cloneSnapshot. by read_fields. }
  rewrite Eid, (bind_ok _ _ _ _ _ (clear_preview_ok _)).
  rewrite (bind_ok _ _ _ _ _ eq_refl), (bind_ok _ _ _ _ _ eq_refl), (bind_ok _ _ _ _ _ eq_refl).
  unfold session_ended. cbv zeta.
  set (g1 := set_session _ (read_once g)). set (e := SessionEndEvent _ _ _). clearbody g1 e. clear E Eid.
  rewrite (bind_ok _ _ _ _ _ eq_refl), deadline_ok. done.
Qed.

(** C17. Ending a session leaves nothing of it but what was staged beside it: the
    client is told the reason, and then the session is idle, the preview, its
    trace, the turn's trace, the playback acks and what was negotiated are gone,
    and no read deadline is set. *)
Theorem session_end_leaves_nothing reason message (g : runtime) :
  session_inv (gw_session g) -> active (gw_session g) = true ->
  ends (endSession clock profile reason message) g (fun g' r => r = Ok tt /\
    gw_session g' = NewRealtimeSession /\ preview (gw_voice g') = None /\
    preview_current (gw_previews g') = zero_previewTrace /\ trace_current (gw_traces g') = zero_turnTrace /\
    gw_ack g' = clearPlaybackAckState (gw_ack g) /\ PlaybackAckEnabled (gw_collaboration g') = false /\
    gw_deadline g' = time_zero /\
    last (gw_events g') = Some (SessionEndEvent (SessionID (Snapshot_ (gw_session g))) reason message) /\
    pendingBargeIn (gw_barge g') = pendingBargeIn (gw_barge g)).
Proof.
  intros Hi Ha. unfold ends. rewrite (end_ok _ _ _ Ha). cbn [fst snd]. split; [done|].
  destruct g as [b v tr pv co ak ou n dl ev rd nm]. unfold session_ended. cbv zeta.
  set (s1 := (End_ _ _ _).1). clearbody s1. cbn. rewrite last_snoc. by repeat split.
Qed.
(** ** The end of a turn *)

(** The client was told the session as it is, and its deadline is set for it. *)
Definition told (g : runtime) : Prop :=
  exists turnID, last (gw_events g) =
    Some (sessionUpdateFromSnapshot (SessionID (Snapshot_ (gw_session g))) (Snapshot_ (gw_session g)) turnID "").
Definition timed (g : runtime) : Prop := gw_deadline g = readDeadlineForSnapshot (Snapshot_ (gw_session g)) profile.

Definition turn_done (active : Snapshot) (g : runtime) : runtime :=
  let g := g <|gw_deadline := readDeadlineForSnapshot active profile|> in
  let g := marked MarkActive g in
  let trace := (MarkCompleted (time_of g) (gw_traces g)).2 in
  let g := marked MarkCompleted g in
  let g := g <|gw_traces := Clear (gw_traces g)|> in
  g <|gw_events := gw_events g ++ [sessionUpdateFromSnapshot (SessionID active) active (tt_TurnID trace) ""]|>.

Lemma turn_done_fields active (g : runtime) :
  let g' := turn_done active g in
  gw_session g' = gw_session g /\ gw_barge g' = gw_barge g /\ gw_voice g' = gw_voice g /\ gw_ack g' = gw_ack g /\
  gw_output g' = gw_output g /\ gw_collaboration g' = gw_collaboration g /\ trace_current (gw_traces g') = zero_turnTrace /\
  (active = Snapshot_ (gw_session g) -> told g' /\ timed g').
Proof.
  cbv zeta. unfold turn_done, told, timed. cbv zeta. set (trace := (MarkCompleted _ _).2). clearbody trace.
  unfold marked, read_once, gw_session. read_fields. cbn [Clear trace_current].
  repeat (split; [done|]). intros ->. split; [|done]. exists (tt_TurnID trace). by rewrite last_snoc.
Qed.

Lemma done_ok resolve active endReason endMessage hook (g g1 : runtime) :
  match resolve with
  | Some m => (exists sn, m g = (g1, Ok (sn, true)) /\ sn = active) \/
              (exists g0 sn, m g = (g0, Ok (sn, false)) /\ return_active clock g0 = (g1, Ok active))
  | None => return_active clock g = (g1, Ok active)
  end ->
  completeTurnReturnOrClose clock profile false endReason endMessage (mkCompletionHooks resolve (Some write_active) hook) g
  = (turn_done active g1, Ok tt).
Proof.
  intros H. unfold completeTurnReturnOrClose. cbn [ResolveReturnActive OnReturnActive].
  assert (E : (match resolve with
     | Some resolve => gw_bind resolve (fun r => if (snd r : bool) then gw_ret (fst r) else return_active clock)
     | None => return_active clock end) g = (g1, Ok active)).
  { destruct resolve as [m|]; [|exact H]. destruct H as [(sn & E & ->)|(g0 & sn & E & E')]; rewrite (bind_ok _ _ _ _ _ E); [done|exact E']. }
  rewrite (bind_ok _ _ _ _ _ E), (bind_ok _ _ _ _ _ (deadline_ok _ _)), (bind_ok _ _ _ _ _ (trace_ok _ _)).
  unfold turn_done. cbv zeta. set (g2 := g1 <|gw_deadline := _|>). fold (marked MarkActive g2). set (g3 := marked MarkActive g2).
  clearbody g3. rewrite (bind_ok _ _ _ _ _ (trace_ok _ _)). fold (marked MarkCompleted g3).
  set (trace := (MarkCompleted _ _).2). clearbody trace. set (g4 := marked MarkCompleted g3). clearbody g4.
  rewrite (bind_ok _ _ _ _ _ eq_refl). unfold write_active. by rewrite write_ok.
Qed.

Definition after_active (now : instant) (s : RealtimeSession) : RealtimeSession :=
  rederive (s <|current := (applyCompatState (current s) StateActive) <|LastActivityAt := now|>|>).

Lemma return_active_ok (g : runtime) :
  active (gw_session g) = true ->
  let s' := after_active (time_of g) (gw_session g) in
  return_active clock g = (set_session s' (read_once g), Ok (Snapshot_ s')).
Proof.
  intros Ha. cbv zeta. unfold return_active, on_session, gw_bind, gw_now.
  change (gw_session (g <|gw_reads := _|>)) with (gw_session g). unfold SetState. by rewrite Ha.
Qed.

Lemma after_active_fields now s :
  let s' := after_active now s in
  active s' = active s /\ SessionID (Snapshot_ s') = SessionID (Snapshot_ s) /\
  Snap_InputState (Snapshot_ s') = InputStateActive /\ Snap_OutputState (Snapshot_ s') = OutputStateIdle /\
  turnAudioChunks s' = turnAudioChunks s.
Proof. cbv zeta. unfold after_active, rederive, Snapshot_, cloneSnapshot, applyCompatState. by read_fields. Qed.

(** ** The snapshot that is told after the playback *)

Lemma ingest_one now c s s' sn :
  session_inv s -> IngestOwnedAudioFrame now c s = (s', Ok sn) -> sn = Snapshot_ s' /\ session_inv s' /\ active s' = true.
Proof.
  intros Hi E. pose proof (ingest_inv now c s Hi) as Hi'. rewrite E in Hi'. cbn [fst] in Hi'.
  unfold IngestOwnedAudioFrame in E. destruct (active s) eqn:Ha; [|done]. cbn [negb] in E. cbv zeta in E.
  set (x := rederive _) in E. assert (Hx : active x = true) by (subst x; unfold rederive; by read_fields).
  clearbody x. by injection E as <- <-.
Qed.

Lemma ingest_snapshot now c cs sn s s' sn' :
  session_inv s -> ingest_chunks now (c :: cs) sn s = (s', Ok sn') -> sn' = Snapshot_ s' /\ session_inv s' /\ active s' = true.
Proof.
  revert c sn s. induction cs as [|d cs IH]; intros c sn s Hi H;
    change (ingest_chunks now (c :: ?l) sn s) with (match IngestOwnedAudioFrame now c s with (s, Ok x) => ingest_chunks now l x s | (s, Err e) => (s, Err e) end) in H;
    destruct (IngestOwnedAudioFrame now c s) as [s1 [sn1|e]] eqn:E1; try done.
  - cbn [ingest_chunks] in H. injection H as <- <-. by apply (ingest_one now c s).
  - apply (IH d sn1 s1); [|exact H]. by apply (ingest_one now c s s1 sn1).
Qed.

Lemma set_snapshot now st s s' sn : SetInputState now st s = (s', Ok sn) -> sn = Snapshot_ s'.
Proof. unfold SetInputState. destruct (negb (active s)); [done|]. cbv zeta. set (x := rederive _). by intros [= <- <-]. Qed.

Lemma open_id s : session_inv s -> active s = true -> (SessionID (Snapshot_ s) == "") = false.
Proof. intros Hi Ha. apply text_eqb_false. by apply (inv_id _ Hi) in Ha. Qed.

Lemma resolve_snapshot now r r' sn :
  session_inv (rt_session r) -> resolvePostPlaybackActiveSnapshot now r = (r', Ok (sn, true)) -> sn = Snapshot_ (rt_session r').
Proof.
  intros Hi. unfold resolvePostPlaybackActiveSnapshot. cbv zeta. destruct (SessionID _ == ""); [done|].
  destruct (negb _ && _) eqn:Ek; [done|].
  destruct (active (rt_session r)) eqn:Ha.
  2: { unfold SetOutputState. by rewrite Ha. }
  rewrite set_output_ok by done. set (s1 := after_output _ _ _).
  assert (Hi1 : session_inv s1).
  { pose proof (step_inv now (OpSetOutput OutputStateIdle) _ Hi) as H1. cbn [step] in H1. by rewrite set_output_ok in H1. }
  clearbody s1. cbn [rt_session pendingBargeIn].
  assert (Hset : forall r0, match SetInputState now InputStatePreviewing (rt_session r0) with
      | (s, Ok previewing) => (mkRuntime s (pendingBargeIn r0), Ok (previewing, true))
      | (s, Err e) => (mkRuntime s (pendingBargeIn r0), Err e) end = (r', Ok (sn, true)) -> sn = Snapshot_ (rt_session r')).
  { intros r0. destruct (SetInputState _ _ _) as [s3 [sn3|e]] eqn:E3; [|done]. apply set_snapshot in E3. by intros [= <- <-]. }
  destruct (hasPendingBargeInAudio r) eqn:Ep.
  - unfold flushPendingBargeInAudio. cbn [rt_session pendingBargeIn]. unfold hasPendingBargeInAudio in Ep.
    destruct (pending_chunks (pendingBargeIn r)) as [|c cs] eqn:Ec; [done|].
    destruct (ingest_chunks now (c :: cs) zero_Snapshot s1) as [s2 [sn2|e]] eqn:Ei; [|done]. cbn [rt_session pendingBargeIn].
    apply ingest_snapshot in Ei as (-> & Hi2 & Ha2); [|done]. rewrite (open_id s2 Hi2 Ha2). cbn [negb].
    destruct (bool_decide _); [apply (Hset (mkRuntime s2 zero_pending))|]. by intros [= <- <-].
  - destruct (bool_decide _); [apply (Hset (mkRuntime s1 (pendingBargeIn r)))|]. by intros [= <- <-].
Qed.
(** What the client reported, when it was asked and answered in time. *)
Definition client_cleared (wait : ack_wait) (g : runtime) : bool :=
  PlaybackAckEnabled (gw_collaboration g) &&
  match wait, waitForPlaybackAckTerminal (gw_ack g) with
  | AckReported, (playbackAckTerminalCleared, _, true) => true
  | _, _ => false
  end.

(** The voice session settles the turn: as interrupted if the client cleared its
    buffer, else as completed. *)
Lemma complete_playback_ok wait (g : runtime) t :
  turn (gw_voice g) = Some t -> playbackActive t = true -> turn_inv t ->
  exists v out, complete_playback wait g = (g <|gw_voice := v|>, Ok tt) /\ turn v = None /\
    lastPlaybackOutcome v = Some out /\
    po_PlaybackCompleted out = negb (client_cleared wait g) /\ po_ResponseInterrupted out = client_cleared wait g.
Proof.
  intros Ht Ha Hti.
  assert (Hcomp : forall source, exists v out, on_voice (CompletePlaybackWithSource source) g = (g <|gw_voice := v|>, Ok tt) /\ turn v = None /\
    lastPlaybackOutcome v = Some out /\ po_PlaybackCompleted out = true /\ po_ResponseInterrupted out = false).
  { intros source. exists (settle (completedTurn source t) (gw_voice g)). eexists. unfold on_voice, gw_update, CompletePlaybackWithSource.
    rewrite Ht. split; [by destruct g|]. split; [done|]. split; [reflexivity|]. unfold playbackOutcomeFromTurn.
    destruct (completed_fields source t) as (_ & _ & I & C). by cbn [po_PlaybackCompleted po_ResponseInterrupted]; rewrite I, C. }
  unfold complete_playback, client_cleared. destruct (PlaybackAckEnabled (gw_collaboration g)); cbn [andb negb]; [|apply Hcomp].
  destruct (waitForPlaybackAckTerminal (gw_ack g)) as [[terminal reason] ok].
  destruct wait, ok, terminal; cbn [negb]; try apply Hcomp.
  pose proof (interrupt_steps InterruptionPolicyHardInterrupt (firstNonEmpty [TrimSpace reason; txt "client_playback_cleared"]) t (gw_voice g) Ht Ha Hti) as Hv.
  unfold on_voice, gw_update.
  destruct (InterruptPlaybackWithPolicy _ _ (gw_voice g)) as [v r]. destruct Hv as (_ & _ & _ & _ & _ & _ & _ & t' & -> & _ & _ & _ & Hin & Hco).
  eexists _, _. split; [by destruct g|]. split; [done|]. split; [reflexivity|]. unfold playbackOutcomeFromTurn.
  cbn [po_PlaybackCompleted po_ResponseInterrupted]. by rewrite Hin, Hco.
Qed.

Lemma abs_after_active now s a :
  abs s = Some a -> abs (after_active now s) = Some (mkAlive InputStateActive OutputStateIdle (a_pending a) (a_turns a)).
Proof.
  intros H. destruct (abs_active _ _ H) as [Ha ->]. unfold abs, after_active, rederive, applyCompatState. read_fields.
  by rewrite Ha.
Qed.

Lemma abs_clear_preview now s a :
  session_inv s -> abs s = Some a ->
  abs (clearInputPreview_session now s) = Some (a <|a_input := clearing_input (a_input a)|>).
Proof.
  intros Hi H. destruct (abs_active _ _ H) as [Ha Ea]. unfold clearInputPreview_session. cbv zeta.
  rewrite (open_id s Hi Ha). cbn [negb andb]. change (Snap_InputState (Snapshot_ s)) with (Snap_InputState (current s)).
  assert (Ein : a_input a = Snap_InputState (current s)) by (by rewrite Ea).
  destruct (decide (Snap_InputState (current s) = InputStatePreviewing)) as [E|E].
  - rewrite bool_decide_eq_true_2 by done. destruct (set_input_abs now InputStateActive s a H) as (s' & sn & -> & E').
    cbn [fst]. by rewrite E', Ein, E.
  - rewrite bool_decide_eq_false_2 by done. rewrite H. f_equal. rewrite Ein. destruct a as [i o p n]. cbn in Ein. subst i.
    by destruct (Snap_InputState (current s)).
Qed.

(** The resolution of the end of a playback over the whole runtime, and the state
    the session goes to. *)
Definition after_playback (a : alive) (staged : bytes) : alive :=
  let previewing := bool_decide (a_input a = InputStatePreviewing) in
  mkAlive (if previewing then InputStatePreviewing else InputStateActive) OutputStateIdle (a_pending a ++ staged) (a_turns a).

Lemma resolve_ok (g : runtime) a :
  session_inv (gw_session g) -> abs (gw_session g) = Some a -> Forall (fun p => p <> []) (pending_chunks (pendingBargeIn (gw_barge g))) ->
  let staged := concat (pending_chunks (pendingBargeIn (gw_barge g))) in
  exists g' sn, ((exists g0 sn0, resolvePostPlayback clock g = (g0, Ok (sn0, false)) /\ return_active clock g0 = (g', Ok sn)) \/
                 resolvePostPlayback clock g = (g', Ok (sn, true))) /\
    sn = Snapshot_ (gw_session g') /\ abs (gw_session g') = Some (after_playback a staged) /\
    pending_chunks (pendingBargeIn (gw_barge g')) = [] /\
    turn (gw_voice g') = turn (gw_voice g) /\ lastPlaybackOutcome (gw_voice g') = lastPlaybackOutcome (gw_voice g) /\
    gw_output g' = gw_output g /\ gw_ack g' = gw_ack g.
Proof.
  intros Hi Ha Hne. cbv zeta. destruct (abs_active _ _ Ha) as [Hact Ea].
  destruct g as [[s q] v tr pv co ak ou n dl ev rd nm]. cbn [gw_session gw_barge rt_session] in *. unfold gw_session in *.
  cbn [gw_barge rt_session pendingBargeIn] in *. pose proof (has_pending_bytes s q Hne) as Hp.
  unfold resolvePostPlayback. cbn [gw_session gw_barge rt_session]. cbv zeta. unfold gw_session. cbn [gw_barge rt_session].
  rewrite (open_id s Hi Hact), Hp. cbn [negb andb]. change (Snap_InputState (Snapshot_ s)) with (Snap_InputState (current s)).
  assert (Ein : a_input a = Snap_InputState (current s)) by (by rewrite Ea). rewrite <- Ein.
  destruct (bool_decide (a_input a = InputStatePreviewing) || negb (len (concat (pending_chunks q)) =? 0)) eqn:Ek.
  - destruct (resolve_kept (clock rd) s a q Hi Ha Hne Ek) as (r' & sn & b & E & P1 & _ & _ & B1 & B2 & B3 & B4 & B5).
    assert (negb (bool_decide (a_input a = InputStatePreviewing)) && negb (negb (len (concat (pending_chunks q)) =? 0)) = false) as ->
      by (by destruct (bool_decide _), (len _ =? 0)).
    eexists _, sn. split; [right; unfold gw_bind, gw_now; cbn; rewrite E; reflexivity|]. cbn [gw_session gw_barge gw_voice gw_output gw_ack].
    apply resolve_snapshot in E as Es; [|exact Hi]. split; [exact Es|]. read_fields. rewrite B1.
    split; [|by repeat split]. unfold after_playback. cbv zeta. destruct b as [bi bo bp bt]. cbn in B2, B3, B4, B5. by subst.
  - apply orb_false_iff in Ek as [E1 E2]. rewrite E1, E2. cbn [negb andb].
    set (g0 := preview_cleared (mkGateway (resetPendingBargeInAudio (mkRuntime s q)) v tr pv co ak ou n dl ev rd nm)).
    assert (Hs0 : abs (gw_session g0) = Some (a <|a_input := clearing_input (a_input a)|>)) by (by apply abs_clear_preview).
    destruct (abs_active _ _ Hs0) as [Hact0 _]. pose proof (return_active_ok g0 Hact0) as Hr. cbv zeta in Hr.
    eexists _, _. split; [left; exists g0, zero_Snapshot; split; [reflexivity|exact Hr]|].
    split; [done|]. split; [|by repeat split].
    change (rt_session (gw_barge (set_session ?x ?y))) with x. rewrite (abs_after_active (time_of g0) _ _ Hs0). unfold after_playback. cbv zeta.
    rewrite E1. read_fields. apply negb_false_iff in E2. rewrite len_zero in E2.
    destruct (concat (pending_chunks q)); [by rewrite app_nil_r|done].
Qed.
Lemma ended_ok (id : Z) (g : runtime) o :
  gw_output g = Some o -> os_id o = id ->
  exists g', playback_ended id g = (g', Ok tt) /\ gw_session g' = gw_session g /\ gw_barge g' = gw_barge g /\
    gw_voice g' = gw_voice g /\ gw_output g' = None /\ gw_ack g' = clearPlaybackAckState (gw_ack g) /\
    gw_traces g' = gw_traces g /\ gw_deadline g' = gw_deadline g /\ gw_events g' = gw_events g.
Proof.
  destruct g as [b v tr pv co ak ou n dl ev rd nm]. cbn. intros -> <-. eexists.
  unfold playback_ended, clearAck, clearOutput, gw_bind, gw_update. cbn. rewrite Z.eqb_refl. by repeat split.
Qed.

(** C16. When the last frame has been played the turn is over and nothing of the
    user is lost. On a session that speaks, with the playback of a turn that does
    not end the session: the voice session settles the turn, as interrupted if the
    client reported that it cleared its buffer and else as completed; the output
    and its acks are dropped; the session is active with an idle output, previewing
    if it was, and every byte staged meanwhile follows the audio of the open turn;
    the turn's trace is closed, the client is told exactly that session, and the
    read deadline is the one of that session. *)
Theorem playback_ends_the_turn (g : runtime) a t o wait outcome :
  session_inv (gw_session g) -> abs (gw_session g) = Some a -> Snap_State (Snapshot_ (gw_session g)) = StateSpeaking ->
  Forall (fun p => p <> []) (pending_chunks (pendingBargeIn (gw_barge g))) ->
  gw_output g = Some o -> turn (gw_voice g) = Some t -> playbackActive t = true -> turn_inv t ->
  oc_EndSession outcome = false ->
  ends (playback_finished clock profile (SessionID (Snapshot_ (gw_session g))) (os_id o) (ExitPlayedOut wait (Some outcome))) g
    (fun g' r => r = Ok tt /\
      abs (gw_session g') = Some (after_playback a (concat (pending_chunks (pendingBargeIn (gw_barge g))))) /\
      pending_chunks (pendingBargeIn (gw_barge g')) = [] /\
      turn (gw_voice g') = None /\
      (exists out, lastPlaybackOutcome (gw_voice g') = Some out /\
         po_PlaybackCompleted out = negb (client_cleared wait g) /\ po_ResponseInterrupted out = client_cleared wait g) /\
      gw_output g' = None /\ gw_ack g' = clearPlaybackAckState (gw_ack g) /\
      trace_current (gw_traces g') = zero_turnTrace /\ told g' /\ timed g').
Proof.
  intros Hi Hab Hsp Hne Ho Ht Ha Hti Hoc. unfold playback_finished, ends.
  destruct (complete_playback_ok wait g t Ht Ha Hti) as (v & out & Ec & Hv & Hl & Hp1 & Hp2).
  set (g1 := g <|gw_voice := v|>) in *.
  assert (F : gw_session g1 = gw_session g /\ gw_barge g1 = gw_barge g /\ gw_voice g1 = v /\ gw_output g1 = gw_output g /\ gw_ack g1 = gw_ack g)
    by (subst g1; unfold gw_session; by read_fields).
  destruct F as (F1 & F2 & F3 & F4 & F5). clearbody g1. rewrite <- F1 in Hi, Hab. rewrite <- F2 in Hne.
  destruct (resolve_ok g1 a Hi Hab Hne) as (g2 & sn & Hres & Hsn & Ha2 & Hp & Hv2 & Hl2 & Ho2 & Hk2).
  assert (Ed : forall r m, completeTurnReturnOrClose clock profile false r m
      (mkCompletionHooks (Some (resolvePostPlayback clock)) (Some write_active) None) g1 = (turn_done sn g2, Ok tt)).
  { intros r m. apply done_ok. destruct Hres as [(g0 & sn0 & E1 & E2)|E]; [right; by exists g0, sn0|left; by exists sn]. }
  destruct (turn_done_fields sn g2) as (T1 & T2 & T3 & T4 & T5 & _ & T7 & T8). destruct (T8 Hsn) as [T9 T10].
  set (g3 := turn_done sn g2) in *. clearbody g3.
  assert (Et : playback_tail clock profile (SessionID (Snapshot_ (gw_session g))) (ExitPlayedOut wait (Some outcome)) g = (g3, Ok tt)).
  { unfold playback_tail, playing_session. rewrite text_eqb_refl, Hsp, bool_decide_eq_true_2 by done. cbn [negb andb].
    rewrite (bind_ok _ _ _ _ _ Ec), Hoc, Ed. done. }
  rewrite (bind_ok _ _ _ _ _ Et).
  destruct (ended_ok (os_id o) g3 o ltac:(by rewrite T5, Ho2, F4) eq_refl) as (g4 & E4 & L1 & L2 & L3 & L4 & L5 & L6 & L7 & L8).
  rewrite E4. cbn [fst snd]. clear Et Ec Ed E4. unfold told, timed in *. rewrite L1, L2, L3, L4, L5, L6, L7, L8, T1, T2, T3, T4.
  rewrite T1 in T9, T10. rewrite F2 in Ha2. rewrite Hv2, Hl2, F3, Hk2, F5. split; [done|]. split; [done|]. split; [done|].
  split; [done|]. split; [by exists out|]. by repeat (split; [done|]).
Qed.
(** ** The answer *)

Section Answer.

Context {B : Type} (static : list bytes -> B) (duration_of : B -> duration -> option duration).

Abbreviation response := (TurnResponse (turn_stream B)).

Lemma clear_turn_ok (g : runtime) (k : gw unit) :
  gw_bind (gw_now clock) (fun now => gw_bind (gw_update (fun g => set_session (ClearTurn now (gw_session g)) g)) (fun _ => k)) g
  = k (set_session (ClearTurn (time_of g) (gw_session g)) (read_once g)).
Proof. by destruct g. Qed.

Lemma clear_turn_fields now s :
  active (ClearTurn now s) = active s /\ SessionID (Snapshot_ (ClearTurn now s)) = SessionID (Snapshot_ s) /\
  Snap_InputState (Snapshot_ (ClearTurn now s)) = Snap_InputState (Snapshot_ s) /\ turnAudioChunks (ClearTurn now s) = [].
Proof. unfold ClearTurn, Snapshot_, cloneSnapshot. by read_fields. Qed.

(** What a started playback is to the voice session. *)
Definition playing_now (delivered : text) (t t' : orchestratedTurn) : Prop :=
  request t' = request t /\ deliveredText t' = TrimSpace delivered /\ playbackActive t' = true /\ playedDuration t' = 0 /\ heardText t' = [].

Lemma start_playback_fields delivered chunk planned facts t (v : SessionOrchestrator S P) :
  turn v = Some t -> exists t', turn (StartPlaybackWithOptions delivered chunk planned facts v) = Some t' /\ playing_now delivered t t'.
Proof. intros Ht. unfold StartPlaybackWithOptions. rewrite Ht. eexists. split; [reflexivity|]. unfold playing_now. by read_fields. Qed.

Lemma audio_started_fields responseID delivered planned completion (g : runtime) :
  exists g', gw_bind (gw_now clock) (fun now => startAudioStream (newAudioPlaybackMeta now responseID delivered planned) completion) g = (g', Ok tt) /\
    gw_session g' = gw_session g /\ gw_voice g' = gw_voice g /\ gw_events g' = gw_events g /\ gw_deadline g' = gw_deadline g /\
    (exists o, gw_output g' = Some o /\ os_id o = gw_outputs g + 1 /\ os_cancelled o = false /\ os_completion o = completion) /\
    meta_PlaybackID (ack_meta (gw_ack g')) <> [] /\ waitCh (gw_ack g') = ChanOpen.
Proof.
  destruct g as [b v tr pv co ak ou n dl ev rd nm]. eexists. split; [reflexivity|]. repeat (split; [done|]).
  split; [by eexists|]. by split.
Qed.

(** The hook that announces a speaking session. *)
Lemma announce_speaking_ok sessionID delivered planned turnID (g : runtime) t :
  turn (gw_voice g) = Some t ->
  exists v t', gw_bind (start_playback delivered planned) (fun _ => gw_bind (gw_get (fun g => Snapshot_ (gw_session g)))
      (fun speaking => WriteEvent (sessionUpdateFromSnapshot sessionID speaking turnID (txt "")))) g
    = (g <|gw_voice := v|> <|gw_events := gw_events g ++ [sessionUpdateFromSnapshot sessionID (Snapshot_ (gw_session g)) turnID (txt "")]|>, Ok tt) /\
    turn v = Some t' /\ playing_now delivered t t'.
Proof.
  intros Ht. destruct (start_playback_fields delivered outputFrameInterval planned (PlaybackAckEnabled (gw_collaboration g)) t (gw_voice g) Ht)
    as (t' & Ht' & Hpl).
  exists (StartPlaybackWithOptions delivered outputFrameInterval planned (PlaybackAckEnabled (gw_collaboration g)) (gw_voice g)), t'.
  split; [|by split]. rewrite (bind_ok (start_playback _ _) _ _ _ _ eq_refl), (bind_ok (gw_get _) _ _ _ _ eq_refl), write_ok. by destruct g.
Qed.

(** An answer with audio starts to be spoken. On an open session whose turn
    the voice session holds, finalizing an answer that has audio drops the audio of
    the finished turn, makes the session speak, starts the playback of the delivered
    text, installs a new output with the outcome the answer asks for and the acks of
    its playback, and tells the client that the session speaks. *)
Theorem spoken_answer_starts sessionID trace responseID (r : response) delivered (g : runtime) t :
  active (gw_session g) = true -> sessionID = SessionID (Snapshot_ (gw_session g)) -> turn (gw_voice g) = Some t ->
  turnResponseHasAudio r && negb (rsp_AudioStreamTransferred r) = true ->
  ends (finalizeTurnResponse clock profile static duration_of sessionID trace responseID r delivered) g
    (fun g' res => res = Ok tt /\
      SessionID (Snapshot_ (gw_session g')) = sessionID /\ Snap_OutputState (Snapshot_ (gw_session g')) = OutputStateSpeaking /\
      turnAudioChunks (gw_session g') = [] /\
      (exists t', turn (gw_voice g') = Some t' /\ playing_now delivered t t') /\
      (exists o, gw_output g' = Some o /\ os_id o = gw_outputs g + 1 /\ os_cancelled o = false /\
         os_completion o = mkOutcomeFuture true (mkOutputOutcome (rsp_EndSession r) (rsp_EndReason r) (rsp_EndMessage r))) /\
      meta_PlaybackID (ack_meta (gw_ack g')) <> [] /\ waitCh (gw_ack g') = ChanOpen /\
      told g' /\ timed g').
Proof.
  intros Ha -> Ht Haud. apply andb_prop in Haud as [Haud Htr]. unfold turnResponseHasAudio in Haud.
  apply negb_true_iff in Htr. rewrite Htr, orb_false_r in Haud.
  assert (Hstream : exists st, audioStreamForTurnResponse static r = Some st).
  { unfold audioStreamForTurnResponse, has_own_audio in *. destruct (rsp_AudioStream r); [by eexists|].
    cbn in Haud. rewrite Haud. by eexists. }
  destruct Hstream as [st Hst]. unfold finalizeTurnResponse, finalizeTurnLifecycle, ends. rewrite clear_turn_ok, Hst.
  cbn [BeforeSpeaking StartAudioStream]. cbv beta.
  set (g1 := set_session (ClearTurn (time_of g) (gw_session g)) (read_once g)).
  destruct (clear_turn_fields (time_of g) (gw_session g)) as (C1 & C2 & C3 & C4).
  assert (F1 : gw_session g1 = ClearTurn (time_of g) (gw_session g) /\ gw_voice g1 = gw_voice g /\ gw_outputs g1 = gw_outputs g)
    by (subst g1; unfold set_session, read_once, gw_session; by read_fields).
  destruct F1 as (F1 & F2 & F3). rewrite <- F1 in C1, C2, C3, C4. clearbody g1.
  rewrite (bind_ok _ _ _ _ _ (output_ok OutputStateSpeaking g1 ltac:(by rewrite C1))).
  destruct (after_output_fields (time_of g1) OutputStateSpeaking (gw_session g1)) as (A1 & A2 & A3 & A4 & A5 & A6).
  set (s2 := after_output _ _ _) in *. set (g2 := set_session s2 (read_once g1)).
  rewrite (bind_ok _ _ _ _ _ (trace_ok MarkSpeaking g2)), (bind_ok _ _ _ _ _ (deadline_ok _ _)).
  fold (marked MarkSpeaking g2). set (trace' := (MarkSpeaking _ _).2). clearbody trace'.
  set (g3 := (marked MarkSpeaking g2) <|gw_deadline := readDeadlineForSnapshot (Snapshot_ s2) profile|>).
  assert (F4 : gw_session g3 = s2 /\ gw_voice g3 = gw_voice g /\ gw_outputs g3 = gw_outputs g /\ gw_deadline g3 = readDeadlineForSnapshot (Snapshot_ s2) profile)
    by (subst g3 g2; unfold marked, set_session, read_once, gw_session; read_fields; by rewrite F2, F3).
  destruct F4 as (F4 & F5 & F6 & F7). clearbody g3 s2. clear g2.
  set (planned_ := plannedPlaybackDurationForResponse duration_of r outputFrameInterval). clearbody planned_.
  destruct (announce_speaking_ok (SessionID (Snapshot_ (gw_session g))) delivered planned_ (tt_TurnID trace') g3 t ltac:(by rewrite F5))
    as (v & t' & E5 & Hv & Hpl).
  rewrite (bind_ok _ _ _ _ _ E5), F4.
  set (e := sessionUpdateFromSnapshot (SessionID (Snapshot_ (gw_session g))) (Snapshot_ s2) (tt_TurnID trace') (txt "")).
  set (g4 := g3 <|gw_voice := v|> <|gw_events := _|>).
  assert (G : gw_session g4 = s2 /\ gw_voice g4 = v /\ gw_outputs g4 = gw_outputs g /\ gw_deadline g4 = readDeadlineForSnapshot (Snapshot_ s2) profile /\
    gw_events g4 = gw_events g3 ++ [e]) by (subst g4 e; unfold gw_session; read_fields; by rewrite <- F4, F6, F7, F4).
  destruct G as (G1 & G2 & G3 & G4 & G5). clearbody g4.
  destruct (audio_started_fields responseID delivered planned_
    (resolvedTurnOutputOutcome (mkOutputOutcome (rsp_EndSession r) (rsp_EndReason r) (rsp_EndMessage r))) g4)
    as (g5 & E6 & H1 & H2 & H3 & H4 & (o & Ho & O1 & O2 & O3) & H6 & H7).
  rewrite E6. cbn [fst snd]. unfold told, timed. rewrite H1, H2, H3, H4, G1, G2, G4, G5, A2, C2, A4, A5, C4. split; [done|].
  split; [done|]. split; [done|]. split; [done|]. split; [by exists t'|].
  split; [exists o; rewrite O1, G3; repeat (split; [done|]); by rewrite O3|].
  split; [done|]. split; [done|]. split; [|done]. exists (tt_TurnID trace'). by rewrite last_snoc.
Qed.
End Answer.
End Interruption.

(** ** Runs that happen *)

(** A stream of the flow is wrapped, and the wrapper does not hand the planned
    duration on: what is told to the voice session and to the client is zero. *)
Lemma streamed_answer_has_no_planned_duration {B} (duration_of : B -> duration -> option duration) a chunk :
  plannedPlaybackDurationForAudioStream duration_of (Some (CancelOnClose a)) chunk = 0.
Proof. unfold plannedPlaybackDurationForAudioStream. by destruct (chunk <=? 0). Qed.

(** A goroutine that ends late finds a newer output: it leaves the output alone
    and takes its acks. *)
Lemma late_end_takes_the_new_acks {S P} (id : Z) (g : gateway S P) o :
  gw_output g = Some o -> os_id o <> id ->
  exists g', playback_ended id g = (g', Ok tt) /\ gw_output g' = Some o /\ gw_ack g' = clearPlaybackAckState (gw_ack g).
Proof.
  intros Ho Hid. destruct g as [b v tr pv co ak ou n dl ev rd nm]. cbn in Ho. subst ou.
  eexists. unfold playback_ended, clearAck, clearOutput, gw_bind, gw_update. cbn.
  assert ((os_id o =? id) = false) as -> by lia. by split.
Qed.

#[local] Existing Instance demo_session.

#[local] Instance open_connection : Connection := { write_error _ := None; deadline_error _ _ := None }.
#[local] Instance open_reliable : Reliable.
Proof. done. Qed.

Definition demo_output : outputStream :=
  mkOutput 1 false (resolvedTurnOutputOutcome (mkOutputOutcome false "" "")) zero_effect.

(** A session that speaks the orchestrator's demo turn, one frame staged. *)
Definition demo_gateway : gateway InMemoryMemoryStore unit :=
  mkGateway (mkRuntime demo_speaking (mkPending [["007"]%byte] 1)) demo_orch zero_turnTraceState zero_previewTraceState
    (mkNegotiation false playbackAckModeSegmentMarkV1) (installPlaybackAckMeta demo_meta zero_ack_state) (Some demo_output) 1
    time_zero [] 0 None.

Definition demo_clock (n : nat) : instant := demo_now + Z.of_nat n.

Definition demo_inv : session_inv demo_speaking := reachable_inv _ demo_speaking_reachable.

Lemma interruption_stops_the_turn_witness :
  Snap_State (Snapshot_ (gw_session demo_gateway)) = StateSpeaking /\
  ends (interruptSpeakingFlow demo_clock demo_profile (Some (gw_ret tt)) None (Some write_active)) demo_gateway
    (fun g' r => r = Ok tt /\ gw_output g' = None /\ turn (gw_voice g') = None /\ pendingBargeIn (gw_barge g') = zero_pending).
Proof.
  split; [by vm_compute|]. eapply ends_weaken.
  - apply (interruption_stops_the_turn demo_clock demo_profile demo_gateway (mkInterruptOptions true true ByDefault) demo_output demo_turn true).
    + exact demo_inv.
    + by vm_compute.
    + done.
    + exact demo_turn_followed.
    + done.
    + exact demo_turn_inv.
    + done.
  - intros g' r (H1 & _ & _ & _ & _ & _ & H2 & H3 & _ & H4 & _). by repeat split.
Defined.

Lemma session_end_leaves_nothing_witness :
  active (gw_session demo_gateway) = true /\
  ends (endSession demo_clock demo_profile CloseReasonClientStop "bye") demo_gateway
    (fun g' r => r = Ok tt /\ gw_session g' = NewRealtimeSession /\ pendingBargeIn (gw_barge g') = mkPending [["007"]%byte] 1).
Proof.
  split; [by vm_compute|]. eapply ends_weaken.
  - apply (session_end_leaves_nothing demo_clock demo_profile CloseReasonClientStop "bye" demo_gateway); [exact demo_inv|by vm_compute].
  - intros g' r (H1 & H2 & _ & _ & _ & _ & _ & _ & _ & H3). by repeat split.
Defined.

Lemma playback_ends_the_turn_witness :
  ends (playback_finished demo_clock demo_profile (SessionID (Snapshot_ (gw_session demo_gateway))) 1
          (ExitPlayedOut AckTimeout (Some zero_outcome))) demo_gateway
    (fun g' r => r = Ok tt /\ turn (gw_voice g') = None /\ gw_output g' = None /\
       abs (gw_session g') = Some (mkAlive InputStateActive OutputStateIdle ["007"]%byte 1)).
Proof.
  eapply ends_weaken.
  - apply (playback_ends_the_turn demo_clock demo_profile demo_gateway (mkAlive InputStateCommitted OutputStateSpeaking [] 1)
      demo_turn demo_output AckTimeout zero_outcome).
    + exact demo_inv.
    + by vm_compute.
    + by vm_compute.
    + by repeat constructor.
    + done.
    + exact demo_turn_followed.
    + done.
    + exact demo_turn_inv.
    + done.
  - intros g' r (H1 & H2 & _ & H3 & _ & H4 & _). by repeat split.
Defined.

Lemma spoken_answer_starts_witness :
  ends (finalizeTurnResponse demo_clock demo_profile (fun _ => tt) (fun _ _ => None) (SessionID (Snapshot_ (gw_session demo_gateway)))
          zero_turnTrace "resp_2" (mkTurnResponse "hi" "Hello." [] [["001"]%byte] None false false "" "") "Hello.") demo_gateway
    (fun g' r => r = Ok tt /\ Snap_OutputState (Snapshot_ (gw_session g')) = OutputStateSpeaking /\
       exists o, gw_output g' = Some o /\ os_id o = 2).
Proof.
  eapply ends_weaken.
  - apply (spoken_answer_starts demo_clock demo_profile (fun _ => tt) (fun _ _ => None) _ _ _ _ _ _ demo_turn);
      [by vm_compute|done|exact demo_turn_followed|done].
  - intros g' r (H1 & _ & H2 & _ & _ & (o & H3 & H4 & _) & _). split; [done|]. split; [done|]. by exists o.
Defined.

(** The cancelled wait is taken for a played-out answer: the user's barge-in, which
    waits for the goroutine, finds the turn completed. *)
Lemma barge_in_during_the_ack_wait_is_a_completion :
  let last_words := playback_tail demo_clock demo_profile (SessionID (Snapshot_ (gw_session demo_gateway))) (ExitPlayedOut AckCancelled None) in
  let '(g', _) := interruptSpeakingFlow demo_clock demo_profile (Some last_words) None (Some write_active) demo_gateway in
  match lastPlaybackOutcome (gw_voice g') with
  | Some out => po_PlaybackCompleted out = true /\ po_ResponseInterrupted out = false /\ po_HeardText out = Orchestrator.demo_answer
  | None => False
  end.
Proof. vm_compute. repeat split. Qed.

(** What was staged in one session is heard in the next one on the same connection:
    its first spoken answer ends, and the frame is in the user's turn. *)
Lemma staged_audio_outlives_the_session :
  let start := on_session demo_clock (fun now => Start now start_request) in
  let speak := on_session demo_clock (fun now => SetOutputState now OutputStateSpeaking) in
  let '(g', _) := gw_bind (endSession demo_clock demo_profile CloseReasonClientStop "bye") (fun _ =>
    gw_bind start (fun _ => gw_bind speak (fun _ => resolvePostPlayback demo_clock))) demo_gateway in
  concat (turnAudioChunks (gw_session g')) = ["007"]%byte.
Proof. by vm_compute. Qed.

(** An interruption that drops the preview tells the client of the preview it dropped. *)
Lemma dropped_preview_is_still_told :
  let g := set_session (SetInputState demo_now InputStatePreviewing demo_speaking).1 demo_gateway in
  let '(g', _) := interruptSpeakingFlow demo_clock demo_profile (Some (gw_ret tt)) None (Some write_active) g in
  Snap_InputState (Snapshot_ (gw_session g')) = InputStateActive /\
  match last (gw_events g') with
  | Some (SessionUpdateEvent _ _ input _ _ _) => input = InputStatePreviewing
  | _ => False
  end.
Proof. vm_compute. by split. Qed.
