(* ===== verification/InputFlow.v ===== *)
(** * The preview of what the user says, on a connection
      (internal/gateway/turn_input_preview.go, previewForBargeIn of
      barge_in_runtime.go, emitPreviewObservationEvents of voice_collaboration.go,
      EnsureInputPreview and FinalizeInputPreview of voice/session_orchestrator.go)

    Every frame the client sends is pushed into the preview of the voice session;
    what the preview says is traced, moves the session to previewing, and reaches
    the client as events when it asked for them.  The side of the responder that
    previews is an interface, [Previewer].  Contexts and log lines are left out. *)

From S2P Require Import Prelude GoText GoFloat Contracts Lexical BargeIn Playback Memory Session Orchestrator PlaybackAck BargeInRuntime.
From S2P Require Import Rollout TurnTrace GatewayProfile OutputEffects TurnFlow OutputFlow.

(** [InputPreviewer] and [FinalizingInputPreviewSession]: each may be missing. *)
Class Previewer (P : Type) := {
  preview_start : option (InputPreviewRequest -> result text P);
  preview_finish : P -> option (P * result text TranscriptionResult);
  preview_close : P -> option text
}.

(** The observation of the gateway: the voice session's, with what it changed in
    the trace. *)
Record inputPreviewObservation := mkInputObservation {
  io_Preview : InputPreview;
  io_Active : bool;
  io_PartialChanged : bool;
  io_SpeechStartedObserved : bool;
  io_CandidateReadyObserved : bool;
  io_DraftReadyObserved : bool;
  io_AcceptReadyObserved : bool;
  io_SemanticReadyObserved : bool;
  io_SlotReadyObserved : bool;
  io_EndpointCandidateObserved : bool;
  io_CommitSuggested : bool;
  io_Trace : inputPreviewTrace
}.

#[export] Instance inputPreviewObservation_rebuild : Rebuild inputPreviewObservation := fun o =>
  mkInputObservation (io_Preview o) (io_Active o) (io_PartialChanged o) (io_SpeechStartedObserved o)
    (io_CandidateReadyObserved o) (io_DraftReadyObserved o) (io_AcceptReadyObserved o) (io_SemanticReadyObserved o)
    (io_SlotReadyObserved o) (io_EndpointCandidateObserved o) (io_CommitSuggested o) (io_Trace o).

Definition zero_inputObservation : inputPreviewObservation :=
  mkInputObservation zero_InputPreview false false false false false false false false false false zero_previewTrace.

(** An observation and what the trace made of it. *)
Definition observation_of (o : InputPreviewObservation) (t : inputPreviewTrace) (u : inputPreviewTraceUpdate)
    : inputPreviewObservation :=
  {| io_Preview := ob_Preview o; io_Active := ob_Active o; io_PartialChanged := ob_PartialChanged o;
     io_SpeechStartedObserved := SpeechStartedObserved u; io_CandidateReadyObserved := CandidateReadyObserved u;
     io_DraftReadyObserved := DraftReadyObserved u; io_AcceptReadyObserved := AcceptReadyObserved u;
     io_SemanticReadyObserved := SemanticReadyObserved u; io_SlotReadyObserved := SlotReadyObserved u;
     io_EndpointCandidateObserved := EndpointCandidateObserved u; io_CommitSuggested := ob_CommitSuggested o; io_Trace := t |}.

(** ** What the client is told of a preview *)

Definition previewAudioOffsetMs (audioBytes sampleRate channels : Z) : Z :=
  if (audioBytes <=? 0) || (sampleRate <=? 0) || (channels <=? 0) then 0
  else
    let bytesPerMillisecond := f_div (f_of_Z (i64 (i64 (sampleRate * channels) * 2))) (f_of_Z 1000) in
    if f_leb bytesPerMillisecond f_zero then 0 else f_trunc_int (f_div (f_of_Z audioBytes) bytesPerMillisecond).

Definition previewTextStability (s stablePrefix : text) : option float64 :=
  let textRunes := TrimSpace s in
  if len textRunes =? 0 then None
  else
    let stableRunes := TrimSpace stablePrefix in
    let value := f_div (f_of_Z (len stableRunes)) (f_of_Z (len textRunes)) in
    let value := if f_ltb value f_zero then f_zero else value in
    Some (if f_ltb f_one value then f_one else value).

Section Preview.

Context {S P : Type} `{!MemoryStore S} `{!PreviewSession P} {PV : Previewer P} {CN : Connection} (clock : nat -> instant).

Abbreviation runtime := (gateway S P).

#[local] Notation "'let*' x ':=' m 'in' k" := (gw_bind m (fun x => k))
  (at level 10, x name, m at level 100, k at level 200).
#[local] Notation "m ;; k" := (gw_bind m (fun _ => k)) (at level 100, right associativity).

(** The events of an observation, in the order they are written. *)
Definition preview_events (previewID sessionID : text) (audioOffsetMs : Z) (o : inputPreviewObservation) : list server_event :=
  (if io_SpeechStartedObserved o then [SpeechStartEvent sessionID previewID audioOffsetMs] else []) ++
  (if io_PartialChanged o then
     let s := TrimSpace (PartialText (io_Preview o)) in
     let stablePrefix := TrimSpace (StablePrefix (io_Preview o)) in
     let stablePrefix := if stablePrefix == "" then s else stablePrefix in
     [PreviewEvent sessionID previewID s stablePrefix (previewTextStability s stablePrefix) audioOffsetMs]
   else []) ++
  (if io_EndpointCandidateObserved o then
     [EndpointEvent sessionID previewID
        (firstNonEmptyValue [TrimSpace (EndpointReason (io_Preview o)); txt "server_endpoint_candidate"]) audioOffsetMs]
   else []).

Fixpoint write_all (es : list server_event) : gw (S := S) (P := P) unit :=
  match es with
  | [] => gw_ret tt
  | e :: es => WriteEvent e ;; write_all es
  end.

Definition emitPreviewObservationEvents (snapshot : Snapshot) (o : inputPreviewObservation) : gw unit := fun (g : runtime) =>
  if negb (cn_PreviewEvents (gw_collaboration g)) then (g, Ok tt)
  else
    let previewID := TrimSpace (PreviewID (io_Trace o)) in
    if previewID == "" then (g, Ok tt)
    else
      let audioOffsetMs := previewAudioOffsetMs (Preview_AudioBytes (io_Preview o)) (InputSampleRate snapshot) (InputChannels snapshot) in
      write_all (preview_events previewID (SessionID snapshot) audioOffsetMs o) g.

(** ** The preview of the voice session *)

(** [EnsureInputPreview] as a whole: a preview is started unless there is one. *)
Definition start_input_preview (req : InputPreviewRequest) (v : SessionOrchestrator S P) : SessionOrchestrator S P * option text :=
  match preview v, preview_start with
  | Some _, _ | _, None => (v, None)
  | None, Some start =>
      match start req with
      | Err e => (v, Some e)
      | Ok s => (EnsureInputPreview s v, None)
      end
  end.

(** What the preview ends with, whether it was asked, the error. *)
Definition FinalizeInputPreview (v : SessionOrchestrator S P) : SessionOrchestrator S P * (TranscriptionResult * bool * option text) :=
  let dropped := ClearInputPreview v in
  match preview v with
  | None => (dropped, (zero_TranscriptionResult, false, None))
  | Some p =>
      match preview_finish (tp_session p) with
      | None => (dropped, (zero_TranscriptionResult, false, None))
      | Some (s, Err e) => (dropped, (zero_TranscriptionResult, true, Some e))
      | Some (s, Ok r) => (dropped, (r, true, preview_close s))
      end
  end.

(** A computation whose error the caller handles. *)
Definition gw_try {A} (m : gw A) : gw (result text A) := fun (g : runtime) => let '(g, r) := m g in (g, Ok r).

Definition ensureInputPreview (snapshot : Snapshot) (language : text) : gw unit := fun (g : runtime) =>
  let '(v, e) := start_input_preview
    (mkPreviewRequest (SessionID snapshot) (DeviceID snapshot) (ClientType snapshot) (InputCodec snapshot)
       (InputSampleRate snapshot) (InputChannels snapshot) language) (gw_voice g) in
  (g <|gw_voice := v|>, match e with Some e => Err e | None => Ok tt end).

(** The error of [SetInputState] is dropped. *)
Definition set_previewing : gw (S := S) (P := P) unit :=
  gw_try (on_session clock (fun now => SetInputState now InputStatePreviewing)) ;; gw_ret tt.

Definition observe_preview (now : instant) (sessionID : text) (o : InputPreviewObservation) : gw inputPreviewObservation :=
  gw_when (ob_Active o) set_previewing ;;
  fun (g : runtime) =>
    let '(previews, (t, u)) := ObservePreview sessionID (ob_Preview o) now (gw_previews g) in
    (g <|gw_previews := previews|>, Ok (observation_of o t u)).

Fixpoint observe_each (sessionID : text) (os : list InputPreviewObservation) : gw (S := S) (P := P) (list inputPreviewObservation) :=
  match os with
  | [] => gw_ret []
  | o :: os =>
      let* now := gw_now clock in
      let* x := observe_preview now sessionID o in
      let* xs := observe_each sessionID os in
      gw_ret (x :: xs)
  end.

Definition pushInputPreviewAudio (payload : list byte) : gw (S := S) (P := P) (list inputPreviewObservation) :=
  let* sessionID := gw_get (fun g => SessionID (Snapshot_ (gw_session g))) in
  let* now := gw_now clock in
  gw_update (fun g => g <|gw_previews := (ObserveAudio sessionID (len payload) now (gw_previews g)).1|>) ;;
  let* now := gw_now clock in
  fun (g : runtime) =>
    let '(v, emitted, final) := PushInputPreviewAudioProgressively now payload (gw_voice g) in
    (let* observations := observe_each sessionID emitted in
     match final with
     | Err e => gw_fail e
     | Ok o => if (len observations =? 0) && ob_Active o then observe_each sessionID [o] else gw_ret observations
     end) (g <|gw_voice := v|>).

Definition pollInputPreview (now : instant) : gw inputPreviewObservation := fun (g : runtime) =>
  let '(v, o) := PollInputPreview now (gw_voice g) in
  let sessionID := SessionID (Snapshot_ (gw_session g)) in
  observe_preview now sessionID o (g <|gw_voice := v|>).

Definition consumeInputPreview : gw (inputPreviewTrace * (TranscriptionResult * bool * option text)) := fun (g : runtime) =>
  let '(previews, trace) := PreviewClear (gw_previews g) in
  let '(v, finished) := FinalizeInputPreview (gw_voice g) in
  (let* now := gw_now clock in
   gw_update (fun g => OutputFlow.set_session (clearInputPreview_session now (gw_session g)) g) ;;
   gw_ret (trace, finished)) (g <|gw_previews := previews|> <|gw_voice := v|>).

(** What the staged audio says while the server speaks. *)
Definition previewForBargeIn (snapshot : Snapshot) (payload : list byte) : gw (S := S) (P := P) inputPreviewObservation :=
  let* pushed := gw_try (ensureInputPreview snapshot "" ;; pushInputPreviewAudio payload) in
  let observation :=
    match pushed with Ok observations => default zero_inputObservation (last observations) | Err _ => zero_inputObservation end in
  fun (g : runtime) =>
    let preview := pendingBargeInPreview (io_Preview observation) (gw_barge g) in
    (let* now := gw_now clock in
     fun g =>
       let '(previews, (trace, _)) := ObservePreview (SessionID snapshot) preview now (gw_previews g) in
       (g <|gw_previews := previews|>, Ok (observation <|io_Preview := preview|> <|io_Trace := trace|>))) g.

End Preview.
