(* ===== verification/TurnRun.v ===== *)
(** * A turn is answered on a connection
      (emitTurnResponse, buildTurnRequest and emitResponseDelta of
      internal/gateway/realtime_ws.go)

    The request of an accepted turn is built, the responder runs in the flow of
    TurnFlow with the connection as its world, its callbacks write the events of the
    answer and start its early audio, and the end of the flow is handed to the
    output of OutputFlow.  The responder is a parameter: what it does on its three
    channels, in the order the select takes it.  Log lines are left out. *)

From S2P Require Import Prelude GoText Contracts BargeIn Memory Session Orchestrator PlaybackAck BargeInRuntime.
From S2P Require Import Audio InputAudio TurnTrace GatewayProfile OutputEffects TurnResponse TurnFlow OutputFlow.

(** ** The request *)

Section Request.

Context {S P : Type} `{!MemoryStore S} `{!PreviewSession P}.

Definition buildTurnRequest (turn : CommittedTurn) (g : gateway S P) (trace : turnTrace) (s : text)
    (previewTranscription : option TranscriptionResult) : TurnRequest :=
  let snapshot := ct_Snapshot turn in
  let '(codec, rate, channels) :=
    match gw_normalizer g with
    | Some n => (OutputCodec n, OutputSampleRate n, OutputChannels n)
    | None => (InputCodec snapshot, InputSampleRate snapshot, InputChannels snapshot)
    end in
  {| tr_SessionID := SessionID snapshot; tr_TurnID := tt_TurnID trace; tr_TraceID := tt_TraceID trace;
     tr_DeviceID := DeviceID snapshot; tr_ClientType := ClientType snapshot; tr_Text := s;
     tr_Metadata := LastPlaybackContextMetadata (gw_voice g); tr_PreviewTranscription := previewTranscription;
     tr_AudioPCM := ct_AudioPCM turn; tr_AudioBytes := AudioBytes snapshot; tr_InputFrames := InputFrames snapshot;
     tr_InputCodec := codec; tr_InputSampleRate := rate; tr_InputChannels := channels |}.

(** What the user is taken to have said before the answer says it. *)
Definition provisional_input (req : TurnRequest) : text :=
  let s := TrimSpace (tr_Text req) in
  if s == "" then match tr_PreviewTranscription req with Some r => TrimSpace (rec_Text r) | None => s end else s.

End Request.

(** ** The callbacks and the run *)

(** A handler that runs a turn returns, or waits on for a responder that is silent. *)
Inductive handler_end := Returned | Waiting.

(** A responder: whether it hints that it may stream, and what it does. *)
Record turn_responder (B W : Type) := mkTurnResponder {
  may_stream : bool;
  respond : TurnRequest -> responder_run (A := B) (W := W)
}.
Arguments mkTurnResponder {B W}.
Arguments may_stream {B W}.
Arguments respond {B W}.

Section Run.

Context {S P B : Type} `{!MemoryStore S} `{!PreviewSession P} {CN : Connection} (clock : nat -> instant) (profile : RealtimeProfile).
Context (static : list bytes -> B) (duration_of : B -> duration -> option duration).

Abbreviation runtime := (gateway S P).

#[local] Notation "m ;; k" := (gw_bind m (fun _ => k)) (at level 100, right associativity).

(** The connection as the world of a flow. *)
#[local] Instance gateway_world : TurnWorld runtime := {
  read_clock g := (g <|gw_reads := Datatypes.S (gw_reads g)|>, clock (gw_reads g));
  world_traces := gw_traces;
  with_traces traces g := g <|gw_traces := traces|>
}.

(** The payload of a chunk names the kind of its delta. *)
Definition chunk_delta (d : ResponseDelta) : ResponseDelta :=
  match rd_Kind d with
  | ResponseDeltaKindOther s =>
      if s == "" then mkResponseDelta ResponseDeltaKindText (rd_Text d) (rd_ToolCallID d) (rd_ToolName d) (rd_ToolStatus d)
                        (rd_ToolInput d) (rd_ToolOutput d)
      else d
  | _ => d
  end.

(** [OnTextDeltaCollected]: an answer being spoken grows. *)
Definition follow_text (aggregatedText : text) (g : runtime) : runtime :=
  if TrimSpace aggregatedText == "" then g
  else if bool_decide (Snap_OutputState (Snapshot_ (gw_session g)) = OutputStateSpeaking)
  then g <|gw_voice := UpdatePlayback aggregatedText 0 (gw_voice g)|>
  else g.

(** What each callback does; the completion of early audio resolves with the flow. *)
Definition serve_call (sessionID : text) (fx : flow_effect (A := B)) : gw unit :=
  match fx with
  | CallResponseStart trace responseID modalities _ =>
      WriteEvent (ResponseStartEvent sessionID responseID modalities (tt_TurnID trace) (tt_TraceID trace))
  | CallResponseDelta responseID d => WriteEvent (ResponseChunkEvent sessionID responseID (chunk_delta d))
  | CallTextCollected _ aggregatedText => gw_update (follow_text aggregatedText)
  | CallStartAudio _ responseID start aggregatedText =>
      start_early_audio clock profile duration_of sessionID responseID aggregatedText start newTurnOutputOutcomeFuture
  end.

Definition as_callback (sessionID : text) : callback (A := B) (W := runtime) := fun fx g =>
  match serve_call sessionID fx g with (g, Ok _) => (g, None) | (g, Err e) => (g, Some e) end.

Definition turn_options (sessionID : text) (mayStream : bool) : turnExecutionOptions (A := B) (W := runtime) :=
  let cb := Some (as_callback sessionID) in
  mkExecutionOptions sessionID "" cb cb (Some (fun _ => follow_text)) cb mayStream.

(** What becomes of an answer the flow ended with. *)
Definition deliver_response (req : TurnRequest) (turn : CommittedTurn) (s : text)
    (result : turnExecutionResult (A := B)) : gw (S := S) (P := P) unit :=
  let response := er_Response result in
  let input := TrimSpace (rsp_InputText response) in
  let input := if input == "" then TrimSpace s else input in
  let delivered := TrimSpace (er_AggregatedText result) in
  let delivered := if delivered == "" then TrimSpace (rsp_Text response) else delivered in
  on_voice (PrepareTurn req input (TrimSpace (rsp_Text response))) ;;
  if rsp_AudioStreamTransferred response then on_voice (UpdatePlayback delivered 0)
  else finalizeTurnResponse clock profile static duration_of (SessionID (ct_Snapshot turn)) (er_Trace result)
         (er_ResponseID result) response delivered.

(** [ended]: how the playback goroutine of early audio ends when the turn fails. *)
Definition emitTurnResponse (r : turn_responder B runtime) (ended : option (gw unit)) (turn : CommittedTurn)
    (trace : turnTrace) (s : text) (previewTranscription : option TranscriptionResult) : gw handler_end := fun g =>
  let req := buildTurnRequest turn g trace s previewTranscription in
  let sessionID := SessionID (ct_Snapshot turn) in
  let g := g <|gw_voice := PrepareTurn req (provisional_input req) "" (gw_voice g)|> in
  match executeTurnResponse (turn_options sessionID (may_stream r)) (respond r req) g trace with
  | (fl, None) => (fl_world fl, Ok Waiting)
  | (fl, Some (Err e)) =>
      (interruptOutput ended ;; terminateWithError clock profile "response_generation_failed" e ended ;; gw_ret Returned)
        (fl_world fl)
  | (fl, Some (Ok result)) => (deliver_response req turn s result ;; gw_ret Returned) (fl_world fl)
  end.

End Run.

(** ** A transport that takes every call while an invariant holds *)

Section Served.

Context {A W : Type} `{!TurnWorld W} (I : W -> list (flow_effect (A := A)) -> Prop) (opts : turnExecutionOptions (A := A) (W := W)) (id : text).

Abbreviation state := (flow_state (A := A) (W := W)).
Abbreviation effect := (flow_effect (A := A)).

(** A call that is about the response [id], where it names one. *)
Definition about (fx : effect) : Prop :=
  match fx with
  | CallResponseStart _ i _ _ | CallResponseDelta i _ | CallStartAudio _ i _ _ => i = id
  | CallTextCollected _ _ => True
  end.

(** [I] relates the world to the calls made so far: a callback keeps it and does
    not fail. *)
Definition taken (f : callback (A := A) (W := W)) : Prop :=
  forall fx w l, about fx -> I w l -> exists w', f fx w = (w', None) /\ I w' (l ++ [fx]).

Record served : Prop := {
  sd_clock : forall w l, I w l -> I (read_clock w).1 l;
  sd_traces : forall t w l, I w l -> I (with_traces t w) l;
  sd_start : exists f, xo_EmitResponseStart opts = Some f /\ taken f;
  sd_delta : exists f, xo_EmitResponseDelta opts = Some f /\ taken f;
  sd_audio : forall f, xo_StartResponseAudio opts = Some f -> taken f;
  sd_text : forall f, xo_OnTextDeltaCollected opts = Some f ->
    forall trace s w l, I w l -> I (f trace s w) (l ++ [CallTextCollected trace s])
}.

(** The same transport with its errors dropped: it serves any world. *)
Definition without_error (f : callback (A := A) (W := W)) : callback := fun fx w => ((f fx w).1, None).

Definition total_options : turnExecutionOptions (A := A) (W := W) :=
  mkExecutionOptions (xo_SessionID opts) (xo_ResponseID opts) (option_map without_error (xo_EmitResponseStart opts))
    (option_map without_error (xo_EmitResponseDelta opts)) (xo_OnTextDeltaCollected opts)
    (option_map without_error (xo_StartResponseAudio opts)) (xo_MayStream opts).

Definition holds (s : state) : Prop := I (fl_world s) (fl_effects s).

(** Two computations that are the same where [I] holds, and keep it. *)
Definition agree (m m' : flow (A := A) (W := W) unit) : Prop := forall s, holds s -> m s = m' s /\ holds (m s).1.

Lemma agree_bind m m' k k' : agree m m' -> agree k k' -> agree (flow_bind m (fun _ => k)) (flow_bind m' (fun _ => k')).
Proof.
  intros Hm Hk s Hs. unfold flow_bind. destruct (Hm s Hs) as [<- Hs1]. destruct (m s) as [s1 [x|e]]; [by apply Hk|by split].
Qed.

Lemma agree_modify f : (forall s, holds s -> holds (f s)) -> agree (modify f) (modify f).
Proof. intros Hf s Hs. split; [done|by apply Hf]. Qed.

Lemma agree_read (m m' : state -> flow (A := A) (W := W) unit) :
  (forall s0, agree (m s0) (m' s0)) -> agree (fun s => m s s) (fun s => m' s s).
Proof. intros H s Hs. by apply H. Qed.

Lemma agree_unless (c : state -> bool) m m' :
  agree m m' -> agree (fun s => if c s then (s, Ok tt) else m s) (fun s => if c s then (s, Ok tt) else m' s).
Proof. intros Hm s Hs. destruct (c s); [by split|by apply Hm]. Qed.

Lemma agree_ret x : agree (flow_ret x) (flow_ret x).
Proof. by intros s Hs. Qed.

Lemma agree_fail e : agree (fail_flow e) (fail_flow e).
Proof. intros s Hs. split; [done|]. unfold holds, fail_flow in *. by read_fields. Qed.

Lemma agree_call f fx : about fx -> taken f -> agree (call (Some f) fx) (call (Some (without_error f)) fx).
Proof.
  intros Ha Hf s Hs. unfold call, without_error. destruct (Hf fx _ _ Ha Hs) as (w' & E & Hw). rewrite E. cbn [fst].
  split; [done|]. unfold holds. by read_fields.
Qed.

Lemma agree_call_opt f fx : about fx -> (forall g, f = Some g -> taken g) -> agree (call f fx) (call (option_map without_error f) fx).
Proof. intros Ha Hf. destruct f as [f|]; [apply agree_call; [done|by apply Hf]|]. intros s Hs. by split. Qed.

Context (SV : served).

Lemma agree_start mods : agree (start_response opts id mods) (start_response total_options id mods).
Proof.
  destruct (sd_start SV) as (f & Ef & Hf). unfold start_response. apply agree_bind.
  - apply agree_modify. intros s Hs. unfold holds in *. pose proof (sd_clock SV _ _ Hs) as Hc.
    destruct (read_clock (fl_world s)) as [w now]. cbn [fst] in Hc. destruct (MarkResponseStart now (world_traces w)) as [traces trace].
    read_fields. by apply (sd_traces SV).
  - apply (agree_read (fun s => call _ (CallResponseStart (fl_trace s) id mods (fl_response s)))
                      (fun s => call _ (CallResponseStart (fl_trace s) id mods (fl_response s)))).
    intros s0. cbn [total_options xo_EmitResponseStart]. rewrite Ef. by apply agree_call.
Qed.

Lemma agree_once mods : agree (start_response_once opts id mods) (start_response_once total_options id mods).
Proof.
  unfold start_response_once. apply agree_unless, agree_bind; [apply agree_start|].
  apply agree_modify. intros s Hs. unfold holds in *. by read_fields.
Qed.

Lemma agree_delta d : agree (emitTurnResponseDelta opts id d) (emitTurnResponseDelta total_options id d).
Proof.
  destruct (sd_delta SV) as (f & Ef & Hf). unfold emitTurnResponseDelta. apply agree_bind.
  - apply agree_modify. intros s Hs. destruct (negb (is_text_delta d)); [done|]. unfold holds in *. pose proof (sd_clock SV _ _ Hs) as Hc.
    destruct (read_clock (fl_world s)) as [w now]. cbn [fst] in Hc. cbn [total_options xo_SessionID].
    destruct (markTurnFirstTextDelta _ _ _ _) as [traces logs]. read_fields. by apply (sd_traces SV).
  - cbn [total_options xo_EmitResponseDelta]. rewrite Ef. by apply agree_call.
Qed.

Lemma agree_deltas ds : agree (emit_response_deltas opts id ds) (emit_response_deltas total_options id ds).
Proof. induction ds as [|d ds IH]; cbn [emit_response_deltas]; [apply agree_ret|]. apply agree_bind; [apply agree_delta|exact IH]. Qed.

Lemma agree_text cond : agree (text_collected opts cond) (text_collected total_options cond).
Proof.
  intros s Hs. unfold text_collected. cbn [total_options xo_OnTextDeltaCollected].
  destruct (xo_OnTextDeltaCollected opts) as [f|] eqn:E; [|by split]. destruct (cond s); [|by split].
  split; [done|]. unfold holds in *. cbn [fst]. read_fields. by apply (sd_text SV _ E).
Qed.

Lemma agree_response : agree (emit_response opts id) (emit_response total_options id).
Proof.
  unfold emit_response. apply (agree_read (fun s => emit_whole opts id (responseDeltasForEmission (fl_response s) true))
    (fun s => emit_whole total_options id (responseDeltasForEmission (fl_response s) true))). intros s0. unfold emit_whole.
  apply agree_bind; [apply (agree_read (fun s => start_response opts id (responseModalities _ (fl_response s)))
    (fun s => start_response total_options id (responseModalities _ (fl_response s)))); intros; apply agree_start|].
  apply agree_bind; [apply agree_deltas|]. apply agree_bind; [|apply agree_text].
  apply agree_modify. intros s Hs. unfold holds in *. by read_fields.
Qed.

Lemma resolve_holds s : holds s -> holds (resolveCompletion s).
Proof. unfold holds, resolveCompletion. intros Hs. destruct (fl_completion s); [|done]. destruct (fl_ready s); [by read_fields|done]. Qed.

Lemma agree_select mods c :
  (forall f, c = Meanwhile f -> forall w l, I w l -> I (f w) l) -> agree (on_select opts id mods c) (on_select total_options id mods c).
Proof.
  intros Hm. destruct c as [d| |[[start|]|e]|[r|e]|f]; cbn [on_select].
  - unfold on_delta. apply agree_bind; [apply agree_modify; intros s Hs; unfold holds in *; by read_fields|].
    apply agree_bind; [apply agree_once|]. apply agree_bind; [apply agree_delta|apply agree_text].
  - apply agree_modify. intros s Hs. unfold holds in *. by read_fields.
  - apply agree_bind; [apply agree_modify; intros s Hs; unfold holds in *; by read_fields|]. unfold on_audio_start.
    apply agree_bind; [apply (agree_read (fun s => start_response_once opts id (modalitiesForAudioStart start (fl_seen s)))
      (fun s => start_response_once total_options id (modalitiesForAudioStart start (fl_seen s)))); intros; apply agree_once|].
    apply agree_bind; [apply agree_modify; intros s Hs; unfold holds in *; by read_fields|]. apply agree_bind.
    + apply (agree_read (fun s => call _ (CallStartAudio (fl_trace s) id (wrapResponseAudioStart start)
        (aggregatedTextForAudioStart (fl_parts s) start))) (fun s => call _ (CallStartAudio (fl_trace s) id
        (wrapResponseAudioStart start) (aggregatedTextForAudioStart (fl_parts s) start)))).
      intros s0. apply agree_call_opt; [done|apply (sd_audio SV)].
    + apply agree_modify. intros s Hs. apply resolve_holds. unfold holds in *. by read_fields.
  - apply agree_bind; apply agree_modify; intros s Hs; [unfold holds in *; by read_fields|by apply resolve_holds].
  - apply agree_bind; [apply agree_modify; intros s Hs; unfold holds in *; by read_fields|apply agree_fail].
  - apply agree_bind; [apply agree_modify; intros s Hs; unfold holds in *; by read_fields|]. unfold on_response. apply agree_bind.
    + apply agree_modify. intros s Hs. apply resolve_holds. destruct (fl_completion _); unfold holds in *; by read_fields.
    + apply agree_unless, agree_bind; [apply agree_response|].
      apply agree_modify. intros s Hs. unfold holds in *. by read_fields.
  - apply agree_bind; [apply agree_modify; intros s Hs; unfold holds in *; by read_fields|apply agree_fail].
  - apply agree_modify. intros s Hs. unfold holds in *. read_fields. by apply (Hm f).
Qed.

(** The cases that other goroutines contribute keep the invariant. *)
Definition harmless (cases : list (select_case (A := A) (W := W))) : Prop :=
  forall f, Meanwhile f ∈ cases -> forall w l, I w l -> I (f w) l.

Lemma agree_loop mods cases s :
  harmless cases -> holds s ->
  select_loop opts id mods cases s = select_loop total_options id mods cases s /\ holds (select_loop opts id mods cases s).1.
Proof.
  revert s. induction cases as [|c cases IH]; intros s Hc Hs; cbn [select_loop]; (destruct (negb (channels_open s)); [by split|]); [by split|].
  destruct (agree_select mods c (fun f E => Hc f ltac:(rewrite E; apply list_elem_of_here)) s Hs) as [E Hs1]. rewrite <- E.
  destruct (on_select opts id mods c s) as [s1 [x|e]]; [|by split].
  apply IH; [|exact Hs1]. intros f Hf. apply Hc. by apply list_elem_of_further.
Qed.

(** The whole flow of an orchestrated turn is the one of a transport without errors. *)
Lemma served_flow cases w trace :
  harmless cases -> I w [] ->
  executeOrchestratedTurnResponse opts id None cases w trace = executeOrchestratedTurnResponse total_options id None cases w trace /\
  holds (executeOrchestratedTurnResponse opts id None cases w trace).1.
Proof.
  intros Hc Hw. unfold executeOrchestratedTurnResponse. cbv zeta. cbn [total_options xo_StartResponseAudio].
  assert (bool_decide (is_Some (option_map without_error (xo_StartResponseAudio opts))) = bool_decide (is_Some (xo_StartResponseAudio opts))) as Eb
    by (apply bool_decide_ext; destruct (xo_StartResponseAudio opts); split; intros [x Hx]; try done; by eexists).
  assert (delta_modalities total_options = delta_modalities opts) as Em by (unfold delta_modalities; cbn [total_options xo_StartResponseAudio xo_MayStream]; by rewrite Eb).
  rewrite Eb, Em. set (s0 := flow_begin w trace _).
  destruct (agree_loop (delta_modalities opts) cases s0 Hc Hw) as [E Hs]. rewrite <- E. split; [done|].
  destruct (select_loop opts id _ cases s0) as [s [[x|e]|]]; cbn [finish_flow fst] in *; try done.
  unfold holds, keep_or_cancel in *. destruct (rsp_AudioStream _), (negb _); by read_fields.
Qed.

Lemma total_serving : serving total_options.
Proof.
  destruct (sd_start SV) as (f & Ef & _), (sd_delta SV) as (f' & Ef' & _). split; cbn [total_options xo_EmitResponseStart xo_EmitResponseDelta xo_StartResponseAudio].
  - rewrite Ef. by eexists.
  - rewrite Ef'. by eexists.
  - intros g Hg. destruct (xo_StartResponseAudio opts); [|done]. injection Hg as <-. done.
Qed.

End Served.

(** ** What the client receives *)

Section Received.

Context {S P B : Type} `{!MemoryStore S} `{!PreviewSession P} {CN : Connection} {RL : Reliable} (clock : nat -> instant) (profile : RealtimeProfile).
Context (static : list bytes -> B) (duration_of : B -> duration -> option duration).

Abbreviation runtime := (gateway S P).

#[local] Notation "m ;; k" := (gw_bind m (fun _ => k)) (at level 100, right associativity).

#[local] Instance received_world : TurnWorld runtime := gateway_world clock.

Definition is_answer (e : server_event) : bool :=
  match e with ResponseStartEvent _ _ _ _ _ | ResponseChunkEvent _ _ _ => true | _ => false end.

(** The answer as the client has it so far. *)
Definition answers (g : runtime) : list server_event := List.filter is_answer (gw_events g).

(** The events a call of the flow stands for. *)
Definition answer_event (sessionID : text) (fx : flow_effect (A := B)) : list server_event :=
  match fx with
  | CallResponseStart trace responseID modalities _ =>
      [ResponseStartEvent sessionID responseID modalities (tt_TurnID trace) (tt_TraceID trace)]
  | CallResponseDelta responseID d => [ResponseChunkEvent sessionID responseID (chunk_delta d)]
  | _ => []
  end.

(** A computation that ends well on an open session, which stays open, and says
    nothing of the answer. *)
Definition calm {X} (m : gw (S := S) (P := P) X) : Prop := forall g : runtime,
  active (gw_session g) = true ->
  exists g' x, m g = (g', Ok x) /\ active (gw_session g') = true /\ answers g' = answers g.

Lemma calm_bind {X Y} (m : gw X) (f : X -> gw Y) : calm m -> (forall x, calm (f x)) -> calm (gw_bind m f).
Proof.
  intros Hm Hf g Hg. destruct (Hm g Hg) as (g1 & x & E & Hg1 & H1). destruct (Hf x g1 Hg1) as (g2 & y & E2 & Hg2 & H2).
  exists g2, y. rewrite (bind_ok _ _ _ _ _ E), H2. by split.
Qed.

Lemma calm_update f :
  (forall g : runtime, active (gw_session (f g)) = active (gw_session g) /\ gw_events (f g) = gw_events g) -> calm (gw_update f).
Proof. intros Hf g Hg. destruct (Hf g) as [H1 H2]. eexists _, _. split; [reflexivity|]. unfold answers. by rewrite H1, H2. Qed.

Lemma calm_ret {X} (x : X) : calm (gw_ret x).
Proof. intros g Hg. by eexists _, _. Qed.

Lemma calm_now : calm (gw_now clock).
Proof. intros g Hg. eexists _, _. split; [reflexivity|]. unfold gw_session, answers in *. by read_fields. Qed.

Lemma calm_write e : is_answer e = false -> calm (WriteEvent e).
Proof.
  intros He g Hg. rewrite write_ok. eexists _, _. split; [reflexivity|]. unfold gw_session, answers in *. read_fields.
  rewrite List.filter_app. cbn [List.filter]. by rewrite He, app_nil_r.
Qed.

Lemma calm_deadline snapshot : calm (applyReadDeadline profile snapshot).
Proof. intros g Hg. rewrite deadline_ok. eexists _, _. split; [reflexivity|]. unfold gw_session, answers in *. by read_fields. Qed.

Lemma calm_trace f : calm (on_trace clock f).
Proof. intros g Hg. rewrite trace_ok. eexists _, _. split; [reflexivity|]. unfold read_once, gw_session, answers in *. by read_fields. Qed.

Lemma calm_voice f : calm (on_voice f).
Proof. apply calm_update. intros g. unfold gw_session. by read_fields. Qed.

(** A method of the session that succeeds on an open one and keeps it open. *)
Lemma calm_session f :
  (forall now s, active s = true -> exists s' x, f now s = (s', Ok x) /\ active s' = true) -> calm (on_session clock f).
Proof.
  intros Hf g Hg. unfold on_session, gw_bind, gw_now. change (gw_session (g <|gw_reads := _|>)) with (gw_session g).
  destruct (Hf (clock (gw_reads g)) (gw_session g) Hg) as (s' & x & -> & Hs). eexists _, _. split; [reflexivity|].
  unfold set_session, gw_session, answers. by read_fields.
Qed.

Lemma calm_output st : calm (on_session clock (fun now => SetOutputState now st)).
Proof.
  apply calm_session. intros now s Hs. rewrite (set_output_ok _ _ _ Hs). eexists _, _. split; [reflexivity|].
  unfold after_output, rederive. by read_fields.
Qed.

Lemma calm_active : calm (return_active clock).
Proof.
  apply calm_session. intros now s Hs. unfold SetState. rewrite Hs. cbn [negb]. eexists _, _. split; [reflexivity|].
  unfold rederive. by read_fields.
Qed.

Lemma calm_ack f : calm (gw_update (fun g : runtime => g <|gw_ack := f (gw_ack g)|>)).
Proof. apply calm_update. intros g. unfold gw_session. by read_fields. Qed.

Lemma calm_install completion : calm (installOutput completion).
Proof. intros g Hg. eexists _, _. split; [reflexivity|]. unfold gw_session, answers in *. by read_fields. Qed.

Lemma calm_playback delivered planned : calm (start_playback delivered planned).
Proof. intros g Hg. eexists _, _. split; [reflexivity|]. unfold gw_session, answers in *. by read_fields. Qed.

Lemma calm_early_audio sessionID responseID aggregatedText start completion :
  calm (start_early_audio clock profile duration_of sessionID responseID aggregatedText start completion).
Proof.
  unfold start_early_audio. cbv zeta. apply calm_bind; [apply calm_output|]. intros speaking.
  apply calm_bind; [apply calm_trace|]. intros trace. apply calm_bind; [apply calm_playback|]. intros _.
  apply calm_bind; [apply calm_deadline|]. intros _. apply calm_bind; [by apply calm_write|]. intros _.
  apply calm_bind; [apply calm_now|]. intros now. unfold startAudioStream.
  apply calm_bind; [apply calm_install|]. intros _. apply calm_ack.
Qed.

(** The end of a turn: well on an open session, and silent about the answer; the
    session may have ended. *)
Definition ends_calmly (m : gw (S := S) (P := P) unit) : Prop := forall g : runtime,
  active (gw_session g) = true -> exists g', m g = (g', Ok tt) /\ answers g' = answers g.

Lemma calmly_bind {X} (m : gw X) (f : X -> gw unit) : calm m -> (forall x, ends_calmly (f x)) -> ends_calmly (gw_bind m f).
Proof.
  intros Hm Hf g Hg. destruct (Hm g Hg) as (g1 & x & E & Hg1 & H1). destruct (Hf x g1 Hg1) as (g2 & E2 & H2).
  exists g2. rewrite (bind_ok _ _ _ _ _ E), H2. by split.
Qed.

Lemma calm_calmly (m : gw unit) : calm m -> ends_calmly m.
Proof. intros Hm g Hg. destruct (Hm g Hg) as (g1 & [] & E & _ & H). by exists g1. Qed.

Lemma calmly_end reason message : ends_calmly (endSession clock profile reason message).
Proof.
  intros g Hg. rewrite (end_ok clock profile reason message g Hg). eexists. split; [reflexivity|].
  destruct g as [b v tr pv co ak ou n dl ev rd nm]. unfold session_ended. cbv zeta. set (s1 := (End_ _ _ _).1). clearbody s1.
  unfold answers. cbn. by rewrite List.filter_app, app_nil_r.
Qed.

Lemma calmly_completion endSession_ reason message :
  ends_calmly (completeTurnReturnOrClose clock profile endSession_ reason message (completion_hooks clock profile)).
Proof.
  unfold completeTurnReturnOrClose. destruct endSession_.
  - destruct (close_directive reason message) as [r m]. apply calmly_bind; [apply calm_trace|]. intros trace.
    apply calmly_bind; [|intros _; apply calmly_end]. apply calm_update. intros g. unfold gw_session. by read_fields.
  - apply calm_calmly. apply calm_bind; [apply calm_active|]. intros active_.
    apply calm_bind; [apply calm_deadline|]. intros _. apply calm_bind; [apply calm_trace|]. intros _.
    apply calm_bind; [apply calm_trace|]. intros trace. apply calm_bind; [|intros _; by apply calm_write].
    apply calm_update. intros g. unfold gw_session. by read_fields.
Qed.

Lemma calmly_finalize sessionID trace responseID r delivered :
  ends_calmly (finalizeTurnResponse clock profile static duration_of sessionID trace responseID r delivered).
Proof.
  unfold finalizeTurnResponse, finalizeTurnLifecycle. cbn [BeforeSpeaking BeforeNoAudio StartAudioStream Completion].
  apply calmly_bind; [apply calm_now|]. intros now. apply calmly_bind.
  { apply calm_update. intros g. unfold OutputFlow.set_session, gw_session, ClearTurn. by read_fields. }
  intros _. destruct (audioStreamForTurnResponse static r) as [s|].
  - apply calm_calmly. apply calm_bind; [apply calm_output|]. intros speaking. apply calm_bind; [apply calm_trace|]. intros trace'.
    apply calm_bind; [apply calm_deadline|]. intros _. apply calm_bind.
    + apply calm_bind; [apply calm_playback|]. intros _. apply calm_bind; [intros g Hg; by eexists _, _|].
      intros snapshot. by apply calm_write.
    + intros _. apply calm_bind; [apply calm_now|]. intros now'. unfold startAudioStream.
      apply calm_bind; [apply calm_install|]. intros _. apply calm_ack.
  - apply calmly_bind; [apply calm_voice|]. intros _. apply calmly_completion.
Qed.

Lemma calmly_deliver req turn s (result : turnExecutionResult (A := B)) :
  ends_calmly (deliver_response clock profile static duration_of req turn s result).
Proof.
  unfold deliver_response. cbv zeta. apply calmly_bind; [apply calm_voice|]. intros _.
  destruct (rsp_AudioStreamTransferred _); [apply calm_calmly, calm_voice|apply calmly_finalize].
Qed.

(** On an open session the transport takes every call of the flow, and the client
    has the events of the calls made so far. *)
Definition answering (sessionID id : text) (before : list server_event) (g : runtime) (l : list (flow_effect (A := B))) : Prop :=
  active (gw_session g) = true /\ answers g = before ++ concat (map (answer_event sessionID) l) /\ Forall (about id) l.

Lemma answering_snoc sessionID id before (g g' : runtime) l fx :
  answering sessionID id before g l -> about id fx -> active (gw_session g') = true ->
  answers g' = answers g ++ answer_event sessionID fx -> answering sessionID id before g' (l ++ [fx]).
Proof.
  intros (Ha & H & Hf) Hx Ha' H'. split; [done|]. split; [|by apply Forall_app; split; [|apply Forall_singleton]]. rewrite H', H, map_app, concat_app. cbn [map concat]. by rewrite app_nil_r, app_assoc.
Qed.

Lemma callback_taken sessionID before id :
  taken (answering sessionID id before) id (as_callback clock profile duration_of sessionID).
Proof.
  intros fx g l Hx Hi. pose proof Hi as [Ha _]. unfold as_callback. destruct fx as [trace i mods r|i d|trace s|trace i start s]; cbn [serve_call].
  - rewrite write_ok. eexists. split; [reflexivity|]. eapply answering_snoc; [exact Hi|done| |]; unfold gw_session, answers in *; read_fields; [done|].
    by rewrite List.filter_app.
  - rewrite write_ok. eexists. split; [reflexivity|]. eapply answering_snoc; [exact Hi|done| |]; unfold gw_session, answers in *; read_fields; [done|].
    by rewrite List.filter_app.
  - eexists. split; [reflexivity|]. unfold follow_text. eapply answering_snoc; [exact Hi|done| |];
      (destruct (TrimSpace s == ""); [|destruct (bool_decide _)]); unfold gw_session, answers in *; read_fields; cbn [answer_event]; rewrite ?app_nil_r; done.
  - destruct (calm_early_audio sessionID i s start newTurnOutputOutcomeFuture g Ha) as (g' & [] & E & Hg' & He). rewrite E.
    exists g'. split; [done|]. eapply answering_snoc; [exact Hi|done|done|]. cbn [answer_event]. by rewrite He, app_nil_r.
Qed.

Lemma turn_served sessionID before mayStream id :
  served (answering sessionID id before) (turn_options clock profile duration_of sessionID mayStream) id.
Proof.
  split; cbn [turn_options xo_EmitResponseStart xo_EmitResponseDelta xo_StartResponseAudio xo_OnTextDeltaCollected].
  - intros g l (H1 & H2 & H3). unfold answering, gw_session, answers in *. cbn. by read_fields.
  - intros t g l (H1 & H2 & H3). unfold answering, gw_session, answers in *. cbn. by read_fields.
  - eexists. split; [done|apply callback_taken].
  - eexists. split; [done|apply callback_taken].
  - intros f [= <-]. apply callback_taken.
  - intros f [= <-] trace s g l Hi. unfold follow_text. eapply answering_snoc; [exact Hi|done| |]; destruct Hi as [Ha _];
      (destruct (TrimSpace s == ""); [|destruct (bool_decide _)]); unfold gw_session, answers in *; read_fields; cbn [answer_event]; rewrite ?app_nil_r; done.
Qed.

(** The events of a flow's calls: the response start, then its deltas. *)
Lemma answer_of_calls sessionID id l :
  Forall (about id) l ->
  (exists tr mods r rest, l = CallResponseStart tr id mods r :: rest /\ List.filter is_start rest = []) ->
  exists tr mods, concat (map (answer_event sessionID) l)
    = ResponseStartEvent sessionID id mods (tt_TurnID tr) (tt_TraceID tr)
      :: map (fun d => ResponseChunkEvent sessionID id (chunk_delta d)) (sent_deltas l).
Proof.
  intros Hf (tr & mods & r & rest & -> & Hr). exists tr, mods. apply Forall_cons_1 in Hf as [_ Hf].
  cbn [map concat answer_event app]. f_equal. unfold sent_deltas. cbn [map concat delta_of app].
  induction rest as [|fx rest IH]; [done|]. apply Forall_cons_1 in Hf as [Hx Hf]. cbn [map concat].
  destruct fx as [t i m x|i d|t x|t i x y]; cbn [is_start List.filter] in Hr; cbn [answer_event delta_of app map]; [done| |by apply IH|by apply IH].
  cbn in Hx. rewrite Hx, (IH Hf Hr). done.
Qed.

(** What other goroutines do while the turn is answered: the session stays open,
    and the answer is not theirs. *)
Definition undisturbed (cases : list (select_case (A := B) (W := runtime))) : Prop :=
  forall f, Meanwhile f ∈ cases -> forall g : runtime,
    active (gw_session g) = true -> active (gw_session (f g)) = true /\ answers (f g) = answers g.

(** C1. An answer reaches the client whole. On an open session over a connection
    that takes what is written, whatever the order in which the deltas, the early
    audio and the response of an orchestrated turn arrive, and whatever other
    goroutines do meanwhile, handling the turn ends without an error, and the client
    has received of the answer exactly one response start, under the turn's response
    id, and then the deltas in order, each of a named kind, after those of the
    response itself when it came first. *)
Theorem turn_reaches_the_client (r : turn_responder B runtime) ended turn trace s pt ds start rsp cases (g : runtime) :
  active (gw_session g) = true ->
  respond r (buildTurnRequest turn g trace s pt) = Orchestrating None cases ->
  schedule_of ds (Some (Ok start)) (Ok rsp) cases -> undisturbed cases ->
  let sessionID := SessionID (ct_Snapshot turn) in
  exists g' id tr mods,
    emitTurnResponse clock profile static duration_of r ended turn trace s pt g = (g', Ok Returned) /\
    answers g' = answers g ++ ResponseStartEvent sessionID id mods (tt_TurnID tr) (tt_TraceID tr)
      :: map (fun d => ResponseChunkEvent sessionID id (chunk_delta d)) (fallback cases ++ ds).
Proof.
  intros Ha Hr Hsch Hu. cbv zeta. unfold emitTurnResponse. cbv zeta. rewrite Hr. set (req := buildTurnRequest _ _ _ _ _).
  set (g1 := g <|gw_voice := _|>).
  assert (F : active (gw_session g1) = true /\ answers g1 = answers g) by (subst g1; unfold gw_session, answers in *; by read_fields).
  destruct F as [Ha1 <-]. clearbody g1. unfold executeTurnResponse. cbn [turn_options xo_ResponseID].
  assert (Et : (TrimSpace (txt "") == txt "") = true) by (by vm_compute). rewrite Et. cbn [read_clock received_world gateway_world]. cbv iota.
  set (id := txt "resp_" ++ _). set (g2 := g1 <|gw_reads := _|>).
  assert (F : active (gw_session g2) = true /\ answers g2 = answers g1) by (subst g2; unfold gw_session, answers in *; by read_fields).
  destruct F as [Ha2 <-]. clearbody g2. clearbody id.
  set (sid := SessionID (ct_Snapshot turn)). pose proof (turn_served sid (answers g2) (may_stream r) id) as SV.
  destruct (served_flow _ _ _ SV cases g2 trace) as [E Hi].
  { intros f Hf w l (H1 & H2 & H3). destruct (Hu f Hf w H1) as [U1 U2]. split; [done|]. by rewrite U2. }
  { split; [done|]. split; [by rewrite app_nil_r|by apply Forall_nil]. }
  destruct (sent_turn _ id ds (Some start) rsp cases g2 trace (total_serving _ _ _ SV)) as (fl & result & E2 & Hst & Hde & _); [|done|].
  { split; intros _; by eexists. }
  rewrite <- E in E2. rewrite E2 in Hi. unfold received_world in E2. rewrite E2. cbn [fst] in Hi. destruct Hi as (H1 & H2 & H3).
  destruct (answer_of_calls sid id _ H3 Hst) as (tr & mods & Ha'). rewrite Ha', Hde in H2.
  destruct (calmly_deliver req turn s result (fl_world fl) H1) as (g' & Ed & Hg').
  exists g', id, tr, mods. unfold gw_bind. rewrite Ed, Hg', H2. done.
Qed.

(** ** A turn that fails *)

(** How a playback goroutine may end when it is cancelled: in time and silently,
    or not before the wait is over. *)
Definition quiet_end (inTime : bool) : option (gw (S := S) (P := P) unit) := if inTime then Some (gw_ret tt) else None.

Lemma interrupt_output_quiet inTime (g : runtime) :
  exists g' x, interruptOutput (quiet_end inTime) g = (g', Ok x) /\ gw_session g' = gw_session g /\ gw_events g' = gw_events g.
Proof.
  destruct (gw_output g) as [o|] eqn:Ho.
  - pose proof (interrupt_output_ok ByDefault g o inTime Ho eq_refl) as E. cbn [ask_interrupt] in E. unfold quiet_end. rewrite E.
    eexists _, _. split; [reflexivity|]. unfold interrupted_output, gw_session. by read_fields.
  - unfold interruptOutput, interruptOutputWithPolicy. rewrite Ho. by eexists _, _.
Qed.

Lemma app_pair {X} (l : list X) a b : l ++ [a; b] = (l ++ [a]) ++ [b].
Proof. by rewrite <- app_assoc. Qed.

(** An error that is not recoverable ends the session. *)
Lemma terminate_ends code message inTime (g : runtime) :
  active (gw_session g) = true -> SessionID (Snapshot_ (gw_session g)) <> [] ->
  exists g', terminateWithError clock profile code message (quiet_end inTime) g = (g', Ok tt) /\
    gw_session g' = NewRealtimeSession /\ preview (gw_voice g') = None /\ gw_normalizer g' = None /\
    gw_events g' = gw_events g ++ [ErrorEvent (SessionID (Snapshot_ (gw_session g))) code message false;
                                   SessionEndEvent (SessionID (Snapshot_ (gw_session g))) CloseReasonError message].
Proof.
  intros Ha Hid. unfold terminateWithError. cbv zeta. rewrite (bind_ok _ _ _ _ _ (write_ok _ g)).
  pose proof (proj2 (text_eqb_false _ (txt "")) Hid) as E. rewrite E. cbn [negb].
  set (g1 := g <|gw_events := _|>).
  assert (F : gw_session g1 = gw_session g /\ gw_events g1 = gw_events g ++ [ErrorEvent (SessionID (Snapshot_ (gw_session g))) code message false])
    by (subst g1; unfold gw_session; by read_fields). destruct F as [F1 F2]. clearbody g1.
  destruct (interrupt_output_quiet inTime g1) as (g2 & x & E2 & H1 & H2). rewrite (bind_ok _ _ _ _ _ E2).
  rewrite (end_ok clock profile CloseReasonError message g2) by (by rewrite H1, F1).
  eexists. split; [reflexivity|]. rewrite app_pair, <- F1, <- H1. assert (gw_events g2 = gw_events g ++ [ErrorEvent (SessionID (Snapshot_ (gw_session g))) code message false]) as E3 by (by rewrite H2, F2).
  rewrite <- F1, <- H1 in E3. clear - E3. revert E3. set (before := gw_events g ++ _). clearbody before.
  destruct g2 as [b v tr pv co ak ou n dl ev rd nm]. unfold session_ended. cbv zeta. set (s1 := (End_ _ _ _).1). clearbody s1.
  cbn. intros ->. by repeat split.
Qed.

(** C14. A turn that fails ends its session. Whatever the responder did and the
    client has received, when the flow of a turn returns an error on a session that
    is still open, handling it ends without an error: the client is told of the
    failure under the session's id and then of the end of the session, nothing
    comes after that, and what remains is a fresh session without a preview and
    without an input format. *)
Theorem failed_turn_ends_the_session (r : turn_responder B runtime) inTime turn trace s pt (g : runtime) fl e :
  let req := buildTurnRequest turn g trace s pt in
  executeTurnResponse (turn_options clock profile duration_of (SessionID (ct_Snapshot turn)) (may_stream r)) (respond r req)
    (g <|gw_voice := PrepareTurn req (provisional_input req) "" (gw_voice g)|>) trace = (fl, Some (Err e)) ->
  let opened := Snapshot_ (gw_session (fl_world fl)) in
  active (gw_session (fl_world fl)) = true -> SessionID opened <> [] ->
  exists g', emitTurnResponse clock profile static duration_of r (quiet_end inTime) turn trace s pt g = (g', Ok Returned) /\
    gw_events g' = gw_events (fl_world fl) ++
      [ErrorEvent (SessionID opened) "response_generation_failed" e false; SessionEndEvent (SessionID opened) CloseReasonError e] /\
    gw_session g' = NewRealtimeSession /\ preview (gw_voice g') = None /\ gw_normalizer g' = None.
Proof.
  cbv zeta. intros E Ha Hid. unfold emitTurnResponse. cbv zeta. unfold received_world in E. rewrite E.
  destruct (interrupt_output_quiet inTime (fl_world fl)) as (g1 & x & E1 & H1 & H2). rewrite (bind_ok _ _ _ _ _ E1).
  rewrite <- H1 in Ha, Hid. destruct (terminate_ends "response_generation_failed" e inTime g1 Ha Hid) as (g' & E2 & K1 & K2 & K3 & K4).
  exists g'. unfold gw_bind. rewrite E2, K4, H1, H2. by repeat split.
Qed.

End Received.

(** ** Turns that happen *)

#[local] Existing Instance demo_session.
#[local] Existing Instance open_connection.
#[local] Existing Instance open_reliable.

Definition demo_committed : CommittedTurn := {| ct_Snapshot := Snapshot_ (gw_session demo_gateway); ct_AudioPCM := ["001"]%byte |}.

(** Two deltas, early audio between them, another goroutine that reads the clock. *)
Definition demo_cases : list (select_case (A := unit) (W := gateway InMemoryMemoryStore unit)) :=
  [DeltaReceived (text_response_delta "Hi ");
   AudioStarted (Ok (Some (mkAudioStart (Some tt) (txt "Hi ") true StartFromSpeechPlanner)));
   Meanwhile (fun g => g <|gw_reads := Datatypes.S (gw_reads g)|>);
   DeltaReceived (text_response_delta "there.");
   ResponseReady (Ok (mkTurnResponse "hi" "Hi there." [] [] None true false "" ""));
   DeltasClosed].

Definition demo_turn_responder : turn_responder unit (gateway InMemoryMemoryStore unit) :=
  mkTurnResponder true (fun _ => Orchestrating None demo_cases).

Lemma turn_reaches_the_client_witness :
  exists g' id tr mods,
    emitTurnResponse demo_clock demo_profile (fun _ => tt) (fun _ _ => None) demo_turn_responder None demo_committed zero_turnTrace "" None
      demo_gateway = (g', Ok Returned) /\
    answers g' = [ResponseStartEvent (SessionID (ct_Snapshot demo_committed)) id mods (tt_TurnID tr) (tt_TraceID tr);
                  ResponseChunkEvent (SessionID (ct_Snapshot demo_committed)) id (text_response_delta "Hi ");
                  ResponseChunkEvent (SessionID (ct_Snapshot demo_committed)) id (text_response_delta "there.")].
Proof.
  destruct (turn_reaches_the_client demo_clock demo_profile (fun _ => tt) (fun _ _ => None) demo_turn_responder None demo_committed
    zero_turnTrace "" None [text_response_delta "Hi "; text_response_delta "there."]
    (Some (mkAudioStart (Some tt) (txt "Hi ") true StartFromSpeechPlanner))
    (mkTurnResponse "hi" "Hi there." [] [] None true false "" "") demo_cases demo_gateway)
    as (g' & id & tr & mods & E1 & E2).
  - by vm_compute.
  - done.
  - by split.
  - intros f Hf g Hg. apply list_elem_of_In in Hf. cbn [In demo_cases] in Hf.
    destruct Hf as [Hf|[Hf|[Hf|[Hf|[Hf|[Hf|Hf]]]]]]; try discriminate Hf; [|done].
    injection Hf as <-. unfold gw_session, answers in *. by read_fields.
  - exists g', id, tr, mods. split; [exact E1|exact E2].
Defined.

(** The responder answers nothing but an error. *)
Definition failing_responder : turn_responder unit (gateway InMemoryMemoryStore unit) :=
  mkTurnResponder false (fun _ => Responding (Err (txt "no model"))).

Lemma failed_turn_ends_the_session_witness :
  exists g', emitTurnResponse demo_clock demo_profile (fun _ => tt) (fun _ _ => None) failing_responder (quiet_end true) demo_committed
      zero_turnTrace "" None demo_gateway = (g', Ok Returned) /\ gw_session g' = NewRealtimeSession /\ length (gw_events g') = 2%nat.
Proof.
  set (req := buildTurnRequest demo_committed demo_gateway zero_turnTrace "" None).
  set (g1 := demo_gateway <|gw_voice := PrepareTurn req (provisional_input req) "" (gw_voice demo_gateway)|>).
  destruct (failed_turn_ends_the_session demo_clock demo_profile (fun _ => tt) (fun _ _ => None) failing_responder true demo_committed
    zero_turnTrace "" None demo_gateway (flow_begin (g1 <|gw_reads := 1%nat|>) zero_turnTrace false) "no model")
    as (g' & E & H1 & H2 & _).
  - reflexivity.
  - by vm_compute.
  - by vm_compute.
  - exists g'. split; [exact E|]. split; [exact H2|]. rewrite H1, length_app. by vm_compute.
Defined.
