(* ===== verification/RealtimeHandler.v ===== *)
(** * The handlers of the realtime connection (internal/gateway/realtime_ws.go)

    A connection takes one message at a time: control frames, binary frames of
    audio, the errors of its socket, and, between them, the ticks that poll the
    preview.  Each handler is a computation over the runtime of OutputFlow; what it
    reads from JSON is an argument, already decoded or the error of decoding it.
    The error of a handler closes the connection; errors are their messages.
    [ended] is how the playback goroutine ends when the handler cancels it.  Log
    lines are left out. *)

From S2P Require Import Prelude GoText GoFloat Contracts Lexical BargeIn Playback Memory Session Orchestrator PlaybackAck BargeInRuntime.
From S2P Require Import Rollout Audio InputAudio TurnTrace GatewayProfile OutputEffects TurnResponse TurnFlow OutputFlow InputFlow TurnRun.

(** ** Messages *)

Record sessionStartPayload := mkStartPayload {
  sp_ProtocolVersion : text;
  sp_DeviceID : text;
  sp_ClientType : text;
  sp_FirmwareVersion : text;
  sp_Codec : text;
  sp_SampleRateHz : Z;
  sp_Channels : Z;
  sp_Mode : text;
  sp_ClientCanEnd : bool;
  sp_ServerCanEnd : bool;
  sp_Capabilities : sessionStartCapabilities
}.

(** What the four acknowledgements name. *)
Record ackPayload := mkAckPayload {
  ak_ResponseID : text;
  ak_PlaybackID : text;
  ak_SegmentID : text; (* [ClearedAfterSegmentID] of a cleared one *)
  ak_PlayedDurationMs : Z;
  ak_Reason : text
}.

(** The payload of a frame, decoded by its type; [Err] is the decoder's error, and
    a missing payload is one too, except for a session update. *)
Inductive control_payload :=
| TypeSessionStart (p : result text sessionStartPayload)
| TypeAudioInCommit (reason : result text text)
| TypeTextIn (s : result text text)
| TypeSessionEnd (p : result text (text * text)) (* reason and message *)
| TypeSessionUpdate (interrupt : option (result text bool))
| TypeAudioOutStarted (p : result text ackPayload)
| TypeAudioOutMark (p : result text ackPayload)
| TypeAudioOutCleared (p : result text ackPayload)
| TypeAudioOutCompleted (p : result text ackPayload)
| TypeOther (name : text).

(** [None]: the frame is not JSON. *)
Record controlEnvelope := mkEnvelope { env_SessionID : text; env_Payload : control_payload }.

Inductive websocketInboundMessage :=
| TextMessage (envelope : option controlEnvelope)
| BinaryMessage (payload : bytes)
| OtherMessage
| InboundError (timeout : bool) (err : text).

Section Handlers.

Context {S P B : Type} `{!MemoryStore S} `{!PreviewSession P} {PV : Previewer P} {OD : OpusDecoder} {CN : Connection}.
Context (clock : nat -> instant) (profile : RealtimeProfile) (static : list bytes -> B) (duration_of : B -> duration -> option duration).

Abbreviation runtime := (gateway S P).
Abbreviation responder := (turn_responder B runtime).
Abbreviation ending := (option (gw (S := S) (P := P) unit)).

#[local] Notation "'let*' x ':=' m 'in' k" := (gw_bind m (fun x => k))
  (at level 10, x name, m at level 100, k at level 200).
#[local] Notation "m ;; k" := (gw_bind m (fun _ => k)) (at level 100, right associativity).

Definition finished (m : gw (S := S) (P := P) unit) : gw handler_end := m ;; gw_ret Returned.

(** A method of the session whose error the handler looks at. *)
Definition ask_session {X} (f : instant -> RealtimeSession -> RealtimeSession * result Error X) : gw (result Error X) :=
  let* now := gw_now clock in
  fun (g : runtime) => let '(s, r) := f now (gw_session g) in (OutputFlow.set_session s g, Ok r).

Definition refuse (sessionID code message : text) (recoverable : bool) : gw (S := S) (P := P) handler_end :=
  finished (WriteEvent (ErrorEvent sessionID code message recoverable)).

(** ** A turn is accepted *)

Definition accept_turn (r : responder) (ended : ending) (turn : CommittedTurn) (source acceptReason s : text)
    (previewTranscription : option TranscriptionResult) : gw handler_end :=
  let snapshot := ct_Snapshot turn in
  applyReadDeadline profile snapshot ;;
  let* trace := on_trace clock (fun now => Begin now (SessionID snapshot) source) in
  WriteEvent (sessionUpdateFromSnapshot (SessionID snapshot) snapshot (tt_TurnID trace) acceptReason) ;;
  emitTurnResponse clock profile static duration_of r ended turn trace s previewTranscription.

(** The transcription a finished preview leaves, if it was asked and did not fail. *)
Definition usable_preview (finished : TranscriptionResult * bool * option text) : option TranscriptionResult :=
  match finished with (result, true, None) => Some result | _ => None end.

Definition handleServerEndpointTick (r : responder) (ended : ending) (now : instant) : gw handler_end := fun (g : runtime) =>
  let snapshot := Snapshot_ (gw_session g) in
  if negb (ServerEndpointEnabled profile) || (SessionID snapshot == "") || negb (bool_decide (Snap_State snapshot = StateActive))
  then (g, Ok Returned)
  else
    (let* observation := pollInputPreview clock now in
     if negb (io_Active observation) then gw_ret Returned
     else
       emitPreviewObservationEvents snapshot observation ;;
       if io_CommitSuggested observation && (0 <? AudioBytes snapshot) then
         let* consumed := consumeInputPreview clock in
         let* turn := ask_session CommitTurn in
         match turn with
         | Err e => gw_fail (session_error e)
         | Ok turn => accept_turn r ended turn "server_endpoint" "server_endpoint" "" (usable_preview (snd consumed))
         end
       else gw_ret Returned) g.

(** ** Audio *)

Definition flush_pending : gw (S := S) (P := P) Snapshot :=
  let* now := gw_now clock in
  fun (g : runtime) =>
    let '(b, r) := flushPendingBargeInAudio now (gw_barge g) in
    (g <|gw_barge := b|>, match r with Ok snapshot => Ok snapshot | Err e => Err (session_error e) end).

(** A payload in the format of the session; a panic of the decoder ends the connection. *)
Definition normalize_payload (payload : bytes) : gw (result text bytes) := fun (g : runtime) =>
  match gw_normalizer g with
  | None => (g, Ok (Ok payload))
  | Some n =>
      let '(n, r) := Decode payload n in
      let g := g <|gw_normalizer := Some n|> in
      match r with
      | Ok pcm => (g, Ok (Ok pcm))
      | Err (GoError e) => (g, Ok (Err e))
      | Err GoPanic => (g, Err (txt "panic"))
      end
  end.

Definition barge_in_config : BargeInConfig := mkBargeInConfig (BargeInMinAudioMs profile) (BargeInHoldAudioMs profile).

(** The client is told that the session previews; the errors are dropped. *)
Definition tell_previewing : gw (S := S) (P := P) unit :=
  let* previewing := ask_session (fun now => SetInputState now InputStatePreviewing) in
  match previewing with
  | Err _ => gw_ret tt
  | Ok snapshot =>
      fun (g : runtime) =>
        (gw_try (WriteEvent (sessionUpdateFromSnapshot (SessionID snapshot) snapshot (tt_TurnID (Current (gw_traces g))) "")) ;; gw_ret tt) g
  end.

(** A frame that arrives while the server speaks. *)
Definition barge_in_frame (ended : ending) (previous : Snapshot) (pcm : bytes) : gw unit :=
  gw_update (fun g : runtime => g <|gw_barge := stagePendingBargeInAudio pcm (gw_barge g)|>) ;;
  let* observation := previewForBargeIn clock previous pcm in
  emitPreviewObservationEvents previous observation ;;
  gw_when (io_SpeechStartedObserved observation || io_EndpointCandidateObserved observation) tell_previewing ;;
  let decision := EvaluateBargeIn (io_Preview observation) (InputSampleRate previous) (InputChannels previous) barge_in_config in
  let directive := playbackDirectiveForDecision decision in
  on_voice (RecordInterruptionDecision decision) ;;
  gw_when (ShouldDuckOutput directive) (applyOutputDirective clock directive ;; gw_ret tt) ;;
  if negb (ShouldInterruptOutput directive) then applyReadDeadline profile previous
  else
    interruptSpeakingFlowWithOptions clock profile (mkInterruptOptions false false (ByDecision decision)) ended None (Some write_active) ;;
    flush_pending ;; gw_ret tt.

Fixpoint emit_observations (snapshot : Snapshot) (os : list inputPreviewObservation) : gw (S := S) (P := P) unit :=
  match os with
  | [] => gw_ret tt
  | o :: os => emitPreviewObservationEvents snapshot o ;; emit_observations snapshot os
  end.

(** A frame of the user's turn. *)
Definition input_frame (previous : Snapshot) (pcm : bytes) : gw unit :=
  let* ingested := ask_session (fun now => IngestOwnedAudioFrame now pcm) in
  match ingested with
  | Err ErrNoActiveSession =>
      WriteEvent (ErrorEvent "" "session_not_started" "session.start must be sent before binary audio frames" true)
  | Err e => gw_fail (session_error e)
  | Ok current =>
      gw_when (ServerEndpointEnabled profile
               && (bool_decide (Snap_State previous = StateActive) || bool_decide (Snap_State previous = StateSpeaking)))
        (let* pushed := gw_try (ensureInputPreview current "" ;; pushInputPreviewAudio clock pcm) in
         match pushed with Ok observations => emit_observations current observations | Err _ => gw_ret tt end) ;;
      applyReadDeadline profile current ;;
      if bool_decide (Snap_State previous = StateSpeaking) then
        fun (g : runtime) => WriteEvent (sessionUpdateFromSnapshot (SessionID current) current (tt_TurnID (Current (gw_traces g))) "") g
      else gw_ret tt
  end.

Definition handleBinary (ended : ending) (payload : bytes) : gw unit := fun (g : runtime) =>
  if MaxFrameBytes profile <? len payload then
    terminateWithError clock profile "frame_too_large" (txt "binary frame exceeds " ++ Itoa (MaxFrameBytes profile) ++ txt " bytes") ended g
  else
    let previous := Snapshot_ (gw_session g) in
    (let* pcm := normalize_payload payload in
     match pcm with
     | Err e => terminateWithError clock profile "audio_decode_failed" e ended
     | Ok pcm =>
         if bool_decide (Snap_State previous = StateSpeaking) then barge_in_frame ended previous pcm else input_frame previous pcm
     end) g.

(** ** Control frames *)

Definition validateStartPayload (p : sessionStartPayload) : result text unit :=
  if negb (sp_ProtocolVersion p == ProtocolVersion profile) then Err (txt "protocol_version must be " ++ ProtocolVersion profile)
  else if sp_DeviceID p == "" then Err (txt "device.device_id is required")
  else if sp_ClientType p == "" then Err (txt "device.client_type is required")
  else if sp_Codec p == "" then Err (txt "audio.codec is required")
  else if negb (sp_Codec p == rp_InputCodec profile) && negb (AllowOpus profile && (sp_Codec p == txt "opus"))
  then Err (txt "unsupported codec " ++ sp_Codec p)
  else if negb (sp_SampleRateHz p =? rp_InputSampleRate profile) then Err (txt "unsupported sample_rate_hz " ++ Itoa (sp_SampleRateHz p))
  else if negb (sp_Channels p =? rp_InputChannels profile) then Err (txt "unsupported channels " ++ Itoa (sp_Channels p))
  else if sp_Mode p == "" then Err (txt "session.mode is required")
  else validatePlaybackAckMode (playbackAckMode (sp_Capabilities p)).

(** The request a start payload makes of the session. *)
Definition start_request_of (sessionID : text) (p : sessionStartPayload) : StartRequest :=
  {| req_RequestedSessionID := sessionID; req_DeviceID := sp_DeviceID p; req_ClientType := sp_ClientType p;
     req_FirmwareVersion := sp_FirmwareVersion p; req_Mode := sp_Mode p; req_InputCodec := sp_Codec p;
     req_InputSampleRate := sp_SampleRateHz p; req_InputChannels := sp_Channels p; req_ClientCanEnd := sp_ClientCanEnd p;
     req_ServerCanEnd := sp_ServerCanEnd p |}.

Definition handleSessionStart (sessionID : text) (decoded : result text sessionStartPayload) : gw handler_end :=
  match decoded with
  | Err e => refuse sessionID "invalid_session_start" e false
  | Ok p =>
      match validateStartPayload p with
      | Err e => refuse sessionID "unsupported_session_start" e false
      | Ok _ =>
          match NewInputNormalizer (sp_Codec p) (rp_InputSampleRate profile) (rp_InputChannels profile) with
          | Err e => refuse sessionID "unsupported_session_start" e false
          | Ok n =>
              let* started := ask_session (fun now => Start now (start_request_of sessionID p)) in
              match started with
              | Err e => refuse sessionID "session_already_active" (session_error e) false
              | Ok snapshot =>
                  gw_update (fun g : runtime => g <|gw_normalizer := Some n|>
                    <|gw_collaboration := negotiateVoiceCollaboration profile (sp_Capabilities p)|>) ;;
                  clearAck ;;
                  applyReadDeadline profile snapshot ;;
                  finished (WriteEvent (sessionUpdateFromSnapshot (SessionID snapshot) snapshot "" ""))
              end
          end
      end
  end.

(** The frames staged while the server spoke become the user's turn. *)
Definition commit_during_speaking (ended : ending) (reason : text) : gw Snapshot :=
  interruptSpeakingFlowWithOptions clock profile
    (mkInterruptOptions false false (ByPolicy InterruptionPolicyHardInterrupt
       (firstNonEmptyValue [TrimSpace reason; txt "explicit_commit_during_speaking"]))) ended None (Some write_active) ;;
  flush_pending.

Definition commit_active (r : responder) (ended : ending) (sessionID reason : text) (snapshot : Snapshot) : gw handler_end :=
  if negb (bool_decide (Snap_State snapshot = StateActive))
  then refuse sessionID "turn_not_ready" "audio.in.commit is accepted only while the session is active" true
  else
    let* consumed := consumeInputPreview clock in
    let* turn := ask_session CommitTurn in
    match turn with
    | Err _ => refuse sessionID "session_not_started" "cannot commit audio before session.start" true
    | Ok turn =>
        resetPending ;;
        accept_turn r ended turn "audio_commit" (firstNonEmptyValue [TrimSpace reason; txt "audio_commit"]) ""
          (usable_preview (snd consumed))
    end.

Definition handleCommit (r : responder) (ended : ending) (sessionID : text) (decoded : result text text) : gw handler_end :=
  match decoded with
  | Err e => refuse sessionID "invalid_commit" e true
  | Ok reason => fun (g : runtime) =>
      let snapshot := Snapshot_ (gw_session g) in
      (if bool_decide (Snap_State snapshot = StateSpeaking) && hasPendingBargeInAudio (gw_barge g)
       then let* snapshot := commit_during_speaking ended reason in commit_active r ended sessionID reason snapshot
       else commit_active r ended sessionID reason snapshot) g
  end.

Definition no_session_for_text (sessionID : text) : gw (S := S) (P := P) handler_end :=
  refuse sessionID "session_not_started" "cannot send text before session.start" true.

Definition handleText (r : responder) (ended : ending) (sessionID : text) (decoded : result text text) : gw handler_end :=
  if negb (AllowTextInput profile) then refuse sessionID "text_input_disabled" "text input is disabled on this server" true
  else
    match decoded with
    | Err e => refuse sessionID "invalid_text_input" e true
    | Ok s => fun (g : runtime) =>
        (gw_when (bool_decide (Snap_State (Snapshot_ (gw_session g)) = StateSpeaking))
           (interruptSpeakingFlowWithOptions clock profile
              (mkInterruptOptions true true (ByPolicy InterruptionPolicyHardInterrupt "text_input_during_speaking"))
              ended None (Some write_active)) ;;
         let* accepted := ask_session AcceptText in
         match accepted with
         | Err _ => no_session_for_text sessionID
         | Ok _ =>
             clearInputPreview clock ;;
             let* turn := ask_session CommitTurn in
             match turn with
             | Err _ => no_session_for_text sessionID
             | Ok turn => accept_turn r ended turn "text_input" "text_input" s None
             end
         end) g
    end.

Definition handleClientEnd (ended : ending) (sessionID : text) (decoded : result text (text * text)) : gw handler_end :=
  match decoded with
  | Err e => refuse sessionID "invalid_session_end" e true
  | Ok (reason, message) =>
      interruptOutput ended ;;
      let reason := reason_of_text (defaultCloseReason reason (reason_text CloseReasonClientStop)) in
      let* closed := gw_try (endSession clock profile reason message) in
      match closed with
      | Ok _ => gw_ret Returned
      | Err e =>
          if e == session_error ErrNoActiveSession
          then refuse sessionID "session_not_started" "cannot end a session that is not active" true
          else gw_fail e
      end
  end.

Definition handleSessionUpdate (ended : ending) (sessionID : text) (decoded : option (result text bool)) : gw handler_end :=
  match decoded with
  | Some (Err e) => refuse sessionID "invalid_session_update" e true
  | _ => fun (g : runtime) =>
      let interrupt := match decoded with Some (Ok b) => b | _ => false end in
      let snapshot := Snapshot_ (gw_session g) in
      finished
        (if SessionID snapshot == "" then
           WriteEvent (ErrorEvent sessionID "session_not_started" "session.update cannot be processed before session.start" true)
         else if interrupt && bool_decide (Snap_State snapshot = StateSpeaking) then
           interruptSpeakingFlowWithOptions clock profile
             (mkInterruptOptions true true (ByPolicy InterruptionPolicyHardInterrupt "client_interrupt_hint"))
             ended None (Some write_active)
         else WriteEvent (sessionUpdateFromSnapshot (SessionID snapshot) snapshot "" "")) g
  end.

(** ** Acknowledgements *)

(** The part of the runtime the handlers of PlaybackAck work on. *)
Definition ack_connection (g : runtime) : PlaybackAck.connection S P :=
  PlaybackAck.mkConnection (gw_ack g) (gw_voice g) (SessionID (Snapshot_ (gw_session g)))
    (bool_decide (Snap_State (Snapshot_ (gw_session g)) = StateSpeaking)) (PlaybackAckEnabled (gw_collaboration g)).

Definition after_ack (c : PlaybackAck.connection S P) (g : runtime) : runtime :=
  g <|gw_ack := conn_ack c|> <|gw_voice := voiceSession c|>.

Definition on_ack (f : instant -> PlaybackAck.connection S P -> PlaybackAck.connection S P) : gw unit :=
  let* now := gw_now clock in gw_update (fun g : runtime => after_ack (f now (ack_connection g)) g).

(** A cleared playback that still speaks is interrupted. *)
Definition playback_cleared (ended : ending) (p : ackPayload) : gw unit :=
  let* now := gw_now clock in
  fun (g : runtime) =>
    let '(c, reason) := recordPlaybackAckCleared now (ak_ResponseID p) (ak_PlaybackID p) (ak_SegmentID p) (ak_Reason p) (ack_connection g) in
    match reason with
    | None => gw_ret tt
    | Some reason =>
        interruptSpeakingFlowWithOptions clock profile (mkInterruptOptions false false (ByPolicy InterruptionPolicyHardInterrupt reason))
          ended None (Some write_active)
    end (after_ack c g).

Definition handle_ack (sessionID code : text) (decoded : result text ackPayload) (f : ackPayload -> gw unit)
    : gw (S := S) (P := P) handler_end :=
  match decoded with
  | Err e => refuse sessionID code e true
  | Ok p => finished (f p)
  end.

Definition handleAudioOutStarted (sessionID : text) (decoded : result text ackPayload) : gw handler_end :=
  handle_ack sessionID "invalid_audio_out_started" decoded
    (fun p => on_ack (fun now => recordPlaybackAckStarted now (ak_ResponseID p) (ak_PlaybackID p))).
Definition handleAudioOutMark (sessionID : text) (decoded : result text ackPayload) : gw handler_end :=
  handle_ack sessionID "invalid_audio_out_mark" decoded
    (fun p => on_ack (fun now => recordPlaybackAckMark now (ak_ResponseID p) (ak_PlaybackID p) (ak_SegmentID p) (ak_PlayedDurationMs p))).
Definition handleAudioOutCleared (ended : ending) (sessionID : text) (decoded : result text ackPayload) : gw handler_end :=
  handle_ack sessionID "invalid_audio_out_cleared" decoded (playback_cleared ended).
Definition handleAudioOutCompleted (sessionID : text) (decoded : result text ackPayload) : gw handler_end :=
  handle_ack sessionID "invalid_audio_out_completed" decoded
    (fun p => on_ack (fun now => recordPlaybackAckCompleted now (ak_ResponseID p) (ak_PlaybackID p))).

(** ** The connection *)

Definition handleControl (r : responder) (ended : ending) (frame : option controlEnvelope) : gw handler_end :=
  match frame with
  | None => refuse "" "invalid_json" "control frame is not valid json" true
  | Some (mkEnvelope sessionID payload) =>
      match payload with
      | TypeSessionStart p => handleSessionStart sessionID p
      | TypeAudioInCommit p => handleCommit r ended sessionID p
      | TypeTextIn p => handleText r ended sessionID p
      | TypeSessionEnd p => handleClientEnd ended sessionID p
      | TypeSessionUpdate p => handleSessionUpdate ended sessionID p
      | TypeAudioOutStarted p => handleAudioOutStarted sessionID p
      | TypeAudioOutMark p => handleAudioOutMark sessionID p
      | TypeAudioOutCleared p => handleAudioOutCleared ended sessionID p
      | TypeAudioOutCompleted p => handleAudioOutCompleted sessionID p
      | TypeOther name =>
          refuse sessionID "unsupported_event" (txt "event " ++ name ++ txt " is not implemented in bootstrap handler") true
      end
  end.

(** The answer to a read error: [true] when it was handled. *)
Definition handleReadError (ended : ending) (timeout : bool) : gw (S := S) (P := P) bool :=
  if negb timeout then gw_ret false
  else
    let* now := gw_now clock in
    fun (g : runtime) =>
      let snapshot := Snapshot_ (gw_session g) in
      let close reason := interruptOutput ended ;; endSession clock profile reason (closeMessageForReason reason) ;; gw_ret true in
      match deadlineCloseReason snapshot profile now with
      | None => if SessionID snapshot == "" then (g, Ok true) else close CloseReasonError g
      | Some reason => close reason g
      end.

Definition handleInboundMessage (r : responder) (ended : ending) (inbound : websocketInboundMessage) : gw handler_end :=
  match inbound with
  | InboundError timeout err =>
      let* handled := handleReadError ended timeout in
      if handled : bool then gw_ret Returned else gw_fail err
  | TextMessage frame =>
      let* done_ := gw_try (handleControl r ended frame) in
      match done_ with
      | Ok x => gw_ret x
      | Err e =>
          if (e == session_error ErrNoActiveSession) || (e == session_error ErrSessionAlreadyActive) then gw_ret Returned else gw_fail e
      end
  | BinaryMessage payload => finished (handleBinary ended payload)
  | OtherMessage => fun (g : runtime) =>
      refuse (SessionID (Snapshot_ (gw_session g))) "unsupported_message_type" "only text and binary websocket frames are supported" true g
  end.

End Handlers.
