(* ===== verification/ConnectionInvariant.v ===== *)
(** * What holds of a connection at any time
      (the handlers of internal/gateway/realtime_ws.go, composed)

    A connection is taken from one state to the next by a message, by a tick of the
    preview, or by what its playback goroutine does.  Whatever arrives, whatever the
    responder, the recognizer, the decoder and the socket answer, the parts of the
    runtime stay what the other files assume of them. *)

From S2P Require Import Prelude GoText GoFloat Contracts Lexical BargeIn Playback Memory Session Orchestrator PlaybackAck BargeInRuntime.
From S2P Require Import Rollout Audio InputAudio TurnTrace GatewayProfile OutputEffects TurnResponse TurnFlow OutputFlow InputFlow TurnRun.
From S2P Require Import RealtimeHandler.

(** ** A flow keeps what its callbacks keep *)

Section Flow_keeps.

Context {A W : Type} `{!TurnWorld W} (I : W -> Prop) (opts : turnExecutionOptions (A := A) (W := W)).

Definition callback_keeps (f : callback (A := A) (W := W)) : Prop := forall fx w, I w -> I (f fx w).1.

Record options_keep : Prop := {
  ok_clock : forall w, I w -> I (read_clock w).1;
  ok_traces : forall t w, I w -> I (with_traces t w);
  ok_start : forall f, xo_EmitResponseStart opts = Some f -> callback_keeps f;
  ok_delta : forall f, xo_EmitResponseDelta opts = Some f -> callback_keeps f;
  ok_audio : forall f, xo_StartResponseAudio opts = Some f -> callback_keeps f;
  ok_text : forall f, xo_OnTextDeltaCollected opts = Some f -> forall trace s w, I w -> I (f trace s w)
}.

Definition flow_keeps (m : flow (A := A) (W := W) unit) : Prop := forall s, I (fl_world s) -> I (fl_world (m s).1).

Lemma flow_keeps_bind m k : flow_keeps m -> flow_keeps k -> flow_keeps (flow_bind m (fun _ => k)).
Proof. intros Hm Hk s Hs. unfold flow_bind. specialize (Hm s Hs). destruct (m s) as [s1 [x|e]]; [by apply Hk|done]. Qed.

Lemma flow_keeps_modify f : (forall s, I (fl_world s) -> I (fl_world (f s))) -> flow_keeps (modify f).
Proof. intros Hf s Hs. by apply Hf. Qed.

Lemma flow_keeps_read (m : flow_state -> flow unit) : (forall s, flow_keeps (m s)) -> flow_keeps (fun s => m s s).
Proof. intros H s. by apply H. Qed.

Lemma flow_keeps_unless (c : flow_state -> bool) m : flow_keeps m -> flow_keeps (fun s => if c s then (s, Ok tt) else m s).
Proof. intros Hm s Hs. destruct (c s); [done|by apply Hm]. Qed.

Lemma flow_keeps_ret x : flow_keeps (flow_ret x).
Proof. by intros s Hs. Qed.

Lemma flow_keeps_call f fx : (forall g, f = Some g -> callback_keeps g) -> flow_keeps (call f fx).
Proof.
  intros Hf s Hs. unfold call. destruct f as [f|]; [|done]. specialize (Hf f eq_refl fx _ Hs). destruct (f fx (fl_world s)) as [w r].
  cbn [fst] in Hf. destruct r; cbn [fst]; by read_fields.
Qed.

Context (OK : options_keep).

Lemma flow_keeps_start id mods : flow_keeps (start_response opts id mods).
Proof.
  unfold start_response. apply flow_keeps_bind.
  - apply flow_keeps_modify. intros s Hs. pose proof (ok_clock OK _ Hs) as Hc. destruct (read_clock _) as [w now].
    destruct (MarkResponseStart _ _). read_fields. by apply (ok_traces OK).
  - apply (flow_keeps_read (fun s => call _ (CallResponseStart (fl_trace s) id mods (fl_response s)))). intros s.
    apply flow_keeps_call, (ok_start OK).
Qed.

Lemma flow_keeps_once id mods : flow_keeps (start_response_once opts id mods).
Proof.
  unfold start_response_once. apply flow_keeps_unless, flow_keeps_bind; [apply flow_keeps_start|].
  apply flow_keeps_modify. intros s Hs. by read_fields.
Qed.

Lemma flow_keeps_delta id d : flow_keeps (emitTurnResponseDelta opts id d).
Proof.
  unfold emitTurnResponseDelta. apply flow_keeps_bind; [|apply flow_keeps_call, (ok_delta OK)].
  apply flow_keeps_modify. intros s Hs. destruct (negb (is_text_delta d)); [done|]. pose proof (ok_clock OK _ Hs) as Hc.
  destruct (read_clock _) as [w now]. destruct (markTurnFirstTextDelta _ _ _ _). read_fields. by apply (ok_traces OK).
Qed.

Lemma flow_keeps_deltas id ds : flow_keeps (emit_response_deltas opts id ds).
Proof. induction ds as [|d ds IH]; [apply flow_keeps_ret|]. cbn [emit_response_deltas]. apply flow_keeps_bind; [apply flow_keeps_delta|exact IH]. Qed.

Lemma flow_keeps_text cond : flow_keeps (text_collected opts cond).
Proof.
  intros s Hs. unfold text_collected. destruct (xo_OnTextDeltaCollected opts) as [f|] eqn:E; [|done]. destruct (cond s); [|done].
  cbn [fst]. read_fields. by apply (ok_text OK _ E).
Qed.

Lemma flow_keeps_response id : flow_keeps (emit_response opts id).
Proof.
  unfold emit_response. apply (flow_keeps_read (fun s => emit_whole opts id (responseDeltasForEmission (fl_response s) true))).
  intros s0. unfold emit_whole. apply flow_keeps_bind.
  { apply (flow_keeps_read (fun s => start_response opts id (responseModalities _ (fl_response s)))). intros s. apply flow_keeps_start. }
  apply flow_keeps_bind; [apply flow_keeps_deltas|]. apply flow_keeps_bind; [|apply flow_keeps_text].
  apply flow_keeps_modify. intros s Hs. by read_fields.
Qed.

Lemma resolve_world (s : flow_state (A := A) (W := W)) : I (fl_world s) -> I (fl_world (resolveCompletion s)).
Proof. intros Hs. unfold resolveCompletion. destruct (fl_completion s); [|done]. destruct (fl_ready s); [by read_fields|done]. Qed.

Lemma flow_keeps_select id mods c : (forall f, c = Meanwhile f -> forall w, I w -> I (f w)) -> flow_keeps (on_select opts id mods c).
Proof.
  intros Hm. assert (Hfail : forall e, flow_keeps (fail_flow e)) by (intros e s Hs; unfold fail_flow; cbn [fst]; by read_fields).
  destruct c as [d| |[[start|]|e]|[r|e]|f]; cbn [on_select].
  - unfold on_delta. apply flow_keeps_bind; [apply flow_keeps_modify; intros s Hs; by read_fields|].
    apply flow_keeps_bind; [apply flow_keeps_once|]. apply flow_keeps_bind; [apply flow_keeps_delta|apply flow_keeps_text].
  - apply flow_keeps_modify. intros s Hs. by read_fields.
  - apply flow_keeps_bind; [apply flow_keeps_modify; intros s Hs; by read_fields|]. unfold on_audio_start. apply flow_keeps_bind.
    { apply (flow_keeps_read (fun s => start_response_once opts id (modalitiesForAudioStart start (fl_seen s)))). intros. apply flow_keeps_once. }
    apply flow_keeps_bind; [apply flow_keeps_modify; intros s Hs; by read_fields|]. apply flow_keeps_bind.
    + apply (flow_keeps_read (fun s => call _ (CallStartAudio (fl_trace s) id (wrapResponseAudioStart start)
        (aggregatedTextForAudioStart (fl_parts s) start)))). intros s. apply flow_keeps_call, (ok_audio OK).
    + apply flow_keeps_modify. intros s Hs. apply resolve_world. by read_fields.
  - apply flow_keeps_bind; apply flow_keeps_modify; intros s Hs; [by read_fields|by apply resolve_world].
  - apply flow_keeps_bind; [apply flow_keeps_modify; intros s Hs; by read_fields|apply Hfail].
  - apply flow_keeps_bind; [apply flow_keeps_modify; intros s Hs; by read_fields|]. unfold on_response. apply flow_keeps_bind.
    + apply flow_keeps_modify. intros s Hs. apply resolve_world. destruct (fl_completion _); by read_fields.
    + apply flow_keeps_unless, flow_keeps_bind; [apply flow_keeps_response|]. apply flow_keeps_modify. intros s Hs. by read_fields.
  - apply flow_keeps_bind; [apply flow_keeps_modify; intros s Hs; by read_fields|apply Hfail].
  - apply flow_keeps_modify. intros s Hs. read_fields. by apply (Hm f).
Qed.

(** What the run of a responder contributes to the world by itself. *)
Definition run_keeps (run : responder_run (A := A) (W := W)) : Prop :=
  match run with
  | Orchestrating _ cases | StreamingOnly cases => forall f, Meanwhile f ∈ cases -> forall w, I w -> I (f w)
  | Responding _ => True
  end.

Lemma loop_keeps id mods cases s :
  (forall f, Meanwhile f ∈ cases -> forall w, I w -> I (f w)) -> I (fl_world s) -> I (fl_world (select_loop opts id mods cases s).1).
Proof.
  revert s. induction cases as [|c cases IH]; intros s Hc Hs; cbn [select_loop]; (destruct (negb (channels_open s)); [done|]); [done|].
  assert (H : I (fl_world (on_select opts id mods c s).1)).
  { apply flow_keeps_select; [|done]. intros f ->. apply Hc, list_elem_of_here. }
  destruct (on_select opts id mods c s) as [s1 [x|e]]; [|done]. apply IH; [|done]. intros f Hf. by apply Hc, list_elem_of_further.
Qed.

Lemma finish_keeps id epilogue o :
  (forall s : flow_state (A := A) (W := W), fl_world (epilogue s) = fl_world s) -> I (fl_world o.1) -> I (fl_world (finish_flow id epilogue o).1).
Proof. intros He. destruct o as [s [[x|e]|]]; cbn [finish_flow fst]; intros H; [by rewrite He|done|done]. Qed.

Lemma keep_or_cancel_world keep (s : flow_state (A := A) (W := W)) : fl_world (keep_or_cancel keep s) = fl_world s.
Proof. unfold keep_or_cancel. destruct (rsp_AudioStream _), keep; by read_fields. Qed.

Lemma execution_keeps run w trace : run_keeps run -> I w -> I (fl_world (executeTurnResponse opts run w trace).1).
Proof.
  intros Hr Hw. unfold executeTurnResponse. pose proof (ok_clock OK _ Hw) as Hc.
  destruct (if TrimSpace (xo_ResponseID opts) == "" then _ else _) as [w1 id] eqn:E.
  assert (Hw1 : I w1) by (destruct (TrimSpace _ == ""); [destruct (read_clock w); by injection E as <- _|by injection E as <- _]).
  destruct run as [[e|] cases|cases|[r|e]]; cbn [run_keeps] in Hr.
  - unfold executeOrchestratedTurnResponse. cbn [fst]. by read_fields.
  - unfold executeOrchestratedTurnResponse. cbv zeta. apply finish_keeps; [intros; apply keep_or_cancel_world|]. by apply loop_keeps.
  - apply finish_keeps; [intros; apply keep_or_cancel_world|]. by apply loop_keeps.
  - pose proof (flow_keeps_response id ((flow_begin w1 trace false) <|fl_response := from_responder r|>)) as H.
    destruct (emit_response opts id _) as [s [x|e]]; apply H; by read_fields.
  - exact Hw1.
Qed.

End Flow_keeps.

(** ** The invariant *)

(** The staged frames are not empty, and their bytes are counted. *)
Definition pending_ok (p : pendingBargeInAudio) : Prop :=
  Forall (fun c => c <> []) (pending_chunks p) /\ pending_audioBytes p = i64 (len (concat (pending_chunks p))).

Record connection_inv {S P : Type} `{!MemoryStore S} `{!PreviewSession P} (profile : RealtimeProfile) (g : gateway S P) : Prop := {
  ci_session : reachable (gw_session g);
  ci_voice : orch_inv (gw_voice g);
  ci_pending : pending_ok (pendingBargeIn (gw_barge g));
  ci_format : match gw_normalizer g with
              | Some n => active (gw_session g) = true /\ OutputSampleRate n = rp_InputSampleRate profile /\
                          OutputChannels n = rp_InputChannels profile
              | None => active (gw_session g) = false
              end;
  ci_output : forall o, gw_output g = Some o -> 0 < os_id o <= gw_outputs g;
  ci_outputs : 0 <= gw_outputs g
}.

(** [newConnectionRuntime]. *)
Definition newConnectionRuntime {S P : Type} (store : S) : gateway S P :=
  mkGateway (mkRuntime NewRealtimeSession zero_pending) (NewSessionOrchestrator store) zero_turnTraceState zero_previewTraceState
    (mkNegotiation false "") zero_ack_state None 0 time_zero [] 0 None.

(** A method of the session that is one of its steps and neither opens nor resets it. *)
Definition session_ok {X} (f : instant -> RealtimeSession -> RealtimeSession * X) : Prop :=
  forall now s, reachable s -> reachable (f now s).1 /\ active (f now s).1 = active s.

Create HintDb conn.

Lemma ok_set_output st : session_ok (fun now => SetOutputState now st).
Proof.
  intros now s Hs. split; [exact (reachable_step s now (OpSetOutput st) Hs)|].
  unfold SetOutputState. destruct (active s) eqn:E; [|done]. cbn [negb fst]. unfold rederive. by read_fields.
Qed.
Lemma ok_set_input st : session_ok (fun now => SetInputState now st).
Proof.
  intros now s Hs. split; [exact (reachable_step s now (OpSetInput st) Hs)|].
  unfold SetInputState. destruct (active s) eqn:E; [|done]. cbn [negb fst]. unfold rederive. by read_fields.
Qed.
Lemma ok_set_state st : session_ok (fun now => SetState now st).
Proof.
  intros now s Hs. split; [exact (reachable_step s now (OpSetState st) Hs)|].
  unfold SetState. destruct (active s) eqn:E; [|done]. cbn [negb fst]. unfold rederive. by read_fields.
Qed.
Lemma ok_end reason : session_ok (fun now => End_ now reason).
Proof.
  intros now s Hs. split; [exact (reachable_step s now (OpEnd reason) Hs)|].
  unfold End_. destruct (active s) eqn:E; [|done]. cbn [negb fst]. unfold rederive. by read_fields.
Qed.
Lemma ok_accept_text : session_ok AcceptText.
Proof.
  intros now s Hs. split; [exact (reachable_step s now OpAcceptText Hs)|].
  unfold AcceptText. destruct (active s) eqn:E; [|done]. cbn [negb fst]. unfold rederive. by read_fields.
Qed.
Lemma ok_commit : session_ok CommitTurn.
Proof.
  intros now s Hs. split.
  - exact (reachable_step s now OpCommit Hs).
  - unfold CommitTurn. destruct (active s) eqn:E; [|done]. cbn [negb fst]. unfold rederive. by read_fields.
Qed.
Lemma ok_ingest pcm : session_ok (fun now => IngestOwnedAudioFrame now pcm).
Proof.
  intros now s Hs. split; [exact (reachable_step s now (OpIngestOwned pcm) Hs)|].
  unfold IngestOwnedAudioFrame. destruct (active s) eqn:E; [|done]. cbn. unfold rederive. by read_fields.
Qed.
Lemma ok_clear_preview : session_ok (fun now s => (clearInputPreview_session now s, tt)).
Proof.
  intros now s Hs. cbn [fst]. unfold clearInputPreview_session. cbv zeta. destruct (_ && _); [|done]. by apply ok_set_input.
Qed.
Lemma ok_clear_turn : session_ok (fun now s => (ClearTurn now s, tt)).
Proof. intros now s Hs. split; [exact (reachable_step s now OpClearTurn Hs)|done]. Qed.
#[export] Hint Resolve ok_set_output ok_set_input ok_set_state ok_end ok_accept_text ok_commit ok_ingest : conn.

(** ** Computations keep it *)

Section Keeping.

Context {S P B : Type} `{!MemoryStore S} `{!PreviewSession P} {PV : Previewer P} {OD : OpusDecoder} {CN : Connection}.
Context (clock : nat -> instant) (profile : RealtimeProfile) (static : list bytes -> B) (duration_of : B -> duration -> option duration).

Abbreviation runtime := (gateway S P).
Abbreviation inv := (connection_inv (S := S) (P := P) profile).

Abbreviation kept m := (keeps (S := S) (P := P) inv m).


Lemma kept_use {A} (m : gw A) (g : runtime) : kept m -> inv g -> inv (m g).1.
Proof. intros Hm Hg. exact (Hm g Hg). Qed.

(** Nothing the invariant is about changes. *)
Lemma inv_same (g g' : runtime) :
  gw_barge g' = gw_barge g -> gw_voice g' = gw_voice g -> gw_normalizer g' = gw_normalizer g -> gw_output g' = gw_output g ->
  gw_outputs g' = gw_outputs g -> inv g -> inv g'.
Proof.
  intros E1 E2 E3 E4 E5 [H1 H2 H3 H4 H5 H6]. unfold gw_session in *. split; unfold gw_session; rewrite ?E1, ?E2, ?E3, ?E5; try done.
  intros o. rewrite E4. apply H5.
Qed.

Ltac same := eapply inv_same; [..|eassumption]; by read_fields.

Lemma kept_ret {A} (a : A) : kept (gw_ret a).
Proof. by intros g Hg. Qed.
Lemma kept_fail {A} e : kept (gw_fail (A := A) e).
Proof. by intros g Hg. Qed.
Lemma kept_get {A} (f : runtime -> A) : kept (gw_get f).
Proof. by intros g Hg. Qed.
Lemma kept_now : kept (gw_now clock).
Proof. intros g Hg. unfold ends, gw_now. cbn [fst]. same. Qed.
Lemma kept_write e : kept (WriteEvent e).
Proof. intros g Hg. unfold ends, WriteEvent. cbv zeta. destruct (write_error _); cbn [fst]; same. Qed.
Lemma kept_deadline snapshot : kept (applyReadDeadline profile snapshot).
Proof. intros g Hg. unfold ends, applyReadDeadline. cbv zeta. destruct (deadline_error _ _); cbn [fst]; [done|same]. Qed.
Lemma kept_clear_ack : kept clearAck.
Proof. intros g Hg. unfold ends, clearAck, gw_update. cbn [fst]. same. Qed.
Lemma kept_clear_trace : kept clearTrace.
Proof. intros g Hg. unfold ends, clearTrace, gw_update. cbn [fst]. same. Qed.
#[local] Hint Resolve kept_ret kept_fail kept_get kept_now kept_write kept_deadline kept_clear_ack kept_clear_trace : conn.

Lemma kept_when b m : kept m -> kept (gw_when b m).
Proof. intros H. unfold gw_when. by destruct b; [|apply kept_ret]. Qed.
Lemma kept_opt {A} (o : option (gw A)) a : (forall m, o = Some m -> kept m) -> kept (gw_opt o a).
Proof. intros H. unfold gw_opt. destruct o; [by apply H|apply kept_ret]. Qed.
Lemma kept_try {A} (m : gw A) : kept m -> kept (gw_try m).
Proof. intros H g Hg. unfold ends, gw_try. specialize (H g Hg). unfold ends in H. by destruct (m g). Qed.
#[local] Hint Resolve kept_when kept_try : conn.

Lemma kept_trace f : kept (on_trace clock f).
Proof.
  unfold on_trace. apply keeps_bind; [apply kept_now|]. intros now g Hg. unfold ends. destruct (f now (gw_traces g)) as [t tr]. cbn [fst]. same.
Qed.

Lemma kept_voice f : (forall o, orch_inv o -> orch_inv (f o)) -> kept (on_voice f).
Proof.
  intros Hf g [H1 H2 H3 H4 H5 H6]. unfold ends, on_voice, gw_update, gw_session in *. cbn [fst].
  split; unfold gw_session; read_fields; try done. by apply Hf.
Qed.

Lemma set_session_inv (s : RealtimeSession) (g : runtime) :
  reachable s -> active s = active (gw_session g) -> inv g -> inv (OutputFlow.set_session s g).
Proof.
  intros Hs Ha [H1 H2 H3 H4 H5 H6]. unfold OutputFlow.set_session, gw_session in *. split; unfold gw_session; read_fields; try done.
  cbn [rt_session]. by rewrite Ha.
Qed.

Lemma kept_on_session f : session_ok f -> kept (on_session clock f).
Proof.
  intros Hf. unfold on_session. apply keeps_bind; [apply kept_now|]. intros now g Hg. unfold ends.
  destruct (Hf now (gw_session g) (ci_session _ _ Hg)) as [H1 H2]. destruct (f now (gw_session g)) as [s r]. cbn [fst] in *.
  by apply set_session_inv.
Qed.

Lemma kept_ask_session {X} (f : instant -> RealtimeSession -> RealtimeSession * result Error X) : session_ok f -> kept (ask_session clock f).
Proof.
  intros Hf. unfold ask_session. apply keeps_bind; [apply kept_now|]. intros now g Hg. unfold ends.
  destruct (Hf now (gw_session g) (ci_session _ _ Hg)) as [H1 H2]. destruct (f now (gw_session g)) as [s r]. cbn [fst] in *.
  by apply set_session_inv.
Qed.

(** A change of the session that cannot fail. *)
Lemma kept_session_update now f :
  session_ok (fun now s => (f now s, tt)) -> kept (gw_update (fun g : runtime => OutputFlow.set_session (f now (gw_session g)) g)).
Proof. intros Hf g Hg. destruct (Hf now (gw_session g) (ci_session _ _ Hg)) as [H1 H2]. by apply set_session_inv. Qed.
#[local] Hint Resolve kept_trace kept_voice kept_on_session kept_ask_session : conn.

Lemma voice_step e (o : SessionOrchestrator S P) : orch_inv o -> orch_inv (orch_step o e).
Proof. apply orch_step_inv. Qed.

Lemma kept_pending : kept resetPending.
Proof.
  intros g [H1 H2 H3 H4 H5 H6]. unfold ends, resetPending, gw_update, resetPendingBargeInAudio, gw_session in *. cbn [fst].
  split; unfold gw_session; read_fields; try done.
Qed.

Lemma kept_clear_preview : kept (clearInputPreview clock).
Proof.
  unfold clearInputPreview. apply keeps_bind.
  - intros g [H1 H2 H3 H4 H5 H6]. unfold ends, gw_update, gw_session in *. cbn [fst]. split; unfold gw_session; read_fields; try done.
  - intros _. apply keeps_bind; [apply kept_now|]. intros now. apply (kept_session_update now clearInputPreview_session), ok_clear_preview.
Qed.
#[local] Hint Resolve kept_pending kept_clear_preview : conn.

(** ** The output *)

Lemma kept_outputs (f : runtime -> runtime) :
  (forall g, gw_barge (f g) = gw_barge g /\ gw_voice (f g) = gw_voice g /\ gw_normalizer (f g) = gw_normalizer g /\ gw_outputs (f g) = gw_outputs g /\
     forall o, gw_output (f g) = Some o -> exists o', gw_output g = Some o' /\ os_id o = os_id o') -> kept (gw_update f).
Proof.
  intros Hf g [H1 H2 H3 H4 H5 H6]. destruct (Hf g) as (E1 & E2 & E3 & E4 & E5). unfold ends, gw_update, gw_session in *. cbn [fst].
  split; unfold gw_session; rewrite ?E1, ?E2, ?E3, ?E4; try done.
  intros o Ho. destruct (E5 o Ho) as (o' & Ho' & ->). by apply H5.
Qed.

Lemma kept_clear_output id : kept (clearOutput id).
Proof.
  apply kept_outputs. intros g. destruct (gw_output g) as [o|] eqn:E; [destruct (os_id o =? id)|]; read_fields; repeat (split; [done|]);
    rewrite ?E; intros o' Ho'; naive_solver.
Qed.

Lemma kept_ended id : kept (playback_ended id).
Proof. apply keeps_bind; [apply kept_clear_ack|]. intros _. apply kept_clear_output. Qed.

Lemma kept_install completion : kept (installOutput completion).
Proof.
  intros g [H1 H2 H3 H4 H5 H6]. unfold ends, installOutput, gw_session in *. cbn [fst]. split; unfold gw_session; read_fields; try done; try lia.
  intros o [= <-]. cbn [os_id]. lia.
Qed.
#[local] Hint Resolve kept_clear_output kept_ended kept_install : conn.

Lemma kept_interrupt policy reason ended :
  (forall m, ended = Some m -> kept m) -> kept (interruptOutputWithPolicy policy reason ended).
Proof.
  intros He g Hg. unfold ends, interruptOutputWithPolicy. destruct (gw_output g) as [o|] eqn:Eo; [|done].
  destruct (negb _); [done|]. set (g1 := g <|gw_output := Some (mkOutput (os_id o) true (os_completion o) (os_effects o))|>).
  assert (Hg1 : inv g1).
  { destruct Hg as [H1 H2 H3 H4 H5 H6]. subst g1. unfold gw_session in *. split; unfold gw_session; read_fields; try done.
    intros o' [= <-]. cbn [os_id]. by apply H5. }
  set (rest := gw_bind (match ended with Some last_words => gw_bind last_words (fun _ => playback_ended (os_id o)) | None => gw_ret tt end)
    (fun _ => gw_bind (on_voice (fun v => (if TrimSpace (policy_text policy) != "" then InterruptPlaybackWithPolicy policy reason v
                                           else InterruptPlayback v).1)) (fun _ => gw_ret true)) : gw bool).
  change (inv (rest g1).1). apply kept_use; [|exact Hg1]. subst rest. clear g1 Hg1.
  apply keeps_bind; [|intros _; apply keeps_bind; [|intros _; apply kept_ret]].
  - destruct ended as [m|]; [|apply kept_ret]. apply keeps_bind; [by apply He|]. intros _. apply kept_ended.
  - apply kept_voice. intros v Hv. destruct (_ != _); [apply (voice_step (OInterrupt policy reason) v Hv)|].
    apply (voice_step (OInterrupt _ _) v Hv).
Qed.

Definition ended_kept (ended : option (gw (S := S) (P := P) unit)) : Prop := forall m, ended = Some m -> kept m.

Lemma kept_interrupt_output ended : ended_kept ended -> kept (interruptOutput ended).
Proof. apply kept_interrupt. Qed.
#[local] Hint Resolve kept_interrupt_output : conn.

Lemma kept_directive directive : kept (applyOutputDirective clock directive).
Proof.
  intros g Hg. unfold ends, applyOutputDirective. destruct (gw_output g) as [o|] eqn:Eo; [|done].
  set (rest := fun (now : instant) (g : runtime) =>
    let '(effects, applied) := ApplyDirective directive now (os_effects o) in
    let g := g <|gw_output := Some (mkOutput (os_id o) (os_cancelled o) (os_completion o) effects)|> in
    if negb applied then (g, Ok false)
    else (g <|gw_voice := RecordInterruptionPolicy (pd_Policy directive) (pd_Reason directive) (gw_voice g)|>, Ok (E := text) true)).
  change (inv (rest (clock (gw_reads g)) (g <|gw_reads := Datatypes.S (gw_reads g)|>)).1).
  assert (Hg1 : inv (g <|gw_reads := Datatypes.S (gw_reads g)|>)) by same.
  assert (Eo1 : gw_output (g <|gw_reads := Datatypes.S (gw_reads g)|>) = Some o) by (by read_fields).
  set (g1 := g <|gw_reads := _|>) in *. clearbody g1. clear Hg Eo. subst rest. cbv beta.
  destruct (ApplyDirective directive _ _) as [effects applied]. destruct Hg1 as [H1 H2 H3 H4 H5 H6]. unfold gw_session in *.
  destruct applied; cbn [negb fst]; (split; unfold gw_session; read_fields; try done);
    [by apply (voice_step (ORecord (pd_Policy directive) (pd_Reason directive)))|..]; intros o' [= <-]; cbn [os_id]; by apply H5.
Qed.

Lemma kept_interrupt_speaking snapshot opts ended onInterrupted onReturnActive :
  ended_kept ended -> (forall m, onInterrupted = Some m -> kept m) -> (forall f, onReturnActive = Some f -> forall t a, kept (f t a)) ->
  kept (interrupt_speaking clock profile snapshot opts ended onInterrupted onReturnActive).
Proof.
  intros He Hi Ha. unfold interrupt_speaking. apply keeps_bind.
  { unfold ask_interrupt, interruptOutputWithDecision. destruct (By opts); [by apply kept_interrupt_output|by apply kept_interrupt|].
    destruct (_ != _); [by apply kept_interrupt|by apply kept_interrupt_output]. }
  intros i. apply keeps_bind; [apply kept_when; by apply kept_opt|]. intros _. destruct (_ || _); [apply kept_ret|].
  apply keeps_bind; [eauto with conn|]. intros a. apply keeps_bind; [apply kept_trace|]. intros _.
  apply keeps_bind; [apply kept_trace|]. intros t. apply keeps_bind; [apply kept_when, kept_clear_preview|]. intros _.
  apply keeps_bind; [apply kept_when, kept_pending|]. intros _. apply keeps_bind; [apply kept_deadline|]. intros _.
  destruct onReturnActive as [f|]; [by apply Ha|apply kept_ret].
Qed.

Lemma kept_write_active t a : kept (write_active t a).
Proof. apply kept_write. Qed.

(** The interruptions of the handlers. *)
Lemma kept_interruption opts ended :
  ended_kept ended -> kept (interruptSpeakingFlowWithOptions clock profile opts ended None (Some write_active)).
Proof.
  intros He g Hg. unfold ends, interruptSpeakingFlowWithOptions. cbv zeta. destruct (_ && _); [done|].
  apply kept_use; [|done]. apply kept_interrupt_speaking; [done|done|]. intros f [= <-] t a. apply kept_write_active.
Qed.

(** ** The end of turns and sessions *)

Lemma kept_end_session reason message : kept (endSession clock profile reason message).
Proof.
  unfold endSession. apply keeps_bind; [eauto with conn|]. intros snapshot. apply keeps_bind; [apply kept_write|]. intros _.
  apply keeps_bind.
  { intros g [H1 H2 H3 H4 H5 H6]. unfold ends, gw_update, OutputFlow.set_session, gw_session in *. cbn [fst].
    split; unfold gw_session; read_fields; try done. exact (reachable_step _ time_zero OpReset H1). }
  intros _. apply keeps_bind; [apply kept_clear_preview|]. intros _. apply keeps_bind; [apply kept_clear_ack|]. intros _.
  apply keeps_bind; [intros g Hg; unfold ends, gw_update; cbn [fst]; same|]. intros _. apply keeps_bind; [apply kept_clear_trace|]. intros _.
  apply keeps_bind; [apply kept_get|]. intros s. apply kept_deadline.
Qed.
#[local] Hint Resolve kept_end_session : conn.

Lemma kept_terminate code message ended : ended_kept ended -> kept (terminateWithError clock profile code message ended).
Proof.
  intros He g Hg. unfold ends, terminateWithError. cbv zeta. apply kept_use; [|done]. apply keeps_bind; [apply kept_write|]. intros _.
  destruct (_ != _); [|apply kept_ret]. apply keeps_bind; [by apply kept_interrupt_output|]. intros _. apply kept_end_session.
Qed.
#[local] Hint Resolve kept_terminate : conn.

Lemma ingest_chunks_ok now chunks snapshot s :
  reachable s -> reachable (ingest_chunks now chunks snapshot s).1 /\ active (ingest_chunks now chunks snapshot s).1 = active s.
Proof.
  revert snapshot s. induction chunks as [|c chunks IH]; intros snapshot s Hs; cbn [ingest_chunks]; [done|].
  destruct (ok_ingest c now s Hs) as [H1 H2]. destruct (IngestOwnedAudioFrame now c s) as [s1 [sn|e]]; cbn [fst] in *; [|done].
  destruct (IH sn s1 H1) as [H3 H4]. by rewrite H4.
Qed.

(** The part of the runtime beside the session: it is as before or empty. *)
Definition barge_ok (b b' : connectionRuntime) : Prop :=
  reachable (rt_session b') /\ active (rt_session b') = active (rt_session b) /\
  (pendingBargeIn b' = pendingBargeIn b \/ pendingBargeIn b' = zero_pending).

Lemma flush_ok now b : reachable (rt_session b) -> barge_ok b (flushPendingBargeInAudio now b).1.
Proof.
  intros Hs. unfold flushPendingBargeInAudio. destruct (ingest_chunks_ok now (pending_chunks (pendingBargeIn b)) zero_Snapshot _ Hs) as [H1 H2].
  destruct (ingest_chunks _ _ _ _) as [s r]. cbn [fst] in *. by repeat split; [..|right].
Qed.

Lemma resolved_session_ok now b : reachable (rt_session b) -> barge_ok b (resolvePostPlaybackActiveSnapshot now b).1.
Proof.
  intros Hs. unfold resolvePostPlaybackActiveSnapshot. cbv zeta. destruct (_ == _); [by repeat split; [..|left]|].
  destruct (negb _ && negb _).
  { destruct (ok_clear_preview now _ Hs) as [H1 H2]. cbn [fst] in *. by repeat split; [..|right]. }
  destruct (ok_set_output OutputStateIdle now _ Hs) as [H1 H2]. destruct (SetOutputState now OutputStateIdle (rt_session b)) as [s [a|e]]; cbn [fst] in *;
    [|by repeat split; [..|left]].
  set (b1 := mkRuntime s (pendingBargeIn b)). assert (Hb1 : barge_ok b b1) by (by repeat split; [..|left]).
  assert (Hk : forall b2 r, barge_ok b b2 ->
    barge_ok b (match r with
      | Err e => (b2, Err e)
      | Ok current_ => if bool_decide (Snap_InputState (Snapshot_ (rt_session b)) = InputStatePreviewing)
                       then match SetInputState now InputStatePreviewing (rt_session b2) with
                            | (s, Err e) => (mkRuntime s (pendingBargeIn b2), Err e)
                            | (s, Ok previewing) => (mkRuntime s (pendingBargeIn b2), Ok (previewing, true))
                            end
                       else (b2, Ok (current_, true))
      end : connectionRuntime * result Error (Snapshot * bool)).1).
  { intros b2 r (K1 & K2 & K3). destruct r as [c|e]; [|done]. destruct (bool_decide _); [|done].
    destruct (ok_set_input InputStatePreviewing now _ K1) as [L1 L2]. destruct (SetInputState now _ (rt_session b2)) as [s2 [p|e]]; cbn [fst] in *;
      (split; [done|]; split; [by rewrite <- K2|exact K3]). }
  destruct (hasPendingBargeInAudio b).
  - destruct (flush_ok now b1 H1) as (F1 & F2 & F3). assert (Hb2 : barge_ok b (flushPendingBargeInAudio now b1).1) by (split; [done|]; split; [by rewrite F2|exact F3]).
    clear F1 F2 F3. destruct (flushPendingBargeInAudio now b1) as [b2 [fl|e]]; cbn [fst] in *; [|exact Hb2].
    exact (Hk b2 (Ok _) Hb2).
  - exact (Hk b1 (Ok a) Hb1).
Qed.

Lemma barge_inv b (g : runtime) : barge_ok (gw_barge g) b -> inv g -> inv (g <|gw_barge := b|>).
Proof.
  intros (K1 & K2 & K3) [H1 H2 H3 H4 H5 H6]. unfold gw_session in *. split; unfold gw_session; read_fields; try done.
  - destruct K3 as [->| ->]; [done|]. by split.
  - by rewrite K2.
Qed.

Lemma kept_resolve : kept (resolvePostPlayback clock).
Proof.
  intros g Hg. unfold ends, resolvePostPlayback. cbv zeta. destruct (_ && _ && _).
  - apply kept_use; [|done]. apply keeps_bind; [apply kept_pending|]. intros _. apply keeps_bind; [apply kept_clear_preview|]. intros _. apply kept_ret.
  - apply kept_use; [|done]. apply keeps_bind; [apply kept_now|]. intros now g1 Hg1. unfold ends.
    pose proof (resolved_session_ok now (gw_barge g1) (ci_session _ _ Hg1)) as Hb.
    destruct (resolvePostPlaybackActiveSnapshot now (gw_barge g1)) as [b r]. cbn [fst] in *. by apply barge_inv.
Qed.

Lemma kept_flush : kept (flush_pending clock).
Proof.
  unfold flush_pending. apply keeps_bind; [apply kept_now|]. intros now g Hg. unfold ends.
  pose proof (flush_ok now (gw_barge g) (ci_session _ _ Hg)) as Hb. destruct (flushPendingBargeInAudio now (gw_barge g)) as [b r]. cbn [fst] in *.
  by apply barge_inv.
Qed.

Lemma kept_completion endSession_ reason message hooks :
  (forall m, ResolveReturnActive hooks = Some m -> kept m) -> (forall f, OnReturnActive hooks = Some f -> forall t a, kept (f t a)) ->
  (forall f, OnEndSession hooks = Some f -> forall t r m, kept (f t r m)) ->
  kept (completeTurnReturnOrClose clock profile endSession_ reason message hooks).
Proof.
  intros H1 H2 H3. assert (Ha : kept (return_active clock)) by (unfold return_active; eauto with conn).
  unfold completeTurnReturnOrClose. destruct endSession_.
  - destruct (close_directive reason message) as [r m]. apply keeps_bind; [apply kept_trace|]. intros t.
    apply keeps_bind; [apply kept_clear_trace|]. intros _. destruct (OnEndSession hooks) as [f|]; [by apply H3|apply kept_ret].
  - apply keeps_bind.
    { destruct (ResolveReturnActive hooks) as [m|]; [|exact Ha]. apply keeps_bind; [by apply H1|]. intros [a b]. cbn [fst snd].
      destruct b; [apply kept_ret|exact Ha]. }
    intros a. apply keeps_bind; [apply kept_deadline|]. intros _. apply keeps_bind; [apply kept_trace|]. intros _.
    apply keeps_bind; [apply kept_trace|]. intros t. apply keeps_bind; [apply kept_clear_trace|]. intros _.
    destruct (OnReturnActive hooks) as [f|]; [by apply H2|apply kept_ret].
Qed.
#[local] Hint Resolve kept_directive kept_write_active kept_resolve kept_flush : conn.

(** ** Speaking *)

Lemma kept_start_playback delivered planned : kept (start_playback delivered planned).
Proof.
  intros g Hg. unfold ends, start_playback. apply kept_use; [|done]. apply kept_voice. intros o.
  apply (voice_step (OStart delivered outputFrameInterval planned _) o).
Qed.

Lemma kept_start_stream meta completion : kept (startAudioStream meta completion).
Proof.
  unfold startAudioStream. apply keeps_bind; [apply kept_install|]. intros _ g Hg. unfold ends, gw_update. cbn [fst]. same.
Qed.
#[local] Hint Resolve kept_start_playback kept_start_stream : conn.

Lemma kept_finalize sessionID trace responseID r delivered :
  kept (finalizeTurnResponse clock profile static duration_of sessionID trace responseID r delivered).
Proof.
  unfold finalizeTurnResponse, finalizeTurnLifecycle. cbn [BeforeSpeaking BeforeNoAudio StartAudioStream Completion].
  apply keeps_bind; [apply kept_now|]. intros now.
  apply keeps_bind; [apply (kept_session_update now ClearTurn), ok_clear_turn|]. intros _.
  destruct (audioStreamForTurnResponse static r) as [s|].
  - apply keeps_bind; [eauto with conn|]. intros speaking. apply keeps_bind; [apply kept_trace|]. intros t.
    apply keeps_bind; [apply kept_deadline|]. intros _. apply keeps_bind.
    + apply keeps_bind; [apply kept_start_playback|]. intros _. apply keeps_bind; [apply kept_get|]. intros sn. apply kept_write.
    + intros _. apply keeps_bind; [apply kept_now|]. intros n. apply kept_start_stream.
  - apply keeps_bind; [apply kept_voice; intros o; apply (voice_step (OText delivered) o)|]. intros _.
    apply kept_completion; cbn [completion_hooks ResolveReturnActive OnReturnActive OnEndSession]; [done| |].
    + intros f [= <-] t a. apply kept_write_active.
    + intros f [= <-] t r' m. apply kept_end_session.
Qed.

Lemma kept_early_audio sessionID responseID s start completion :
  kept (start_early_audio clock profile duration_of sessionID responseID s start completion).
Proof.
  unfold start_early_audio. cbv zeta. apply keeps_bind; [eauto with conn|]. intros speaking. apply keeps_bind; [apply kept_trace|]. intros t.
  apply keeps_bind; [apply kept_start_playback|]. intros _. apply keeps_bind; [apply kept_deadline|]. intros _.
  apply keeps_bind; [apply kept_write|]. intros _. apply keeps_bind; [apply kept_now|]. intros n. apply kept_start_stream.
Qed.

Lemma kept_complete_playback wait : kept (complete_playback wait).
Proof.
  intros g Hg. unfold ends, complete_playback.
  assert (Hc : forall source, kept (on_voice (CompletePlaybackWithSource source)))
    by (intros source; apply kept_voice; intros o; apply (voice_step (OComplete source) o)).
  assert (Hi : forall policy reason, kept (on_voice (fun v => (InterruptPlaybackWithPolicy policy reason v).1)))
    by (intros policy reason; apply kept_voice; intros o; apply (voice_step (OInterrupt policy reason) o)).
  destruct (GatewayProfile.PlaybackAckEnabled _); [|by apply kept_use; [apply Hc|]].
  destruct (waitForPlaybackAckTerminal _) as [[terminal reason] ok].
  destruct wait, ok, terminal; apply kept_use; auto.
Qed.

(** What the playback goroutine does at its end. *)
Lemma kept_tail sessionID exit : kept (playback_tail clock profile sessionID exit).
Proof.
  intros g Hg. unfold ends, playback_tail.
  assert (Hdrop : forall m : gw unit, kept m -> inv (match m g with (g', _) => (g', Ok (E := text) tt) end).1)
    by (intros m Hm; specialize (Hm g Hg); unfold ends in Hm; by destruct (m g)).
  destruct exit as [|err|wait outcome]; [done| |].
  - destruct (playing_session sessionID g); [|done]. apply Hdrop. apply keeps_bind.
    { apply kept_voice. intros o. apply (voice_step (OInterrupt InterruptionPolicyHardInterrupt "") o). }
    intros _ g1 Hg1. unfold ends. pose proof (kept_use _ g1 (kept_write (ErrorEvent sessionID "audio_stream_failed" err false)) Hg1) as Hw.
    destruct (WriteEvent _ g1) as [g2 r]. cbn [fst] in Hw. by apply kept_use; [apply kept_end_session|].
  - destruct (negb (playing_session sessionID g)).
    { apply kept_use; [|done]. apply keeps_bind; [apply kept_pending|]. intros _. apply kept_clear_preview. }
    apply Hdrop. apply keeps_bind; [apply kept_complete_playback|]. intros _. destruct outcome as [o|]; [|apply kept_ret].
    destruct (oc_EndSession o); apply kept_completion; cbn [ResolveReturnActive OnReturnActive OnEndSession]; try done.
    + intros f [= <-] t r m. apply kept_end_session.
    + intros m [= <-]. apply kept_resolve.
    + intros f [= <-] t a. apply kept_write_active.
Qed.

Lemma kept_playback_finished sessionID id exit : kept (playback_finished clock profile sessionID id exit).
Proof. apply keeps_bind; [apply kept_tail|]. intros _. apply kept_ended. Qed.

(** ** Previews *)

Lemma kept_preview_voice (f : SessionOrchestrator S P -> SessionOrchestrator S P) (g : runtime) :
  (forall o, orch_inv o -> orch_inv (f o)) -> inv g -> inv (g <|gw_voice := f (gw_voice g)|>).
Proof. intros Hf Hg. exact (kept_voice f Hf g Hg). Qed.

Lemma kept_ensure snapshot language : kept (ensureInputPreview snapshot language).
Proof.
  intros g Hg. unfold ends, ensureInputPreview. set (req := mkPreviewRequest _ _ _ _ _ _ _).
  assert (Hv : orch_inv (start_input_preview req (gw_voice g)).1).
  { unfold start_input_preview. pose proof (ci_voice _ _ Hg) as Hv. destruct (preview (gw_voice g)), preview_start as [start|]; try done.
    destruct (start req) as [s|e]; [|done]. apply (voice_step (OEnsure s) _ Hv). }
  destruct (start_input_preview req (gw_voice g)) as [v e]. cbn [fst] in *.
  by apply (kept_preview_voice (fun _ => v)).
Qed.

Lemma kept_previewing : kept (set_previewing clock).
Proof. unfold set_previewing. apply keeps_bind; [apply kept_try; eauto with conn|]. intros _. apply kept_ret. Qed.

Lemma kept_observe now sessionID o : kept (observe_preview clock now sessionID o).
Proof.
  unfold observe_preview. apply keeps_bind; [apply kept_when, kept_previewing|]. intros _ g Hg. unfold ends.
  destruct (ObservePreview _ _ _ _) as [p [t u]]. cbn [fst]. same.
Qed.

Lemma kept_observe_each sessionID os : kept (observe_each clock sessionID os).
Proof.
  induction os as [|o os IH]; cbn [observe_each]; [apply kept_ret|]. apply keeps_bind; [apply kept_now|]. intros now.
  apply keeps_bind; [apply kept_observe|]. intros x. apply keeps_bind; [exact IH|]. intros xs. apply kept_ret.
Qed.

Lemma kept_push payload : kept (pushInputPreviewAudio clock payload).
Proof.
  unfold pushInputPreviewAudio. apply keeps_bind; [apply kept_get|]. intros sessionID. apply keeps_bind; [apply kept_now|]. intros now.
  apply keeps_bind; [intros g Hg; unfold ends, gw_update; cbn [fst]; same|]. intros _. apply keeps_bind; [apply kept_now|]. intros now' g Hg.
  unfold ends. pose proof (voice_step (OPush now' payload) _ (ci_voice _ _ Hg)) as Hv. cbn [orch_step] in Hv.
  destruct (PushInputPreviewAudioProgressively now' payload (gw_voice g)) as [[v emitted] final]. cbn [fst] in Hv.
  apply kept_use; [|by apply (kept_preview_voice (fun _ => v))]. apply keeps_bind; [apply kept_observe_each|]. intros obs.
  destruct final as [o|e]; [|apply kept_fail]. destruct (_ && _); [apply kept_observe_each|apply kept_ret].
Qed.

Lemma kept_poll now : kept (pollInputPreview clock now).
Proof.
  intros g Hg. unfold ends, pollInputPreview. pose proof (voice_step (OPoll now) _ (ci_voice _ _ Hg)) as Hv. cbn [orch_step] in Hv.
  destruct (PollInputPreview now (gw_voice g)) as [v o]. cbn [fst] in Hv. cbv zeta.
  apply kept_use; [apply kept_observe|]. by apply (kept_preview_voice (fun _ => v)).
Qed.

Lemma kept_consume : kept (consumeInputPreview clock).
Proof.
  intros g Hg. unfold ends, consumeInputPreview. destruct (PreviewClear _) as [p t].
  assert (Hv : orch_inv (FinalizeInputPreview (gw_voice g)).1).
  { unfold FinalizeInputPreview. cbv zeta. pose proof (voice_step OClear _ (ci_voice _ _ Hg)) as Hv.
    destruct (preview (gw_voice g)) as [q|]; [|exact Hv]. by destruct (preview_finish (tp_session q)) as [[s [x|e]]|]. }
  destruct (FinalizeInputPreview (gw_voice g)) as [v f]. cbn [fst] in Hv. apply kept_use.
  - apply keeps_bind; [apply kept_now|]. intros now. apply keeps_bind; [|intros _; apply kept_ret].
    apply (kept_session_update now clearInputPreview_session), ok_clear_preview.
  - assert (Hg1 : inv (g <|gw_previews := p|>)) by same. exact (kept_preview_voice (fun _ => v) _ (fun _ _ => Hv) Hg1).
Qed.

Lemma kept_barge_preview snapshot payload : kept (previewForBargeIn clock snapshot payload).
Proof.
  unfold previewForBargeIn. apply keeps_bind.
  { apply kept_try. apply keeps_bind; [apply kept_ensure|]. intros _. apply kept_push. }
  intros pushed g Hg. unfold ends. cbv zeta. apply kept_use; [|done]. apply keeps_bind; [apply kept_now|]. intros now g1 Hg1. unfold ends.
  destruct (ObservePreview _ _ _ _) as [p [t u]]. cbn [fst]. same.
Qed.

Lemma kept_write_all es : kept (write_all es).
Proof. induction es as [|e es IH]; cbn [write_all]; [apply kept_ret|]. apply keeps_bind; [apply kept_write|]. intros _. exact IH. Qed.

Lemma kept_emit snapshot o : kept (emitPreviewObservationEvents snapshot o).
Proof.
  intros g Hg. unfold ends, emitPreviewObservationEvents. cbv zeta. destruct (negb _); [done|]. destruct (_ == _); [done|].
  apply kept_use; [apply kept_write_all|done].
Qed.

Lemma kept_emit_each snapshot os : kept (emit_observations snapshot os).
Proof. induction os as [|o os IH]; cbn [emit_observations]; [apply kept_ret|]. apply keeps_bind; [apply kept_emit|]. intros _. exact IH. Qed.
#[local] Hint Resolve kept_ensure kept_push kept_poll kept_consume kept_barge_preview kept_emit kept_emit_each : conn.

(** ** Turns *)

(** What a responder does to the connection by itself. *)
Definition responder_kept (r : turn_responder B runtime) : Prop := forall req, run_keeps inv (respond r req).

Lemma kept_serve sessionID fx : kept (serve_call clock profile duration_of sessionID fx).
Proof.
  destruct fx as [trace id mods r|id d|trace s|trace id start s]; cbn [serve_call]; [apply kept_write|apply kept_write| |apply kept_early_audio].
  intros g Hg. unfold ends, gw_update. cbn [fst]. unfold follow_text. destruct (_ == _); [done|]. destruct (bool_decide _); [|done].
  apply (kept_preview_voice (UpdatePlayback s 0)); [|done]. intros o. apply (voice_step (OUpdate s 0) o).
Qed.

Lemma callback_kept sessionID : callback_keeps inv (as_callback clock profile duration_of sessionID).
Proof.
  intros fx g Hg. unfold as_callback. pose proof (kept_serve sessionID fx g Hg) as H. unfold ends in H.
  by destruct (serve_call _ _ _ _ _ _) as [g' [x|e]].
Qed.

#[local] Instance kept_world : TurnWorld runtime := gateway_world clock.

Lemma options_kept sessionID mayStream : options_keep inv (turn_options clock profile duration_of sessionID mayStream).
Proof.
  split; cbn [turn_options xo_EmitResponseStart xo_EmitResponseDelta xo_StartResponseAudio xo_OnTextDeltaCollected].
  - intros g Hg. cbn. same.
  - intros t g Hg. cbn. same.
  - intros f [= <-]. apply callback_kept.
  - intros f [= <-]. apply callback_kept.
  - intros f [= <-]. apply callback_kept.
  - intros f [= <-] trace s g Hg. exact (kept_serve sessionID (CallTextCollected trace s) g Hg).
Qed.

Lemma kept_deliver req turn s result : kept (deliver_response clock profile static duration_of req turn s result).
Proof.
  unfold deliver_response. cbv zeta. apply keeps_bind; [apply kept_voice; intros o; apply (voice_step (OPrepare req _ _) o)|]. intros _.
  destruct (rsp_AudioStreamTransferred _); [|apply kept_finalize]. apply kept_voice. intros o. apply (voice_step (OUpdate _ 0) o).
Qed.

Lemma kept_emit_turn (r : turn_responder B runtime) ended turn trace s pt :
  responder_kept r -> ended_kept ended -> kept (emitTurnResponse clock profile static duration_of r ended turn trace s pt).
Proof.
  intros Hr He g Hg. unfold ends, emitTurnResponse. cbv zeta. set (req := buildTurnRequest _ _ _ _ _).
  assert (Hg1 : inv (g <|gw_voice := PrepareTurn req (provisional_input req) "" (gw_voice g)|>)).
  { apply (kept_preview_voice (PrepareTurn req (provisional_input req) "")); [|done]. intros o. apply (voice_step (OPrepare req _ _) o). }
  set (g1 := g <|gw_voice := _|>) in *. clearbody g1.
  pose proof (execution_keeps inv _ (options_kept (SessionID (ct_Snapshot turn)) (may_stream r)) (respond r req) g1 trace (Hr req) Hg1) as Hx.
  unfold kept_world in Hx. destruct (executeTurnResponse _ _ _ _) as [fl [[result|e]|]]; cbn [fst] in *; [| |exact Hx].
  - apply kept_use; [|exact Hx]. apply keeps_bind; [apply kept_deliver|]. intros _. apply kept_ret.
  - apply kept_use; [|exact Hx]. apply keeps_bind; [by apply kept_interrupt_output|]. intros _.
    apply keeps_bind; [by apply kept_terminate|]. intros _. apply kept_ret.
Qed.

(** ** Handlers *)

Lemma kept_finished m : kept m -> kept (finished m).
Proof. intros Hm. apply keeps_bind; [exact Hm|]. intros _. apply kept_ret. Qed.
Lemma kept_refuse sessionID code message recoverable : kept (refuse sessionID code message recoverable).
Proof. apply kept_finished, kept_write. Qed.
#[local] Hint Resolve kept_finished kept_refuse : conn.

Lemma kept_accept (r : turn_responder B runtime) ended turn source reason s pt :
  responder_kept r -> ended_kept ended -> kept (accept_turn clock profile static duration_of r ended turn source reason s pt).
Proof.
  intros Hr He. unfold accept_turn. cbv zeta. apply keeps_bind; [apply kept_deadline|]. intros _. apply keeps_bind; [apply kept_trace|]. intros t.
  apply keeps_bind; [apply kept_write|]. intros _. by apply kept_emit_turn.
Qed.

Lemma kept_tick (r : turn_responder B runtime) ended now :
  responder_kept r -> ended_kept ended -> kept (handleServerEndpointTick clock profile static duration_of r ended now).
Proof.
  intros Hr He g Hg. unfold ends, handleServerEndpointTick. cbv zeta. destruct (_ || _); [done|]. apply kept_use; [|done].
  apply keeps_bind; [apply kept_poll|]. intros o. destruct (negb _); [apply kept_ret|]. apply keeps_bind; [apply kept_emit|]. intros _.
  destruct (_ && _); [|apply kept_ret]. apply keeps_bind; [apply kept_consume|]. intros c. apply keeps_bind; [eauto with conn|].
  intros [turn|e]; [by apply kept_accept|apply kept_fail].
Qed.

Lemma decode_format payload n : OutputSampleRate (Decode payload n).1 = OutputSampleRate n /\ OutputChannels (Decode payload n).1 = OutputChannels n.
Proof.
  destruct n as [rate channels|before rate channels]; [done|]. unfold Decode. destruct (_ =? 0); [done|].
  destruct (parseOpusPacketInfo payload) as [info|e]; [|done]. destruct (negb _); [done|]. cbv zeta.
  by destruct (pion_decode before payload) as [[[w bw] st]|e].
Qed.

Lemma kept_normalize payload : kept (normalize_payload payload).
Proof.
  intros g [H1 H2 H3 H4 H5 H6]. unfold ends, normalize_payload. destruct (gw_normalizer g) as [n|] eqn:En.
  - pose proof (decode_format payload n) as [F1 F2]. destruct (Decode payload n) as [n' r]. cbn [fst] in *.
    destruct r as [pcm|[e|]]; cbn [fst]; unfold gw_session in *; (split; unfold gw_session; read_fields; try done); by rewrite F1, F2.
  - cbn [fst]. split; try done. by rewrite En.
Qed.

Lemma kept_stage pcm : kept (gw_update (fun g : runtime => g <|gw_barge := stagePendingBargeInAudio pcm (gw_barge g)|>)).
Proof.
  intros g [H1 H2 [H3 H3'] H4 H5 H6]. unfold ends, gw_update, stagePendingBargeInAudio, gw_session in *. cbn [fst].
  split; unfold gw_session; read_fields; try done; (destruct (len pcm =? 0) eqn:E; [done|]); try done. cbn [pendingBargeIn]. split; cbn [pending_chunks pending_audioBytes].
  - apply Forall_app. split; [done|]. apply Forall_singleton. intros ->. done.
  - rewrite H3', concat_app, len_app. cbn [concat]. rewrite app_nil_r. apply i64_add_l.
Qed.

Lemma kept_tell_previewing : kept (tell_previewing clock).
Proof.
  unfold tell_previewing. apply keeps_bind; [eauto with conn|]. intros [sn|e]; [|apply kept_ret]. intros g Hg. unfold ends.
  apply kept_use; [|done]. apply keeps_bind; [apply kept_try, kept_write|]. intros _. apply kept_ret.
Qed.

Lemma kept_barge_frame ended previous pcm : ended_kept ended -> kept (barge_in_frame clock profile ended previous pcm).
Proof.
  intros He. unfold barge_in_frame. cbv zeta. apply keeps_bind; [apply kept_stage|]. intros _. apply keeps_bind; [apply kept_barge_preview|]. intros o.
  apply keeps_bind; [apply kept_emit|]. intros _. apply keeps_bind; [apply kept_when, kept_tell_previewing|]. intros _.
  set (d := EvaluateBargeIn _ _ _ _). apply keeps_bind; [apply kept_voice; intros v; apply (voice_step (ORecord (bd_Policy d) (bd_Reason d)) v)|]. intros _.
  apply keeps_bind; [apply kept_when, keeps_bind; [apply kept_directive|intros _; apply kept_ret]|]. intros _.
  destruct (negb _); [apply kept_deadline|]. apply keeps_bind; [by apply kept_interruption|]. intros _.
  apply keeps_bind; [apply kept_flush|]. intros _. apply kept_ret.
Qed.

Lemma kept_input_frame previous pcm : kept (input_frame clock profile previous pcm).
Proof.
  unfold input_frame. apply keeps_bind; [eauto with conn|]. intros [current_|[|]]; [|apply kept_fail|apply kept_write].
  apply keeps_bind.
  { apply kept_when. apply keeps_bind; [apply kept_try, keeps_bind; [apply kept_ensure|intros _; apply kept_push]|].
    intros [os|e]; [apply kept_emit_each|apply kept_ret]. }
  intros _. apply keeps_bind; [apply kept_deadline|]. intros _. destruct (bool_decide _); [|apply kept_ret].
  intros g Hg. unfold ends. by apply kept_use; [apply kept_write|].
Qed.

Lemma kept_binary ended payload : ended_kept ended -> kept (handleBinary clock profile ended payload).
Proof.
  intros He g Hg. unfold ends, handleBinary. destruct (_ <? _); [by apply kept_use; [apply kept_terminate|]|]. cbv zeta. apply kept_use; [|done].
  apply keeps_bind; [apply kept_normalize|]. intros [pcm|e]; [|by apply kept_terminate].
  destruct (bool_decide _); [by apply kept_barge_frame|apply kept_input_frame].
Qed.

Lemma new_format codec rate channels n :
  NewInputNormalizer codec rate channels = Ok n -> OutputSampleRate n = rate /\ OutputChannels n = channels.
Proof. unfold NewInputNormalizer. cbv zeta. destruct (_ || _); [by intros [= <-]|]. destruct (_ == _); [by intros [= <-]|done]. Qed.

Lemma bind_update {A} f (k : unit -> gw A) (g : runtime) : gw_bind (gw_update f) k g = k tt (f g).
Proof. done. Qed.

(** A session starts with the format the server works in. *)
Lemma kept_start sessionID decoded : kept (handleSessionStart clock profile sessionID decoded).
Proof.
  unfold handleSessionStart. destruct decoded as [p|e]; [|apply kept_refuse]. destruct (validateStartPayload profile p) as [_|e]; [|apply kept_refuse].
  destruct (NewInputNormalizer _ _ _) as [n|e] eqn:En; [|apply kept_refuse]. destruct (new_format _ _ _ _ En) as [F1 F2].
  intros g Hg. unfold ends, ask_session, gw_bind at 1 2. unfold gw_now at 1.
  assert (Hg1 : inv (g <|gw_reads := Datatypes.S (gw_reads g)|>)) by same. set (now := clock (gw_reads g)). clearbody now.
  set (g1 := g <|gw_reads := _|>) in *. clearbody g1. clear Hg.
  set (req := start_request_of sessionID p).
  pose proof (reachable_step _ now (OpStart req) (ci_session _ _ Hg1)) as Hr. cbn [step] in Hr. unfold out_snapshot in Hr. cbn [fst] in Hr.
  destruct (active (gw_session g1)) eqn:Ea.
  { unfold Start in *. rewrite Ea in *. cbn [fst] in *. apply kept_use; [apply kept_refuse|]. by apply set_session_inv. }
  assert (Hs : exists s sn, Start now req (gw_session g1) = (s, Ok sn) /\ active s = true) by (unfold Start; rewrite Ea; by eexists _, _).
  destruct Hs as (s & sn & E & Hs). rewrite E in *. cbn [fst] in Hr. rewrite bind_update. apply kept_use.
  { apply keeps_bind; [apply kept_clear_ack|]. intros _. apply keeps_bind; [apply kept_deadline|]. intros _. apply kept_finished, kept_write. }
  clear E. destruct Hg1 as [H1 H2 H3 H4 H5 H6]. unfold OutputFlow.set_session, gw_session in *. split; unfold gw_session; read_fields; done.
Qed.

Lemma kept_commit_active (r : turn_responder B runtime) ended sessionID reason snapshot :
  responder_kept r -> ended_kept ended -> kept (commit_active clock profile static duration_of r ended sessionID reason snapshot).
Proof.
  intros Hr He. unfold commit_active. destruct (negb _); [apply kept_refuse|]. apply keeps_bind; [apply kept_consume|]. intros c.
  apply keeps_bind; [eauto with conn|]. intros [turn|e]; [|apply kept_refuse]. apply keeps_bind; [apply kept_pending|]. intros _. by apply kept_accept.
Qed.

Lemma kept_commit (r : turn_responder B runtime) ended sessionID decoded :
  responder_kept r -> ended_kept ended -> kept (handleCommit clock profile static duration_of r ended sessionID decoded).
Proof.
  intros Hr He. unfold handleCommit. destruct decoded as [reason|e]; [|apply kept_refuse]. intros g Hg. unfold ends. cbv zeta.
  destruct (_ && _); (apply kept_use; [|done]); [|by apply kept_commit_active]. unfold commit_during_speaking.
  apply keeps_bind; [apply keeps_bind; [by apply kept_interruption|intros _; apply kept_flush]|]. intros sn. by apply kept_commit_active.
Qed.

Lemma kept_text (r : turn_responder B runtime) ended sessionID decoded :
  responder_kept r -> ended_kept ended -> kept (handleText clock profile static duration_of r ended sessionID decoded).
Proof.
  intros Hr He. unfold handleText, no_session_for_text. destruct (negb _); [apply kept_refuse|]. destruct decoded as [s|e]; [|apply kept_refuse].
  intros g Hg. unfold ends. apply kept_use; [|done]. apply keeps_bind; [by apply kept_when, kept_interruption|]. intros _.
  apply keeps_bind; [eauto with conn|]. intros [x|e]; [|apply kept_refuse]. apply keeps_bind; [apply kept_clear_preview|]. intros _.
  apply keeps_bind; [eauto with conn|]. intros [turn|e]; [|apply kept_refuse]. by apply kept_accept.
Qed.

Lemma kept_client_end ended sessionID decoded : ended_kept ended -> kept (handleClientEnd clock profile ended sessionID decoded).
Proof.
  intros He. unfold handleClientEnd. destruct decoded as [[reason message]|e]; [|apply kept_refuse].
  apply keeps_bind; [by apply kept_interrupt_output|]. intros _. cbv zeta. apply keeps_bind; [apply kept_try, kept_end_session|].
  intros [x|e]; [apply kept_ret|]. destruct (_ == _); [apply kept_refuse|apply kept_fail].
Qed.

Lemma kept_session_update_frame ended sessionID decoded : ended_kept ended -> kept (handleSessionUpdate clock profile ended sessionID decoded).
Proof.
  intros He. unfold handleSessionUpdate. assert (H : kept (fun g : runtime =>
      let interrupt := match decoded with Some (Ok b) => b | _ => false end in
      let snapshot := Snapshot_ (gw_session g) in
      finished
        (if SessionID snapshot == "" then
           WriteEvent (ErrorEvent sessionID "session_not_started" "session.update cannot be processed before session.start" true)
         else if interrupt && bool_decide (Snap_State snapshot = StateSpeaking) then
           interruptSpeakingFlowWithOptions clock profile
             (mkInterruptOptions true true (ByPolicy InterruptionPolicyHardInterrupt "client_interrupt_hint"))
             ended None (Some write_active)
         else WriteEvent (sessionUpdateFromSnapshot (SessionID snapshot) snapshot "" "")) g)).
  { intros g Hg. unfold ends. cbv zeta. apply kept_use; [|done]. apply kept_finished. destruct (_ == _); [apply kept_write|].
    destruct (_ && _); [by apply kept_interruption|apply kept_write]. }
  destruct decoded as [[b|e]|]; [exact H|apply kept_refuse|exact H].
Qed.

(** ** Acknowledgements *)

Lemma sync_voice (c : PlaybackAck.connection S P) : orch_inv (voiceSession c) -> orch_inv (voiceSession (syncAnnouncedPlaybackContext c)).
Proof.
  intros Hc. unfold syncAnnouncedPlaybackContext. cbv zeta. destruct (_ && _); [done|]. cbn [set_voice voiceSession].
  apply (voice_step (OUpdate _ _) _ Hc).
Qed.

Lemma mark_voice played heard (c : PlaybackAck.connection S P) : orch_inv (voiceSession c) -> orch_inv (voiceSession (observe_mark played heard c)).
Proof.
  intros Hc. unfold observe_mark. destruct (_ != _); [apply (voice_step (OMarkText played heard) _ Hc)|].
  destruct (0 <? played); [apply (voice_step (OMark played) _ Hc)|done].
Qed.

Lemma after_ack_inv c (g : runtime) : orch_inv (voiceSession c) -> inv g -> inv (after_ack c g).
Proof.
  intros Hc Hg. unfold after_ack. assert (H1 : inv (g <|gw_ack := conn_ack c|>)) by same.
  exact (kept_preview_voice (fun _ => voiceSession c) _ (fun _ _ => Hc) H1).
Qed.

Lemma kept_on_ack f :
  (forall now c, orch_inv (voiceSession c) -> orch_inv (voiceSession (f now c))) -> kept (on_ack clock f).
Proof.
  intros Hf. unfold on_ack. apply keeps_bind; [apply kept_now|]. intros now g Hg. unfold ends, gw_update. cbn [fst].
  apply after_ack_inv; [|done]. apply Hf. exact (ci_voice _ _ Hg).
Qed.

Lemma kept_ack sessionID code decoded f : (forall p, kept (f p)) -> kept (handle_ack sessionID code decoded f).
Proof. intros Hf. unfold handle_ack. destruct decoded as [p|e]; [by apply kept_finished|apply kept_refuse]. Qed.

Lemma kept_started sessionID decoded : kept (handleAudioOutStarted clock sessionID decoded).
Proof.
  apply kept_ack. intros p. apply kept_on_ack. intros now c Hc. unfold recordPlaybackAckStarted. destruct (negb _); [done|]. cbv zeta.
  apply (voice_step OStarted). by apply (sync_voice (set_ack _ c)).
Qed.

Lemma kept_mark sessionID decoded : kept (handleAudioOutMark clock sessionID decoded).
Proof.
  apply kept_ack. intros p. apply kept_on_ack. intros now c Hc. unfold recordPlaybackAckMark. destruct (negb _); [done|]. cbv zeta.
  destruct (recordPlaybackMark _ _ _ _) as [a [[m t] h]]. apply mark_voice. by apply sync_voice.
Qed.

Lemma kept_completed sessionID decoded : kept (handleAudioOutCompleted clock sessionID decoded).
Proof.
  apply kept_ack. intros p. apply kept_on_ack. intros now c Hc. unfold recordPlaybackAckCompleted. destruct (negb _); [done|]. cbv zeta.
  apply (voice_step OCompletedFact). by apply sync_voice.
Qed.

Lemma kept_cleared ended sessionID decoded : ended_kept ended -> kept (handleAudioOutCleared clock profile ended sessionID decoded).
Proof.
  intros He. apply kept_ack. intros p. unfold playback_cleared. apply keeps_bind; [apply kept_now|]. intros now g Hg. unfold ends.
  assert (Hv : orch_inv (voiceSession (recordPlaybackAckCleared now (ak_ResponseID p) (ak_PlaybackID p) (ak_SegmentID p) (ak_Reason p) (ack_connection g)).1)).
  { unfold recordPlaybackAckCleared. pose proof (ci_voice _ _ Hg) as Hc. destruct (negb _); [done|]. cbv zeta.
    destruct (recordPlaybackCleared _ _ _ _) as [a [[m t] h]]. cbn [fst]. apply mark_voice. by apply (sync_voice (ack_connection g)). }
  destruct (recordPlaybackAckCleared _ _ _ _ _ _) as [c reason]. cbn [fst] in Hv.
  destruct reason as [reason|]; (apply kept_use; [|by apply after_ack_inv]); [by apply kept_interruption|apply kept_ret].
Qed.

(** ** Messages *)

Lemma kept_control (r : turn_responder B runtime) ended frame :
  responder_kept r -> ended_kept ended -> kept (handleControl clock profile static duration_of r ended frame).
Proof.
  intros Hr He. unfold handleControl. destruct frame as [[sessionID payload]|]; [|apply kept_refuse].
  destruct payload as [p|p|p|p|p|p|p|p|p|name];
    [apply kept_start|by apply kept_commit|by apply kept_text|by apply kept_client_end|by apply kept_session_update_frame|apply kept_started
    |apply kept_mark|by apply kept_cleared|apply kept_completed|apply kept_refuse].
Qed.

Lemma kept_read_error ended timeout : ended_kept ended -> kept (handleReadError clock profile ended timeout).
Proof.
  intros He. unfold handleReadError. destruct (negb timeout); [apply kept_ret|]. apply keeps_bind; [apply kept_now|]. intros now g Hg.
  unfold ends. cbv zeta. assert (Hc : forall reason, kept (gw_bind (interruptOutput ended) (fun _ =>
    gw_bind (endSession clock profile reason (closeMessageForReason reason)) (fun _ => gw_ret true)))).
  { intros reason. apply keeps_bind; [by apply kept_interrupt_output|]. intros _. apply keeps_bind; [apply kept_end_session|]. intros _. apply kept_ret. }
  destruct (deadlineCloseReason _ _ _) as [reason|]; [by apply kept_use; [apply Hc|]|].
  destruct (_ == _); [done|]. by apply kept_use; [apply Hc|].
Qed.

Lemma kept_inbound (r : turn_responder B runtime) ended inbound :
  responder_kept r -> ended_kept ended -> kept (handleInboundMessage clock profile static duration_of r ended inbound).
Proof.
  intros Hr He. unfold handleInboundMessage. destruct inbound as [frame|payload| |timeout err].
  - apply keeps_bind; [by apply kept_try, kept_control|]. intros [x|e]; [apply kept_ret|]. destruct (_ || _); [apply kept_ret|apply kept_fail].
  - by apply kept_finished, kept_binary.
  - intros g Hg. unfold ends. by apply kept_use; [apply kept_refuse|].
  - apply keeps_bind; [by apply kept_read_error|]. intros [|]; [apply kept_ret|apply kept_fail].
Qed.

(** ** Connections *)

(** What the playback goroutine does to the runtime: a frame it has written, a
    segment it has announced, its end. *)
Inductive goroutine : (runtime -> runtime) -> Prop :=
| go_frame now sessionID n : goroutine (fun g => (g <|gw_voice := ObservePlaybackChunk (gw_voice g)|>)
    <|gw_traces := (markTurnFirstAudioChunk now sessionID n (gw_traces g)).1|>)
| go_segment written meta : goroutine (fun g => after_ack (emitAudioOutMeta written meta (ack_connection g)).1 g)
| go_end sessionID id exit : goroutine (fun g => (playback_finished clock profile sessionID id exit g).1)
| go_on f f' : goroutine f -> goroutine f' -> goroutine (fun g => f' (f g)).

Lemma goroutine_keeps f (g : runtime) : goroutine f -> inv g -> inv (f g).
Proof.
  intros Hf. revert g. induction Hf as [now sid n|written meta|sid id exit|f f' Hf IH Hf' IH']; intros g Hg.
  - assert (H1 : inv (g <|gw_voice := ObservePlaybackChunk (gw_voice g)|>))
      by (apply (kept_preview_voice ObservePlaybackChunk); [intros o; apply (voice_step OChunk o)|done]). revert H1.
    set (g1 := g <|gw_voice := _|>). intros H1. same.
  - apply after_ack_inv; [|done]. pose proof (ci_voice _ _ Hg) as Hc. unfold emitAudioOutMeta. cbv zeta.
    destruct (negb (PlaybackAck.PlaybackAckEnabled _)); cbn [fst]; [by apply (sync_voice (set_ack _ (ack_connection g)))|].
    destruct (negb written); cbn [fst]; [done|by apply (sync_voice (set_ack _ (ack_connection g)))].
  - by apply kept_use; [apply kept_playback_finished|].
  - by apply IH', IH.
Qed.

(** A responder whose turns run beside nothing but the playback goroutine. *)
Definition well_placed (r : turn_responder B runtime) : Prop := forall req,
  match respond r req with
  | Orchestrating _ cases | StreamingOnly cases => forall f, Meanwhile f ∈ cases -> goroutine f
  | Responding _ => True
  end.

(** A cancelled goroutine says its last words or does not end in time. *)
Definition last_words (ended : option (gw (S := S) (P := P) unit)) : Prop :=
  match ended with Some m => exists sessionID exit, m = playback_tail clock profile sessionID exit | None => True end.

(** The states of a connection: it goes on as long as no handler fails. *)
Inductive connected (store : S) : runtime -> Prop :=
| conn_new : connected store (newConnectionRuntime store)
| conn_message r ended inbound g g' x :
    connected store g -> well_placed r -> last_words ended ->
    handleInboundMessage clock profile static duration_of r ended inbound g = (g', Ok x) -> connected store g'
| conn_tick r ended now g g' x :
    connected store g -> well_placed r -> last_words ended ->
    handleServerEndpointTick clock profile static duration_of r ended now g = (g', Ok x) -> connected store g'
| conn_goroutine f g : connected store g -> goroutine f -> connected store (f g).

Lemma placed_kept r : well_placed r -> responder_kept r.
Proof.
  intros Hr req. specialize (Hr req). destruct (respond r req) as [started cases|cases|x]; cbn [run_keeps]; [| |done];
    intros f Hf g Hg; by apply goroutine_keeps; [apply Hr|].
Qed.

Lemma words_kept ended : last_words ended -> ended_kept ended.
Proof. intros Hl m ->. destruct Hl as (sessionID & exit & ->). apply kept_tail. Qed.

Lemma new_connection_inv store : inv (newConnectionRuntime store).
Proof. split; cbn; try done; try lia. apply reachable_new. Qed.

Lemma connected_inv store g : connected store g -> inv g.
Proof.
  induction 1 as [|r ended inbound g g' x Hc IH Hr Hl E|r ended now g g' x Hc IH Hr Hl E|f g Hc IH Hf].
  - apply new_connection_inv.
  - pose proof (kept_inbound r ended inbound (placed_kept r Hr) (words_kept ended Hl) g IH) as H. unfold ends in H. by rewrite E in H.
  - pose proof (kept_tick r ended now (placed_kept r Hr) (words_kept ended Hl) g IH) as H. unfold ends in H. by rewrite E in H.
  - by apply goroutine_keeps.
Qed.

End Keeping.

(** C3. A connection that is set up by [newConnectionRuntime] and then taken through
    any messages, preview ticks and steps of its playback goroutine, whatever the
    responder, the recognizer, the decoder and the socket answer, always is sound:
    its session is a reachable one, the session orchestrator keeps its invariant,
    the staged barge-in frames are counted by [audioBytes] and none of them is
    empty, an input normalizer of the profile's format is installed exactly while a
    session is active, and the current output is one that was handed out. *)
Theorem connection_stays_sound {S P B : Type} `{!MemoryStore S} `{!PreviewSession P} {PV : Previewer P} {OD : OpusDecoder} {CN : Connection}
    (clock : nat -> instant) (profile : RealtimeProfile) (static : list bytes -> B) (duration_of : B -> duration -> option duration)
    (store : S) (g : gateway S P) :
  connected clock profile static duration_of store g -> connection_inv profile g.
Proof. apply connected_inv. Qed.

(** ** A connection that talks *)

#[local] Existing Instance demo_session.
#[local] Existing Instance silent_decoder.
#[local] Existing Instance open_connection.

#[local] Instance demo_previewer : Previewer unit := {
  preview_start := Some (fun _ => Ok tt);
  preview_finish := fun _ => None;
  preview_close := fun _ => None
}.

Definition talk_profile : RealtimeProfile :=
  demo_profile <|ProtocolVersion := "rtos-ws-v0"|> <|ServerEndpointEnabled := true|> <|MaxFrameBytes := 4096|> <|rp_InputCodec := "pcm16le"|>
    <|rp_InputSampleRate := 16000|> <|rp_InputChannels := 1|> <|AllowTextInput := true|>.

Definition demo_start : sessionStartPayload := {|
  sp_ProtocolVersion := ProtocolVersion talk_profile; sp_DeviceID := "device"; sp_ClientType := "panel"; sp_FirmwareVersion := "1";
  sp_Codec := rp_InputCodec talk_profile; sp_SampleRateHz := rp_InputSampleRate talk_profile; sp_Channels := rp_InputChannels talk_profile;
  sp_Mode := "voice"; sp_ClientCanEnd := true; sp_ServerCanEnd := true;
  sp_Capabilities := mkCapabilities false false true false true (Some (txt ""))
|}.

(** A session is opened, a frame of audio comes, the user commits it, the client ends the session. *)
Definition demo_messages : list websocketInboundMessage :=
  [TextMessage (Some (mkEnvelope "sess" (TypeSessionStart (Ok demo_start))));
   BinaryMessage ["001"; "000"]%byte;
   TextMessage (Some (mkEnvelope "sess" (TypeAudioInCommit (Ok (txt "")))));
   TextMessage (Some (mkEnvelope "sess" (TypeSessionEnd (Ok (txt "", txt "")))))].

Definition polite_responder : turn_responder unit (gateway InMemoryMemoryStore unit) :=
  mkTurnResponder false (fun _ => Responding (Ok (mkTurnResponse "hello" "Hello." [] [] None false false "" ""))).

Fixpoint run_messages {S P B : Type} `{!MemoryStore S} `{!PreviewSession P} {PV : Previewer P} {OD : OpusDecoder} {CN : Connection}
    (clock : nat -> instant) (profile : RealtimeProfile) (static : list bytes -> B) (duration_of : B -> duration -> option duration)
    (r : turn_responder B (gateway S P)) (ms : list websocketInboundMessage) (g : gateway S P) : option (gateway S P) :=
  match ms with
  | [] => Some g
  | m :: ms =>
      match handleInboundMessage clock profile static duration_of r None m g with
      | (g, Ok _) => run_messages clock profile static duration_of r ms g
      | (_, Err _) => None
      end
  end.

Lemma run_connected {S P B : Type} `{!MemoryStore S} `{!PreviewSession P} {PV : Previewer P} {OD : OpusDecoder} {CN : Connection}
    (clock : nat -> instant) (profile : RealtimeProfile) (static : list bytes -> B) (duration_of : B -> duration -> option duration)
    (r : turn_responder B (gateway S P)) (store : S) ms (g g' : gateway S P) :
  well_placed clock profile r -> connected clock profile static duration_of store g ->
  run_messages clock profile static duration_of r ms g = Some g' -> connected clock profile static duration_of store g'.
Proof.
  intros Hr. revert g. induction ms as [|m ms IH]; intros g Hg E; cbn [run_messages] in E; [by injection E as <-|].
  destruct (handleInboundMessage _ _ _ _ _ _ _ g) as [g1 [x|e]] eqn:E1; [|done]. apply (IH g1); [|exact E].
  by eapply conn_message; [exact Hg|exact Hr| |exact E1].
Qed.

Definition demo_store : InMemoryMemoryStore := NewInMemoryMemoryStore 4.

Definition demo_run (ms : list websocketInboundMessage) : option (gateway InMemoryMemoryStore unit) :=
  run_messages demo_clock talk_profile (fun _ => tt) (fun _ _ => None) polite_responder ms (newConnectionRuntime demo_store).

(** The session of the run, three messages in and at its end. *)
Lemma connection_stays_sound_witness :
  exists g g', demo_run (take 3 demo_messages) = Some g /\ active (gw_session g) = true /\ connection_inv talk_profile g /\
    demo_run demo_messages = Some g' /\ active (gw_session g') = false /\ connection_inv talk_profile g'.
Proof.
  assert (R : forall ms g, demo_run ms = Some g -> connection_inv talk_profile g).
  { intros ms g E. apply (connection_stays_sound demo_clock talk_profile (fun _ => tt) (fun _ _ => None) demo_store g).
    refine (run_connected _ _ _ _ polite_responder _ ms _ _ _ _ E); [by intros req|apply conn_new]. }
  destruct (demo_run (take 3 demo_messages)) as [g|] eqn:E; [|by vm_compute in E].
  destruct (demo_run demo_messages) as [g'|] eqn:E'; [|by vm_compute in E'].
  exists g, g'. split; [reflexivity|]. split; [|split; [exact (R _ _ E)|split; [reflexivity|split; [|exact (R _ _ E')]]]].
  - assert (H : option_map (fun g => active (gw_session g)) (demo_run (take 3 demo_messages)) = Some true) by by vm_compute.
    rewrite E in H. by injection H as H.
  - assert (H : option_map (fun g => active (gw_session g)) (demo_run demo_messages) = Some false) by by vm_compute.
    rewrite E' in H. by injection H as H.
Defined.
