(* ===== verification/RealtimeContract.v ===== *)
(** * What the handlers of the realtime connection promise
      (internal/gateway/realtime_ws.go)

    Theorems on the handlers of RealtimeHandler, composed with the session, the
    preview and the output flow: what a start frame is answered, that the frames
    of a turn, heard live or staged while the server spoke, are the audio that is
    committed, and that a message an idle connection cannot serve changes nothing. *)

From S2P Require Import Prelude GoText GoFloat Contracts Lexical BargeIn Playback Memory Session Orchestrator PlaybackAck BargeInRuntime.
From S2P Require Import Rollout Audio InputAudio TurnTrace GatewayProfile OutputEffects TurnResponse TurnFlow OutputFlow InputFlow TurnRun.
From S2P Require Import RealtimeHandler ConnectionInvariant.

(** ** A connection that listens *)

Section Listening.

Context {S P B : Type} `{!MemoryStore S} `{!PreviewSession P} {PV : Previewer P} {OD : OpusDecoder} {CN : Connection} {RL : Reliable}.
Context (clock : nat -> instant) (profile : RealtimeProfile) (static : list bytes -> B) (duration_of : B -> duration -> option duration).

Abbreviation runtime := (gateway S P).

(** The session is open, the server is silent, and [heard] is the audio of the turn so far. *)
Definition listening (n : InputNormalizer) (heard : bytes) (g : runtime) : Prop :=
  session_inv (gw_session g) /\ gw_normalizer g = Some n /\
  exists i k, abs (gw_session g) = Some (mkAlive i OutputStateIdle heard k).

(** A computation that keeps [I] and does not fail. *)
Definition safe (I : runtime -> Prop) {A} (m : gw (S := S) (P := P) A) : Prop :=
  forall g, I g -> exists g' a, m g = (g', Ok a) /\ I g'.

Lemma safe_bind I {A C} (m : gw A) (f : A -> gw C) : safe I m -> (forall a, safe I (f a)) -> safe I (gw_bind m f).
Proof. intros Hm Hf g Hg. destruct (Hm g Hg) as (g1 & a & E & H1). unfold gw_bind. rewrite E. by apply Hf. Qed.

Lemma safe_ret I {A} (a : A) : safe I (gw_ret a).
Proof. intros g Hg. by exists g, a. Qed.

Lemma safe_when I c (m : gw unit) : safe I m -> safe I (gw_when c m).
Proof. intros Hm. destruct c; [exact Hm|apply safe_ret]. Qed.

Lemma safe_try I {A} (m : gw A) : keeps I m -> safe I (gw_try m).
Proof. intros Hm g Hg. specialize (Hm g Hg). unfold ends in Hm. unfold gw_try. destruct (m g) as [g1 r]. by exists g1, r. Qed.

Lemma safe_keeps I {A} (m : gw A) : safe I m -> keeps I m.
Proof. intros Hm g Hg. unfold ends. destruct (Hm g Hg) as (g' & a & -> & H). exact H. Qed.

Lemma listening_abs (n : InputNormalizer) heard (g : runtime) :
  listening n heard g -> active (gw_session g) = true /\ Snap_State (Snapshot_ (gw_session g)) = StateActive.
Proof.
  intros (Hi & _ & i & k & E). unfold abs in E. destruct (active (gw_session g)) eqn:Ha; [|done]. injection E as _ Eo _ _.
  split; [done|]. rewrite snapshot_state. pose proof (open_id _ Hi Ha) as Hid. rewrite Hid. cbn [negb deriveCompatState].
  unfold Snapshot_, cloneSnapshot. read_fields. unfold deriveCompatState. cbn [negb]. by rewrite Eo.
Qed.

(** What leaves the session and its format alone. *)
Lemma listening_same n heard (g g' : runtime) :
  gw_session g' = gw_session g -> gw_normalizer g' = gw_normalizer g -> listening n heard g -> listening n heard g'.
Proof. intros E1 E2 H. unfold listening. by rewrite E1, E2. Qed.

(** What the clock, the socket and the preview leave alone: they touch nothing of
    the session but its input lane, and neither the format nor the output. *)
Record undisturbed (I : runtime -> Prop) : Prop := {
  un_same : forall g g', gw_session g' = gw_session g -> gw_normalizer g' = gw_normalizer g -> gw_output g' = gw_output g -> I g -> I g';
  un_input : forall now g, I g -> I (OutputFlow.set_session (SetInputState now InputStatePreviewing (gw_session g)).1 g)
}.

Lemma session_set s (g : runtime) :
  gw_session (OutputFlow.set_session s g) = s /\ gw_normalizer (OutputFlow.set_session s g) = gw_normalizer g.
Proof. by destruct g. Qed.

(** The session takes a step. *)
Lemma session_steps n heard heard' now o (g : runtime) :
  (forall i k, exists i' k', astep_alive o (mkAlive i OutputStateIdle heard k) = Some (mkAlive i' OutputStateIdle heard' k')) ->
  listening n heard g -> listening n heard' (OutputFlow.set_session (step now o (gw_session g)).1 g).
Proof.
  intros Ho (Hi & Hn & i & k & E). unfold listening. destruct (session_set (step now o (gw_session g)).1 g) as [-> ->].
  split; [by apply step_inv|]. split; [done|]. rewrite step_abs, E by done. cbn [astep].
  destruct (Ho i k) as (i' & k' & ->). by exists i', k'.
Qed.

Lemma listening_undisturbed n heard : undisturbed (listening n heard).
Proof.
  split; [intros g g' E1 E2 _; by apply listening_same|]. intros now g Hg.
  pose proof (session_steps n heard heard now (OpSetInput InputStatePreviewing) g) as Hs. cbn [step out_snapshot fst] in Hs.
  destruct (SetInputState now InputStatePreviewing (gw_session g)) as [s r]. apply Hs; [|done]. intros i k. by exists InputStatePreviewing, k.
Qed.

Ltac unheard := eapply un_same; [first [eassumption|apply listening_undisturbed]|..|eassumption]; unfold gw_session; by read_fields.

(** ** The preview hears without touching the turn *)

Section Undisturbed.

Context (I : runtime -> Prop) (HI : undisturbed I).

Lemma safe_write e : safe I (WriteEvent e).
Proof. intros g Hg. rewrite write_ok. eexists _, tt. split; [reflexivity|]. unheard. Qed.

Lemma safe_deadline sn : safe I (applyReadDeadline profile sn).
Proof. intros g Hg. rewrite deadline_ok. eexists _, tt. split; [reflexivity|]. unheard. Qed.

Lemma safe_now : safe I (gw_now clock).
Proof. intros g Hg. unfold gw_now. eexists _, _. split; [reflexivity|]. unheard. Qed.

Lemma keeps_previewing : keeps I (set_previewing clock).
Proof.
  unfold set_previewing. apply keeps_bind; [|intros _; apply keeps_ret]. apply safe_keeps, safe_try.
  apply keeps_bind; [apply safe_keeps, safe_now|]. intros now g Hg. unfold ends.
  pose proof (un_input I HI now g Hg) as H. by destruct (SetInputState now InputStatePreviewing (gw_session g)) as [s r].
Qed.

Lemma keeps_observe now sessionID o : keeps I (observe_preview clock now sessionID o).
Proof.
  unfold observe_preview. apply keeps_bind; [destruct (ob_Active o); [apply keeps_previewing|apply keeps_ret]|]. intros _ g Hg.
  unfold ends. destruct (ObservePreview _ _ _ _) as [p [t u]]. cbn [fst]. unheard.
Qed.

Lemma keeps_observe_each sessionID os : keeps I (observe_each clock sessionID os).
Proof.
  induction os as [|o os IH]; cbn [observe_each]; [apply keeps_ret|]. apply keeps_bind; [apply safe_keeps, safe_now|]. intros now.
  apply keeps_bind; [apply keeps_observe|]. intros x. apply keeps_bind; [exact IH|]. intros xs. apply keeps_ret.
Qed.

Lemma keeps_ensure snapshot language : keeps I (ensureInputPreview snapshot language).
Proof. intros g Hg. unfold ends, ensureInputPreview. destruct (start_input_preview _ _) as [v e]. cbn [fst]. unheard. Qed.

Lemma keeps_push payload : keeps I (pushInputPreviewAudio clock payload).
Proof.
  unfold pushInputPreviewAudio. apply keeps_bind; [by intros g Hg|]. intros sessionID. apply keeps_bind; [apply safe_keeps, safe_now|].
  intros now. apply keeps_bind; [apply keeps_update; intros g Hg; unheard|]. intros _. apply keeps_bind; [apply safe_keeps, safe_now|].
  intros now' g Hg. unfold ends. destruct (PushInputPreviewAudioProgressively now' payload (gw_voice g)) as [[v emitted] final].
  assert (Hv : I (g <|gw_voice := v|>)) by unheard. revert Hv. generalize (g <|gw_voice := v|>). clear g Hg. intros g Hg.
  revert g Hg. change (keeps I (gw_bind (observe_each clock sessionID emitted) (fun observations =>
    match final with
    | Err e => gw_fail e
    | Ok o => if (len observations =? 0) && ob_Active o then observe_each clock sessionID [o] else gw_ret observations
    end))). apply keeps_bind; [apply keeps_observe_each|]. intros obs. destruct final as [o|e]; [|by intros g Hg].
  destruct (_ && _); [apply keeps_observe_each|apply keeps_ret].
Qed.

Lemma safe_write_all es : safe I (write_all es).
Proof. induction es as [|e es IH]; cbn [write_all]; [apply safe_ret|]. apply safe_bind; [apply safe_write|by intros _]. Qed.

Lemma safe_emit snapshot o : safe I (emitPreviewObservationEvents snapshot o).
Proof.
  intros g Hg. unfold emitPreviewObservationEvents. destruct (negb _); [by exists g, tt|]. cbv zeta. destruct (_ == _); [by exists g, tt|].
  by apply safe_write_all.
Qed.

Lemma safe_emit_each snapshot os : safe I (emit_observations snapshot os).
Proof. induction os as [|o os IH]; cbn [emit_observations]; [apply safe_ret|]. apply safe_bind; [apply safe_emit|by intros _]. Qed.

End Undisturbed.

(** ** Frames *)

(** The clock is read, then the session takes a step. *)
Lemma ask_step n heard heard' {X} (f : instant -> RealtimeSession -> RealtimeSession * result Error X) o (g : runtime) :
  (forall now s, (f now s).1 = (step now o s).1) ->
  (forall i k, exists i' k', astep_alive o (mkAlive i OutputStateIdle heard k) = Some (mkAlive i' OutputStateIdle heard' k')) ->
  listening n heard g ->
  exists now g1 g2, listening n heard g1 /\ ask_session clock f g = (g2, Ok (f now (gw_session g1)).2) /\ listening n heard' g2.
Proof.
  intros Hf Ho Hg. destruct (safe_now _ (listening_undisturbed n heard) g Hg) as (g1 & now & E & H1). unfold ask_session. rewrite (bind_ok _ _ _ _ _ E).
  pose proof (session_steps n heard heard' now o g1 Ho H1) as H2. rewrite <- Hf in H2.
  exists now, g1. destruct (f now (gw_session g1)) as [s r]. cbn [fst snd] in *. by eexists.
Qed.

Lemma ingest_succeeds now p s : active s = true -> exists sn, (IngestOwnedAudioFrame now p s).2 = Ok sn.
Proof. intros Ha. unfold IngestOwnedAudioFrame. rewrite Ha. by eexists. Qed.

(** A frame of the turn is heard, and nothing else changes hands. *)
Lemma frame_is_heard rate channels heard ended payload (g : runtime) :
  listening (PCM16InputNormalizer rate channels) heard g -> len payload <= MaxFrameBytes profile ->
  exists g', handleBinary clock profile ended payload g = (g', Ok tt) /\ listening (PCM16InputNormalizer rate channels) (heard ++ payload) g'.
Proof.
  intros Hg Hm. set (n := PCM16InputNormalizer rate channels) in *. destruct (listening_abs _ _ _ Hg) as [Ha Hs].
  unfold handleBinary. assert ((MaxFrameBytes profile <? len payload) = false) as -> by lia. cbv zeta.
  set (previous := Snapshot_ (gw_session g)) in *. clearbody previous.
  assert (En : normalize_payload payload g = (g, Ok (Ok payload))).
  { unfold normalize_payload. pose proof Hg as (_ & -> & _). subst n. cbn [Decode]. f_equal. destruct Hg as (_ & Hn & _). by destruct g; cbn in *; subst. }
  rewrite (bind_ok _ _ _ _ _ En). rewrite Hs. cbn [bool_decide]. rewrite bool_decide_eq_false_2 by done.
  unfold input_frame.
  destruct (ask_step n heard (heard ++ payload) (fun now => IngestOwnedAudioFrame now payload) (OpIngestOwned payload) g)
    as (now & g1 & g2 & H1 & E & H2); [done|by intros i k; exists InputStateActive, k|done|].
  destruct (ingest_succeeds now payload (gw_session g1)) as [sn Es]; [apply (listening_abs _ _ _ H1)|]. rewrite Es in E.
  rewrite (bind_ok _ _ _ _ _ E), (bool_decide_eq_false_2 (Snap_State previous = StateSpeaking)) by (by rewrite Hs).
  clear E Es H1 g1 Hg En g Ha.
  assert (Hsafe : safe (listening n (heard ++ payload)) (gw_bind
    (gw_when (ServerEndpointEnabled profile && (bool_decide (Snap_State previous = StateActive) || false))
       (gw_bind (gw_try (gw_bind (ensureInputPreview sn "") (fun _ => pushInputPreviewAudio clock payload)))
          (fun pushed => match pushed with Ok observations => emit_observations sn observations | Err _ => gw_ret tt end)))
    (fun _ => gw_bind (applyReadDeadline profile sn) (fun _ => gw_ret tt)))).
  { apply safe_bind.
    - apply safe_when, safe_bind; [apply safe_try, keeps_bind; [apply keeps_ensure, listening_undisturbed|intros _; apply keeps_push, listening_undisturbed]|].
      intros [os|e]; [apply safe_emit_each, listening_undisturbed|apply safe_ret].
    - intros _. apply safe_bind; [apply safe_deadline, listening_undisturbed|]. intros _. apply safe_ret. }
  destruct (Hsafe g2 H2) as (g' & [] & E & H'). by exists g'.
Qed.

(** The frames of a turn, one after the other. *)
Fixpoint hear (frames : list bytes) : gw (S := S) (P := P) unit :=
  match frames with
  | [] => gw_ret tt
  | f :: frames => gw_bind (handleBinary clock profile None f) (fun _ => hear frames)
  end.

Lemma frames_are_heard rate channels frames heard (g : runtime) :
  listening (PCM16InputNormalizer rate channels) heard g -> Forall (fun f => len f <= MaxFrameBytes profile) frames ->
  exists g', hear frames g = (g', Ok tt) /\ listening (PCM16InputNormalizer rate channels) (heard ++ concat frames) g'.
Proof.
  revert heard g. induction frames as [|f frames IH]; intros heard g Hg Hf; cbn [hear concat]; [rewrite app_nil_r; by exists g|].
  apply Forall_cons_1 in Hf as [Hf Hfs]. destruct (frame_is_heard _ _ _ None f g Hg Hf) as (g1 & E1 & H1).
  rewrite (bind_ok _ _ _ _ _ E1), app_assoc. by apply IH.
Qed.

(** ** The commit *)

Lemma keeps_clear_session n heard now (g : runtime) :
  listening n heard g -> listening n heard (OutputFlow.set_session (clearInputPreview_session now (gw_session g)) g).
Proof.
  intros (Hi & Hn & i & k & E). unfold listening. destruct (session_set (clearInputPreview_session now (gw_session g)) g) as [-> ->].
  split; [by apply clear_preview_fields|]. split; [done|]. rewrite (abs_clear_preview now _ _ Hi E). by exists (clearing_input i), k.
Qed.

Lemma safe_consume n heard : safe (listening n heard) (consumeInputPreview clock).
Proof.
  intros g Hg. unfold consumeInputPreview. destruct (PreviewClear _) as [p t]. destruct (FinalizeInputPreview _) as [v f].
  assert (H1 : listening n heard (g <|gw_previews := p|> <|gw_voice := v|>)) by unheard. revert H1.
  generalize (g <|gw_previews := p|> <|gw_voice := v|>). clear g Hg. intros g Hg.
  destruct (safe_now _ (listening_undisturbed n heard) g Hg) as (g1 & now & E & H1). rewrite (bind_ok _ _ _ _ _ E). unfold gw_bind, gw_update. cbn.
  eexists _, _. split; [reflexivity|]. by apply keeps_clear_session.
Qed.

Lemma commit_succeeds now s a : abs s = Some a -> exists t, (CommitTurn now s).2 = Ok t /\ ct_AudioPCM t = a_pending a.
Proof.
  intros Ha. destruct (commit_audio now s a Ha) as (t & E & Ep & _). cbn [step] in E. unfold out_turn in E. cbn [snd] in E.
  destruct (CommitTurn now s).2 as [t'|e]; [|done]. injection E as ->. by exists t.
Qed.

(** A commit ends in a turn with this audio for the responder, nothing staged and a session that thinks. *)
Definition hands_over (r : turn_responder B runtime) (ended : option (gw (S := S) (P := P) unit)) (reason : text)
    (commit : gw (S := S) (P := P) handler_end) (audio : bytes) (g : runtime) : Prop :=
  exists g' turn preview,
    commit g = accept_turn clock profile static duration_of r ended turn "audio_commit"
                 (firstNonEmptyValue [TrimSpace reason; txt "audio_commit"]) "" preview g' /\
    ct_AudioPCM turn = audio /\ pendingBargeIn (gw_barge g') = zero_pending /\
    exists k, abs (gw_session g') = Some (mkAlive InputStateCommitted OutputStateThinking [] k).

(** What was heard is what the turn is. *)
Lemma heard_is_committed n heard (r : turn_responder B runtime) ended sessionID reason snapshot (g : runtime) :
  listening n heard g -> Snap_State snapshot = StateActive ->
  hands_over r ended reason (commit_active clock profile static duration_of r ended sessionID reason snapshot) heard g.
Proof.
  intros Hg Hs. unfold hands_over, commit_active. rewrite Hs. cbn [negb]. rewrite bool_decide_eq_true_2 by done. cbn [negb].
  destruct (safe_consume _ _ g Hg) as (g1 & consumed & E & H1). rewrite (bind_ok _ _ _ _ _ E). clear E Hg g.
  destruct (safe_now _ (listening_undisturbed _ _) g1 H1) as (g2 & now & E & (Hi & _ & i & k & Ea)).
  destruct (commit_succeeds now (gw_session g2) _ Ea) as (turn & Ec & Ep). cbn [a_pending] in Ep.
  pose proof (step_abs now OpCommit _ Hi) as Hst. cbn [step out_turn fst] in Hst. rewrite Ea in Hst. cbn [astep astep_alive a_output a_turns commit_output] in Hst.
  assert (E' : ask_session clock CommitTurn g1 = (OutputFlow.set_session (CommitTurn now (gw_session g2)).1 g2, Ok (Ok turn))).
  { unfold ask_session. rewrite (bind_ok _ _ _ _ _ E), <- Ec. by destruct (CommitTurn now (gw_session g2)). }
  rewrite (bind_ok _ _ _ _ _ E'). unfold resetPending. rewrite (bind_ok _ _ _ _ _ eq_refl).
  eexists _, turn, _. split; [reflexivity|]. split; [exact Ep|].
  set (s := (CommitTurn now (gw_session g2)).1) in *. clearbody s. clear - Hst. destruct g2. split; [reflexivity|]. by eexists.
Qed.

Lemma interruption_format opts o ended (g : runtime) : gw_normalizer (after_interruption clock profile opts o ended g) = gw_normalizer g.
Proof.
  unfold after_interruption. cbv zeta. set (g1 := interrupted_output _ o ended g).
  assert (E : gw_normalizer g1 = gw_normalizer g) by (subst g1; unfold interrupted_output; by read_fields). rewrite <- E. clearbody g1.
  set (s1 := after_output _ _ _). clearbody s1. set (sn := Snapshot_ s1). clearbody sn. set (tid := tt_TurnID _). clearbody tid.
  destruct (ClearPreview opts), (ClearPending opts); unfold preview_cleared, marked, read_once, OutputFlow.set_session; by read_fields.
Qed.

(** The session as the interruption leaves it, with the audio that had been taken before. *)
Lemma interrupted_listens (n : InputNormalizer) a opts o ended (g : runtime) :
  session_inv (gw_session g) -> abs (gw_session g) = Some a -> gw_normalizer g = Some n -> ClearPreview opts = false ->
  listening n (a_pending a) (after_interruption clock profile opts o ended g).
Proof.
  intros Hi Ha Hn Hp. destruct (after_interruption_fields clock profile opts o ended g) as (t1 & t2 & trace & Es & _). rewrite Hp in Es.
  unfold listening. rewrite Es, interruption_format. pose proof (step_inv t1 (OpSetOutput OutputStateIdle) _ Hi) as H1.
  pose proof (step_abs t1 (OpSetOutput OutputStateIdle) _ Hi) as H2. rewrite Ha in H2. cbn [step] in H1, H2.
  assert (Hact : active (gw_session g) = true) by (unfold abs in Ha; by destruct (active (gw_session g))).
  rewrite set_output_ok in H1, H2 by done. cbn [out_snapshot fst] in H1, H2. split; [done|]. split; [done|]. rewrite H2.
  destruct a as [i out p k]. by exists i, k.
Qed.

(** The staged frames join the turn. *)
Lemma flush_joins n heard (g : runtime) :
  listening n heard g -> hasPendingBargeInAudio (gw_barge g) = true ->
  exists g' sn, flush_pending clock g = (g', Ok sn) /\ Snap_State sn = StateActive /\
    listening n (heard ++ concat (pending_chunks (pendingBargeIn (gw_barge g)))) g'.
Proof.
  intros Hg Hp. unfold flush_pending. set (staged := pendingBargeIn (gw_barge g)) in *.
  assert (E : exists g1 now, gw_now clock g = (g1, Ok now) /\ gw_barge g1 = gw_barge g /\ listening n heard g1).
  { destruct (safe_now _ (listening_undisturbed n heard) g Hg) as (g1 & now & E & H1). exists g1, now. split; [done|]. split; [|done].
    unfold gw_now in E. injection E as <- _. by read_fields. }
  destruct E as (g1 & now & E & Eb & H1). rewrite (bind_ok _ _ _ _ _ E). clear E Hg. rewrite <- Eb in Hp. subst staged. rewrite <- Eb. clear Eb g.
  unfold flushPendingBargeInAudio. unfold hasPendingBargeInAudio in Hp. set (p := pendingBargeIn (gw_barge g1)) in *.
  change (rt_session (gw_barge g1)) with (gw_session g1). destruct H1 as (Hi & Hn & i & k & Ha).
  destruct (ingest_chunks_abs now (pending_chunks p) zero_Snapshot (gw_session g1) _ Ha) as (s & sn & Ec & Hs).
  assert (Hlen : (len (pending_chunks p) =? 0) = false) by lia. rewrite Hlen in Hs. cbn [a_output a_pending a_turns] in Hs.
  rewrite Ec. destruct (pending_chunks p) as [|c cs]; [done|]. apply ingest_snapshot in Ec as (-> & Hi' & _); [|done].
  assert (H' : listening n (heard ++ concat (c :: cs)) (g1 <|gw_barge := mkRuntime s zero_pending|>)).
  { unfold listening, gw_session. read_fields. by repeat (split; [done|]); exists InputStateActive, k. }
  eexists _, _. split; [reflexivity|]. split; [|exact H']. destruct (listening_abs _ _ _ H') as [_ E]. unfold gw_session in E. by read_fields_in E.
Qed.

End Listening.

Section Promises.

Context {S P B : Type} `{!MemoryStore S} `{!PreviewSession P} {PV : Previewer P} {OD : OpusDecoder} {CN : Connection} {RL : Reliable}.
Context (clock : nat -> instant) (profile : RealtimeProfile) (static : list bytes -> B) (duration_of : B -> duration -> option duration).

Abbreviation runtime := (gateway S P).

(** C5. The audio of a turn is what was said.  On a connection that listens, in
    the plain PCM format and with [heard] of the turn taken already, any frames
    of an allowed size are taken without an error, whatever the preview does with
    them, and the commit that follows hands the responder a turn whose audio is
    [heard] and then the frames, in order and complete; the session then has
    nothing pending and thinks. *)
Theorem heard_frames_are_the_turn rate channels heard frames (r : turn_responder B runtime) ended sessionID reason (g : runtime) :
  listening (PCM16InputNormalizer rate channels) heard g -> Forall (fun f => len f <= MaxFrameBytes profile) frames ->
  hands_over clock profile static duration_of r ended reason
    (gw_bind (hear clock profile frames) (fun _ => handleCommit clock profile static duration_of r ended sessionID (Ok reason)))
    (heard ++ concat frames) g.
Proof.
  intros Hg Hf. destruct (frames_are_heard clock profile _ _ _ _ g Hg Hf) as (g1 & E & H1). unfold hands_over. rewrite (bind_ok _ _ _ _ _ E).
  destruct (listening_abs _ _ _ H1) as [_ Hs]. unfold handleCommit. rewrite Hs, bool_decide_eq_false_2 by done. cbn [andb].
  by apply (heard_is_committed clock profile static duration_of _ _ r ended sessionID reason _ g1 H1).
Qed.

(** C6. What the user said over the server's voice is not lost.  A commit that
    arrives while the server speaks and frames are staged stops the answer (the
    session's output lane goes from speaking to thinking about the new turn), and
    the turn it hands to the responder has the audio that was pending before the
    answer and then every staged frame; nothing stays staged. *)
Theorem staged_frames_are_the_turn n a o inTime (r : turn_responder B runtime) ended sessionID reason (g : runtime) :
  session_inv (gw_session g) -> abs (gw_session g) = Some a -> Snap_State (Snapshot_ (gw_session g)) = StateSpeaking ->
  gw_normalizer g = Some n -> gw_output g = Some o -> hasPendingBargeInAudio (gw_barge g) = true -> ended = quiet_end inTime ->
  hands_over clock profile static duration_of r ended reason
    (handleCommit clock profile static duration_of r ended sessionID (Ok reason))
    (a_pending a ++ concat (pending_chunks (pendingBargeIn (gw_barge g)))) g.
Proof.
  intros Hi Ha Hs Hn Ho Hp ->. unfold hands_over, handleCommit. rewrite Hs, Hp, bool_decide_eq_true_2 by done. cbn [andb].
  assert (Hact : active (gw_session g) = true) by (unfold abs in Ha; by destruct (active (gw_session g))).
  set (opts := mkInterruptOptions false false (ByPolicy InterruptionPolicyHardInterrupt
    (firstNonEmptyValue [TrimSpace reason; txt "explicit_commit_during_speaking"]))).
  set (g1 := after_interruption clock profile opts o inTime g).
  assert (Ep : pendingBargeIn (gw_barge g1) = pendingBargeIn (gw_barge g))
    by (unfold g1; by destruct (after_interruption_fields clock profile opts o inTime g) as (? & ? & ? & _ & _ & _ & _ & -> & _)).
  destruct (flush_joins clock n (a_pending a) g1) as (g2 & sn & E2 & Hsn & H2).
  { by apply interrupted_listens. }
  { unfold hasPendingBargeInAudio in *. by rewrite Ep. }
  rewrite Ep in H2. assert (E : commit_during_speaking clock profile (quiet_end inTime) reason g = (g2, Ok sn)).
  { unfold commit_during_speaking, quiet_end. fold opts. rewrite (bind_ok _ _ _ _ _ (interruption_ok clock profile g opts o inTime Hact Hs Ho eq_refl)).
    exact E2. }
  rewrite (bind_ok _ _ _ _ _ E). exact (heard_is_committed clock profile static duration_of n _ r _ sessionID reason sn g2 H2 Hsn).
Qed.

Lemma refuse_ok sessionID code message recoverable (g : runtime) :
  refuse sessionID code message recoverable g = (g <|gw_events := gw_events g ++ [ErrorEvent sessionID code message recoverable]|>, Ok Returned).
Proof. unfold refuse, finished. by rewrite (bind_ok _ _ _ _ _ (write_ok _ g)). Qed.

(** One error is written; nothing else has changed but the readings of the clock. *)
Definition explained (recoverable : bool) (g g' : runtime) : Prop :=
  gw_session g' = gw_session g /\ gw_voice g' = gw_voice g /\ gw_normalizer g' = gw_normalizer g /\ gw_output g' = gw_output g /\
  pendingBargeIn (gw_barge g') = pendingBargeIn (gw_barge g) /\ gw_ack g' = gw_ack g /\
  exists sessionID code message, gw_events g' = gw_events g ++ [ErrorEvent sessionID code message recoverable].

Lemma refuse_explains sessionID code message recoverable (g g1 : runtime) :
  g1 = g \/ (exists n, g1 = g <|gw_reads := n|>) ->
  exists g', refuse sessionID code message recoverable g1 = (g', Ok Returned) /\ explained recoverable g g'.
Proof.
  intros H. rewrite refuse_ok. eexists. split; [reflexivity|]. unfold explained, gw_session.
  destruct H as [->|[n ->]]; read_fields; by repeat split; eexists _, _, _.
Qed.

(** A refused method leaves the session as it is. *)
Lemma ask_refused {X} (f : instant -> RealtimeSession -> RealtimeSession * result Error X) e (g : runtime) :
  (forall now, f now (gw_session g) = (gw_session g, Err e)) ->
  exists n, ask_session clock f g = (g <|gw_reads := n|>, Ok (Err e)).
Proof.
  intros Hf. unfold ask_session, gw_now, gw_bind. cbn.
  assert (Es : forall n, gw_session (g <|gw_reads := n|>) = gw_session g) by (intros n; unfold gw_session; by read_fields).
  rewrite Es, Hf. eexists. f_equal. destruct g as [[s p] v tr pv co ak ou k dl ev rd nm]. reflexivity.
Qed.

Lemma fresh_session now req s s' sn :
  Start now req s = (s', Ok sn) -> active s = false /\ sn = Snapshot_ s' /\ abs s' = Some (mkAlive InputStateActive OutputStateIdle [] 0).
Proof.
  unfold Start. destruct (active s); [done|]. cbv zeta. set (c := mkSnapshot _ _ _ _ _ _ _ _ _ _ _ _ _ _ _ _ _ _ _). 
  intros [= <- <-]. split; [done|]. split; [done|]. done.
Qed.

(** The payload and the normalizer of a session that can be opened. *)
Definition acceptable (decoded : result text sessionStartPayload) (isActive : bool) : option (sessionStartPayload * InputNormalizer) :=
  match decoded with
  | Err _ => None
  | Ok p =>
      match validateStartPayload profile p, NewInputNormalizer (sp_Codec p) (rp_InputSampleRate profile) (rp_InputChannels profile), isActive with
      | Ok _, Ok n, false => Some (p, n)
      | _, _, _ => None
      end
  end.

(** C13. What a start frame is answered, always, and without an error of the
    handler.  If the frame was decoded, its payload is valid under the profile,
    its codec has a normalizer and no session was active, a session is open that
    has heard nothing and listens in that codec, the collaboration is the
    negotiated one and one [session.update] describes the session.  In every other
    case one error is written, which is not recoverable, and nothing has changed. *)
Theorem session_start_opens_or_explains sessionID decoded (g : runtime) :
  session_inv (gw_session g) ->
  exists g', handleSessionStart clock profile sessionID decoded g = (g', Ok Returned) /\
    match acceptable decoded (active (gw_session g)) with
    | Some (p, n) =>
        listening n [] g' /\ gw_collaboration g' = negotiateVoiceCollaboration profile (sp_Capabilities p) /\
        gw_events g' = gw_events g ++ [sessionUpdateFromSnapshot (SessionID (Snapshot_ (gw_session g'))) (Snapshot_ (gw_session g')) "" ""]
    | None => explained false g g'
    end.
Proof.
  intros Hi. unfold handleSessionStart, acceptable.
  assert (Hr : forall code message, exists g', refuse sessionID code message false g = (g', Ok Returned) /\ explained false g g')
    by (intros code message; by apply refuse_explains; left).
  destruct decoded as [p|e]; [|apply Hr]. destruct (validateStartPayload profile p) as [[]|e]; [|apply Hr].
  destruct (NewInputNormalizer _ _ _) as [n|e]; [|apply Hr]. clear Hr. destruct (active (gw_session g)) eqn:Ha.
  - destruct (ask_refused (fun now => Start now (start_request_of sessionID p)) ErrSessionAlreadyActive g) as [k E].
    { intros now. unfold Start. by rewrite Ha. }
    rewrite (bind_ok _ _ _ _ _ E). apply refuse_explains. right. by exists k.
  - unfold ask_session, gw_now, gw_bind, gw_update, clearAck. cbn.
    destruct g as [[s q] v tr pv co ak ou k dl ev rd nm]. unfold gw_session in *. cbn in *.
    set (now := clock rd). pose proof (start_inv now (start_request_of sessionID p) s Hi) as Hi'.
    destruct (Start now (start_request_of sessionID p) s) as [s' [sn|e]] eqn:E;
      [|exfalso; revert E; unfold Start; by rewrite Ha]. cbn [fst] in Hi'. destruct (fresh_session _ _ _ _ _ E) as (_ & -> & Habs). clear E.
    cbn. rewrite deadline_ok. unfold finished, gw_bind. rewrite write_ok. cbn. eexists. split; [reflexivity|]. split; [|done].
    unfold listening, gw_session. cbn. split; [done|]. split; [done|]. rewrite Habs. by exists InputStateActive, 0.
Qed.

(** No session, and nothing left of one. *)
Definition idle (g : runtime) : Prop :=
  session_inv (gw_session g) /\ active (gw_session g) = false /\ gw_normalizer g = None /\ gw_output g = None.

(** The messages that are only for a session: all but a start frame, the
    acknowledgements, and the end of the socket; too large a frame is another matter. *)
Definition session_only (m : websocketInboundMessage) : bool :=
  match m with
  | TextMessage None | OtherMessage => true
  | TextMessage (Some (mkEnvelope _ payload)) =>
      match payload with
      | TypeAudioInCommit _ | TypeTextIn _ | TypeSessionEnd _ | TypeSessionUpdate _ | TypeOther _ => true
      | _ => false
      end
  | BinaryMessage payload => len payload <=? MaxFrameBytes profile
  | InboundError _ _ => false
  end.

Lemma idle_state (g : runtime) : idle g -> SessionID (Snapshot_ (gw_session g)) = [] /\ Snap_State (Snapshot_ (gw_session g)) = StateIdle.
Proof.
  intros (Hi & Ha & _). assert (Hid : SessionID (Snapshot_ (gw_session g)) = []).
  { destruct (SessionID (Snapshot_ (gw_session g))) eqn:E; [done|]. assert (active (gw_session g) = true) by (apply (inv_id _ Hi);
      unfold Snapshot_, cloneSnapshot in E; read_fields_in E; by rewrite E). congruence. }
  split; [done|]. rewrite snapshot_state, Hid. done.
Qed.

Definition explains (m : gw (S := S) (P := P) handler_end) (g : runtime) : Prop :=
  exists g', m g = (g', Ok Returned) /\ explained true g g'.

Lemma explains_refuse sessionID code message (g : runtime) : explains (refuse sessionID code message true) g.
Proof. apply refuse_explains. by left. Qed.

(** A method that is refused, and said so. *)
Lemma explains_asked {X} (f : instant -> RealtimeSession -> RealtimeSession * result Error X) e (k : result Error X -> gw handler_end) (g : runtime)
    sessionID code message :
  (forall now, f now (gw_session g) = (gw_session g, Err e)) -> k (Err e) = refuse sessionID code message true ->
  explains (gw_bind (ask_session clock f) k) g.
Proof.
  intros Hf Hk. destruct (ask_refused f e g Hf) as [n E]. unfold explains. rewrite (bind_ok _ _ _ _ _ E), Hk.
  apply refuse_explains. right. by exists n.
Qed.

Lemma explains_frame ended payload (g : runtime) :
  idle g -> len payload <= MaxFrameBytes profile -> explains (finished (handleBinary clock profile ended payload)) g.
Proof.
  intros Hg Hm. destruct (idle_state g Hg) as [_ Hs]. destruct Hg as (Hi & Ha & Hn & Ho). unfold explains, finished.
  assert (E : exists g1, handleBinary clock profile ended payload g = (g1, Ok tt) /\ explained true g g1).
  { unfold handleBinary. assert ((MaxFrameBytes profile <? len payload) = false) as -> by lia. cbv zeta.
    assert (En : normalize_payload payload g = (g, Ok (Ok payload))) by (unfold normalize_payload; by rewrite Hn).
    rewrite (bind_ok _ _ _ _ _ En), Hs, bool_decide_eq_false_2 by done. unfold input_frame.
    destruct (ask_refused (fun now => IngestOwnedAudioFrame now payload) ErrNoActiveSession g) as [k E];
      [intros now; unfold IngestOwnedAudioFrame; by rewrite Ha|].
    rewrite (bind_ok _ _ _ _ _ E), write_ok. eexists. split; [reflexivity|]. unfold explained, gw_session. read_fields.
    by repeat split; eexists _, _, _. }
  destruct E as (g1 & E1 & H1). exists g1. by rewrite (bind_ok _ _ _ _ _ E1).
Qed.

(** The end of a session there is not. *)
Lemma explains_end ended sessionID decoded (g : runtime) : idle g -> explains (handleClientEnd clock profile ended sessionID decoded) g.
Proof.
  intros (Hi & Ha & Hn & Ho). unfold handleClientEnd. destruct decoded as [[reason message]|e]; [|apply explains_refuse].
  unfold explains. assert (E : interruptOutput ended g = (g, Ok false)) by (unfold interruptOutput, interruptOutputWithPolicy; by rewrite Ho).
  rewrite (bind_ok _ _ _ _ _ E). cbv zeta. set (why := reason_of_text _). clearbody why.
  assert (E1 : gw_try (endSession clock profile why message) g = (g <|gw_reads := Datatypes.S (gw_reads g)|>, Ok (Err (session_error ErrNoActiveSession)))).
  { destruct g as [[s q] v tr pv co ak ou k dl ev rd nm]. unfold gw_session in *. cbn in *. unfold gw_try, endSession, on_session, gw_now, gw_bind.
    cbn. unfold gw_session. cbn. unfold End_. rewrite Ha. done. }
  rewrite (bind_ok _ _ _ _ _ E1). assert (E2 : (session_error ErrNoActiveSession == session_error ErrNoActiveSession) = true) by (by vm_compute).
  rewrite E2. apply refuse_explains. right. by eexists.
Qed.

Lemma explains_control (r : turn_responder B runtime) ended sessionID payload (g : runtime) :
  idle g -> session_only (TextMessage (Some (mkEnvelope sessionID payload))) = true ->
  explains (handleControl clock profile static duration_of r ended (Some (mkEnvelope sessionID payload))) g.
Proof.
  intros Hg Hm. destruct (idle_state g Hg) as [Hid Hs]. unfold handleControl. destruct payload as [p|p|p|p|p|p|p|p|p|name]; try done.
  - unfold handleCommit. destruct p as [reason|e]; [|apply explains_refuse]. unfold explains. rewrite Hs, bool_decide_eq_false_2 by done.
    cbn [andb]. unfold commit_active. rewrite Hs, bool_decide_eq_false_2 by done. cbn [negb]. apply explains_refuse.
  - unfold handleText. destruct (negb _); [apply explains_refuse|]. destruct p as [s|e]; [|apply explains_refuse]. unfold explains.
    rewrite Hs, bool_decide_eq_false_2 by done. cbn [gw_when]. rewrite (bind_ok _ _ _ _ _ eq_refl).
    eapply (explains_asked AcceptText ErrNoActiveSession); [|reflexivity]. intros now. unfold AcceptText. by destruct Hg as (_ & -> & _).
  - by apply explains_end.
  - unfold handleSessionUpdate, explains. destruct p as [[b|e]|]; [|apply explains_refuse|]; rewrite Hid;
      cbn [text_eqb]; apply explains_refuse.
  - apply explains_refuse.
Qed.

(** C12. A connection without a session survives what it cannot serve.  Whatever
    message that is only for a session arrives there, or a frame that is not JSON
    or not text, the handler succeeds, writes one error, which is recoverable,
    and changes nothing: neither session nor turn nor output comes of it, and the
    connection is idle as before. *)
Theorem idle_connection_explains (r : turn_responder B runtime) ended m (g : runtime) :
  idle g -> session_only m = true ->
  exists g', handleInboundMessage clock profile static duration_of r ended m g = (g', Ok Returned) /\ explained true g g' /\ idle g'.
Proof.
  intros Hg Hm. assert (H : explains (handleInboundMessage clock profile static duration_of r ended m) g).
  { destruct m as [[[sessionID payload]|]|payload| |t e]; cbn [handleInboundMessage]; [| | | |done].
    - destruct (explains_control r ended sessionID payload g Hg Hm) as (g1 & E & H1). exists g1. unfold gw_try, gw_bind.
      by rewrite E.
    - destruct (explains_refuse "" "invalid_json" "control frame is not valid json" g) as (g1 & E & H1). exists g1.
      unfold gw_try, gw_bind, handleControl. by rewrite E.
    - apply explains_frame; [done|]. cbn in Hm. lia.
    - unfold explains. apply explains_refuse. }
  destruct H as (g' & E & H'). exists g'. split; [done|]. split; [done|]. destruct Hg as (Hi & Ha & Hn & Ho).
  destruct H' as (E1 & _ & E3 & E4 & _). unfold idle. by rewrite E1, E3, E4.
Qed.

End Promises.

(** ** A conversation *)

#[local] Existing Instance demo_session.
#[local] Existing Instance silent_decoder.
#[local] Existing Instance demo_previewer.
#[local] Existing Instance open_connection.
#[local] Existing Instance open_reliable.

Definition demo_fresh : gateway InMemoryMemoryStore unit := newConnectionRuntime demo_store.

Lemma session_start_opens_or_explains_witness :
  exists g' p n, handleSessionStart demo_clock talk_profile "sess" (Ok demo_start) demo_fresh = (g', Ok Returned) /\
    acceptable talk_profile (Ok demo_start) false = Some (p, n) /\ listening n [] g'.
Proof.
  destruct (session_start_opens_or_explains demo_clock talk_profile "sess" (Ok demo_start) demo_fresh) as (g' & E & H); [exact Session.new_inv|].
  assert (Ea : acceptable talk_profile (Ok demo_start) false = Some (demo_start, PCM16InputNormalizer 16000 1)) by reflexivity.
  change (active (gw_session demo_fresh)) with false in H. rewrite Ea in H. exists g', demo_start, (PCM16InputNormalizer 16000 1).
  split; [exact E|]. split; [exact Ea|]. apply H.
Defined.

(** The connection once its session is open. *)
Definition demo_open : gateway InMemoryMemoryStore unit :=
  (OutputFlow.set_session (Start demo_now (start_request_of "sess" demo_start) NewRealtimeSession).1 demo_fresh)
    <|gw_normalizer := Some (PCM16InputNormalizer 16000 1)|>.

Lemma heard_frames_are_the_turn_witness :
  exists g' turn preview,
    gw_bind (hear demo_clock talk_profile [["001"; "000"]%byte; ["002"; "000"]%byte])
      (fun _ => handleCommit demo_clock talk_profile (fun _ => tt) (fun _ _ => None) polite_responder None "sess" (Ok (txt "done"))) demo_open
    = accept_turn demo_clock talk_profile (fun _ => tt) (fun _ _ => None) polite_responder None turn "audio_commit"
        (firstNonEmptyValue [TrimSpace (txt "done"); txt "audio_commit"]) "" preview g' /\
    ct_AudioPCM turn = ["001"; "000"; "002"; "000"]%byte.
Proof.
  destruct (heard_frames_are_the_turn demo_clock talk_profile (fun _ => tt) (fun _ _ => None) 16000 1 []
    [["001"; "000"]%byte; ["002"; "000"]%byte] polite_responder None "sess" (txt "done") demo_open) as (g' & turn & pv & E & Ep & _).
  - split; [exact (start_inv demo_now (start_request_of "sess" demo_start) NewRealtimeSession Session.new_inv)|]. split; [done|].
    exists InputStateActive, 0. by vm_compute.
  - repeat constructor; by vm_compute.
  - exists g', turn, pv. split; [exact E|exact Ep].
Defined.

Lemma staged_frames_are_the_turn_witness :
  exists g' turn preview,
    handleCommit demo_clock talk_profile (fun _ => tt) (fun _ _ => None) polite_responder (quiet_end true) "sess" (Ok (txt ""))
      (demo_gateway <|gw_normalizer := Some (PCM16InputNormalizer 16000 1)|>)
    = accept_turn demo_clock talk_profile (fun _ => tt) (fun _ _ => None) polite_responder (quiet_end true) turn "audio_commit"
        (firstNonEmptyValue [TrimSpace (txt ""); txt "audio_commit"]) "" preview g' /\
    last (ct_AudioPCM turn) = Some "007"%byte.
Proof.
  destruct (abs demo_speaking) as [a|] eqn:Ea; [|by vm_compute in Ea].
  destruct (staged_frames_are_the_turn demo_clock talk_profile (fun _ => tt) (fun _ _ => None) (PCM16InputNormalizer 16000 1) a demo_output true
    polite_responder (quiet_end true) "sess" (txt "") (demo_gateway <|gw_normalizer := Some (PCM16InputNormalizer 16000 1)|>))
    as (g' & turn & pv & E & Ep & _);
    [exact demo_inv|exact Ea|by vm_compute|done|done|by vm_compute|done|].
  exists g', turn, pv. split; [exact E|]. rewrite Ep. cbn [pending_chunks concat demo_gateway gw_barge pendingBargeIn].
  change (concat (pending_chunks (pendingBargeIn (gw_barge (demo_gateway <|gw_normalizer := Some (PCM16InputNormalizer 16000 1)|>)))))
    with ["007"%byte]. by rewrite last_snoc.
Defined.

Lemma idle_connection_explains_witness :
  exists g', handleInboundMessage demo_clock talk_profile (fun _ => tt) (fun _ _ => None) polite_responder None (BinaryMessage ["001"]%byte) demo_fresh
      = (g', Ok Returned) /\ explained true demo_fresh g' /\ idle g'.
Proof.
  apply (idle_connection_explains demo_clock talk_profile (fun _ => tt) (fun _ _ => None) polite_responder None (BinaryMessage ["001"]%byte) demo_fresh);
    [split; [exact Session.new_inv|done]|by vm_compute].
Defined.

(** The speech the staged frames are taken for starts in the trace, and no
    observation says so: [previewForBargeIn] drops what its second
    [ObservePreview] found new, and the next frame finds it old. *)
Lemma barge_in_speech_start_is_not_told :
  let snapshot := Snapshot_ (gw_session demo_gateway) in
  match gw_bind (previewForBargeIn demo_clock snapshot ["001"]%byte) (fun o =>
    gw_bind (previewForBargeIn demo_clock snapshot ["001"]%byte) (fun o' => gw_ret (o, o'))) demo_gateway with
  | (g', Ok (o, o')) =>
      SpeechStarted (io_Preview o) = true /\ SpeechStarted (io_Preview o') = true /\
      io_SpeechStartedObserved o = false /\ io_SpeechStartedObserved o' = false /\
      IsZero (SpeechStartedAt (preview_current (gw_previews g'))) = false
  | _ => False
  end.
Proof. vm_compute. by repeat split. Qed.
