(* ===== verification/XiaozhiProtocol.v ===== *)
(** * The frames of the Xiaozhi protocol
      (internal/gateway/xiaozhi_protocol.go, xiaozhi.go, xiaozhi_ota.go, the packet
      stream of xiaozhi_audio.go, the text helpers of xiaozhi_ws.go)

    Devices of the Xiaozhi family wrap every binary frame in a header of the
    protocol version they agreed on.  A read out of the bounds of a slice is a
    panic, a value of the error sum.  The encoder is a subprocess and the pages of
    its output come from a third-party reader: they are a list here.  The update
    endpoint answers from a decoded request. *)

From S2P Require Import Prelude GoText SlotValues Audio TurnResponse TurnFlow.

Record XiaozhiCompatProfile := mkXiaozhiProfile {
  xp_Enabled : bool;
  xp_WSPath : text;
  xp_OTAPath : text;
  WelcomeVersion : Z;
  WelcomeTransport : text;
  xp_InputCodec : text;
  xp_InputSampleRate : Z;
  xp_InputChannels : Z;
  xp_InputFrameDurationMs : Z;
  xp_MaxFrameBytes : Z;
  xp_IdleTimeoutMs : Z;
  xp_MaxSessionMs : Z;
  xp_ServerEndpointEnabled : bool;
  SourceOutputCodec : text;
  SourceOutputRate : Z;
  SourceOutputChannels : Z;
  xp_OutputCodec : text;
  xp_OutputSampleRate : Z;
  xp_OutputChannels : Z;
  xp_OutputFrameDurationMs : Z
}.

(** ** Versions *)

Definition xiaozhiBinaryProtocolV1 : Z := 1.
Definition xiaozhiBinaryProtocolV2 : Z := 2.
Definition xiaozhiBinaryProtocolV3 : Z := 3.
Definition xiaozhiBinaryTypeAudio : Z := 0.
Definition xiaozhiBinaryProtocol2HeaderSize : Z := 16.
Definition xiaozhiBinaryProtocol3HeaderSize : Z := 4.

Definition normalizeXiaozhiProtocolVersion (version : Z) : Z :=
  if (version =? xiaozhiBinaryProtocolV2) || (version =? xiaozhiBinaryProtocolV3) then version else xiaozhiBinaryProtocolV1.

Definition parseXiaozhiProtocolVersion (raw : text) : Z :=
  match Atoi (TrimSpace raw) with
  | None => xiaozhiBinaryProtocolV1
  | Some parsed => normalizeXiaozhiProtocolVersion parsed
  end.

Definition resolveXiaozhiProtocolVersion (headerValue : text) (helloVersion fallback : Z) : Z :=
  let version := normalizeXiaozhiProtocolVersion fallback in
  let version := if TrimSpace headerValue != "" then parseXiaozhiProtocolVersion headerValue else version in
  if 0 <? helloVersion then normalizeXiaozhiProtocolVersion helloVersion else version.

(** ** Frames *)

(** [binary.BigEndian.Uint16] and [Uint32], and their writers. *)
Definition be_value (bs : bytes) : Z := le_value (rev bs).
Definition be_bytes (k : nat) (z : Z) : bytes := rev (le_bytes k z).

Definition unwrap_v2 (payload : bytes) : result go_error bytes :=
  if len payload <? xiaozhiBinaryProtocol2HeaderSize
  then Err (GoError (txt "xiaozhi protocol v2 frame shorter than " ++ Itoa xiaozhiBinaryProtocol2HeaderSize ++ txt "-byte header"))
  else
    let! version := slice payload 0 2 in
    let frameVersion := be_value version in
    if negb (normalizeXiaozhiProtocolVersion frameVersion =? xiaozhiBinaryProtocolV2)
    then Err (GoError (txt "xiaozhi protocol v2 header declared version " ++ Itoa frameVersion))
    else
      let! type := slice payload 2 4 in
      let frameType := be_value type in
      if negb (frameType =? xiaozhiBinaryTypeAudio)
      then Err (GoError (txt "unsupported xiaozhi protocol v2 frame type " ++ Itoa frameType))
      else
        let! size := slice payload 12 16 in
        let payloadSize := be_value size in
        if (payloadSize <? 0) || (len payload - xiaozhiBinaryProtocol2HeaderSize <? payloadSize)
        then Err (GoError (txt "xiaozhi protocol v2 payload_size " ++ Itoa payloadSize ++ txt " exceeds frame body"))
        else slice payload xiaozhiBinaryProtocol2HeaderSize (xiaozhiBinaryProtocol2HeaderSize + payloadSize).

Definition unwrap_v3 (payload : bytes) : result go_error bytes :=
  if len payload <? xiaozhiBinaryProtocol3HeaderSize
  then Err (GoError (txt "xiaozhi protocol v3 frame shorter than " ++ Itoa xiaozhiBinaryProtocol3HeaderSize ++ txt "-byte header"))
  else
    let! type := indexed payload 0 in
    let frameType := byte_val type in
    if negb (frameType =? xiaozhiBinaryTypeAudio)
    then Err (GoError (txt "unsupported xiaozhi protocol v3 frame type " ++ Itoa frameType))
    else
      let! size := slice payload 2 4 in
      let payloadSize := be_value size in
      if (payloadSize <? 0) || (len payload - xiaozhiBinaryProtocol3HeaderSize <? payloadSize)
      then Err (GoError (txt "xiaozhi protocol v3 payload_size " ++ Itoa payloadSize ++ txt " exceeds frame body"))
      else slice payload xiaozhiBinaryProtocol3HeaderSize (xiaozhiBinaryProtocol3HeaderSize + payloadSize).

(** Every version is normalized to one of the three: the last error of the switch is never reached. *)
Definition unwrapXiaozhiBinaryFrame (payload : bytes) (version : Z) : result go_error bytes :=
  let v := normalizeXiaozhiProtocolVersion version in
  if v =? xiaozhiBinaryProtocolV1 then Ok payload
  else if v =? xiaozhiBinaryProtocolV2 then unwrap_v2 payload
  else if v =? xiaozhiBinaryProtocolV3 then unwrap_v3 payload
  else Err (GoError (txt "unsupported xiaozhi protocol version " ++ Itoa version)).

Definition wrapXiaozhiBinaryFrame (payload : bytes) (version : Z) : result go_error bytes :=
  let v := normalizeXiaozhiProtocolVersion version in
  if v =? xiaozhiBinaryProtocolV1 then Ok payload
  else if v =? xiaozhiBinaryProtocolV2 then
    Ok (be_bytes 2 xiaozhiBinaryProtocolV2 ++ be_bytes 2 xiaozhiBinaryTypeAudio ++ repeat Byte.x00 8 ++ be_bytes 4 (len payload) ++ payload)
  else if v =? xiaozhiBinaryProtocolV3 then
    if 65535 <? len payload then Err (GoError (txt "xiaozhi protocol v3 payload exceeds 65535 bytes"))
    else Ok (byte_of xiaozhiBinaryTypeAudio :: Byte.x00 :: be_bytes 2 (len payload) ++ payload)
  else Err (GoError (txt "unsupported xiaozhi protocol version " ++ Itoa version)).

(** ** Helpers of the handler *)

Definition maxInt (value fallback : Z) : Z := if 0 <? value then value else fallback.

Fixpoint firstNonEmptyInt (values : list Z) : Z :=
  match values with [] => 0 | v :: values => if 0 <? v then v else firstNonEmptyInt values end.

(** The texts of a response, by its deltas or as a whole. *)
Definition responseTextForXiaozhi {A} (r : TurnResponse A) : text :=
  let parts := map rd_Text (List.filter (fun d => is_text_delta d && negb (TrimSpace (rd_Text d) == "")) (responseDeltasForEmission r true)) in
  let parts := if (len parts =? 0) && (TrimSpace (rsp_Text r) != "") then [rsp_Text r] else parts in
  TrimSpace (Join parts "").

(** ** The packets of the encoder *)

Definition bytes_prefix (p b : bytes) : bool := bool_decide (take (length p) b = p).
Definition opus_header_packet (segment : bytes) : bool :=
  bytes_prefix (ascii_bytes "OpusTags") segment || bytes_prefix (ascii_bytes "OpusHead") segment.

(** The pages still to come, each a list of segments. *)
Record ffmpegOggOpusPacketStream := mkPacketStream {
  fo_pages : list (list bytes);
  fo_end : stream_error; (* what ends the pages; [wait]'s error if the encoder failed *)
  fo_pending : list bytes
}.

Definition page_packets (segments : list bytes) : list bytes :=
  if (len segments =? 1) && match segments with [p] => opus_header_packet p | _ => false end then []
  else List.filter (fun s => negb (len s =? 0) && negb (opus_header_packet s)) segments.

(** Pages are read until one has a packet. *)
Fixpoint read_pages (pages : list (list bytes)) : list bytes * list (list bytes) :=
  match pages with
  | [] => ([], [])
  | page :: pages =>
      match page_packets page with
      | [] => read_pages pages
      | packets => (packets, pages)
      end
  end.

Definition packets_Next (s : ffmpegOggOpusPacketStream) : result stream_error bytes * ffmpegOggOpusPacketStream :=
  let '(pending, pages) := match fo_pending s with [] => read_pages (fo_pages s) | pending => (pending, fo_pages s) end in
  match pending with
  | [] => (Err (fo_end s), mkPacketStream pages (fo_end s) [])
  | chunk :: pending => (Ok chunk, mkPacketStream pages (fo_end s) pending)
  end.

(** ** The update endpoint *)

(** What the endpoint reads of a request; [ota_Version] is what the body decodes to. *)
Record xiaozhiOTARequest := mkOTARequest {
  ota_Method : text;
  X_Forwarded_Host : text;
  request_Host : text;
  X_Forwarded_Proto : text;
  request_TLS : bool;
  ota_Version : text
}.

Record xiaozhiOTAResponse := mkOTAResponse {
  Timestamp : Z;
  TimezoneOffset : Z;
  firmware_Version : text;
  websocket_URL : text
}.

(** The answers, all with the same headers for other origins. *)
Inductive ota_answer := OTANoContent | OTAText (body : text) | OTAJSON (r : xiaozhiOTAResponse) | OTANotAllowed.

Definition websocketURLForRequest (r : xiaozhiOTARequest) (wsPath : text) : text :=
  let host := TrimSpace (X_Forwarded_Host r) in
  let host := if host == "" then TrimSpace (request_Host r) else host in
  let proto := ToLower (TrimSpace (X_Forwarded_Proto r)) in
  let proto := if proto == "" then (if request_TLS r then txt "https" else txt "http") else proto in
  let wsScheme := if proto == txt "https" then txt "wss" else txt "ws" in
  wsScheme ++ txt "://" ++ host ++ wsPath.

(** [UnixMilli], rounded down. *)
Definition UnixMilli (t : instant) : Z := (t - unix_epoch) / Millisecond.

Definition ota_ServeHTTP (profile : XiaozhiCompatProfile) (now : instant) (offsetSeconds : Z) (r : xiaozhiOTARequest) : ota_answer :=
  if ota_Method r == txt "OPTIONS" then OTANoContent
  else if ota_Method r == txt "GET"
  then OTAText (txt "OTA接口运行正常，向设备发送的websocket地址是：" ++ websocketURLForRequest r (xp_WSPath profile))
  else if ota_Method r == txt "POST"
  then OTAJSON (mkOTAResponse (UnixMilli now) (Z.quot offsetSeconds 60) (TrimSpace (ota_Version r)) (websocketURLForRequest r (xp_WSPath profile)))
  else OTANotAllowed.

(** A device that asks over TLS is sent to the secure socket of the host it asked. *)
Example device_is_sent_to_the_secure_socket :
  websocketURLForRequest (mkOTARequest "POST" "" " voice.example " " HTTPS " false "1.0") "/xiaozhi/v1" = txt "wss://voice.example/xiaozhi/v1".
Proof. vm_compute. reflexivity. Qed.

(** ** What is wrapped is unwrapped *)

Lemma len_be_bytes k z : len (be_bytes k z) = Z.of_nat k.
Proof. unfold be_bytes, len. rewrite length_rev. by rewrite length_le_bytes. Qed.

Lemma be_value_bytes k z : 0 <= z < 256 ^ Z.of_nat k -> be_value (be_bytes k z) = z.
Proof. intros Hz. unfold be_value, be_bytes. rewrite rev_involutive. by apply le_value_bytes. Qed.

(** A part of a frame, by what is before and after it. *)
Lemma slice_part (frame p m q : bytes) a b :
  frame = p ++ m ++ q -> a = len p -> b = len p + len m -> slice frame a b = Ok m.
Proof. intros ->. apply slice_middle. Qed.

Lemma normalized_version v : normalizeXiaozhiProtocolVersion v = 1 \/ normalizeXiaozhiProtocolVersion v = 2 \/ normalizeXiaozhiProtocolVersion v = 3.
Proof. unfold normalizeXiaozhiProtocolVersion, xiaozhiBinaryProtocolV1, xiaozhiBinaryProtocolV2, xiaozhiBinaryProtocolV3. split_if; lia. Qed.

Lemma unwrap_wrapped_v2 payload rest :
  len payload < 2 ^ 32 ->
  unwrap_v2 (be_bytes 2 2 ++ be_bytes 2 0 ++ repeat Byte.x00 8 ++ be_bytes 4 (len payload) ++ payload ++ rest) = Ok payload.
Proof.
  intros Hp. pose proof (len_nonneg payload). pose proof (len_nonneg rest). unfold unwrap_v2, xiaozhiBinaryProtocol2HeaderSize.
  set (frame := be_bytes 2 2 ++ _).
  assert (Hl : len frame = 16 + len payload + len rest) by (subst frame; rewrite !len_app, !len_be_bytes; change (len (repeat Byte.x00 8)) with 8; lia).
  assert ((len frame <? 16) = false) as -> by lia.
  rewrite (slice_part frame [] (be_bytes 2 2) (drop 2 frame) 0 2) by done. cbn [result_bind].
  rewrite (be_value_bytes 2 2) by (cbn; lia). cbn [negb normalizeXiaozhiProtocolVersion].
  rewrite (slice_part frame (be_bytes 2 2) (be_bytes 2 0) (drop 4 frame) 2 4) by done. cbn [result_bind].
  rewrite (be_value_bytes 2 0) by (cbn; lia). cbn [negb].
  rewrite (slice_part frame (be_bytes 2 2 ++ be_bytes 2 0 ++ repeat Byte.x00 8) (be_bytes 4 (len payload)) (payload ++ rest) 12 16)
    by (subst frame; rewrite ?len_app, ?len_be_bytes; try done; by rewrite <- !app_assoc).
  cbn [result_bind]. rewrite be_value_bytes by (cbn; lia).
  assert ((len payload <? 0) || (len frame - 16 <? len payload) = false) as -> by lia.
  apply (slice_part frame (be_bytes 2 2 ++ be_bytes 2 0 ++ repeat Byte.x00 8 ++ be_bytes 4 (len payload)) payload rest);
    [subst frame; by rewrite <- !app_assoc|..]; rewrite !len_app, !len_be_bytes; change (len (repeat Byte.x00 8)) with 8; lia.
Qed.

Lemma unwrap_wrapped_v3 payload rest :
  len payload <= 65535 -> unwrap_v3 (byte_of 0 :: Byte.x00 :: be_bytes 2 (len payload) ++ payload ++ rest) = Ok payload.
Proof.
  intros Hp. pose proof (len_nonneg payload). pose proof (len_nonneg rest). unfold unwrap_v3, xiaozhiBinaryProtocol3HeaderSize.
  set (frame := byte_of 0 :: _).
  assert (Hl : len frame = 4 + len payload + len rest) by (subst frame; rewrite !len_cons, !len_app, !len_be_bytes; lia).
  assert ((len frame <? 4) = false) as -> by lia. change (indexed frame 0) with (Ok (E := go_error) (byte_of 0)). cbn [result_bind].
  rewrite byte_of_val. cbn [negb Z.modulo].
  rewrite (slice_part frame [byte_of 0; Byte.x00] (be_bytes 2 (len payload)) (payload ++ rest) 2 4) by (rewrite ?len_be_bytes; done).
  cbn [result_bind]. rewrite be_value_bytes by (cbn; lia).
  change (0 mod 256) with 0. cbn [xiaozhiBinaryTypeAudio Z.eqb negb].
  assert ((len payload <? 0) || (len frame - 4 <? len payload) = false) as -> by lia.
  apply (slice_part frame (byte_of 0 :: Byte.x00 :: be_bytes 2 (len payload)) payload rest); [done|..];
    rewrite !len_cons, !len_be_bytes; lia.
Qed.

(** No payload makes the reader panic. *)
Lemma unwrap_no_panic payload version : unwrapXiaozhiBinaryFrame payload version <> Err GoPanic.
Proof.
  unfold unwrapXiaozhiBinaryFrame. cbv zeta. split_if; [done|]. split_if; [|split_if; [|done]].
  - unfold unwrap_v2, xiaozhiBinaryProtocol2HeaderSize. split_if; [done|]. bool_prop.
    rewrite !slice_ok by lia. cbn [result_bind]. split_if; [done|]. split_if; [done|]. split_if; [done|]. bool_prop.
    by rewrite slice_ok by lia.
  - unfold unwrap_v3, xiaozhiBinaryProtocol3HeaderSize. split_if; [done|]. bool_prop. destruct payload as [|b payload]; [done|].
    change (indexed (b :: payload) 0) with (Ok (E := go_error) b). cbn [result_bind]. split_if; [done|]. rewrite slice_ok by lia.
    cbn [result_bind]. split_if; [done|]. bool_prop. by rewrite slice_ok by lia.
Qed.

(** A frame that was wrapped; and a payload that was refused. *)
Lemma wrap_then_unwrap payload version :
  len payload < 2 ^ 32 ->
  match wrapXiaozhiBinaryFrame payload version with
  | Ok frame =>
      unwrapXiaozhiBinaryFrame frame version = Ok payload /\
      (normalizeXiaozhiProtocolVersion version <> xiaozhiBinaryProtocolV1 -> forall rest,
         unwrapXiaozhiBinaryFrame (frame ++ rest) version = Ok payload)
  | Err _ => normalizeXiaozhiProtocolVersion version = xiaozhiBinaryProtocolV3 /\ 65535 < len payload
  end.
Proof.
  intros Hp. unfold wrapXiaozhiBinaryFrame, unwrapXiaozhiBinaryFrame. cbv zeta.
  destruct (normalized_version version) as [->|[->| ->]]; cbn [Z.eqb xiaozhiBinaryProtocolV1 xiaozhiBinaryProtocolV2 xiaozhiBinaryProtocolV3
    Pos.eqb].
  - by split.
  - split; [|intros _ rest].
    + pose proof (unwrap_wrapped_v2 payload [] Hp) as E. rewrite app_nil_r in E. exact E.
    + pose proof (unwrap_wrapped_v2 payload rest Hp) as E. by rewrite <- !app_assoc.
  - destruct (65535 <? len payload) eqn:E; [split; [done|lia]|]. split; [|intros _ rest].
    + pose proof (unwrap_wrapped_v3 payload [] ltac:(lia)) as H. rewrite app_nil_r in H. exact H.
    + pose proof (unwrap_wrapped_v3 payload rest ltac:(lia)) as H. cbn [app]. by rewrite <- app_assoc.
Qed.

Lemma wrapped_unwraps payload version frame :
  wrapXiaozhiBinaryFrame payload version = Ok frame -> len payload < 2 ^ 32 -> unwrapXiaozhiBinaryFrame frame version = Ok payload.
Proof. intros E Hp. pose proof (wrap_then_unwrap payload version Hp) as H. rewrite E in H. by destruct H. Qed.

(** Only an empty payload gives an empty frame. *)
Lemma wrapped_empty payload version : wrapXiaozhiBinaryFrame payload version = Ok [] -> payload = [].
Proof.
  unfold wrapXiaozhiBinaryFrame. cbv zeta. destruct (normalized_version version) as [->|[->| ->]]; [by intros [= ->]|by intros [= E]|].
  cbn [Z.eqb xiaozhiBinaryProtocolV1 xiaozhiBinaryProtocolV2 xiaozhiBinaryProtocolV3 Pos.eqb]. by destruct (65535 <? len payload).
Qed.

(** C40. A frame of a device survives its header.  Whatever version was agreed on, a
    payload shorter than 4 GiB is refused exactly when the version is 3 and it is
    longer than 65535 bytes; else it is wrapped, and unwrapping the frame in that
    version gives the payload back, in the versions with a header also when bytes
    follow it; and nothing a device sends in any version makes the reader panic. *)
Theorem xiaozhi_frame_round_trip payload version :
  len payload < 2 ^ 32 ->
  match wrapXiaozhiBinaryFrame payload version with
  | Ok frame =>
      unwrapXiaozhiBinaryFrame frame version = Ok payload /\
      (normalizeXiaozhiProtocolVersion version <> xiaozhiBinaryProtocolV1 -> forall rest,
         unwrapXiaozhiBinaryFrame (frame ++ rest) version = Ok payload)
  | Err _ => normalizeXiaozhiProtocolVersion version = xiaozhiBinaryProtocolV3 /\ 65535 < len payload
  end /\
  forall received, unwrapXiaozhiBinaryFrame received version <> Err GoPanic.
Proof. intros Hp. split; [by apply wrap_then_unwrap|]. intros received. apply unwrap_no_panic. Qed.

Lemma xiaozhi_frame_round_trip_witness :
  match wrapXiaozhiBinaryFrame ["001"; "002"]%byte 2 with
  | Ok frame => len frame = 18 /\ unwrapXiaozhiBinaryFrame frame 2 = Ok ["001"; "002"]%byte
  | Err _ => False
  end.
Proof.
  pose proof (xiaozhi_frame_round_trip ["001"; "002"]%byte 2 ltac:(by vm_compute)) as [H _].
  destruct (wrapXiaozhiBinaryFrame ["001"; "002"]%byte 2) as [frame|e] eqn:E; [|by vm_compute in E].
  split; [|exact (proj1 H)]. vm_compute in E. injection E as <-. reflexivity.
Defined.

(** ** The packets come out in order *)

Definition packets_of (s : ffmpegOggOpusPacketStream) : list bytes := fo_pending s ++ concat (map page_packets (fo_pages s)).

Lemma read_pages_packets pages :
  let '(packets, rest) := read_pages pages in concat (map page_packets pages) = packets ++ concat (map page_packets rest) /\
  (packets = [] -> rest = []).
Proof.
  induction pages as [|page pages IH]; [done|]. cbn [read_pages map concat]. destruct (page_packets page) as [|p ps] eqn:E; [|done].
  destruct (read_pages pages) as [packets rest]. cbn [app]. exact IH.
Qed.

Lemma packets_in_order (s : ffmpegOggOpusPacketStream) :
  match packets_Next s with
  | (Ok chunk, s') => packets_of s = chunk :: packets_of s' /\ fo_end s' = fo_end s
  | (Err e, s') => packets_of s = [] /\ e = fo_end s
  end.
Proof.
  destruct s as [pages e pending]. unfold packets_Next, packets_of. cbn [fo_pages fo_end fo_pending].
  destruct pending as [|c cs]; [|by cbn [fo_pending fo_pages app]]. pose proof (read_pages_packets pages) as H.
  destruct (read_pages pages) as [packets rest]. destruct H as [H1 H2]. cbn [app]. rewrite H1.
  destruct packets as [|c cs]; [by rewrite H2|]. by cbn [fo_pending fo_pages fo_end app].
Qed.
