(* ===== verification/XiaozhiHandler.v ===== *)
(** * The Xiaozhi transport (internal/gateway/xiaozhi_ws.go)

    A second transport for one family of devices, over the same runtime, flows and
    responders as the realtime one.  Beside the runtime a connection keeps a
    compatibility state; the handlers are computations over both.  The messages a
    control frame decodes to, one per type it could have, are arguments, as are the
    end of a cancelled playback goroutine ([ended]) and the encoder, a subprocess.
    This transport never installs playback acks.  Log lines are left out. *)

From S2P Require Import Prelude GoText Contracts Lexical BargeIn Playback Memory Session Orchestrator BargeInRuntime.
From S2P Require Import Audio InputAudio TurnTrace GatewayProfile OutputEffects TurnResponse TurnFlow OutputFlow InputFlow TurnRun.
From S2P Require Import RealtimeHandler XiaozhiProtocol.

(** ** Messages and state *)

Record xiaozhiAudioParams := mkXiaozhiAudio { Format : text; SampleRate : Z; Channels : Z; FrameDuration : Z }.

Record xiaozhiHelloMessage := mkHello {
  hello_Version : Z;
  hello_DeviceID : text;
  hello_DeviceMAC : text;
  hello_Audio : xiaozhiAudioParams
}.

Record xiaozhiListenMessage := mkListen { listen_State : text; listen_Mode : text; listen_Text : text }.

(** A control frame: its type, and what it decodes to as each kind of message. *)
Record xiaozhi_frame := mkXiaozhiFrame {
  frame_Type : text;
  as_hello : result text xiaozhiHelloMessage;
  as_listen : result text xiaozhiListenMessage;
  as_abort : result text unit
}.

(** [None]: the text is not JSON. *)
Inductive xiaozhi_inbound :=
| DeviceControl (frame : option xiaozhi_frame)
| DeviceAudio (payload : bytes)
| DeviceOther
| DeviceReadError (timeout : bool) (err : text).

Record xiaozhiCompatState := mkCompatState {
  cs_sessionID : text;
  cs_deviceID : text;
  cs_clientID : text;
  binaryProtocolVersion : Z;
  helloReceived : bool;
  inputCodec : text;
  inputSampleRate : Z;
  inputChannels : Z;
  inputFrameDurationMs : Z;
  listenMode : text;
  audioTurnOpen : bool
}.

#[export] Instance xiaozhiCompatState_rebuild : Rebuild xiaozhiCompatState := fun c =>
  mkCompatState (cs_sessionID c) (cs_deviceID c) (cs_clientID c) (binaryProtocolVersion c) (helloReceived c) (inputCodec c)
    (inputSampleRate c) (inputChannels c) (inputFrameDurationMs c) (listenMode c) (audioTurnOpen c).

(** The state of a new connection: from its headers and query, in this order. *)
Definition new_compat_state (p : XiaozhiCompatProfile) (now : instant) (headerVersion queryVersion headerDevice queryDevice
    headerClient queryClient : text) : xiaozhiCompatState :=
  let codec := ToLower (TrimSpace (xp_InputCodec p)) in
  mkCompatState (txt "sess_xiaozhi_" ++ Itoa (UnixNano now))
    (firstNonEmptyValue [TrimSpace headerDevice; TrimSpace queryDevice; txt "xiaozhi-device"])
    (firstNonEmptyValue [TrimSpace headerClient; TrimSpace queryClient])
    (resolveXiaozhiProtocolVersion (firstNonEmptyValue [TrimSpace headerVersion; TrimSpace queryVersion]) 0 (WelcomeVersion p))
    false (firstNonEmptyValue [codec; txt "opus"]) (maxInt (xp_InputSampleRate p) 16000) (maxInt (xp_InputChannels p) 1)
    (maxInt (xp_InputFrameDurationMs p) 60) "auto" false.

(** ** Computations over the runtime and the compatibility state *)

Section Device.

Context {S P B : Type} `{!MemoryStore S} `{!PreviewSession P} {PV : Previewer P} {OD : OpusDecoder} {CN : Connection}.
Context (clock : nat -> instant) (profile : XiaozhiCompatProfile) (static : list bytes -> B) (duration_of : B -> duration -> option duration).

(** The encoder: the source, its rate and channels, those of the target, the frame in milliseconds. *)
Context (EncodePCM16 : turn_stream B -> Z -> Z -> Z -> Z -> Z -> result text unit).

Abbreviation runtime := (gateway S P).
Abbreviation responder := (turn_responder B runtime).
Abbreviation ended_by := (option (gw (S := S) (P := P) unit)).

Definition device : Type := xiaozhiCompatState * runtime.
Definition xz (A : Type) : Type := device -> device * result text A.
Definition xz_ret {A} (a : A) : xz A := fun d => (d, Ok a).
Definition xz_bind {A C} (m : xz A) (f : A -> xz C) : xz C := fun d =>
  let '(d, r) := m d in match r with Ok a => f a d | Err e => (d, Err e) end.
Definition lift {A} (m : gw A) : xz A := fun d => let '(g, r) := m (snd d) in ((fst d, g), r).
Definition compat : xz xiaozhiCompatState := fun d => (d, Ok (fst d)).
Definition update_compat (f : xiaozhiCompatState -> xiaozhiCompatState) : xz unit := fun d => ((f (fst d), snd d), Ok tt).
Definition snapshot_now : xz Snapshot := fun d => (d, Ok (Snapshot_ (gw_session (snd d)))).

#[local] Notation "'let*' x ':=' m 'in' k" := (xz_bind m (fun x => k))
  (at level 10, x name, m at level 100, k at level 200).
#[local] Notation "m ;; k" := (xz_bind m (fun _ => k)) (at level 100, right associativity).

Definition runtimeProfile : RealtimeProfile :=
  zero_profile <|IdleTimeoutMs := xp_IdleTimeoutMs profile|> <|MaxSessionMs := xp_MaxSessionMs profile|>.

Definition write (e : server_event) : xz unit := lift (WriteEvent e).

Definition emitServerError (code message : text) : xz unit :=
  let rendered := TrimSpace message in
  let rendered := if rendered == "" then code else rendered in
  let* c := compat in write (DeviceError (cs_sessionID c) rendered).

(** [runtime.conn.Close()] *)
Definition close_socket : gw (S := S) (P := P) unit := WriteEvent SocketClosed.

Definition interruptSpeaking (ended : ended_by) : xz unit :=
  let* c := compat in
  lift (interruptSpeakingFlow clock runtimeProfile ended (Some (WriteEvent (DeviceTTS "stop" (cs_sessionID c) ""))) None).

(** ** Sessions *)

Definition resolvedHelloAudio (m : xiaozhiHelloMessage) : xiaozhiAudioParams :=
  let a := hello_Audio m in
  mkXiaozhiAudio
    (firstNonEmptyValue [ToLower (TrimSpace (Format a)); ToLower (TrimSpace (xp_InputCodec profile)); txt "opus"])
    (maxInt (SampleRate a) (maxInt (xp_InputSampleRate profile) 16000))
    (maxInt (Channels a) (maxInt (xp_InputChannels profile) 1))
    (maxInt (FrameDuration a) (maxInt (xp_InputFrameDurationMs profile) 60)).

Definition validateHello (a : xiaozhiAudioParams) : result text unit :=
  let format := ToLower (TrimSpace (Format a)) in
  if negb (format == txt "opus") && negb (format == txt "pcm16le") then Err (txt "unsupported xiaozhi input format " ++ format)
  else if SampleRate a <=? 0 then Err (txt "audio_params.sample_rate must be positive")
  else if negb (Channels a =? 1) then Err (txt "only mono xiaozhi input is currently supported")
  else if (format == txt "pcm16le") && negb (SampleRate a =? xp_InputSampleRate profile)
  then Err (txt "pcm16le input sample_rate must be " ++ Itoa (xp_InputSampleRate profile))
  else Ok tt.

(** The state a valid hello leaves. *)
Definition greeted (m : xiaozhiHelloMessage) (a : xiaozhiAudioParams) (c : xiaozhiCompatState) : xiaozhiCompatState :=
  c <|binaryProtocolVersion := resolveXiaozhiProtocolVersion "" (hello_Version m) (binaryProtocolVersion c)|>
    <|helloReceived := true|>
    <|inputCodec := ToLower (TrimSpace (Format a))|>
    <|inputSampleRate := SampleRate a|>
    <|inputChannels := Channels a|>
    <|inputFrameDurationMs := FrameDuration a|>
    <|cs_deviceID := firstNonEmptyValue [TrimSpace (hello_DeviceID m); TrimSpace (hello_DeviceMAC m); cs_deviceID c]|>.

Definition handleHello (m : xiaozhiHelloMessage) : xz unit :=
  let audio := resolvedHelloAudio m in
  match validateHello audio with
  | Err e => emitServerError "invalid_hello" e
  | Ok _ =>
      match NewInputNormalizer (Format audio) (xp_InputSampleRate profile) (xp_InputChannels profile) with
      | Err e => emitServerError "unsupported_audio_format" e
      | Ok n =>
          lift (gw_update (fun g => g <|gw_normalizer := Some n|>)) ;;
          update_compat (greeted m audio) ;;
          let* c := compat in
          write (DeviceHello
                   (firstNonEmptyInt [binaryProtocolVersion c; normalizeXiaozhiProtocolVersion (WelcomeVersion profile)])
                   (firstNonEmptyValue [TrimSpace (WelcomeTransport profile); txt "websocket"]) (cs_sessionID c)
                   (firstNonEmptyValue [TrimSpace (xp_OutputCodec profile); txt "opus"]) (maxInt (xp_OutputSampleRate profile) 24000)
                   (maxInt (xp_OutputChannels profile) 1) (maxInt (xp_OutputFrameDurationMs profile) 60))
      end
  end.

Definition device_start_request (c : xiaozhiCompatState) : StartRequest :=
  {| req_RequestedSessionID := cs_sessionID c; req_DeviceID := cs_deviceID c; req_ClientType := "xiaozhi-compat";
     req_FirmwareVersion := ""; req_Mode := "voice"; req_InputCodec := inputCodec c; req_InputSampleRate := inputSampleRate c;
     req_InputChannels := inputChannels c; req_ClientCanEnd := true; req_ServerCanEnd := true |}.

Definition ensureSessionStarted : xz Snapshot :=
  let* snapshot := snapshot_now in
  if SessionID snapshot != "" then xz_ret snapshot
  else
    let* c := compat in
    let* started := lift (on_session clock (fun now => Start now (device_start_request c))) in
    lift (applyReadDeadline runtimeProfile started) ;; xz_ret started.

(** ** The answer *)

Definition encodeAudioStream (s : turn_stream B) : result text unit :=
  if negb (ToLower (TrimSpace (SourceOutputCodec profile)) == txt "pcm16le")
  then Err (txt "xiaozhi adapter currently requires pcm16le source audio, got " ++ SourceOutputCodec profile)
  else EncodePCM16 s (SourceOutputRate profile) (SourceOutputChannels profile) (xp_OutputSampleRate profile)
         (xp_OutputChannels profile) (xp_OutputFrameDurationMs profile).

Definition reset_session : gw (S := S) (P := P) unit := gw_update (fun g => OutputFlow.set_session (Reset_ (gw_session g)) g).

(** The hooks of a turn without audio. *)
Definition device_completion : turnCompletionHooks (S := S) (P := P) :=
  mkCompletionHooks None None
    (Some (fun _ _ _ => gw_bind (resetPending) (fun _ => gw_bind (clearInputPreview clock) (fun _ =>
                        gw_bind reset_session (fun _ => close_socket))))).

Definition device_no_audio (sessionID : text) (aggregatedText : text) : gw (S := S) (P := P) unit :=
  gw_bind (on_voice (FinalizeTextResponse aggregatedText)) (fun _ =>
    gw_when (TrimSpace aggregatedText != "") (WriteEvent (DeviceText "llm" sessionID aggregatedText))).

Definition frame_interval : duration := i64 (maxInt (xp_OutputFrameDurationMs profile) 60 * Millisecond).

(** The audio of an answer could not be encoded. *)
Definition encode_failed (sessionID e : text) (response : TurnResponse (turn_stream B)) : gw (S := S) (P := P) unit :=
  gw_bind (on_voice (fun v => (InterruptPlayback v).1)) (fun _ =>
    if rsp_EndSession response then gw_bind reset_session (fun _ => close_socket)
    else
      gw_bind (gw_try (on_session clock (fun now => SetState now StateActive))) (fun active =>
        gw_bind (match active with Ok active => gw_bind (gw_try (applyReadDeadline runtimeProfile active)) (fun _ => gw_ret tt) | Err _ => gw_ret tt end)
          (fun _ => let rendered := TrimSpace e in
                    WriteEvent (DeviceError sessionID (if rendered == "" then txt "tts_encode_failed" else rendered))))).

Definition device_audio (sessionID : text) (s : turn_stream B) (response : TurnResponse (turn_stream B)) (aggregatedText : text) : gw (S := S) (P := P) unit :=
  match encodeAudioStream s with
  | Err e => encode_failed sessionID e response
  | Ok _ =>
      gw_bind (on_voice (StartPlayback aggregatedText frame_interval (plannedPlaybackDurationForResponse duration_of response outputFrameInterval)))
        (fun _ => gw_bind (installOutput (resolvedTurnOutputOutcome
                             (mkOutputOutcome (rsp_EndSession response) (rsp_EndReason response) (rsp_EndMessage response))))
                    (fun _ => gw_ret tt))
  end.

Definition finalizeDeviceResponse (sessionID : text) (trace : turnTrace) (response : TurnResponse (turn_stream B)) (aggregatedText : text)
    : gw (S := S) (P := P) unit :=
  gw_bind (clearInputPreview clock) (fun _ =>
    let aggregatedText := if aggregatedText == "" then responseTextForXiaozhi response else aggregatedText in
    finalizeTurnLifecycle clock runtimeProfile static trace response aggregatedText
      (mkFinalizeHooks (turn_stream B) device_completion (Some (fun _ _ => device_no_audio sessionID)) None
         (fun _ s response aggregatedText => device_audio sessionID s response aggregatedText))).

(** The turn runs without callbacks: the device hears the answer as a whole. *)
Definition device_options (sessionID : text) (mayStream : bool) : turnExecutionOptions (A := B) (W := runtime) :=
  mkExecutionOptions sessionID "" None None None None mayStream.

Definition deliver_to_device (c : xiaozhiCompatState) (req : TurnRequest) (s : text) (result : turnExecutionResult (A := B)) : gw (S := S) (P := P) unit :=
  let response := er_Response result in
  let input := rsp_InputText response in
  gw_bind (gw_when ((TrimSpace s == "") && (TrimSpace input != "")) (WriteEvent (DeviceText "stt" (cs_sessionID c) input))) (fun _ =>
    let delivered := TrimSpace (er_AggregatedText result) in
    let delivered := if delivered == "" then responseTextForXiaozhi response else delivered in
    let input := if TrimSpace input == "" then TrimSpace s else TrimSpace input in
    gw_bind (on_voice (PrepareTurn req input delivered)) (fun _ =>
      finalizeDeviceResponse (cs_sessionID c) (er_Trace result) response delivered)).

Definition emitDeviceResponse (r : responder) (turn : CommittedTurn) (trace : turnTrace) (s : text)
    (previewTranscription : option TranscriptionResult) : xz handler_end :=
  let* c := compat in
  fun d =>
    let req := buildTurnRequest turn (snd d) trace s previewTranscription in
    match executeTurnResponse (TurnWorld0 := gateway_world clock) (device_options (cs_sessionID c) (may_stream r)) (respond r req) (snd d) trace with
    | (fl, None) => ((fst d, fl_world fl), Ok Waiting)
    | (fl, Some (Err e)) => (emitServerError "response_generation_failed" e ;; xz_ret Returned) (fst d, fl_world fl)
    | (fl, Some (Ok result)) => (lift (deliver_to_device c req s result) ;; xz_ret Returned) (fst d, fl_world fl)
    end.

(** ** Control frames *)

(** A committed turn is traced and answered. *)
Definition answer_turn (r : responder) (turn : CommittedTurn) (source s : text) (previewTranscription : option TranscriptionResult)
    (told : xz unit) : xz handler_end :=
  lift (applyReadDeadline runtimeProfile (ct_Snapshot turn)) ;;
  told ;;
  let* trace := lift (on_trace clock (fun now => Begin now (SessionID (ct_Snapshot turn)) source)) in
  emitDeviceResponse r turn trace s previewTranscription.

Definition done_with (m : xz unit) : xz handler_end := m ;; xz_ret Returned.

Definition listen_start (ended : ended_by) : xz handler_end :=
  interruptSpeaking ended ;; ensureSessionStarted ;; update_compat (fun c => c <|audioTurnOpen := true|>) ;; xz_ret Returned.

Definition listen_stop (r : responder) : xz handler_end :=
  update_compat (fun c => c <|audioTurnOpen := false|>) ;;
  let* snapshot := snapshot_now in
  if (SessionID snapshot == "") || (AudioBytes snapshot =? 0) || negb (bool_decide (Snap_State snapshot = StateActive))
  then xz_ret Returned
  else
    let* consumed := lift (consumeInputPreview clock) in
    let* turn := lift (ask_session clock CommitTurn) in
    match turn with
    | Err e => done_with (emitServerError "commit_failed" (session_error e))
    | Ok turn => answer_turn r turn "listen_stop" "" (usable_preview (snd consumed)) (xz_ret tt)
    end.

Definition listen_detect (r : responder) (ended : ended_by) (raw : text) : xz handler_end :=
  let s := TrimSpace raw in
  if s == "" then xz_ret Returned
  else
    interruptSpeaking ended ;;
    ensureSessionStarted ;;
    let* accepted := lift (ask_session clock AcceptText) in
    match accepted with
    | Err e => done_with (emitServerError "text_input_failed" (session_error e))
    | Ok _ =>
        let* turn := lift (ask_session clock CommitTurn) in
        match turn with
        | Err e => done_with (emitServerError "text_input_failed" (session_error e))
        | Ok turn =>
            lift (clearInputPreview clock) ;;
            let* c := compat in
            answer_turn r turn "detect_text" s None (write (DeviceText "stt" (cs_sessionID c) s))
        end
    end.

Definition handleListen (r : responder) (ended : ended_by) (m : xiaozhiListenMessage) : xz handler_end :=
  update_compat (fun c => c <|listenMode := firstNonEmptyValue [TrimSpace (listen_Mode m); listenMode c]|>) ;;
  let state := ToLower (TrimSpace (listen_State m)) in
  if state == txt "start" then listen_start ended
  else if state == txt "stop" then listen_stop r
  else if state == txt "detect" then listen_detect r ended (listen_Text m)
  else xz_ret Returned.

Definition handleAbort (ended : ended_by) : xz handler_end := done_with (interruptSpeaking ended).

Definition handleDeviceControl (r : responder) (ended : ended_by) (frame : option xiaozhi_frame) : xz handler_end :=
  match frame with
  | None => done_with (emitServerError "invalid_json" "control frame is not valid json")
  | Some f =>
      let type := ToLower (TrimSpace (frame_Type f)) in
      if type == txt "hello" then
        match as_hello f with
        | Err e => done_with (emitServerError "invalid_hello" e)
        | Ok m => done_with (handleHello m)
        end
      else if type == txt "listen" then
        match as_listen f with
        | Err e => done_with (emitServerError "invalid_listen" e)
        | Ok m => handleListen r ended m
        end
      else if type == txt "abort" then
        match as_abort f with
        | Err e => done_with (emitServerError "invalid_abort" e)
        | Ok _ => handleAbort ended
        end
      else if type == txt "mcp" then xz_ret Returned
      else done_with (emitServerError "unsupported_event"
                        (txt "event " ++ frame_Type f ++ txt " is not implemented in xiaozhi compatibility mode"))
  end.

(** ** Audio from the device *)

Definition ensure_normalizer : xz (result text unit) :=
  let* c := compat in
  fun d =>
    match gw_normalizer (snd d) with
    | Some _ => (d, Ok (Ok tt))
    | None =>
        match NewInputNormalizer (inputCodec c) (xp_InputSampleRate profile) (xp_InputChannels profile) with
        | Err e => (d, Ok (Err e))
        | Ok n => ((fst d, (snd d) <|gw_normalizer := Some n|>), Ok (Ok tt))
        end
    end.

(** A decoded frame joins the turn; the preview hears it too. *)
Definition device_pcm (pcm : bytes) : xz unit :=
  let* ingested := lift (ask_session clock (fun now => IngestOwnedAudioFrame now pcm)) in
  match ingested with
  | Err e => emitServerError "audio_ingest_failed" (session_error e)
  | Ok snapshot =>
      let* c := compat in
      lift (gw_when (xp_ServerEndpointEnabled profile && audioTurnOpen c)
        (gw_bind (gw_try (gw_bind (ensureInputPreview snapshot "") (fun _ => pushInputPreviewAudio clock pcm))) (fun _ => gw_ret tt))) ;;
      lift (applyReadDeadline runtimeProfile snapshot)
  end.

(** A frame that is taken: the answer is interrupted, a session is there, the frame is decoded. *)
Definition device_frame (ended : ended_by) (unwrapped : bytes) : xz unit :=
  interruptSpeaking ended ;;
  let* n := ensure_normalizer in
  match n with
  | Err e => emitServerError "unsupported_audio_format" e
  | Ok _ =>
      ensureSessionStarted ;;
      let* pcm := lift (normalize_payload unwrapped) in
      match pcm with
      | Err e => emitServerError "audio_decode_failed" e
      | Ok pcm => if len pcm =? 0 then xz_ret tt else device_pcm pcm
      end
  end.

Definition handleDeviceBinary (ended : ended_by) (payload : bytes) : xz unit :=
  if len payload =? 0 then xz_ret tt
  else
    let* c := compat in
    match unwrapXiaozhiBinaryFrame payload (binaryProtocolVersion c) with
    | Err (GoError e) => emitServerError "invalid_audio_frame" e
    | Err GoPanic => fun d => (d, Err (txt "panic"))
    | Ok unwrapped =>
        if (0 <? xp_MaxFrameBytes profile) && (xp_MaxFrameBytes profile <? len unwrapped)
        then emitServerError "frame_too_large" (txt "binary frame exceeds " ++ Itoa (xp_MaxFrameBytes profile) ++ txt " bytes")
        else
          let* snapshot := snapshot_now in
          if negb (audioTurnOpen c) && (SessionID snapshot == "") then xz_ret tt else device_frame ended unwrapped
    end.

(** ** Ticks, read errors, messages *)

Definition handleDeviceTick (r : responder) (now : instant) : xz handler_end :=
  let* snapshot := snapshot_now in
  let* c := compat in
  if negb (xp_ServerEndpointEnabled profile) || (SessionID snapshot == "")
     || negb (bool_decide (Snap_State snapshot = StateActive)) || negb (audioTurnOpen c)
  then xz_ret Returned
  else
    let* observation := lift (pollInputPreview clock now) in
    if negb (io_Active observation) then xz_ret Returned
    else if io_CommitSuggested observation && (0 <? AudioBytes snapshot) then
      update_compat (fun c => c <|audioTurnOpen := false|>) ;;
      let* consumed := lift (consumeInputPreview clock) in
      let* turn := lift (ask_session clock CommitTurn) in
      match turn with
      | Err e => fun d => (d, Err (session_error e))
      | Ok turn => answer_turn r turn "server_endpoint" "" (usable_preview (snd consumed)) (xz_ret tt)
      end
    else xz_ret Returned.

(** The answer to a read error: [true] when it was handled; the socket is closed then. *)
Definition handleDeviceReadError (ended : ended_by) (timeout : bool) : xz bool :=
  if negb timeout then xz_ret false
  else
    let* snapshot := snapshot_now in
    let* now := lift (gw_now clock) in
    lift (interruptOutput ended) ;;
    let* c := compat in
    lift (gw_try (WriteEvent (DeviceTTS "stop" (cs_sessionID c) ""))) ;;
    lift (gw_when (SessionID snapshot != "")
      (let reason := match deadlineCloseReason snapshot runtimeProfile now with Some reason => reason | None => CloseReasonError end in
       gw_bind (ask_session clock (fun now => End_ now reason)) (fun _ =>
         gw_bind (clearInputPreview clock) (fun _ => reset_session)))) ;;
    lift close_socket ;;
    xz_ret true.

Definition handleDeviceMessage (r : responder) (ended : ended_by) (inbound : xiaozhi_inbound) : xz handler_end :=
  match inbound with
  | DeviceReadError timeout err =>
      let* handled := handleDeviceReadError ended timeout in
      if handled : bool then xz_ret Returned else fun d => (d, Err err)
  | DeviceControl frame => handleDeviceControl r ended frame
  | DeviceAudio payload => done_with (handleDeviceBinary ended payload)
  | DeviceOther => done_with (emitServerError "unsupported_message_type" "only text and binary websocket frames are supported")
  end.

(** ** The playback goroutine *)

(** What ends the packets: the stream, its error, or the cancellation of the output. *)
Inductive device_end := PacketsOver | PacketsFailed (err : text) | PlaybackCancelled.

(** Each packet with the protocol version at the time it is written. *)
Fixpoint play_packets (sessionID : text) (packets : list (bytes * Z)) : gw (S := S) (P := P) unit :=
  match packets with
  | [] => gw_ret tt
  | (chunk, version) :: packets =>
      if len chunk =? 0 then play_packets sessionID packets
      else
        match wrapXiaozhiBinaryFrame chunk version with
        | Err _ => gw_fail (txt "frame not written")
        | Ok frame =>
            gw_bind (WriteEvent (DeviceFrame frame)) (fun _ =>
              gw_bind (gw_now clock) (fun now =>
                gw_bind (gw_update (fun g => g <|gw_traces := (markTurnFirstAudioChunk now sessionID (len chunk) (gw_traces g)).1|>)) (fun _ =>
                  gw_bind (on_voice ObservePlaybackChunk) (fun _ => play_packets sessionID packets))))
        end
  end.

(** After the last packet; the outcome is none when the wait for it was cancelled. *)
Definition playback_over (sessionID : text) (outcome : option turnOutputOutcome) : gw (S := S) (P := P) unit :=
  gw_bind (gw_try (WriteEvent (DeviceTTS "stop" sessionID ""))) (fun _ =>
    gw_bind (on_voice CompletePlayback) (fun _ =>
      match outcome with
      | None => gw_ret tt
      | Some o =>
          completeTurnReturnOrClose clock runtimeProfile (oc_EndSession o) (oc_EndReason o) (oc_EndMessage o)
            (mkCompletionHooks (Some (resolvePostPlayback clock)) None
               (Some (fun _ _ _ => gw_bind reset_session (fun _ => close_socket))))
      end)).

Definition device_playback (sessionID said : text) (packets : list (bytes * Z)) (e : device_end) (outcome : option turnOutputOutcome)
    : gw (S := S) (P := P) unit :=
  gw_bind (WriteEvent (DeviceTTS "start" sessionID "")) (fun _ =>
    gw_bind (gw_when (TrimSpace said != "") (WriteEvent (DeviceTTS "sentence_start" sessionID said))) (fun _ =>
      gw_bind (play_packets sessionID packets) (fun _ =>
        match e with
        | PlaybackCancelled => gw_ret tt
        | PacketsFailed err =>
            let rendered := TrimSpace err in
            WriteEvent (DeviceError sessionID (if rendered == "" then txt "audio_stream_failed" else rendered))
        | PacketsOver => playback_over sessionID outcome
        end))).

(** The goroutine of the output [id], with its [defer]s. *)
Definition device_goroutine (id : Z) (sessionID said : text) (packets : list (bytes * Z)) (e : device_end) (outcome : option turnOutputOutcome)
    : gw (S := S) (P := P) unit :=
  gw_bind (gw_try (device_playback sessionID said packets e outcome)) (fun _ => clearOutput id).

End Device.
