(* ===== verification/XiaozhiContract.v ===== *)
(** * What the handlers of the Xiaozhi transport promise
      (internal/gateway/xiaozhi_ws.go)

    Theorems on the handlers of XiaozhiHandler: that the frames of a listening
    device, in the binary version it agreed on, are the audio of its turn, and
    what an answer that failed leaves behind. *)

From S2P Require Import Prelude GoText GoFloat Contracts Lexical BargeIn Playback Memory Session Orchestrator BargeInRuntime.
From S2P Require Import Audio InputAudio TurnTrace GatewayProfile OutputEffects TurnResponse TurnFlow OutputFlow InputFlow TurnRun.
From S2P Require Import RealtimeHandler ConnectionInvariant RealtimeContract XiaozhiProtocol XiaozhiHandler.

(** ** A device that speaks *)

Section Speaking.

Context {S P B : Type} `{!MemoryStore S} `{!PreviewSession P} {PV : Previewer P} {OD : OpusDecoder} {CN : Connection} {RL : Reliable}.
Context (clock : nat -> instant) (profile : XiaozhiCompatProfile) (static : list bytes -> B) (duration_of : B -> duration -> option duration).

Abbreviation runtime := (gateway S P).
Abbreviation connected := (device (S := S) (P := P)).

(** The connection listens, nothing plays, and the session has counted what it heard. *)
Definition attentive (n : InputNormalizer) (heard : bytes) (g : runtime) : Prop :=
  listening n heard g /\ gw_output g = None /\ AudioBytes (current (gw_session g)) = i64 (len heard).

(** The device has opened a turn on such a connection, in the version [v]. *)
Definition device_listens (v : Z) (n : InputNormalizer) (heard : bytes) (d : connected) : Prop :=
  audioTurnOpen (fst d) = true /\ binaryProtocolVersion (fst d) = v /\ attentive n heard (snd d).

Lemma xz_bind_ok {A C} (m : xz A) (f : A -> xz C) (d d' : connected) a : m d = (d', Ok a) -> xz_bind m f d = f a d'.
Proof. intros E. unfold xz_bind. by rewrite E. Qed.

Lemma lift_ok {A} (m : gw A) c (g g' : runtime) r : m g = (g', r) -> lift m (c, g) = ((c, g'), r).
Proof. intros E. unfold lift. cbn. by rewrite E. Qed.

(** A computation over the runtime that keeps [I] and does not fail, for the device. *)
Lemma lift_step (I : runtime -> Prop) {A C} (m : gw A) (f : A -> xz C) c (g : runtime) (Q : connected * result text C -> Prop) :
  safe I m -> I g -> (forall g' a, I g' -> Q (f a (c, g'))) -> Q (xz_bind (lift m) f (c, g)).
Proof. intros Hm Hg Hf. destruct (Hm g Hg) as (g' & a & E & H). rewrite (xz_bind_ok _ _ _ _ _ (lift_ok _ _ _ _ _ E)). by apply Hf. Qed.

Lemma attentive_undisturbed n heard : undisturbed (attentive n heard).
Proof.
  split.
  - intros g g' E1 E2 E3 (H1 & H2 & H3). unfold attentive. rewrite E1, E3. split; [by apply (listening_same _ _ g)|done].
  - intros now g (H1 & H2 & H3). split; [by apply un_input; [apply listening_undisturbed|]|].
    assert (Es : AudioBytes (current (SetInputState now InputStatePreviewing (gw_session g)).1) = AudioBytes (current (gw_session g)))
      by (unfold SetInputState; by destruct (negb _)).
    rewrite <- H3, <- Es. destruct (session_set (SetInputState now InputStatePreviewing (gw_session g)).1 g) as [-> _].
    by destruct g.
Qed.

Lemma attentive_state n heard (g : runtime) :
  attentive n heard g -> SessionID (Snapshot_ (gw_session g)) <> [] /\ Snap_State (Snapshot_ (gw_session g)) = StateActive.
Proof.
  intros (H & _). destruct (listening_abs _ _ _ H) as [Ha Hs]. split; [|done]. destruct H as (Hi & _).
  unfold Snapshot_, cloneSnapshot. read_fields. by apply inv_id.
Qed.

(** There is nothing to interrupt and a session to speak to. *)
Lemma nothing_to_interrupt n heard c ended (g : runtime) :
  attentive n heard g -> interruptSpeaking clock profile ended (c, g) = ((c, g), Ok tt).
Proof.
  intros Hg. destruct (attentive_state _ _ _ Hg) as [_ Hs]. destruct Hg as (_ & Ho & _). unfold interruptSpeaking.
  rewrite (xz_bind_ok _ _ _ _ _ eq_refl). apply lift_ok. unfold interruptSpeakingFlow, interruptSpeakingFlowWithOptions.
  rewrite Hs, Ho, bool_decide_eq_false_2, bool_decide_eq_true_2 by done. done.
Qed.

Lemma session_is_there n heard c (g : runtime) :
  attentive n heard g -> ensureSessionStarted clock profile (c, g) = ((c, g), Ok (Snapshot_ (gw_session g))).
Proof.
  intros Hg. destruct (attentive_state _ _ _ Hg) as [Hid _]. unfold ensureSessionStarted. rewrite (xz_bind_ok _ _ _ _ _ eq_refl). cbn [snd].
  by destruct (SessionID _).
Qed.

(** ** Frames *)

Lemma ingest_counts now p s : active s = true ->
  AudioBytes (current (IngestOwnedAudioFrame now p s).1) = i64 (AudioBytes (current s) + len p).
Proof. intros Ha. unfold IngestOwnedAudioFrame. by rewrite Ha. Qed.

(** A decoded frame is heard, and counted. *)
Lemma pcm_is_heard n heard v pcm (d : connected) :
  device_listens v n heard d ->
  exists d', device_pcm clock profile pcm d = (d', Ok tt) /\ device_listens v n (heard ++ pcm) d'.
Proof.
  destruct d as [c g]. intros (Hopen & Hv & Hg & Ho & Hc). cbn [fst snd] in *. unfold device_pcm.
  destruct (safe_now clock _ (attentive_undisturbed n heard) g (conj Hg (conj Ho Hc))) as (g1 & now & E & Hg1 & Ho1 & Hc1).
  destruct (listening_abs _ _ _ Hg1) as [Ha1 _]. destruct (ingest_succeeds now pcm _ Ha1) as [sn Es].
  set (g2 := OutputFlow.set_session (IngestOwnedAudioFrame now pcm (gw_session g1)).1 g1).
  assert (H2 : attentive n (heard ++ pcm) g2).
  { split; [|split].
    - pose proof (session_steps n heard (heard ++ pcm) now (OpIngestOwned pcm) g1) as Hs. cbn [step out_snapshot fst] in Hs.
      subst g2. destruct (IngestOwnedAudioFrame now pcm (gw_session g1)) as [s r]. apply Hs; [|done].
      intros i k. by exists InputStateActive, k.
    - subst g2. by destruct g1.
    - subst g2. destruct (session_set (IngestOwnedAudioFrame now pcm (gw_session g1)).1 g1) as [-> _].
      rewrite ingest_counts, Hc1, i64_add_l, len_app by done. done. }
  assert (E2 : lift (ask_session clock (fun now => IngestOwnedAudioFrame now pcm)) (c, g) = ((c, g2), Ok (Ok sn))).
  { apply lift_ok. unfold ask_session. rewrite (bind_ok _ _ _ _ _ E), <- Es. subst g2. by destruct (IngestOwnedAudioFrame now pcm (gw_session g1)). }
  rewrite (xz_bind_ok _ _ _ _ _ E2). clear E2. cbn [negb]. rewrite (xz_bind_ok _ _ _ _ _ eq_refl). cbn [fst]. clearbody g2.
  pose proof (attentive_undisturbed n (heard ++ pcm)) as HI.
  apply (lift_step (attentive n (heard ++ pcm)) _ _ c g2 (fun o => exists d', o = (d', Ok tt) /\ device_listens v n (heard ++ pcm) d'));
    [|exact H2|].
  { apply safe_when, safe_bind; [|intros x; apply safe_ret]. apply safe_try, keeps_bind; [by apply keeps_ensure|]. intros _. by apply keeps_push. }
  intros g3 _ H3. destruct (safe_deadline (runtimeProfile profile) _ HI sn g3 H3) as (g4 & [] & E4 & H4). rewrite (lift_ok _ _ _ _ _ E4).
  exists (c, g4). by split.
Qed.

(** What the device sends for [raw] in the version [v], when the server allows it. *)
Definition sends (v : Z) (raw frame : bytes) : Prop :=
  wrapXiaozhiBinaryFrame raw v = Ok frame /\ len raw < 2 ^ 32 /\ (0 < xp_MaxFrameBytes profile -> len raw <= xp_MaxFrameBytes profile).

Lemma device_frame_is_heard rate channels heard v raw frame (d : connected) :
  device_listens v (PCM16InputNormalizer rate channels) heard d -> sends v raw frame ->
  exists d', handleDeviceBinary clock profile None frame d = (d', Ok tt) /\
    device_listens v (PCM16InputNormalizer rate channels) (heard ++ raw) d'.
Proof.
  intros Hd (Ew & Hl & Hm). pose proof Hd as (Hopen & Hv & Hg). destruct d as [c g]. cbn [fst snd] in *. unfold handleDeviceBinary.
  assert (Eu : unwrapXiaozhiBinaryFrame frame v = Ok raw) by (by apply wrapped_unwraps).
  rewrite len_zero. destruct frame as [|b frame].
  { exists (c, g). split; [done|]. assert (raw = []) as -> by (by apply (wrapped_empty _ v)). by rewrite app_nil_r. }
  rewrite (xz_bind_ok _ _ _ _ _ eq_refl). cbn [fst]. rewrite Hv, Eu.
  assert ((0 <? xp_MaxFrameBytes profile) && (xp_MaxFrameBytes profile <? len raw) = false) as -> by (apply andb_false_iff; lia).
  rewrite (xz_bind_ok _ _ _ _ _ eq_refl). rewrite Hopen. cbn [negb andb]. unfold device_frame.
  rewrite (xz_bind_ok _ _ _ _ _ (nothing_to_interrupt _ _ c None g Hg)).
  assert (En : ensure_normalizer profile (c, g) = ((c, g), Ok (Ok tt))).
  { unfold ensure_normalizer. rewrite (xz_bind_ok _ _ _ _ _ eq_refl). cbn [snd]. pose proof Hg as ((_ & -> & _) & _). done. }
  rewrite (xz_bind_ok _ _ _ _ _ En), (xz_bind_ok _ _ _ _ _ (session_is_there _ _ c g Hg)).
  assert (Ep : lift (normalize_payload raw) (c, g) = ((c, g), Ok (Ok raw))).
  { apply lift_ok. unfold normalize_payload. pose proof Hg as ((_ & Hn & _) & _). rewrite Hn. cbn [Decode]. f_equal.
    destruct g; cbn in *. by subst. }
  rewrite (xz_bind_ok _ _ _ _ _ Ep), len_zero. destruct raw as [|x raw]; [exists (c, g); rewrite app_nil_r; by split|].
  by apply pcm_is_heard.
Qed.

(** The frames of a turn, one after the other. *)
Fixpoint device_hear (frames : list bytes) : xz (S := S) (P := P) unit :=
  match frames with
  | [] => xz_ret tt
  | f :: frames => xz_bind (handleDeviceBinary clock profile None f) (fun _ => device_hear frames)
  end.

Lemma device_frames_are_heard rate channels v raws frames heard (d : connected) :
  device_listens v (PCM16InputNormalizer rate channels) heard d -> Forall2 (sends v) raws frames ->
  exists d', device_hear frames d = (d', Ok tt) /\ device_listens v (PCM16InputNormalizer rate channels) (heard ++ concat raws) d'.
Proof.
  intros Hd Hs. revert heard d Hd. induction Hs as [|raw frame raws frames Hf _ IH]; intros heard d Hd; cbn [device_hear concat];
    [rewrite app_nil_r; by exists d|].
  destruct (device_frame_is_heard _ _ _ _ _ _ d Hd Hf) as (d1 & E1 & H1). rewrite (xz_bind_ok _ _ _ _ _ E1), app_assoc. by apply IH.
Qed.

(** ** The end of the turn *)

Context (EncodePCM16 : turn_stream B -> Z -> Z -> Z -> Z -> Z -> result text unit).

(** A computation comes to the answer of a turn with this audio, the turn closed
    and the session thinking. *)
Definition answers_with (r : turn_responder B runtime) (audio : bytes) (m : xz handler_end) (d : connected) : Prop :=
  exists d' turn trace preview,
    m d = emitDeviceResponse clock profile static duration_of EncodePCM16 r turn trace "" preview d' /\
    ct_AudioPCM turn = audio /\ audioTurnOpen (fst d') = false /\ gw_output (snd d') = None /\
    exists k, abs (gw_session (snd d')) = Some (mkAlive InputStateCommitted OutputStateThinking [] k).

Lemma quiet_undisturbed (I : runtime -> Prop) : undisturbed I -> undisturbed (fun g => I g /\ gw_output g = None).
Proof.
  intros HI. split.
  - intros g g' E1 E2 E3 [H1 H2]. split; [by apply (un_same I HI g)|congruence].
  - intros now g [H1 H2]. split; [by apply un_input|]. by destruct g.
Qed.

Lemma consume_quiet n heard (g : runtime) :
  attentive n heard g ->
  exists g' x, consumeInputPreview clock g = (g', Ok x) /\ listening n heard g' /\ gw_output g' = None.
Proof.
  intros (Hg & Ho & _). destruct (safe_consume clock n heard g Hg) as (g' & x & E & H). exists g', x. split; [done|]. split; [done|].
  rewrite <- Ho. unfold consumeInputPreview in E. destruct (PreviewClear _) as [p t]. destruct (FinalizeInputPreview _) as [v f].
  unfold gw_bind, gw_now, gw_update in E. injection E as <- _. by destruct g.
Qed.

Lemma trace_told f (g : runtime) :
  exists g' trace, on_trace clock f g = (g', Ok trace) /\ gw_session g' = gw_session g /\ gw_output g' = gw_output g.
Proof.
  unfold on_trace, gw_bind, gw_now. destruct (f _ _) as [t trace]. eexists _, trace. split; [reflexivity|]. unfold gw_session. by read_fields.
Qed.

(** Any end of a turn: what was heard is committed, and the turn is answered. *)
Lemma commit_answers n heard (r : turn_responder B runtime) source c (g : runtime) (refused : Error -> xz handler_end) :
  attentive n heard g -> audioTurnOpen c = false ->
  answers_with r heard
    (xz_bind (lift (consumeInputPreview clock)) (fun consumed =>
       xz_bind (lift (ask_session clock CommitTurn)) (fun turn =>
         match turn with
         | Err e => refused e
         | Ok turn => answer_turn clock profile static duration_of EncodePCM16 r turn source "" (usable_preview (snd consumed)) (xz_ret tt)
         end))) (c, g).
Proof.
  intros Hg Hopen. unfold answers_with.
  destruct (consume_quiet n heard g Hg) as (g1 & consumed & E & H1). rewrite (xz_bind_ok _ _ _ _ _ (lift_ok _ _ _ _ _ E)). clear E.
  destruct (safe_now clock _ (quiet_undisturbed _ (listening_undisturbed n heard)) g1 H1) as (g2 & now & E & (Hi & _ & i & k & Ea) & Ho).
  destruct (commit_succeeds now (gw_session g2) _ Ea) as (turn & Ec & Ep). cbn [a_pending] in Ep.
  pose proof (step_abs now OpCommit _ Hi) as Hst. cbn [step out_turn fst] in Hst. rewrite Ea in Hst.
  cbn [astep astep_alive a_output a_turns commit_output] in Hst.
  assert (E' : ask_session clock CommitTurn g1 = (OutputFlow.set_session (CommitTurn now (gw_session g2)).1 g2, Ok (Ok turn))).
  { unfold ask_session. rewrite (bind_ok _ _ _ _ _ E), <- Ec. by destruct (CommitTurn now (gw_session g2)). }
  rewrite (xz_bind_ok _ _ _ _ _ (lift_ok _ _ _ _ _ E')). unfold answer_turn.
  rewrite (xz_bind_ok _ _ _ _ _ (lift_ok _ _ _ _ _ (deadline_ok _ _ _))), (xz_bind_ok _ _ _ _ _ eq_refl).
  destruct (session_set (CommitTurn now (gw_session g2)).1 g2) as [Es _]. set (s := (CommitTurn now (gw_session g2)).1) in *. clearbody s.
  assert (Ho3 : gw_output (OutputFlow.set_session s g2) = None) by (by destruct g2).
  revert Es Ho3. generalize (OutputFlow.set_session s g2). intros g3 Es Ho3.
  destruct (trace_told (fun now => Begin now (SessionID (ct_Snapshot turn)) source)
    (g3 <|gw_deadline := readDeadlineForSnapshot (ct_Snapshot turn) (runtimeProfile profile)|>)) as (g4 & trace & Et & E1 & E2).
  rewrite (xz_bind_ok _ _ _ _ _ (lift_ok _ _ _ _ _ Et)). eexists _, turn, trace, _. split; [reflexivity|]. split; [done|]. split; [done|].
  cbn [snd]. rewrite E1, E2. unfold gw_session in *. read_fields. rewrite Es, Hst. split; [done|]. by exists (i64 (k + 1)).
Qed.


(** What a snapshot says of the audio that was heard. *)
Lemma attentive_audio n heard (g : runtime) :
  attentive n heard g -> 0 < len heard < 2 ^ 63 -> AudioBytes (Snapshot_ (gw_session g)) = len heard.
Proof. intros (_ & _ & Hc) Hl. unfold Snapshot_, cloneSnapshot. read_fields. rewrite Hc. apply i64_id. i64_lia. Qed.

Lemma listen_stop_answers v n heard (r : turn_responder B runtime) (d : connected) :
  device_listens v n heard d -> 0 < len heard < 2 ^ 63 ->
  answers_with r heard (listen_stop clock profile static duration_of EncodePCM16 r) d.
Proof.
  destruct d as [c g]. intros (_ & _ & Hg) Hl. cbn [snd] in Hg. destruct (attentive_state _ _ _ Hg) as [Hid Hs]. unfold answers_with, listen_stop.
  rewrite !(xz_bind_ok _ _ _ _ _ eq_refl). cbn [fst snd]. rewrite (attentive_audio _ _ _ Hg Hl), Hs, bool_decide_eq_true_2 by done.
  assert ((len heard =? 0) = false) as -> by lia. destruct (SessionID _) as [|x l]; [done|]. cbn [negb orb text_eqb].
  by apply (commit_answers n).
Qed.

Lemma safe_poll (I : runtime -> Prop) now : undisturbed I -> safe I (pollInputPreview clock now).
Proof.
  intros HI g Hg. unfold pollInputPreview. destruct (PollInputPreview now (gw_voice g)) as [v o].
  assert (Hv : I (g <|gw_voice := v|>)) by (apply (un_same I HI g); unfold gw_session; by read_fields). revert Hv.
  generalize (g <|gw_voice := v|>) (SessionID (Snapshot_ (gw_session g))). intros g1 sessionID H1. unfold observe_preview.
  assert (Hw : safe I (gw_when (ob_Active o) (set_previewing (S := S) (P := P) clock))).
  { apply safe_when. unfold set_previewing. apply safe_bind; [|intros x; apply safe_ret]. apply safe_try.
    apply keeps_bind; [by apply safe_keeps, safe_now|]. intros t g2 H2. unfold ends. pose proof (un_input I HI t g2 H2) as H.
    by destruct (SetInputState t InputStatePreviewing (gw_session g2)). }
  destruct (Hw g1 H1) as (g2 & [] & E2 & H2). rewrite (bind_ok _ _ _ _ _ E2).
  destruct (ObservePreview _ _ _ _) as [p [t u]]. eexists _, _. split; [reflexivity|].
  apply (un_same I HI g2); [..|done]; unfold gw_session; by read_fields.
Qed.

(** A tick ends the turn or leaves it open. *)
Lemma tick_answers_or_waits v n heard (r : turn_responder B runtime) now (d : connected) :
  device_listens v n heard d ->
  answers_with r heard (handleDeviceTick clock profile static duration_of EncodePCM16 r now) d \/
  exists d', handleDeviceTick clock profile static duration_of EncodePCM16 r now d = (d', Ok Returned) /\ device_listens v n heard d'.
Proof.
  destruct d as [c g]. intros (Ho & Hv & Hg). cbn [fst snd] in *. unfold answers_with, handleDeviceTick.
  rewrite !(xz_bind_ok _ _ _ _ _ eq_refl). cbn [fst snd]. destruct (_ || _); [right; exists (c, g); by split|].
  destruct (safe_poll _ now (attentive_undisturbed n heard) g Hg) as (g1 & o & E & H1). rewrite (xz_bind_ok _ _ _ _ _ (lift_ok _ _ _ _ _ E)).
  destruct (negb _); [right; exists (c, g1); by split|]. destruct (_ && _); [left|right; exists (c, g1); by split].
  rewrite (xz_bind_ok _ _ _ _ _ eq_refl). cbn [fst snd].
  exact (commit_answers n heard r "server_endpoint" (c <|audioTurnOpen := false|>) g1 (fun e d => (d, Err (session_error e))) H1 eq_refl).
Qed.

(** C7. What a device says is the turn that is answered.  On a connection that
    listens, in the plain PCM format, with [heard] of the turn taken already and
    nothing playing, the frames a device sends for any pieces of audio, wrapped in
    the version it agreed on and within the allowed size, are all taken without an
    error, whatever the preview does with them.  The [stop] that follows answers a
    turn whose audio is [heard] and then the pieces, in order and complete; a tick of
    the server's own endpointing answers that same turn, or leaves it open as it was.
    The turn is closed and the session thinks when the answer begins. *)
Theorem device_frames_are_the_turn rate channels heard v raws frames (r : turn_responder B runtime) ended m (d : connected) :
  device_listens v (PCM16InputNormalizer rate channels) heard d -> Forall2 (sends v) raws frames ->
  0 < len (heard ++ concat raws) < 2 ^ 63 -> ToLower (TrimSpace (listen_State m)) = txt "stop" ->
  answers_with r (heard ++ concat raws)
    (xz_bind (device_hear frames) (fun _ => handleListen clock profile static duration_of EncodePCM16 r ended m)) d /\
  forall now, exists d1, device_hear frames d = (d1, Ok tt) /\
    (answers_with r (heard ++ concat raws) (handleDeviceTick clock profile static duration_of EncodePCM16 r now) d1 \/
     exists d2, handleDeviceTick clock profile static duration_of EncodePCM16 r now d1 = (d2, Ok Returned) /\
       device_listens v (PCM16InputNormalizer rate channels) (heard ++ concat raws) d2).
Proof.
  intros Hd Hs Hl Hm. destruct (device_frames_are_heard _ _ _ _ _ _ d Hd Hs) as (d1 & E & H1). split.
  - unfold answers_with. rewrite (xz_bind_ok _ _ _ _ _ E). unfold handleListen. rewrite (xz_bind_ok _ _ _ _ _ eq_refl). cbv zeta. rewrite Hm.
    change (txt "stop" == txt "start") with false. change (txt "stop" == txt "stop") with true. cbv iota.
    apply (listen_stop_answers v (PCM16InputNormalizer rate channels)); [|done]. destruct d1 as [c g]. exact H1.
  - intros now. exists d1. split; [done|]. by apply tick_answers_or_waits.
Qed.

End Speaking.

(** ** A device that listens *)

Section Listening.

Context {S P B : Type} `{!MemoryStore S} `{!PreviewSession P} {PV : Previewer P} {CN : Connection} {RL : Reliable}.
Context (clock : nat -> instant) (profile : XiaozhiCompatProfile).

Abbreviation runtime := (gateway S P).

(** The connection as it was, but for what was written, the trace and the voice session. *)
Definition only_told (es : list server_event) (g g' : runtime) : Prop :=
  gw_barge g' = gw_barge g /\ gw_output g' = gw_output g /\ gw_events g' = gw_events g ++ es.

Lemma told_then es es' (g1 g2 g3 : runtime) : only_told es g1 g2 -> only_told es' g2 g3 -> only_told (es ++ es') g1 g3.
Proof. intros (B1 & O1 & E1) (B2 & O2 & E2). unfold only_told. by rewrite B2, B1, O2, O1, E2, E1, app_assoc. Qed.

Lemma told_write e (g : runtime) : only_told [e] g (g <|gw_events := gw_events g ++ [e]|>).
Proof. unfold only_told. by read_fields. Qed.

(** A packet with something in it, and the frame it is sent in. *)
Definition framed (p : bytes * Z) (frame : bytes) : Prop := unwrapXiaozhiBinaryFrame frame (snd p) = Ok (fst p).
Definition to_send (packets : list (bytes * Z)) : list (bytes * Z) := List.filter (fun p => negb (len (fst p) =? 0)) packets.

Lemma packet_wraps chunk version : len chunk <= 65535 -> exists frame, wrapXiaozhiBinaryFrame chunk version = Ok frame.
Proof.
  intros Hl. pose proof (wrap_then_unwrap chunk version ltac:(lia)) as H.
  destruct (wrapXiaozhiBinaryFrame chunk version) as [frame|e]; [by exists frame|]. lia.
Qed.

Lemma packets_are_played sessionID packets (g : runtime) :
  Forall (fun p => len (fst p) <= 65535) packets ->
  exists g' frames, play_packets clock sessionID packets g = (g', Ok tt) /\
    Forall2 framed (to_send packets) frames /\ only_told (map DeviceFrame frames) g g'.
Proof.
  intros Hp. revert g. induction Hp as [|[chunk version] packets Hl Hp IH]; intros g; cbn [play_packets to_send List.filter fst].
  { exists g, []. split; [done|]. split; [constructor|]. unfold only_told. by rewrite app_nil_r. }
  destruct (len chunk =? 0); cbn [negb]; [apply IH|]. cbn [fst] in Hl.
  destruct (packet_wraps chunk version Hl) as [frame Ew]. rewrite Ew, (bind_ok _ _ _ _ _ (write_ok _ _)).
  pose proof (told_write (DeviceFrame frame) g) as H1. set (g1 := g <|gw_events := _|>) in *. clearbody g1.
  unfold gw_bind at 1, gw_now at 1. cbv beta iota zeta. rewrite (bind_ok _ _ _ _ _ eq_refl), (bind_ok _ _ _ _ _ eq_refl). set (g2 := _ <|gw_voice := _|>).
  assert (H2 : only_told [DeviceFrame frame] g g2).
  { destruct H1 as (B1 & O1 & E1). subst g2. unfold only_told. by read_fields. }
  clearbody g2. destruct (IH g2) as (g3 & frames & E3 & F3 & H3). exists g3, (frame :: frames). split; [exact E3|].
  split; [constructor; [exact (wrapped_unwraps _ _ _ Ew ltac:(lia))|exact F3]|]. exact (told_then _ _ _ _ _ H2 H3).
Qed.

(** ** After the last packet *)

Lemma keeps_resolve (I : runtime -> Prop) :
  (forall g g', gw_events g' = gw_events g -> I g -> I g') -> keeps I (resolvePostPlayback clock) /\ keeps I (return_active clock).
Proof.
  intros HI. split.
  - intros g Hg. unfold ends, resolvePostPlayback. cbv zeta. destruct (_ && _ && _); [apply (HI g); [by destruct g|done]|].
    unfold gw_bind, gw_now. destruct (resolvePostPlaybackActiveSnapshot _ _) as [b r]. apply (HI g); [|done]. by cbn [fst]; read_fields.
  - intros g Hg. unfold ends, return_active, on_session, gw_bind, gw_now. destruct (SetState _ _ _) as [s r]. apply (HI g); [|done].
    cbn [fst]. by destruct g.
Qed.

(** A turn completed without a word to the client: only its trace and the read
    deadline have changed. *)
Lemma completed_quietly active_ endReason endMessage resolve hook (g g1 : runtime) :
  (exists g0 sn, resolve g = (g0, Ok (sn, false)) /\ return_active clock g0 = (g1, Ok active_)) \/ resolve g = (g1, Ok (active_, true)) ->
  exists g', completeTurnReturnOrClose clock (runtimeProfile profile) false endReason endMessage (mkCompletionHooks (Some resolve) None hook) g
    = (g', Ok tt) /\ only_told [] g1 g' /\ gw_voice g' = gw_voice g1.
Proof.
  intros H. unfold completeTurnReturnOrClose. cbn [ResolveReturnActive OnReturnActive].
  assert (E : gw_bind resolve (fun r => if (snd r : bool) then gw_ret (fst r) else return_active clock) g = (g1, Ok active_)).
  { destruct H as [(g0 & sn & E & E')|E]; rewrite (bind_ok _ _ _ _ _ E); [exact E'|done]. }
  rewrite (bind_ok _ _ _ _ _ E), (bind_ok _ _ _ _ _ (deadline_ok _ _ _)), (bind_ok _ _ _ _ _ (trace_ok _ _ _)), (bind_ok _ _ _ _ _ (trace_ok _ _ _)),
    (bind_ok _ _ _ _ _ eq_refl).
  eexists. split; [reflexivity|]. unfold only_told, read_once. read_fields. by rewrite app_nil_r.
Qed.

(** What the device is told of the end. *)
Definition device_stop (sessionID : text) (outcome : turnOutputOutcome) : list server_event :=
  DeviceTTS "stop" sessionID "" :: if oc_EndSession outcome then [SocketClosed] else [].

(** What becomes of the session. *)
Definition device_session_after (a : alive) (g : runtime) (outcome : turnOutputOutcome) (g' : runtime) : Prop :=
  if oc_EndSession outcome then gw_session g' = NewRealtimeSession
  else abs (gw_session g') = Some (after_playback a (concat (pending_chunks (pendingBargeIn (gw_barge g))))) /\
       pending_chunks (pendingBargeIn (gw_barge g')) = [].

Lemma settled_voice (v : SessionOrchestrator S P) : turn (CompletePlayback v) = None.
Proof. unfold CompletePlayback, CompletePlaybackWithSource. by destruct (turn v) eqn:E. Qed.

Lemma playback_is_over sessionID a outcome (g : runtime) :
  session_inv (gw_session g) -> abs (gw_session g) = Some a -> Forall (fun p => p <> []) (pending_chunks (pendingBargeIn (gw_barge g))) ->
  exists g', playback_over clock profile sessionID (Some outcome) g = (g', Ok tt) /\
    gw_events g' = gw_events g ++ device_stop sessionID outcome /\ gw_output g' = gw_output g /\ turn (gw_voice g') = None /\
    device_session_after a g outcome g'.
Proof.
  intros Hi Ha Hne. unfold playback_over, device_stop, device_session_after.
  assert (Ew : gw_try (WriteEvent (DeviceTTS "stop" sessionID "")) g = (g <|gw_events := gw_events g ++ [DeviceTTS "stop" sessionID ""]|>, Ok (Ok tt)))
    by (unfold gw_try; by rewrite write_ok).
  rewrite (bind_ok _ _ _ _ _ Ew), (bind_ok _ _ _ _ _ eq_refl). clear Ew.
  set (g1 := _ <|gw_voice := _|>).
  assert (H1 : only_told [DeviceTTS "stop" sessionID ""] g g1 /\ turn (gw_voice g1) = None).
  { subst g1. split; [unfold only_told; by read_fields|]. read_fields. apply settled_voice. }
  destruct H1 as [(B1 & O1 & E1) V1]. clearbody g1. destruct (oc_EndSession outcome).
  - unfold completeTurnReturnOrClose. destruct (close_directive _ _) as [reason message].
    rewrite (bind_ok _ _ _ _ _ (trace_ok _ _ _)), (bind_ok _ _ _ _ _ eq_refl). cbn [OnEndSession]. rewrite (bind_ok _ _ _ _ _ eq_refl).
    unfold close_socket. rewrite write_ok. eexists. split; [reflexivity|]. destruct g1. cbn in *. subst. by rewrite <- app_assoc.
  - rewrite <- B1 in Hne |- *. assert (Es : gw_session g1 = gw_session g) by (unfold gw_session; by rewrite B1). rewrite <- Es in Hi, Ha.
    destruct (resolve_ok clock g1 a Hi Ha Hne) as (g2 & sn & Hres & _ & Ha2 & Hp2 & Hv2 & _ & Ho2 & _).
    assert (Ev : gw_events g2 = gw_events g1).
    { destruct (keeps_resolve (fun g => gw_events g = gw_events g1)) as [K1 K2]; [by intros ? ? -> ->|].
      specialize (K1 g1 eq_refl). unfold ends in K1. destruct Hres as [(g0 & sn0 & E0 & E2)|E2].
      - rewrite E0 in K1. specialize (K2 g0 K1). unfold ends in K2. by rewrite E2 in K2.
      - by rewrite E2 in K1. }
    destruct (completed_quietly sn (oc_EndReason outcome) (oc_EndMessage outcome) (resolvePostPlayback clock)
      (Some (fun _ _ _ => gw_bind reset_session (fun _ => close_socket))) g1 g2 Hres) as (g3 & E3 & (B3 & O3 & E3') & V3).
    exists g3. split; [exact E3|]. rewrite E3', Ev, E1, app_nil_r, O3, Ho2, O1, V3, Hv2, V1. unfold gw_session in *. by rewrite B3.
Qed.

(** What the device is told before the first packet. *)
Definition device_start (sessionID said : text) : list server_event :=
  DeviceTTS "start" sessionID "" :: if TrimSpace said != "" then [DeviceTTS "sentence_start" sessionID said] else [].

(** C8. What is played is what the device hears, and the connection listens again.
    When the packets of an answer have all been played, each not larger than 65535
    bytes and each with the version that was agreed on when it went out, the device
    has been told the start, the sentence if there is one, a frame for each packet
    that is not empty, in order, whose content in that version is the packet, and
    the stop, and nothing else; the turn is settled and the output is free.  If the
    answer ends the session, that is reset and the socket closed; else the session
    is active with an idle output, previewing if it was, and every byte staged
    meanwhile follows the audio of the open turn. *)
Theorem device_hears_the_answer sessionID said packets outcome a o (g : runtime) :
  session_inv (gw_session g) -> abs (gw_session g) = Some a -> Forall (fun p => p <> []) (pending_chunks (pendingBargeIn (gw_barge g))) ->
  gw_output g = Some o -> Forall (fun p => len (fst p) <= 65535) packets ->
  exists g' frames,
    device_goroutine clock profile (os_id o) sessionID said packets PacketsOver (Some outcome) g = (g', Ok tt) /\
    Forall2 framed (to_send packets) frames /\
    gw_events g' = gw_events g ++ device_start sessionID said ++ map DeviceFrame frames ++ device_stop sessionID outcome /\
    turn (gw_voice g') = None /\ gw_output g' = None /\ device_session_after a g outcome g'.
Proof.
  intros Hi Ha Hne Ho Hp. unfold device_goroutine, device_playback.
  assert (E1 : exists g1, only_told (device_start sessionID said) g g1 /\ forall k : gw unit,
    gw_bind (WriteEvent (DeviceTTS "start" sessionID "")) (fun _ =>
      gw_bind (gw_when (TrimSpace said != "") (WriteEvent (DeviceTTS "sentence_start" sessionID said))) (fun _ => k)) g = k g1).
  { unfold device_start. destruct (TrimSpace said != "") eqn:E; cbn [gw_when].
    - eexists. split; [exact (told_then _ _ _ _ _ (told_write _ g) (told_write (DeviceTTS "sentence_start" sessionID said) _))|]. intros k.
      by rewrite (bind_ok _ _ _ _ _ (write_ok _ _)), (bind_ok _ _ _ _ _ (write_ok _ _)).
    - eexists. split; [exact (told_write _ g)|]. intros k. by rewrite (bind_ok _ _ _ _ _ (write_ok _ _)). }
  destruct E1 as (g1 & H1 & E1). destruct (packets_are_played sessionID packets g1 Hp) as (g2 & frames & E2 & F & H2).
  pose proof (told_then _ _ _ _ _ H1 H2) as (B2 & O2 & W2).
  assert (Es : gw_session g2 = gw_session g) by (unfold gw_session; by rewrite B2).
  destruct (playback_is_over sessionID a outcome g2) as (g3 & E3 & W3 & O3 & V3 & S3); [by rewrite Es|by rewrite Es|by rewrite B2|].
  assert (E : gw_try (gw_bind (WriteEvent (DeviceTTS "start" sessionID "")) (fun _ =>
    gw_bind (gw_when (TrimSpace said != "") (WriteEvent (DeviceTTS "sentence_start" sessionID said))) (fun _ =>
      gw_bind (play_packets clock sessionID packets) (fun _ => playback_over clock profile sessionID (Some outcome))))) g = (g3, Ok (Ok tt))).
  { unfold gw_try. by rewrite E1, (bind_ok _ _ _ _ _ E2), E3. }
  rewrite (bind_ok _ _ _ _ _ E). unfold clearOutput, gw_update. rewrite O3, O2, Ho, Z.eqb_refl.
  eexists _, frames. split; [reflexivity|]. split; [exact F|]. read_fields. rewrite W3, W2, <- !app_assoc.
  split; [done|]. split; [done|]. split; [done|]. unfold device_session_after, gw_session in *. rewrite <- B2.
  by destruct (oc_EndSession outcome); read_fields.
Qed.

End Listening.

(** ** A device *)

#[local] Existing Instance demo_session.
#[local] Existing Instance silent_decoder.
#[local] Existing Instance demo_previewer.
#[local] Existing Instance open_connection.
#[local] Existing Instance open_reliable.

Definition device_profile : XiaozhiCompatProfile :=
  mkXiaozhiProfile true "/xiaozhi/v1" "/xiaozhi/ota" 2 "websocket" "pcm16le" 16000 1 60 4096 15000 60000 false
    "pcm16le" 16000 1 "opus" 24000 1 60.

Definition demo_compat : xiaozhiCompatState :=
  (new_compat_state device_profile demo_now "2" "" "dev" "" "" "") <|audioTurnOpen := true|>.

Definition demo_device : device (S := InMemoryMemoryStore) (P := unit) := (demo_compat, demo_open).

Definition demo_encoder (s : turn_stream unit) (_ _ _ _ _ : Z) : result text unit := Ok tt.

Definition demo_wrapped (raw : bytes) : bytes := be_bytes 2 2 ++ be_bytes 2 0 ++ repeat Byte.x00 8 ++ be_bytes 4 (len raw) ++ raw.

Lemma device_frames_are_the_turn_witness :
  answers_with demo_clock device_profile (fun _ => tt) (fun _ _ => None) demo_encoder polite_responder ["001"; "000"; "002"; "000"]%byte
    (xz_bind (device_hear demo_clock device_profile [demo_wrapped ["001"; "000"]%byte; demo_wrapped ["002"; "000"]%byte])
      (fun _ => handleListen demo_clock device_profile (fun _ => tt) (fun _ _ => None) demo_encoder polite_responder None
                  (mkListen "stop" "" ""))) demo_device.
Proof.
  apply (device_frames_are_the_turn demo_clock device_profile (fun _ => tt) (fun _ _ => None) demo_encoder 16000 1 [] 2
    [["001"; "000"]%byte; ["002"; "000"]%byte] _ polite_responder None (mkListen "stop" "" "") demo_device).
  - split; [done|]. split; [by vm_compute|]. split; [|by split].
    split; [exact (start_inv demo_now (start_request_of "sess" demo_start) NewRealtimeSession Session.new_inv)|]. split; [done|].
    exists InputStateActive, 0. by vm_compute.
  - repeat constructor; by vm_compute.
  - by vm_compute.
  - by vm_compute.
Defined.

Lemma device_hears_the_answer_witness :
  exists g' frames,
    device_goroutine demo_clock device_profile (os_id demo_output) "sess" "Hi." [(["001"]%byte, 2); ([], 2); (["002"]%byte, 3)] PacketsOver
      (Some (mkOutputOutcome false "" "")) demo_gateway = (g', Ok tt) /\
    gw_events g' = gw_events demo_gateway ++ [DeviceTTS "start" "sess" ""; DeviceTTS "sentence_start" "sess" "Hi."] ++
                   map DeviceFrame frames ++ [DeviceTTS "stop" "sess" ""] /\ length frames = 2%nat.
Proof.
  destruct (abs demo_speaking) as [a|] eqn:Ea; [|by vm_compute in Ea].
  destruct (device_hears_the_answer demo_clock device_profile "sess" "Hi." [(["001"]%byte, 2); ([], 2); (["002"]%byte, 3)]
    (mkOutputOutcome false "" "") a demo_output demo_gateway) as (g' & frames & E & F & W & _);
    [exact demo_inv|exact Ea|by repeat constructor|done|by repeat constructor|].
  exists g', frames. split; [exact E|]. split; [exact W|]. by apply Forall2_length in F.
Defined.

(** After an answer that failed the device is told an error, and the session still
    thinks.  The turn the device speaks next is not answered: [stop] finds no
    active session, and the frames stay pending.  The realtime transport ends the
    session instead. *)
Definition next_turn (r : turn_responder unit (gateway InMemoryMemoryStore unit)) : xz (S := InMemoryMemoryStore) (P := unit) handler_end :=
  xz_bind (handleListen demo_clock device_profile (fun _ => tt) (fun _ _ => None) demo_encoder r None (mkListen "start" "" "")) (fun _ =>
    xz_bind (handleDeviceBinary demo_clock device_profile None (demo_wrapped ["001"; "000"]%byte)) (fun _ =>
      handleListen demo_clock device_profile (fun _ => tt) (fun _ _ => None) demo_encoder r None (mkListen "stop" "" ""))).

Lemma failed_answer_leaves_the_device_unheard :
  match next_turn failing_responder demo_device with
  | (d1, Ok Returned) =>
      List.filter (fun e => match e with DeviceError _ _ => true | _ => false end) (gw_events (snd d1)) = [DeviceError (cs_sessionID demo_compat) "no model"] /\
      Snap_State (Snapshot_ (gw_session (snd d1))) = StateThinking /\
      match next_turn polite_responder d1 with
      | (d2, Ok Returned) =>
          gw_events (snd d2) = gw_events (snd d1) /\ Snap_State (Snapshot_ (gw_session (snd d2))) = StateThinking /\
          concat (turnAudioChunks (gw_session (snd d2))) = ["001"; "000"]%byte
      | _ => False
      end
  | _ => False
  end.
Proof. vm_compute. by repeat split. Qed.
