(* ===== verification/ChatModelClient.v ===== *)
(** * The chat model behind the executor (internal/agent/deepseek_chat.go)

    A client of a chat-completion service: requests are built from the executor's,
    an answer comes whole or as a stream of server-sent events whose chunks are
    put together again.  The service and the JSON codec are parameters; a body is
    its text and the error that ends it, if one does, which comes after the text. *)

From stdpp Require Import sorting.
From S2P Require Import Prelude GoText GoJSON GoFloat Contracts Memory AgentRuntime LLMExecutor.

(** ** The client *)

Definition defaultDeepSeekBaseURL : text := "https://api.deepseek.com".
Definition defaultDeepSeekModel : text := "deepseek-chat".

(** [HTTPClient] says whether the caller brings a client. *)
Record DeepSeekChatModelConfig := mkDeepSeekConfig {
  dc_BaseURL : text;
  dc_APIKey : text;
  dc_Model : text;
  dc_Temperature : float64;
  dc_MaxTokens : Z;
  dc_Timeout : duration;
  dc_HTTPClient : bool
}.

(** The timeout is that of the client made here. *)
Record DeepSeekChatModel := mkDeepSeek {
  baseURL : text;
  apiKey : text;
  ds_model : text;
  temperature : float64;
  maxTokens : Z;
  clientTimeout : option duration
}.

Definition normalizeDeepSeekBaseURL (raw : text) : text :=
  let base := TrimRight (TrimSpace raw) "/" in
  if base == "" then defaultDeepSeekBaseURL else base.

Definition NewDeepSeekChatModel (cfg : DeepSeekChatModelConfig) : DeepSeekChatModel :=
  let model := TrimSpace (dc_Model cfg) in
  mkDeepSeek (normalizeDeepSeekBaseURL (dc_BaseURL cfg)) (TrimSpace (dc_APIKey cfg))
    (if model == "" then defaultDeepSeekModel else model) (dc_Temperature cfg) (dc_MaxTokens cfg)
    (if dc_HTTPClient cfg then None else Some (if dc_Timeout cfg <=? 0 then 30 * Second else dc_Timeout cfg)).

(** ** Requests *)

Record deepseekToolCallEntry := mkToolEntry { te_Name : text; te_Arguments : text }.
Record deepseekToolCall := mkDeepSeekCall { dt_ID : text; dt_Type : text; dt_Function : deepseekToolCallEntry }.

(** The content is null or a text. *)
Record deepseekChatMessage := mkDeepSeekMessage {
  dm_Role : text;
  dm_Content : option text;
  dm_ToolCallID : text;
  dm_ToolCalls : list deepseekToolCall
}.

Record deepseekToolFunction := mkToolFunction {
  tf_Name : text;
  tf_Description : text;
  tf_Parameters : list (text * json);
  tf_Strict : bool
}.

Record deepseekToolDefinition := mkToolDefinition { td_Type : text; td_Function : deepseekToolFunction }.

Record deepseekChatCompletionRequest := mkCompletionRequest {
  dr_Model : text;
  dr_Messages : list deepseekChatMessage;
  dr_Stream : bool;
  dr_Temperature : float64;
  dr_MaxTokens : Z;
  dr_Tools : list deepseekToolDefinition;
  dr_ToolChoice : option text
}.

Definition deepseekMessageContent (m : ChatMessage) : option text :=
  if (cm_Role m == txt "assistant") && (cm_Content m == "") && (0 <? len (cm_ToolCalls m)) then None else Some (cm_Content m).

Definition deepseekToolCallsFromChat (calls : list ChatToolCall) : list deepseekToolCall :=
  map (fun c => mkDeepSeekCall (tc_ID c) "function" (mkToolEntry (tc_Name c) (normalizedToolArguments (tc_Arguments c)))) calls.

Definition chatToolCallsFromDeepSeek (calls : list deepseekToolCall) : list ChatToolCall :=
  map (fun c => mkChatToolCall (TrimSpace (dt_ID c)) (TrimSpace (te_Name (dt_Function c)))
                  (normalizedToolArguments (te_Arguments (dt_Function c)))) calls.

Definition buildRequest (m : DeepSeekChatModel) (q : ChatModelRequest) (stream : bool) : deepseekChatCompletionRequest :=
  let messages := match cq_Messages q with
                  | [] => initialChatMessages (cq_SystemPrompt q) (cq_MemoryContext q) (cq_UserText q) (cq_Metadata q)
                  | messages => messages
                  end in
  let tools := map (fun t => mkToolDefinition "function" (mkToolFunction (tool_Name t) (tool_Description t) (tool_Parameters t) (tool_Strict t)))
                 (List.filter (fun t => TrimSpace (tool_Name t) != "") (cq_Tools q)) in
  mkCompletionRequest (ds_model m)
    (map (fun x => mkDeepSeekMessage (cm_Role x) (deepseekMessageContent x) (cm_ToolCallID x) (deepseekToolCallsFromChat (cm_ToolCalls x))) messages)
    stream (temperature m) (if 0 <? maxTokens m then maxTokens m else 0) tools
    (if 0 <? len tools then Some (txt "auto") else None).

Record http_request := mkHTTPRequest {
  hr_URL : text;
  hr_Authorization : text;
  hr_ContentType : text;
  hr_Accept : text;
  hr_Body : text
}.

(** ** Answers *)

(** The first choice is the one that is read; [content] may be of any type. *)
Record deepseekChoice := mkChoice { ch_FinishReason : text; ch_Role : text; ch_Content : json; ch_ToolCalls : list deepseekToolCall }.
Record deepseekChatCompletionResponse := mkCompletionResponse { Choices : list deepseekChoice }.

Record deepseekToolCallChunk := mkToolCallChunk { tk_Index : Z; tk_ID : text; tk_Type : text; tk_Function : deepseekToolCallEntry }.
Record deepseekDelta := mkDelta { dl_FinishReason : text; dl_Role : text; dl_Content : text; dl_ToolCalls : list deepseekToolCallChunk }.
Record deepseekChatCompletionChunk := mkChunk { Deltas : list deepseekDelta }.

(** A status, and the body up to its end or to an error. *)
Record http_response := mkHTTPResponse { StatusCode : Z; Status : text; Body : text; BodyError : option text }.

Definition json_text (fields : list (text * json)) : text :=
  match json_get (txt "text") fields with Some (JString s) => s | _ => [] end.

(** A decoded object is a [JMap]. *)
Definition renderDeepSeekContent (content : json) : text :=
  match content with
  | JString s => s
  | JArray items =>
      concat (map (fun item => match item with
                               | JMap fields => if TrimSpace (json_text fields) == "" then [] else json_text fields
                               | _ => []
                               end) items)
  | _ => []
  end.

Definition emptyContent : text := "deepseek chat completion returned empty content".

Definition decodeDeepSeekResponse (decoded : deepseekChatCompletionResponse) : result text ChatModelResponse :=
  match Choices decoded with
  | [] => Err (txt "deepseek chat completion returned no choices")
  | choice :: _ =>
      let s := renderDeepSeekContent (ch_Content choice) in
      let role := TrimSpace (ch_Role choice) in
      let calls := chatToolCallsFromDeepSeek (ch_ToolCalls choice) in
      let trimmed := TrimSpace s in
      if (trimmed == "") && (len calls =? 0) then Err emptyContent
      else Ok (mkChatResponse trimmed (TrimSpace (ch_FinishReason choice))
                 (mkChatMessage (if role == "" then txt "assistant" else role) s [] calls))
  end.

(** ** Bodies *)

(** The lines of a text, the last without a newline if it is not empty. *)
Fixpoint split_lines (s : text) : list text :=
  match s with
  | [] => []
  | r :: s =>
      if r =? 10 then [] :: split_lines s
      else match split_lines s with [] => [[r]] | l :: ls => (r :: l) :: ls end
  end.

Definition maxLineBytes : Z := 1024 * 1024.

(** [bufio.Scanner] over the lines: a line that does not fit its buffer stops it. *)
Fixpoint scan_lines (lines : list text) (e : option text) : list text * option text :=
  match lines with
  | [] => ([], e)
  | l :: ls =>
      if maxLineBytes <=? utf8_len l then ([], Some (txt "bufio.Scanner: token too long"))
      else let '(tokens, e) := scan_lines ls e in (TrimSuffix l [13] :: tokens, e)
  end.

Definition scan (r : http_response) : list text * option text := scan_lines (split_lines (Body r)) (BodyError r).

(** The first [n] bytes of a text; the bytes of a rune that is cut are invalid. *)
Fixpoint first_bytes (n : Z) (s : text) : text :=
  match s with
  | [] => []
  | r :: s => if rune_len r <=? n then r :: first_bytes (n - rune_len r) s else repeat 65533 (Z.to_nat n)
  end.

(** [io.ReadAll] behind an [io.LimitReader]. *)
Definition read_limited (n : Z) (r : http_response) : result text text :=
  match BodyError r with
  | Some e => if utf8_len (Body r) <? n then Err e else Ok (first_bytes n (Body r))
  | None => Ok (first_bytes n (Body r))
  end.

(** ** Streams *)

(** What JSON makes of a request and of what comes back, and what a URL is. *)
Class ChatCodec := {
  encode_request : deepseekChatCompletionRequest -> result text text;
  decode_response : text -> option text -> result text deepseekChatCompletionResponse;
  decode_chunk : text -> result text deepseekChatCompletionChunk;
  decode_api_error : text -> option text;
  check_url : text -> option text
}.

(** What has been put together; the deltas are those of the sink. *)
Record stream_state := mkStreamState {
  st_content : text;
  st_finish : text;
  st_role : text;
  st_toolCalls : gmap Z ChatToolCall;
  st_deltas : list text
}.

#[export] Instance stream_state_rebuild : Rebuild stream_state := fun s =>
  mkStreamState (st_content s) (st_finish s) (st_role s) (st_toolCalls s) (st_deltas s).

Definition new_stream : stream_state := mkStreamState [] [] "assistant" ∅ [].

Definition nonblank_or (fallback s : text) : text := if TrimSpace s != "" then TrimSpace s else fallback.

Definition merge_tool_call (calls : gmap Z ChatToolCall) (c : deepseekToolCallChunk) : gmap Z ChatToolCall :=
  let merged := default (mkChatToolCall [] [] []) (calls !! tk_Index c) in
  <[tk_Index c := mkChatToolCall (nonblank_or (tc_ID merged) (tk_ID c)) (nonblank_or (tc_Name merged) (te_Name (tk_Function c)))
                    (tc_Arguments merged ++ te_Arguments (tk_Function c))]> calls.

Definition stream_chunk (st : stream_state) (c : deepseekChatCompletionChunk) : stream_state :=
  match Deltas c with
  | [] => st
  | d :: _ =>
      st <|st_role := nonblank_or (st_role st) (dl_Role d)|>
         <|st_content := st_content st ++ dl_Content d|>
         <|st_deltas := st_deltas st ++ (if dl_Content d != "" then [dl_Content d] else [])|>
         <|st_toolCalls := fold_left merge_tool_call (dl_ToolCalls d) (st_toolCalls st)|>
         <|st_finish := nonblank_or (st_finish st) (dl_FinishReason d)|>
  end.

(** The data of a line of events, if it has any. *)
Definition event_data (line : text) : option text :=
  let line := TrimSpace line in
  if (line == "") || negb (HasPrefix line "data:") then None
  else let payload := TrimSpace (TrimPrefix line "data:") in if payload == "" then None else Some payload.

(** How the lines end: at the mark of the end, with a chunk that is not one, or by themselves. *)
Inductive stream_end := StreamDone | StreamBroken (err : text) | LinesOver.

Fixpoint stream_lines `{!ChatCodec} (lines : list text) (st : stream_state) : stream_state * stream_end :=
  match lines with
  | [] => (st, LinesOver)
  | line :: lines =>
      match event_data line with
      | None => stream_lines lines st
      | Some payload =>
          if payload == txt "[DONE]" then (st, StreamDone)
          else match decode_chunk payload with
               | Err e => (st, StreamBroken e)
               | Ok c => stream_lines lines (stream_chunk st c)
               end
      end
  end.

Definition flattenIndexedToolCalls (indexed : gmap Z ChatToolCall) : list ChatToolCall :=
  map (fun i => let c := default (mkChatToolCall [] [] []) (indexed !! i) in
                mkChatToolCall (tc_ID c) (tc_Name c) (normalizedToolArguments (tc_Arguments c)))
    (merge_sort Z.le (elements (dom indexed))).

Definition finish_stream (st : stream_state) : result text ChatModelResponse :=
  let message := mkChatMessage (st_role st) (st_content st) [] (flattenIndexedToolCalls (st_toolCalls st)) in
  let s := TrimSpace (cm_Content message) in
  if (s == "") && (len (cm_ToolCalls message) =? 0) then Err emptyContent
  else Ok (mkChatResponse s (st_finish st) message).

Definition stream_answer `{!ChatCodec} (r : http_response) : list text * result text ChatModelResponse :=
  let '(lines, scan_error) := scan r in
  let '(st, ended) := stream_lines lines new_stream in
  (st_deltas st, match ended with
                 | StreamBroken e => Err e
                 | StreamDone => finish_stream st
                 | LinesOver => match scan_error with Some e => Err e | None => finish_stream st end
                 end).

(** ** The two calls *)

Section Calls.

Context {W : Type} `{!ChatCodec} (Do : http_request -> W -> W * result text http_response) (m : DeepSeekChatModel).

Definition newRequest (q : ChatModelRequest) (stream : bool) : result text http_request :=
  let! body := encode_request (buildRequest m q stream) in
  let url := baseURL m ++ txt "/chat/completions" in
  match check_url url with
  | Some e => Err e
  | None => Ok (mkHTTPRequest url (txt "Bearer " ++ apiKey m) "application/json" (if stream then txt "text/event-stream" else txt "application/json") body)
  end.

Definition deepseekErrorMessage (r : http_response) : text :=
  match read_limited 8192 r with
  | Err _ => Status r
  | Ok body =>
      match decode_api_error body with
      | Some message => if TrimSpace message != "" then message else if TrimSpace body == "" then Status r else TrimSpace body
      | None => if TrimSpace body == "" then Status r else TrimSpace body
      end
  end.

(** The answer of the service to a request, when it is one. *)
Definition answered (q : ChatModelRequest) (stream : bool) (w : W) : W * result text http_response :=
  match newRequest q stream with
  | Err e => (w, Err e)
  | Ok request =>
      match Do request w with
      | (w, Err e) => (w, Err e)
      | (w, Ok r) =>
          if (StatusCode r <? 200) || (300 <=? StatusCode r)
          then (w, Err (txt "deepseek chat completion failed: " ++ deepseekErrorMessage r))
          else (w, Ok r)
      end
  end.

Definition deepseek_Complete (q : ChatModelRequest) (w : W) : W * result text ChatModelResponse :=
  let '(w, r) := answered q false w in
  (w, let! r := r in let! decoded := decode_response (Body r) (BodyError r) in decodeDeepSeekResponse decoded).

Definition deepseek_Stream (q : ChatModelRequest) (w : W) : W * (list text * result text ChatModelResponse) :=
  let '(w, r) := answered q true w in
  (w, match r with Err e => ([], Err e) | Ok r => stream_answer r end).

(** The model the executor is given. *)
Definition deepseek_chat_model : ChatModel W := mkChatModel W deepseek_Complete (Some deepseek_Stream).

End Calls.

(** ** What the pieces stand for *)

(** The completion a list of chunks stands for: of the role, the end and each
    call's name and id the last that is not blank, of the texts all of them. *)
Definition first_delta (c : deepseekChatCompletionChunk) : list deepseekDelta := take 1 (Deltas c).
Definition last_said (l : list text) : text := default [] (last (List.filter (fun s => s != "") (map TrimSpace l))).

Definition fragments (ds : list deepseekDelta) : list deepseekToolCallChunk := concat (map dl_ToolCalls ds).

Definition whole_tool_call (fs : list deepseekToolCallChunk) (i : Z) : deepseekToolCall :=
  let own := List.filter (fun f => tk_Index f =? i) fs in
  mkDeepSeekCall (last_said (map tk_ID own)) "function"
    (mkToolEntry (last_said (map (fun f => te_Name (tk_Function f)) own)) (concat (map (fun f => te_Arguments (tk_Function f)) own))).

Definition whole_choice (ds : list deepseekDelta) : deepseekChoice :=
  mkChoice (last_said (map dl_FinishReason ds)) (last_said (map dl_Role ds)) (JString (concat (map dl_Content ds)))
    (map (whole_tool_call (fragments ds)) (merge_sort Z.le (remove_dups (map tk_Index (fragments ds))))).

Definition whole_completion (chunks : list deepseekChatCompletionChunk) : deepseekChatCompletionResponse :=
  mkCompletionResponse [whole_choice (concat (map first_delta chunks))].

(** The data of a stream, up to the mark of its end. *)
Fixpoint payloads (lines : list text) : list text :=
  match lines with
  | [] => []
  | line :: lines =>
      match event_data line with
      | None => payloads lines
      | Some p => if p == txt "[DONE]" then [] else p :: payloads lines
      end
  end.

(** ** Putting the pieces together *)

Lemma last_said_snoc l s : last_said (l ++ [s]) = nonblank_or (last_said l) s.
Proof.
  unfold last_said, nonblank_or. rewrite map_app, List.filter_app. cbn [map List.filter]. destruct (TrimSpace s != ""); [by rewrite last_snoc|].
  by rewrite app_nil_r.
Qed.

Lemma last_said_one s : last_said [s] = nonblank_or [] s.
Proof. exact (last_said_snoc [] s). Qed.

Lemma last_said_trimmed l : TrimSpace (last_said l) = last_said l.
Proof.
  induction l as [|s l IH] using rev_ind; [done|]. rewrite last_said_snoc. unfold nonblank_or. destruct (_ != _); [apply TrimSpace_idemp|done].
Qed.

(** What a fragment adds to the call it belongs to. *)
Definition gathered (fs : list deepseekToolCallChunk) (i : Z) : option ChatToolCall :=
  let own := List.filter (fun f => tk_Index f =? i) fs in
  match own with
  | [] => None
  | _ => Some (mkChatToolCall (last_said (map tk_ID own)) (last_said (map (fun f => te_Name (tk_Function f)) own))
                 (concat (map (fun f => te_Arguments (tk_Function f)) own)))
  end.

Lemma gathered_snoc fs f i :
  gathered (fs ++ [f]) i =
  if tk_Index f =? i
  then let before := default (mkChatToolCall [] [] []) (gathered fs i) in
       Some (mkChatToolCall (nonblank_or (tc_ID before) (tk_ID f)) (nonblank_or (tc_Name before) (te_Name (tk_Function f)))
               (tc_Arguments before ++ te_Arguments (tk_Function f)))
  else gathered fs i.
Proof.
  unfold gathered. rewrite List.filter_app. cbn [List.filter]. destruct (tk_Index f =? i); [|by rewrite app_nil_r].
  set (own := List.filter _ fs). destruct own as [|g own].
  { cbn [app map concat default tc_ID tc_Name tc_Arguments]. by rewrite !last_said_one, app_nil_r. }
  cbn [default app].
  change (g :: own ++ [f]) with ((g :: own) ++ [f]). rewrite !map_app, !concat_app. cbn [map concat]. rewrite !last_said_snoc, app_nil_r. done.
Qed.

Lemma merged_calls fs : forall i, fold_left merge_tool_call fs ∅ !! i = gathered fs i.
Proof.
  induction fs as [|f fs IH] using rev_ind; intros i; [done|]. rewrite fold_left_app, gathered_snoc. cbn [fold_left]. unfold merge_tool_call at 1.
  destruct (tk_Index f =? i) eqn:E.
  - apply Z.eqb_eq in E as <-. rewrite lookup_insert_eq, IH. done.
  - apply Z.eqb_neq in E. rewrite lookup_insert_ne by done. apply IH.
Qed.

Lemma gathered_some fs i : is_Some (gathered fs i) <-> i ∈ map tk_Index fs.
Proof.
  induction fs as [|f fs IH] using rev_ind; [split; [by intros [? ?]|by intros ?%elem_of_nil]|].
  rewrite gathered_snoc, map_app, elem_of_app. cbn [map]. rewrite list_elem_of_singleton. destruct (tk_Index f =? i) eqn:E.
  - apply Z.eqb_eq in E. split; [by right|by eexists].
  - apply Z.eqb_neq in E. rewrite IH. split; [by left|]. by intros [H|H].
Qed.

(** The calls of the map, in the order of their numbers. *)
Lemma flattened_calls fs :
  flattenIndexedToolCalls (fold_left merge_tool_call fs ∅)
  = chatToolCallsFromDeepSeek (map (whole_tool_call fs) (merge_sort Z.le (remove_dups (map tk_Index fs)))).
Proof.
  set (M := fold_left merge_tool_call fs ∅).
  assert (E : merge_sort Z.le (elements (dom M)) = merge_sort Z.le (remove_dups (map tk_Index fs))).
  { apply (StronglySorted_unique Z.le); [apply (StronglySorted_merge_sort Z.le)..|]. rewrite !merge_sort_Permutation.
    apply NoDup_Permutation; [apply NoDup_elements|apply NoDup_remove_dups|]. intros i.
    rewrite elem_of_elements, elem_of_remove_dups, elem_of_dom, <- gathered_some. subst M. by rewrite merged_calls. }
  unfold flattenIndexedToolCalls, chatToolCallsFromDeepSeek. rewrite E, map_map. apply map_ext_in. intros i Hi.
  apply list_elem_of_In in Hi. rewrite merge_sort_Permutation, elem_of_remove_dups, <- gathered_some in Hi. subst M. rewrite merged_calls.
  destruct Hi as [c Hc]. rewrite Hc. unfold whole_tool_call. cbn [default dt_ID dt_Function te_Name te_Arguments]. rewrite !last_said_trimmed.
  unfold gathered in Hc. destruct (List.filter _ fs) as [|f own]; [done|]. by injection Hc as <-.
Qed.

Lemma nonblank_or_said l : nonblank_or (txt "assistant") (last_said l) = (if last_said l == "" then txt "assistant" else last_said l).
Proof. unfold nonblank_or. rewrite last_said_trimmed. by destruct (last_said l == ""). Qed.

Lemma nonblank_or_again fallback l s : nonblank_or (nonblank_or fallback (last_said l)) s = nonblank_or fallback (last_said (l ++ [s])).
Proof.
  rewrite last_said_snoc. unfold nonblank_or. rewrite last_said_trimmed. destruct (TrimSpace s != "") eqn:E; [|by rewrite last_said_trimmed].
  by rewrite TrimSpace_idemp, E.
Qed.

(** The state after any chunks. *)
Lemma chunks_put_together chunks :
  let ds := concat (map first_delta chunks) in
  fold_left stream_chunk chunks new_stream =
  mkStreamState (concat (map dl_Content ds)) (last_said (map dl_FinishReason ds)) (nonblank_or (txt "assistant") (last_said (map dl_Role ds)))
    (fold_left merge_tool_call (fragments ds) ∅) (List.filter (fun s => s != "") (map dl_Content ds)).
Proof.
  cbv zeta. induction chunks as [|c chunks IH] using rev_ind; [done|]. rewrite fold_left_app, IH. cbn [fold_left]. clear IH.
  rewrite map_app, concat_app. cbn [map concat]. rewrite app_nil_r. set (ds := concat (map first_delta chunks)). unfold stream_chunk, first_delta.
  clearbody ds. destruct (Deltas c) as [|d rest]; cbn [take]; [by rewrite app_nil_r|]. unfold fragments.
  rewrite !map_app, !concat_app, List.filter_app, fold_left_app. cbn [map concat List.filter]. rewrite !app_nil_r, <- nonblank_or_again, last_said_snoc.
  by destruct (dl_Content d != "").
Qed.

Lemma lines_are_chunks `{!ChatCodec} lines chunks st :
  Forall2 (fun p c => decode_chunk p = Ok c) (payloads lines) chunks ->
  exists e, stream_lines lines st = (fold_left stream_chunk chunks st, e) /\ (e = StreamDone \/ e = LinesOver).
Proof.
  revert chunks st. induction lines as [|line lines IH]; intros chunks st Hp; cbn [payloads stream_lines] in *.
  { apply Forall2_nil_inv_l in Hp as ->. exists LinesOver. by split; [|right]. }
  destruct (event_data line) as [p|]; [|by apply IH]. destruct (p == txt "[DONE]").
  - apply Forall2_nil_inv_l in Hp as ->. exists StreamDone. by split; [|left].
  - apply Forall2_cons_inv_l in Hp as (c & chunks' & E & Hp' & ->). rewrite E. exact (IH chunks' _ Hp').
Qed.

(** The end of a stream is the end of the whole completion. *)
Lemma finished_whole chunks :
  finish_stream (fold_left stream_chunk chunks new_stream) = decodeDeepSeekResponse (whole_completion chunks).
Proof.
  rewrite chunks_put_together. unfold finish_stream, decodeDeepSeekResponse, whole_completion, whole_choice.
  cbn [Choices ch_Content ch_Role ch_FinishReason ch_ToolCalls renderDeepSeekContent st_role st_content st_toolCalls st_finish cm_Content cm_ToolCalls].
  rewrite flattened_calls, nonblank_or_said, !last_said_trimmed. done.
Qed.

Lemma concat_emitted (l : list text) : concat (List.filter (fun s => s != "") l) = concat l.
Proof.
  induction l as [|s l IH]; [done|]. cbn [List.filter]. destruct (s == "") eqn:E; cbn [negb concat]; rewrite IH; [|done].
  unfold text_eqb in E. apply bool_decide_eq_true in E. by subst.
Qed.

Section Agreement.

Context {W : Type} `{!ChatCodec} (Do : http_request -> W -> W * result text http_response) (m : DeepSeekChatModel).

(** C26. A stream says what the whole answer says.  When the service answers the
    streamed request with lines whose data, up to the mark of the end, are chunks,
    and the other request with the completion those chunks stand for, both calls
    of the client end alike: with the same response, message, tool calls in the
    order of their numbers and reason, or with the same error; and the texts handed
    to the sink meanwhile, none of them empty, laid end to end are the content,
    that of the message if there is one and whose trimmed form is the text. *)
Theorem streamed_completion_is_the_whole q w w1 w2 r1 r2 chunks :
  answered Do m q true w = (w1, Ok r1) -> answered Do m q false w = (w2, Ok r2) ->
  (scan r1).2 = None -> Forall2 (fun p c => decode_chunk p = Ok c) (payloads (scan r1).1) chunks ->
  decode_response (Body r2) (BodyError r2) = Ok (whole_completion chunks) ->
  exists deltas a,
    deepseek_Stream Do m q w = (w1, (deltas, a)) /\ deepseek_Complete Do m q w = (w2, a) /\
    Forall (fun s => s <> []) deltas /\ concat deltas = concat (map dl_Content (concat (map first_delta chunks))) /\
    match a with
    | Ok response => cm_Content (cs_Message response) = concat deltas /\ cs_Text response = TrimSpace (concat deltas)
    | Err _ => TrimSpace (concat deltas) = []
    end.
Proof.
  intros E1 E2 Hs Hp Hd. unfold deepseek_Stream, deepseek_Complete, stream_answer. rewrite E1, E2. cbn [result_bind]. rewrite Hd. cbn [result_bind].
  destruct (scan r1) as [lines err]. cbn [fst snd] in *. subst err. destruct (lines_are_chunks lines chunks new_stream Hp) as (e & -> & He).
  assert (match e with StreamBroken e => Err e | StreamDone => finish_stream (fold_left stream_chunk chunks new_stream)
                     | LinesOver => finish_stream (fold_left stream_chunk chunks new_stream) end
          = decodeDeepSeekResponse (whole_completion chunks)) as ->
    by (destruct He as [->| ->]; apply finished_whole).
  eexists _, _. split; [reflexivity|]. split; [reflexivity|]. rewrite <- finished_whole, chunks_put_together.
  set (ds := concat (map first_delta chunks)). cbn [st_deltas]. rewrite concat_emitted. split.
  { apply Forall_forall. intros s Hin. apply list_elem_of_In, filter_In in Hin as [_ Hin]. by destruct s. }
  split; [done|]. unfold finish_stream. cbn [cm_Content cm_ToolCalls st_content]. destruct (_ && _) eqn:E; [|done].
  apply andb_true_iff in E as [E _]. unfold text_eqb in E. by apply bool_decide_eq_true in E.
Qed.

(** A chunk that is not one ends the stream with its error; what was said before it stays said. *)
Lemma broken_chunk_is_an_error lines rest line p e chunks st :
  Forall2 (fun p c => decode_chunk p = Ok c) (map (fun l => default [] (event_data l)) lines) chunks ->
  Forall (fun l => match event_data l with Some p => (p == txt "[DONE]") = false | None => False end) lines ->
  event_data line = Some p -> (p == txt "[DONE]") = false -> decode_chunk p = Err e ->
  stream_lines (lines ++ line :: rest) st = (fold_left stream_chunk chunks st, StreamBroken e).
Proof.
  intros Hc Hl El Ep Ed. revert chunks st Hc. induction Hl as [|l lines Hl _ IH]; intros chunks st Hc; cbn [map app stream_lines] in *.
  { apply Forall2_nil_inv_l in Hc as ->. by rewrite El, Ep, Ed. }
  apply Forall2_cons_inv_l in Hc as (c & chunks' & E & Hc' & ->). destruct (event_data l) as [p'|]; [|done]. change (default [] (Some p')) with p' in E.
  rewrite Hl, E. exact (IH chunks' _ Hc').
Qed.

End Agreement.

(** ** A conversation with a service *)

(** The chunks a service sends for "Hi there." with a call in two fragments. *)
Definition demo_chunks : list deepseekChatCompletionChunk :=
  [mkChunk [mkDelta "" "assistant" "Hi " [mkToolCallChunk 0 "c1" "function" (mkToolEntry "time_now" "{")]];
   mkChunk [];
   mkChunk [mkDelta "tool_calls" "" "there." [mkToolCallChunk 0 "" "" (mkToolEntry "" "}")]]].

#[local] Instance demo_codec : ChatCodec := {
  encode_request := fun _ => Ok (txt "{}");
  decode_response := fun _ _ => Ok (whole_completion demo_chunks);
  decode_chunk := fun p =>
    if p == txt "1" then Ok (nth 0 demo_chunks (mkChunk []))
    else if p == txt "2" then Ok (nth 1 demo_chunks (mkChunk []))
    else if p == txt "3" then Ok (nth 2 demo_chunks (mkChunk [])) else Err (txt "not a chunk");
  decode_api_error := fun _ => None;
  check_url := fun _ => None
}.

Definition demo_body : text :=
  txt ": keep-alive" ++ [10] ++ txt "data: 1" ++ [13; 10; 10] ++ txt "data: 2" ++ [10] ++ txt "data:3" ++ [10] ++ txt "data: [DONE]" ++ [10].

Definition demo_service (r : http_request) (asked : Z) : Z * result text http_response :=
  (asked + 1, Ok (mkHTTPResponse 200 "200 OK" (if hr_Accept r == txt "text/event-stream" then demo_body else []) None)).

Definition demo_client : DeepSeekChatModel := NewDeepSeekChatModel (mkDeepSeekConfig " https://llm.example/ " "k" "" f_zero 0 0 false).

Definition demo_question : ChatModelRequest := mkChatRequest "s1" "d1" "" "What time is it?" "" zero_MemoryContext ∅ [] [] [].

Lemma streamed_completion_is_the_whole_witness :
  exists deltas a, deepseek_Stream demo_service demo_client demo_question 0 = (1, (deltas, a)) /\
    deepseek_Complete demo_service demo_client demo_question 0 = (1, a) /\ concat deltas = txt "Hi there.".
Proof.
  destruct (answered demo_service demo_client demo_question true 0) as [w1 [r1|e]] eqn:E1; [|by vm_compute in E1].
  destruct (answered demo_service demo_client demo_question false 0) as [w2 [r2|e]] eqn:E2; [|by vm_compute in E2].
  pose proof E1 as E1'. pose proof E2 as E2'. vm_compute in E1', E2'. injection E1' as <- <-. injection E2' as <- <-.
  destruct (streamed_completion_is_the_whole demo_service demo_client demo_question 0 1 1 _ _ demo_chunks E1 E2) as (deltas & a & S & C & _ & T & _);
    [by vm_compute|vm_compute; by repeat constructor|done|].
  exists deltas, a. split; [exact S|]. split; [exact C|]. rewrite T. by vm_compute.
Defined.

(** The two fragments are one call. *)
Example fragments_are_one_call :
  match (deepseek_Stream demo_service demo_client demo_question 0).2.2 with
  | Ok response => cm_ToolCalls (cs_Message response) = [mkChatToolCall "c1" "time_now" "{}"] /\ cs_FinishReason response = txt "tool_calls"
  | Err _ => False
  end.
Proof. vm_compute. by split. Qed.
