(* ===== verification/ChannelBridge.v ===== *)
(** * Channels (internal/channel)

    A text channel hands the server a message through an adapter: it is normalized,
    answered as a turn by an executor, delivered, and what became of it is reported.
    Adapter, executor and reporter are interfaces over a state of the world; a
    reporter's own error is not looked at.  Copies of slices and maps are the values. *)

From S2P Require Import Prelude GoText Contracts Memory AgentRuntime.

(** ** Messages (contracts.go) *)

Record Attachment := mkAttachment { at_Name : text; at_URL : text; at_MIME : text }.

Record InboundMessage := mkInbound {
  in_Channel : text;
  in_MessageID : text;
  in_UserID : text;
  in_ThreadID : text;
  in_Text : text;
  in_SessionID : text;
  RetryAttempt : Z;
  in_IdempotencyKey : text;
  in_Files : list Attachment;
  in_Metadata : metadata
}.

#[export] Instance InboundMessage_rebuild : Rebuild InboundMessage := fun i =>
  mkInbound (in_Channel i) (in_MessageID i) (in_UserID i) (in_ThreadID i) (in_Text i) (in_SessionID i) (RetryAttempt i)
    (in_IdempotencyKey i) (in_Files i) (in_Metadata i).

Record NormalizedInput := mkNormalized {
  SessionKey : text;
  ThreadKey : text;
  MessageKey : text;
  nm_UserText : text;
  Attachments : list Attachment;
  nm_Metadata : metadata
}.

Record OutboundMessage := mkOutbound {
  out_Channel : text;
  out_ThreadID : text;
  out_SessionID : text;
  out_InReplyTo : text;
  out_IdempotencyKey : text;
  out_Text : text;
  out_Metadata : metadata
}.

Definition zero_Inbound : InboundMessage := mkInbound "" "" "" "" "" "" 0 "" [] ∅.
Definition zero_Normalized : NormalizedInput := mkNormalized "" "" "" "" [] ∅.
Definition zero_Outbound : OutboundMessage := mkOutbound "" "" "" "" "" "" ∅.
Definition zero_TurnInput : TurnInput := mkTurnInput "" "" "" "" "" "" (mkAudioInput false 0 0 "" 0 0) [] ∅.
Definition zero_TurnOutput : TurnOutput := mkTurnOutput "" [] false "" "".

Record Adapter (W : Type) := mkAdapter {
  Name : text;
  Normalize : InboundMessage -> W -> W * result text NormalizedInput;
  Deliver : OutboundMessage -> W -> W * option text
}.
Arguments Name {W}.
Arguments Normalize {W}.
Arguments Deliver {W}.

(** ** Reports (runtime_bridge.go) *)

Inductive DeliveryState := DeliveryStateDelivered | DeliveryStateSkipped | DeliveryStateFailed | DeliveryStateNone.
#[export] Instance DeliveryState_eq : EqDecision DeliveryState.
Proof. solve_decision. Defined.

Record DeliveryStatus := mkStatus {
  ds_AdapterName : text;
  ds_Channel : text;
  ds_SessionID : text;
  ds_ThreadID : text;
  ds_MessageID : text;
  ds_TurnID : text;
  ds_TraceID : text;
  ds_Attempt : Z;
  ds_IdempotencyKey : text;
  ds_State : DeliveryState;
  ds_FailureStage : text;
  ds_Error : text
}.

#[export] Instance DeliveryStatus_rebuild : Rebuild DeliveryStatus := fun s =>
  mkStatus (ds_AdapterName s) (ds_Channel s) (ds_SessionID s) (ds_ThreadID s) (ds_MessageID s) (ds_TurnID s) (ds_TraceID s)
    (ds_Attempt s) (ds_IdempotencyKey s) (ds_State s) (ds_FailureStage s) (ds_Error s).

Definition statusFromInbound (adapterName : text) (i : InboundMessage) : DeliveryStatus :=
  mkStatus adapterName (firstNonEmpty [in_Channel i; adapterName]) (firstNonEmpty [in_SessionID i; in_ThreadID i; in_UserID i])
    (in_ThreadID i) (in_MessageID i) "" "" (RetryAttempt i) (firstNonEmpty [in_IdempotencyKey i; in_MessageID i]) DeliveryStateNone "" "".

Definition statusFromTurnInput (adapterName : text) (i : InboundMessage) (t : TurnInput) : DeliveryStatus :=
  let status := statusFromInbound adapterName i in
  status <|ds_SessionID := firstNonEmpty [ti_SessionID t; ds_SessionID status]|> <|ds_TurnID := ti_TurnID t|> <|ds_TraceID := ti_TraceID t|>.

(** ** The turn of a message *)

Definition setIfEmpty (key value : text) (m : metadata) : metadata :=
  if (TrimSpace key == "") || (TrimSpace value == "") then m
  else if TrimSpace (metadata_get m key) != "" then m
  else <[key := value]> m.

Definition buildTurnMetadata (adapterName : text) (i : InboundMessage) (n : NormalizedInput) (sessionID threadKey messageKey : text) : metadata :=
  let m := nm_Metadata n ∪ in_Metadata i in
  let m := setIfEmpty "user_id" (in_UserID i) m in
  let m := setIfEmpty "memory.user_id" (in_UserID i) m in
  let m := setIfEmpty "channel.name" (firstNonEmpty [in_Channel i; adapterName]) m in
  let m := setIfEmpty "channel.thread_id" threadKey m in
  let m := setIfEmpty "channel.session_id" sessionID m in
  let m := setIfEmpty "channel.message_id" (firstNonEmpty [in_MessageID i; messageKey]) m in
  let m := setIfEmpty "channel.idempotency_key" (firstNonEmpty [in_IdempotencyKey i; messageKey; in_MessageID i]) m in
  if 0 <? RetryAttempt i then setIfEmpty "channel.retry_attempt" (Itoa (RetryAttempt i)) m else m.

Definition buildTraceID (adapterName sessionID messageKey : text) : text :=
  let named (s : text) := if TrimSpace s != "" then [TrimSpace s] else [] in
  Join ([txt "channel"; TrimSpace adapterName] ++ named sessionID ++ named messageKey) "/".

Definition attachmentsToImages (attachments : list Attachment) : list ImageInput :=
  map (fun a => mkImage (at_Name a) (at_URL a) (at_MIME a))
    (List.filter (fun a => HasPrefix (ToLower (TrimSpace (at_MIME a))) "image/") attachments).

Definition buildTurnInput (adapterName : text) (i : InboundMessage) (n : NormalizedInput) : TurnInput :=
  let sessionID := firstNonEmpty [SessionKey n; in_SessionID i; ThreadKey n; in_ThreadID i; in_UserID i] in
  let messageKey := firstNonEmpty [MessageKey n; in_MessageID i; in_IdempotencyKey i] in
  let threadKey := firstNonEmpty [ThreadKey n; in_ThreadID i; sessionID] in
  let attachments := match Attachments n with [] => in_Files i | attachments => attachments end in
  mkTurnInput sessionID messageKey (buildTraceID adapterName sessionID messageKey) "" (txt "channel:" ++ adapterName)
    (TrimSpace (firstNonEmpty [nm_UserText n; in_Text i])) (mkAudioInput false 0 0 "" 0 0) (attachmentsToImages attachments)
    (buildTurnMetadata adapterName i n sessionID threadKey messageKey).

Definition buildOutboundMessage (adapterName : text) (i : InboundMessage) (n : NormalizedInput) (t : TurnInput) (o : TurnOutput) : OutboundMessage :=
  let s := TrimSpace (to_Text o) in
  let s := if s == "" then TrimSpace (to_EndMessage o) else s in
  let channel := firstNonEmpty [in_Channel i; adapterName] in
  let thread := firstNonEmpty [ThreadKey n; in_ThreadID i; ti_SessionID t] in
  mkOutbound channel thread (ti_SessionID t) (firstNonEmpty [in_MessageID i; MessageKey n])
    (firstNonEmpty [MessageKey n; in_IdempotencyKey i; in_MessageID i; ti_TurnID t]) s
    (<[txt "channel.name" := channel]> (<[txt "channel.thread_id" := thread]>
      (<[txt "channel.turn_id" := ti_TurnID t]> {[txt "channel.trace_id" := ti_TraceID t]}))).

(** ** The bridge *)

Record RuntimeHandoff := mkHandoff {
  ho_AdapterName : text;
  ho_Inbound : InboundMessage;
  ho_Normalized : NormalizedInput;
  ho_TurnInput : TurnInput;
  ho_TurnOutput : TurnOutput;
  ho_Outbound : OutboundMessage
}.

#[export] Instance RuntimeHandoff_rebuild : Rebuild RuntimeHandoff := fun h =>
  mkHandoff (ho_AdapterName h) (ho_Inbound h) (ho_Normalized h) (ho_TurnInput h) (ho_TurnOutput h) (ho_Outbound h).

Definition zero_handoff : RuntimeHandoff := mkHandoff "" zero_Inbound zero_Normalized zero_TurnInput zero_TurnOutput zero_Outbound.

Record RuntimeBridge (W : Type) := mkBridge {
  rb_Adapter : option (Adapter W);
  rb_Executor : option (TurnInput -> W -> W * result text TurnOutput);
  rb_Reporter : option (DeliveryStatus -> W -> W)
}.
Arguments mkBridge {W}.
Arguments rb_Adapter {W}.
Arguments rb_Executor {W}.
Arguments rb_Reporter {W}.

Section Bridge.

Context {W : Type} (b : RuntimeBridge W).

Definition validate : result text (Adapter W * (TurnInput -> W -> W * result text TurnOutput) * text) :=
  match rb_Adapter b, rb_Executor b with
  | None, _ => Err (txt "channel runtime bridge requires an adapter")
  | _, None => Err (txt "channel runtime bridge requires a turn executor")
  | Some adapter, Some executor =>
      let name := TrimSpace (Name adapter) in
      if name == "" then Err (txt "channel runtime bridge requires adapter.Name()") else Ok (adapter, executor, name)
  end.

(** [deliveryReporter().ReportDelivery] *)
Definition report (s : DeliveryStatus) (w : W) : W := match rb_Reporter b with Some f => f s w | None => w end.

Definition failed (s : DeliveryStatus) (stage e : text) : DeliveryStatus :=
  s <|ds_State := DeliveryStateFailed|> <|ds_FailureStage := stage|> <|ds_Error := e|>.

(** The handoff as far as it came, and the error. *)
Definition HandleInbound (inbound : InboundMessage) (w : W) : W * (RuntimeHandoff * option text) :=
  match validate with
  | Err e => (w, (zero_handoff, Some e))
  | Ok (adapter, executor, adapterName) =>
      let handoff := zero_handoff <|ho_AdapterName := adapterName|> <|ho_Inbound := inbound|> in
      match Normalize adapter inbound w with
      | (w, Err e) =>
          (report (failed (statusFromInbound adapterName inbound) "normalize" e) w,
           (handoff, Some (txt "normalize inbound channel message: " ++ e)))
      | (w, Ok normalized) =>
          let input := buildTurnInput adapterName inbound normalized in
          let handoff := handoff <|ho_Normalized := normalized|> <|ho_TurnInput := input|> in
          match executor input w with
          | (w, Err e) =>
              (report (failed (statusFromTurnInput adapterName inbound input) "execute" e) w,
               (handoff, Some (txt "execute channel turn: " ++ e)))
          | (w, Ok output) =>
              let outbound := buildOutboundMessage adapterName inbound normalized input output in
              let handoff := handoff <|ho_TurnOutput := output|> <|ho_Outbound := outbound|> in
              let status := statusFromTurnInput adapterName inbound input in
              if TrimSpace (out_Text outbound) == ""
              then (report (status <|ds_State := DeliveryStateSkipped|>) w, (handoff, None))
              else match Deliver adapter outbound w with
                   | (w, Some e) =>
                       (report (failed status "deliver" e) w, (handoff, Some (txt "deliver outbound channel message: " ++ e)))
                   | (w, None) => (report (status <|ds_State := DeliveryStateDelivered|>) w, (handoff, None))
                   end
          end
      end
  end.

End Bridge.

(** ** What becomes of a message *)

Section Watched.

Context {W : Type}.

(** What the bridge asks of the others, each with what it was answered, and what it
    reports, in order. *)
Inductive channel_event :=
| Normalized_as (i : InboundMessage) (answer : result text NormalizedInput)
| Executed (t : TurnInput) (answer : result text TurnOutput)
| Delivered_as (o : OutboundMessage) (answer : option text)
| Reported (s : DeliveryStatus).

(** A bridge to the same adapter and executor, whose calls are written down. *)
Definition seen : Type := W * list channel_event.

Definition watched (a : Adapter W) (executor : TurnInput -> W -> W * result text TurnOutput) : RuntimeBridge seen :=
  mkBridge
    (Some (mkAdapter seen (Name a)
             (fun i '(w, log) => let '(w, r) := Normalize a i w in ((w, log ++ [Normalized_as i r]), r))
             (fun o '(w, log) => let '(w, e) := Deliver a o w in ((w, log ++ [Delivered_as o e]), e))))
    (Some (fun t '(w, log) => let '(w, r) := executor t w in ((w, log ++ [Executed t r]), r)))
    (Some (fun s '(w, log) => (w, log ++ [Reported s]))).

(** The answer of a turn: what it says, and what it closes with when it says nothing. *)
Definition channel_answer (o : TurnOutput) : text :=
  if TrimSpace (to_Text o) == "" then TrimSpace (to_EndMessage o) else TrimSpace (to_Text o).

(** The calls of a message: its adapter, once; the executor, once, when that was
    answered; the adapter again, once, when there is an answer that is not blank.
    The handoff holds what was passed on. *)
Definition asked (inbound : InboundMessage) (h : RuntimeHandoff) (calls : list channel_event) : Prop :=
  match calls with
  | [Normalized_as i (Err _)] => i = inbound
  | [Normalized_as i (Ok n); Executed t (Err _)] => i = inbound /\ n = ho_Normalized h /\ t = ho_TurnInput h
  | [Normalized_as i (Ok n); Executed t (Ok o)] =>
      i = inbound /\ n = ho_Normalized h /\ t = ho_TurnInput h /\ o = ho_TurnOutput h /\ channel_answer o = []
  | [Normalized_as i (Ok n); Executed t (Ok o); Delivered_as out _] =>
      i = inbound /\ n = ho_Normalized h /\ t = ho_TurnInput h /\ o = ho_TurnOutput h /\ out = ho_Outbound h /\
      out_Text out = channel_answer o /\ channel_answer o <> []
  | _ => False
  end.

(** What the last of those answers makes of the message: the state, the stage and
    the error to report, and what the caller is told. *)
Definition verdict (calls : list channel_event) : option (DeliveryState * text * text * option text) :=
  match last calls with
  | Some (Normalized_as _ (Err e)) => Some (DeliveryStateFailed, txt "normalize", e, Some (txt "normalize inbound channel message: " ++ e))
  | Some (Executed _ (Err e)) => Some (DeliveryStateFailed, txt "execute", e, Some (txt "execute channel turn: " ++ e))
  | Some (Executed _ (Ok _)) => Some (DeliveryStateSkipped, [], [], None)
  | Some (Delivered_as _ (Some e)) => Some (DeliveryStateFailed, txt "deliver", e, Some (txt "deliver outbound channel message: " ++ e))
  | Some (Delivered_as _ None) => Some (DeliveryStateDelivered, [], [], None)
  | _ => None
  end.

Lemma outbound_text adapterName i n t o : out_Text (buildOutboundMessage adapterName i n t o) = channel_answer o.
Proof. reflexivity. Qed.

Lemma channel_answer_trimmed o : TrimSpace (channel_answer o) = channel_answer o.
Proof. unfold channel_answer. split_if; apply TrimSpace_idemp. Qed.

(** C39. Every message that comes in is settled, once and truly.  Whatever the
    adapter and the executor answer, each is asked in its turn, once, with what the
    one before gave, and the adapter is asked to deliver exactly when the turn's
    answer is not blank, that answer; then one status is reported, last, and it is
    what the last of them answered: delivered when the adapter took the answer,
    skipped when there was none to take, failed at the stage that failed, normalize,
    execute or deliver, with the very error of that stage, which the caller is told
    with the stage before it; and it names the adapter, the message, its attempt and
    its turn. *)
Theorem channel_message_is_settled (a : Adapter W) executor inbound w log :
  TrimSpace (Name a) <> [] ->
  exists w' calls status h error,
    HandleInbound (watched a executor) inbound (w, log) = ((w', log ++ calls ++ [Reported status]), (h, error)) /\
    asked inbound h calls /\
    verdict calls = Some (ds_State status, ds_FailureStage status, ds_Error status, error) /\
    ds_AdapterName status = TrimSpace (Name a) /\ ds_MessageID status = in_MessageID inbound /\ ds_Attempt status = RetryAttempt inbound /\
    ds_TurnID status = ti_TurnID (ho_TurnInput h).
Proof.
  intros Hn. unfold HandleInbound, validate. cbn [watched rb_Adapter rb_Executor Name]. cbv zeta. destruct (TrimSpace (Name a) == "") eqn:En; [by apply text_eqb_true in En|].
  cbn [Normalize Deliver]. unfold report, watched. cbn [rb_Reporter]. destruct (Normalize a inbound w) as [w1 [n|e]].
  2: { exists w1, [Normalized_as inbound (Err e)]. eexists _, _, _. split; [by rewrite <- !app_assoc|done]. }
  set (input := buildTurnInput _ _ _). destruct (executor input w1) as [w2 [o|e]].
  2: { exists w2, [Normalized_as inbound (Ok n); Executed input (Err e)]. eexists _, _, _. split; [by rewrite <- !app_assoc|done]. }
  rewrite outbound_text, channel_answer_trimmed. set (outbound := buildOutboundMessage _ _ _ _ _). destruct (channel_answer o == "") eqn:Eb.
  { exists w2, [Normalized_as inbound (Ok n); Executed input (Ok o)]. eexists _, _, _. split; [by rewrite <- !app_assoc|]. apply text_eqb_true in Eb. done. }
  apply text_eqb_false in Eb. destruct (Deliver a outbound w2) as [w3 [e|]];
    [exists w3, [Normalized_as inbound (Ok n); Executed input (Ok o); Delivered_as outbound (Some e)]
    |exists w3, [Normalized_as inbound (Ok n); Executed input (Ok o); Delivered_as outbound None]];
    (eexists _, _, _; split; [by rewrite <- !app_assoc|done]).
Qed.

End Watched.

(** ** Retries and users *)

Lemma setIfEmpty_other key value m k : k <> key -> setIfEmpty key value m !! k = m !! k.
Proof. intros H. unfold setIfEmpty. destruct (_ || _); [done|]. destruct (_ != _); [done|]. by rewrite lookup_insert_ne. Qed.

(** The same message again: its number of attempts is another. *)
Lemma retried_metadata adapterName i n k sessionID threadKey messageKey key :
  key <> txt "channel.retry_attempt" ->
  buildTurnMetadata adapterName (i <|RetryAttempt := k|>) n sessionID threadKey messageKey !! key
  = buildTurnMetadata adapterName i n sessionID threadKey messageKey !! key.
Proof.
  intros Hk. unfold buildTurnMetadata. read_fields. cbv zeta. set (m := setIfEmpty "channel.idempotency_key" _ _).
  destruct (0 <? k), (0 <? RetryAttempt i); by rewrite ?setIfEmpty_other.
Qed.

Lemma retried_value (m m' : metadata) keys :
  (forall key, key <> txt "channel.retry_attempt" -> m' !! key = m !! key) -> Forall (fun key => key <> txt "channel.retry_attempt") keys ->
  memoryMetadataValue m' keys = memoryMetadataValue m keys.
Proof.
  intros Hm Hk. induction Hk as [|key keys H _ IH]; [done|]. cbn [memoryMetadataValue]. 
  assert (metadata_get m' key = metadata_get m key) as -> by (unfold metadata_get; f_equal; exact (Hm key H)). by rewrite IH.
Qed.

(** A retry is the same turn.  When a message comes again with another number of
    attempts, and the adapter normalizes it alike, the turn it asks for has the same
    session, turn and trace, text and images, and the same metadata but for the
    number of the attempt; memory is asked in the same scopes; an answer is sent as
    the same message, with the same key for the receiver to recognize it by, and
    that key is not blank if the message has any key, id or normalized key. *)
Theorem channel_retry_is_the_same_turn adapterName i n k (o : TurnOutput) said :
  let i' := i <|RetryAttempt := k|> in
  let t := buildTurnInput adapterName i n in
  let t' := buildTurnInput adapterName i' n in
  (ti_SessionID t', ti_TurnID t', ti_TraceID t', ti_UserText t', ti_Images t') = (ti_SessionID t, ti_TurnID t, ti_TraceID t, ti_UserText t, ti_Images t) /\
  (forall key, key <> txt "channel.retry_attempt" -> ti_Metadata t' !! key = ti_Metadata t !! key) /\
  memoryQueryScopes (buildMemoryQuery t' said (ti_Metadata t')) = memoryQueryScopes (buildMemoryQuery t said (ti_Metadata t)) /\
  buildOutboundMessage adapterName i' n t' o = buildOutboundMessage adapterName i n t o /\
  (out_IdempotencyKey (buildOutboundMessage adapterName i n t o) = [] <->
   Forall blank [MessageKey n; in_IdempotencyKey i; in_MessageID i]).
Proof.
  cbv zeta. unfold buildTurnInput. read_fields. cbv zeta.
  set (sessionID := firstNonEmpty [SessionKey n; _; _; _; _]). set (messageKey := firstNonEmpty [MessageKey n; in_MessageID i; _]).
  set (threadKey := firstNonEmpty [ThreadKey n; _; sessionID]). read_fields.
  split; [done|]. split; [intros key Hk; by apply retried_metadata|]. split; [|split].
  - unfold memoryQueryScopes, buildMemoryQuery.
    cbn [ti_SessionID ti_DeviceID ti_ClientType ti_Metadata mq_SessionID mq_DeviceID mq_UserID mq_RoomID mq_HouseholdID].
    rewrite !(retried_value (buildTurnMetadata adapterName i n sessionID threadKey messageKey)
                (buildTurnMetadata adapterName (i <|RetryAttempt := k|>) n sessionID threadKey messageKey)); [done|..];
      first [by intros key Hk; apply retried_metadata | by repeat constructor].
  - unfold buildOutboundMessage. by read_fields.
  - unfold buildOutboundMessage. cbn [out_IdempotencyKey ti_TurnID]. rewrite firstNonEmpty_blank, !Forall_cons. split.
    + tauto.
    + intros (H1 & H2 & H3 & H4). assert (messageKey = []) as -> by (subst messageKey; apply firstNonEmpty_blank; by repeat constructor).
      assert (blank []) by reflexivity. tauto.
Qed.

Lemma user_of_channel adapterName i n sessionID threadKey messageKey :
  TrimSpace (in_UserID i) <> [] -> TrimSpace (metadata_get (nm_Metadata n ∪ in_Metadata i) (txt "memory.user_id")) = [] ->
  metadata_get (buildTurnMetadata adapterName i n sessionID threadKey messageKey) (txt "memory.user_id") = in_UserID i.
Proof.
  intros Hu Hm. assert (Eu : (TrimSpace (in_UserID i) == "") = false) by (by apply text_eqb_false).
  unfold buildTurnMetadata, metadata_get. cbv zeta. set (base := nm_Metadata n ∪ in_Metadata i) in *.
  assert (E : forall m, TrimSpace (metadata_get m (txt "memory.user_id")) = [] ->
                   setIfEmpty "memory.user_id" (in_UserID i) m !! txt "memory.user_id" = Some (in_UserID i)).
  { intros m H. unfold setIfEmpty. rewrite Eu, H. apply lookup_insert_eq. }
  destruct (0 <? RetryAttempt i); rewrite !(setIfEmpty_other _ _ _ (txt "memory.user_id")) by (vm_compute; discriminate);
    (rewrite E; [done|]); unfold metadata_get; by rewrite setIfEmpty_other.
Qed.

(** What a user said in one thread is remembered in the next.  A user whom neither
    the message nor its adapter names in its metadata is the user of the channel: a
    turn of that user is saved under the user's scope, and every turn asks it,
    whatever session the thread is. *)
Theorem channel_user_is_remembered adapterName i n said answer :
  TrimSpace (in_UserID i) <> [] -> TrimSpace (metadata_get (nm_Metadata n ∪ in_Metadata i) (txt "memory.user_id")) = [] ->
  let t := buildTurnInput adapterName i n in
  (txt "user:" ++ TrimSpace (in_UserID i)) ∈ query_keys (buildMemoryQuery t said (ti_Metadata t)) /\
  (txt "user:" ++ TrimSpace (in_UserID i)) ∈ record_keys (buildMemoryRecord t said answer (ti_Metadata t)).
Proof.
  intros Hu Hm. assert (Eu : (TrimSpace (in_UserID i) == "") = false) by (by apply text_eqb_false).
  cbv zeta. unfold buildTurnInput. cbv zeta. set (sessionID := firstNonEmpty _). set (messageKey := firstNonEmpty _).
  set (threadKey := firstNonEmpty [ThreadKey n; _; _]). pose proof (user_of_channel adapterName i n sessionID threadKey messageKey Hu Hm) as E.
  assert (V : memoryMetadataValue (buildTurnMetadata adapterName i n sessionID threadKey messageKey) user_keys = TrimSpace (in_UserID i)).
  { unfold user_keys, texts. cbn [map memoryMetadataValue]. rewrite E. by rewrite Eu. }
  assert (K : forall s d r h, (txt "user:" ++ TrimSpace (in_UserID i)) ∈ map Scope_Key (raw_scopes s d (TrimSpace (in_UserID i)) r h)).
  { intros s d r h. unfold raw_scopes. rewrite !map_app, !opt_scope_keys, TrimSpace_idemp, Eu.
    rewrite !elem_of_app. right. left. apply list_elem_of_singleton. done. }
  unfold query_keys, memoryQueryScopes, record_keys, memoryRecordScopes. rewrite !memoryScopes_raw.
  unfold buildMemoryQuery, buildMemoryRecord.
  cbn [ti_Metadata mq_SessionID mq_DeviceID mq_UserID mq_RoomID mq_HouseholdID mr_SessionID mr_DeviceID mr_UserID mr_RoomID mr_HouseholdID].
  rewrite V. by split; apply K.
Qed.

(** ** A message *)

Definition demo_message : InboundMessage := mkInbound "feishu" "m1" "u1" "th1" "what time is it" "" 0 "" [mkAttachment "a.png" "u" " Image/png "] ∅.

Definition demo_adapter : Adapter nat :=
  mkAdapter nat " feishu " (fun i w => (S w, Ok (mkNormalized "" "th1" "" (in_Text i) [] ∅)))
    (fun o w => (S w, if (w <? 10)%nat then None else Some (txt "no network"))).

Definition demo_channel_executor (t : TurnInput) (w : nat) : nat * result text TurnOutput :=
  (S w, if ti_SessionID t == txt "th1" then Ok (mkTurnOutput "noon" [] false "" "") else Err (txt "who?")).

Lemma channel_message_is_settled_witness :
  TrimSpace (Name demo_adapter) <> [] /\
  exists w' calls status h error,
    HandleInbound (watched demo_adapter demo_channel_executor) demo_message (9%nat, []) = ((w', calls ++ [Reported status]), (h, error)) /\
    verdict calls = Some (ds_State status, ds_FailureStage status, ds_Error status, error) /\
    ds_State status = DeliveryStateFailed /\ ds_FailureStage status = txt "deliver" /\ ds_Error status = txt "no network".
Proof.
  assert (Hn : TrimSpace (Name demo_adapter) <> []) by (by vm_compute). split; [exact Hn|].
  destruct (channel_message_is_settled demo_adapter demo_channel_executor demo_message 9%nat [] Hn)
    as (w' & calls & status & h & error & E & _ & V & _).
  exists w', calls, status, h, error. split; [exact E|]. split; [exact V|].
  assert (L := f_equal (fun p => last p.1.2) E). cbn beta in L. cbn [fst snd] in L. apply (fun e => eq_trans e (last_snoc (Reported status) calls)) in L.
  vm_compute in L. injection L as <-. done.
Defined.
