(* ===== verification/SpeechWire.v ===== *)
(** * What speech services send (internal/voice)

    The codings their clients share: base64, the values JSON is decoded into,
    server-sent events and messages of a WebSocket.  The decoding of JSON itself is
    a parameter. *)

From stdpp Require Import sorting.
From S2P Require Import Prelude GoText GoOrder GoJSON GoFloat Rollout Audio.

(** ** Base64 ([base64.StdEncoding]) *)

Definition base64_char (n : Z) : rune :=
  if n <? 26 then 65 + n else if n <? 52 then 71 + n else if n <? 62 then n - 4 else if n =? 62 then 43 else 47.

Definition base64_value (c : rune) : option Z :=
  if (65 <=? c) && (c <=? 90) then Some (c - 65)
  else if (97 <=? c) && (c <=? 122) then Some (c - 71)
  else if (48 <=? c) && (c <=? 57) then Some (c + 4)
  else if c =? 43 then Some 62
  else if c =? 47 then Some 63
  else None.

Definition base64_pad : rune := 61.

Fixpoint base64 (bs : bytes) : text :=
  match bs with
  | [] => []
  | [a] => let n := byte_val a * 16 in [base64_char (n / 64); base64_char (n mod 64); base64_pad; base64_pad]
  | [a; b] => let n := (byte_val a * 256 + byte_val b) * 4 in
              [base64_char (n / 4096); base64_char (n / 64 mod 64); base64_char (n mod 64); base64_pad]
  | a :: b :: c :: rest =>
      let n := (byte_val a * 256 + byte_val b) * 256 + byte_val c in
      [base64_char (n / 262144); base64_char (n / 4096 mod 64); base64_char (n / 64 mod 64); base64_char (n mod 64)] ++ base64 rest
  end.

Example base64_examples : map base64 [ascii_bytes "M"; ascii_bytes "Ma"; ascii_bytes "Man!"] = texts ["TQ=="; "TWE="; "TWFuIQ=="].
Proof. vm_compute. reflexivity. Qed.

(** The runes of a text with the byte each begins at. *)
Fixpoint placed (at_ : Z) (s : text) : list (Z * rune) :=
  match s with [] => [] | r :: s => (at_, r) :: placed (at_ + rune_len r) s end.

(** Groups of four, or the place of the first rune that is wrong; [total] is the
    length of the text. *)
Fixpoint base64_groups (total : Z) (s : list (Z * rune)) : result Z bytes :=
  match s with
  | [] => Ok []
  | (p1, c1) :: s =>
  match base64_value c1 with None => Err p1 | Some v1 =>
  match s with [] => Err (total - 1) | (p2, c2) :: s =>
  match base64_value c2 with None => Err p2 | Some v2 =>
  let n2 := v1 * 64 + v2 in
  match s with [] => Err (total - 2) | (p3, c3) :: s =>
  if c3 =? base64_pad then
    match s with
    | [] => Err total
    | (p4, c4) :: s =>
        if negb (c4 =? base64_pad) then Err (p4 - 1)
        else match s with [] => Ok [byte_of (n2 / 16)] | (p, _) :: _ => Err p end
    end
  else
  match base64_value c3 with None => Err p3 | Some v3 =>
  let n3 := n2 * 64 + v3 in
  match s with [] => Err (total - 3) | (p4, c4) :: s =>
  if c4 =? base64_pad then
    match s with [] => Ok [byte_of (n3 / 1024); byte_of (n3 / 4)] | (p, _) :: _ => Err p end
  else
  match base64_value c4 with None => Err p4 | Some v4 =>
  let n4 := n3 * 64 + v4 in
  match base64_groups total s with
  | Err p => Err p
  | Ok rest => Ok (byte_of (n4 / 65536) :: byte_of (n4 / 256) :: byte_of n4 :: rest)
  end end end end end end end end
  end.

Definition DecodeString (s : text) : result text bytes :=
  match base64_groups (utf8_len s) (List.filter (fun pr => negb ((pr.2 =? 10) || (pr.2 =? 13))) (placed 0 s)) with
  | Ok bs => Ok bs
  | Err p => Err (txt "illegal base64 data at input byte " ++ Itoa p)
  end.

Example DecodeString_examples :
  map DecodeString (texts ["TWE="; "TQ=="; "T Q="; "TWE"; "TQ=A"; "TQ==TQ=="]) =
  [Ok (ascii_bytes "Ma"); Ok (ascii_bytes "M"); Err (txt "illegal base64 data at input byte 1"); Err (txt "illegal base64 data at input byte 0");
   Err (txt "illegal base64 data at input byte 2"); Err (txt "illegal base64 data at input byte 4")].
Proof. vm_compute. reflexivity. Qed.

(** ** Decoded JSON ([any]) *)

(** The numbers of a decoded text are float64. *)
Inductive any :=
| ANil
| ABool (b : bool)
| ANumber (x : float64)
| AString (s : text)
| AList (items : list any)
| AMap (entries : list (text * any)).

(** [m[key]], which is nil when there is no such key. *)
Definition entry (key : text) (m : list (text * any)) : option any := snd <$> find (fun e => e.1 == key) m.
Definition field (key : text) (m : list (text * any)) : any := default ANil (entry key m).

Definition asMap (value : any) : list (text * any) := match value with AMap m => m | _ => [] end.
Definition asString (value : any) : text := match value with AString s => s | _ => [] end.
Definition asList (value : any) : list any := match value with AList l => l | _ => [] end.
Definition asInt (value : any) : option Z := match value with ANumber x => Some (f_trunc_int x) | _ => None end.

(** A decoder into a map and one into anything. *)
Class JSONDecoder := {
  decode_map : text -> result text (list (text * any));
  decode_any : text -> result text any
}.

(** ** Streams of lines ([bufio.Reader]) *)

(** The lines not read yet, without their newlines; what follows the last one; and
    how reading ends. *)
Record line_reader := mkLines { lr_lines : list text; lr_tail : text; lr_end : stream_error }.

(** The lines of a body. *)
Fixpoint body_lines (s : text) : list text * text :=
  match s with
  | [] => ([], [])
  | r :: s =>
      let '(ls, tail) := body_lines s in
      if r =? 10 then ([] :: ls, tail)
      else match ls with [] => ([], r :: tail) | l :: ls => ((r :: l) :: ls, tail) end
  end.

Definition NewReader (body : text) (ending : stream_error) : line_reader :=
  let '(ls, tail) := body_lines body in mkLines ls tail ending.

(** What a line adds to the data of an event. *)
Definition data_line (trimmed : text) : list text :=
  if HasPrefix trimmed "data:" then [TrimLeftFunc (ContainsRune " ") (TrimPrefix trimmed "data:")] else [].

Definition line_end : text := [13; 10].

Fixpoint read_event (ls : list text) (tail : text) (ending : stream_error) (dataLines : list text) : line_reader * result stream_error text :=
  match ls with
  | [] =>
      let dataLines := dataLines ++ data_line (TrimRight tail line_end) in
      (mkLines [] [] ending,
       match ending, dataLines with EOF, _ :: _ => Ok (Join dataLines [10]) | _, _ => Err ending end)
  | l :: ls =>
      let trimmed := TrimRight l line_end in
      if trimmed == "" then
        match dataLines with
        | [] => read_event ls tail ending dataLines
        | _ => (mkLines ls tail ending, Ok (Join dataLines [10]))
        end
      else if HasPrefix trimmed ":" then read_event ls tail ending dataLines
      else read_event ls tail ending (dataLines ++ data_line trimmed)
  end.

Definition readSSEEvent (r : line_reader) : line_reader * result stream_error text := read_event (lr_lines r) (lr_tail r) (lr_end r) [].

(** Lines and a tail that can still be read. *)
Definition unread (r : line_reader) : nat := length (lr_lines r) + (if lr_tail r == "" then 0 else 1).

(** ** Messages ([websocket.Conn]) *)

Inductive ws_frame := TextFrame (s : text) | BinaryFrame (bs : bytes).

(** A service behind a WebSocket, and the one connection to it: a frame is written
    or not, and a message has a type and a payload.  The read deadline the clients
    set ends the messages to come. *)
Class SocketService (W : Type) := {
  ws_dial : text -> W -> W * option text;
  ws_write : ws_frame -> W -> W * option text;
  ws_read : W -> W * result text (Z * text);
  ws_to_come : W -> nat;
  ws_read_takes w w' m : ws_read w = (w', Ok m) -> (ws_to_come w' < ws_to_come w)%nat
}.

Definition TextMessage : Z := 1.
Definition BinaryMessage : Z := 2.

(** [WriteJSON] ends its text with a newline. *)
Definition WriteJSON {W} `{!SocketService W} (v : json) (w : W) : W * option text := ws_write (TextFrame (Marshal v ++ [10])) w.

Definition readJSONWebsocketMessage {W} `{!SocketService W} {J : JSONDecoder} (conn : W) : W * result text (list (text * any)) :=
  match ws_read conn with
  | (conn, Err e) => (conn, Err e)
  | (conn, Ok (messageType, payload)) =>
      (conn,
       if negb (messageType =? TextMessage) && negb (messageType =? BinaryMessage)
       then Err (txt "unsupported websocket message type " ++ Itoa messageType)
       else decode_map payload)
  end.

(** ** Queries ([net/url]) and signatures *)

Definition query_plain (b : Z) : bool :=
  ((97 <=? b) && (b <=? 122)) || ((65 <=? b) && (b <=? 90)) || ((48 <=? b) && (b <=? 57)) || existsb (Z.eqb b) [45; 95; 46; 126].

Definition upper_hex (n : Z) : rune := if n <? 10 then 48 + n else 55 + n.

Definition QueryEscape (s : text) : text :=
  concat (map (fun b => if query_plain b then [b] else if b =? 32 then [43] else [37; upper_hex (b / 16); upper_hex (b mod 16)]) (string_to_bytes s)).

Definition query_pairs (pairs : list (text * text)) : text := Join (map (fun '(k, v) => QueryEscape k ++ txt "=" ++ QueryEscape v) pairs) (txt "&").

(** [url.Values.Encode], for one value to a key. *)
Definition Values_Encode (values : list (text * text)) : text := query_pairs (merge_sort key_le values).

Example QueryEscape_example : QueryEscape "a b/中=~" = txt "a+b%2F%E4%B8%AD%3D~".
Proof. vm_compute. reflexivity. Qed.

(** The bytes of a string. *)
Definition text_bytes (s : text) : bytes := map byte_of (string_to_bytes s).

(** The keyed hashes, and [url.URL.String] of a scheme, a host, a path and a query. *)
Class SigningKit := {
  hmac_sha1 : text -> text -> bytes;
  hmac_sha256 : text -> text -> bytes;
  URL_String : text -> text -> text -> text -> text
}.

(** The host of a URL, with the port when it is not the scheme's own. *)
Definition host_with_port (scheme host : text) (port : Z) : text :=
  if ((scheme == "ws") && negb (port =? 80)) || ((scheme == "wss") && negb (port =? 443)) then host ++ txt ":" ++ Itoa port else host.

(** ** Laws *)

Lemma base64_char_value n : 0 <= n < 64 -> base64_value (base64_char n) = Some n /\ (base64_char n =? base64_pad) = false /\
  (base64_char n =? 10) = false /\ (base64_char n =? 13) = false.
Proof.
  intros Hn. unfold base64_char, base64_value, base64_pad.
  repeat match goal with |- context [if ?a <? ?b then _ else _] => destruct (Z.ltb_spec a b) end;
    [| | |destruct (Z.eqb_spec n 62); [subst n; by vm_compute|assert (n = 63) as -> by lia; by vm_compute]];
    repeat split; try lia;
    repeat match goal with
    | |- context [(?a <=? ?b) && (?c <=? ?d)] => first [rewrite (proj2 (andb_true_iff (a <=? b) (c <=? d))) by lia | rewrite (proj2 (andb_false_iff (a <=? b) (c <=? d))) by lia]; cbn [negb]
    end; f_equal; lia.
Qed.

Lemma byte_of_byte_val b : byte_of (byte_val b) = b.
Proof. by destruct b. Qed.

Lemma byte_of_eq z b : z mod 256 = byte_val b -> byte_of z = b.
Proof. intros H. rewrite <- (byte_of_byte_val b), <- H. unfold byte_of. by rewrite Zmod_mod. Qed.

Definition code_runes (s : list (Z * rune)) : Prop := Forall (fun pr => (pr.2 =? 10) || (pr.2 =? 13) = false) s.

(** Three bytes at a time. *)
Lemma bytes_ind3 (P : bytes -> Prop) : P [] -> (forall a, P [a]) -> (forall a b, P [a; b]) -> (forall a b c rest, P rest -> P (a :: b :: c :: rest)) -> forall bs, P bs.
Proof.
  intros H0 H1 H2 H3. assert (H : forall n bs, (length bs <= n)%nat -> P bs).
  { induction n as [|n IH]; intros [|a [|b [|c rest]]] Hn; cbn [length] in Hn; try done; [lia..|]. apply H3, IH. lia. }
  intros bs. by apply (H (length bs)).
Qed.

Lemma sextets n : 0 <= n < 2 ^ 24 ->
  0 <= n / 262144 < 64 /\ 0 <= n / 4096 mod 64 < 64 /\ 0 <= n / 64 mod 64 < 64 /\ 0 <= n mod 64 < 64 /\
  ((n / 262144 * 64 + n / 4096 mod 64) * 64 + n / 64 mod 64) * 64 + n mod 64 = n.
Proof. intros Hn. repeat split; try (apply Z.mod_pos_bound; lia); try (apply Z.div_pos; lia); [apply Z.div_lt_upper_bound; lia|]. Z.div_mod_to_equations. lia. Qed.

(** Reads a coded rune. *)
Ltac code_char := match goal with |- context [base64_value (base64_char ?n)] =>
  let H := fresh in let H' := fresh in destruct (base64_char_value n) as (H & H' & _); [|rewrite H; try rewrite H'; cbn [negb]; clear H H'] end.


Lemma base64_groups_encode total bs at_ : base64_groups total (placed at_ (base64 bs)) = Ok bs.
Proof.
  revert at_. induction bs as [|a|a b|a b c rest IH] using bytes_ind3; intros at_; [done| | |].
  - cbn [base64 placed base64_groups]. pose proof (byte_val_range a). repeat (code_char; [Z.div_mod_to_equations; lia|]).
    cbn [Z.eqb base64_pad Pos.eqb negb]. do 2 f_equal. apply byte_of_eq. Z.div_mod_to_equations. lia.
  - cbn [base64 placed base64_groups]. pose proof (byte_val_range a). pose proof (byte_val_range b).
    repeat (code_char; [Z.div_mod_to_equations; lia|]).
    cbn [Z.eqb base64_pad Pos.eqb negb]. repeat f_equal; apply byte_of_eq; Z.div_mod_to_equations; lia.
  - cbn [base64 app placed base64_groups]. pose proof (byte_val_range a). pose proof (byte_val_range b). pose proof (byte_val_range c).
    set (n := (byte_val a * 256 + byte_val b) * 256 + byte_val c).
    destruct (sextets n) as (S1 & S2 & S3 & S4 & E); [lia|]. repeat (code_char; [lia|]). rewrite IH, E.
    repeat f_equal; apply byte_of_eq; subst n; Z.div_mod_to_equations; lia.
Qed.

Lemma base64_code bs at_ : code_runes (placed at_ (base64 bs)).
Proof.
  unfold code_runes. revert at_.
  assert (H : forall n, 0 <= n < 64 -> (base64_char n =? 10) || (base64_char n =? 13) = false) by (intros n Hn; by destruct (base64_char_value n Hn) as (_ & _ & -> & ->)).
  induction bs as [|a|a b|a b c rest IH] using bytes_ind3; intros at_; cbn [base64 app placed]; [done|..];
    repeat match goal with b : byte |- _ => lazymatch goal with Hb : 0 <= byte_val b < 256 |- _ => fail | _ => pose proof (byte_val_range b) end end;
    repeat (apply Forall_cons; split; [first [done|apply H; Z.div_mod_to_equations; lia]|]); done || apply IH.
Qed.

(** What is encoded is decoded again. *)
Lemma DecodeString_base64 bs : DecodeString (base64 bs) = Ok bs.
Proof.
  unfold DecodeString. replace (List.filter _ _) with (placed 0 (base64 bs)).
  - by rewrite base64_groups_encode.
  - pose proof (base64_code bs 0) as H. induction H as [|pr s Hp _ IH]; [done|]. cbn [List.filter]. rewrite Hp. cbn [negb]. by rewrite <- IH.
Qed.

(** ** Events *)

(** Data that fits one line and keeps its beginning and its end. *)
Definition one_line (data : text) : Prop :=
  Forall (fun r => r <> 10) data /\ TrimRight data line_end = data /\ TrimLeftFunc (ContainsRune " ") data = data.

Definition sse_event (data : text) : text := txt "data: " ++ data ++ [10; 10].

Lemma body_lines_line l s : Forall (fun r => r <> 10) l -> body_lines (l ++ 10 :: s) = (l :: (body_lines s).1, (body_lines s).2).
Proof.
  induction 1 as [|r l Hr _ IH]; cbn [app body_lines].
  - destruct (body_lines s). by rewrite Z.eqb_refl.
  - rewrite IH. by rewrite (proj2 (Z.eqb_neq r 10)).
Qed.

Lemma TrimRight_app s1 s2 cut : TrimRight s2 cut <> [] -> TrimRight (s1 ++ s2) cut = s1 ++ TrimRight s2 cut.
Proof.
  unfold TrimRight, TrimRightFunc. rewrite reverse_app. generalize (reverse s2). intros l Hl.
  induction l as [|r l IH]; [done|]. cbn [app TrimLeftFunc] in *. destruct (ContainsRune cut r); [by apply IH|].
  change (r :: l ++ reverse s1) with ((r :: l) ++ reverse s1). by rewrite reverse_app, reverse_involutive.
Qed.

(** An event at the head of a body is the one that is read. *)
Lemma read_head_event data rest ending : one_line data -> readSSEEvent (NewReader (sse_event data ++ rest) ending) = (NewReader rest ending, Ok data).
Proof.
  intros (H1 & H2 & H3). unfold sse_event, readSSEEvent, NewReader.
  replace ((txt "data: " ++ data ++ [10; 10]) ++ rest) with ((txt "data: " ++ data) ++ 10 :: [] ++ 10 :: rest) by by rewrite <- !app_assoc.
  rewrite body_lines_line by (apply Forall_app; split; [by repeat constructor|done]). rewrite body_lines_line by constructor.
  destruct (body_lines rest) as [ls tail]. cbn [lr_lines lr_tail lr_end fst snd].
  assert (Ht : exists c t, TrimRight (txt "data: " ++ data) line_end = c :: t /\ data_line (TrimRight (txt "data: " ++ data) line_end) = [data] /\ HasPrefix (c :: t) ":" = false).
  { assert (Hd : TrimRight (txt "data: " ++ data) line_end = txt "data: " ++ data).
    { destruct data as [|r data]; [by vm_compute|]. rewrite TrimRight_app; rewrite H2; done. }
    rewrite Hd. exists 100, (txt "ata: " ++ data). split; [done|]. split; [|done].
    unfold data_line. change (HasPrefix (txt "data: " ++ data) "data:") with true. cbn [negb].
    change (TrimPrefix (txt "data: " ++ data) "data:") with ([32] ++ data). cbn [app TrimLeftFunc]. change (ContainsRune " " 32) with true. cbn iota. by rewrite H3. }
  destruct Ht as (c & t & E & Ed & Ep). cbn [read_event]. rewrite Ed, E. change ((c :: t) == "") with false. rewrite Ep. cbn [app read_event].
  change (TrimRight [] line_end == "") with true. cbn iota. done.
Qed.

Lemma read_end ending : readSSEEvent (NewReader [] ending) = (NewReader [] ending, Err ending).
Proof. by destruct ending. Qed.

(** A coded piece fits a line and is not blank. *)
Lemma base64_runes bs : Forall (fun r => 43 <= r <= 122) (base64 bs).
Proof.
  assert (H : forall n, 43 <= base64_char n <= 122 \/ ~ 0 <= n < 64).
  { intros n. unfold base64_char. repeat match goal with |- context [if ?b then _ else _] => destruct b eqn:? end; lia. }
  assert (H' : forall n, 0 <= n < 64 -> 43 <= base64_char n <= 122) by (intros n Hn; destruct (H n); [done|lia]).
  induction bs as [|a|a b|a b c rest IH] using bytes_ind3; cbn [base64 app]; [done|..];
    repeat match goal with b : byte |- _ => lazymatch goal with Hb : 0 <= byte_val b < 256 |- _ => fail | _ => pose proof (byte_val_range b) end end;
    repeat (apply Forall_cons; split; [first [unfold base64_pad; lia|apply H'; Z.div_mod_to_equations; lia]|]); done || apply IH.
Qed.

(** A text whose runes are all visible is not trimmed. *)
Lemma base64_trimmed bs : TrimSpace (base64 bs) = base64 bs.
Proof.
  assert (H : Forall (fun r => IsSpace r = false) (base64 bs)).
  { eapply Forall_impl; [apply base64_runes|]. intros r Hr. apply not_true_is_false. unfold IsSpace.
    cbn in Hr. rewrite !orb_true_iff, !andb_true_iff, !Z.eqb_eq, !Z.leb_le. lia. }
  assert (Hl : forall s, Forall (fun r => IsSpace r = false) s -> TrimLeftFunc IsSpace s = s) by (intros s []; [done|cbn [TrimLeftFunc]; by rewrite H0]).
  unfold TrimSpace, TrimFunc, TrimRightFunc. rewrite (Hl (base64 bs)) by done. rewrite Hl by by apply Forall_reverse. apply reverse_involutive.
Qed.

Lemma base64_nil bs : base64 bs = [] -> bs = [].
Proof. by destruct bs as [|a [|b [|c rest]]]. Qed.

Lemma read_event_takes tail e r' data ls dataLines : read_event ls tail e dataLines = (r', Ok data) ->
  (unread r' < unread (mkLines ls tail e))%nat \/ dataLines <> [] /\ (unread r' <= unread (mkLines ls tail e))%nat.
Proof.
  unfold unread. cbn [lr_lines lr_tail]. revert dataLines. induction ls as [|l ls IH]; intros dataLines E; cbn [read_event] in E.
  - injection E as <- E. cbn [lr_lines lr_tail length]. change ([] == "") with true. cbn iota.
    destruct (tail == "") eqn:Et; [|left; lia]. apply text_eqb_true in Et as ->. right. split; [|lia].
    intros ->. change (data_line (TrimRight [] line_end)) with (@nil text) in E. by destruct e.
  - left. cbn [length]. destruct (TrimRight l line_end == "").
    + destruct dataLines as [|d ds]; [|injection E as <- _; cbn [lr_lines lr_tail]; lia].
      destruct (IH [] E) as [H|[H _]]; [lia|done].
    + destruct (HasPrefix _ _); [destruct (IH _ E) as [H|[_ H]]|destruct (IH _ E) as [H|[_ H]]]; lia.
Qed.

(** An event takes something from the reader. *)
Lemma event_takes r r' data : readSSEEvent r = (r', Ok data) -> (unread r' < unread r)%nat.
Proof. destruct r as [ls tail e]. intros E. by destruct (read_event_takes _ _ _ _ _ _ E) as [H|[H _]]. Qed.

(** So does a message. *)
Lemma message_takes {W} `{!SocketService W} {J : JSONDecoder} (w w' : W) m : readJSONWebsocketMessage w = (w', Ok m) -> (ws_to_come w' < ws_to_come w)%nat.
Proof.
  unfold readJSONWebsocketMessage. destruct (ws_read w) as [w1 [[ty payload]|e]] eqn:E; [|done]. apply ws_read_takes in E. by intros [= <- _].
Qed.
