(* ===== verification/FrameReader.v ===== *)
(** * Frames over pieces of audio (internal/voice/volcengine_tts.go,
      iflytek_tts.go, mimo_tts.go)

    The streams of the speech services have one loop: pieces are taken from the
    wire until a frame is full, and frames are cut off it.  What one turn of the
    loop takes is an interface ([AudioSource]), which each service's stream
    implements; what the frames say is proved here once. *)

From S2P Require Import Prelude GoText Audio.

(** ** Streams of frames over pieces *)

(** One turn of the loop of [Next]: the source takes something from the wire. *)
Inductive pull_end := GoesOn | Over | Broken (e : stream_error).

(** What a stream promises its reader: at every turn something is taken from the
    wire, which has an end; and a frame is cut off as [nextPCMChunk] does. *)
Class AudioSource (S : Type) := {
  pull : S -> S * bytes * pull_end;
  on_the_wire : S -> nat;
  cut_frame : bytes -> Z -> bytes * bytes;
  pull_takes s s' bs : pull s = (s', bs, GoesOn) -> (on_the_wire s' < on_the_wire s)%nat;
  cut_as_next pending frameBytes : 0 < frameBytes -> cut_frame pending frameBytes = nextPCMChunk pending frameBytes
}.

Record frame_reader (S : Type) := mkReader { rd_source : S; rd_pending : bytes; rd_done : bool }.
#[global] Arguments mkReader {S}.
#[global] Arguments rd_source {S}.
#[global] Arguments rd_pending {S}.
#[global] Arguments rd_done {S}.

Section Frames.

Context {S : Type} `{!AudioSource S} (frameBytes : Z).

(** Fills the pending audio; [fuel] counts the turns. *)
Fixpoint refill (fuel : nat) (r : frame_reader S) : frame_reader S * option stream_error :=
  if negb ((len (rd_pending r) <? frameBytes) && negb (rd_done r)) then (r, None)
  else match fuel with
       | O => (r, None)
       | Datatypes.S fuel =>
           let '(s, bs, e) := pull (rd_source r) in
           match e with
           | Broken e => (mkReader s (rd_pending r ++ bs) (rd_done r), Some e)
           | GoesOn => refill fuel (mkReader s (rd_pending r ++ bs) (rd_done r))
           | Over => refill fuel (mkReader s (rd_pending r ++ bs) true)
           end
       end.

Definition frame_Next (r : frame_reader S) : frame_reader S * result stream_error bytes :=
  match refill (2 + on_the_wire (rd_source r)) r with
  | (r, Some e) => (r, Err e)
  | (r, None) =>
      if (len (rd_pending r) =? 0) && rd_done r then (r, Err EOF)
      else let '(chunk, pending) := cut_frame (rd_pending r) frameBytes in (mkReader (rd_source r) pending (rd_done r), Ok chunk)
  end.

Definition CloseFrames (r : frame_reader S) : frame_reader S := mkReader (rd_source r) (rd_pending r) true.

(** All that [n] calls of [frame_Next] answer, if the stream ends with them. *)
Fixpoint read_frames (n : nat) (r : frame_reader S) : option AudioStream :=
  match n with
  | O => None
  | Datatypes.S n =>
      match frame_Next r with
      | (_, Err e) => Some (mkStream [] e)
      | (r, Ok chunk) => option_map (fun s => mkStream (chunk :: chunks s) (ending s)) (read_frames n r)
      end
  end.

(** The audio a source has to give, and the error that breaks it off, if one does. *)
Fixpoint drain (fuel : nat) (s : S) : bytes * option stream_error :=
  match fuel with
  | O => ([], None)
  | Datatypes.S fuel =>
      let '(s, bs, e) := pull s in
      match e with
      | GoesOn => let '(rest, e) := drain fuel s in (bs ++ rest, e)
      | Over => (bs, None)
      | Broken e => (bs, Some e)
      end
  end.

Definition source_audio (s : S) : bytes * option stream_error := drain (1 + on_the_wire s) s.

Definition reader_audio (r : frame_reader S) : bytes * option stream_error :=
  if rd_done r then (rd_pending r, None)
  else let '(bs, e) := source_audio (rd_source r) in (rd_pending r ++ bs, e).

(** The frames of a reader. *)
Definition frames_of (r : frame_reader S) : option AudioStream := read_frames (1 + length (reader_audio r).1) r.

End Frames.

(** ** The law of the frames *)

Section FrameLaws.

Context {S : Type} `{!AudioSource S} (frameBytes : Z).

Lemma drain_enough n m (s : S) : (on_the_wire s < n)%nat -> (on_the_wire s < m)%nat -> drain n s = drain m s.
Proof.
  revert m s. induction n as [|n IH]; intros [|m] s Hn Hm; [lia..|]. cbn [drain].
  destruct (pull s) as [[s' bs] e] eqn:E. destruct e; [|done..]. pose proof (pull_takes _ _ _ E). by rewrite (IH m) by lia.
Qed.

Lemma source_audio_pull (s : S) : source_audio s =
  let '(s', bs, e) := pull s in
  match e with
  | GoesOn => let '(rest, e) := source_audio s' in (bs ++ rest, e)
  | Over => (bs, None)
  | Broken e => (bs, Some e)
  end.
Proof.
  unfold source_audio at 1. cbn [Nat.add drain]. destruct (pull s) as [[s' bs] e] eqn:E. destruct e; [|done..].
  pose proof (pull_takes _ _ _ E). unfold source_audio. by rewrite (drain_enough _ (1 + on_the_wire s')) by lia.
Qed.

(** Filling ends with a full frame, at the end or with the error, and the audio
    that is to come stays what it was. *)
Lemma refill_fills fuel (r : frame_reader S) :
  ((if rd_done r then 0 else 1 + on_the_wire (rd_source r)) < fuel)%nat ->
  match refill frameBytes fuel r with
  | (r', None) => reader_audio r' = reader_audio r /\ (frameBytes <= len (rd_pending r') \/ rd_done r' = true)
  | (_, Some e) => (reader_audio r).2 = Some e
  end.
Proof.
  revert r. induction fuel as [|fuel IH]; intros r Hf; [lia|]. cbn [refill].
  destruct (negb _) eqn:E.
  - split; [done|]. apply negb_true_iff, andb_false_iff in E as [E|E]; [left; lia|right; by apply negb_false_iff].
  - apply negb_false_iff, andb_true_iff in E as [_ Hd]. apply negb_true_iff in Hd. rewrite Hd in Hf.
    pose proof (source_audio_pull (rd_source r)) as Ha. destruct (pull (rd_source r)) as [[s' bs] e] eqn:Ep. cbv zeta in Ha.
    destruct e as [| |e].
    + pose proof (pull_takes _ _ _ Ep). specialize (IH (mkReader s' (rd_pending r ++ bs) (rd_done r))).
      cbn [rd_done rd_source rd_pending] in IH. rewrite Hd in *. specialize (IH ltac:(lia)).
      assert (reader_audio (mkReader s' (rd_pending r ++ bs) false) = reader_audio r) as Hr.
      { unfold reader_audio. cbn [rd_done rd_source rd_pending]. rewrite Hd, Ha. destruct (source_audio s'). by rewrite app_assoc. }
      by rewrite Hr in IH.
    + specialize (IH (mkReader s' (rd_pending r ++ bs) true)). cbn [rd_done rd_source rd_pending] in IH. specialize (IH ltac:(lia)).
      assert (reader_audio (mkReader s' (rd_pending r ++ bs) true) = reader_audio r) as Hr.
      { unfold reader_audio. cbn [rd_done rd_source rd_pending]. by rewrite Hd, Ha. }
      by rewrite Hr in IH.
    + unfold reader_audio. by rewrite Hd, Ha.
Qed.

(** One frame: what is left is the audio without it; only the last may be short. *)
Lemma next_frame (r : frame_reader S) : 0 < frameBytes ->
  match frame_Next frameBytes r with
  | (r', Ok chunk) => reader_audio r = (chunk ++ (reader_audio r').1, (reader_audio r').2) /\ chunk <> [] /\
                      (len chunk = frameBytes \/ len chunk < frameBytes /\ reader_audio r' = ([], None))
  | (_, Err e) => e = default EOF (reader_audio r).2 /\ ((reader_audio r).2 = None -> (reader_audio r).1 = [])
  end.
Proof.
  intros Hf. unfold frame_Next. pose proof (refill_fills (2 + on_the_wire (rd_source r)) r ltac:(destruct (rd_done r); lia)) as H.
  destruct (refill _ _ r) as [r' [e|]]; [by rewrite H|]. destruct H as [Ha Hp].
  destruct (_ && _) eqn:E.
  - apply andb_true_iff in E as [E Hd]. rewrite <- Ha. unfold reader_audio. rewrite Hd. cbn [fst snd]. split; [done|].
    intros _. destruct (rd_pending r') as [|b bs]; [done|]. rewrite len_cons in E. pose proof (len_nonneg bs). lia.
  - rewrite cut_as_next by done. unfold nextPCMChunk. rewrite (proj2 (Z.leb_gt frameBytes 0)) by done. rewrite orb_false_r, <- Ha.
    assert (Hne : rd_pending r' <> []).
    { intros Hn. rewrite Hn in E, Hp. destruct Hp as [Hp|Hp]; [change (@len byte []) with 0 in Hp; lia|rewrite Hp in E; by vm_compute in E]. }
    unfold reader_audio. destruct (Z.leb_spec (len (rd_pending r')) frameBytes) as [Hl|Hl]; cbn [rd_done rd_source rd_pending].
    + split; [|split; [done|]].
      * destruct (rd_done r'); [by rewrite app_nil_r|]. by destruct (source_audio _).
      * destruct Hp as [Hp|Hd]; [left; lia|]. rewrite Hd. destruct (decide (len (rd_pending r') = frameBytes)); [by left|right; split; [lia|done]].
    + split; [|split].
      * destruct (rd_done r'); cbn [fst snd]; [by rewrite take_drop|]. destruct (source_audio _). cbn [fst snd]. by rewrite app_assoc, take_drop.
      * intros Hn. apply (f_equal length) in Hn. unfold len in *. rewrite length_take in Hn. cbn in Hn. lia.
      * left. unfold len in *. rewrite length_take. lia.
Qed.

(** Frames of a whole stream: all full but the last; and all full when it breaks. *)
Definition cut_in_frames (cs : list bytes) (broken : bool) : Prop :=
  Forall (fun c => c <> []) cs /\ Forall (fun c => len c = frameBytes) (if broken then cs else removelast cs) /\
  Forall (fun c => len c <= frameBytes) cs.

Lemma read_frames_law n (r : frame_reader S) : 0 < frameBytes -> (length (reader_audio r).1 < n)%nat ->
  exists cs lost, read_frames frameBytes n r = Some (mkStream cs (default EOF (reader_audio r).2)) /\
    (reader_audio r).1 = concat cs ++ lost /\
    cut_in_frames cs (bool_decide ((reader_audio r).2 <> None)) /\ ((reader_audio r).2 = None -> lost = []).
Proof.
  intros Hf. revert r. induction n as [|n IH]; intros r Hn; [lia|]. cbn [read_frames].
  pose proof (next_frame r Hf) as H. destruct (frame_Next frameBytes r) as [r' [chunk|e]].
  - destruct H as (Ha & Hne & Hlen). rewrite Ha in Hn |- *. cbn [fst snd] in *. rewrite length_app in Hn.
    destruct (IH r') as (cs & lost & -> & Hb & (C1 & C2 & C3) & Hl); [destruct chunk; cbn in Hn; [done|lia]|].
    exists (chunk :: cs), lost. split; [done|]. split; [by rewrite Hb; cbn [concat]; rewrite app_assoc|]. split; [|done].
    split; [by constructor|]. split; [|constructor; [destruct Hlen as [->|[? _]]; lia|done]].
    destruct Hlen as [Hlen|[Hlen Hend]].
    + case_bool_decide; [by constructor|]. destruct cs; [done|]. cbn [removelast]. by constructor.
    + rewrite Hend in Hb. cbn [fst] in Hb. symmetry in Hb. apply app_eq_nil in Hb as [Hb _]. rewrite Hend. cbn [snd].
      rewrite bool_decide_eq_false_2 by tauto. destruct cs as [|c cs]; [done|]. apply Forall_cons in C1 as [C1 _]. cbn in Hb. by apply app_eq_nil in Hb as [-> _].
  - destruct H as [-> H]. exists [], (reader_audio r).1. split; [done|]. split; [done|]. split; [|done].
    split; [done|]. split; [|done]. by case_bool_decide.
Qed.

End FrameLaws.
