(* ===== verification/SpeechClient.v ===== *)
(** * A recognizer behind HTTP (internal/voice/http_transcriber.go)

    The client of the speech service: whole recordings are transcribed in one call;
    a stream is started, fed, finished and closed by calls of its own, and what the
    service hears meanwhile is handed to the sink as deltas.  The service, what
    [net/url] makes of an endpoint and the decoding of a reply are parameters. *)

From S2P Require Import Prelude GoText Contracts Audio TurnDetector PreviewPipeline Transcription SpeechWire.

(** ** Requests and replies *)

Record HTTPTranscriber := mkHTTPTranscriber { Endpoint : text; ClientTimeout : duration; Language : text }.

Definition NewHTTPTranscriber (endpoint : text) (timeout : duration) (language : text) : HTTPTranscriber :=
  mkHTTPTranscriber (TrimSpace endpoint) (if timeout <=? 0 then 30 * Second else timeout) (TrimSpace language).

Record httpTranscriptionRequest := mkHTTPTranscription {
  hq_SessionID : text;
  hq_DeviceID : text;
  hq_Codec : text;
  hq_SampleRateHz : Z;
  hq_Channels : Z;
  hq_Language : text;
  hq_AudioBase64 : text;
  hq_Hotwords : list text;
  hq_HintPhrases : list text
}.

Record httpStreamingStartRequest := mkHTTPStart {
  hst_SessionID : text;
  hst_TurnID : text;
  hst_TraceID : text;
  hst_DeviceID : text;
  hst_Codec : text;
  hst_SampleRateHz : Z;
  hst_Channels : Z;
  hst_Language : text;
  hst_Hotwords : list text;
  hst_HintPhrases : list text
}.

Inductive http_payload :=
| BatchPayload (r : httpTranscriptionRequest)
| StartPayload (r : httpStreamingStartRequest)
| PushPayload (streamID audio : text)
| FinishPayload (streamID : text).

Record httpTranscriptionResponse := mkHTTPReply {
  hp_StreamID : text;
  hp_Text : text;
  hp_PreviewText : text;
  hp_Segments : list text;
  hp_DurationMs : Z;
  hp_ElapsedMs : Z;
  hp_Model : text;
  hp_Device : text;
  hp_Language : text;
  hp_Emotion : text;
  hp_SpeakerID : text;
  hp_AudioEvents : list text;
  hp_EndpointReason : text;
  hp_Partials : list text;
  hp_LatestPartial : text;
  hp_PreviewChanged : bool;
  hp_PreviewEndpointReason : text;
  hp_Mode : text;
  hp_Error : text
}.

Definition normalizedHintValues (values : list text) : list text := List.filter (fun s => s != "") (map TrimSpace values).

Definition toResult (defaultMode : text) (r : httpTranscriptionResponse) : TranscriptionResult :=
  let mode := TrimSpace (hp_Mode r) in
  mkTranscription (TrimSpace (hp_Text r)) (hp_Segments r) (hp_DurationMs r) (hp_ElapsedMs r) (hp_Model r) (hp_Device r)
    (TrimSpace (hp_Language r)) (TrimSpace (hp_Emotion r)) (TrimSpace (hp_SpeakerID r)) (hp_AudioEvents r) (TrimSpace (hp_EndpointReason r))
    (hp_Partials r) (if mode == "" then defaultMode else mode).

(** ** The service *)

(** [call] sends a payload to an endpoint: the status and the body of the answer, or
    an error of the network.  [url_path] is the path of an endpoint that parses, and
    [with_path] the endpoint with another path and neither query nor fragment. *)
Class SpeechService (W : Type) := {
  call : text -> http_payload -> W -> W * result text (Z * text);
  unmarshal : text -> result text httpTranscriptionResponse;
  url_path : text -> result text text;
  with_path : text -> text -> text
}.

Record httpStreamingSession := mkHTTPStream {
  hs_streamID : text;
  hs_started : bool;
  hs_closed : bool;
  hs_totalAudioBytes : Z;
  hs_lastPartial : text;
  hs_lastEndpointReason : text
}.

#[export] Instance httpStreamingSession_rebuild : Rebuild httpStreamingSession := fun s =>
  mkHTTPStream (hs_streamID s) (hs_started s) (hs_closed s) (hs_totalAudioBytes s) (hs_lastPartial s) (hs_lastEndpointReason s).

Section Client.

Context {W : Type} `{!SpeechService W} (t : HTTPTranscriber) (sink : TranscriptionDelta -> option text).

Definition postJSON (endpoint : text) (payload : http_payload) (w : W) : W * result text httpTranscriptionResponse :=
  match call endpoint payload w with
  | (w, Err e) => (w, Err e)
  | (w, Ok (status, body)) =>
      (w, if negb (status =? 200) then Err (txt "transcriber returned " ++ Itoa status ++ txt ": " ++ TrimSpace body)
          else match unmarshal body with
               | Err e => Err e
               | Ok r => if TrimSpace (hp_Error r) != "" then Err (hp_Error r) else Ok r
               end)
  end.

Definition no_endpoint : text := "http transcriber endpoint is empty".

Definition streamEndpoint (route : text) : result text text :=
  let endpoint := TrimSpace (Endpoint t) in
  if endpoint == "" then Err no_endpoint
  else match url_path endpoint with
       | Err e => Err (txt "parse transcriber endpoint: " ++ e)
       | Ok parsed =>
           let path := TrimSpace parsed in
           Ok (with_path endpoint
                 (if HasSuffix path "/v1/asr/transcribe" then TrimSuffix path "/v1/asr/transcribe" ++ route
                  else if path == "" then route else TrimRight path "/" ++ route))
       end.

Definition spoken_language (req : TranscriptionRequest) : text := firstNonEmpty [tq_Language req; Language t; txt "auto"].

Definition Transcribe (req : TranscriptionRequest) (w : W) : W * result text TranscriptionResult :=
  if TrimSpace (Endpoint t) == "" then (w, Err no_endpoint)
  else
    let '(w, r) := postJSON (Endpoint t)
      (BatchPayload (mkHTTPTranscription (tq_SessionID req) (tq_DeviceID req) (tq_Codec req) (tq_SampleRateHz req) (tq_Channels req)
         (spoken_language req) (base64 (tq_AudioPCM req)) (normalizedHintValues (tq_Hotwords req)) (normalizedHintValues (tq_HintPhrases req)))) w in
    (w, match r with Ok decoded => Ok (toResult "batch" decoded) | Err e => Err e end).

Definition StartStream (req : TranscriptionRequest) (w : W) : W * result text httpStreamingSession :=
  if TrimSpace (Endpoint t) == "" then (w, Err no_endpoint)
  else match streamEndpoint "/v1/asr/stream/start" with
       | Err e => (w, Err e)
       | Ok url =>
           let '(w, r) := postJSON url
             (StartPayload (mkHTTPStart (tq_SessionID req) (tq_TurnID req) (tq_TraceID req) (tq_DeviceID req) (tq_Codec req) (tq_SampleRateHz req)
                (tq_Channels req) (spoken_language req) (normalizedHintValues (tq_Hotwords req)) (normalizedHintValues (tq_HintPhrases req)))) w in
           (w, match r with
               | Err e => Err e
               | Ok decoded =>
                   let streamID := TrimSpace (hp_StreamID decoded) in
                   if streamID == "" then Err (txt "http streaming transcriber returned empty stream_id")
                   else Ok (mkHTTPStream streamID false false 0 "" "")
               end)
       end.

(** ** A stream *)

(** The session after a call, the deltas handed to the sink, and what it returns. *)
Abbreviation outcome A := (httpStreamingSession * list TranscriptionDelta * A)%type.

Definition preview_of (r : httpTranscriptionResponse) : text :=
  let s := TrimSpace (hp_PreviewText r) in
  let s := if s == "" then TrimSpace (hp_Text r) else s in
  if (s == "") && hp_PreviewChanged r then TrimSpace (hp_LatestPartial r) else s.

(** What a reply to a piece of audio means. *)
Definition hear_reply (r : httpTranscriptionResponse) (bytes : Z) (s : httpStreamingSession) : outcome (option text) :=
  let s := s <|hs_totalAudioBytes := i64 (hs_totalAudioBytes s + bytes)|> in
  let preview := preview_of r in
  let reason := TrimSpace (hp_PreviewEndpointReason r) in
  if (preview != "") && ((preview != hs_lastPartial s) || (reason != hs_lastEndpointReason s)) then
    let delta := mkTranscriptionDelta TranscriptionDeltaKindPartial preview reason (hs_totalAudioBytes s) in
    match sink delta with
    | Some e => (s, [delta], Some e)
    | None => (s <|hs_lastPartial := preview|> <|hs_lastEndpointReason := reason|>, [delta], None)
    end
  else (s, [], None).

(** The start of the speech, told with the first piece. *)
Definition tell_start (chunk : bytes) (s : httpStreamingSession) : outcome (option text) :=
  if hs_started s then (s, [], None)
  else
    let delta := mkTranscriptionDelta TranscriptionDeltaKindSpeechStart "" "" (len chunk) in
    match sink delta with
    | Some e => (s, [delta], Some e)
    | None => (s <|hs_started := true|>, [delta], None)
    end.

Definition HTTP_PushAudio (chunk : bytes) (s : httpStreamingSession) (w : W) : W * outcome (option text) :=
  if hs_closed s then (w, (s, [], Some closed_error))
  else if len chunk =? 0 then (w, (s, [], None))
  else
    match tell_start chunk s with
    | (s, ds, Some e) => (w, (s, ds, Some e))
    | (s, ds, None) =>
        match streamEndpoint "/v1/asr/stream/push" with
        | Err e => (w, (s, ds, Some e))
        | Ok url =>
            match postJSON url (PushPayload (hs_streamID s) (base64 chunk)) w with
            | (w, Err e) => (w, (s, ds, Some e))
            | (w, Ok r) => let '(s, ds', e) := hear_reply r (len chunk) s in (w, (s, ds ++ ds', e))
            end
        end
    end.

Definition http_closed (s : httpStreamingSession) : httpStreamingSession := s <|hs_closed := true|>.

(** The deltas of the end, up to one the sink refuses. *)
Fixpoint hand_over (deltas : list TranscriptionDelta) : list TranscriptionDelta * option text :=
  match deltas with
  | [] => ([], None)
  | d :: ds => match sink d with
               | Some e => ([d], Some e)
               | None => let '(handed, e) := hand_over ds in (d :: handed, e)
               end
  end.

Definition last_deltas (r : TranscriptionResult) (reason : text) (s : httpStreamingSession) : list TranscriptionDelta :=
  (if hs_started s then [mkTranscriptionDelta TranscriptionDeltaKindSpeechEnd "" reason (hs_totalAudioBytes s)] else []) ++
  (if TrimSpace (rec_Text r) != "" then [mkTranscriptionDelta TranscriptionDeltaKindFinal (rec_Text r) (rec_EndpointReason r) (hs_totalAudioBytes s)] else []).

Definition HTTP_Finish (s : httpStreamingSession) (w : W) : W * outcome (result text TranscriptionResult) :=
  if hs_closed s then (w, (s, [], Err closed_error))
  else match streamEndpoint "/v1/asr/stream/finish" with
       | Err e => (w, (s, [], Err e))
       | Ok url =>
           match postJSON url (FinishPayload (hs_streamID s)) w with
           | (w, Err e) => (w, (http_closed s, [], Err e))
           | (w, Ok r) =>
               let result := toResult "stream" r in
               let '(handed, e) := hand_over (last_deltas result (TrimSpace (hp_EndpointReason r)) s) in
               (w, (http_closed s, handed, match e with Some e => Err e | None => Ok result end))
           end
       end.

Definition HTTP_Close (s : httpStreamingSession) (w : W) : W * (httpStreamingSession * option text) :=
  if hs_closed s then (w, (s, None))
  else match streamEndpoint "/v1/asr/stream/close" with
       | Err e => (w, (s, Some e))
       | Ok url =>
           let '(w, r) := postJSON url (FinishPayload (hs_streamID s)) w in
           (w, (http_closed s, match r with Ok _ => None | Err e => Some e end))
       end.

End Client.

(** ** What a sink hears of a stream *)

Inductive stream_op := PushOp (chunk : bytes) | FinishOp | CloseOp.

Section Discipline.

Context {W : Type} `{!SpeechService W} (t : HTTPTranscriber).

(** One call of a stream whose sink takes everything. *)
Definition stream_step (o : stream_op) (s : httpStreamingSession) (w : W) : W * httpStreamingSession * list TranscriptionDelta :=
  match o with
  | PushOp chunk => let '(w, (s, ds, _)) := HTTP_PushAudio t no_sink chunk s w in (w, s, ds)
  | FinishOp => let '(w, (s, ds, _)) := HTTP_Finish t no_sink s w in (w, s, ds)
  | CloseOp => let '(w, (s, _)) := HTTP_Close t s w in (w, s, [])
  end.

Fixpoint stream_run (ops : list stream_op) (s : httpStreamingSession) (w : W) : W * httpStreamingSession * list TranscriptionDelta :=
  match ops with
  | [] => (w, s, [])
  | o :: ops =>
      let '(w, s, ds) := stream_step o s w in
      let '(w, s, ds') := stream_run ops s w in (w, s, ds ++ ds')
  end.

(** Where a stream is for its sink; while the user speaks, with the last partial. *)
Inductive phase := Silent | Hearing (partial reason : text) | SpeechOver | Told.

(** The deltas a phase admits. *)
Definition admits (p : phase) (d : TranscriptionDelta) : option phase :=
  match p, Delta_Kind d with
  | Silent, TranscriptionDeltaKindSpeechStart => Some (Hearing [] [])
  | Hearing partial reason, TranscriptionDeltaKindPartial =>
      if bool_decide (Delta_Text d <> [] /\ trimmed (Delta_Text d) /\ (Delta_Text d, Delta_EndpointReason d) <> (partial, reason))
      then Some (Hearing (Delta_Text d) (Delta_EndpointReason d)) else None
  | Hearing _ _, TranscriptionDeltaKindSpeechEnd => Some SpeechOver
  | (Silent | SpeechOver), TranscriptionDeltaKindFinal => if bool_decide (Delta_Text d <> [] /\ trimmed (Delta_Text d)) then Some Told else None
  | _, _ => None
  end.

Fixpoint admits_all (p : phase) (ds : list TranscriptionDelta) : option phase :=
  match ds with
  | [] => Some p
  | d :: ds => match admits p d with Some p => admits_all p ds | None => None end
  end.

Lemma admits_app p ds ds' : admits_all p (ds ++ ds') = match admits_all p ds with Some p => admits_all p ds' | None => None end.
Proof. revert p. induction ds as [|d ds IH]; intros p; [done|]. cbn [app admits_all]. destruct (admits p d); [apply IH|done]. Qed.

(** A session and the phase its sink is in; a closed one says nothing any more. *)
Definition phase_of (s : httpStreamingSession) (p : phase) : Prop :=
  hs_closed s = true \/
  match p with
  | Silent => hs_started s = false /\ hs_lastPartial s = [] /\ hs_lastEndpointReason s = []
  | Hearing partial reason => hs_started s = true /\ hs_lastPartial s = partial /\ hs_lastEndpointReason s = reason
  | SpeechOver | Told => False
  end.

Definition goes_on (p : phase) (s' : httpStreamingSession) (ds : list TranscriptionDelta) : Prop :=
  exists p', admits_all p ds = Some p' /\ phase_of s' p'.

Lemma preview_trimmed r : trimmed (preview_of r).
Proof. unfold preview_of. cbv zeta. repeat split_if; apply trimmed_TrimSpace. Qed.

Lemma reply_goes_on r bytes partial reason s :
  hs_started s = true -> hs_lastPartial s = partial -> hs_lastEndpointReason s = reason ->
  let '(s', ds, _) := hear_reply no_sink r bytes s in goes_on (Hearing partial reason) s' ds.
Proof.
  intros H1 H2 H3. unfold hear_reply. read_fields. cbv zeta. destruct (_ && _) eqn:E; cbn [no_sink].
  - apply andb_true_iff in E as [E1 E2]. apply negb_true_iff, text_eqb_false in E1. unfold goes_on. cbn [admits_all admits Delta_Kind Delta_Text Delta_EndpointReason].
    rewrite bool_decide_eq_true_2.
    + eexists. split; [reflexivity|]. right. by read_fields.
    + split; [done|]. split; [apply preview_trimmed|]. intros [= E3 E4]. rewrite <- H2, <- H3 in *.
      apply orb_true_iff in E2 as [E2|E2]; apply negb_true_iff, text_eqb_false in E2; congruence.
  - exists (Hearing partial reason). split; [done|]. right. by read_fields.
Qed.

Lemma push_goes_on chunk s p (w : W) :
  phase_of s p -> let '(_, (s', ds, _)) := HTTP_PushAudio t no_sink chunk s w in goes_on p s' ds.
Proof.
  intros Hp. unfold HTTP_PushAudio. destruct (hs_closed s) eqn:Hc; [by exists p|]. destruct (len chunk =? 0); [by exists p|].
  destruct Hp as [Hp|Hp]; [congruence|].
  assert (H : exists s1 ds partial reason, tell_start no_sink chunk s = (s1, ds, None) /\ admits_all p ds = Some (Hearing partial reason) /\
    hs_started s1 = true /\ hs_lastPartial s1 = partial /\ hs_lastEndpointReason s1 = reason).
  { unfold tell_start. destruct p as [|partial reason| |]; [| |done..].
    - destruct Hp as (H1 & H2 & H3). rewrite H1. unfold no_sink. eexists _, _, [], []. split; [reflexivity|]. split; [done|]. by read_fields.
    - destruct Hp as (H1 & H2 & H3). rewrite H1. by exists s, [], partial, reason. }
  destruct H as (s1 & ds & partial & reason & -> & Ha & H1 & H2 & H3).
  assert (H0 : goes_on p s1 ds) by (exists (Hearing partial reason); split; [done|]; by right).
  destruct (streamEndpoint _ _); [|done]. destruct (postJSON _ _ _) as [w1 [r|e]]; [|done].
  pose proof (reply_goes_on r (len chunk) partial reason s1 H1 H2 H3) as H. destruct (hear_reply no_sink r (len chunk) s1) as [[s2 ds'] e].
  destruct H as (p' & E & H). exists p'. by rewrite admits_app, Ha.
Qed.

Lemma all_handed ds : hand_over no_sink ds = (ds, None).
Proof. induction ds as [|d ds IH]; [done|]. cbn [hand_over no_sink]. by rewrite IH. Qed.

Lemma finish_goes_on s p (w : W) :
  phase_of s p -> let '(_, (s', ds, _)) := HTTP_Finish t no_sink s w in goes_on p s' ds.
Proof.
  intros Hp. unfold HTTP_Finish. destruct (hs_closed s) eqn:Hc; [by exists p|]. destruct (streamEndpoint _ _); [|by exists p].
  destruct Hp as [Hp|Hp]; [congruence|]. assert (Hcl : forall p, phase_of (http_closed s) p) by (intros q; left; unfold http_closed; by read_fields).
  destruct (postJSON _ _ _) as [w1 [r|e]]; [|by exists p]. rewrite all_handed. unfold goes_on, last_deltas. set (result := toResult "stream" r).
  assert (Ht : trimmed (rec_Text result)) by apply trimmed_TrimSpace.
  set (final := mkTranscriptionDelta TranscriptionDeltaKindFinal _ _ _).
  assert (Hf : forall q, q = Silent \/ q = SpeechOver -> exists p', admits_all q (if TrimSpace (rec_Text result) != "" then [final] else []) = Some p').
  { intros q Hq. destruct (TrimSpace (rec_Text result) != "") eqn:E; [|by exists q]. apply negb_true_iff, text_eqb_false in E. rewrite Ht in E.
    exists Told. destruct Hq as [->| ->]; cbn [admits_all admits Delta_Kind Delta_Text final]; by rewrite bool_decide_eq_true_2. }
  destruct p as [|partial reason| |]; [| |done..]; destruct Hp as (-> & _).
  - destruct (Hf Silent) as [p' E]; [by left|]. exists p'. by split.
  - destruct (Hf SpeechOver) as [p' E]; [by right|]. exists p'. by split.
Qed.

Lemma step_goes_on o s p (w : W) : phase_of s p -> let '(_, s', ds) := stream_step o s w in goes_on p s' ds.
Proof.
  intros Hp. destruct o as [chunk| |]; cbn [stream_step].
  - pose proof (push_goes_on chunk s p w Hp) as H. by destruct (HTTP_PushAudio t no_sink chunk s w) as [w1 [[s1 ds] e]].
  - pose proof (finish_goes_on s p w Hp) as H. by destruct (HTTP_Finish t no_sink s w) as [w1 [[s1 ds] e]].
  - unfold HTTP_Close. destruct (hs_closed s) eqn:Hc; [by exists p|]. destruct (streamEndpoint _ _); [|by exists p].
    destruct (postJSON _ _ _) as [w1 r]. exists p. split; [done|]. left. unfold http_closed. by read_fields.
Qed.

(** A closed session refuses everything and tells nothing. *)
Lemma closed_is_silent ops s (w : W) : hs_closed s = true -> stream_run ops s w = (w, s, []).
Proof.
  intros Hc. induction ops as [|o ops IH]; [done|]. cbn [stream_run]. assert (stream_step o s w = (w, s, [])) as ->.
  { destruct o; cbn [stream_step]; unfold HTTP_PushAudio, HTTP_Finish, HTTP_Close; by rewrite Hc. }
  by rewrite IH.
Qed.

(** A sink hears a well-formed story.  Whatever the service answers, and in
    whatever order a new stream is pushed to, finished and closed, its deltas are a
    start when the first audio comes, partials that are never blank and each of
    which says something other than the one before, at most one end, and at most
    one final text, after the end or when nothing was heard; and once the stream is
    closed there are no more. *)
Theorem http_stream_is_a_story streamID ops (w : W) :
  let '(w', s', ds) := stream_run ops (mkHTTPStream streamID false false 0 "" "") w in
  (exists p, admits_all Silent ds = Some p) /\
  (hs_closed s' = true -> forall more, stream_run more s' w' = (w', s', [])).
Proof.
  assert (H : forall s p w, phase_of s p -> let '(_, s', ds) := stream_run ops s w in goes_on p s' ds).
  { clear w. induction ops as [|o ops IH]; intros s p w Hp; [by exists p|]. cbn [stream_run].
    pose proof (step_goes_on o s p w Hp) as H1. destruct (stream_step o s w) as [[w1 s1] ds1]. destruct H1 as (p1 & E1 & Hp1).
    specialize (IH s1 p1 w1 Hp1). destruct (stream_run ops s1 w1) as [[w2 s2] ds2]. destruct IH as (p2 & E2 & Hp2).
    exists p2. by rewrite admits_app, E1. }
  specialize (H (mkHTTPStream streamID false false 0 "" "") Silent w). destruct (stream_run ops _ w) as [[w' s'] ds].
  split; [|intros Hc more; by apply closed_is_silent]. destruct H as (p & E & _); [by right|]. by exists p.
Qed.

End Discipline.
