(* ===== verification/PreviewOverHTTP.v ===== *)
(** * A preview over the HTTP recognizer
      (internal/voice/asr_responder.go with http_transcriber.go)

    The stream of SpeechClient.v as what surrounds the preview session of
    PreviewPipeline.v: the deltas its sink is handed are what the detector hears.
    What the preview says is what the service heard last. *)

From S2P Require Import Prelude GoText GoJSON Contracts Lexical Vocabulary Semantic Rollout Memory Audio TurnDetector Orchestrator PreviewPipeline Transcription SpeechWire SpeechClient.

(** ** The surroundings *)

(** What the judge and the slot parser answer. *)
Inductive model_answer :=
| JudgeAnswer (key : text) (answer : option SemanticTurnJudgement)
| SlotAnswer (key : text) (answer : option SemanticSlotParseResult).

Definition as_event (a : model_answer) : outside_event :=
  match a with JudgeAnswer key answer => Judged key answer | SlotAnswer key answer => Parsed key answer end.

(** The clock and the models of a world. *)
Class PreviewWorld (W : Type) := {
  world_now : W -> W * instant;
  world_answers : W -> W * list model_answer
}.

(** [he_said]: what the service heard, reply by reply. *)
Record http_environment (W : Type) := mkHTTPEnvironment { he_stream : httpStreamingSession; he_world : W; he_said : list text }.
#[global] Arguments mkHTTPEnvironment {W}.
#[global] Arguments he_stream {W}.
#[global] Arguments he_world {W}.
#[global] Arguments he_said {W}.

Section Surroundings.

Context {W : Type} `{!SpeechService W} `{!PreviewWorld W} (t : HTTPTranscriber).

(** What the service hears in a piece that it takes. *)
Definition reply_preview (chunk : bytes) (s : httpStreamingSession) (w : W) : option text :=
  if hs_closed s || (len chunk =? 0) then None
  else match streamEndpoint t "/v1/asr/stream/push" with
       | Err _ => None
       | Ok url => match (postJSON url (PushPayload (hs_streamID s) (base64 chunk)) w).2 with Ok r => Some (preview_of r) | Err _ => None end
       end.

(** Each delta is observed at the time of its own. *)
Fixpoint observed (ds : list TranscriptionDelta) (w : W) : W * list outside_event :=
  match ds with
  | [] => (w, [])
  | d :: ds =>
      let '(w, now) := world_now w in
      let '(w, events) := observed ds w in (w, Heard now d :: events)
  end.

#[export] Instance http_surroundings : PreviewEnvironment (http_environment W) := {
  env_arrived e :=
    let '(w, answers) := world_answers (he_world e) in
    (mkHTTPEnvironment (he_stream e) w (he_said e), map as_event answers);
  env_now e := let '(w, now) := world_now (he_world e) in (mkHTTPEnvironment (he_stream e) w (he_said e), now);
  env_push chunk e :=
    let '(w, (s, ds, err)) := HTTP_PushAudio t no_sink chunk (he_stream e) (he_world e) in
    let '(w, events) := observed ds w in
    (mkHTTPEnvironment s w (he_said e ++ option_list (reply_preview chunk (he_stream e) (he_world e))),
     (events, match err with Some e => Err e | None => Ok tt end))
}.

(** ** What the preview says *)

(** The last that was not nothing. *)
Definition last_heard (said : list text) : text := default [] (last (filter (fun s => s <> []) said)).

Definition in_step (l : live_session (http_environment W)) : Prop :=
  let e := environment l in
  latestPartial (detector (session l)) = hs_lastPartial (he_stream e) /\ hs_lastPartial (he_stream e) = last_heard (he_said e).

Lemma last_heard_snoc said s : last_heard (said ++ [s]) = if s == "" then last_heard said else s.
Proof.
  unfold last_heard. rewrite filter_app, filter_cons, filter_nil. destruct (s == "") eqn:E.
  - apply text_eqb_true in E as ->. rewrite decide_False by tauto. by rewrite app_nil_r.
  - apply text_eqb_false in E. rewrite decide_True by done. by rewrite last_snoc.
Qed.

(** The partial after what a call makes arrive. *)
Definition told_partial (ds : list TranscriptionDelta) (old : text) : text :=
  fold_left (fun p d => match Delta_Kind d with
                        | TranscriptionDeltaKindPartial | TranscriptionDeltaKindFinal => if Delta_Text d != "" then Delta_Text d else p
                        | _ => p
                        end) ds old.

Lemma observe_partial now delta d :
  latestPartial (ObserveTranscriptionDelta now delta d) = told_partial [delta] (latestPartial d).
Proof.
  unfold ObserveTranscriptionDelta, told_partial. cbv zeta. cbn [fold_left].
  destruct (Delta_Kind delta); try done; try (destruct (Delta_Text delta != "")); repeat split_if; by read_fields.
Qed.

Lemma observed_partial ds w s : latestPartial (detector (fold_left outside_step (observed ds w).2 s)) = told_partial ds (latestPartial (detector s)).
Proof.
  revert w s. induction ds as [|d ds IH]; intros w s; [done|]. cbn [observed]. destruct (world_now w) as [w1 now].
  specialize (IH w1 (outside_step s (Heard now d))). destruct (observed ds w1) as [w2 events]. cbn [snd fold_left] in *. rewrite IH.
  cbn [outside_step]. read_fields. rewrite observe_partial. done.
Qed.

Lemma hear_partial r bytes s :
  let '(s', ds, _) := hear_reply no_sink r bytes s in
  let heard := if preview_of r == "" then hs_lastPartial s else preview_of r in
  hs_lastPartial s' = heard /\ told_partial ds (hs_lastPartial s) = heard.
Proof.
  unfold hear_reply. read_fields. cbv zeta.
  destruct (preview_of r == "") eqn:E; cbn [negb andb]; [by destruct s|].
  destruct (_ || _) eqn:Eo.
  - unfold no_sink. cbn [told_partial fold_left Delta_Kind Delta_Text]. rewrite E. cbn [negb]. by read_fields.
  - apply orb_false_iff in Eo as [Eo _]. apply negb_false_iff, text_eqb_true in Eo. by read_fields.
Qed.

(** A push tells the detector what the service heard. *)
Lemma push_tells chunk s said (w : W) :
  hs_lastPartial s = last_heard said ->
  let '(_, (s', ds, _)) := HTTP_PushAudio t no_sink chunk s w in
  hs_lastPartial s' = told_partial ds (hs_lastPartial s) /\ hs_lastPartial s' = last_heard (said ++ option_list (reply_preview chunk s w)).
Proof.
  intros Hl. unfold HTTP_PushAudio, reply_preview. destruct (hs_closed s); [by rewrite app_nil_r|]. destruct (len chunk =? 0); [by rewrite app_nil_r|]. cbn [orb].
  assert (Ht : exists s1 ds, tell_start no_sink chunk s = (s1, ds, None) /\ hs_lastPartial s1 = hs_lastPartial s /\ hs_streamID s1 = hs_streamID s /\
                 forall ds' old, told_partial (ds ++ ds') old = told_partial ds' old).
  { unfold tell_start. destruct (hs_started s); [by exists s, []|]. unfold no_sink. eexists _, _. split; [reflexivity|]. by destruct s. }
  destruct Ht as (s1 & ds & -> & Hp & Hid & Hds). pose proof (Hds [] (hs_lastPartial s)) as Hd0. rewrite app_nil_r in Hd0. cbn [told_partial fold_left] in Hd0.
  destruct (streamEndpoint _ _) as [url|e]; [|by rewrite app_nil_r, Hp, Hd0]. rewrite Hid.
  destruct (postJSON url _ w) as [w1 [r|e]]; cbn [snd]; [|by rewrite app_nil_r, Hp, Hd0]. change (option_list (Some (preview_of r))) with [preview_of r].
  rewrite last_heard_snoc, <- Hl, <- Hp. pose proof (hear_partial r (len chunk) s1) as Hh.
  destruct (hear_reply no_sink r (len chunk) s1) as [[s2 ds'] e]. cbv zeta in Hh. destruct Hh as [Hh1 Hh2]. by rewrite Hds, Hh1, Hh2.
Qed.

(** ** The session over it *)

Abbreviation live := (live_session (http_environment W)).

Lemma snapshot_words now d : PartialText (TurnDetector.Snapshot now d).2 = latestPartial d /\ latestPartial (TurnDetector.Snapshot now d).1 = latestPartial d.
Proof.
  split; [|destruct (Snapshot_frame now d) as (b & r & -> & _); by read_fields].
  unfold TurnDetector.Snapshot. cbv zeta. destruct (_ || _); [done|]. destruct (baseWaitForPartial d) as [wait reason].
  repeat split_if; by read_fields.
Qed.

(** A poll says what was heard, and changes nothing of it. *)
Lemma poll_says now (l : live) : in_step l ->
  let '(l', p) := poll_live now l in in_step l' /\ environment l' = environment l /\ PartialText p = last_heard (he_said (environment l)).
Proof.
  intros (H1 & H2). unfold poll_live. pose proof (poll_spec now (session l)) as Hs. destruct (Poll now (session l)) as [[s p] requests].
  destruct Hs as (Hd & (Hp & _) & _). destruct (snapshot_words now (detector (session l))) as [W1 W2].
  unfold in_step. cbn [session environment]. rewrite Hd, W2, Hp, W1. split; [by split|]. split; [done|congruence].
Qed.

Lemma arrive_in_step (l : live) : in_step l -> in_step (arrive l).
Proof.
  intros [H1 H2]. unfold arrive. cbn [env_arrived http_surroundings]. destruct (world_answers _) as [w answers]. unfold in_step.
  cbn [session environment he_stream he_said]. split; [|done]. rewrite <- H1. clear H1 H2. generalize (session l). induction answers as [|a answers IH]; intros s; [done|].
  cbn [map fold_left]. rewrite IH. destruct a as [key [j|]|key [r|]]; cbn [as_event outside_step]; by read_fields.
Qed.

Lemma chunk_in_step chunk (l : live) : in_step l ->
  let '(l', r) := pushPreviewChunk chunk l in
  in_step l' /\ match r with Ok p => PartialText p = last_heard (he_said (environment l')) | Err _ => True end.
Proof.
  intros [H1 H2]. unfold pushPreviewChunk. cbn [env_now http_surroundings]. destruct (world_now (he_world (environment l))) as [w0 now].
  cbn [env_push http_surroundings he_stream he_world he_said]. pose proof (push_tells chunk (he_stream (environment l)) (he_said (environment l)) w0 H2) as Ht.
  destruct (HTTP_PushAudio t no_sink chunk (he_stream (environment l)) w0) as [w1 [[s ds] err]]. destruct Ht as [T1 T2].
  set (s0 := (session l) <|detector := _|>). pose proof (observed_partial ds w1 s0) as Ho. destruct (observed ds w1) as [w2 events]. cbn [snd] in Ho.
  assert (Hs0 : latestPartial (detector s0) = hs_lastPartial (he_stream (environment l))).
  { subst s0. read_fields. rewrite <- H1. unfold ObserveAudio. destruct (_ <=? 0); [done|]. by read_fields. }
  assert (Hin : in_step (mkLive (fold_left outside_step events s0) (mkHTTPEnvironment s w2 (he_said (environment l) ++ option_list (reply_preview chunk (he_stream (environment l)) w0))) (asked l))).
  { unfold in_step. cbn [session environment he_stream he_said]. by rewrite Ho, Hs0. }
  destruct err as [e|]; [by split|]. cbn [he_world he_stream he_said]. destruct (world_now w2) as [w3 now'].
  pose proof (poll_says now' (mkLive (fold_left outside_step events s0) (mkHTTPEnvironment s w3 (he_said (environment l) ++ option_list (reply_preview chunk (he_stream (environment l)) w0))) (asked l))) as Hp.
  destruct (poll_live now' _) as [l' p]. destruct Hp as (P1 & P2 & P3); [exact Hin|]. split; [done|]. by rewrite P3, P2.
Qed.

Lemma pieces_in_step pieces (l : live) previous : in_step l ->
  let '(l', (emitted, r)) := push_pieces pieces l previous in
  in_step l' /\ match r with Ok p => (pieces = [] -> p = previous) /\ (pieces <> [] -> PartialText p = last_heard (he_said (environment l'))) | Err _ => True end.
Proof.
  revert l previous. induction pieces as [|piece pieces IH]; intros l previous Hl; cbn [push_pieces]; [by split|].
  pose proof (chunk_in_step piece l Hl) as Hc. destruct (pushPreviewChunk piece l) as [l1 [p|e]]; [|by destruct Hc].
  destruct Hc as [Hl1 Hp]. specialize (IH l1 p Hl1). destruct (push_pieces pieces l1 p) as [l2 [emitted r]] eqn:E. destruct IH as [Hl2 Hr].
  split; [done|]. destruct r as [q|]; [|done]. destruct Hr as [R1 R2]. split; [done|]. intros _. destruct pieces as [|p' ps]; [|by apply R2].
  by injection E as <- _ <-.
Qed.

Lemma push_in_step payload (l : live) : in_step l -> 0 < len payload <= 2 ^ 61 ->
  let '(l', (emitted, r)) := ps_push 0 payload l in
  in_step l' /\ match r with Ok p => PartialText p = last_heard (he_said (environment l')) | Err _ => True end.
Proof.
  intros Hl Hp. cbn [ps_push asr_PreviewSession]. unfold PushAudioProgressively. cbv zeta.
  destruct (split_spec payload (pr_SampleRateHz (previewRequest (session (arrive l)))) (pr_Channels (previewRequest (session (arrive l))))
    defaultASRStreamingChunkMs ltac:(lia)) as (ps & -> & Hc & _).
  pose proof (pieces_in_step ps (arrive l) zero_InputPreview (arrive_in_step l Hl)) as H1.
  destruct (push_pieces ps (arrive l) zero_InputPreview) as [l' [emitted [p|e]]]; destruct H1 as [H1 H2]; split; try done. apply H2.
  intros ->. cbn in Hc. subst payload. change (len []) with 0 in Hp. lia.
Qed.

Lemma step_in_step c (l : live) : small_call c -> in_step l -> in_step (live_step l c).
Proof.
  intros Hc Hl. destruct c as [payload|now]; cbn [live_step].
  - destruct (decide (0 < len payload)) as [Hp|Hp].
    + pose proof (push_in_step payload l Hl (conj Hp Hc)) as H1. destruct (ps_push 0 payload l) as [l' [emitted r]]. apply H1.
    + assert (payload = []) as -> by (destruct payload as [|b bs]; [done|rewrite len_cons in Hp; pose proof (len_nonneg bs); lia]).
      by apply arrive_in_step.
  - cbn [ps_poll asr_PreviewSession]. pose proof (poll_says now (arrive l) (arrive_in_step l Hl)) as H1. destruct (poll_live now (arrive l)) as [l' p]. apply H1.
Qed.

(** C30. The preview says what the service heard.  A preview is started with a
    stream the service opened.  Through any audio pushed and any polls, whatever
    the models answer meanwhile, however often the service fails to answer, and
    whatever it takes back or repeats: a push that succeeds and a poll report as
    the partial text what the service heard last, as long as it heard anything. *)
Theorem preview_says_what_is_heard cfg preq req (w w0 w1 : W) stream calls :
  StartStream t req w = (w0, Ok stream) -> Forall small_call calls ->
  let l := fold_left live_step calls (mkLive (StartInputPreview cfg preq) (mkHTTPEnvironment stream w1 []) []) in
  (forall now, PartialText (ps_poll now l).2 = last_heard (he_said (environment (arrive l)))) /\
  (forall payload l' emitted answer, 0 < len payload <= 2 ^ 61 -> ps_push 0 payload l = (l', (emitted, Ok answer)) ->
     PartialText answer = last_heard (he_said (environment l'))).
Proof.
  intros Hs Hc. cbv zeta. set (l0 := mkLive _ _ _).
  assert (H0 : in_step l0).
  { unfold StartStream in Hs. destruct (_ == ""); [done|]. destruct (streamEndpoint _ _); [|done]. destruct (postJSON _ _ _) as [w' [r|e]]; [|done].
    cbv zeta in Hs. destruct (_ == ""); [done|]. injection Hs as _ <-. by split. }
  assert (Hall : forall l, in_step l -> in_step (fold_left live_step calls l)).
  { clear Hs H0 l0. induction Hc as [|c calls Hc _ IH]; intros l Hl; [done|]. cbn [fold_left]. apply IH. by apply step_in_step. }
  pose proof (Hall l0 H0) as H.
  split.
  - intros now. cbn [ps_poll asr_PreviewSession]. pose proof (poll_says now _ (arrive_in_step _ H)) as H1. destruct (poll_live now _) as [l' p]. apply H1.
  - intros payload l' emitted answer Hp E. pose proof (push_in_step payload _ H Hp) as H1. rewrite E in H1. apply H1.
Qed.

End Surroundings.

(** ** A service that hears a sentence grow *)

Record demo_room := mkRoom { room_time : instant; room_heard : list text }.

#[local] Instance demo_speech : SpeechService demo_room := {|
  call endpoint payload w :=
    match payload, room_heard w with
    | StartPayload _, _ => (w, Ok (200, txt "s1"))
    | PushPayload _ _, s :: rest => (mkRoom (room_time w) rest, if s == "?" then Err (txt "timeout") else Ok (200, s))
    | _, _ => (w, Ok (200, []))
    end;
  unmarshal body := Ok (mkHTTPReply body body [] [] 0 0 [] [] [] [] [] [] [] [] [] false [] [] []);
  url_path _ := Ok (txt "/v1/asr/transcribe");
  with_path endpoint path := endpoint ++ path
|}.

#[local] Instance demo_world : PreviewWorld demo_room := {|
  world_now w := (mkRoom (room_time w + 30 * Millisecond) (room_heard w), room_time w);
  world_answers w := (w, [])
|}.

Definition demo_transcriber : HTTPTranscriber := NewHTTPTranscriber "http://asr" 0 "zh".
Definition demo_room_start : demo_room := mkRoom Second (texts ["打开"; "打开客厅"; ""; "?"; "打开客厅的灯"; "打开客厅的灯"; ""; ""; ""; ""]).
Definition demo_asr_request : TranscriptionRequest := mkTranscriptionRequest "s" "t" "" "d" [] "pcm16le" 16000 1 "zh" [] [].
Definition demo_room_calls : list live_call := [CallPush demo_frame; CallPoll (2 * Second); CallPush demo_frame].
Definition demo_http_stream : httpStreamingSession := mkHTTPStream "s1" false false 0 "" "".

Lemma preview_says_what_is_heard_witness :
  let l := fold_left (@live_step _ (http_surroundings demo_transcriber)) demo_room_calls
             (mkLive (StartInputPreview demo_preview_config demo_preview_request) (mkHTTPEnvironment demo_http_stream demo_room_start []) []) in
  Forall small_call demo_room_calls /\ last_heard (he_said (environment l)) = txt "打开客厅" /\
  (forall now, PartialText (@ps_poll _ (@asr_PreviewSession _ (http_surroundings demo_transcriber)) now l).2 = txt "打开客厅") /\
  (forall payload l' emitted answer, 0 < len payload <= 2 ^ 61 ->
     @ps_push _ (@asr_PreviewSession _ (http_surroundings demo_transcriber)) 0 payload l = (l', (emitted, Ok answer)) ->
     PartialText answer = last_heard (he_said (environment l'))).
Proof.
  cbv zeta. assert (Hc : Forall small_call demo_room_calls) by (repeat constructor; by vm_compute).
  split; [exact Hc|]. set (l := fold_left _ _ _).
  assert (Hh : last_heard (he_said (environment (@arrive _ (http_surroundings demo_transcriber) l))) = txt "打开客厅") by (vm_compute; reflexivity).
  split; [vm_compute; reflexivity|].
  assert (Hs : StartStream demo_transcriber demo_asr_request demo_room_start = (demo_room_start, Ok demo_http_stream)) by (vm_compute; reflexivity).
  pose proof (preview_says_what_is_heard demo_transcriber demo_preview_config demo_preview_request demo_asr_request demo_room_start demo_room_start demo_room_start
    demo_http_stream demo_room_calls Hs Hc) as H. cbv zeta in H. destruct H as [H1 H2].
  split; [intros now; exact (eq_trans (H1 now) Hh)|exact H2].
Defined.
