(* ===== verification/SpeechSynthesizers.v ===== *)
(** * Speech from services (internal/voice/volcengine_tts.go, iflytek_tts.go,
      mimo_tts.go)

    The clients of three speech services: the request each sends, and the stream
    of frames it makes of the answer.  What a service says is a parameter, and so
    are the keyed hashes and what [net/url] makes of the parts of a URL. *)

From S2P Require Import Prelude GoText GoUnicode GoOrder GoJSON GoFloat Contracts Rollout Lexical BargeIn SpeechPlanner Audio InputAudio PlaybackAck SpeechStream SpeechWire FrameReader.

(** ** Requests and answers (contracts.go) *)

Record SynthesisRequest := mkSynthesisRequest {
  sq_SessionID : text;
  sq_TurnID : text;
  sq_TraceID : text;
  sq_DeviceID : text;
  sq_UserText : text;
  sq_Text : text
}.

Record SynthesisResult := mkSynthesisResult {
  sr_AudioPCM : bytes;
  sr_SampleRateHz : Z;
  sr_Channels : Z;
  sr_Codec : text;
  sr_Voice : text;
  sr_Model : text
}.

Record vendor_request := mkVendorRequest { vq_URL : text; vq_Headers : list (text * text); vq_Body : text }.

(** A status, and the body up to its end or to an error. *)
Record vendor_reply := mkVendorReply { vr_Status : Z; vr_Body : text; vr_End : stream_error }.

(** A service behind HTTP; the error is that of a URL that is not one, or of the network. *)
Class VendorService (W : Type) := { post : vendor_request -> W -> W * result text vendor_reply }.

(** What [Synthesize] makes of a stream it collects; nothing when the stream has no end. *)
Definition collected {S} `{!AudioSource S} (frameBytes : Z) (result_of : bytes -> SynthesisResult) (r : frame_reader S)
    : option (result text SynthesisResult) :=
  match frames_of frameBytes r with
  | None => None
  | Some stream => option_map (fun x => match x with Ok pcm => Ok (result_of pcm) | Err e => Err e end) (collectAudioStream stream)
  end.

(** ** Volcengine *)

Definition defaultVolcengineTTSBaseURL : text := "https://openspeech.bytedance.com".
Definition defaultVolcengineTTSPath : text := "/api/v3/tts/unidirectional/sse".
Definition defaultVolcengineTTSResourceID : text := "seed-tts-2.0".
Definition defaultVolcengineTTSVoiceType : text := "zh_female_vv_uranus_bigtts".
Definition defaultVolcengineTTSTargetCodec : text := "pcm16le".
Definition defaultVolcengineTTSTargetRateHz : Z := 16000.
Definition defaultVolcengineTTSTargetChannels : Z := 1.
Definition defaultVolcengineTTSTimeout : duration := 30 * Second.
Definition defaultVolcengineEmotionScale : Z := 4.

(** The configuration has the same fields as the client, one of which is the timeout
    of the HTTP client that is made when none is given. *)
Record VolcengineTTSSynthesizer := mkVolcengine {
  vo_BaseURL : text;
  vo_AccessToken : text;
  vo_AppID : text;
  vo_ResourceID : text;
  vo_VoiceType : text;
  vo_SpeechRate : Z;
  vo_LoudnessRate : Z;
  vo_Emotion : text;
  vo_EmotionScale : Z;
  vo_Model : text;
  vo_TargetCodec : text;
  vo_TargetRateHz : Z;
  vo_TargetChannels : Z;
  vo_Timeout : duration
}.

Definition positive_or (n fallback : Z) : Z := if n <=? 0 then fallback else n.

Definition NewVolcengineTTSSynthesizer (cfg : VolcengineTTSSynthesizer) : VolcengineTTSSynthesizer :=
  mkVolcengine (firstNonEmpty [TrimSpace (vo_BaseURL cfg); defaultVolcengineTTSBaseURL]) (TrimSpace (vo_AccessToken cfg)) (TrimSpace (vo_AppID cfg))
    (firstNonEmpty [TrimSpace (vo_ResourceID cfg); defaultVolcengineTTSResourceID]) (firstNonEmpty [TrimSpace (vo_VoiceType cfg); defaultVolcengineTTSVoiceType])
    (vo_SpeechRate cfg) (vo_LoudnessRate cfg) (TrimSpace (vo_Emotion cfg)) (positive_or (vo_EmotionScale cfg) defaultVolcengineEmotionScale)
    (TrimSpace (vo_Model cfg)) (firstNonEmpty [TrimSpace (vo_TargetCodec cfg); defaultVolcengineTTSTargetCodec])
    (positive_or (vo_TargetRateHz cfg) defaultVolcengineTTSTargetRateHz) (positive_or (vo_TargetChannels cfg) defaultVolcengineTTSTargetChannels)
    (positive_or (vo_Timeout cfg) defaultVolcengineTTSTimeout).

(** What every service checks of the text and of the audio it is to make. *)
Definition refused_audio (vendor s codec : text) (rate channels : Z) : option text :=
  if TrimSpace s == "" then Some (txt "tts text is empty")
  else if codec != "pcm16le" then Some (vendor ++ txt " tts only supports pcm16le target codec, got " ++ codec)
  else if negb (channels =? 1) then Some (vendor ++ txt " tts only supports mono output, got " ++ Itoa channels ++ txt " channels")
  else if rate <=? 0 then Some (vendor ++ txt " tts target sample rate must be positive")
  else None.

Definition volcengine_validate (z : VolcengineTTSSynthesizer) (req : SynthesisRequest) : option text :=
  if (TrimSpace (vo_AccessToken z) == "") || (TrimSpace (vo_AppID z) == "") then Some (txt "volcengine tts credentials are incomplete")
  else refused_audio "volcengine" (sq_Text req) (vo_TargetCodec z) (vo_TargetRateHz z) (vo_TargetChannels z).

Definition volcengine_payload (z : VolcengineTTSSynthesizer) (req : SynthesisRequest) : json :=
  let audioParams := [(txt "format", JString (txt "pcm")); (txt "sample_rate", JInt (vo_TargetRateHz z));
                      (txt "speech_rate", JInt (vo_SpeechRate z)); (txt "loudness_rate", JInt (vo_LoudnessRate z))] in
  let audioParams := if vo_Emotion z != ""
                     then json_set "emotion_scale" (JInt (vo_EmotionScale z)) (json_set "emotion" (JString (vo_Emotion z)) audioParams)
                     else audioParams in
  let params := [(txt "text", JString (sq_Text req)); (txt "speaker", JString (vo_VoiceType z)); (txt "audio_params", JMap audioParams)] in
  let params := if vo_Model z != "" then json_set "model" (JString (vo_Model z)) params else params in
  JMap [(txt "user", JMap [(txt "uid", JString (vo_AppID z))]); (txt "req_params", JMap params)].

Definition volcengine_request (now : instant) (z : VolcengineTTSSynthesizer) (req : SynthesisRequest) : vendor_request :=
  mkVendorRequest (TrimRight (vo_BaseURL z) "/" ++ defaultVolcengineTTSPath)
    [(txt "Content-Type", txt "application/json"); (txt "X-Api-App-Id", vo_AppID z); (txt "X-Api-Access-Key", vo_AccessToken z);
     (txt "X-Api-Resource-Id", vo_ResourceID z); (txt "X-Api-Request-Id", txt "agent-server-" ++ Itoa now)]
    (Marshal (volcengine_payload z req)).

Definition volcengine_frame (z : VolcengineTTSSynthesizer) : Z := pcm16FrameBytes (vo_TargetRateHz z) (vo_TargetChannels z).

(** The wire of a Volcengine stream. *)
Record volcengineTTSAudioStream := mkVolcengineWire { vw_reader : line_reader }.

Section Volcengine.

Context {J : JSONDecoder}.

(** A turn of the loop of [Next]. *)
Definition volcengine_event (eventData : text) : bytes * pull_end :=
  if TrimSpace eventData == "" then ([], GoesOn)
  else match decode_map eventData with
       | Err e => ([], Broken (StreamError e))
       | Ok payload =>
           let audioBase64 := asString (field "data" payload) in
           if TrimSpace audioBase64 != "" then
             match DecodeString audioBase64 with
             | Err e => ([], Broken (StreamError e))
             | Ok decoded => (decoded, GoesOn)
             end
           else match asInt (field "code" payload) with
                | Some code =>
                    if code =? 20000000 then ([], Over)
                    else if negb (code =? 0) then ([], Broken (StreamError (txt "volcengine tts returned code=" ++ Itoa code)))
                    else ([], GoesOn)
                | None => ([], GoesOn)
                end
       end.

Definition volcengine_pull (w : volcengineTTSAudioStream) : volcengineTTSAudioStream * bytes * pull_end :=
  match readSSEEvent (vw_reader w) with
  | (r, Err EOF) => (mkVolcengineWire r, [], Over)
  | (r, Err e) => (mkVolcengineWire r, [], Broken e)
  | (r, Ok eventData) => let '(bs, e) := volcengine_event eventData in (mkVolcengineWire r, bs, e)
  end.

#[export] Program Instance volcengine_source : AudioSource volcengineTTSAudioStream := {
  pull := volcengine_pull;
  on_the_wire w := unread (vw_reader w);
  cut_frame := nextPCMChunk
}.
Next Obligation.
  intros w w' bs E. unfold volcengine_pull in E. destruct (readSSEEvent _) as [r [eventData|[|e]]] eqn:Er; [|done..].
  apply event_takes in Er. destruct (volcengine_event eventData) as [bs' e]. by injection E as <- _ _.
Qed.
Next Obligation. done. Qed.

Context {W : Type} `{!VendorService W}.

Definition volcengine_StreamSynthesize (now : instant) (z : VolcengineTTSSynthesizer) (req : SynthesisRequest) (w : W)
    : W * result text (frame_reader volcengineTTSAudioStream) :=
  match volcengine_validate z req with
  | Some e => (w, Err e)
  | None =>
      match post (volcengine_request now z req) w with
      | (w, Err e) => (w, Err e)
      | (w, Ok resp) =>
          (w, if negb (vr_Status resp =? 200)
              then Err (txt "volcengine tts returned " ++ Itoa (vr_Status resp) ++ txt ": " ++ TrimSpace (vr_Body resp))
              else Ok (mkReader (mkVolcengineWire (NewReader (vr_Body resp) (vr_End resp))) [] false))
      end
  end.

Definition volcengine_Synthesize (now : instant) (z : VolcengineTTSSynthesizer) (req : SynthesisRequest) (w : W)
    : W * option (result text SynthesisResult) :=
  match volcengine_StreamSynthesize now z req w with
  | (w, Err e) => (w, Some (Err e))
  | (w, Ok stream) =>
      (w, collected (volcengine_frame z)
            (fun pcm => mkSynthesisResult pcm (vo_TargetRateHz z) (vo_TargetChannels z) (vo_TargetCodec z) (vo_VoiceType z)
                          (firstNonEmpty [vo_Model z; vo_ResourceID z])) stream)
  end.

End Volcengine.

(** ** A service as the [Synthesizer] of the player *)

(** The stream and the whole audio for a text, in a world where the service answers
    what it is asked. *)
Definition as_synthesizer {S} `{!AudioSource S} (frameBytes : Z) (stream : text -> result text (frame_reader S))
    (whole : text -> option (result text SynthesisResult)) : Synthesizer :=
  mkSynthesizer
    (Some (fun s => match stream s with Ok r => frames_of frameBytes r | Err _ => None end))
    (fun s => match whole s with Some (Ok r) => Some (sr_AudioPCM r, sr_SampleRateHz r, sr_Channels r) | _ => None end).

Definition with_text (req : SynthesisRequest) (s : text) : SynthesisRequest :=
  mkSynthesisRequest (sq_SessionID req) (sq_TurnID req) (sq_TraceID req) (sq_DeviceID req) (sq_UserText req) s.

Definition volcengine_synthesizer {J : JSONDecoder} {W} `{!VendorService W} (now : instant) (z : VolcengineTTSSynthesizer) (req : SynthesisRequest) (w : W)
    : Synthesizer :=
  as_synthesizer (volcengine_frame z) (fun s => (volcengine_StreamSynthesize now z (with_text req s) w).2)
    (fun s => (volcengine_Synthesize now z (with_text req s) w).2).

(** ** Iflytek *)

Definition defaultIflytekTTSScheme : text := "ws".
Definition defaultIflytekTTSHost : text := "tts-api.xfyun.cn".
Definition defaultIflytekTTSPath : text := "/v2/tts".
Definition defaultIflytekTTSAUE : text := "raw".
Definition defaultIflytekTTSTTE : text := "UTF8".
Definition defaultIflytekTTSVoice : text := "xiaoyan".
Definition defaultIflytekTTSSpeed : Z := 50.
Definition defaultIflytekTTSVolume : Z := 50.
Definition defaultIflytekTTSPitch : Z := 50.
Definition defaultIflytekTTSTargetCodec : text := "pcm16le".
Definition defaultIflytekTTSTargetRateHz : Z := 16000.
Definition defaultIflytekTTSTargetChannel : Z := 1.
Definition defaultIflytekTTSTimeout : duration := 30 * Second.

(** The configuration has the same fields. *)
Record IflytekTTSSynthesizer := mkIflytekTTS {
  it_AppID : text;
  it_APIKey : text;
  it_APISecret : text;
  it_Scheme : text;
  it_Host : text;
  it_Port : Z;
  it_Path : text;
  it_Voice : text;
  it_AUE : text;
  it_AUF : text;
  it_TextEncoding : text;
  it_Speed : Z;
  it_Volume : Z;
  it_Pitch : Z;
  it_TargetCodec : text;
  it_TargetRateHz : Z;
  it_TargetChannels : Z;
  it_Timeout : duration
}.

Definition iflytekTTSIntDefault (value fallback : Z) : Z := if value =? 0 then fallback else value.

Definition scheme_port (scheme : text) (port : Z) : Z := if port <=? 0 then (if scheme == "wss" then 443 else 80) else port.

Definition NewIflytekTTSSynthesizer (cfg : IflytekTTSSynthesizer) : IflytekTTSSynthesizer :=
  let scheme := ToLower (TrimSpace (it_Scheme cfg)) in
  let scheme := if scheme == "" then defaultIflytekTTSScheme else scheme in
  let targetRateHz := positive_or (it_TargetRateHz cfg) defaultIflytekTTSTargetRateHz in
  mkIflytekTTS (TrimSpace (it_AppID cfg)) (TrimSpace (it_APIKey cfg)) (TrimSpace (it_APISecret cfg)) scheme
    (firstNonEmpty [TrimSpace (it_Host cfg); defaultIflytekTTSHost]) (scheme_port scheme (it_Port cfg))
    (firstNonEmpty [TrimSpace (it_Path cfg); defaultIflytekTTSPath]) (firstNonEmpty [TrimSpace (it_Voice cfg); defaultIflytekTTSVoice])
    (firstNonEmpty [TrimSpace (it_AUE cfg); defaultIflytekTTSAUE]) (firstNonEmpty [TrimSpace (it_AUF cfg); txt "audio/L16;rate=" ++ Itoa targetRateHz])
    (firstNonEmpty [TrimSpace (it_TextEncoding cfg); defaultIflytekTTSTTE]) (iflytekTTSIntDefault (it_Speed cfg) defaultIflytekTTSSpeed)
    (iflytekTTSIntDefault (it_Volume cfg) defaultIflytekTTSVolume) (iflytekTTSIntDefault (it_Pitch cfg) defaultIflytekTTSPitch)
    (firstNonEmpty [TrimSpace (it_TargetCodec cfg); defaultIflytekTTSTargetCodec]) targetRateHz
    (positive_or (it_TargetChannels cfg) defaultIflytekTTSTargetChannel) (positive_or (it_Timeout cfg) defaultIflytekTTSTimeout).

Definition iflytek_validate (z : IflytekTTSSynthesizer) (req : SynthesisRequest) : option text :=
  if (TrimSpace (it_AppID z) == "") || (TrimSpace (it_APIKey z) == "") || (TrimSpace (it_APISecret z) == "")
  then Some (txt "iflytek tts credentials are incomplete")
  else refused_audio "iflytek" (sq_Text req) (it_TargetCodec z) (it_TargetRateHz z) (it_TargetChannels z).

Definition iflytek_payload (z : IflytekTTSSynthesizer) (req : SynthesisRequest) : json :=
  JMap [(txt "common", JMap [(txt "app_id", JString (it_AppID z))]);
        (txt "business", JMap [(txt "aue", JString (it_AUE z)); (txt "auf", JString (it_AUF z)); (txt "vcn", JString (it_Voice z));
                               (txt "tte", JString (it_TextEncoding z)); (txt "speed", JInt (it_Speed z)); (txt "volume", JInt (it_Volume z));
                               (txt "pitch", JInt (it_Pitch z))]);
        (txt "data", JMap [(txt "status", JInt 2); (txt "text", JString (base64 (text_bytes (sq_Text req))))])].

Definition quoted (s : text) : text := [34] ++ s ++ [34].

(** [date] is the time in the format of HTTP. *)
Definition buildIflytekTTSQuery `{!SigningKit} (date apiKey apiSecret host path : text) : text :=
  let signatureOrigin := txt "host: " ++ host ++ [10] ++ txt "date: " ++ date ++ [10] ++ txt "GET " ++ path ++ txt " HTTP/1.1" in
  let signature := base64 (hmac_sha256 apiSecret signatureOrigin) in
  let authorizationOrigin := txt "api_key=" ++ quoted apiKey ++ txt ",algorithm=" ++ quoted "hmac-sha256" ++
                             txt ",headers=" ++ quoted "host date request-line" ++ txt ",signature=" ++ quoted signature in
  Values_Encode [(txt "host", host); (txt "date", date); (txt "authorization", base64 (text_bytes authorizationOrigin))].

Definition buildIflytekTTSURL `{!SigningKit} (scheme host : text) (port : Z) (path rawQuery : text) : text :=
  let scheme := firstNonEmpty [TrimSpace scheme; defaultIflytekTTSScheme] in
  URL_String scheme (host_with_port scheme host port) path rawQuery.

Definition iflytek_frame (z : IflytekTTSSynthesizer) : Z := pcm16FrameBytes (it_TargetRateHz z) (it_TargetChannels z).

(** The wire of an Iflytek stream is the connection. *)
Record iflytekTTSAudioStream (W : Type) := mkIflytekWire { iw_conn : W }.
#[global] Arguments mkIflytekWire {W}.
#[global] Arguments iw_conn {W}.

Section Iflytek.

Context {J : JSONDecoder} {W : Type} {Socket : SocketService W}.

Definition iflytek_data (data : list (text * any)) : bytes * pull_end :=
  let over := if bool_decide (asInt (field "status" data) = Some 2) then Over else GoesOn in
  let audioBase64 := asString (field "audio" data) in
  if TrimSpace audioBase64 != "" then
    match DecodeString audioBase64 with
    | Err e => ([], Broken (StreamError e))
    | Ok decoded => (decoded, over)
    end
  else ([], over).

(** A message that reports an error breaks the stream. *)
Definition bad_code (message : list (text * any)) : option Z :=
  match asInt (field "code" message) with Some code => if negb (code =? 0) then Some code else None | None => None end.

Definition iflytek_pull (s : iflytekTTSAudioStream W) : iflytekTTSAudioStream W * bytes * pull_end :=
  match readJSONWebsocketMessage (iw_conn s) with
  | (w, Err e) => (mkIflytekWire w, [], Broken (StreamError e))
  | (w, Ok message) =>
      let '(bs, e) := match bad_code message with
                      | Some code => ([], Broken (StreamError (txt "iflytek tts returned code=" ++ Itoa code)))
                      | None => iflytek_data (asMap (field "data" message))
                      end in
      (mkIflytekWire w, bs, e)
  end.

#[export] Program Instance iflytek_source : AudioSource (iflytekTTSAudioStream W) := {
  pull := iflytek_pull;
  on_the_wire s := ws_to_come (iw_conn s);
  cut_frame := nextPCMChunk
}.
Next Obligation.
  intros [w] [w'] bs E. unfold iflytek_pull in E. cbn [iw_conn] in *.
  destruct (readJSONWebsocketMessage w) as [w1 [m|e]] eqn:Er; [|done]. apply message_takes in Er.
  destruct (match bad_code m with Some _ => _ | None => _ end) as [bs' e]. by injection E as <- _ _.
Qed.
Next Obligation. done. Qed.

Definition iflytek_StreamSynthesize `{!SigningKit} (date : text) (z : IflytekTTSSynthesizer) (req : SynthesisRequest) (w : W)
    : W * result text (frame_reader (iflytekTTSAudioStream W)) :=
  match iflytek_validate z req with
  | Some e => (w, Err e)
  | None =>
      let query := buildIflytekTTSQuery date (it_APIKey z) (it_APISecret z) (it_Host z) (it_Path z) in
      match ws_dial (buildIflytekTTSURL (it_Scheme z) (it_Host z) (it_Port z) (it_Path z) query) w with
      | (w, Some e) => (w, Err e)
      | (w, None) =>
          match WriteJSON (iflytek_payload z req) w with
          | (w, Some e) => (w, Err e)
          | (w, None) => (w, Ok (mkReader (mkIflytekWire w) [] false))
          end
      end
  end.

Definition iflytek_Synthesize `{!SigningKit} (date : text) (z : IflytekTTSSynthesizer) (req : SynthesisRequest) (w : W)
    : option (result text SynthesisResult) :=
  match (iflytek_StreamSynthesize date z req w).2 with
  | Err e => Some (Err e)
  | Ok stream =>
      collected (iflytek_frame z)
        (fun pcm => mkSynthesisResult pcm (it_TargetRateHz z) (it_TargetChannels z) (it_TargetCodec z) (it_Voice z) "iflytek_tts_ws") stream
  end.

End Iflytek.

Definition iflytek_synthesizer {J : JSONDecoder} {W} {Socket : SocketService W} `{!SigningKit} (date : text) (z : IflytekTTSSynthesizer)
    (req : SynthesisRequest) (w : W) : Synthesizer :=
  as_synthesizer (iflytek_frame z) (fun s => (iflytek_StreamSynthesize date z (with_text req s) w).2)
    (fun s => iflytek_Synthesize date z (with_text req s) w).

(** ** Mimo *)

(** The timeout is that of the HTTP client. *)
Record MimoTTSSynthesizer := mkMimo {
  mm_BaseURL : text;
  mm_APIKey : text;
  mm_Model : text;
  mm_Voice : text;
  mm_Style : text;
  mm_Timeout : duration;
  mm_TargetCodec : text;
  mm_TargetRateHz : Z;
  mm_TargetChannels : Z
}.

Definition NewMimoTTSSynthesizer (apiKey baseURL model voice style : text) (timeout : duration) (targetCodec : text) (targetRateHz targetChannels : Z)
    : MimoTTSSynthesizer :=
  let baseURL := TrimRight (TrimSpace baseURL) "/" in
  mkMimo (if baseURL == "" then txt "https://api.xiaomimimo.com/v1" else baseURL) (TrimSpace apiKey)
    (if model == "" then txt "mimo-v2-tts" else model) (if voice == "" then txt "mimo_default" else voice) (TrimSpace style)
    (positive_or timeout (30 * Second)) (if targetCodec == "" then txt "pcm16le" else targetCodec) (positive_or targetRateHz 16000)
    (positive_or targetChannels 1).

Record mimoChatMessage := mkMimoMessage { mi_Role : text; mi_Content : text }.

Record mimoChatCompletionRequest := mkMimoRequest {
  mq_Model : text;
  mq_Messages : list mimoChatMessage;
  mq_Format : text;
  mq_Voice : text;
  mq_Stream : bool
}.

(** [stream] is left out when it is false. *)
Definition mimo_body (q : mimoChatCompletionRequest) : text :=
  Marshal (JStruct ([(txt "model", JString (mq_Model q));
                     (txt "messages", JArray (map (fun m => JStruct [(txt "role", JString (mi_Role m)); (txt "content", JString (mi_Content m))]) (mq_Messages q)));
                     (txt "audio", JStruct [(txt "format", JString (mq_Format q)); (txt "voice", JString (mq_Voice q))])] ++
                    (if mq_Stream q then [(txt "stream", JBool true)] else []))).

(** The audio data of each choice of an answer, and its model. *)
Record mimoChatCompletionResponse := mkMimoResponse { mr_Model : text; mr_AudioData : list text }.

Class MimoDecoder := { decode_mimo : text -> result text mimoChatCompletionResponse }.

Definition mimo_validate (z : MimoTTSSynthesizer) : option text :=
  if mm_APIKey z == "" then Some (txt "MIMO_API_KEY is not configured")
  else if mm_TargetCodec z != "pcm16le" then Some (txt "unsupported target codec " ++ mm_TargetCodec z)
  else None.

Definition mimo_refused (z : MimoTTSSynthesizer) (req : SynthesisRequest) : option text :=
  match mimo_validate z with
  | Some e => Some e
  | None => if TrimSpace (sq_Text req) == "" then Some (txt "tts text is empty") else None
  end.

Definition buildMessages (z : MimoTTSSynthesizer) (req : SynthesisRequest) : list mimoChatMessage :=
  let assistantText := TrimSpace (sq_Text req) in
  let style := TrimSpace (mm_Style z) in
  let assistantText := if style != "" then txt "<style>" ++ style ++ txt "</style>" ++ assistantText else assistantText in
  let userText := TrimSpace (sq_UserText req) in
  (if userText != "" then [mkMimoMessage "user" userText] else []) ++ [mkMimoMessage "assistant" assistantText].

Definition mimo_request (stream : bool) (z : MimoTTSSynthesizer) (req : SynthesisRequest) : vendor_request :=
  mkVendorRequest (mm_BaseURL z ++ txt "/chat/completions")
    ([(txt "Content-Type", txt "application/json")] ++
     (if stream then [(txt "Accept", txt "text/event-stream"); (txt "Cache-Control", txt "no-cache")] else []) ++ [(txt "api-key", mm_APIKey z)])
    (mimo_body (mkMimoRequest (mm_Model z) (buildMessages z req) (if stream then txt "pcm16" else txt "wav") (mm_Voice z) stream)).

(** *** The answer as a whole *)

Definition mimo_returned (resp : vendor_reply) : text := txt "mimo tts returned " ++ Itoa (vr_Status resp) ++ txt ": " ++ TrimSpace (vr_Body resp).

(** [io.ReadAll] of a body. *)
Definition ReadAll (resp : vendor_reply) : result text text :=
  match vr_End resp with EOF => Ok (vr_Body resp) | StreamError e => Err e end.

(** What an answer says, over the errors the code has no texts of its own for. *)
Definition mimo_audio `{!MimoDecoder} (z : MimoTTSSynthesizer) (body : text) : result go_error (bytes * text) :=
  match decode_mimo body with
  | Err e => Err (GoError e)
  | Ok decoded =>
      match mr_AudioData decoded with
      | [] => Err (GoError "mimo tts returned no choices")
      | data :: _ =>
          let audioData := TrimSpace data in
          if audioData == "" then Err (GoError "mimo tts returned empty audio data")
          else match DecodeString audioData with
               | Err e => Err (GoError e)
               | Ok wavBytes =>
                   let! wav := decodeWAVPCM16 wavBytes in
                   let '(audioPCM, sampleRateHz, channels) := wav in
                   let! adaptedPCM := adaptPCM16 audioPCM sampleRateHz channels (mm_TargetRateHz z) (mm_TargetChannels z) in
                   Ok (adaptedPCM, mr_Model decoded)
               end
      end
  end.

Definition mimo_Synthesize `{!MimoDecoder} {W} `{!VendorService W} (z : MimoTTSSynthesizer) (req : SynthesisRequest) (w : W)
    : W * result go_error SynthesisResult :=
  match mimo_refused z req with
  | Some e => (w, Err (GoError e))
  | None =>
      match post (mimo_request false z req) w with
      | (w, Err e) => (w, Err (GoError e))
      | (w, Ok resp) =>
          (w, match ReadAll resp with
              | Err e => Err (GoError e)
              | Ok body =>
                  if negb (vr_Status resp =? 200) then Err (GoError (mimo_returned resp))
                  else let! heard := mimo_audio z body in
                       let '(pcm, model) := heard in
                       Ok (mkSynthesisResult pcm (mm_TargetRateHz z) (mm_TargetChannels z) (mm_TargetCodec z) (mm_Voice z) model)
              end)
      end
  end.

(** *** The answer as a stream *)

(** [collectAudioData]: the data under "audio", wherever it is. *)
Fixpoint collectAudioData (value : any) : bool -> list text :=
  match value with
  | AMap entries =>
      let subs := map (fun '(key, v) => (key, (v, collectAudioData v))) entries in
      let sub key := snd <$> find (fun e => e.1 == txt key) subs in
      fun inAudio =>
        (match sub "audio" with Some (_, collect) => collect true | None => [] end) ++
        (match sub "message" with Some (_, collect) => collect inAudio | None => [] end) ++
        (match sub "choices" with Some (AList _, collect) => collect inAudio | _ => [] end) ++
        (match sub "delta" with
         | Some (AString delta, _) =>
             if Contains (ToLower (asString (field "type" entries))) "audio" && (TrimSpace delta != "") then [TrimSpace delta] else []
         | Some (_, collect) => collect inAudio
         | None => []
         end) ++
        (match sub "data" with
         | Some (AString data, _) => if inAudio && (TrimSpace data != "") then [TrimSpace data] else []
         | _ => []
         end)
  | AList items => fun inAudio => concat (map (fun item => collectAudioData item inAudio) items)
  | _ => fun _ => []
  end.

(** The pieces of an event, up to one that is not base64. *)
Fixpoint decode_pieces (pieces : list text) : bytes * pull_end :=
  match pieces with
  | [] => ([], GoesOn)
  | piece :: pieces =>
      match DecodeString piece with
      | Err e => ([], Broken (StreamError e))
      | Ok decoded => let '(bs, e) := decode_pieces pieces in (decoded ++ bs, e)
      end
  end.

Record mimoPCM16AudioStream := mkMimoWire { mw_reader : line_reader }.

(** The same code as [readSSEEvent]. *)
Definition readNextEvent (s : mimoPCM16AudioStream) : mimoPCM16AudioStream * result stream_error text :=
  let '(r, e) := readSSEEvent (mw_reader s) in (mkMimoWire r, e).

Definition extractMimoAudioData {J : JSONDecoder} (eventData : text) : result text (list text) :=
  match decode_any eventData with Err e => Err e | Ok payload => Ok (collectAudioData payload false) end.

Definition mimo_event {J : JSONDecoder} (eventData : text) : bytes * pull_end :=
  let trimmed := TrimSpace eventData in
  if trimmed == "" then ([], GoesOn)
  else if trimmed == "[DONE]" then ([], Over)
  else match extractMimoAudioData trimmed with
       | Err e => ([], Broken (StreamError e))
       | Ok pieces => decode_pieces pieces
       end.

Definition mimo_pull {J : JSONDecoder} (s : mimoPCM16AudioStream) : mimoPCM16AudioStream * bytes * pull_end :=
  match readNextEvent s with
  | (s, Err EOF) => (s, [], Over)
  | (s, Err e) => (s, [], Broken e)
  | (s, Ok eventData) => let '(bs, e) := mimo_event eventData in (s, bs, e)
  end.

(** The end of [Next], which has no case for a frame of no bytes. *)
Definition mimo_cut (pending : bytes) (frameBytes : Z) : bytes * bytes :=
  if len pending <=? frameBytes then (pending, [])
  else (take (Z.to_nat frameBytes) pending, drop (Z.to_nat frameBytes) pending).

#[export] Program Instance mimo_source {J : JSONDecoder} : AudioSource mimoPCM16AudioStream := {
  pull := mimo_pull;
  on_the_wire s := unread (mw_reader s);
  cut_frame := mimo_cut
}.
Next Obligation.
  intros J s s' bs E. unfold mimo_pull, readNextEvent in E. destruct (readSSEEvent _) as [r [eventData|[|e]]] eqn:Er; [|done..].
  apply event_takes in Er. destruct (mimo_event eventData) as [bs' e]. by injection E as <- _ _.
Qed.
Next Obligation. intros J pending frameBytes Hf. unfold mimo_cut, nextPCMChunk. by rewrite (proj2 (Z.leb_gt frameBytes 0)), orb_false_r. Qed.

Definition mimo_frame (z : MimoTTSSynthesizer) : Z := i64 (i64 (idiv (mm_TargetRateHz z) 50 * mm_TargetChannels z) * 2).

Definition mimo_StreamSynthesize {W} `{!VendorService W} (z : MimoTTSSynthesizer) (req : SynthesisRequest) (w : W)
    : W * result text (frame_reader mimoPCM16AudioStream) :=
  match mimo_refused z req with
  | Some e => (w, Err e)
  | None =>
      match post (mimo_request true z req) w with
      | (w, Err e) => (w, Err e)
      | (w, Ok resp) =>
          (w, if negb (vr_Status resp =? 200)
              then Err (match ReadAll resp with Err _ => txt "mimo tts returned " ++ Itoa (vr_Status resp) | Ok _ => mimo_returned resp end)
              else if mimo_frame z <=? 0 then Err (txt "target realtime profile produced an invalid frame size")
              else Ok (mkReader (mkMimoWire (NewReader (vr_Body resp) (vr_End resp))) [] false))
      end
  end.

Definition mimo_synthesizer {J : JSONDecoder} `{!MimoDecoder} {W} `{!VendorService W} (z : MimoTTSSynthesizer) (req : SynthesisRequest) (w : W) : Synthesizer :=
  as_synthesizer (mimo_frame z) (fun s => (mimo_StreamSynthesize z (with_text req s) w).2)
    (fun s => Some (match (mimo_Synthesize z (with_text req s) w).2 with Ok r => Ok r | Err _ => Err (txt "mimo tts failed") end)).

(** ** Laws *)

Section VolcengineLaws.

Context {J : JSONDecoder}.

(** An event that carries a piece, and one that says there are no more. *)
Definition carries (event : text) (piece : bytes) : Prop :=
  one_line event /\ ~ blank event /\ piece <> [] /\
  exists m, decode_map event = Ok m /\ asString (field "data" m) = base64 piece.

Definition finishes (event : text) : Prop :=
  one_line event /\ ~ blank event /\
  exists m, decode_map event = Ok m /\ blank (asString (field "data" m)) /\ asInt (field "code" m) = Some 20000000.

(** What may follow the last piece: nothing, or the event that says so and anything. *)
Inductive closing : text -> stream_error -> Prop :=
| body_ends : closing [] EOF
| code_says_so event more ending : finishes event -> closing (sse_event event ++ more) ending.

Lemma volcengine_event_pull event rest ending : one_line event ->
  pull (mkVolcengineWire (NewReader (sse_event event ++ rest) ending)) =
  let '(bs, e) := volcengine_event event in (mkVolcengineWire (NewReader rest ending), bs, e).
Proof. intros H. cbn [pull volcengine_source]. unfold volcengine_pull. cbn [vw_reader]. by rewrite read_head_event. Qed.

Lemma carried event piece : carries event piece -> volcengine_event event = (piece, GoesOn).
Proof.
  intros (_ & Hb & Hne & m & Hm & Hd). unfold volcengine_event. rewrite (proj2 (text_eqb_false (TrimSpace event) "") Hb), Hm, Hd. cbv zeta.
  rewrite base64_trimmed. rewrite (proj2 (text_eqb_false (base64 piece) "")) by (intros Hn; by apply Hne, base64_nil). cbn [negb].
  by rewrite DecodeString_base64.
Qed.

Lemma finish_over event : finishes event -> volcengine_event event = ([], Over).
Proof.
  intros (_ & Hb & m & Hm & Hd & Hc). unfold volcengine_event. rewrite (proj2 (text_eqb_false (TrimSpace event) "") Hb), Hm. cbv zeta.
  unfold blank in Hd. rewrite Hd. change ([] == "") with true. cbn [negb]. by rewrite Hc.
Qed.

(** The audio of a body is that of its pieces. *)
Lemma volcengine_body events pieces words ending : Forall2 carries events pieces -> closing words ending ->
  source_audio (mkVolcengineWire (NewReader (concat (map sse_event events) ++ words) ending)) = (concat pieces, None).
Proof.
  intros H Hw. induction H as [|event piece events pieces He _ IH]; cbn [map concat app].
  - destruct Hw as [|event more ending Hf]; rewrite source_audio_pull; [done|].
    rewrite volcengine_event_pull by apply Hf. by rewrite (finish_over _ Hf).
  - rewrite source_audio_pull, <- app_assoc, volcengine_event_pull by apply He. rewrite (carried _ _ He). cbv zeta beta iota. by rewrite IH.
Qed.

End VolcengineLaws.

(** What [collectAudioStream] and the worker's [prepareStreamingAudio] make of full frames. *)
Lemma collect_stream (s : AudioStream) : collectAudioStream s = Some (match ending s with EOF => Ok (concat (chunks s)) | StreamError e => Err e end).
Proof. apply (collect_returns_the_audio s []). Qed.

Lemma prepared_stream z s c cs e : c <> [] -> prepareStreamingAudio (mkStream (c :: cs) e) z s = Some (mkStream (c :: cs) e).
Proof. intros Hc. unfold prepareStreamingAudio. cbn [chunks ending nextNonEmptyChunk]. rewrite len_zero. by destruct c. Qed.

(** A synthesizer that streams what it is asked for in frames. *)
Definition frames_synthesizer (z : Synthesizer) (voice : text -> list bytes) (frameBytes : Z) : Prop :=
  forall s, ~ blank s -> exists cs, synthesizedAudioStream z s = Some (mkStream cs EOF) /\
    concat cs = concat (voice s) /\ cut_in_frames frameBytes cs false.

Lemma frames_complete z voice frameBytes : frames_synthesizer z voice frameBytes -> complete z.
Proof. intros H s Hs. destruct (H s Hs) as (cs & E & _). by exists cs. Qed.

(** The worker has every clause spoken. *)
Lemma worker_speaks z voice frameBytes clauses :
  frames_synthesizer z voice frameBytes -> Forall (fun c => TrimSpace (pc_Text c) = pc_Text c /\ pc_Text c <> []) clauses ->
  let results := runWorker z (concat (map enqueueClause clauses)) in
  concat (map (fun r => concat (chunks (q_stream r))) results) = concat (map (fun c => concat (voice (pc_Text c))) clauses) /\
  Forall (fun r => cut_in_frames frameBytes (chunks (q_stream r)) false) results.
Proof.
  intros Hz Hc. cbv zeta. induction Hc as [|c clauses [H1 H2] _ IH]; [done|]. cbn [map concat]. unfold enqueueClause at 1 3. cbv zeta. rewrite H1.
  rewrite (proj2 (text_eqb_false (pc_Text c) "") H2). cbn [app runWorker]. unfold synthesizedPlannedClauseStream. cbn [pc_Text].
  destruct (Hz (pc_Text c)) as (cs & -> & Hcs & Hf); [intros Hb; unfold blank in Hb; congruence|]. destruct IH as [I1 I2].
  cbn [map concat q_stream chunks]. rewrite Hcs, I1. split; [done|]. by constructor.
Qed.

Lemma frame_positive rate : 50 <= rate <= 2 ^ 31 -> 0 < pcm16FrameBytes rate 1.
Proof.
  intros H. unfold pcm16FrameBytes. rewrite (proj2 (Z.leb_gt rate 0)) by lia. cbn [orb]. change (1 <=? 0) with false. cbn [orb]. cbv iota.
  unfold idiv. rewrite Z.quot_div_nonneg by lia. assert (1 <= rate / 50 <= 2 ^ 31) by (Z.div_mod_to_equations; lia).
  assert (Hi : in_i64 (rate / 50)) by (unfold in_i64, min_int64, max_int64, two63; lia). rewrite (i64_id _ Hi), Z.mul_1_r, (i64_id _ Hi).
  rewrite i64_id by (unfold in_i64, min_int64, max_int64, two63; lia). lia.
Qed.

(** A service that streams the audio of every text is a synthesizer of frames. *)
Lemma service_frames {S} `{!AudioSource S} frameBytes stream whole (voice : text -> list bytes) : 0 < frameBytes ->
  (forall s, ~ blank s -> concat (voice s) <> [] /\ exists r, stream s = Ok r /\ reader_audio r = (concat (voice s), None)) ->
  frames_synthesizer (as_synthesizer frameBytes stream whole) voice frameBytes.
Proof.
  intros Hf Hv s Hs. destruct (Hv s Hs) as (Hne & r & Er & Ha). unfold synthesizedAudioStream, as_synthesizer. cbn [StreamSynthesize]. rewrite Er.
  unfold frames_of. destruct (read_frames_law frameBytes (1 + length (reader_audio r).1) r Hf) as (cs & lost & E & Hc & Hcut & Hl); [lia|].
  rewrite E. rewrite Ha in *. cbn [fst snd default] in *. rewrite (Hl eq_refl), app_nil_r in Hc. rewrite bool_decide_eq_false_2 in Hcut by tauto.
  destruct cs as [|c cs]; [done|]. change (default EOF None) with EOF. rewrite prepared_stream by (destruct Hcut as [Hcut _]; by inversion Hcut).
  by exists (c :: cs).
Qed.

(** The answer of a model, spoken by a synthesizer of frames. *)
Lemma answer_is_spoken z voice frameBytes cfg deltas final meta :
  frames_synthesizer z voice frameBytes -> Forall (fun d => TrimSpace d <> []) deltas -> concat deltas `prefix_of` final ->
  let clauses := plan_answer deltas final (NewSpeechPlanner cfg) in
  let results := answer_results z deltas final (NewSpeechPlanner cfg) in
  len results <= max_int64 ->
  exists evs, play meta results = Some (evs, PlayedOut) /\
    words (concat (map meta_Text (announcements evs))) = words final /\
    words (concat (map pc_Text clauses)) = words final /\
    audio_of evs = concat (map (fun c => concat (voice (pc_Text c))) clauses) /\
    Forall (fun r => cut_in_frames frameBytes (chunks (q_stream r)) false) results.
Proof.
  intros Hz Hd Hp. cbv zeta. intros Hl. pose proof (frames_complete _ _ _ Hz) as Hc.
  destruct (answer_is_played z cfg deltas final meta Hc Hd Hp Hl) as (evs & P1 & _ & P3 & _ & P5).
  destruct (observe_all deltas (NewSpeechPlanner cfg)) as [p early] eqn:Eo.
  destruct (plan_answer_facts cfg deltas final early p Hd Hp Eo) as (late & Hpl & Hw & _ & Hcl & _).
  destruct (worker_speaks z voice frameBytes _ Hz Hcl) as [W1 W2]. exists evs. unfold answer_results in *. by rewrite P5, W1.
Qed.

(** A Volcengine service that answers every request for a text with its audio, in
    events of its own making. *)
Definition volcengine_speaks {J : JSONDecoder} {W} `{!VendorService W} (now : instant) (z : VolcengineTTSSynthesizer) (w : W) (voice : text -> list bytes) : Prop :=
  forall req, ~ blank (sq_Text req) -> voice (sq_Text req) <> [] /\
    exists events words ending, (post (volcengine_request now z req) w).2 = Ok (mkVendorReply 200 (concat (map sse_event events) ++ words) ending) /\
      Forall2 carries events (voice (sq_Text req)) /\ closing words ending.

(** A client as [NewVolcengineTTSSynthesizer] makes it for PCM of a usable rate. *)
Definition volcengine_ready (z : VolcengineTTSSynthesizer) : Prop :=
  ~ blank (vo_AccessToken z) /\ ~ blank (vo_AppID z) /\ vo_TargetCodec z = txt "pcm16le" /\ vo_TargetChannels z = 1 /\ 50 <= vo_TargetRateHz z <= 2 ^ 31.

Lemma carried_pieces {J : JSONDecoder} events pieces : Forall2 carries events pieces -> pieces <> [] -> concat pieces <> [].
Proof. intros [|event piece events' pieces' (_ & _ & Hne & _) _] Hp; [done|]. by destruct piece. Qed.

Lemma volcengine_frames {J : JSONDecoder} {W} `{!VendorService W} now z req (w : W) voice :
  volcengine_ready z -> volcengine_speaks now z w voice ->
  frames_synthesizer (volcengine_synthesizer now z req w) voice (volcengine_frame z).
Proof.
  intros (Ha & Hi & Hc & Hch & Hr) Hv. unfold volcengine_synthesizer. apply service_frames.
  - unfold volcengine_frame. rewrite Hch. by apply frame_positive.
  - intros s Hs. destruct (Hv (with_text req s) Hs) as (Hne & events & words & ending & Hpost & Hev & Hw). cbn [with_text sq_Text] in *.
    split; [by apply carried_pieces in Hev|]. exists (mkReader (mkVolcengineWire (NewReader (concat (map sse_event events) ++ words) ending)) [] false).
    split; [|unfold reader_audio; cbn [rd_done rd_source rd_pending]; by rewrite (volcengine_body _ _ _ _ Hev Hw)].
    unfold volcengine_StreamSynthesize, volcengine_validate, refused_audio. cbn [with_text sq_Text].
    rewrite (proj2 (text_eqb_false (TrimSpace (vo_AccessToken z)) "") Ha), (proj2 (text_eqb_false (TrimSpace (vo_AppID z)) "") Hi),
      (proj2 (text_eqb_false (TrimSpace s) "") Hs), Hc, Hch. change (txt "pcm16le" != "pcm16le") with false. cbn [orb negb Z.eqb Pos.eqb].
    rewrite (proj2 (Z.leb_gt (vo_TargetRateHz z) 0)) by lia. destruct (post _ w) as [w' r]. cbn [snd] in Hpost. by rewrite Hpost.
Qed.

(** C9. From the model's answer through a speech service to the client's ear.  When
    a Volcengine service speaks every text it is asked for, whatever pieces it cuts
    the audio into and whether it says that it is done or just ends, the whole
    answer is played: what is announced is the answer up to white space, and so are
    the clauses the service was asked for; the audio played is that of the
    clauses, in order, with not a byte lost, added or moved; and every frame of a
    clause is a full one of 20 ms but the last. *)
Theorem volcengine_speaks_the_answer {J : JSONDecoder} {W} `{!VendorService W} now z req (w : W) voice cfg deltas final meta :
  volcengine_ready z -> volcengine_speaks now z w voice ->
  Forall (fun d => TrimSpace d <> []) deltas -> concat deltas `prefix_of` final ->
  let clauses := plan_answer deltas final (NewSpeechPlanner cfg) in
  let results := answer_results (volcengine_synthesizer now z req w) deltas final (NewSpeechPlanner cfg) in
  len results <= max_int64 ->
  exists evs, play meta results = Some (evs, PlayedOut) /\
    words (concat (map meta_Text (announcements evs))) = words final /\
    words (concat (map pc_Text clauses)) = words final /\
    audio_of evs = concat (map (fun c => concat (voice (pc_Text c))) clauses) /\
    Forall (fun r => cut_in_frames (pcm16FrameBytes (vo_TargetRateHz z) 1) (chunks (q_stream r)) false) results.
Proof.
  intros Hz Hv Hd Hp. cbv zeta. intros Hl. pose proof (answer_is_spoken _ voice (volcengine_frame z) cfg deltas final meta (volcengine_frames now z req w voice Hz Hv) Hd Hp Hl) as H.
  unfold volcengine_frame in H. destruct Hz as (_ & _ & _ & Hch & _). by rewrite Hch in H.
Qed.

(** ** The other services *)

Section IflytekLaws.

Context {J : JSONDecoder} {W : Type} {Socket : SocketService W}.

(** The messages to come carry these pieces; the last says that it is the last. *)
Inductive iflytek_says : W -> list bytes -> Prop :=
| says_last w w' message piece :
    readJSONWebsocketMessage w = (w', Ok message) -> bad_code message = None ->
    asString (field "audio" (asMap (field "data" message))) = base64 piece -> piece <> [] ->
    asInt (field "status" (asMap (field "data" message))) = Some 2 -> iflytek_says w [piece]
| says_more w w' message piece pieces :
    readJSONWebsocketMessage w = (w', Ok message) -> bad_code message = None ->
    asString (field "audio" (asMap (field "data" message))) = base64 piece -> piece <> [] ->
    asInt (field "status" (asMap (field "data" message))) <> Some 2 -> iflytek_says w' pieces -> iflytek_says w (piece :: pieces).

Lemma iflytek_piece data piece : asString (field "audio" data) = base64 piece -> piece <> [] ->
  iflytek_data data = (piece, if bool_decide (asInt (field "status" data) = Some 2) then Over else GoesOn).
Proof.
  intros Hd Hne. unfold iflytek_data. cbv zeta. rewrite Hd, base64_trimmed, (proj2 (text_eqb_false (base64 piece) "")) by (intros Hn; by apply Hne, base64_nil).
  cbn [negb]. by rewrite DecodeString_base64.
Qed.

Lemma iflytek_audio w pieces : iflytek_says w pieces -> source_audio (mkIflytekWire w) = (concat pieces, None).
Proof.
  induction 1 as [w w' m piece Hm Hc Hd Hne Hs|w w' m piece pieces Hm Hc Hd Hne Hs _ IH];
    rewrite source_audio_pull; cbn [pull iflytek_source]; unfold iflytek_pull; cbn [iw_conn]; rewrite Hm, Hc, (iflytek_piece _ piece Hd Hne).
  - rewrite bool_decide_eq_true_2 by done. cbn [concat]. by rewrite app_nil_r.
  - rewrite bool_decide_eq_false_2 by done. by rewrite IH.
Qed.

Definition iflytek_ready (z : IflytekTTSSynthesizer) : Prop :=
  ~ blank (it_AppID z) /\ ~ blank (it_APIKey z) /\ ~ blank (it_APISecret z) /\ it_TargetCodec z = txt "pcm16le" /\ it_TargetChannels z = 1 /\
  50 <= it_TargetRateHz z <= 2 ^ 31.

(** The service takes the request for every text and speaks it. *)
Definition iflytek_speaks `{!SigningKit} (date : text) (z : IflytekTTSSynthesizer) (w : W) (voice : text -> list bytes) : Prop :=
  forall req, ~ blank (sq_Text req) ->
    let query := buildIflytekTTSQuery date (it_APIKey z) (it_APISecret z) (it_Host z) (it_Path z) in
    exists w1 w2, ws_dial (buildIflytekTTSURL (it_Scheme z) (it_Host z) (it_Port z) (it_Path z) query) w = (w1, None) /\
      WriteJSON (iflytek_payload z req) w1 = (w2, None) /\ iflytek_says w2 (voice (sq_Text req)).

(** So every answer is spoken through it too, by [answer_is_spoken]. *)
Lemma iflytek_frames `{!SigningKit} date z req w voice :
  iflytek_ready z -> iflytek_speaks date z w voice ->
  frames_synthesizer (iflytek_synthesizer date z req w) voice (iflytek_frame z).
Proof.
  intros (Ha & Hk & Hx & Hc & Hch & Hr) Hv. unfold iflytek_synthesizer. apply service_frames.
  - unfold iflytek_frame. rewrite Hch. by apply frame_positive.
  - intros s Hs. destruct (Hv (with_text req s) Hs) as (w1 & w2 & Hdial & Hwrite & Hsays). cbn [with_text sq_Text] in Hsays.
    split; [|exists (mkReader (mkIflytekWire w2) [] false); split].
    + inversion Hsays as [? ? ? piece|? ? ? piece]; subst; cbn [concat]; by destruct piece.
    + unfold iflytek_StreamSynthesize, iflytek_validate, refused_audio. cbn [with_text sq_Text].
      rewrite (proj2 (text_eqb_false (TrimSpace (it_AppID z)) "") Ha), (proj2 (text_eqb_false (TrimSpace (it_APIKey z)) "") Hk),
        (proj2 (text_eqb_false (TrimSpace (it_APISecret z)) "") Hx), (proj2 (text_eqb_false (TrimSpace s) "") Hs), Hc, Hch.
      change (txt "pcm16le" != "pcm16le") with false. cbn [orb negb Z.eqb Pos.eqb]. rewrite (proj2 (Z.leb_gt (it_TargetRateHz z) 0)) by lia.
      cbv zeta. by rewrite Hdial, Hwrite.
    + unfold reader_audio. cbn [rd_done rd_source rd_pending]. by rewrite (iflytek_audio _ _ Hsays).
Qed.

End IflytekLaws.

Section MimoLaws.

Context {J : JSONDecoder}.

(** An event with pieces wherever the collection finds them. *)
Definition mimo_carries (event : text) (pieces : list bytes) : Prop :=
  one_line event /\ ~ blank event /\ TrimSpace event <> txt "[DONE]" /\ extractMimoAudioData (TrimSpace event) = Ok (map base64 pieces).

Inductive mimo_last_words : text -> stream_error -> Prop :=
| mimo_ends : mimo_last_words [] EOF
| mimo_done more ending : mimo_last_words (sse_event "[DONE]" ++ more) ending.

Lemma decode_coded pieces : decode_pieces (map base64 pieces) = (concat pieces, GoesOn).
Proof. induction pieces as [|piece pieces IH]; [done|]. cbn [map decode_pieces concat]. by rewrite DecodeString_base64, IH. Qed.

Lemma mimo_event_pull event rest ending : one_line event ->
  pull (mkMimoWire (NewReader (sse_event event ++ rest) ending)) =
  let '(bs, e) := mimo_event event in (mkMimoWire (NewReader rest ending), bs, e).
Proof. intros He. cbn [pull mimo_source]. unfold mimo_pull, readNextEvent. cbn [mw_reader]. by rewrite read_head_event. Qed.

Lemma mimo_carried event pieces : mimo_carries event pieces -> mimo_event event = (concat pieces, GoesOn).
Proof.
  intros (_ & Hb & Hd & He). unfold mimo_event. cbv zeta. rewrite (proj2 (text_eqb_false (TrimSpace event) "") Hb).
  rewrite (proj2 (text_eqb_false (TrimSpace event) "[DONE]") Hd), He. apply decode_coded.
Qed.

Lemma mimo_audio_of_body events pieces words ending : Forall2 mimo_carries events pieces -> mimo_last_words words ending ->
  source_audio (mkMimoWire (NewReader (concat (map sse_event events) ++ words) ending)) = (concat (concat pieces), None).
Proof.
  intros Hp Hw. induction Hp as [|event ps events pieces He _ IH]; cbn [map concat app].
  - destruct Hw as [|more ending]; rewrite source_audio_pull; [done|]. rewrite mimo_event_pull by by repeat constructor.
    change (mimo_event "[DONE]") with (@nil byte, Over). done.
  - rewrite source_audio_pull, <- app_assoc, mimo_event_pull by apply He. rewrite (mimo_carried _ _ He). cbv zeta beta iota.
    by rewrite IH, concat_app.
Qed.

End MimoLaws.

(** The audio of a choice's message, of its delta, and of an event of its own. *)
Example collectAudioData_examples :
  let audio d := AMap [(txt "id", AString "x"); (txt "audio", AMap [(txt "data", AString d)])] in
  map (fun v => collectAudioData v false)
    [AMap [(txt "choices", AList [AMap [(txt "delta", audio (txt " QQ== "))]; AMap [(txt "message", audio (txt "Qg=="))]])];
     AMap [(txt "type", AString "response.Audio.delta"); (txt "delta", AString "Qw==")];
     AMap [(txt "data", AString "RA==")]]
  = [texts ["QQ=="; "Qg=="]; texts ["Qw=="]; []].
Proof. vm_compute. reflexivity. Qed.

(** ** A stream that has no end

    A rate below 50 Hz is accepted by [validate], but a frame of 20 ms of it has no
    bytes: [Next] never reads and answers an empty chunk for ever, and
    [collectAudioStream] does not return. *)
Lemma empty_frames_never_end {S} `{!AudioSource S} frameBytes n (r : frame_reader S) :
  frameBytes <= 0 -> rd_done r = false -> rd_pending r = [] -> cut_frame [] frameBytes = ([], []) -> read_frames frameBytes n r = None.
Proof.
  intros Hf Hd Hp Hcut. revert r Hd Hp. induction n as [|n IH]; intros r Hd Hp; [done|]. cbn [read_frames]. unfold frame_Next.
  assert (refill frameBytes (2 + on_the_wire (rd_source r)) r = (r, None)) as ->.
  { cbn [Nat.add refill]. rewrite Hp. change (len []) with 0. by rewrite (proj2 (Z.ltb_ge 0 frameBytes)). }
  rewrite Hp, Hd, Hcut. rewrite andb_false_r. by rewrite IH.
Qed.

Lemma tiny_rate_never_ends {J : JSONDecoder} {W} `{!VendorService W} now z req (w : W) resp :
  volcengine_validate z req = None -> vo_TargetRateHz z < 50 ->
  (post (volcengine_request now z req) w).2 = Ok resp -> vr_Status resp = 200 -> (volcengine_Synthesize now z req w).2 = None.
Proof.
  intros Hz Hr Hp Hs. unfold volcengine_Synthesize, volcengine_StreamSynthesize. rewrite Hz. destruct (post _ w) as [w' r]. cbn [snd] in Hp. rewrite Hp, Hs.
  change (negb (200 =? 200)) with false. cbn [snd]. unfold collected, frames_of.
  assert (volcengine_frame z = 0) as ->; [|by rewrite empty_frames_never_end].
  unfold volcengine_frame, pcm16FrameBytes. destruct (_ || _) eqn:E; [done|]. apply orb_false_iff in E as [E _].
  assert (idiv (vo_TargetRateHz z) 50 = 0) as -> by (unfold idiv; by rewrite Z.quot_small by lia). by vm_compute.
Qed.

(** ** A service that says the same to everything *)

(** Events are objects with one field: the audio, or the code. *)
Definition demo_object (key value : text) : text := txt "{" ++ quoted key ++ txt ":" ++ value ++ txt "}".

Definition demo_json : JSONDecoder := {|
  decode_map s := if s == demo_object "code" "20000000" then Ok [(txt "code", ANumber (f_of_Z 20000000))]
                  else if HasPrefix s (txt "{" ++ quoted "data" ++ txt ":") then
                    Ok [(txt "data", AString (Trim (TrimPrefix s (txt "{" ++ quoted "data" ++ txt ":")) ([34] ++ txt "}")))]
                  else Err (txt "invalid character");
  decode_any s := Err (txt "invalid character")
|}.

Definition demo_pieces : list bytes := [repeat Byte.x2a 1000; repeat Byte.x17 300; repeat Byte.x2a 700].

Definition demo_event (piece : bytes) : text := demo_object "data" (quoted (base64 piece)).

Definition demo_vendor_events : list text := map demo_event demo_pieces.

Definition demo_vendor : VendorService unit := {|
  post _ w := (w, Ok (mkVendorReply 200 (concat (map sse_event demo_vendor_events) ++ sse_event (demo_object "code" "20000000") ++ txt "data: x") EOF))
|}.

Definition demo_voice (s : text) : list bytes := demo_pieces.

Definition demo_volcengine : VolcengineTTSSynthesizer :=
  NewVolcengineTTSSynthesizer (mkVolcengine "" " token " "app" "" "" 0 0 "" 0 "" "" 0 0 0).

Lemma demo_ready : volcengine_ready demo_volcengine.
Proof. repeat split; by vm_compute. Qed.

Lemma one_line_check data :
  forallb (fun r => negb (r =? 10)) data && (TrimRight data line_end == data) && (TrimLeftFunc (ContainsRune " ") data == data) = true -> one_line data.
Proof.
  rewrite !andb_true_iff, !text_eqb_true. intros [[H1 H2] H3]. split; [|done]. apply Forall_forall. intros r Hr.
  rewrite forallb_forall in H1. apply list_elem_of_In in Hr. specialize (H1 r Hr). apply negb_true_iff in H1. lia.
Qed.

Lemma demo_event_carries piece : piece <> [] ->
  forallb (fun r => negb (r =? 10)) (demo_event piece) && (TrimRight (demo_event piece) line_end == demo_event piece) &&
    (TrimLeftFunc (ContainsRune " ") (demo_event piece) == demo_event piece) = true ->
  (TrimSpace (demo_event piece) == "") = false ->
  @decode_map demo_json (demo_event piece) = Ok [(txt "data", AString (base64 piece))] ->
  @carries demo_json (demo_event piece) piece.
Proof.
  intros Hne H1 H2 H3. split; [by apply one_line_check|]. split; [by apply text_eqb_false in H2|]. split; [done|].
  by exists [(txt "data", AString (base64 piece))].
Qed.

Lemma demo_carried : Forall2 (@carries demo_json) demo_vendor_events demo_pieces.
Proof. unfold demo_vendor_events, demo_pieces. cbn [map]. repeat (apply Forall2_cons; split; [apply demo_event_carries; [done|vm_compute; reflexivity..]|]). constructor. Qed.

Lemma demo_finishes : @finishes demo_json (demo_object "code" "20000000").
Proof.
  split; [apply one_line_check; vm_compute; reflexivity|]. split; [by vm_compute|]. exists [(txt "code", ANumber (f_of_Z 20000000))].
  split; [vm_compute; reflexivity|]. split; vm_compute; reflexivity.
Qed.

Lemma demo_speaks now : @volcengine_speaks demo_json unit demo_vendor now demo_volcengine tt demo_voice.
Proof.
  intros req _. split; [done|]. exists demo_vendor_events, (sse_event (demo_object "code" "20000000") ++ txt "data: x"), EOF. split; [done|].
  split; [exact demo_carried|]. constructor. exact demo_finishes.
Qed.

Lemma volcengine_speaks_the_answer_witness :
  let deltas := texts ["好的，我来帮你看一下。今"; "天天气"; "很好"] in
  let final := txt "好的，我来帮你看一下。今天天气很好，适合出门。" in
  let z := @volcengine_synthesizer demo_json unit demo_vendor 7 demo_volcengine (mkSynthesisRequest "s" "t" "" "d" "" "") tt in
  let clauses := plan_answer deltas final demo_planner in
  let results := answer_results z deltas final demo_planner in
  map (fun r => map length (chunks (q_stream r))) results = [[640; 640; 640; 80]; [640; 640; 640; 80]]%nat /\
  exists evs, play demo_meta results = Some (evs, PlayedOut) /\
    words (concat (map meta_Text (announcements evs))) = words final /\
    words (concat (map pc_Text clauses)) = words final /\
    audio_of evs = concat (map (fun c => concat (demo_voice (pc_Text c))) clauses) /\
    Forall (fun r => cut_in_frames (pcm16FrameBytes (vo_TargetRateHz demo_volcengine) 1) (chunks (q_stream r)) false) results.
Proof.
  cbv zeta. set (results := answer_results _ _ _ _).
  assert (Hlen : map (fun r => map length (chunks (q_stream r))) results = [[640; 640; 640; 80]; [640; 640; 640; 80]]%nat) by (vm_compute; reflexivity).
  split; [exact Hlen|].
  apply (@volcengine_speaks_the_answer demo_json unit demo_vendor 7 demo_volcengine (mkSynthesisRequest "s" "t" "" "d" "" "") tt demo_voice
    (mkPlannerConfig true 0 0) (texts ["好的，我来帮你看一下。今"; "天天气"; "很好"]) (txt "好的，我来帮你看一下。今天天气很好，适合出门。") demo_meta).
  - exact demo_ready.
  - exact (demo_speaks 7).
  - repeat constructor; by vm_compute.
  - exists (txt "，适合出门。"). vm_compute. reflexivity.
  - change (len results <= max_int64). apply (f_equal length) in Hlen. rewrite length_map in Hlen. unfold len. rewrite Hlen. by vm_compute.
Defined.
