(* ===== verification/IflytekRecognizer.v ===== *)
(** * A recognizer behind a WebSocket (internal/voice/iflytek_rtasr.go)

    The client of a real-time recognizer: the audio is sent in frames, and what
    comes back is put together segment by segment until the last one.  The pace of
    the frames is left out, and the readings of the clock are arguments. *)

From stdpp Require Import sorting gmap.
From S2P Require Import Prelude GoText GoUnicode GoOrder GoJSON GoFloat Contracts Audio TurnDetector PreviewPipeline Transcription SpeechWire.

(** ** The client *)

Definition defaultIflytekRTASRScheme : text := "ws".
Definition defaultIflytekRTASRHost : text := "office-api-ast-dx.iflyaisol.com".
Definition defaultIflytekRTASRPath : text := "/ast/communicate/v1".
Definition defaultIflytekRTASRAudioEncode : text := "pcm_s16le".
Definition defaultIflytekRTASRLanguage : text := "autodialect".
Definition defaultIflytekRTASRSampleRateHz : Z := 16000.
Definition defaultIflytekRTASRFrameBytes : Z := 1280.
Definition defaultIflytekRTASRFrameInterval : duration := 40 * Millisecond.
Definition defaultIflytekRTASRTimeout : duration := 30 * Second.

(** The configuration has the same fields. *)
Record IflytekRTASRTranscriber := mkIflytekRTASR {
  ir_AppID : text;
  ir_AccessKeyID : text;
  ir_AccessKeySecret : text;
  ir_Scheme : text;
  ir_Host : text;
  ir_Port : Z;
  ir_Path : text;
  ir_AudioEncode : text;
  ir_Language : text;
  ir_SampleRateHz : Z;
  ir_Timeout : duration;
  ir_FrameBytes : Z;
  ir_FrameInterval : duration
}.

Definition NewIflytekRTASRTranscriber (cfg : IflytekRTASRTranscriber) : IflytekRTASRTranscriber :=
  let scheme := ToLower (TrimSpace (ir_Scheme cfg)) in
  let scheme := if scheme == "" then defaultIflytekRTASRScheme else scheme in
  let or_default n fallback := if n <=? 0 then fallback else n in
  mkIflytekRTASR (TrimSpace (ir_AppID cfg)) (TrimSpace (ir_AccessKeyID cfg)) (TrimSpace (ir_AccessKeySecret cfg)) scheme
    (TrimSpace (ir_Host cfg)) (if ir_Port cfg <=? 0 then (if scheme == "wss" then 443 else 80) else ir_Port cfg) (TrimSpace (ir_Path cfg))
    (firstNonEmpty [TrimSpace (ir_AudioEncode cfg); defaultIflytekRTASRAudioEncode])
    (firstNonEmpty [TrimSpace (ir_Language cfg); defaultIflytekRTASRLanguage])
    (or_default (ir_SampleRateHz cfg) defaultIflytekRTASRSampleRateHz) (or_default (ir_Timeout cfg) defaultIflytekRTASRTimeout)
    (or_default (ir_FrameBytes cfg) defaultIflytekRTASRFrameBytes) (or_default (ir_FrameInterval cfg) defaultIflytekRTASRFrameInterval).

(** The host and the path it defaults are those of its own copy of the client. *)
Definition rtasr_validate (t : IflytekRTASRTranscriber) (req : TranscriptionRequest) : option text :=
  if (TrimSpace (ir_AppID t) == "") || (TrimSpace (ir_AccessKeyID t) == "") || (TrimSpace (ir_AccessKeySecret t) == "")
  then Some (txt "iflytek rtasr credentials are incomplete")
  else if (TrimSpace (tq_Codec req) != "") && negb (EqualFold (TrimSpace (tq_Codec req)) "pcm16le")
  then Some (txt "iflytek rtasr expects pcm16le input, got " ++ tq_Codec req)
  else if (0 <? tq_Channels req) && negb (tq_Channels req =? 1)
  then Some (txt "iflytek rtasr expects mono input, got " ++ Itoa (tq_Channels req) ++ txt " channels")
  else if (0 <? tq_SampleRateHz req) && negb (tq_SampleRateHz req =? ir_SampleRateHz t)
  then Some (txt "iflytek rtasr expects " ++ Itoa (ir_SampleRateHz t) ++ txt " Hz input, got " ++ Itoa (tq_SampleRateHz req))
  else if len (tq_AudioPCM req) =? 0 then Some (txt "iflytek rtasr audio payload is empty")
  else None.

(** [utc] is the time in Beijing, [uuid] the nanoseconds in hexadecimal. *)
Definition buildIflytekRTASRQuery `{!SigningKit} (utc uuid appID accessKeyID accessKeySecret audioEncode language sampleRate : text) : text :=
  let params := [(txt "accessKeyId", accessKeyID); (txt "appId", appID); (txt "audio_encode", audioEncode); (txt "lang", language);
                 (txt "samplerate", sampleRate); (txt "utc", utc); (txt "uuid", uuid)] in
  let signature := base64 (hmac_sha1 accessKeySecret (query_pairs (merge_sort key_le params))) in
  Values_Encode ((txt "signature", signature) :: params).

Definition buildIflytekRTASRURL `{!SigningKit} (scheme host : text) (port : Z) (path rawQuery : text) : text :=
  let host := firstNonEmpty [TrimSpace host; defaultIflytekRTASRHost] in
  let path := firstNonEmpty [TrimSpace path; defaultIflytekRTASRPath] in
  let port := if port <=? 0 then (if scheme == "wss" then 443 else 80) else port in
  let scheme := firstNonEmpty [TrimSpace scheme; defaultIflytekRTASRScheme] in
  URL_String scheme (host_with_port scheme host port) path rawQuery.

(** ** What is sent *)

Section Sent.

Context {W : Type} `{!SocketService W}.

(** [fuel] counts the frames. *)
Fixpoint write_frames (fuel : nat) (audioPCM : bytes) (frameBytes : Z) (w : W) : W * option text :=
  match fuel, audioPCM with
  | S fuel, _ :: _ =>
      match ws_write (BinaryFrame (take (Z.to_nat frameBytes) audioPCM)) w with
      | (w, Some e) => (w, Some e)
      | (w, None) => write_frames fuel (drop (Z.to_nat frameBytes) audioPCM) frameBytes w
      end
  | _, _ => (w, None)
  end.

Definition writeIflytekRTASRAudio (audioPCM : bytes) (frameBytes : Z) (w : W) : W * option text :=
  let frameBytes := if frameBytes <=? 0 then defaultIflytekRTASRFrameBytes else frameBytes in
  write_frames (length audioPCM) audioPCM frameBytes w.

Definition end_payload (sessionID : text) : json :=
  JMap ([(txt "end", JBool true)] ++ (if sessionID != "" then [(txt "sessionId", JString sessionID)] else [])).

End Sent.

(** ** What comes back *)

(** The first word of a group that is not blank. *)
Fixpoint first_word (cwItems : list any) : list text :=
  match cwItems with
  | [] => []
  | cwItem :: rest => let token := asString (field "w" (asMap cwItem)) in if TrimSpace token != "" then [token] else first_word rest
  end.

Definition extractIflytekRTASRText (message : list (text * any)) : text :=
  let data := asMap (field "data" message) in
  let directText := asString (field "text" data) in
  if TrimSpace directText != "" then TrimSpace directText
  else
    let st := asMap (field "st" (asMap (field "cn" data))) in
    let wsItems := concat (map (fun rtItem => asList (field "ws" (asMap rtItem))) (asList (field "rt" st))) in
    concat (concat (map (fun wsItem => first_word (asList (field "cw" (asMap wsItem)))) wsItems)).

Definition extractIflytekRTASRSegmentID (message : list (text * any)) : option Z := asInt (field "seg_id" (asMap (field "data" message))).

Definition extractIflytekRTASRLastSegment (message : list (text * any)) : bool :=
  match field "ls" (asMap (field "data" message)) with ABool b => b | _ => false end.

(** What has been heard: the segments that have an id, those that have none, and
    all texts in the order they came. *)
Record rtasr_heard := mkHeard { segmentsByID : gmap Z text; trailingSegments : list text; rt_partials : list text }.

Definition hear_message (message : list (text * any)) (h : rtasr_heard) : rtasr_heard :=
  let s := TrimSpace (extractIflytekRTASRText message) in
  if s != "" then
    match extractIflytekRTASRSegmentID message with
    | Some segID => mkHeard (<[segID := s]> (segmentsByID h)) (trailingSegments h) (rt_partials h ++ [s])
    | None => mkHeard (segmentsByID h) (trailingSegments h ++ [s]) (rt_partials h ++ [s])
    end
  else h.

(** The error a message reports. *)
Definition reported (message : list (text * any)) : option text :=
  if EqualFold (asString (field "action" message)) "error" then Some (txt "iflytek rtasr returned action=error")
  else match asInt (field "code" message) with
       | Some code => if negb (code =? 0) then Some (txt "iflytek rtasr returned code=" ++ Itoa code) else None
       | None => None
       end.

Definition segments_of (h : rtasr_heard) : list text :=
  List.filter (fun s => s != "") (map (fun id => TrimSpace (default [] (segmentsByID h !! id))) (merge_sort Z.le (elements (dom (segmentsByID h))))) ++
  trailingSegments h.

Definition pcm16DurationMs (audioPCM : bytes) (sampleRateHz channels : Z) : Z :=
  if (sampleRateHz <=? 0) || (channels <=? 0) || (len audioPCM =? 0) then 0
  else
    let samples := idiv (idiv (len audioPCM) 2) channels in
    if samples <=? 0 then 0 else idiv (i64 (samples * 1000)) sampleRateHz.

Section Recognizer.

Context {J : JSONDecoder} {W : Type} {Socket : SocketService W}.

(** The loop; [fuel] counts the messages. *)
Fixpoint listen (fuel : nat) (h : rtasr_heard) (w : W) : option (W * result text rtasr_heard) :=
  match fuel with
  | O => None
  | S fuel =>
      match readJSONWebsocketMessage w with
      | (w, Err e) => Some (w, Err e)
      | (w, Ok message) =>
          match reported message with
          | Some e => Some (w, Err e)
          | None =>
              let h := hear_message message h in
              if extractIflytekRTASRLastSegment message then Some (w, Ok h) else listen fuel h w
          end
      end
  end.

Definition rtasr_result (t : IflytekRTASRTranscriber) (req : TranscriptionRequest) (h : rtasr_heard) : TranscriptionResult :=
  let segments := segments_of h in
  mkTranscription (concat segments) segments (pcm16DurationMs (tq_AudioPCM req) (ir_SampleRateHz t) 1) 0 "iflytek_rtasr" "cloud"
    (firstNonEmpty [TrimSpace (tq_Language req); TrimSpace (ir_Language t)]) "" "" [] "last_segment" (rt_partials h) "".

Definition rtasr_url `{!SigningKit} (utc uuid : text) (t : IflytekRTASRTranscriber) : text :=
  buildIflytekRTASRURL (ir_Scheme t) (ir_Host t) (ir_Port t) (ir_Path t)
    (buildIflytekRTASRQuery utc uuid (ir_AppID t) (ir_AccessKeyID t) (ir_AccessKeySecret t) (ir_AudioEncode t) (ir_Language t) (Itoa (ir_SampleRateHz t))).

(** The conversation; nothing when it has no end. *)
Definition rtasr_Transcribe `{!SigningKit} (utc uuid : text) (t : IflytekRTASRTranscriber) (req : TranscriptionRequest) (w : W)
    : option (W * result text TranscriptionResult) :=
  match rtasr_validate t req with
  | Some e => Some (w, Err e)
  | None =>
  match ws_dial (rtasr_url utc uuid t) w with
  | (w, Some e) => Some (w, Err e)
  | (w, None) =>
  match readJSONWebsocketMessage w with
  | (w, Err e) => Some (w, Err e)
  | (w, Ok started) =>
      let sessionID := asString (field "sessionId" (asMap (field "data" started))) in
      match writeIflytekRTASRAudio (tq_AudioPCM req) (ir_FrameBytes t) w with
      | (w, Some e) => Some (w, Err e)
      | (w, None) =>
          match WriteJSON (end_payload sessionID) w with
          | (w, Some e) => Some (w, Err e)
          | (w, None) =>
              option_map (fun '(w, r) => (w, match r with Ok h => Ok (rtasr_result t req h) | Err e => Err e end))
                (listen (1 + ws_to_come w) (mkHeard ∅ [] []) w)
          end
      end
  end end end.

End Recognizer.

(** ** What was said *)

(** The texts of a conversation, each with the id of its segment if it has one. *)
Definition said_in (message : list (text * any)) : list (option Z * text) :=
  let s := TrimSpace (extractIflytekRTASRText message) in
  if s != "" then [(extractIflytekRTASRSegmentID message, s)] else [].

Definition texts_said (ms : list (list (text * any))) : list (option Z * text) := concat (map said_in ms).

Definition said_for (id : option Z) (said : list (option Z * text)) : list text :=
  map snd (filter (fun p => p.1 = id) said).

(** What a transcript is: for every id that was spoken of, in order, the last text
    said for it; and then the texts that came without an id. *)
Definition transcript (said : list (option Z * text)) (segments : list text) : Prop :=
  exists ids named, StronglySorted Z.le ids /\ NoDup ids /\ (forall i, i ∈ ids <-> said_for (Some i) said <> []) /\
    Forall2 (fun i s => last (said_for (Some i) said) = Some s) ids named /\ segments = named ++ said_for None said.

Definition heard_of (said : list (option Z * text)) (h : rtasr_heard) : Prop :=
  (forall i, segmentsByID h !! i = last (said_for (Some i) said)) /\ trailingSegments h = said_for None said /\ rt_partials h = map snd said /\
  Forall (fun p => TrimSpace p.2 = p.2 /\ p.2 <> []) said.

Lemma said_for_app id said said' : said_for id (said ++ said') = said_for id said ++ said_for id said'.
Proof. unfold said_for. by rewrite filter_app, map_app. Qed.

Lemma hear_message_law message said h : heard_of said h -> heard_of (said ++ said_in message) (hear_message message h).
Proof.
  intros (H1 & H2 & H3 & H4). unfold hear_message, said_in. cbv zeta. set (s := TrimSpace (extractIflytekRTASRText message)).
  destruct (s != "") eqn:E; [|by rewrite app_nil_r]. apply negb_true_iff, text_eqb_false in E. unfold heard_of.
  assert (H5 : Forall (fun p : option Z * text => TrimSpace p.2 = p.2 /\ p.2 <> []) [(extractIflytekRTASRSegmentID message, s)]).
  { constructor; [|constructor]. split; [apply trimmed_TrimSpace|done]. }
  destruct (extractIflytekRTASRSegmentID message) as [id|]; cbn [segmentsByID trailingSegments rt_partials]; setoid_rewrite said_for_app.
  - split; [|split; [|split; [|by apply Forall_app]]].
    + intros i. unfold said_for at 2. rewrite filter_cons, filter_nil. case_decide as Hi; cbn [map fst snd] in *.
      * injection Hi as ->. rewrite lookup_insert_eq. by rewrite last_snoc.
      * rewrite lookup_insert_ne by congruence. by rewrite app_nil_r.
    + unfold said_for at 2. rewrite filter_cons_False, filter_nil by done. by rewrite app_nil_r.
    + by rewrite H3, map_app.
  - split; [|split; [|split; [|by apply Forall_app]]].
    + intros i. unfold said_for at 2. rewrite filter_cons_False, filter_nil by done. cbn [map]. by rewrite app_nil_r.
    + unfold said_for at 2. rewrite filter_cons_True, filter_nil by done. by rewrite H2.
    + by rewrite H3, map_app.
Qed.

Lemma heard_of_nothing : heard_of [] (mkHeard ∅ [] []).
Proof. split; [done|]. by repeat split. Qed.

(** What has been heard is put together as the transcript. *)
Lemma segments_law said h : heard_of said h -> transcript said (segments_of h).
Proof.
  intros (H1 & H2 & H3 & H4). set (ids := merge_sort Z.le (elements (dom (segmentsByID h)))).
  assert (Hin : forall i, i ∈ ids <-> said_for (Some i) said <> []).
  { intros i. unfold ids. rewrite merge_sort_Permutation, elem_of_elements, elem_of_dom, H1.
    destruct (said_for (Some i) said) as [|s l] eqn:E; [split; [intros [? Hx]; done|done]|].
    split; [done|]. intros _. destruct (last_is_Some (s :: l)) as [_ Hl]. by apply Hl. }
  exists ids, (map (fun i => default [] (segmentsByID h !! i)) ids).
  assert (Hall : Forall (fun i => exists s, last (said_for (Some i) said) = Some s /\ TrimSpace s = s /\ s <> []) ids).
  { apply Forall_forall. intros i Hi%Hin. destruct (last (said_for (Some i) said)) as [s|] eqn:E; [|by apply last_None in E].
    exists s. split; [done|]. apply last_Some_elem_of in E. unfold said_for in E. apply list_elem_of_fmap in E as ([id t] & -> & Ht).
    apply list_elem_of_filter in Ht as [_ Ht]. rewrite Forall_forall in H4. by specialize (H4 _ Ht). }
  split; [apply (StronglySorted_merge_sort Z.le)|]. split; [unfold ids; rewrite merge_sort_Permutation; apply NoDup_elements|]. split; [done|].
  split.
  - clear Hin. induction Hall as [|i ids' (s & E & _) _ IH]; cbn [map]; constructor; [by rewrite H1, E|done].
  - unfold segments_of. fold ids. rewrite H2. f_equal. clear Hin. induction Hall as [|i ids' (s & E & Ht & Hne) _ IH]; [done|]. cbn [map List.filter].
    rewrite H1, E. change (default [] (Some s)) with s. rewrite Ht, (proj2 (text_eqb_false s "") Hne). cbn [negb]. by rewrite IH.
Qed.

(** ** The frames *)

Section Conversation.

Context {W : Type} {Socket : SocketService W}.

Fixpoint send_all (frames : list ws_frame) (w : W) : W * option text :=
  match frames with
  | [] => (w, None)
  | f :: frames => match ws_write f w with (w, Some e) => (w, Some e) | (w, None) => send_all frames w end
  end.

Lemma send_all_app frames frames' w :
  send_all (frames ++ frames') w = match send_all frames w with (w, Some e) => (w, Some e) | (w, None) => send_all frames' w end.
Proof. revert w. induction frames as [|f frames IH]; intros w; [done|]. cbn [app send_all]. destruct (ws_write f w) as [w' [e|]]; [done|apply IH]. Qed.

(** The audio is sent whole, in order, in full frames but the last. *)
Definition sent_whole (frameBytes : Z) (audio : bytes) (cs : list bytes) : Prop :=
  concat cs = audio /\ Forall (fun c => 0 < len c <= frameBytes) cs /\ Forall (fun c => len c = frameBytes) (removelast cs).

Lemma frames_sent fuel audio frameBytes : 0 < frameBytes -> (length audio <= fuel)%nat ->
  exists cs, sent_whole frameBytes audio cs /\ forall w, write_frames fuel audio frameBytes w = send_all (map BinaryFrame cs) w.
Proof.
  intros Hf. revert audio. induction fuel as [|fuel IH]; intros [|b audio] Hn; cbn [length] in Hn; [by exists []|lia|by exists []|].
  destruct (IH (drop (Z.to_nat frameBytes) (b :: audio))) as (cs & (C1 & C2 & C3) & Hw); [rewrite length_drop; cbn [length]; lia|].
  exists (take (Z.to_nat frameBytes) (b :: audio) :: cs). split.
  - split; [cbn [concat]; by rewrite C1, take_drop|]. split.
    + constructor; [|done]. unfold len. rewrite length_take. cbn [length]. lia.
    + destruct cs as [|c cs]; [done|]. cbn [removelast]. constructor; [|done]. apply Forall_cons in C2 as [C2 _].
      assert (Hd : (0 < length (drop (Z.to_nat frameBytes) (b :: audio)))%nat) by (rewrite <- C1; unfold len in C2; cbn [concat]; rewrite length_app; lia).
      rewrite length_drop in Hd. unfold len. rewrite length_take. lia.
  - intros w. cbn [write_frames map send_all]. destruct (ws_write _ w) as [w' [e|]]; [done|apply Hw].
Qed.

Definition frame_size (t : IflytekRTASRTranscriber) : Z := if ir_FrameBytes t <=? 0 then defaultIflytekRTASRFrameBytes else ir_FrameBytes t.

Lemma audio_sent t audio : exists cs, sent_whole (frame_size t) audio cs /\ forall w, writeIflytekRTASRAudio audio (ir_FrameBytes t) w = send_all (map BinaryFrame cs) w.
Proof. unfold writeIflytekRTASRAudio. cbv zeta. apply frames_sent; [|done]. unfold frame_size, defaultIflytekRTASRFrameBytes. destruct (Z.leb_spec (ir_FrameBytes t) 0); lia. Qed.

(** ** The conversation *)

Context {J : JSONDecoder}.

(** Messages without an error, of which the last says that it is. *)
Inductive replies : W -> list (list (text * any)) -> W -> Prop :=
| replies_last w w' m : readJSONWebsocketMessage w = (w', Ok m) -> reported m = None -> extractIflytekRTASRLastSegment m = true -> replies w [m] w'
| replies_more w w' w'' m ms : readJSONWebsocketMessage w = (w', Ok m) -> reported m = None -> extractIflytekRTASRLastSegment m = false ->
    replies w' ms w'' -> replies w (m :: ms) w''.

Lemma hear_replies w ms w' said h fuel : replies w ms w' -> heard_of said h -> (ws_to_come w < fuel)%nat ->
  exists h', listen fuel h w = Some (w', Ok h') /\ heard_of (said ++ texts_said ms) h'.
Proof.
  intros Ha. revert said h fuel. induction Ha as [w w' m E Hr Hl|w w' w'' m ms E Hr Hl _ IH]; intros said h [|fuel] Hh Hf; [lia| |lia|];
    cbn [listen]; rewrite E, Hr, Hl; apply (hear_message_law m) in Hh.
  - exists (hear_message m h). split; [done|]. unfold texts_said. cbn [map concat]. by rewrite app_nil_r.
  - apply message_takes in E. destruct (IH _ _ fuel Hh ltac:(lia)) as (h' & E' & Hh'). exists h'. split; [done|].
    unfold texts_said in *. cbn [map concat]. by rewrite app_assoc.
Qed.

(** However the service behaves, the conversation has an end. *)
Lemma hear_ends w h fuel : (ws_to_come w < fuel)%nat -> listen fuel h w <> None.
Proof.
  revert w h. induction fuel as [|fuel IH]; intros w h Hf; [lia|]. cbn [listen].
  destruct (readJSONWebsocketMessage w) as [w' [m|e]] eqn:E; [|done]. destruct (reported m); [done|]. destruct (extractIflytekRTASRLastSegment m); [done|].
  apply message_takes in E. apply IH. lia.
Qed.

Lemma conversation_ends `{!SigningKit} utc uuid t req (w : W) : rtasr_Transcribe utc uuid t req w <> None.
Proof.
  unfold rtasr_Transcribe. destruct (rtasr_validate t req); [done|]. destruct (ws_dial _ w) as [w1 [e|]]; [done|].
  destruct (readJSONWebsocketMessage w1) as [w2 [m|e]]; [|done]. cbv zeta. destruct (writeIflytekRTASRAudio _ _ w2) as [w3 [e|]]; [done|].
  destruct (WriteJSON _ w3) as [w4 [e|]]; [done|]. pose proof (hear_ends w4 (mkHeard ∅ [] []) (1 + ws_to_come w4) ltac:(lia)) as He.
  by destruct (listen _ _ w4).
Qed.

(** C10. A recording is heard whole.  Once the service has greeted the client, the
    recording is sent in order, in full frames and a last one, and then the end
    with the session's id; a frame that is not taken is the error of the call.
    When the service then replies, in any number of messages that revise and
    reorder their segments as they like, the transcript is, for every segment in
    the order of their ids, the text said last, and then what came without an id;
    the partials are all texts in the order they came. *)
Theorem recording_is_transcribed `{!SigningKit} utc uuid t req (w w1 w2 : W) started :
  rtasr_validate t req = None -> ws_dial (rtasr_url utc uuid t) w = (w1, None) -> readJSONWebsocketMessage w1 = (w2, Ok started) ->
  let sessionID := asString (field "sessionId" (asMap (field "data" started))) in
  exists cs, sent_whole (frame_size t) (tq_AudioPCM req) cs /\
    let sent := map BinaryFrame cs ++ [TextFrame (Marshal (end_payload sessionID) ++ [10])] in
    (forall w3 e, send_all sent w2 = (w3, Some e) -> rtasr_Transcribe utc uuid t req w = Some (w3, Err e)) /\
    (forall w3 ms w4, send_all sent w2 = (w3, None) -> replies w3 ms w4 ->
     exists r, rtasr_Transcribe utc uuid t req w = Some (w4, Ok r) /\
       transcript (texts_said ms) (rec_Segments r) /\ rec_Text r = concat (rec_Segments r) /\ rec_Partials r = map snd (texts_said ms)).
Proof.
  intros Hv Hd Hs. cbv zeta. destruct (audio_sent t (tq_AudioPCM req)) as (cs & Hcs & Hw). exists cs. split; [done|].
  unfold rtasr_Transcribe. rewrite Hv, Hd, Hs. cbv zeta. rewrite Hw. setoid_rewrite send_all_app. cbn [send_all]. fold (WriteJSON (W := W)).
  unfold WriteJSON. destruct (send_all _ w2) as [w3 [e|]]; [split; [by intros ? ? [= <- <-]|done]|].
  destruct (ws_write _ w3) as [w4 [e|]]; [split; [by intros ? ? [= <- <-]|done]|]. split; [done|]. intros ? ms w5 [= <-] Ha.
  destruct (hear_replies _ _ _ [] _ (1 + ws_to_come w4) Ha heard_of_nothing ltac:(lia)) as (h & -> & Hh). exists (rtasr_result t req h).
  split; [done|]. unfold rtasr_result. cbv zeta. cbn [rec_Segments rec_Text rec_Partials]. split; [by apply segments_law|]. split; [done|apply Hh].
Qed.

End Conversation.

(** ** A conversation *)

(** A service that says what is written down, whatever it is told. *)
Record demo_line := mkLine { to_say : list (Z * text); was_told : list ws_frame }.

#[local] Program Instance demo_socket : SocketService demo_line := {
  ws_dial _ w := (w, None);
  ws_write f w := (mkLine (to_say w) (was_told w ++ [f]), None);
  ws_read w := match to_say w with [] => (w, Err (txt "close 1006")) | m :: ms => (mkLine ms (was_told w), Ok m) end;
  ws_to_come w := length (to_say w)
}.
Next Obligation. intros [[|m' ms] told] w' m E; cbn in *; [done|]. injection E as <- _. cbn. lia. Qed.

Definition demo_segment (id : option Z) (s : text) (is_last : bool) : list (text * any) :=
  [(txt "code", ANumber (f_of_Z 0));
   (txt "data", AMap ([(txt "cn", AMap [(txt "st", AMap [(txt "rt", AList [AMap [(txt "ws",
                        AList (map (fun r => AMap [(txt "cw", AList [AMap [(txt "w", AString [r])]; AMap [(txt "w", AString "?")]])]) s))]])])]);
                      (txt "ls", ABool is_last)] ++ match id with Some i => [(txt "seg_id", ANumber (f_of_Z i))] | None => [] end))].

Definition demo_replies : list (list (text * any)) :=
  [demo_segment (Some 2) "气" false; demo_segment (Some 1) "今" false; demo_segment (Some 1) "今天天" false; demo_segment None "！" false; demo_segment (Some 3) "" true].

(** A message is known by its number. *)
Definition demo_numbers : JSONDecoder := {|
  decode_map s := match s with
                  | [48] => Ok [(txt "data", AMap [(txt "sessionId", AString "s-1")])]
                  | [n] => match demo_replies !! Z.to_nat (n - 49) with Some m => Ok m | None => Err (txt "unexpected end of JSON input") end
                  | _ => Err (txt "invalid character")
                  end;
  decode_any s := Err (txt "invalid character")
|}.

#[local] Instance demo_signing : SigningKit := {|
  hmac_sha1 secret payload := text_bytes (secret ++ payload);
  hmac_sha256 secret payload := text_bytes (secret ++ payload);
  URL_String scheme host path query := scheme ++ txt "://" ++ host ++ path ++ txt "?" ++ query
|}.

Definition demo_rtasr : IflytekRTASRTranscriber := NewIflytekRTASRTranscriber (mkIflytekRTASR "app" "key" "secret" "" "" 0 "" "" "" 0 0 0 0).
Definition demo_recording : TranscriptionRequest := mkTranscriptionRequest "s" "t" "" "d" (repeat Byte.x2a 3000) "pcm16le" 16000 1 "" [] [].
Definition demo_call : demo_line := mkLine (map (fun n => (TextMessage, [n])) [48; 49; 50; 51; 52; 53]) [].

Lemma recording_is_transcribed_witness :
  let t := demo_rtasr in
  let started := [(txt "data", AMap [(txt "sessionId", AString "s-1")])] in
  let w2 := mkLine (map (fun n => (TextMessage, [n])) [49; 50; 51; 52; 53]) [] in
  option_map (fun '(w, r) => match r with Ok r => Some (rec_Text r, rec_Partials r, len (was_told w)) | Err _ => None end)
    (@rtasr_Transcribe demo_numbers _ _ _ "utc" "uuid" t demo_recording demo_call) = Some (Some (txt "今天天气！", texts ["气"; "今"; "今天天"; "！"], 4)) /\
  exists cs, sent_whole (frame_size t) (tq_AudioPCM demo_recording) cs /\
    let sent := map BinaryFrame cs ++ [TextFrame (Marshal (end_payload "s-1") ++ [10])] in
    (forall w3 e, send_all sent w2 = (w3, Some e) -> @rtasr_Transcribe demo_numbers _ _ _ "utc" "uuid" t demo_recording demo_call = Some (w3, Err e)) /\
    (forall w3 ms w4, send_all sent w2 = (w3, None) -> @replies _ _ demo_numbers w3 ms w4 ->
     exists r, @rtasr_Transcribe demo_numbers _ _ _ "utc" "uuid" t demo_recording demo_call = Some (w4, Ok r) /\
       transcript (texts_said ms) (rec_Segments r) /\ rec_Text r = concat (rec_Segments r) /\ rec_Partials r = map snd (texts_said ms)).
Proof.
  cbv zeta. split; [vm_compute; reflexivity|].
  apply (@recording_is_transcribed demo_line demo_socket demo_numbers demo_signing "utc" "uuid" demo_rtasr demo_recording demo_call demo_call
    (mkLine (map (fun n => (TextMessage, [n])) [49; 50; 51; 52; 53]) []) [(txt "data", AMap [(txt "sessionId", AString "s-1")])]);
    vm_compute; reflexivity.
Defined.
